(* ===== verification/_CoqProject ===== *)
-Q . S2P
Prelude.v
ErrorCodes.v
Types.v
Address.v
Threading.v
TaskState.v
CronTypes.v
Database.v
ThreadSend.v
Selection.v
Transaction.v
Roster.v
RosterMirror.v
CronStore.v
CronTransition.v
CronDelivery.v
CronTiming.v
CronTimingProps.v
CronEngine.v
CronScheduler.v
HookReply.v
CronWorker.v
MemberMutation.v
RosterDemo.v
RosterProps.v
MemberProps.v
NudgeTemplate.v
CronPlanSpec.v
CronWorkerSpec.v
CronApplySpec.v
TaskCodec.v
TaskQueue.v
QueueFacts.v
LedgerInv.v
EventLog.v
MailStore.v
MailboxReader.v
ReadCommands.v
ReadCommandProps.v
MailSpec.v
TaskOps.v
PlacementSpec.v
TaskStartSpec.v
TaskMoveSpec.v
TaskAssignSpec.v
TaskCloseSpec.v
Admission.v
Writer.v
Handoff.v
MailboxRuntime.v
PendingNudge.v
Dispatch.v
HerdrPolicy.v
HerdrWake.v
WriterInv.v
WriterSpec.v
HandoffSpec.v
ReaderSpec.v
TaskStore.v
HerdrTasks.v
HerdrSpec.v
Demo.v
NudgeProps.v
ThreadProps.v
MailboxDemo.v
HandoffProps.v
MailboxProps.v
TaskProps.v
WriterProps.v
TaskStoreProps.v
CronDemo.v
PendingProps.v
HerdrProps.v
CronProps.v
CronRunDemo.v
CronWorkerProps.v
CronEngineSpec.v
HookReplyProps.v
CronEngineProps.v
CronSchedulerProps.v
