(* ===== verification/Prelude.v ===== *)
(** * The ATM store, its mailboxes and rosters, its nudges and its cron scheduler

    A verification development for the storage layer of ATM, an agent-team mail
    system written in Rust, and for what runs directly above it: reading
    mailboxes, message threads, team rosters, the pump that wakes agents, and the
    cron scheduler.  Agents of a team exchange messages; a message may update an
    earlier one or carry a task operation (assign, start, close, move); a message
    that waits for an idle agent is handed to it as a nudge, and tasks that are not
    started are reminded of; modules run on cron schedules and may send mail and
    actions of their own.  All of it goes through one SQLite database with one
    writer.  The development models these parts from
    their source and proves what their callers rely on.

    ** The program and its parts

    - [crates/atm-error], [crates/atm-storage/src/error*.rs]: error codes with
      their wire spellings, and the catalog of guidance texts.
    - [crates/atm-storage/src/task_state.rs], [task_op.rs], [task_store.rs],
      [contract.rs], [types.rs], [address.rs], [validation.rs],
      [cron_schedule_store.rs], [cron_transition_store.rs], [hook_types.rs],
      [hook_error.rs], [schema/inbox_message.rs]: the data and its parsers.
    - [crates/atm-storage-rusqlite/src/task_store.rs], [task_sql.rs]: the task
      tables, their decoding, the direct operations and queries on tasks.
    - [crates/atm-storage-rusqlite/src/writer/]: the writer lane.  [batch.rs]
      runs the queued operations of a batch in one transaction, each in a
      savepoint; [ops.rs], [message_admission.rs], [read_display_state.rs] and
      [ops_admission.rs] are the operations; [task_ops.rs], [task_start.rs],
      [task_close.rs], [task_assignment_refresh.rs], [task_reassign_notice.rs],
      [task_report.rs] and [task_rejection.rs] apply the task members of an
      admitted message.
    - [crates/atm-storage-rusqlite/src/cron_schedule_store.rs],
      [cron_transition_store.rs], [hook_schema.rs], [store_support.rs]: the
      schedules, and the log of their transitions with the deliveries it owes.
    - [crates/atm-cron/src/]: the scheduler.  [scheduler.rs] starts, ends and
      lists schedules; [worker.rs] is the loop that plans, spawns and ends runs
      and reloads the schedules; [engine.rs] and [tick.rs] are one run: stop
      check, module, actions, the committed transition and its deliveries;
      [expr.rs], [jitter.rs] and [clock.rs] compute times.  Requests and replies
      of modules are in [crates/atm-core/src/hook/] and [boundary/].
    - [crates/atm-core/src/threading.rs], [send/request.rs]: threads of messages
      and the checks an update passes before it is admitted.
    - [crates/atm-core/src/read/], [list.rs], [caller_context.rs],
      [mailbox/source.rs]: selection of messages and the commands read, peek
      and list; [crates/atm-storage-rusqlite/src/mailbox_reader.rs] and
      [sql_filters.rs] are the queries behind them,
      [crates/atm-runtime/src/mailbox_runtime.rs] the runtime that serves them
      and hands the state of a read to the writer lane.
    - [crates/atm-storage/src/contract/roster.rs],
      [crates/atm-storage-rusqlite/src/roster_store.rs], [roster_runtime.rs]: the
      members of teams, in the database and mirrored in memory with what is
      observed of their agents;
      [crates/atm-core/src/team_admin/member_mutation.rs] and
      [delivery_channel.rs] add, change and remove them.
    - [crates/atm-core/src/send/nudge_template.rs], [team_admin.rs],
      [crates/atm-storage-rusqlite/src/nudge_template_override_store.rs]: the texts
      that wake an agent, and the overrides of a team.
    - [crates/atm-storage-rusqlite/src/pending_nudge_store.rs]: the messages that
      wait for their agent; [crates/atm-core/src/nudge_dispatch.rs],
      [send/hook.rs], [delivery_policy.rs]: the dispatch a message or a task
      becomes; [provenance.rs], [send/recipient.rs], [send/received_hook.rs],
      [write/pipeline.rs]: where a write comes from, and whom it nudges.
    - [crates/atm-http-runtime/src/herdr_queue_wake.rs] with its modules,
      [herdr_task_disposition.rs], [herdr_escalation.rs],
      [herdr_queue_wake_escalation.rs]: the pump, which polls the agents, hands
      pending messages to idle ones, reminds them of tasks, and reports stalled
      tasks and blocked or absent members to the leads.

    ** Files

    Definitions, each beside the code it translates:

    - [Prelude]: outcomes ([Ok], [Err], [Panic]), the state monad, [wp].
    - [ErrorCodes]: [AtmErrorCode], its spelling and parser, the catalog, [AtmError].
    - [Types]: integers with their widths, JSON values, envelopes, messages.
    - [Address]: agent names, teams, hosts, identities and addresses, their
      parsers and printers, and the theorem on them.
    - [TaskState]: states, rows, events, the transition and admission tables, JSON
      shapes, and the theorems on them.
    - [CronTypes]: schedules, transitions, deliveries and their parsers, the cron
      tables.
    - [Database]: the tables as maps and lists with their constraints, the
      runtime ([Runtime]: clock, ULIDs, JSON text, failures of transaction
      control), the world and the monad [M].  [Transaction]: [with_transaction].
    - [TaskCodec], [TaskQueue]: decoding rows; queues, renumbering, event append.
    - [MailStore]: canonical insert, display state, search document.
    - [TaskOps]: assignment, start, close and move.
    - [Admission]: [upsert_message_body], acknowledgement, deletion, reading, the
      cron fence and the dispatcher [execute].
    - [Writer]: savepoints, admission groups, batches, the audit of refusals.
    - [TaskStore]: reminders, notifications, prompt handoffs, escalation
      recipients, queries.
    - [CronStore], [CronTransition]: the two cron stores.
    - [CronTiming]: expressions, jitter, sleeping, the reload backoff.
    - [CronEngine]: one run.  [CronScheduler]: the service.  [CronWorker]: the loop.
    - [HookReply]: the replies modules print, and the limits of a start request.
    - [Threading]: the thread index and its walks.  [ThreadSend]: the checks of an
      update, and the life of a mailbox under concurrent senders.
    - [Selection]: classification, filters and selection of messages.
      [MailboxReader]: the queries.  [ReadCommands]: read, peek and list as
      commands.  [Handoff]: the queue of read states, its worker and manager.
      [MailboxRuntime]: the runtime that ties them together.
    - [Roster]: members, unique names, the roster store.  [RosterMirror]: the rosters
      in memory and the write-through view.  [MemberMutation]: the mutations.
    - [NudgeTemplate]: templates, rendering, overrides.  [PendingNudge]: the store of
      pending nudges.  [Dispatch]: the provenance of a write, delivery channels, and the
      dispatches of a write, of a stored message and of a task.
    - [HerdrPolicy]: the disposition of a member and its head task, episodes, the
      reading of a poll.  [HerdrWake]: the state of the pump, the bridge,
      observations, claims with their guard, the drain.  [HerdrTasks]: reminders,
      escalations, [tick_once].

    Facts and specifications: [QueueFacts] and [LedgerInv] (the queue invariant),
    [EventLog] (the event log), [MailSpec] (the mail tables), [PlacementSpec],
    [TaskStartSpec], [TaskMoveSpec], [TaskAssignSpec], [TaskCloseSpec] (each task
    operation), [WriterInv] (every operation keeps the invariant), [WriterSpec]
    (batches, permits, acknowledgements, reachable stores, and what no operation of
    the writer can change: [Frame], [MailFrame], [WriteFrame]); [CronDelivery] (the
    payload codec); [CronPlanSpec], [CronWorkerSpec], [CronApplySpec] (the plan,
    the reload and end of a run, the application of a step); [CronEngineSpec]
    (what a run may do to the store); [ReaderSpec] (pages and selections);
    [HandoffSpec] (one attempt, the supervisor's invariant); [HerdrSpec] (which
    computations of the pump prompt nobody, the count of prompts, and which report
    no stalled task).  The facts
    of the cron stores, the task store, threads, selections, rosters and member
    mutations follow the definitions in their own files.

    Theorems: [TaskProps], [WriterProps], [TaskStoreProps], [CronProps],
    [CronTimingProps], [CronWorkerProps], [CronEngineProps],
    [CronSchedulerProps], [HookReplyProps], [ThreadProps], [ReadCommandProps],
    [HandoffProps], [MailboxProps], [RosterProps], [MemberProps], [NudgeProps],
    [PendingProps], [HerdrProps], beside those of
    [ErrorCodes], [Address] and [TaskState]; [Demo], [CronDemo], [CronRunDemo],
    [MailboxDemo] and [RosterDemo] have the concrete stores and ports they are
    evaluated on.

    ** How code becomes definitions

    A fallible function returns [Outcome]: a value, an [AtmError], or a panic.
    Code that mutates the connection is a function of type [M], which returns the
    state with every outcome: an error leaves partial changes, which only the
    enclosing savepoint or transaction undoes, as in the code.  A table is a
    finite map from its primary key to its row, or the list of its rows where
    [rowid] order matters ([task_events], [prompt_handoffs]).  An [UPDATE] visits
    its rows one by one in an order the runtime chooses ([scan]) and checks the
    row's CHECKs and the unique index after each, as SQLite does; this is why the
    two-phase renumbering of [renumber_queue] is needed and what
    [renumber_queue_exact] proves about it.  A column is kept at the type the
    code writes; a value that does not fit the type it is read at is a decoding
    error.  Text built with [format!] is modelled with its wording.

    The scheduler is code of type [C] over [CronState]: the world, the calls made
    to its ports and the flags of [AtmCron].  At every [await] on the store or on
    a port, [others] is applied first: what other tasks do to the database in
    between.  The theorems assume of it only what the operations of the store
    guarantee ([PortsKeep]).  The worker adds its slots and the runs in flight
    ([Worker], type [W]); which event ends a wait is left open.

    The handoff of read states is a step relation ([handoff_step]) that
    interleaves readers, the worker, the manager and every other operation of
    the writer lane; a mailbox under concurrent senders is one too ([step] of
    [ThreadSend]).  A query of the reader lane is a function of the database
    it sees; [others_commit] is what is written between two queries of one
    request.  The roster mirror runs under its locks, so each of its operations
    is one step over the store and the rosters in memory ([RosterWorld]).

    The pump is code of type [Pump] over [PumpWorld]: the stores it shares with the
    daemon ([Shared]), its cursor, release streaks, absences, episodes and
    counters, and a record of the prompts that were accepted.  Work on the stores
    goes through the bridge, which runs a job, refuses it, or loses the answer of a
    job that ran; before each call the others may have committed and observed.

    Parameters stand for what is not in the repository: [Runtime] (above);
    [CronRuntime] (the text of timestamps, arguments and payloads, with readers
    that read what the writers write, [CronRuntimeOk]); [CronExpr] (the [cron]
    crate, whose occurrences come later than the time asked for, [CronExprOk]);
    [JitterSource] (random numbers below a bound); [CronPorts] (clock, modules,
    dispatcher, delivery ports); [HookJson] (the lexer of JSON and the wording of
    [serde]'s errors); [ReaderLane] (failures of the pool, other commits, the
    wording of decoding errors, the clock of a deadline); [RosterText] (the text
    of a member's metadata, with readers that read what is written,
    [RosterTextOk]); [HomeFs] (the inbox files); [DispatchRuntime] (the leases of
    graft receivers, the order of a table scan, the wording of decoding errors);
    [HerdrPorts] (the fates of bridge jobs, herdr, the emitters, other observers,
    the order of a hash map); [MailPort] (the write pipeline, which may change
    the database in any way).

    The close of a task admits the acknowledgement of its assignment message,
    so admission is recursive.  [execute_upsert_message] gives it two levels;
    [admission_depth_is_two] proves that any greater depth gives the same
    result.  [sleep_until] has fuel, one unit per slice of its sleep;
    [sleep_until_wakes] gives the amount that is enough.  [split_whitespace] and
    the trimming functions have the length of their text as fuel.  The walks of
    a thread have one unit per indexed message, enough by [thread_walks_end].
    The wait of a read has one unit per look at the mailbox; [waiting_read_ends]
    gives the amount that is enough.  No other definition takes fuel; the renderer
    of templates recurs on the length of the text it has left.

    ** What the theorems show

    - The ledger ([ledger_ok]): in every reachable store each member's open tasks
      have the positions 1..n, active ones first; starting, moving, assigning,
      reassigning, closing and their refusals do exactly what they should on
      every branch ([TaskProps]).  [room] bounds the ledger: twice the tasks
      stored and to be added stay below the largest [u32], the width positions
      are read at; the factor two is the offset of the renumbering.
    - The event log ([events_ok]): events of a task are numbered 1, 2, 3, ... and
      each reads back as it was written; the log only grows ([log_extended] and
      [log_starts]).
    - Mail ([mail_ok]): messages, display states and search documents agree;
      a stored message reads back; re-admission never rewrites it, though it does
      rewrite its read and acknowledgement state, which looks unintended; an
      acknowledged message that is not admitted again stays acknowledged; peer mail
      never reaches the ledger.
    - The writer: an operation is atomic; a batch is a sequence of operations,
      whatever the grouping of its admissions; a failed transaction changes
      nothing; a stale cron permit leaves no trace.  [sequential] is the abstract
      specification that [process_batch] refines.
    - The task store: reminders, queries, prompt handoffs and escalation
      recipients; and two behaviours of [record_reminder] on a task that was
      closed or reassigned in the meantime, which look unintended: the events of
      the closed task can never be listed again.
    - The cron stores ([cron_inv]): schedules, events and deliveries stay
      consistent and history is never lost ([tables_grow]); a restart fences the
      runs of earlier generations; a commit writes its event, run state and
      deliveries or nothing; a failure is announced once; a delivery is settled
      once; and a failure after a success is lost, which looks unintended.
    - The scheduler: the worker has at most one run of a schedule in flight and
      no task it does not know of; it wakes exactly when something is due and a
      wake settles all that is due; a reload keeps unchanged schedules; a start
      spreads schedules with one expression; a run always ends and keeps the
      store; jitter is uniform and sleeping ends.  Two behaviours look
      unintended: failed runs of schedules that stop by a hook are never
      recorded, and the worker panics at the 64th failed reload in a row.
    - Module replies: the strict reader of cron replies is the ordinary one on texts
      without repeated members; replies round trip and are read within the bounds
      that the engine's port promises ([tick_reply_ok], [stop_reply_ok]); a start
      request is accepted exactly within its limits.
    - Threads: concurrent senders keep every thread a line of messages by one
      sender; the walks end on every index; an update is accepted exactly under
      the stated conditions; the logical message of a thread is composed from
      its last supersede on.
    - Mailboxes: pushing a limit into the query does not change a list of messages
      with distinct times that do not expire; the buckets counted by SQL are those
      of the selection; a read shows live messages of the store without live
      successors, hands exactly these over, and a waiting read ends.  The handoff
      refines a queue: what was accepted is written in order and changes nothing
      but the messages it names, is kept, or was refused by the store.  Some behaviours look unintended: one undeliverable
      transition stops the handoff for good, a limit of one is applied before
      the chat filter, added details are displayed without their thread,
      superseded messages cannot be read by id.
    - Rosters: the write-through view and the database agree after every
      operation; a save replaces the roster of one team exactly, or changes
      nothing; effective names stay unique; the observed state of a member is
      that of its last report and changes when a report says so; members are
      added exactly when their names are free, and only members change members.
      Two behaviours look unintended: a mutation through a stale view deletes
      members, and clearing an alias can leave a member without a target.
    - Nudges: a template renders exactly when it is well formed and names known
      values, each of which is filled in as it is; a stored override always
      renders and is listed.  A write nudges at most its recipient and the former
      assignee of the task it moved, and a replay nobody; the nudge of a message
      rebuilt from the store is the one its write called for, unless the write
      moved a task.  A claim takes the oldest message that is due and holds it for
      a minute; the attempts of a message never reach the limit at which it would
      be left alone, whatever a comment says.
    - The pump: at most 16 prompts are accepted in a tick; successive drains reach
      every eligible member; a pass over a member has its reminder accepted exactly
      when it is due (an idle member without mail, fewer than ten reminders, a
      minute since the last, nothing reported) and reports a task only after ten
      reminders and if it was not reported.  One behaviour looks unintended: the reservation of a
      terminal escalation whose answer is late drops the message.
    - Codecs: addresses, error codes, task rows, events, task limits and
      deliveries round trip.

    ** What is not modelled

    The template, decomposed-message and diagnostic operations of the writer;
    full-text search behind the search documents, schema creation and
    migrations; input and output errors of single statements (constraint
    violations, decoding errors and failed transaction control are modelled);
    the threads, channels and timeouts around the writer and the pool of reader
    connections; the start and shutdown of the cron worker with their deadlines,
    and logging; the requests that the actions of a module become; the
    synchronous reads retained beside the reader lane, reads that name a message
    by its key, the task-ledger views of the list command; restoring a team and
    the projections of rosters; the write pipeline of [atm-core] but for its
    provenance checks and its nudges, which is a port of the pump here; the loop of the pump with its shutdown, cancellation in the
    middle of a tick, its logs and telemetry, and a daemon without task stores;
    processes, HTTP, TLS, the command line and the bindings to agent hosts.

    ** Left open

    The rest of the write pipeline of [atm-core], which would make [MailPort] a
    definition; the requests that the actions of a module become; the
    template and diagnostic operations of the writer; the synchronous reads. *)

From stdpp Require Import base gmap strings list sorting pretty.

(** The hints of the development: invariants and bounds a proof has at hand. *)
Create HintDb atm.

(** ** Outcomes of Rust code

    A fallible Rust function returns [Result<T, AtmError>]; a call may also
    panic ([unreachable!], an out-of-range [Vec::insert]).  The three ends are
    the three constructors. *)
Inductive Outcome (E A : Type) : Type :=
| Ok (a : A)
| Err (e : E)
| Panic.
Arguments Ok {E A} a.
Arguments Err {E A} e.
Arguments Panic {E A}.

Definition outcome_bind {E A B} (f : A -> Outcome E B) (o : Outcome E A) : Outcome E B :=
  match o with
  | Ok a => f a
  | Err e => Err e
  | Panic => Panic
  end.

#[export] Instance outcome_ret E : MRet (Outcome E) := fun A a => Ok a.
#[export] Instance outcome_mbind E : MBind (Outcome E) := fun A B f o => outcome_bind f o.
#[export] Instance outcome_fmap E : FMap (Outcome E) :=
  fun A B f o => outcome_bind (fun a => Ok (f a)) o.

(** [Option::map(..).transpose()]: run a fallible decoder under an option. *)
Definition option_traverse {E A B} (f : A -> Outcome E B) (o : option A)
    : Outcome E (option B) :=
  match o with
  | None => Ok None
  | Some a => outcome_bind (fun b => Ok (Some b)) (f a)
  end.

(** Collecting an iterator of results stops at the first error. *)
Fixpoint collect {E A} (l : list (Outcome E A)) : Outcome E (list A) :=
  match l with
  | [] => Ok []
  | o :: l' => outcome_bind (fun a => outcome_bind (fun r => Ok (a :: r)) (collect l')) o
  end.

Lemma collect_iff {E A B} (f : A -> Outcome E B) (l : list A) bs :
  collect (f <$> l) = Ok bs <-> Forall2 (fun a b => f a = Ok b) l bs.
Proof.
  revert bs. induction l as [|a l IH]; intros bs; [|rewrite fmap_cons; cbn [collect]].
  - split; [by intros [= <-]|by inversion_clear 1].
  - split.
    + destruct (f a) as [b|e|] eqn:Hb; [|done..]. cbn [outcome_bind].
      destruct (collect _) as [bs'|e|]; [|done..]. cbn [outcome_bind]. intros [= <-]. constructor; [done|by apply IH].
    + inversion_clear 1 as [|?? l1 ls Hb Hf]. rewrite Hb. cbn [outcome_bind]. apply IH in Hf. by rewrite Hf.
Qed.

Lemma collect_no_panic {E A B} (f : A -> Outcome E B) (l : list A) :
  Forall (fun a => f a <> Panic) l -> collect (f <$> l) <> Panic.
Proof.
  induction 1 as [|a l Ha _ IH]; [done|]. rewrite fmap_cons. cbn [collect].
  destruct (f a); cbn [outcome_bind]; [by destruct (collect _)|done|done].
Qed.

(** ** Stateful computations

    The writer mutates one SQLite connection; an error leaves the partial
    changes in place until the enclosing savepoint is dropped, so the state is
    returned with every outcome. *)
Definition ST (S E A : Type) : Type := S -> Outcome E A * S.

Definition st_bind {S E A B} (f : A -> ST S E B) (c : ST S E A) : ST S E B :=
  fun s =>
    match c s with
    | (Ok a, s') => f a s'
    | (Err e, s') => (Err e, s')
    | (Panic, s') => (Panic, s')
    end.

#[export] Instance st_ret S E : MRet (ST S E) := fun A a s => (Ok a, s).
#[export] Instance st_mbind S E : MBind (ST S E) := fun A B f c => st_bind f c.
#[export] Instance st_fmap S E : FMap (ST S E) :=
  fun A B f c => st_bind (fun a s => (Ok (f a), s)) c.

Definition st_get {S E} : ST S E S := fun s => (Ok s, s).
Definition st_put {S E} (s' : S) : ST S E unit := fun _ => (Ok tt, s').
Definition st_fail {S E A} (e : E) : ST S E A := fun s => (Err e, s).
Definition st_panic {S E A} : ST S E A := fun s => (Panic, s).
Definition st_lift {S E A} (o : Outcome E A) : ST S E A := fun s => (o, s).

Fixpoint st_iter {S E A} (f : A -> ST S E unit) (l : list A) : ST S E unit :=
  match l with
  | [] => mret tt
  | a :: l' => _ ← f a; st_iter f l'
  end.

(** ** Partial correctness with error and panic postconditions

    [wp c Q X s]: running [c] from [s] never panics, an [Ok] result satisfies
    [Q], an [Err] result satisfies [X]. *)
Definition wp {S E A} (c : ST S E A) (Q : A -> S -> Prop) (X : E -> S -> Prop) (s : S) : Prop :=
  match c s with
  | (Ok a, s') => Q a s'
  | (Err e, s') => X e s'
  | (Panic, _) => False
  end.

Section WpRules.
Context {S E : Type}.
Implicit Types s : S.

Lemma wp_ret {A} (a : A) (Q : A -> S -> Prop) (X : E -> S -> Prop) s :
  Q a s -> wp (mret a) Q X s.
Proof. done. Qed.

Lemma wp_bind {A B} (c : ST S E A) (f : A -> ST S E B) Q (X : E -> S -> Prop) s :
  wp c (fun a s' => wp (f a) Q X s') X s -> wp (mbind f c) Q X s.
Proof.
  unfold wp, mbind, st_mbind, st_bind.
  by destruct (c s) as [[a|e|] s'].
Qed.

Lemma wp_fmap {A B} (c : ST S E A) (f : A -> B) Q (X : E -> S -> Prop) s :
  wp c (fun a s' => Q (f a) s') X s -> wp (f <$> c) Q X s.
Proof.
  unfold wp, fmap, st_fmap, st_bind.
  by destruct (c s) as [[a|e|] s'].
Qed.

Lemma wp_mono {A} (c : ST S E A) (Q Q' : A -> S -> Prop) (X X' : E -> S -> Prop) s :
  wp c Q X s ->
  (forall a s', Q a s' -> Q' a s') ->
  (forall e s', X e s' -> X' e s') ->
  wp c Q' X' s.
Proof.
  unfold wp. intros H HQ HX.
  destruct (c s) as [[a|e|] s']; auto.
Qed.

Lemma wp_get (Q : S -> S -> Prop) (X : E -> S -> Prop) s :
  Q s s -> wp st_get Q X s.
Proof. done. Qed.

Lemma wp_put s' (Q : unit -> S -> Prop) (X : E -> S -> Prop) s :
  Q tt s' -> wp (st_put s') Q X s.
Proof. done. Qed.

Lemma wp_fail {A} e (Q : A -> S -> Prop) (X : E -> S -> Prop) s :
  X e s -> wp (st_fail e) Q X s.
Proof. done. Qed.

Lemma wp_run_ok {A} (c : ST S E A) Q X s a s' :
  wp c Q X s -> c s = (Ok a, s') -> Q a s'.
Proof. unfold wp. intros H Hc. by rewrite Hc in H. Qed.

Lemma wp_run_err {A} (c : ST S E A) Q X s e s' :
  wp c Q X s -> c s = (Err e, s') -> X e s'.
Proof. unfold wp. intros H Hc. by rewrite Hc in H. Qed.

Lemma wp_run_no_panic {A} (c : ST S E A) Q X s s' :
  wp c Q X s -> c s <> (Panic, s').
Proof. unfold wp. intros H Hc. by rewrite Hc in H. Qed.
End WpRules.

(** ** Lists *)

Lemma StronglySorted_lookup {A} (R : relation A) (l : list A) :
  (forall i j x y, (i < j)%nat -> l !! i = Some x -> l !! j = Some y -> R x y) ->
  StronglySorted R l.
Proof.
  induction l as [|x l IH]; intros H; constructor.
  - apply IH. intros i j y z Hij Hi Hj. apply (H (S i) (S j)); [lia|done..].
  - apply Forall_lookup. intros j y Hj. by apply (H 0%nat (S j)); [lia|..].
Qed.

Lemma Forall_filter_of {A} (P Q : A -> Prop) `{!forall x, Decision (Q x)} (l : list A) :
  Forall P l -> Forall P (filter Q l).
Proof.
  rewrite !Forall_forall. intros HP x [_ Hx]%list_elem_of_filter. by apply HP.
Qed.

(** ** Options *)

Lemma lookup_same {A} (o : option A) a b : o = Some a -> o = Some b -> a = b.
Proof. congruence. Qed.
