(* ===== verification/ErrorCodes.v ===== *)
(** * Stable error codes and the error catalogue

    Models [crates/atm-error/src/error_codes.rs] (the [AtmErrorCode] registry,
    its wire spelling and its parser), [crates/atm-storage/src/error_catalog.rs]
    (the recovery guidance of each code) and the constructors of [AtmError] in
    [crates/atm-storage/src/error.rs] that the task ledger and the mail writer
    use.  Every arm is in the order of the source. *)

From S2P Require Import Prelude.
From stdpp Require Import base strings list.
Local Open Scope string_scope.

(** [AtmErrorCode]: one constructor per variant. *)
Inductive AtmErrorCode : Set :=
| ConfigHomeUnavailable
| AtmHomeUnresolved
| ConfigParseFailed
| ConfigRetiredHookMembersKey
| ConfigRetiredLegacyHookKeys
| ConfigTeamParseFailed
| ConfigTeamMissing
| IdentityUnavailable
| IdentityInvalid
| IdentityConflict
| MemberAlreadyExists
| MemberNotFound
| DaemonUnavailable
| RuntimeRootInvalid
| RuntimeBootstrapRefused
| SocketOverrideForbidden
| DaemonMayHaveExecuted
| DaemonLifecycleWedge
| DaemonLaunchGateRejected
| DaemonServingStateRejected
| DaemonStaleOwnerRecoveryFailed
| DaemonAutoStartFailed
| DaemonConnectionSaturated
| BlockingBridgeDeadlineBeforeStart
| BlockingBridgeDeadlineAfterStart
| RemoteDeliveryUnconfirmed
| PeerWireModeInvalid
| PeerWireModeSourceForbidden
| PeerWirePlaintextAuthenticationRequired
| PeerConfigValidationFailed
| CertificateOperationFailed
| PeerAuthenticationFailed
| TransportTimeout
| TransportProtocolFailed
| BindPreflightFailed
| ClientDaemonVersionIncompatible
| DaemonAdvisorySessionAlreadyRegistered
| DaemonAdvisorySessionNotRegistered
| DaemonAdvisorySessionCleanupFailed
| AddressParseFailed
| TeamUnavailable
| TeamInvalid
| TeamNotFound
| AgentNotFound
| MailboxReadFailed
| MailboxWriteFailed
| MailboxLockFailed
| MailboxLockReadOnlyFilesystem
| MailboxLockTimeout
| InternalError
| MessageValidationFailed
| TaskNotFound
| TaskAlreadyActive
| TaskAlreadyClosed
| TaskNotCounterparty
| TaskStaleCounterparty
| TaskMoveInvalid
| TaskMaxActiveReached
| SearchLocalOnly
| LocalHttpCapabilityInvalid
| LocalHttpEndpointSchemaUnsupported
| LocalHttpEndpointMissing
| LocalHttpEndpointNonLoopback
| LocalHttpRuntimeDirectoryMissing
| LocalHttpCapabilityRevoked
| MessageIdConflict
| SelfAddressedSendInvalid
| EmptyNudgeTemplateBody
| CallerContextRequestInvalid
| TemplateContentNotUtf8
| DecomposedTemplateIncludeForbidden
| TemplateLoadFailed
| TemplateHashApiFailed
| TemplateInspectionParseFailed
| TemplateRequiredVariableMissing
| TemplateVariableResolutionFailed
| TemplateRenderVerificationFailed
| TemplateIncludeUnresolved
| TemplateClassificationInvalid
| TemplateWorkflowInvalid
| TemplateWorkflowValueInvalid
| TemplateTagReserved
| WorkflowQueryInvalid
| WorkflowTelemetryConfigInvalid
| TelemetryExportConfigInvalid
| WorkflowTelemetryDropped
| SerializationFailed
| FilePolicyRejected
| FileReferenceRewriteFailed
| WaitTimeout
| AckInvalidState
| ClearInvalidState
| ObservabilityEmitFailed
| ObservabilityQueryFailed
| ObservabilityFollowFailed
| ObservabilityHealthFailed
| ObservabilityBootstrapFailed
| ObservabilityHealthOk
| RetainedDiagnosticsHealthOk
| WarningInvalidTeamMemberSkipped
| WarningMailboxRecordSkipped
| WarningMalformedAtmFieldIgnored
| WarningObservabilityHealthDegraded
| WarningRetainedDiagnosticsDegraded
| WarningSqliteHealthDegraded
| WarningOriginInboxEntrySkipped
| WarningMissingTeamConfigFallback
| WarningSendAlertStateDegraded
| WarningIdentityDrift
| WarningRosterDrift
| WarningHerdrUnnamedAgentTarget
| WarningBaselineMemberMissing
| WarningRestoreInProgress
| WarningStaleMailboxLock
| WarningHookSkipped
| WarningHookExecutionFailed
| RosterNoLead
| RosterMultipleLeads
| RosterReservedName
| TaskStalled
| MemberBlocked
| RosterMixedLocalBackend
| HerdrAgentNotVisible
| PostSendPaneMissing
| PostSendTmuxSendFailed
| PostSendHerdrPromptFailed
| HerdrPromptFailed
| HerdrUnavailable
| PostSendGraftUnavailable
| GraftReceiverAlreadyActive
| GraftReceiverNotOwner
| GraftReceiverNotRegistered
| PostSendAdvisoryDeliveryFailed
| TestFakeTransportInjectionFailed
| HelpTopicNotFound
| HookModuleInvalid
| CronExprInvalid
| HookRefused
| HookExit
| HookTimeout
| HookMalformed
| StoreQueryFailed
| ToolSenderUnregistered
| ToolSenderReserved
| ToolSenderUnauthorized
| ToolKeyUnknown
| ToolKeyRevoked
| ToolNonceReplay
| ToolHostMismatch
| ToolGenerationConflict
| ToolSignatureInvalid
| ToolRequestExpired
| ToolCommitUncertain.

Definition config_or_identity_str (code : AtmErrorCode) : option string :=
  match code with
  | ConfigHomeUnavailable => Some "ATM_CONFIG_HOME_UNAVAILABLE"
  | AtmHomeUnresolved => Some "ATM_HOME_UNRESOLVED"
  | ConfigParseFailed => Some "ATM_CONFIG_PARSE_FAILED"
  | ConfigRetiredHookMembersKey => Some "ATM_CONFIG_RETIRED_HOOK_MEMBERS_KEY"
  | ConfigRetiredLegacyHookKeys => Some "ATM_CONFIG_RETIRED_LEGACY_HOOK_KEYS"
  | ConfigTeamParseFailed => Some "ATM_CONFIG_TEAM_PARSE_FAILED"
  | ConfigTeamMissing => Some "ATM_CONFIG_TEAM_MISSING"
  | IdentityUnavailable => Some "ATM_IDENTITY_UNAVAILABLE"
  | IdentityInvalid => Some "ATM_IDENTITY_INVALID"
  | IdentityConflict => Some "ATM_IDENTITY_CONFLICT"
  | MemberAlreadyExists => Some "ATM_MEMBER_ALREADY_EXISTS"
  | MemberNotFound => Some "ATM_MEMBER_NOT_FOUND"
  | _ => None
  end.

Definition daemon_or_address_str (code : AtmErrorCode) : option string :=
  match code with
  | DaemonUnavailable => Some "ATM_DAEMON_UNAVAILABLE"
  | RuntimeRootInvalid => Some "ATM_RUNTIME_ROOT_INVALID"
  | RuntimeBootstrapRefused => Some "ATM_RUNTIME_BOOTSTRAP_REFUSED"
  | SocketOverrideForbidden => Some "ATM_SOCKET_OVERRIDE_FORBIDDEN"
  | DaemonMayHaveExecuted => Some "ATM_DAEMON_MAY_HAVE_EXECUTED"
  | DaemonLifecycleWedge => Some "ATM_DAEMON_LIFECYCLE_WEDGE"
  | DaemonLaunchGateRejected => Some "ATM_DAEMON_LAUNCH_GATE_REJECTED"
  | DaemonServingStateRejected => Some "ATM_DAEMON_SERVING_STATE_REJECTED"
  | DaemonStaleOwnerRecoveryFailed => Some "ATM_DAEMON_STALE_OWNER_RECOVERY_FAILED"
  | DaemonAutoStartFailed => Some "ATM_DAEMON_AUTO_START_FAILED"
  | DaemonConnectionSaturated => Some "ATM_DAEMON_CONNECTION_SATURATED"
  | BlockingBridgeDeadlineBeforeStart => Some "ATM_BLOCKING_BRIDGE_DEADLINE_BEFORE_START"
  | BlockingBridgeDeadlineAfterStart => Some "ATM_BLOCKING_BRIDGE_DEADLINE_AFTER_START"
  | RemoteDeliveryUnconfirmed => Some "REMOTE_DELIVERY_UNCONFIRMED"
  | PeerWireModeInvalid => Some "ATM_PEER_WIRE_MODE_INVALID"
  | PeerWireModeSourceForbidden => Some "ATM_PEER_WIRE_MODE_SOURCE_FORBIDDEN"
  | PeerWirePlaintextAuthenticationRequired => Some "ATM_PEER_WIRE_PLAINTEXT_AUTHENTICATION_REQUIRED"
  | PeerConfigValidationFailed => Some "ATM_PEER_CONFIG_VALIDATION_FAILED"
  | CertificateOperationFailed => Some "ATM_CERTIFICATE_OPERATION_FAILED"
  | PeerAuthenticationFailed => Some "ATM_PEER_AUTHENTICATION_FAILED"
  | TransportTimeout => Some "ATM_TRANSPORT_TIMEOUT"
  | TransportProtocolFailed => Some "ATM_TRANSPORT_PROTOCOL_FAILED"
  | BindPreflightFailed => Some "ATM_BIND_PREFLIGHT_FAILED"
  | ClientDaemonVersionIncompatible => Some "ATM_CLIENT_DAEMON_VERSION_INCOMPATIBLE"
  | DaemonAdvisorySessionAlreadyRegistered => Some "ATM_DAEMON_ADVISORY_SESSION_ALREADY_REGISTERED"
  | DaemonAdvisorySessionNotRegistered => Some "ATM_DAEMON_ADVISORY_SESSION_NOT_REGISTERED"
  | DaemonAdvisorySessionCleanupFailed => Some "ATM_DAEMON_ADVISORY_SESSION_CLEANUP_FAILED"
  | AddressParseFailed => Some "ATM_ADDRESS_PARSE_FAILED"
  | TeamUnavailable => Some "ATM_TEAM_UNAVAILABLE"
  | TeamInvalid => Some "ATM_TEAM_INVALID"
  | TeamNotFound => Some "ATM_TEAM_NOT_FOUND"
  | AgentNotFound => Some "ATM_AGENT_NOT_FOUND"
  | _ => None
  end.

Definition mailbox_or_validation_str (code : AtmErrorCode) : option string :=
  match code with
  | MailboxReadFailed => Some "ATM_MAILBOX_READ_FAILED"
  | MailboxWriteFailed => Some "ATM_MAILBOX_WRITE_FAILED"
  | MailboxLockFailed => Some "ATM_MAILBOX_LOCK_FAILED"
  | MailboxLockReadOnlyFilesystem => Some "ATM_MAILBOX_LOCK_READ_ONLY_FILESYSTEM"
  | MailboxLockTimeout => Some "ATM_MAILBOX_LOCK_TIMEOUT"
  | InternalError => Some "ATM_INTERNAL_ERROR"
  | MessageValidationFailed => Some "ATM_MESSAGE_VALIDATION_FAILED"
  | TaskNotFound => Some "ATM_TASK_NOT_FOUND"
  | TaskAlreadyActive => Some "ATM_TASK_ALREADY_ACTIVE"
  | TaskAlreadyClosed => Some "ATM_TASK_ALREADY_CLOSED"
  | TaskNotCounterparty => Some "ATM_TASK_NOT_COUNTERPARTY"
  | TaskStaleCounterparty => Some "ATM_TASK_STALE_COUNTERPARTY"
  | TaskMoveInvalid => Some "ATM_TASK_MOVE_INVALID"
  | TaskMaxActiveReached => Some "ATM_TASK_MAX_ACTIVE_REACHED"
  | SearchLocalOnly => Some "ATM_SEARCH_LOCAL_ONLY"
  | LocalHttpCapabilityInvalid => Some "ATM_LOCAL_HTTP_CAPABILITY_INVALID"
  | LocalHttpEndpointSchemaUnsupported => Some "ATM_LOCAL_HTTP_ENDPOINT_SCHEMA_UNSUPPORTED"
  | LocalHttpEndpointMissing => Some "ATM_LOCAL_HTTP_ENDPOINT_MISSING"
  | LocalHttpEndpointNonLoopback => Some "ATM_LOCAL_HTTP_ENDPOINT_NON_LOOPBACK"
  | LocalHttpRuntimeDirectoryMissing => Some "ATM_LOCAL_HTTP_RUNTIME_DIRECTORY_MISSING"
  | LocalHttpCapabilityRevoked => Some "ATM_LOCAL_HTTP_CAPABILITY_REVOKED"
  | MessageIdConflict => Some "ATM_MESSAGE_ID_CONFLICT"
  | SelfAddressedSendInvalid => Some "ATM_SELF_ADDRESSED_SEND_INVALID"
  | EmptyNudgeTemplateBody => Some "ATM_NUDGE_TEMPLATE_BODY_EMPTY"
  | CallerContextRequestInvalid => Some "ATM_CALLER_CONTEXT_REQUEST_INVALID"
  | TemplateContentNotUtf8 => Some "TEMPLATE_CONTENT_NOT_UTF8"
  | DecomposedTemplateIncludeForbidden => Some "DECOMPOSED_TEMPLATE_INCLUDE_FORBIDDEN"
  | TemplateLoadFailed => Some "TEMPLATE_LOAD_FAILED"
  | TemplateHashApiFailed => Some "TEMPLATE_HASH_API_FAILED"
  | TemplateInspectionParseFailed => Some "TEMPLATE_INSPECTION_PARSE_FAILED"
  | TemplateRequiredVariableMissing => Some "TEMPLATE_REQUIRED_VARIABLE_MISSING"
  | TemplateVariableResolutionFailed => Some "TEMPLATE_VARIABLE_RESOLUTION_FAILED"
  | TemplateRenderVerificationFailed => Some "TEMPLATE_RENDER_VERIFICATION_FAILED"
  | TemplateIncludeUnresolved => Some "TEMPLATE_INCLUDE_UNRESOLVED"
  | TemplateClassificationInvalid => Some "TEMPLATE_CLASSIFICATION_INVALID"
  | TemplateWorkflowInvalid => Some "TEMPLATE_WORKFLOW_INVALID"
  | TemplateWorkflowValueInvalid => Some "TEMPLATE_WORKFLOW_VALUE_INVALID"
  | TemplateTagReserved => Some "TEMPLATE_TAG_RESERVED"
  | WorkflowQueryInvalid => Some "ATM_WORKFLOW_QUERY_INVALID"
  | WorkflowTelemetryConfigInvalid => Some "ATM_WORKFLOW_TELEMETRY_CONFIG_INVALID"
  | TelemetryExportConfigInvalid => Some "ATM_TELEMETRY_EXPORT_CONFIG_INVALID"
  | WorkflowTelemetryDropped => Some "ATM_WORKFLOW_TELEMETRY_DROPPED"
  | SerializationFailed => Some "ATM_SERIALIZATION_FAILED"
  | FilePolicyRejected => Some "ATM_FILE_POLICY_REJECTED"
  | FileReferenceRewriteFailed => Some "ATM_FILE_REFERENCE_REWRITE_FAILED"
  | WaitTimeout => Some "ATM_WAIT_TIMEOUT"
  | AckInvalidState => Some "ATM_ACK_INVALID_STATE"
  | ClearInvalidState => Some "ATM_CLEAR_INVALID_STATE"
  | _ => None
  end.

Definition observability_or_warning_str (code : AtmErrorCode) : option string :=
  match code with
  | ObservabilityEmitFailed => Some "ATM_OBSERVABILITY_EMIT_FAILED"
  | ObservabilityQueryFailed => Some "ATM_OBSERVABILITY_QUERY_FAILED"
  | ObservabilityFollowFailed => Some "ATM_OBSERVABILITY_FOLLOW_FAILED"
  | ObservabilityHealthFailed => Some "ATM_OBSERVABILITY_HEALTH_FAILED"
  | ObservabilityBootstrapFailed => Some "ATM_OBSERVABILITY_BOOTSTRAP_FAILED"
  | ObservabilityHealthOk => Some "ATM_OBSERVABILITY_HEALTH_OK"
  | RetainedDiagnosticsHealthOk => Some "ATM_RETAINED_DIAGNOSTICS_HEALTH_OK"
  | WarningInvalidTeamMemberSkipped => Some "ATM_WARNING_INVALID_TEAM_MEMBER_SKIPPED"
  | WarningMailboxRecordSkipped => Some "ATM_WARNING_MAILBOX_RECORD_SKIPPED"
  | WarningMalformedAtmFieldIgnored => Some "ATM_WARNING_MALFORMED_ATM_FIELD_IGNORED"
  | WarningObservabilityHealthDegraded => Some "ATM_WARNING_OBSERVABILITY_HEALTH_DEGRADED"
  | WarningRetainedDiagnosticsDegraded => Some "ATM_WARNING_RETAINED_DIAGNOSTICS_DEGRADED"
  | WarningSqliteHealthDegraded => Some "ATM_WARNING_SQLITE_HEALTH_DEGRADED"
  | WarningOriginInboxEntrySkipped => Some "ATM_WARNING_ORIGIN_INBOX_ENTRY_SKIPPED"
  | WarningMissingTeamConfigFallback => Some "ATM_WARNING_MISSING_TEAM_CONFIG_FALLBACK"
  | WarningSendAlertStateDegraded => Some "ATM_WARNING_SEND_ALERT_STATE_DEGRADED"
  | WarningIdentityDrift => Some "ATM_WARNING_IDENTITY_DRIFT"
  | WarningRosterDrift => Some "ATM_WARNING_ROSTER_DRIFT"
  | WarningHerdrUnnamedAgentTarget => Some "ATM_WARNING_HERDR_UNNAMED_AGENT_TARGET"
  | WarningBaselineMemberMissing => Some "ATM_WARNING_BASELINE_MEMBER_MISSING"
  | WarningRestoreInProgress => Some "ATM_WARNING_RESTORE_IN_PROGRESS"
  | WarningStaleMailboxLock => Some "ATM_WARNING_STALE_MAILBOX_LOCK"
  | WarningHookSkipped => Some "ATM_WARNING_HOOK_SKIPPED"
  | WarningHookExecutionFailed => Some "ATM_WARNING_HOOK_EXECUTION_FAILED"
  | RosterNoLead => Some "ATM_ROSTER_NO_LEAD"
  | RosterMultipleLeads => Some "ATM_ROSTER_MULTIPLE_LEADS"
  | RosterReservedName => Some "ATM_ROSTER_RESERVED_NAME"
  | TaskStalled => Some "ATM_TASK_STALLED"
  | MemberBlocked => Some "ATM_MEMBER_BLOCKED"
  | RosterMixedLocalBackend => Some "ATM_ROSTER_MIXED_LOCAL_BACKEND"
  | HerdrAgentNotVisible => Some "ATM_HERDR_AGENT_NOT_VISIBLE"
  | _ => None
  end.

Definition post_send_or_misc_str (code : AtmErrorCode) : option string :=
  match code with
  | PostSendPaneMissing => Some "ATM_POST_SEND_PANE_MISSING"
  | PostSendTmuxSendFailed => Some "ATM_POST_SEND_TMUX_SEND_FAILED"
  | PostSendHerdrPromptFailed => Some "ATM_POST_SEND_HERDR_PROMPT_FAILED"
  | HerdrPromptFailed => Some "ATM_HERDR_PROMPT_FAILED"
  | HerdrUnavailable => Some "ATM_HERDR_UNAVAILABLE"
  | PostSendGraftUnavailable => Some "ATM_POST_SEND_GRAFT_UNAVAILABLE"
  | GraftReceiverAlreadyActive => Some "ATM_GRAFT_RECEIVER_ALREADY_ACTIVE"
  | GraftReceiverNotOwner => Some "ATM_GRAFT_RECEIVER_NOT_OWNER"
  | GraftReceiverNotRegistered => Some "ATM_GRAFT_RECEIVER_NOT_REGISTERED"
  | PostSendAdvisoryDeliveryFailed => Some "ATM_POST_SEND_ADVISORY_DELIVERY_FAILED"
  | TestFakeTransportInjectionFailed => Some "ATM_TEST_FAKE_TRANSPORT_INJECTION_FAILED"
  | HelpTopicNotFound => Some "ATM_HELP_TOPIC_NOT_FOUND"
  | HookModuleInvalid => Some "ATM_HOOK_MODULE_INVALID"
  | CronExprInvalid => Some "ATM_CRON_EXPR_INVALID"
  | HookRefused => Some "ATM_HOOK_REFUSED"
  | HookExit => Some "ATM_HOOK_EXIT"
  | HookTimeout => Some "ATM_HOOK_TIMEOUT"
  | HookMalformed => Some "ATM_HOOK_MALFORMED"
  | StoreQueryFailed => Some "ATM_STORE_QUERY_FAILED"
  | ToolSenderUnregistered => Some "ATM_TOOL_SENDER_UNREGISTERED"
  | ToolSenderReserved => Some "ATM_TOOL_SENDER_RESERVED"
  | ToolSenderUnauthorized => Some "ATM_TOOL_SENDER_UNAUTHORIZED"
  | ToolKeyUnknown => Some "ATM_TOOL_KEY_UNKNOWN"
  | ToolKeyRevoked => Some "ATM_TOOL_KEY_REVOKED"
  | ToolNonceReplay => Some "ATM_TOOL_NONCE_REPLAY"
  | ToolHostMismatch => Some "ATM_TOOL_HOST_MISMATCH"
  | ToolGenerationConflict => Some "ATM_TOOL_GENERATION_CONFLICT"
  | ToolSignatureInvalid => Some "ATM_TOOL_SIGNATURE_INVALID"
  | ToolRequestExpired => Some "ATM_TOOL_REQUEST_EXPIRED"
  | ToolCommitUncertain => Some "ATM_TOOL_COMMIT_UNCERTAIN"
  | _ => None
  end.

(** The last helper ends in [unreachable!], rendered [None] here: [as_str] is
    total exactly when no code falls through (see [as_str_total]). *)
Definition as_str (code : AtmErrorCode) : option string :=
  match config_or_identity_str code with
  | Some value => Some value
  | None =>
    match daemon_or_address_str code with
    | Some value => Some value
    | None =>
      match mailbox_or_validation_str code with
      | Some value => Some value
      | None =>
        match observability_or_warning_str code with
        | Some value => Some value
        | None => post_send_or_misc_str code
        end
      end
    end
  end.

(** [Display for AtmErrorCode]. *)
Definition code_display (code : AtmErrorCode) : string := default "" (as_str code).

(** A [match] on a string literal: the first arm that spells the value. *)
Fixpoint match_str {A} (value : string) (arms : list (string * A)) : option A :=
  match arms with
  | [] => None
  | (literal, a) :: rest => if String.eqb value literal then Some a else match_str value rest
  end.

Definition parse_config_or_identity_code (value : string) : option AtmErrorCode :=
  match_str value
    [ ("ATM_CONFIG_HOME_UNAVAILABLE", ConfigHomeUnavailable);
      ("ATM_HOME_UNRESOLVED", AtmHomeUnresolved);
      ("ATM_CONFIG_PARSE_FAILED", ConfigParseFailed);
      ("ATM_CONFIG_RETIRED_HOOK_MEMBERS_KEY", ConfigRetiredHookMembersKey);
      ("ATM_CONFIG_RETIRED_LEGACY_HOOK_KEYS", ConfigRetiredLegacyHookKeys);
      ("ATM_CONFIG_TEAM_PARSE_FAILED", ConfigTeamParseFailed);
      ("ATM_CONFIG_TEAM_MISSING", ConfigTeamMissing);
      ("ATM_IDENTITY_UNAVAILABLE", IdentityUnavailable);
      ("ATM_IDENTITY_INVALID", IdentityInvalid);
      ("ATM_IDENTITY_CONFLICT", IdentityConflict);
      ("ATM_MEMBER_ALREADY_EXISTS", MemberAlreadyExists);
      ("ATM_MEMBER_NOT_FOUND", MemberNotFound) ].

Definition parse_daemon_or_address_code (value : string) : option AtmErrorCode :=
  match_str value
    [ ("ATM_DAEMON_UNAVAILABLE", DaemonUnavailable);
      ("ATM_RUNTIME_ROOT_INVALID", RuntimeRootInvalid);
      ("ATM_RUNTIME_BOOTSTRAP_REFUSED", RuntimeBootstrapRefused);
      ("ATM_SOCKET_OVERRIDE_FORBIDDEN", SocketOverrideForbidden);
      ("ATM_DAEMON_MAY_HAVE_EXECUTED", DaemonMayHaveExecuted);
      ("ATM_DAEMON_LIFECYCLE_WEDGE", DaemonLifecycleWedge);
      ("ATM_DAEMON_LAUNCH_GATE_REJECTED", DaemonLaunchGateRejected);
      ("ATM_DAEMON_SERVING_STATE_REJECTED", DaemonServingStateRejected);
      ("ATM_DAEMON_STALE_OWNER_RECOVERY_FAILED", DaemonStaleOwnerRecoveryFailed);
      ("ATM_DAEMON_AUTO_START_FAILED", DaemonAutoStartFailed);
      ("ATM_DAEMON_CONNECTION_SATURATED", DaemonConnectionSaturated);
      ("ATM_BLOCKING_BRIDGE_DEADLINE_BEFORE_START", BlockingBridgeDeadlineBeforeStart);
      ("ATM_BLOCKING_BRIDGE_DEADLINE_AFTER_START", BlockingBridgeDeadlineAfterStart);
      ("REMOTE_DELIVERY_UNCONFIRMED", RemoteDeliveryUnconfirmed);
      ("ATM_PEER_WIRE_MODE_INVALID", PeerWireModeInvalid);
      ("ATM_PEER_WIRE_MODE_SOURCE_FORBIDDEN", PeerWireModeSourceForbidden);
      ("ATM_PEER_WIRE_PLAINTEXT_AUTHENTICATION_REQUIRED", PeerWirePlaintextAuthenticationRequired);
      ("ATM_PEER_CONFIG_VALIDATION_FAILED", PeerConfigValidationFailed);
      ("ATM_CERTIFICATE_OPERATION_FAILED", CertificateOperationFailed);
      ("ATM_PEER_AUTHENTICATION_FAILED", PeerAuthenticationFailed);
      ("ATM_TRANSPORT_TIMEOUT", TransportTimeout);
      ("ATM_TRANSPORT_PROTOCOL_FAILED", TransportProtocolFailed);
      ("ATM_BIND_PREFLIGHT_FAILED", BindPreflightFailed);
      ("ATM_CLIENT_DAEMON_VERSION_INCOMPATIBLE", ClientDaemonVersionIncompatible);
      ("ATM_DAEMON_ADVISORY_SESSION_ALREADY_REGISTERED", DaemonAdvisorySessionAlreadyRegistered);
      ("ATM_DAEMON_ADVISORY_SESSION_NOT_REGISTERED", DaemonAdvisorySessionNotRegistered);
      ("ATM_DAEMON_ADVISORY_SESSION_CLEANUP_FAILED", DaemonAdvisorySessionCleanupFailed);
      ("ATM_ADDRESS_PARSE_FAILED", AddressParseFailed);
      ("ATM_TEAM_UNAVAILABLE", TeamUnavailable);
      ("ATM_TEAM_INVALID", TeamInvalid);
      ("ATM_TEAM_NOT_FOUND", TeamNotFound);
      ("ATM_AGENT_NOT_FOUND", AgentNotFound) ].

Definition parse_mailbox_or_validation_code (value : string) : option AtmErrorCode :=
  match_str value
    [ ("ATM_MAILBOX_READ_FAILED", MailboxReadFailed);
      ("ATM_MAILBOX_WRITE_FAILED", MailboxWriteFailed);
      ("ATM_MAILBOX_LOCK_FAILED", MailboxLockFailed);
      ("ATM_MAILBOX_LOCK_READ_ONLY_FILESYSTEM", MailboxLockReadOnlyFilesystem);
      ("ATM_MAILBOX_LOCK_TIMEOUT", MailboxLockTimeout);
      ("ATM_INTERNAL_ERROR", InternalError);
      ("ATM_MESSAGE_VALIDATION_FAILED", MessageValidationFailed);
      ("ATM_TASK_NOT_FOUND", TaskNotFound);
      ("ATM_TASK_ALREADY_ACTIVE", TaskAlreadyActive);
      ("ATM_TASK_ALREADY_CLOSED", TaskAlreadyClosed);
      ("ATM_TASK_NOT_COUNTERPARTY", TaskNotCounterparty);
      ("ATM_TASK_STALE_COUNTERPARTY", TaskStaleCounterparty);
      ("ATM_TASK_MOVE_INVALID", TaskMoveInvalid);
      ("ATM_TASK_MAX_ACTIVE_REACHED", TaskMaxActiveReached);
      ("ATM_SEARCH_LOCAL_ONLY", SearchLocalOnly);
      ("ATM_LOCAL_HTTP_CAPABILITY_INVALID", LocalHttpCapabilityInvalid);
      ("ATM_LOCAL_HTTP_ENDPOINT_SCHEMA_UNSUPPORTED", LocalHttpEndpointSchemaUnsupported);
      ("ATM_LOCAL_HTTP_ENDPOINT_MISSING", LocalHttpEndpointMissing);
      ("ATM_LOCAL_HTTP_ENDPOINT_NON_LOOPBACK", LocalHttpEndpointNonLoopback);
      ("ATM_LOCAL_HTTP_RUNTIME_DIRECTORY_MISSING", LocalHttpRuntimeDirectoryMissing);
      ("ATM_LOCAL_HTTP_CAPABILITY_REVOKED", LocalHttpCapabilityRevoked);
      ("ATM_MESSAGE_ID_CONFLICT", MessageIdConflict);
      ("ATM_SELF_ADDRESSED_SEND_INVALID", SelfAddressedSendInvalid);
      ("ATM_NUDGE_TEMPLATE_BODY_EMPTY", EmptyNudgeTemplateBody);
      ("ATM_CALLER_CONTEXT_REQUEST_INVALID", CallerContextRequestInvalid);
      ("TEMPLATE_CONTENT_NOT_UTF8", TemplateContentNotUtf8);
      ("DECOMPOSED_TEMPLATE_INCLUDE_FORBIDDEN", DecomposedTemplateIncludeForbidden);
      ("TEMPLATE_LOAD_FAILED", TemplateLoadFailed);
      ("TEMPLATE_HASH_API_FAILED", TemplateHashApiFailed);
      ("TEMPLATE_INSPECTION_PARSE_FAILED", TemplateInspectionParseFailed);
      ("TEMPLATE_REQUIRED_VARIABLE_MISSING", TemplateRequiredVariableMissing);
      ("TEMPLATE_VARIABLE_RESOLUTION_FAILED", TemplateVariableResolutionFailed);
      ("TEMPLATE_RENDER_VERIFICATION_FAILED", TemplateRenderVerificationFailed);
      ("TEMPLATE_INCLUDE_UNRESOLVED", TemplateIncludeUnresolved);
      ("TEMPLATE_CLASSIFICATION_INVALID", TemplateClassificationInvalid);
      ("TEMPLATE_WORKFLOW_INVALID", TemplateWorkflowInvalid);
      ("TEMPLATE_WORKFLOW_VALUE_INVALID", TemplateWorkflowValueInvalid);
      ("TEMPLATE_TAG_RESERVED", TemplateTagReserved);
      ("ATM_WORKFLOW_QUERY_INVALID", WorkflowQueryInvalid);
      ("ATM_WORKFLOW_TELEMETRY_CONFIG_INVALID", WorkflowTelemetryConfigInvalid);
      ("ATM_TELEMETRY_EXPORT_CONFIG_INVALID", TelemetryExportConfigInvalid);
      ("ATM_WORKFLOW_TELEMETRY_DROPPED", WorkflowTelemetryDropped);
      ("ATM_SERIALIZATION_FAILED", SerializationFailed);
      ("ATM_FILE_POLICY_REJECTED", FilePolicyRejected);
      ("ATM_FILE_REFERENCE_REWRITE_FAILED", FileReferenceRewriteFailed);
      ("ATM_WAIT_TIMEOUT", WaitTimeout);
      ("ATM_ACK_INVALID_STATE", AckInvalidState);
      ("ATM_CLEAR_INVALID_STATE", ClearInvalidState) ].

Definition parse_observability_or_warning_code (value : string) : option AtmErrorCode :=
  match_str value
    [ ("ATM_OBSERVABILITY_EMIT_FAILED", ObservabilityEmitFailed);
      ("ATM_OBSERVABILITY_QUERY_FAILED", ObservabilityQueryFailed);
      ("ATM_OBSERVABILITY_FOLLOW_FAILED", ObservabilityFollowFailed);
      ("ATM_OBSERVABILITY_HEALTH_FAILED", ObservabilityHealthFailed);
      ("ATM_OBSERVABILITY_BOOTSTRAP_FAILED", ObservabilityBootstrapFailed);
      ("ATM_OBSERVABILITY_HEALTH_OK", ObservabilityHealthOk);
      ("ATM_RETAINED_DIAGNOSTICS_HEALTH_OK", RetainedDiagnosticsHealthOk);
      ("ATM_WARNING_INVALID_TEAM_MEMBER_SKIPPED", WarningInvalidTeamMemberSkipped);
      ("ATM_WARNING_MAILBOX_RECORD_SKIPPED", WarningMailboxRecordSkipped);
      ("ATM_WARNING_MALFORMED_ATM_FIELD_IGNORED", WarningMalformedAtmFieldIgnored);
      ("ATM_WARNING_OBSERVABILITY_HEALTH_DEGRADED", WarningObservabilityHealthDegraded);
      ("ATM_WARNING_RETAINED_DIAGNOSTICS_DEGRADED", WarningRetainedDiagnosticsDegraded);
      ("ATM_WARNING_SQLITE_HEALTH_DEGRADED", WarningSqliteHealthDegraded);
      ("ATM_WARNING_ORIGIN_INBOX_ENTRY_SKIPPED", WarningOriginInboxEntrySkipped);
      ("ATM_WARNING_MISSING_TEAM_CONFIG_FALLBACK", WarningMissingTeamConfigFallback);
      ("ATM_WARNING_SEND_ALERT_STATE_DEGRADED", WarningSendAlertStateDegraded);
      ("ATM_WARNING_IDENTITY_DRIFT", WarningIdentityDrift);
      ("ATM_WARNING_ROSTER_DRIFT", WarningRosterDrift);
      ("ATM_WARNING_HERDR_UNNAMED_AGENT_TARGET", WarningHerdrUnnamedAgentTarget);
      ("ATM_WARNING_BASELINE_MEMBER_MISSING", WarningBaselineMemberMissing);
      ("ATM_WARNING_RESTORE_IN_PROGRESS", WarningRestoreInProgress);
      ("ATM_WARNING_STALE_MAILBOX_LOCK", WarningStaleMailboxLock);
      ("ATM_WARNING_HOOK_SKIPPED", WarningHookSkipped);
      ("ATM_WARNING_HOOK_EXECUTION_FAILED", WarningHookExecutionFailed);
      ("ATM_ROSTER_NO_LEAD", RosterNoLead);
      ("ATM_ROSTER_MULTIPLE_LEADS", RosterMultipleLeads);
      ("ATM_ROSTER_RESERVED_NAME", RosterReservedName);
      ("ATM_TASK_STALLED", TaskStalled);
      ("ATM_MEMBER_BLOCKED", MemberBlocked);
      ("ATM_ROSTER_MIXED_LOCAL_BACKEND", RosterMixedLocalBackend);
      ("ATM_HERDR_AGENT_NOT_VISIBLE", HerdrAgentNotVisible) ].

Definition parse_post_send_or_misc_code (value : string) : option AtmErrorCode :=
  match_str value
    [ ("ATM_POST_SEND_PANE_MISSING", PostSendPaneMissing);
      ("ATM_POST_SEND_TMUX_SEND_FAILED", PostSendTmuxSendFailed);
      ("ATM_POST_SEND_HERDR_PROMPT_FAILED", PostSendHerdrPromptFailed);
      ("ATM_HERDR_PROMPT_FAILED", HerdrPromptFailed);
      ("ATM_HERDR_UNAVAILABLE", HerdrUnavailable);
      ("ATM_POST_SEND_GRAFT_UNAVAILABLE", PostSendGraftUnavailable);
      ("ATM_GRAFT_RECEIVER_ALREADY_ACTIVE", GraftReceiverAlreadyActive);
      ("ATM_GRAFT_RECEIVER_NOT_OWNER", GraftReceiverNotOwner);
      ("ATM_GRAFT_RECEIVER_NOT_REGISTERED", GraftReceiverNotRegistered);
      ("ATM_POST_SEND_ADVISORY_DELIVERY_FAILED", PostSendAdvisoryDeliveryFailed);
      ("ATM_TEST_FAKE_TRANSPORT_INJECTION_FAILED", TestFakeTransportInjectionFailed);
      ("ATM_HELP_TOPIC_NOT_FOUND", HelpTopicNotFound);
      ("ATM_HOOK_MODULE_INVALID", HookModuleInvalid);
      ("ATM_CRON_EXPR_INVALID", CronExprInvalid);
      ("ATM_HOOK_REFUSED", HookRefused);
      ("ATM_HOOK_EXIT", HookExit);
      ("ATM_HOOK_TIMEOUT", HookTimeout);
      ("ATM_HOOK_MALFORMED", HookMalformed);
      ("ATM_STORE_QUERY_FAILED", StoreQueryFailed);
      ("ATM_TOOL_SENDER_UNREGISTERED", ToolSenderUnregistered);
      ("ATM_TOOL_SENDER_RESERVED", ToolSenderReserved);
      ("ATM_TOOL_SENDER_UNAUTHORIZED", ToolSenderUnauthorized);
      ("ATM_TOOL_KEY_UNKNOWN", ToolKeyUnknown);
      ("ATM_TOOL_KEY_REVOKED", ToolKeyRevoked);
      ("ATM_TOOL_NONCE_REPLAY", ToolNonceReplay);
      ("ATM_TOOL_HOST_MISMATCH", ToolHostMismatch);
      ("ATM_TOOL_GENERATION_CONFLICT", ToolGenerationConflict);
      ("ATM_TOOL_SIGNATURE_INVALID", ToolSignatureInvalid);
      ("ATM_TOOL_REQUEST_EXPIRED", ToolRequestExpired);
      ("ATM_TOOL_COMMIT_UNCERTAIN", ToolCommitUncertain) ].

Definition parse_known_error_code (value : string) : option AtmErrorCode :=
  match parse_config_or_identity_code value with
  | Some code => Some code
  | None =>
    match parse_daemon_or_address_code value with
    | Some code => Some code
    | None =>
      match parse_mailbox_or_validation_code value with
      | Some code => Some code
      | None =>
        match parse_observability_or_warning_code value with
        | Some code => Some code
        | None => parse_post_send_or_misc_code value
        end
      end
    end
  end.

(** [FromStr for AtmErrorCode]; the error is [UnknownAtmErrorCode(value)]. *)
Definition from_str (value : string) : Outcome string AtmErrorCode :=
  match parse_known_error_code value with
  | Some code => Ok code
  | None => Err value
  end.

(** Parsing inverts spelling, so equality of codes is decided on the wire text. *)
Lemma parse_known_as_str (c : AtmErrorCode) :
  as_str c ≫= parse_known_error_code = Some c.
Proof. destruct c; reflexivity. Qed.

#[export] Instance as_str_inj : Inj (=) (=) as_str.
Proof.
  intros c1 c2 H. pose proof (parse_known_as_str c1) as H1.
  rewrite H, (parse_known_as_str c2) in H1. by simplify_eq.
Qed.

#[export] Instance AtmErrorCode_eq_dec : EqDecision AtmErrorCode :=
  fun c1 c2 => match decide (as_str c1 = as_str c2) with
               | left H => left (as_str_inj c1 c2 H)
               | right H => right (fun E => H (f_equal as_str E))
               end.

(** ** Recovery guidance *)

Definition tool_sender_guidance (code : AtmErrorCode) : option string :=
  match code with
  | ToolSenderUnregistered =>
    Some "Register this plug-in sender through an authenticated installer, then retry."
  | ToolSenderReserved =>
    Some "Use the daemon-owned virtual sender flow; do not register or claim a reserved sender."
  | ToolSenderUnauthorized =>
    Some "Use an authorized sender or have the administrator update its explicit sender allowlist."
  | ToolKeyUnknown =>
    Some "Use a key id enrolled in the protected trust root or active sender registration."
  | ToolKeyRevoked =>
    Some "Enroll and activate a replacement key through the administrator-controlled rotation flow."
  | ToolNonceReplay =>
    Some "For an exact retry, query the prior operation receipt; for a new operation, issue and sign a fresh nonce."
  | ToolHostMismatch =>
    Some "Send the request to its authorized host or have the administrator update the signed host allowlist."
  | ToolGenerationConflict =>
    Some "Read the current registration generation and create a newly signed request against it."
  | ToolSignatureInvalid =>
    Some "Canonicalize the request fields and sign them again with the enrolled private key."
  | ToolRequestExpired =>
    Some "Issue a request with a current validity interval and sign the new request."
  | ToolCommitUncertain =>
    Some "Reconcile the operation by its original nonce and digest before retrying; do not submit a new operation blindly."
  | _ => None
  end.

Definition hook_guidance (code : AtmErrorCode) : option string :=
  match code with
  | HookModuleInvalid =>
    Some "Register a task hook module path and name the hook from the supported list, then retry."
  | CronExprInvalid =>
    Some "Use a five-field cron expression or an --until time later than now, then retry."
  | HookRefused =>
    Some ""
  | HookExit =>
    Some "Fix the hook module so it starts and exits with a valid reply, then retry."
  | HookTimeout =>
    Some "Make the hook reply within its timeout or raise the timeout within the budget, then retry."
  | HookMalformed =>
    Some "Make the hook reply match the JSON reply contract, then retry."
  | _ => None
  end.

Definition configuration_guidance (code : AtmErrorCode) : option string :=
  match code with
  | ConfigHomeUnavailable
  | AtmHomeUnresolved
  | ConfigParseFailed
  | ConfigRetiredHookMembersKey
  | ConfigRetiredLegacyHookKeys
  | ConfigTeamParseFailed
  | ConfigTeamMissing =>
    Some "Repair the active ATM configuration and retry."
  | IdentityUnavailable
  | IdentityInvalid
  | IdentityConflict =>
    Some "Set a valid ATM identity before retrying."
  | MemberAlreadyExists
  | MemberNotFound =>
    Some "Confirm the target team and member before retrying."
  | _ => None
  end.

Definition identity_guidance (code : AtmErrorCode) : option string :=
  match code with
  | AddressParseFailed
  | TeamUnavailable
  | TeamInvalid
  | TeamNotFound
  | AgentNotFound =>
    Some "Correct the ATM address or team selection and retry."
  | _ => None
  end.

Definition daemon_guidance (code : AtmErrorCode) : option string :=
  match code with
  | DaemonMayHaveExecuted =>
    Some "Inspect the mailbox or daemon-side effects before attempting this request again."
  | RemoteDeliveryUnconfirmed =>
    Some "Inspect the peer's delivery status before attempting this request again."
  | DaemonUnavailable
  | RuntimeRootInvalid
  | RuntimeBootstrapRefused
  | SocketOverrideForbidden
  | DaemonLifecycleWedge
  | DaemonLaunchGateRejected
  | DaemonServingStateRejected
  | DaemonStaleOwnerRecoveryFailed
  | DaemonAutoStartFailed
  | PeerConfigValidationFailed
  | CertificateOperationFailed
  | BindPreflightFailed
  | ClientDaemonVersionIncompatible
  | DaemonAdvisorySessionAlreadyRegistered
  | DaemonAdvisorySessionNotRegistered
  | DaemonAdvisorySessionCleanupFailed =>
    Some "Ensure atm-daemon binary is installed, then restore the single local daemon to a healthy serving state and retry."
  | DaemonConnectionSaturated =>
    Some "Wait for the daemon to finish an in-flight request, then retry."
  | BlockingBridgeDeadlineBeforeStart =>
    Some "Wait for bounded blocking capacity to become available, then retry within a fresh request deadline."
  | BlockingBridgeDeadlineAfterStart =>
    Some "Inspect the stalled blocking operation and retry only after its bounded capacity recovers."
  | PeerWireModeInvalid =>
    Some "Use `mutual-tls` or `plaintext-test` with --peer-wire-security, then restart the daemon."
  | PeerWireModeSourceForbidden =>
    Some "Remove the environment or durable peer-wire setting and use the documented daemon launch argument."
  | PeerWirePlaintextAuthenticationRequired =>
    Some "Restart in mutual-TLS mode and verify the enabled peer identity, certificate, and exact trust record."
  | PeerAuthenticationFailed =>
    Some "Correct the registered peer hostname and certificate pin; do not use plaintext-test as a recovery."
  | TransportTimeout =>
    Some "Check peer reachability and retry the bounded transport operation when the peer is available."
  | TransportProtocolFailed =>
    Some "Inspect the peer TLS protocol configuration and correct it before retrying."
  | _ => None
  end.

Definition mailbox_guidance (code : AtmErrorCode) : option string :=
  match code with
  | MailboxReadFailed
  | MailboxWriteFailed
  | MailboxLockFailed
  | MailboxLockReadOnlyFilesystem
  | MailboxLockTimeout =>
    Some "Repair mailbox access or wait for the competing operation, then retry."
  | _ => None
  end.

Definition request_guidance (code : AtmErrorCode) : option string :=
  match code with
  | MessageValidationFailed
  | TaskNotFound
  | TaskAlreadyActive
  | TaskAlreadyClosed
  | TaskNotCounterparty
  | TaskStaleCounterparty
  | TaskMoveInvalid
  | TaskMaxActiveReached
  | WorkflowQueryInvalid
  | SearchLocalOnly
  | LocalHttpCapabilityInvalid
  | LocalHttpEndpointSchemaUnsupported
  | LocalHttpEndpointMissing
  | LocalHttpEndpointNonLoopback
  | LocalHttpRuntimeDirectoryMissing
  | MessageIdConflict
  | SelfAddressedSendInvalid
  | EmptyNudgeTemplateBody
  | CallerContextRequestInvalid
  | TemplateContentNotUtf8
  | AckInvalidState
  | ClearInvalidState =>
    Some "Correct the invalid ATM request or state before retrying."
  | DecomposedTemplateIncludeForbidden =>
    Some "Remove template dependencies or use the confined render operation before retrying."
  | TemplateRequiredVariableMissing
  | TemplateVariableResolutionFailed =>
    Some "Correct the template variable names and provide values for required or referenced variables, then retry."
  | TemplateLoadFailed
  | TemplateHashApiFailed
  | TemplateInspectionParseFailed
  | TemplateRenderVerificationFailed
  | TemplateIncludeUnresolved
  | TemplateClassificationInvalid
  | TemplateWorkflowInvalid
  | TemplateWorkflowValueInvalid
  | TemplateTagReserved =>
    Some "Correct the template source or its supplied variables before retrying."
  | WorkflowTelemetryConfigInvalid =>
    Some "Repair telemetry configuration; ATM will continue with telemetry disabled."
  | TelemetryExportConfigInvalid =>
    Some "Repair OpenTelemetry export configuration; ATM will continue with export disabled."
  | WorkflowTelemetryDropped =>
    Some "Inspect telemetry diagnostics and repair the exporter if durable observability is required."
  | _ => None
  end.

Definition local_http_guidance (code : AtmErrorCode) : option string :=
  match code with
  | LocalHttpCapabilityRevoked =>
    Some "Re-read local endpoint metadata and authenticate with the newly published capability."
  | _ => None
  end.

Definition observability_guidance (code : AtmErrorCode) : option string :=
  match code with
  | ObservabilityBootstrapFailed =>
    Some "Check the retained-log directory and file permissions, then restart the daemon."
  | ObservabilityEmitFailed
  | ObservabilityHealthFailed =>
    Some "Retry the operation; if it persists, inspect daemon health for a logger or lock failure."
  | ObservabilityQueryFailed
  | ObservabilityFollowFailed =>
    Some "Check the retained-log path and permissions before retrying the log operation."
  | ObservabilityHealthOk =>
    Some "No operator action is required."
  | _ => None
  end.

Definition warning_guidance (code : AtmErrorCode) : option string :=
  match code with
  | WarningInvalidTeamMemberSkipped
  | WarningMailboxRecordSkipped
  | WarningMalformedAtmFieldIgnored
  | WarningObservabilityHealthDegraded
  | WarningSqliteHealthDegraded
  | WarningOriginInboxEntrySkipped
  | WarningMissingTeamConfigFallback
  | WarningSendAlertStateDegraded
  | WarningIdentityDrift
  | WarningRosterDrift
  | WarningBaselineMemberMissing
  | WarningRestoreInProgress
  | WarningStaleMailboxLock
  | WarningHookSkipped
  | WarningHookExecutionFailed =>
    Some "Inspect the warning context and correct the reported condition."
  | RosterNoLead =>
    Some "assign one lead: atm teams update-member <team> <member> --agent-type lead"
  | RosterMultipleLeads =>
    Some "keep one lead: atm teams update-member <team> <member> --agent-type <other type>"
  | RosterReservedName =>
    Some "rename the member: atm-daemon is reserved for daemon-originated messages"
  | TaskStalled =>
    Some "check the assignee or close the task: atm send <assignee> --task-complete <task_id> --stdin"
  | MemberBlocked =>
    Some "<member> is waiting for interactive input; attach to its Herdr agent and answer the prompt"
  | _ => None
  end.

Definition herdr_guidance (code : AtmErrorCode) : option string :=
  match code with
  | RosterMixedLocalBackend =>
    Some "Use `atm teams update-member` to select the intended local backend for each member."
  | HerdrAgentNotVisible =>
    Some "Start or rename the Herdr agent to the roster member name and verify its configured session."
  | PostSendHerdrPromptFailed =>
    Some "Verify the Herdr target is not blocked, then retry the post-send wake."
  | HerdrPromptFailed =>
    Some "Inspect the Herdr command diagnostics and verify the Herdr server and session before retrying."
  | HerdrUnavailable =>
    Some "Start the Herdr server and verify its socket and session configuration before retrying."
  | _ => None
  end.

Definition post_send_guidance (code : AtmErrorCode) : option string :=
  match code with
  | PostSendPaneMissing
  | PostSendTmuxSendFailed
  | PostSendGraftUnavailable
  | GraftReceiverAlreadyActive
  | PostSendAdvisoryDeliveryFailed =>
    Some "Repair the configured post-send target and retry if delivery is required."
  | GraftReceiverNotOwner =>
    Some "Another generation now owns this graft receiver lease; rebind to obtain a fresh generation."
  | _ => None
  end.

Definition guidance_inner (code : AtmErrorCode) : string :=
  match configuration_guidance code with Some message => message | None =>
  match identity_guidance code with Some message => message | None =>
  match daemon_guidance code with Some message => message | None =>
  match local_http_guidance code with Some message => message | None =>
  match mailbox_guidance code with Some message => message | None =>
  match request_guidance code with Some message => message | None =>
  match observability_guidance code with Some message => message | None =>
  match warning_guidance code with Some message => message | None =>
  match herdr_guidance code with Some message => message | None =>
  match post_send_guidance code with Some message => message | None =>
  match hook_guidance code with Some message => message | None =>
  match tool_sender_guidance code with Some message => message | None =>
  match code with
  | InternalError => "Inspect the logged diagnostic context before retrying."
  | SerializationFailed => "Repair the invalid serialized ATM data before retrying."
  | FilePolicyRejected | FileReferenceRewriteFailed => "Correct the referenced path or file-policy input before retrying."
  | WaitTimeout => "Retry after the bounded operation becomes available."
  | TestFakeTransportInjectionFailed => "Repair the test transport fixture before retrying."
  | HelpTopicNotFound => "Use `atm help --list` to inspect available topics."
  | _ => "Inspect the logged diagnostic context before retrying."
  end
  end end end end end end end end end end end end.
Definition guidance (code : AtmErrorCode) : string := guidance_inner code.

(** The separator written between a detail and its guidance: a line feed, then
    [  Recovery: ]. *)
Definition recovery_separator : string := String (Ascii.ascii_of_nat 10) "  Recovery: ".

Definition render (code : AtmErrorCode) (detail : string) : string :=
  if String.eqb (guidance code) "" then detail
  else detail +:+ recovery_separator +:+ guidance code.

Definition render_code (code : AtmErrorCode) : string := guidance code.

(** ** [AtmError] *)
Record AtmError : Set := mkAtmError {
  code : AtmErrorCode;
  message : string;
  cause : option string
}.

#[export] Instance AtmError_eq_dec : EqDecision AtmError.
Proof. solve_decision. Defined.

(** [AtmError::new]. *)
Definition atm_error_new (c : AtmErrorCode) (detail : string) : AtmError :=
  {| code := c; message := render c detail; cause := None |}.

Definition with_recovery (c : AtmErrorCode) (detail recovery : string) : AtmError :=
  {| code := c; message := detail +:+ recovery_separator +:+ recovery; cause := None |}.

Definition for_code (c : AtmErrorCode) : AtmError :=
  {| code := c; message := render_code c; cause := None |}.

Definition with_cause (e : AtmError) (c : string) : AtmError :=
  {| code := code e; message := message e; cause := Some c |}.

Definition with_context (e : AtmError) (prefix : string) : AtmError :=
  {| code := code e; message := prefix +:+ ": " +:+ message e; cause := cause e |}.

(** [str::split_once]: the text before and after the first occurrence. *)
Fixpoint split_once (separator s : string) : option (string * string) :=
  if String.prefix separator s
  then Some ("", String.substring (String.length separator)
                                  (String.length s - String.length separator) s)
  else
    match s with
    | "" => None
    | String c s' =>
      match split_once separator s' with
      | Some (before, after) => Some (String c before, after)
      | None => None
      end
    end.

(** [AtmError::detail] and [AtmError::remediation]. *)
Definition detail (e : AtmError) : string :=
  match split_once recovery_separator (message e) with
  | Some (d, _) => d
  | None => message e
  end.

Definition remediation (e : AtmError) : string :=
  match split_once recovery_separator (message e) with
  | Some (_, g) => g
  | None => guidance (code e)
  end.

Definition is_validation (e : AtmError) : bool :=
  match code e with
  | MessageValidationFailed | TaskNotFound | TaskAlreadyActive | TaskAlreadyClosed
  | TaskNotCounterparty | TaskStaleCounterparty | TaskMoveInvalid | TaskMaxActiveReached
  | PeerWireModeInvalid | PeerWireModeSourceForbidden
  | PeerWirePlaintextAuthenticationRequired | HookModuleInvalid | CronExprInvalid
  | HookRefused => true
  | _ => false
  end.

Definition validation (m : string) : AtmError := atm_error_new MessageValidationFailed m.
Definition validation_with_recovery (m recovery : string) : AtmError :=
  with_recovery MessageValidationFailed m recovery.
Definition error_task_max_active_reached (m recovery : string) : AtmError :=
  with_recovery TaskMaxActiveReached m recovery.
Definition mailbox_read (m : string) : AtmError := atm_error_new MailboxReadFailed m.
Definition mailbox_lock_timeout (path : string) : AtmError :=
  atm_error_new MailboxLockTimeout ("timed out waiting for mailbox lock on " +:+ path).
Definition mailbox_write (m : string) : AtmError := atm_error_new MailboxWriteFailed m.
Definition daemon_unavailable (m : string) : AtmError := atm_error_new DaemonUnavailable m.

(** ** Theorems *)

Lemma as_str_total (c : AtmErrorCode) : is_Some (as_str c).
Proof. destruct c; eexists; reflexivity. Qed.

Lemma as_str_display (c : AtmErrorCode) : as_str c = Some (code_display c).
Proof. unfold code_display. destruct (as_str_total c) as [s ->]. done. Qed.

(** What a parser table accepts is what its entries spell. *)
Lemma match_str_sound {A} (value : string) (arms : list (string * A)) a :
  match_str value arms = Some a -> (value, a) ∈ arms.
Proof.
  induction arms as [|[literal b] arms IH]; simpl; [done|].
  destruct (String.eqb_spec value literal) as [->|]; intros; simplify_eq; [left|right; auto].
Qed.

Definition spells (arms : list (string * AtmErrorCode)) : bool :=
  forallb (fun arm => bool_decide (as_str arm.2 = Some arm.1)) arms.

Lemma match_str_spells (value : string) arms c :
  spells arms = true -> match_str value arms = Some c -> as_str c = Some value.
Proof.
  unfold spells. rewrite forallb_forall. intros Hs Hm%match_str_sound%list_elem_of_In.
  by apply Hs, bool_decide_eq_true_1 in Hm.
Qed.

Lemma parse_known_sound (value : string) c :
  parse_known_error_code value = Some c -> as_str c = Some value.
Proof.
  unfold parse_known_error_code.
  destruct (parse_config_or_identity_code value) eqn:H1.
  { intros [= <-]. revert H1. apply match_str_spells. by vm_compute. }
  destruct (parse_daemon_or_address_code value) eqn:H2.
  { intros [= <-]. revert H2. apply match_str_spells. by vm_compute. }
  destruct (parse_mailbox_or_validation_code value) eqn:H3.
  { intros [= <-]. revert H3. apply match_str_spells. by vm_compute. }
  destruct (parse_observability_or_warning_code value) eqn:H4.
  { intros [= <-]. revert H4. apply match_str_spells. by vm_compute. }
  apply match_str_spells. by vm_compute.
Qed.

(** The wire spelling of an error code and its parser are mutually inverse:
    [from_str] accepts a text exactly when it is the spelling of a code, and
    returns that code; no code reaches the [unreachable!] arm of [as_str]. *)
Theorem error_code_wire_roundtrip (value : string) (c : AtmErrorCode) :
  from_str value = Ok c <-> as_str c = Some value.
Proof.
  unfold from_str. split.
  - destruct (parse_known_error_code value) as [c'|] eqn:Hp; [|done].
    intros [= <-]. by apply parse_known_sound.
  - intros H. pose proof (parse_known_as_str c) as Hp.
    rewrite H in Hp. simpl in Hp. by rewrite Hp.
Qed.

(** *** The catalogue text splits back into detail and guidance *)
Fixpoint no_char (a : Ascii.ascii) (s : string) : bool :=
  match s with
  | "" => true
  | String b s' => negb (Ascii.eqb a b) && no_char a s'
  end.

(** A prefix without the character [a] ends before any [a]. *)
Lemma prefix_before_char (a : Ascii.ascii) (p d g : string) :
  no_char a p = true ->
  String.prefix p (d +:+ String a g) = true -> String.prefix p d = true.
Proof.
  revert d. induction p as [|b p IH]; intros d Hn Hp; [by destruct d|].
  simpl in Hn. apply andb_true_iff in Hn as [Hb Hn].
  destruct d as [|c d].
  - simpl in Hp. destruct (Ascii.ascii_dec b a) as [->|]; [|done].
    by rewrite Ascii.eqb_refl in Hb.
  - simpl in Hp |- *. destruct (Ascii.ascii_dec b c); [by apply IH|done].
Qed.

Lemma prefix_app (p s : string) : String.prefix p (p +:+ s) = true.
Proof.
  induction p as [|a p IH]; simpl; [by destruct s|].
  destruct (Ascii.ascii_dec a a); [done|congruence].
Qed.

Lemma substring_all (s : string) : String.substring 0 (String.length s) s = s.
Proof. induction s; simpl; congruence. Qed.

Lemma substring_after (p s : string) :
  String.substring (String.length p) (String.length (p +:+ s) - String.length p) (p +:+ s) = s.
Proof.
  induction p as [|a p IH]; simpl; [|exact IH].
  rewrite Nat.sub_0_r. apply substring_all.
Qed.

Lemma split_once_prefix (p s : string) :
  String.prefix p s = true ->
  split_once p s =
    Some ("", String.substring (String.length p) (String.length s - String.length p) s).
Proof. intros Hp. destruct s; cbn [split_once]; by rewrite Hp. Qed.

Lemma split_once_app (a : Ascii.ascii) (p d g : string) :
  no_char a p = true ->
  split_once (String a p) d = None ->
  split_once (String a p) (d +:+ String a p +:+ g) = Some (d, g).
Proof.
  intros Hn. induction d as [|c d IH]; intros Hd.
  - change ("" +:+ String a p +:+ g) with (String a p +:+ g).
    rewrite split_once_prefix by apply prefix_app. by rewrite substring_after.
  - simpl in Hd |- *.
    destruct (Ascii.ascii_dec a c) as [->|Hne].
    + destruct (String.prefix p (d +:+ String c p +:+ g)) eqn:Hp.
      * apply prefix_before_char in Hp; [|done]. by rewrite Hp in Hd.
      * destruct (String.prefix p d); [done|].
        destruct (split_once (String c p) d) as [[??]|]; [done|].
        by rewrite IH.
    + destruct (split_once (String a p) d) as [[??]|]; [done|]. by rewrite IH.
Qed.

(** An error built by [AtmError::new] from a detail that does not itself
    contain the recovery separator gives back that detail, and its remediation
    is the catalogue's guidance for its code. *)
Theorem error_detail_and_remediation (c : AtmErrorCode) (d : string) :
  split_once recovery_separator d = None ->
  detail (atm_error_new c d) = d /\ remediation (atm_error_new c d) = guidance c.
Proof.
  intros Hd. unfold detail, remediation, atm_error_new, render. simpl message.
  destruct (String.eqb_spec (guidance c) "") as [Hg|Hg].
  - by rewrite Hd.
  - unfold recovery_separator in *. rewrite split_once_app; [done|reflexivity|done].
Qed.

Lemma error_detail_and_remediation_witness :
  detail (atm_error_new TaskNotFound "no open task T1 for bob") = "no open task T1 for bob"
  /\ remediation (atm_error_new TaskNotFound "no open task T1 for bob")
     = "Correct the invalid ATM request or state before retrying.".
Proof. apply (error_detail_and_remediation TaskNotFound). vm_compute. reflexivity. Defined.
