(* ===== verification/Types.v ===== *)
(** * Shared data types

    Names, timestamps and integers of [crates/atm-storage/src/types.rs], the
    JSON values the store reads, the task operations of
    [crates/atm-storage/src/task_op.rs] and the write origins of
    [crates/atm-storage/src/task_store.rs].

    The validated newtypes ([TeamName], [AgentName], [TaskId], [MessageKey]) are
    strings; [AtmMessageId] (a ULID) is its 128-bit number; [IsoTimestamp] is a
    number of nanoseconds since the Unix epoch, in UTC.  Machine integers are
    [Z]; the width checks of the code are written where the code has them. *)

From S2P Require Import Prelude ErrorCodes.
From stdpp Require Import base strings list numbers.
Local Open Scope Z_scope.

Abbreviation TeamName := string (only parsing).
Abbreviation AgentName := string (only parsing).
Abbreviation TaskId := string (only parsing).
Abbreviation MessageKey := string (only parsing).
Abbreviation ChatId := string (only parsing).
Abbreviation AtmMessageId := N (only parsing).
Abbreviation IsoTimestamp := Z (only parsing).

(** ** Machine widths *)
Definition u32_max : Z := 4294967295.
Definition u64_max : Z := 18446744073709551615.
Definition i64_max : Z := 9223372036854775807.

(** [u32::try_from] on a signed or wider value. *)
Definition u32_try_from (z : Z) : option Z :=
  if bool_decide (0 <= z <= u32_max) then Some z else None.

(** [i64::try_from] on a [usize]. *)
Definition i64_try_from (z : Z) : option Z :=
  if bool_decide (z <= i64_max) then Some z else None.

(** [i64::checked_add] for non-negative operands. *)
Definition i64_checked_add (a b : Z) : option Z := i64_try_from (a + b).

(** [NonZeroU32::saturating_add] / [u32::saturating_add]. *)
Definition u32_saturating_add (a b : Z) : Z := Z.min (a + b) u32_max.

(** ** JSON values ([serde_json::Value])

    [serde_json] holds a number as an unsigned integer, a negative integer or a
    float; a float is kept as its text, which no modelled code inspects. *)
Inductive Number : Set :=
| PosInt (n : N)
| NegInt (z : Z)
| Float (text : string).

Inductive Value : Set :=
| Value_Null
| Value_Bool (b : bool)
| Value_Number (n : Number)
| Value_String (s : string)
| Value_Array (items : list Value)
| Value_Object (members : list (string * Value)).

Definition value_is_null (v : Value) : bool :=
  match v with Value_Null => true | _ => false end.

(** [Value::as_u64]: only a non-negative integer number. *)
Definition value_as_u64 (v : Value) : option Z :=
  match v with
  | Value_Number (PosInt n) => Some (Z.of_N n)
  | _ => None
  end.

Fixpoint object_get {A} (key : string) (members : list (string * A)) : option A :=
  match members with
  | [] => None
  | (k, v) :: rest => if String.eqb key k then Some v else object_get key rest
  end.

(** [Value::get] with a string index: [None] on anything but an object. *)
Definition value_get (v : Value) (key : string) : option Value :=
  match v with
  | Value_Object members => object_get key members
  | _ => None
  end.

(** ** Task operations carried by a message *)
Inductive TaskCloseOutcome : Set :=
| TaskCloseOutcome_Completed
| TaskCloseOutcome_Refused
| TaskCloseOutcome_Cancelled.

#[export] Instance TaskCloseOutcome_eq_dec : EqDecision TaskCloseOutcome.
Proof. solve_decision. Defined.

Inductive TaskOp : Set :=
| TaskOp_Start
| TaskOp_Close (outcome : TaskCloseOutcome) (reason : option string).

#[export] Instance TaskOp_eq_dec : EqDecision TaskOp.
Proof. solve_decision. Defined.

Inductive MoveTarget : Set :=
| MoveTarget_Head
| MoveTarget_End
| MoveTarget_Before (task_id : TaskId).

#[export] Instance MoveTarget_eq_dec : EqDecision MoveTarget.
Proof. solve_decision. Defined.

Inductive ReminderOutcome : Set :=
| ReminderOutcome_Emitted
| ReminderOutcome_Unrenderable
| ReminderOutcome_Blocked.

#[export] Instance ReminderOutcome_eq_dec : EqDecision ReminderOutcome.
Proof. solve_decision. Defined.

Definition ReminderOutcome_as_str (o : ReminderOutcome) : string :=
  match o with
  | ReminderOutcome_Emitted => "emitted"
  | ReminderOutcome_Unrenderable => "unrenderable"
  | ReminderOutcome_Blocked => "blocked"
  end.

(** [MessageWriteOrigin] and [is_local]. *)
Inductive MessageWriteOrigin : Set :=
| Origin_Local
| Origin_Peer
| Origin_CronRun (schedule_id generation : Z).

#[export] Instance MessageWriteOrigin_eq_dec : EqDecision MessageWriteOrigin.
Proof. solve_decision. Defined.

Definition is_local (origin : MessageWriteOrigin) : bool :=
  match origin with
  | Origin_Local | Origin_CronRun _ _ => true
  | Origin_Peer => false
  end.

(** [BuiltInNudgeTemplateKind] of [contract.rs]. *)
Inductive BuiltInNudgeTemplateKind : Set :=
| Kind_Delivery | Kind_DeliveryAck | Kind_Queue | Kind_QueueAck | Kind_Acknowledge
| Kind_TaskQueued | Kind_TaskReady | Kind_TaskReminder | Kind_TaskStarted
| Kind_TaskComplete | Kind_TaskClosed | Kind_Cron.

#[export] Instance BuiltInNudgeTemplateKind_eq_dec : EqDecision BuiltInNudgeTemplateKind.
Proof. solve_decision. Defined.

Definition BuiltInNudgeTemplateKind_as_str (k : BuiltInNudgeTemplateKind) : string :=
  match k with
  | Kind_Delivery => "delivery"
  | Kind_DeliveryAck => "delivery_ack"
  | Kind_Queue => "queue"
  | Kind_QueueAck => "queue_ack"
  | Kind_Acknowledge => "acknowledge"
  | Kind_TaskQueued => "task_queued"
  | Kind_TaskReady => "task_ready"
  | Kind_TaskReminder => "task_reminder"
  | Kind_TaskStarted => "task_started"
  | Kind_TaskComplete => "task_complete"
  | Kind_TaskClosed => "task_closed"
  | Kind_Cron => "cron"
  end.

(** ** Message envelope ([schema/inbox_message.rs]) and message ([contract.rs]) *)
Inductive ThreadMode : Set := ThreadMode_AddDetails | ThreadMode_Supersede.

#[export] Instance ThreadMode_eq_dec : EqDecision ThreadMode.
Proof. solve_decision. Defined.

Record MessageEnvelope : Set := mkEnvelope {
  env_from : AgentName;
  env_source_chat_id : option ChatId;
  env_text : string;
  env_timestamp : IsoTimestamp;
  env_read : bool;
  env_source_team : option TeamName;
  env_destination_chat_id : option ChatId;
  env_summary : option string;
  env_message_id : option AtmMessageId;
  env_requires_ack : bool;
  env_pending_ack_at : option IsoTimestamp;
  env_acknowledged_at : option IsoTimestamp;
  env_acknowledges_message_id : option AtmMessageId;
  env_parent_message_id : option AtmMessageId;
  env_thread_mode : option ThreadMode;
  env_expires_at : option IsoTimestamp;
  env_task_id : option TaskId;
  env_placement : option MoveTarget;
  env_task_op : option TaskOp;
  env_task_complete : option TaskId;
  env_extra : list (string * Value)
}.

Record Message : Set := mkMessage {
  msg_team : TeamName;
  msg_agent : AgentName;
  msg_message_key : MessageKey;
  msg_envelope : MessageEnvelope
}.

Record MemberKey : Set := mkMemberKey { member_team : TeamName; member_agent : AgentName }.
