(* ===== verification/Address.v ===== *)
(** * Agent addresses

    Models [crates/atm-storage/src/address.rs], the segment policy of
    [validation.rs] and the parsers of the names in [types.rs]: an address is
    [agent[:chat-id][@team[.host]]].  Strings are their UTF-8 bytes; [str::trim]
    removes the encodings of the Unicode white space characters. *)

From S2P Require Import Prelude ErrorCodes Types.
From stdpp Require Import base strings list.
From Stdlib Require Import Ascii.
Local Open Scope string_scope.
Local Open Scope list_scope.

Definition address_parse (m : string) : AtmError :=
  atm_error_new AddressParseFailed ("address parse failed: " +:+ m).

(** ** Trimming *)

(** The encodings of the characters with the property [White_Space]. *)
Definition white_space : list (list nat) :=
  [[9]; [10]; [11]; [12]; [13]; [32]; [194; 133]; [194; 160]; [225; 154; 128]]
  ++ ((fun n => [226; 128; 128 + n]) <$> seq 0 11)
  ++ [[226; 128; 168]; [226; 128; 169]; [226; 128; 175]; [226; 129; 159]; [227; 128; 128]].

Fixpoint strip_pattern (p : list nat) (l : list ascii) : option (list ascii) :=
  match p, l with
  | [], _ => Some l
  | n :: p', c :: l' => if Nat.eqb n (nat_of_ascii c) then strip_pattern p' l' else None
  | _ :: _, [] => None
  end.

(** The rest after the first of the patterns that matches. *)
Fixpoint strip_one (ps : list (list nat)) (l : list ascii) : option (list ascii) :=
  match ps with
  | [] => None
  | p :: ps' =>
    match strip_pattern p l with
    | Some l' => Some l'
    | None => strip_one ps' l
    end
  end.

(** Each match removes a byte, so as many rounds as bytes are enough. *)
Fixpoint strip_all (fuel : nat) (ps : list (list nat)) (l : list ascii) : list ascii :=
  match fuel with
  | O => l
  | S fuel' =>
    match strip_one ps l with
    | Some l' => strip_all fuel' ps l'
    | None => l
    end
  end.

Definition trim_start (l : list ascii) : list ascii := strip_all (length l) white_space l.
Definition trim_end (l : list ascii) : list ascii :=
  reverse (strip_all (length l) (reverse <$> white_space) (reverse l)).

Definition trim (s : string) : string :=
  String.string_of_list_ascii (trim_end (trim_start (String.list_ascii_of_string s))).

(** ** Segments *)

Fixpoint all_chars (test : ascii -> bool) (s : string) : bool :=
  match s with
  | "" => true
  | String c s' => test c && all_chars test s'
  end.

Definition byte_between (a b n : nat) : bool := Nat.leb a n && Nat.leb n b.

(** [ch.is_ascii_alphanumeric() || matches!(ch, '-' | '_')]. *)
Definition segment_char (c : ascii) : bool :=
  let n := nat_of_ascii c in
  byte_between 48 57 n || byte_between 65 90 n || byte_between 97 122 n || Nat.eqb n 45 || Nat.eqb n 95.

Definition validate_path_segment (value kind : string) : Outcome AtmError unit :=
  if String.eqb value "" then Err (address_parse (kind +:+ " name must not be empty"))
  else if negb (all_chars segment_char value)
  then Err (address_parse (kind +:+ " name must use only ASCII letters, digits, '-' or '_'"))
  else Ok tt.

(** [FromStr] of [AgentName], [ChatId] and [TeamName], by the name of the kind. *)
Definition parse_segment (kind value : string) : Outcome AtmError string :=
  let trimmed := trim value in
  _ ← validate_path_segment trimmed kind;
  Ok trimmed.

Definition agent_name_from_str : string -> Outcome AtmError AgentName := parse_segment "agent".
Definition chat_id_from_str : string -> Outcome AtmError ChatId := parse_segment "chat id".
Definition team_name_from_str : string -> Outcome AtmError TeamName := parse_segment "team".

(** [str::split] at a character: at least one piece. *)
Fixpoint split (separator : ascii) (s : string) : list string :=
  match s with
  | "" => [""]
  | String c s' =>
    if Ascii.eqb c separator then "" :: split separator s'
    else
      match split separator s' with
      | piece :: pieces => String c piece :: pieces
      | [] => [String c ""]
      end
  end.

Fixpoint validate_labels (labels : list string) : Outcome AtmError unit :=
  match labels with
  | [] => Ok tt
  | label :: rest => _ ← validate_path_segment label "host label"; validate_labels rest
  end.

Abbreviation HostName := string (only parsing).

Definition host_name_from_str (value : string) : Outcome AtmError HostName :=
  let trimmed := trim value in
  if String.eqb trimmed "" then Err (address_parse "host must not be empty")
  else
    _ ← validate_labels (split "." trimmed);
    Ok trimmed.

(** [str::contains] of a character. *)
Definition contains (c : ascii) (s : string) : bool := negb (no_char c s).

(** ** Identities *)

Record AgentIdentity : Set := mkAgentIdentity {
  identity_agent : AgentName;
  identity_chat_id : option ChatId
}.

Definition agent_identity_from_str (value : string) : Outcome AtmError AgentIdentity :=
  let trimmed := trim value in
  if String.eqb trimmed "" then Err (address_parse "agent identity must not be empty")
  else
    match split_once ":" trimmed with
    | Some (agent, chat_id) =>
      if contains ":" chat_id
      then Err (address_parse "agent identity may contain only one ':'")
      else
        agent ← agent_name_from_str agent;
        chat_id ← chat_id_from_str chat_id;
        Ok (mkAgentIdentity agent (Some chat_id))
    | None =>
      agent ← agent_name_from_str trimmed;
      Ok (mkAgentIdentity agent None)
    end.

Definition agent_identity_to_string (i : AgentIdentity) : string :=
  identity_agent i +:+ match identity_chat_id i with Some c => ":" +:+ c | None => "" end.

(** ** Addresses *)

Record AgentAddress : Set := mkAgentAddress {
  addr_agent : AgentName;
  addr_chat_id : option ChatId;
  addr_team : option TeamName;
  addr_host : option HostName
}.

#[export] Instance AgentAddress_eq_dec : EqDecision AgentAddress.
Proof. solve_decision. Defined.

Definition agent_address_new (agent : AgentName) (chat_id : option ChatId)
    (team : option TeamName) (host : option HostName) : Outcome AtmError AgentAddress :=
  if bool_decide (is_Some host) && bool_decide (team = None)
  then Err (address_parse "a host-qualified address must also specify a team")
  else Ok (mkAgentAddress agent chat_id team host).

Definition agent_address_from_str (value : string) : Outcome AtmError AgentAddress :=
  let trimmed := trim value in
  if String.eqb trimmed "" then Err (address_parse "agent name must not be empty")
  else
    match split_once "@" trimmed with
    | Some (identity, destination) =>
      if contains "@" destination
      then Err (address_parse "address may contain only one '@'")
      else
        identity ← agent_identity_from_str identity;
        '(team, host) ←
          match split_once "." destination with
          | Some (team, host) =>
            team ← team_name_from_str team;
            host ← host_name_from_str host;
            Ok (team, Some host)
          | None => team ← team_name_from_str destination; Ok (team, None)
          end;
        agent_address_new (identity_agent identity) (identity_chat_id identity) (Some team) host
    | None =>
      identity ← agent_identity_from_str trimmed;
      agent_address_new (identity_agent identity) (identity_chat_id identity) None None
    end.

Definition agent_address_to_string (a : AgentAddress) : string :=
  let identity := agent_identity_to_string (mkAgentIdentity (addr_agent a) (addr_chat_id a)) in
  match addr_team a, addr_host a with
  | Some team, Some host => identity +:+ "@" +:+ team +:+ "." +:+ host
  | Some team, None => identity +:+ "@" +:+ team
  | None, None => identity
  | None, Some host =>
    "<invalid-agent-address: " +:+ identity +:+ " has host " +:+ host +:+ " without team>"
  end.

Example address_parsed :
  agent_address_from_str " bob:c1@ops.rand-m5.local"
  = Ok (mkAgentAddress "bob" (Some "c1") (Some "ops") (Some "rand-m5.local")).
Proof. reflexivity. Qed.

Example address_refused :
  agent_address_from_str "bob@ops@x" = Err (address_parse "address may contain only one '@'").
Proof. reflexivity. Qed.

(** ** What the parsers accept *)

Definition segment_ok (s : string) : Prop := s <> "" /\ all_chars segment_char s = true.
Definition host_ok (s : string) : Prop := Forall segment_ok (split "." s).

Record address_ok (a : AgentAddress) : Prop := mkAddressOk {
  ok_agent : segment_ok (addr_agent a);
  ok_chat_id : forall c, addr_chat_id a = Some c -> segment_ok c;
  ok_team : forall t, addr_team a = Some t -> segment_ok t;
  ok_host : forall h, addr_host a = Some h -> host_ok h;
  ok_qualified : is_Some (addr_host a) -> is_Some (addr_team a)
}.

(** Printable ASCII but the space: what trimming never removes. *)
Definition visible (c : ascii) : bool := byte_between 33 126 (nat_of_ascii c).

Definition host_char (c : ascii) : bool := segment_char c || Ascii.eqb c ".".

Lemma all_chars_impl (p q : ascii -> bool) s :
  (forall c, p c = true -> q c = true) -> all_chars p s = true -> all_chars q s = true.
Proof.
  intros Hpq. induction s as [|c s IH]; [done|]. simpl. rewrite !andb_true_iff.
  intros [Hc Hs]. split; [by apply Hpq|by apply IH].
Qed.

Lemma all_chars_app p s1 s2 : all_chars p (s1 +:+ s2) = all_chars p s1 && all_chars p s2.
Proof. induction s1 as [|c s1 IH]; [done|]. simpl. by rewrite IH, andb_assoc. Qed.

(** A character class without [a] does not hold the character [a]. *)
Lemma all_chars_no_char p a s : p a = false -> all_chars p s = true -> no_char a s = true.
Proof.
  intros Ha. induction s as [|c s IH]; [done|]. simpl. rewrite !andb_true_iff.
  intros [Hc Hs]. split; [|by apply IH]. apply negb_true_iff, Ascii.eqb_neq. intros ->. congruence.
Qed.

Lemma no_char_contains a s : no_char a s = true -> contains a s = false.
Proof. unfold contains. by intros ->. Qed.

Lemma segment_char_visible c : segment_char c = true -> visible c = true.
Proof.
  unfold segment_char, visible, byte_between.
  rewrite !orb_true_iff, !andb_true_iff, !Nat.leb_le, !Nat.eqb_eq. lia.
Qed.

Lemma host_char_visible c : host_char c = true -> visible c = true.
Proof.
  unfold host_char. intros [H|H%Ascii.eqb_eq]%orb_true_iff; [by apply segment_char_visible|by subst].
Qed.

(** *** Trimming visible text *)

Definition begins_invisible (p : list nat) : bool :=
  match p with n :: _ => negb (byte_between 33 126 n) | [] => false end.

Lemma strip_pattern_app n l l' rest : strip_pattern n l = Some l' -> strip_pattern n (l ++ rest) = Some (l' ++ rest).
Proof.
  revert l. induction n as [|b n IH]; intros l; simpl; [by intros [= <-]|].
  destruct l as [|c l]; [done|]. simpl. destruct (Nat.eqb _ _); [apply IH|done].
Qed.

Lemma strip_one_visible ps c l :
  forallb begins_invisible ps = true -> visible c = true -> strip_one ps (c :: l) = None.
Proof.
  intros Hps Hc. induction ps as [|p ps IH]; [done|]. simpl in Hps.
  apply andb_true_iff in Hps as [Hp Hps]. simpl. destruct p as [|n p]; [done|]. simpl.
  destruct (Nat.eqb_spec n (nat_of_ascii c)) as [->|_]; [|by apply IH].
  unfold visible in Hc. simpl in Hp. by rewrite Hc in Hp.
Qed.

Lemma strip_all_visible fuel ps l :
  forallb begins_invisible ps = true ->
  (forall c, head l = Some c -> visible c = true) -> strip_all fuel ps l = l.
Proof.
  intros Hps Hl. destruct fuel as [|fuel]; [done|]. cbn [strip_all].
  destruct l as [|c l]; [|by rewrite strip_one_visible by auto].
  assert (strip_one ps [] = None) as ->; [|done].
  induction ps as [|p ps IH]; [done|]. simpl in *. apply andb_true_iff in Hps as [Hp Hps].
  destruct p; [done|]. by apply IH.
Qed.

Lemma all_chars_list p s c :
  all_chars p s = true -> c ∈ String.list_ascii_of_string s -> p c = true.
Proof.
  induction s as [|b s IH]; simpl; [by intros _ ?%elem_of_nil|].
  intros [Hb Hs]%andb_true_iff [->|Hc]%elem_of_cons; [done|by apply IH].
Qed.

Lemma trim_visible s : all_chars visible s = true -> trim s = s.
Proof.
  intros Hs. unfold trim, trim_start, trim_end.
  rewrite (strip_all_visible _ white_space); [|reflexivity|].
  2:{ intros c Hc. apply (all_chars_list visible s); [exact Hs|by eapply head_Some_elem_of]. }
  rewrite (strip_all_visible _ (reverse <$> white_space)); [|reflexivity|].
  - by rewrite reverse_involutive, String.string_of_list_ascii_of_string.
  - intros c Hc. apply (all_chars_list visible s); [exact Hs|].
    apply elem_of_reverse. by eapply head_Some_elem_of.
Qed.

(** *** Segments *)

Lemma segment_visible s : segment_ok s -> all_chars visible s = true.
Proof. intros [_ H]. eapply all_chars_impl; [apply segment_char_visible|exact H]. Qed.

Lemma segment_no_char a s : segment_char a = false -> segment_ok s -> no_char a s = true.
Proof. intros Ha [_ H]. by eapply all_chars_no_char. Qed.

Lemma validate_path_segment_ok s kind : validate_path_segment s kind = Ok tt <-> segment_ok s.
Proof.
  unfold validate_path_segment, segment_ok.
  destruct (String.eqb_spec s "") as [->|Hs]; [naive_solver|].
  destruct (all_chars segment_char s); naive_solver.
Qed.

Lemma parse_segment_inv kind s v : parse_segment kind s = Ok v -> segment_ok v.
Proof.
  unfold parse_segment. destruct (validate_path_segment _ kind) as [[]|e|] eqn:Hv; [|done..].
  intros [= <-]. by apply validate_path_segment_ok in Hv.
Qed.

Lemma parse_segment_ok kind s : segment_ok s -> parse_segment kind s = Ok s.
Proof.
  intros Hs. unfold parse_segment. rewrite (trim_visible s) by (by apply segment_visible).
  apply (validate_path_segment_ok s kind) in Hs. by rewrite Hs.
Qed.

(** *** Hosts *)

Lemma split_not_nil a s : split a s <> [].
Proof.
  destruct s as [|c s]; [done|]. simpl. destruct (Ascii.eqb c a); [done|]. by destruct (split a s).
Qed.

Lemma host_chars s : host_ok s -> all_chars host_char s = true.
Proof.
  unfold host_ok.
  cut (Forall (fun l => all_chars segment_char l = true) (split "." s) -> all_chars host_char s = true).
  { intros Hc H. apply Hc. eapply Forall_impl; [exact H|]. by intros ? []. }
  induction s as [|c s IH]; [done|]. simpl. unfold host_char at 1.
  destruct (Ascii.eqb c ".") eqn:Hc.
  { intros H. apply Forall_cons in H as [_ H]. by rewrite orb_true_r, IH. }
  destruct (split "." s) as [|piece pieces] eqn:Hs; [by apply split_not_nil in Hs|].
  intros H. apply Forall_cons in H as [H1 H2]. simpl in H1. apply andb_true_iff in H1 as [H0 H1].
  rewrite H0, IH; [done|]. by constructor.
Qed.

Lemma host_not_empty s : host_ok s -> s <> "".
Proof. intros H ->. inversion_clear H as [|?? [Hne _]]. by apply Hne. Qed.

Lemma validate_labels_ok l : validate_labels l = Ok tt <-> Forall segment_ok l.
Proof.
  induction l as [|s l IH]; [naive_solver|]. simpl. rewrite Forall_cons, <- IH.
  rewrite <- (validate_path_segment_ok s "host label").
  destruct (validate_path_segment s "host label") as [[]|e|]; naive_solver.
Qed.

Lemma host_from_str_inv s h : host_name_from_str s = Ok h -> host_ok h.
Proof.
  unfold host_name_from_str. destruct (String.eqb (trim s) ""); [done|].
  destruct (validate_labels _) as [[]|e|] eqn:Hv; [|done..].
  intros [= <-]. by apply validate_labels_ok in Hv.
Qed.

Lemma host_from_str_ok h : host_ok h -> host_name_from_str h = Ok h.
Proof.
  intros Hh. unfold host_name_from_str. rewrite trim_visible.
  - destruct (String.eqb_spec h "") as [->|_]; [by apply host_not_empty in Hh|].
    apply validate_labels_ok in Hh. by rewrite Hh.
  - eapply all_chars_impl; [apply host_char_visible|by apply host_chars].
Qed.

(** *** Identities and addresses *)

Lemma split_once_none a s : no_char a s = true -> split_once (String a "") s = None.
Proof.
  induction s as [|c s IH]; [done|]. simpl. intros [Hc Hs]%andb_true_iff.
  apply negb_true_iff, Ascii.eqb_neq in Hc.
  destruct (Ascii.ascii_dec a c); [congruence|]. by rewrite IH.
Qed.

Lemma string_app_empty (s : string) : s +:+ "" = s.
Proof. induction s as [|c s IH]; [done|]. change (String c (s +:+ "") = String c s). congruence. Qed.

Lemma split_once_at a d g :
  no_char a d = true -> split_once (String a "") (d +:+ String a g) = Some (d, g).
Proof. intros H. apply (split_once_app a ""); [done|by apply split_once_none]. Qed.

Record identity_ok (i : AgentIdentity) : Prop := mkIdentityOk {
  ok_identity_agent : segment_ok (identity_agent i);
  ok_identity_chat : forall c, identity_chat_id i = Some c -> segment_ok c
}.

Definition identity_char (c : ascii) : bool := segment_char c || Ascii.eqb c ":".

Lemma identity_chars i : identity_ok i -> all_chars identity_char (agent_identity_to_string i) = true.
Proof.
  intros [[_ Ha] Hc]. unfold agent_identity_to_string. rewrite all_chars_app.
  assert (Hi : forall c, segment_char c = true -> identity_char c = true)
    by (intros c Hs; unfold identity_char; by rewrite Hs).
  rewrite (all_chars_impl _ _ _ Hi Ha). destruct (identity_chat_id i) as [c|]; [|done].
  rewrite all_chars_app. destruct (Hc c eq_refl) as [_ H]. by rewrite (all_chars_impl _ _ _ Hi H).
Qed.

Lemma identity_char_visible c : identity_char c = true -> visible c = true.
Proof.
  unfold identity_char. intros [H|H%Ascii.eqb_eq]%orb_true_iff; [by apply segment_char_visible|by subst].
Qed.

Lemma identity_not_empty i : identity_ok i -> agent_identity_to_string i <> "".
Proof. intros [[Hne _] _]. unfold agent_identity_to_string. by destruct (identity_agent i). Qed.

Lemma identity_parse_print i :
  identity_ok i -> agent_identity_from_str (agent_identity_to_string i) = Ok i.
Proof.
  intros Hi. unfold agent_identity_from_str. rewrite trim_visible.
  2:{ eapply all_chars_impl; [apply identity_char_visible|by apply identity_chars]. }
  destruct (String.eqb_spec (agent_identity_to_string i) "") as [He|_];
    [by apply identity_not_empty in He|].
  destruct i as [agent chat], Hi as [Ha Hc]. unfold agent_identity_to_string. simpl in Ha, Hc |- *.
  destruct chat as [c|].
  - specialize (Hc c eq_refl).
    change (":" +:+ c) with (String ":" c). rewrite split_once_at by (by apply segment_no_char).
    rewrite no_char_contains by (by apply segment_no_char).
    unfold agent_name_from_str, chat_id_from_str. by rewrite !parse_segment_ok.
  - rewrite string_app_empty, split_once_none by (by apply segment_no_char).
    unfold agent_name_from_str. by rewrite !parse_segment_ok.
Qed.

Lemma identity_parse_inv s i : agent_identity_from_str s = Ok i -> identity_ok i.
Proof.
  unfold agent_identity_from_str, agent_name_from_str, chat_id_from_str.
  destruct (String.eqb _ _); [done|].
  destruct (split_once ":" (trim s)) as [[agent chat]|].
  - destruct (contains ":" chat); [done|].
    destruct (parse_segment "agent" agent) eqn:Ha; [|done..].
    destruct (parse_segment "chat id" chat) eqn:Hc; [|done..]. intros [= <-].
    constructor; simpl; [by eapply parse_segment_inv|]. intros ? [= <-]. by eapply parse_segment_inv.
  - destruct (parse_segment "agent" (trim s)) eqn:Ha; [|done..]. intros [= <-].
    constructor; simpl; [by eapply parse_segment_inv|done].
Qed.

Lemma address_char_visible c : host_char c || identity_char c || Ascii.eqb c "@" = true -> visible c = true.
Proof.
  rewrite !orb_true_iff. intros [[H|H]|H%Ascii.eqb_eq];
    [by apply host_char_visible|by apply identity_char_visible|by subst].
Qed.

Lemma address_identity_ok a :
  address_ok a -> identity_ok (mkAgentIdentity (addr_agent a) (addr_chat_id a)).
Proof. intros []. by constructor. Qed.

(** The part after the [@]. *)
Definition destination (team : TeamName) (host : option HostName) : string :=
  team +:+ match host with Some h => "." +:+ h | None => "" end.

Lemma destination_chars team host :
  segment_ok team -> (forall h, host = Some h -> host_ok h) ->
  all_chars host_char (destination team host) = true.
Proof.
  intros [_ Ht] Hh. unfold destination. rewrite all_chars_app, andb_true_iff. split.
  - eapply all_chars_impl; [|exact Ht]. intros c Hc. unfold host_char. by rewrite Hc.
  - destruct host as [h|]; [|done]. rewrite all_chars_app. simpl. by apply host_chars, Hh.
Qed.

Lemma address_prints a team :
  address_ok a -> addr_team a = Some team ->
  agent_address_to_string a
  = agent_identity_to_string (mkAgentIdentity (addr_agent a) (addr_chat_id a))
    +:+ String "@" (destination team (addr_host a)).
Proof.
  intros Ha Ht. unfold agent_address_to_string, destination. rewrite Ht.
  destruct (addr_host a) as [h|]; [done|]. by rewrite string_app_empty.
Qed.

Lemma destination_parses team host :
  segment_ok team -> (forall h, host = Some h -> host_ok h) ->
  match split_once "." (destination team host) with
  | Some (t, h) =>
    team' ← team_name_from_str t; host' ← host_name_from_str h; Ok (team', Some host')
  | None => team' ← team_name_from_str (destination team host); Ok (team', None)
  end = Ok (team, host).
Proof.
  intros Ht Hh. unfold destination, team_name_from_str.
  assert (Hn : no_char "." team = true) by (by apply segment_no_char).
  destruct host as [h|].
  - change ("." +:+ h) with (String "." h). rewrite split_once_at by done.
    rewrite parse_segment_ok by done. simpl. by rewrite host_from_str_ok by auto.
  - rewrite string_app_empty, split_once_none by done. by rewrite parse_segment_ok.
Qed.

Lemma address_parse_print a : address_ok a -> agent_address_from_str (agent_address_to_string a) = Ok a.
Proof.
  intros Ha. pose proof (address_identity_ok a Ha) as Hi.
  pose proof (identity_chars _ Hi) as Hic. pose proof (identity_not_empty _ Hi) as Hne.
  unfold agent_address_from_str.
  destruct (addr_team a) as [team|] eqn:Ht.
  - rewrite (address_prints a team) by done.
    pose proof (destination_chars team (addr_host a) (ok_team a Ha team Ht) (ok_host a Ha)) as Hd.
    rewrite trim_visible.
    2:{ rewrite all_chars_app, andb_true_iff. split.
        - eapply all_chars_impl; [apply identity_char_visible|exact Hic].
        - change (all_chars visible (destination team (addr_host a)) = true).
          eapply all_chars_impl; [apply host_char_visible|exact Hd]. }
    destruct (String.eqb_spec (agent_identity_to_string (mkAgentIdentity (addr_agent a) (addr_chat_id a))
      +:+ String "@" (destination team (addr_host a))) "") as [He|_].
    { exfalso. revert He. by destruct (agent_identity_to_string _). }
    rewrite split_once_at by (by eapply all_chars_no_char; [|exact Hic]).
    rewrite no_char_contains by (by eapply all_chars_no_char; [|exact Hd]).
    rewrite identity_parse_print by done.
    cbv beta iota delta [outcome_bind]. cbn [mbind identity_agent identity_chat_id].
    rewrite destination_parses by eauto using ok_team, ok_host.
    unfold agent_address_new. simpl. rewrite andb_false_r. by destruct a; simpl in *; subst.
  - assert (Hh : addr_host a = None).
    { destruct (addr_host a) eqn:Hh; [|done]. destruct (ok_qualified a Ha); [by rewrite Hh|congruence]. }
    assert (Hp : agent_address_to_string a
      = agent_identity_to_string (mkAgentIdentity (addr_agent a) (addr_chat_id a)))
      by (unfold agent_address_to_string; by rewrite Ht, Hh).
    rewrite Hp, trim_visible by (eapply all_chars_impl; [apply identity_char_visible|exact Hic]).
    destruct (String.eqb_spec (agent_identity_to_string (mkAgentIdentity (addr_agent a) (addr_chat_id a))) "")
      as [He|_]; [done|].
    rewrite split_once_none by (by eapply all_chars_no_char; [|exact Hic]).
    rewrite identity_parse_print by done. unfold agent_address_new. simpl.
    destruct a; simpl in *; subst. done.
Qed.

Lemma address_parse_inv s a : agent_address_from_str s = Ok a -> address_ok a.
Proof.
  unfold agent_address_from_str, team_name_from_str. destruct (String.eqb _ _); [done|].
  destruct (split_once "@" (trim s)) as [[identity dest]|].
  - destruct (contains "@" dest); [done|].
    destruct (agent_identity_from_str identity) as [i| |] eqn:Hi; [|done..].
    apply identity_parse_inv in Hi as [Hia Hic]. simpl.
    destruct (split_once "." dest) as [[t h]|].
    + destruct (parse_segment "team" t) eqn:Ht; [|done..].
      destruct (host_name_from_str h) eqn:Hh; [|done..]. simpl. intros [= <-].
      constructor; simpl; try done; intros ? [= <-]; [by eapply parse_segment_inv|by eapply host_from_str_inv].
    + destruct (parse_segment "team" dest) eqn:Ht; [|done..]. simpl. intros [= <-].
      constructor; simpl; try done. intros ? [= <-]. by eapply parse_segment_inv.
  - destruct (agent_identity_from_str (trim s)) as [i| |] eqn:Hi; [|done..].
    apply identity_parse_inv in Hi as [Hia Hic]. simpl. intros [= <-]. constructor; by simpl.
Qed.

(** An address is printed so that it parses back: the parser accepts only
    well-formed addresses (every segment of ASCII letters, digits, [-] and [_],
    a host only with a team), prints each so that parsing gives it again, and
    thus two well-formed addresses with the same text are equal. *)
Theorem address_text_roundtrip :
  (forall s a, agent_address_from_str s = Ok a ->
     address_ok a /\ agent_address_from_str (agent_address_to_string a) = Ok a)
  /\ (forall a b, address_ok a -> address_ok b ->
        agent_address_to_string a = agent_address_to_string b -> a = b).
Proof.
  split.
  - intros s a Ha%address_parse_inv. split; [done|]. by apply address_parse_print.
  - intros a b Ha Hb Heq. apply address_parse_print in Ha, Hb. rewrite Heq in Ha. congruence.
Qed.
