(* ===== verification/Threading.v ===== *)
(** * Message threads

    Models [crates/atm-core/src/threading.rs]: the index of one mailbox by
    message id and by parent, the walks to the root and to the terminal message
    of a thread, the chain of a thread and the logical current envelope, whose
    text is composed from the chain.

    A [HashMap] is a [gmap]; the loops that carry a [seen] set run on fuel, one
    step per entry of the map they walk, which [ThreadingSpec] proves enough. *)

From S2P Require Import Prelude ErrorCodes Types Address.
From stdpp Require Import base gmap strings numbers list.
From Stdlib Require Import Ascii.
Local Open Scope Z_scope.
Local Open Scope string_scope.
Local Open Scope list_scope.

Abbreviation InboxMessage := MessageEnvelope (only parsing).

Definition MAX_LOGICAL_THREAD_TEXT_BYTES : Z := 256 * 1024.

Definition newline : string := String (ascii_of_nat 10) "".
Definition blank_line : string := newline +:+ newline.

Definition TRUNCATED_THREAD_CONTEXT_SENTINEL : string :=
  blank_line +:+ "[ATM thread context truncated]".

Definition canonical_sender_identity (message : InboxMessage) : AgentName := env_from message.

Definition is_ephemeral (message : InboxMessage) : bool :=
  bool_decide (is_Some (env_expires_at message)).

Definition is_expired_ephemeral (message : InboxMessage) (at_ : IsoTimestamp) : bool :=
  match env_expires_at message with
  | Some expires_at => (expires_at <=? at_)%Z
  | None => false
  end.

(** ** Text of a thread *)

(** [str::is_char_boundary]: the byte at the index does not continue a UTF-8
    sequence. *)
Definition is_continuation (c : ascii) : bool := byte_between 128 191 (nat_of_ascii c).

Definition is_char_boundary (s : string) (index : nat) : bool :=
  match index with
  | O => true
  | _ =>
    match String.get index s with
    | Some c => negb (is_continuation c)
    | None => Nat.eqb index (String.length s)
    end
  end.

(** [while truncate_at > 0 && !composed_text.is_char_boundary(truncate_at)]. *)
Fixpoint floor_char_boundary (s : string) (truncate_at : nat) : nat :=
  match truncate_at with
  | O => O
  | S below => if is_char_boundary s truncate_at then truncate_at else floor_char_boundary s below
  end.

Definition truncate_thread_text (composed_text : string) : string :=
  if (MAX_LOGICAL_THREAD_TEXT_BYTES <? Z.of_nat (String.length composed_text))%Z then
    let truncate_at :=
      floor_char_boundary composed_text
        (Z.to_nat (MAX_LOGICAL_THREAD_TEXT_BYTES
                   - Z.of_nat (String.length TRUNCATED_THREAD_CONTEXT_SENTINEL))) in
    String.substring 0 truncate_at composed_text +:+ TRUNCATED_THREAD_CONTEXT_SENTINEL
  else composed_text.

(** The trimmed text of a message, when it is not blank. *)
Definition message_part (message : InboxMessage) : option string :=
  let trimmed := trim (env_text message) in
  if String.eqb trimmed "" then None else Some trimmed.

Definition composed_text (chain : list InboxMessage) : string :=
  String.concat blank_line (omap message_part chain).

(** [chain[start_index..]] from the last message that supersedes the ones before
    it, the whole chain when there is none. *)
Fixpoint from_last_supersede (chain : list InboxMessage) : list InboxMessage :=
  match chain with
  | [] => []
  | m :: rest =>
    if bool_decide (Exists (fun m' => env_thread_mode m' = Some ThreadMode_Supersede) rest)
    then from_last_supersede rest else chain
  end.

Definition with_text (text : string) (e : InboxMessage) : InboxMessage :=
  {| env_from := env_from e;
     env_source_chat_id := env_source_chat_id e;
     env_text := text;
     env_timestamp := env_timestamp e;
     env_read := env_read e;
     env_source_team := env_source_team e;
     env_destination_chat_id := env_destination_chat_id e;
     env_summary := env_summary e;
     env_message_id := env_message_id e;
     env_requires_ack := env_requires_ack e;
     env_pending_ack_at := env_pending_ack_at e;
     env_acknowledged_at := env_acknowledged_at e;
     env_acknowledges_message_id := env_acknowledges_message_id e;
     env_parent_message_id := env_parent_message_id e;
     env_thread_mode := env_thread_mode e;
     env_expires_at := env_expires_at e;
     env_task_id := env_task_id e;
     env_placement := env_placement e;
     env_task_op := env_task_op e;
     env_task_complete := env_task_complete e;
     env_extra := env_extra e |}.

(** ** The index *)
Module ThreadIndex.

Record t : Type := mk {
  by_id : gmap AtmMessageId InboxMessage;
  children : gmap AtmMessageId (list InboxMessage)
}.

(** [by_id.insert(message_id, message)]: a later message replaces an earlier one. *)
Definition add_by_id (ids : gmap AtmMessageId InboxMessage) (message : InboxMessage)
    : gmap AtmMessageId InboxMessage :=
  match env_message_id message with
  | Some message_id => <[message_id := message]> ids
  | None => ids
  end.

(** [children.entry(parent_id).or_default().push(message)]. *)
Definition add_child (cs : gmap AtmMessageId (list InboxMessage)) (message : InboxMessage)
    : gmap AtmMessageId (list InboxMessage) :=
  match env_parent_message_id message with
  | Some parent_id => <[parent_id := default [] (cs !! parent_id) ++ [message]]> cs
  | None => cs
  end.

Definition new (messages : list InboxMessage) : t :=
  mk (foldl add_by_id ∅ messages) (foldl add_child ∅ messages).

Definition message (idx : t) (message_id : AtmMessageId) : option InboxMessage :=
  by_id idx !! message_id.

(** One iteration per fuel; [None] when the fuel is spent. *)
Fixpoint root_loop (idx : t) (fuel : nat) (seen : gset AtmMessageId) (current : AtmMessageId)
    : option (option AtmMessageId) :=
  match fuel with
  | O => None
  | S fuel =>
    match message idx current with
    | None => Some None
    | Some m =>
      match env_parent_message_id m with
      | None => Some (Some current)
      | Some parent_id =>
        if bool_decide (current ∈ seen) then Some (Some current)
        else root_loop idx fuel ({[current]} ∪ seen) parent_id
      end
    end
  end.

Definition root_fuel (idx : t) : nat := S (size (by_id idx)).

Definition root_id (idx : t) (message_id : AtmMessageId) : option AtmMessageId :=
  default None (root_loop idx (root_fuel idx) ∅ message_id).

Definition successor_count (idx : t) (parent_id : AtmMessageId) : nat :=
  match children idx !! parent_id with Some successors => length successors | None => 0 end.

Definition has_successor (idx : t) (parent_id : AtmMessageId) : bool :=
  Nat.ltb 0 (successor_count idx parent_id).

(** [Option<AtmMessageId>::cmp]: no id comes first. *)
Definition id_compare (a b : option AtmMessageId) : comparison :=
  match a, b with
  | None, None => Eq
  | None, Some _ => Lt
  | Some _, None => Gt
  | Some a, Some b => N.compare a b
  end.

Definition successor_compare (l r : InboxMessage) : comparison :=
  match Z.compare (env_timestamp l) (env_timestamp r) with
  | Eq => id_compare (env_message_id l) (env_message_id r)
  | c => c
  end.

(** [Iterator::max_by]: the last of the greatest elements. *)
Definition later (l r : InboxMessage) : InboxMessage :=
  match successor_compare l r with Gt => l | _ => r end.

Definition primary_successor (idx : t) (parent_id : AtmMessageId) : option InboxMessage :=
  match children idx !! parent_id with
  | Some (first :: rest) => Some (foldl later first rest)
  | Some [] | None => None
  end.

Fixpoint terminal_loop (idx : t) (fuel : nat) (seen : gset AtmMessageId) (current : AtmMessageId)
    : option (option AtmMessageId) :=
  match fuel with
  | O => None
  | S fuel =>
    if bool_decide (current ∈ seen) then Some (Some current)
    else
      match primary_successor idx current with
      | None => Some (Some current)
      | Some successor =>
        match env_message_id successor with
        | None => Some None
        | Some next => terminal_loop idx fuel ({[current]} ∪ seen) next
        end
      end
  end.

Definition terminal_fuel (idx : t) : nat := S (size (children idx)).

Definition terminal_id (idx : t) (message_id : AtmMessageId) : option AtmMessageId :=
  default None (terminal_loop idx (terminal_fuel idx) ∅ message_id).

Definition is_terminal (idx : t) (message_id : AtmMessageId) : bool :=
  bool_decide (terminal_id idx message_id = Some message_id).

(** The loop of [chain_messages] from the root. *)
Fixpoint chain_loop (idx : t) (fuel : nat) (seen : gset AtmMessageId)
    (current : option AtmMessageId) : option (list InboxMessage) :=
  match fuel with
  | O => None
  | S fuel =>
    match current with
    | None => Some []
    | Some message_id =>
      if bool_decide (message_id ∈ seen) then Some []
      else
        match message idx message_id with
        | None => Some []
        | Some m =>
          cons m <$> chain_loop idx fuel ({[message_id]} ∪ seen)
                       (primary_successor idx message_id ≫= env_message_id)
        end
    end
  end.

Definition chain_fuel (idx : t) : nat := S (size (by_id idx)).

Definition chain_messages (idx : t) (message_id : AtmMessageId) : list InboxMessage :=
  match root_id idx message_id with
  | None => []
  | Some root => default [] (chain_loop idx (chain_fuel idx) ∅ (Some root))
  end.

Definition thread_requires_ack (idx : t) (message_id : AtmMessageId) : bool :=
  existsb env_requires_ack (chain_messages idx message_id).

Definition logical_current_envelope (idx : t) (message_id : AtmMessageId)
    : option InboxMessage :=
  terminal_id ← terminal_id idx message_id;
  terminal ← message idx terminal_id;
  if bool_decide (env_thread_mode terminal <> Some ThreadMode_AddDetails) then Some terminal
  else
    let composed :=
      truncate_thread_text (composed_text (from_last_supersede (chain_messages idx terminal_id)))
    in Some (if String.eqb composed "" then terminal else with_text composed terminal).

End ThreadIndex.

(** * Message threads: what the walks compute

    The walks of [Threading] end on every index, also on one with a cycle of
    parents.  On a linear thread, a list of messages in which each one is the
    only successor of the one before it, they compute the ends of the list and
    the list itself. *)

Import ThreadIndex.
Local Close Scope Z_scope.

(** ** The maps of an index *)

Definition has_id (i : AtmMessageId) (m : InboxMessage) : Prop := env_message_id m = Some i.
Definition has_parent (i : AtmMessageId) (m : InboxMessage) : Prop :=
  env_parent_message_id m = Some i.

#[export] Instance has_id_dec i m : Decision (has_id i m).
Proof. unfold has_id. apply _. Defined.
#[export] Instance has_parent_dec i m : Decision (has_parent i m).
Proof. unfold has_parent. apply _. Defined.

(** An entry of [by_id] is the last message of the list with that id. *)
Lemma by_id_new ms i : message (new ms) i = last (filter (has_id i) ms).
Proof.
  unfold message, new; cbn [by_id]. induction ms as [|m ms IH] using rev_ind; [done|].
  rewrite foldl_snoc, filter_app, filter_cons, filter_nil. unfold add_by_id at 1.
  destruct (env_message_id m) as [j|] eqn:Hm.
  - destruct (decide (has_id i m)) as [Hi|Hi].
    + rewrite last_snoc. unfold has_id in Hi. simplify_eq. by rewrite lookup_insert_eq.
    + rewrite app_nil_r, lookup_insert_ne; [done|]. unfold has_id in Hi. congruence.
  - rewrite decide_False, app_nil_r; [done|]. unfold has_id. congruence.
Qed.

(** An entry of [children] is the list of successors, in the order of the list. *)
Lemma children_new ms i :
  children (new ms) !! i
  = match filter (has_parent i) ms with [] => None | successors => Some successors end.
Proof.
  unfold new; cbn [children]. induction ms as [|m ms IH] using rev_ind; [done|].
  rewrite foldl_snoc, filter_app, filter_cons, filter_nil. unfold add_child at 1.
  destruct (env_parent_message_id m) as [j|] eqn:Hm.
  - destruct (decide (has_parent i m)) as [Hi|Hi].
    + unfold has_parent in Hi. simplify_eq. rewrite lookup_insert_eq, IH.
      by destruct (filter _ ms).
    + rewrite app_nil_r, lookup_insert_ne; [done|]. unfold has_parent in Hi. congruence.
  - rewrite decide_False, app_nil_r; [done|]. unfold has_parent. congruence.
Qed.

Lemma message_new_elem ms i m : message (new ms) i = Some m -> m ∈ ms /\ env_message_id m = Some i.
Proof.
  rewrite by_id_new. intros H%last_Some_elem_of. by apply list_elem_of_filter in H as [Hi Hm].
Qed.

Lemma message_new_is_Some ms i m : m ∈ ms -> env_message_id m = Some i -> is_Some (message (new ms) i).
Proof.
  intros Hm Hi. rewrite by_id_new. apply last_is_Some. intros Hn.
  assert (m ∈ filter (has_id i) ms) by (by apply list_elem_of_filter).
  rewrite Hn in *. by eapply not_elem_of_nil.
Qed.

(** ** Termination *)

Lemma size_unseen (D seen : gset AtmMessageId) c :
  c ∈ D -> c ∉ seen -> size (D ∖ ({[c]} ∪ seen)) < size (D ∖ seen).
Proof. intros. apply subset_size. set_solver. Qed.

Lemma root_loop_ends idx fuel seen current :
  size (dom (by_id idx) ∖ seen) < fuel -> is_Some (root_loop idx fuel seen current).
Proof.
  revert seen current. induction fuel as [|fuel IH]; intros seen current Hf; [lia|]. cbn [root_loop].
  destruct (message idx current) as [m|] eqn:Hm; [|eauto].
  destruct (env_parent_message_id m) as [p|]; [|eauto].
  case_bool_decide as Hs; [eauto|]. apply IH.
  assert (current ∈ dom (by_id idx)) as Hd by (by eapply elem_of_dom_2).
  pose proof (size_unseen _ _ _ Hd Hs). lia.
Qed.

Lemma terminal_loop_ends idx fuel seen current :
  size (dom (children idx) ∖ seen) < fuel -> is_Some (terminal_loop idx fuel seen current).
Proof.
  revert seen current. induction fuel as [|fuel IH]; intros seen current Hf; [lia|].
  cbn [terminal_loop]. case_bool_decide as Hs; [eauto|].
  destruct (primary_successor idx current) as [m|] eqn:Hm; [|eauto].
  destruct (env_message_id m) as [n|]; [|eauto]. apply IH.
  assert (current ∈ dom (children idx)) as Hd.
  { unfold primary_successor in Hm. destruct (children idx !! current) eqn:?; [|done].
    by eapply elem_of_dom_2. }
  pose proof (size_unseen _ _ _ Hd Hs). lia.
Qed.

Lemma chain_loop_ends idx fuel seen current :
  size (dom (by_id idx) ∖ seen) < fuel -> is_Some (chain_loop idx fuel seen current).
Proof.
  revert seen current. induction fuel as [|fuel IH]; intros seen current Hf; [lia|].
  cbn [chain_loop]. destruct current as [i|]; [|eauto].
  case_bool_decide as Hs; [eauto|]. destruct (message idx i) as [m|] eqn:Hm; [|eauto].
  assert (i ∈ dom (by_id idx)) as Hd by (by eapply elem_of_dom_2).
  pose proof (size_unseen _ _ _ Hd Hs).
  apply fmap_is_Some, IH. lia.
Qed.

Lemma fuel_start {A} (m : gmap AtmMessageId A) : size (dom m ∖ (∅ : gset AtmMessageId)) < S (size m).
Proof. rewrite difference_empty_L, size_dom. lia. Qed.

(** ** Linear threads *)

(** [linked idx prev ms]: the messages [ms] follow the message [prev], each the
    only successor of the one before, and nothing follows the last of them. *)
Fixpoint linked (idx : t) (prev : option AtmMessageId) (ms : list InboxMessage) : Prop :=
  match ms with
  | [] => match prev with Some p => children idx !! p = None | None => True end
  | m :: rest =>
    env_parent_message_id m = prev
    /\ match prev with Some p => children idx !! p = Some [m] | None => True end
    /\ exists i, env_message_id m = Some i /\ message idx i = Some m /\ linked idx (Some i) rest
  end.

(** A whole thread: a root and its successors. *)
Definition is_thread (idx : t) (ms : list InboxMessage) : Prop := ms <> [] /\ linked idx None ms.

Definition thread_id (ms : list InboxMessage) (k : nat) (i : AtmMessageId) : Prop :=
  exists m, ms !! k = Some m /\ env_message_id m = Some i.

Section Linear.
Context (idx : t) (ms : list InboxMessage).

(** What [linked] says at a position. *)
Lemma linked_at prev (ts : list InboxMessage) k m :
  linked idx prev ts -> ts !! k = Some m ->
  exists i, env_message_id m = Some i /\ message idx i = Some m
    /\ match k with
       | O => env_parent_message_id m = prev
       | S j => exists m' p, ts !! j = Some m' /\ env_message_id m' = Some p
                  /\ env_parent_message_id m = Some p
                  /\ primary_successor idx p = Some m
       end
    /\ (S k = length ts -> primary_successor idx i = None).
Proof.
  revert prev k. induction ts as [|m0 ts IH]; intros prev k Hl Hk; [done|].
  destruct Hl as (Hp & _ & i0 & Hi0 & Hm0 & Hl). destruct k as [|k].
  - cbn in Hk. simplify_eq. exists i0. split_and!; [done..|].
    destruct ts; cbn; [|lia]. intros _. cbn in Hl. unfold primary_successor. by rewrite Hl.
  - cbn in Hk. destruct (IH _ _ Hl Hk) as (i & Hi & Hm & Hpos & Hend).
    exists i. split_and!; [done..| |cbn; intros; apply Hend; lia].
    destruct k as [|k]; [|exact Hpos]. exists m0, i0. split_and!; [done..|].
    destruct ts as [|m1 ts]; [done|]. cbn in Hk. simplify_eq.
    destruct Hl as (_ & Hc & _). unfold primary_successor. by rewrite Hc.
Qed.

Hypothesis Hthread : is_thread idx ms.

Lemma thread_at k m :
  ms !! k = Some m ->
  exists i, env_message_id m = Some i /\ message idx i = Some m
    /\ match k with
       | O => env_parent_message_id m = None
       | S j => exists m' p, ms !! j = Some m' /\ env_message_id m' = Some p
                  /\ env_parent_message_id m = Some p
                  /\ primary_successor idx p = Some m
       end
    /\ (S k = length ms -> primary_successor idx i = None).
Proof. apply linked_at, Hthread. Qed.

(** No message occurs twice: walking back from two places with one id would
    reach the root and a message that has a parent. *)
Lemma thread_id_inj j k i : thread_id ms j i -> thread_id ms k i -> j = k.
Proof.
  assert (forall j k i, thread_id ms j i -> thread_id ms k i -> j <= k) as H.
  { clear j k i. induction j as [|j IH]; intros k i; [lia|].
    intros (m & Hm & Hi) (m' & Hm' & Hi').
    destruct (thread_at _ _ Hm) as (i1 & ? & Hlook & (q & p & Hq & Hp & Hpar & _) & _).
    destruct (thread_at _ _ Hm') as (i2 & ? & Hlook' & Hpos & _). simplify_eq.
    destruct k as [|k]; [congruence|]. destruct Hpos as (q' & p' & Hq' & Hp' & Hpar' & _).
    simplify_eq. apply le_n_S, (IH k p); by eexists. }
  intros. apply Nat.le_antisymm; eauto.
Qed.

Lemma thread_id_at k : k < length ms -> exists i, thread_id ms k i.
Proof.
  intros [m Hm]%lookup_lt_is_Some. destruct (thread_at _ _ Hm) as (i & Hi & _). by exists i, m.
Qed.

Lemma thread_id_dom k i : thread_id ms k i -> i ∈ dom (by_id idx).
Proof.
  intros (m & Hm & Hi). destruct (thread_at _ _ Hm) as (i' & ? & Hlook & _). simplify_eq.
  by eapply elem_of_dom_2.
Qed.

Lemma thread_id_parent k i : thread_id ms k i -> S k < length ms -> i ∈ dom (children idx).
Proof.
  intros (m & Hm & Hi) [m' Hm']%lookup_lt_is_Some.
  destruct (thread_at _ _ Hm') as (i' & _ & _ & (q & p & Hq & Hp & _ & Hs) & _). simplify_eq.
  unfold primary_successor in Hs. destruct (children idx !! i) eqn:?; [|done].
  by eapply elem_of_dom_2.
Qed.

(** A map that holds the ids of the first [n] messages has [n] entries or more. *)
Lemma thread_size {A} (m : gmap AtmMessageId A) n :
  n <= length ms -> (forall k i, k < n -> thread_id ms k i -> i ∈ dom m) -> n <= size m.
Proof.
  intros Hn Hin. rewrite <- size_dom.
  assert (exists X : gset AtmMessageId,
            size X = n /\ forall i, i ∈ X <-> exists k, k < n /\ thread_id ms k i) as (X & HX & Hel).
  { clear Hin. induction n as [|n IH].
    - exists ∅. split; [apply size_empty|]. intros i. split; [set_solver|].
      intros (k & Hk & _). lia.
    - destruct IH as (X & HX & Hel); [lia|]. destruct (thread_id_at n) as [i Hi]; [lia|].
      exists ({[i]} ∪ X). split.
      + rewrite size_union, size_singleton; [lia|]. apply disjoint_singleton_l.
        rewrite Hel. intros (k & Hk & Hki). pose proof (thread_id_inj _ _ _ Hi Hki). lia.
      + intros j. rewrite elem_of_union, elem_of_singleton, Hel. split.
        * intros [->|(k & Hk & Hj)]; [exists n; split; [lia|done]|exists k; split; [lia|done]].
        * intros (k & Hk & Hj). destruct (decide (k = n)) as [->|]; [|right; exists k; split; [lia|done]].
          left. destruct Hi as (a & ? & ?), Hj as (b & ? & ?). congruence. }
  rewrite <- HX. apply subseteq_size. intros i (k & Hk & Hi)%Hel. eauto.
Qed.
(** The walk back from a position reaches the root. *)
Lemma root_loop_thread k i r fuel (seen : gset AtmMessageId) :
  thread_id ms k i -> thread_id ms 0 r -> k < fuel ->
  (forall j i', j <= k -> thread_id ms j i' -> i' ∉ seen) ->
  root_loop idx fuel seen i = Some (Some r).
Proof.
  revert i fuel seen. induction k as [|k IH]; intros i fuel seen Hi Hr Hf Hseen;
    (destruct fuel as [|fuel]; [lia|]); cbn [root_loop]; pose proof Hi as (m & Hm & Hmi);
    destruct (thread_at _ _ Hm) as (i' & Hi' & Hlook & Hpos & _); simplify_eq; rewrite Hlook.
  - rewrite Hpos. destruct Hr as (m' & ? & ?). by simplify_eq.
  - destruct Hpos as (m' & p & Hm' & Hp & Hpar & _). rewrite Hpar, bool_decide_eq_false_2
      by (eapply Hseen; [|done]; lia).
    apply IH; [by exists m'|done|lia|]. intros j i'' Hj Hi''.
    apply not_elem_of_union. split; [|eapply Hseen; [|done]; lia].
    rewrite elem_of_singleton. intros ->. pose proof (thread_id_inj _ _ _ Hi Hi''). lia.
Qed.

Lemma terminal_loop_thread n k i e fuel (seen : gset AtmMessageId) :
  length ms = S (n + k) -> thread_id ms k i -> thread_id ms (n + k) e -> n < fuel ->
  (forall j i', k <= j -> thread_id ms j i' -> i' ∉ seen) ->
  terminal_loop idx fuel seen i = Some (Some e).
Proof.
  revert k i fuel seen. induction n as [|n IH]; intros k i fuel seen Hlen Hi He Hf Hseen;
    (destruct fuel as [|fuel]; [lia|]); cbn [terminal_loop];
    rewrite bool_decide_eq_false_2 by (eapply Hseen; [|done]; lia); pose proof Hi as (m & Hm & Hmi).
  - destruct (thread_at _ _ Hm) as (i' & Hi' & _ & _ & Hend). simplify_eq.
    rewrite Hend by lia. change (0 + k) with k in He. destruct He as (m' & ? & ?). by simplify_eq.
  - destruct (lookup_lt_is_Some_2 ms (S k)) as [m' Hm']; [lia|].
    destruct (thread_at _ _ Hm') as (i' & Hi' & _ & (q & p & Hq & Hp & _ & Hs) & _). simplify_eq.
    rewrite Hs, Hi'. apply (IH (S k)).
    + lia.
    + by exists m'.
    + by rewrite Nat.add_succ_r.
    + lia.
    + intros j i'' Hj Hi''. apply not_elem_of_union. split; [|eapply Hseen; [|done]; lia].
      rewrite elem_of_singleton. intros ->. pose proof (thread_id_inj _ _ _ Hi Hi''). lia.
Qed.

Lemma chain_loop_thread n k fuel (seen : gset AtmMessageId) cur :
  length ms = n + k -> n < fuel ->
  match n with O => cur = None | S _ => exists i, cur = Some i /\ thread_id ms k i end ->
  (forall j i', k <= j -> thread_id ms j i' -> i' ∉ seen) ->
  chain_loop idx fuel seen cur = Some (drop k ms).
Proof.
  revert k fuel seen cur. induction n as [|n IH]; intros k fuel seen cur Hlen Hf Hcur Hseen;
    (destruct fuel as [|fuel]; [lia|]); cbn [chain_loop].
  - subst cur. rewrite drop_ge; [done|lia].
  - destruct Hcur as (i & -> & Hi). rewrite bool_decide_eq_false_2 by (eapply Hseen; [|done]; lia).
    pose proof Hi as (m & Hm & Hmi). rewrite (drop_S _ _ _ Hm).
    destruct (thread_at _ _ Hm) as (i' & Hi' & Hlook & _ & Hend). simplify_eq. rewrite Hlook.
    rewrite (IH (S k)); [done|lia|lia| |].
    + destruct n as [|n]; [rewrite Hend by lia; done|].
      destruct (lookup_lt_is_Some_2 ms (S k)) as [m' Hm']; [lia|].
      destruct (thread_at _ _ Hm') as (i' & Hi' & _ & (q & p & Hq & Hp & _ & Hs) & _).
      simplify_eq. rewrite Hs. cbn. exists i'. split; [done|by exists m'].
    + intros j i'' Hj Hi''. apply not_elem_of_union. split; [|eapply Hseen; [|done]; lia].
      rewrite elem_of_singleton. intros ->. pose proof (thread_id_inj _ _ _ Hi Hi''). lia.
Qed.

Lemma thread_length_pos : 0 < length ms.
Proof. destruct Hthread as [Hne _]. destruct ms; [done|cbn; lia]. Qed.

Lemma by_id_size : length ms <= size (by_id idx).
Proof. apply thread_size; [done|]. intros k i _ Hi. by eapply thread_id_dom. Qed.

Lemma root_id_thread k i r : thread_id ms k i -> thread_id ms 0 r -> root_id idx i = Some r.
Proof.
  intros Hi Hr. unfold root_id, root_fuel. pose proof by_id_size.
  assert (k < length ms) by (destruct Hi as (m & Hm & _); by eapply lookup_lt_Some).
  rewrite (root_loop_thread k i r); [done..|lia|intros; apply not_elem_of_empty].
Qed.

Lemma terminal_id_thread k i e :
  thread_id ms k i -> thread_id ms (pred (length ms)) e -> terminal_id idx i = Some e.
Proof.
  intros Hi He. unfold terminal_id, terminal_fuel.
  assert (k < length ms) by (destruct Hi as (m & Hm & _); by eapply lookup_lt_Some).
  assert (pred (length ms) <= size (children idx)).
  { apply thread_size; [lia|]. intros j i' Hj Hi'. eapply thread_id_parent; [done|lia]. }
  rewrite (terminal_loop_thread (pred (length ms) - k) k i e); [done|lia|done| |lia|intros; apply not_elem_of_empty].
  by replace (pred (length ms) - k + k) with (pred (length ms)) by lia.
Qed.

Lemma chain_messages_thread k i : thread_id ms k i -> chain_messages idx i = ms.
Proof.
  intros Hi. destruct (thread_id_at 0 thread_length_pos) as [r Hr]. unfold chain_messages, chain_fuel.
  rewrite (root_id_thread k i r) by done. pose proof by_id_size.
  rewrite (chain_loop_thread (length ms) 0 _ _ (Some r)); [done|lia|lia| |intros; apply not_elem_of_empty].
  pose proof thread_length_pos. destruct (length ms) eqn:E; [lia|]. by exists r.
Qed.

Lemma is_terminal_thread k i :
  thread_id ms k i -> is_terminal idx i = bool_decide (S k = length ms).
Proof.
  intros Hi. pose proof thread_length_pos as Hpos.
  assert (k < length ms) by (destruct Hi as (m & Hm & _); by eapply lookup_lt_Some).
  destruct (thread_id_at (pred (length ms))) as [e He]; [lia|].
  unfold is_terminal. apply bool_decide_ext. rewrite (terminal_id_thread k i e) by done. split.
  - intros [= ->]. pose proof (thread_id_inj _ _ _ Hi He). lia.
  - intros Hk. f_equal. replace (pred (length ms)) with k in He by lia.
    destruct Hi as (? & ? & ?), He as (? & ? & ?). congruence.
Qed.
End Linear.
