(* ===== verification/TaskState.v ===== *)
(** * Task state machine

    Models [crates/atm-storage/src/task_state.rs]: the queue position and
    task-limit newtypes, the task state and event types, the transition table,
    the admission guards, and the wire shapes of task rows and task events. *)

From S2P Require Import Prelude ErrorCodes Types.
From stdpp Require Import base strings list numbers.
Local Open Scope Z_scope.
Local Open Scope string_scope.

(** ** Queue positions and task limits *)

(** [QueuePosition(NonZeroU32)]: the carried number, at least 1 and at most
    [u32::MAX] for every value built by [queue_position_new]. *)
Abbreviation QueuePosition := Z (only parsing).

Definition queue_position_head : QueuePosition := 1.
Definition queue_position_new (value : Z) : option QueuePosition :=
  if bool_decide (value = 0) then None else Some value.
Definition queue_position_next (p : QueuePosition) : QueuePosition := u32_saturating_add p 1.

Definition max_tasks_default : Z := 1.
Definition max_tasks_new (value : Z) : option Z :=
  if bool_decide (value = 0) then None else Some value.

Definition max_tasks_to_metadata_value (limit : Z) : Value :=
  Value_Number (PosInt (Z.to_N limit)).

(** [MaxTasks::from_metadata_value]. *)
Definition max_tasks_from_metadata_value (value : option Value) : option Z :=
  match value with
  | None => Some max_tasks_default
  | Some v =>
    if value_is_null v then Some max_tasks_default
    else
      n ← value_as_u64 v;
      n32 ← u32_try_from n;
      max_tasks_new n32
  end.

Definition MAX_TASKS_METADATA_KEY : string := "max_tasks".
Definition DAEMON_ACTOR_NAME : string := "atm-daemon".

(** ** States, events and kinds *)
Definition TaskCloseOutcome_as_str (o : TaskCloseOutcome) : string :=
  match o with
  | TaskCloseOutcome_Completed => "completed"
  | TaskCloseOutcome_Refused => "refused"
  | TaskCloseOutcome_Cancelled => "cancelled"
  end.

Inductive TaskState : Set :=
| TaskState_Assigned
| TaskState_Active
| TaskState_Complete (outcome : TaskCloseOutcome).

#[export] Instance TaskState_eq_dec : EqDecision TaskState.
Proof. solve_decision. Defined.

Inductive TaskStateTag : Set :=
| TaskStateTag_Assigned
| TaskStateTag_Active
| TaskStateTag_Complete.

#[export] Instance TaskStateTag_eq_dec : EqDecision TaskStateTag.
Proof. solve_decision. Defined.

Definition TaskState_as_str (s : TaskState) : string :=
  match s with
  | TaskState_Assigned => "assigned"
  | TaskState_Active => "active"
  | TaskState_Complete _ => "complete"
  end.

Definition is_open (s : TaskState) : bool :=
  match s with TaskState_Complete _ => false | _ => true end.

Definition tag (s : TaskState) : TaskStateTag :=
  match s with
  | TaskState_Assigned => TaskStateTag_Assigned
  | TaskState_Active => TaskStateTag_Active
  | TaskState_Complete _ => TaskStateTag_Complete
  end.

Definition close_outcome (s : TaskState) : option TaskCloseOutcome :=
  match s with TaskState_Complete o => Some o | _ => None end.

(** [TaskState::from_parts]. *)
Definition from_parts (t : TaskStateTag) (o : option TaskCloseOutcome)
    : Outcome AtmError TaskState :=
  match t, o with
  | TaskStateTag_Assigned, None => Ok TaskState_Assigned
  | TaskStateTag_Active, None => Ok TaskState_Active
  | TaskStateTag_Complete, Some outcome => Ok (TaskState_Complete outcome)
  | TaskStateTag_Complete, None => Err (validation "complete task without close_outcome")
  | _, Some _ => Err (validation "open task with close_outcome")
  end.

Inductive TaskEvent : Set :=
| TaskEvent_Assigned
| TaskEvent_Started
| TaskEvent_Completed (outcome : TaskCloseOutcome).

Inductive TaskActor : Set :=
| TaskActor_Member (name : AgentName)
| TaskActor_Daemon.

#[export] Instance TaskActor_eq_dec : EqDecision TaskActor.
Proof. solve_decision. Defined.

Record TaskRow : Set := mkTaskRow {
  row_team : TeamName;
  row_task_id : TaskId;
  row_assignee : AgentName;
  row_assigner : AgentName;
  row_state : TaskState;
  row_position : option QueuePosition;
  row_assignment_message_id : AtmMessageId;
  row_description : string;
  row_assigned_at : IsoTimestamp;
  row_updated_at : IsoTimestamp;
  row_last_reminded_at : option IsoTimestamp;
  row_reminder_count : Z;
  row_lead_notified_count : Z
}.

#[export] Instance TaskRow_eq_dec : EqDecision TaskRow.
Proof. solve_decision. Defined.

(** ** The transition table *)
Record TaskRejected : Set := mkTaskRejected { rejected_code : AtmErrorCode; rejected_detail : string }.

(** [TaskRejected::into_atm_error]. *)
Definition into_atm_error (r : TaskRejected) : AtmError :=
  atm_error_new (rejected_code r) (rejected_detail r).

Definition no_open_task (task_id : TaskId) (actor : AgentName) : string :=
  "no open task " +:+ task_id +:+ " for " +:+ actor.

(** [transition]; [unreachable!] is [Panic]. *)
Definition transition (state : option TaskState) (event : TaskEvent) (task_id : TaskId)
    (actor : AgentName) (current_assignee : option AgentName) (requested_assignee : AgentName)
    : Outcome TaskRejected TaskState :=
  match state, event with
  | None, TaskEvent_Assigned => Ok TaskState_Assigned
  | None, (TaskEvent_Started | TaskEvent_Completed _) =>
    Err (mkTaskRejected TaskNotFound (no_open_task task_id actor))
  | Some TaskState_Assigned, TaskEvent_Assigned =>
    if bool_decide (current_assignee = Some requested_assignee)
    then Ok TaskState_Assigned else Ok TaskState_Assigned
  | Some TaskState_Active, TaskEvent_Assigned =>
    if bool_decide (current_assignee = Some requested_assignee)
    then Ok TaskState_Active else Ok TaskState_Assigned
  | Some (TaskState_Complete _), TaskEvent_Assigned => Ok TaskState_Assigned
  | Some (TaskState_Assigned | TaskState_Active), TaskEvent_Started => Ok TaskState_Active
  | Some (TaskState_Assigned | TaskState_Active), TaskEvent_Completed outcome =>
    Ok (TaskState_Complete outcome)
  | Some (TaskState_Complete _), (TaskEvent_Started | TaskEvent_Completed _) => Panic
  end.

(** [admit]. *)
Definition admit_task (row : option TaskRow) (event : TaskEvent) (task_id : TaskId)
    (actor : AgentName) : Outcome TaskRejected unit :=
  match row, event with
  | None, TaskEvent_Completed _ =>
    Err (mkTaskRejected TaskNotFound (no_open_task task_id actor))
  | None, TaskEvent_Assigned => Ok tt
  | None, TaskEvent_Started =>
    Err (mkTaskRejected TaskNotFound (no_open_task task_id actor))
  | Some r, TaskEvent_Completed _ =>
    if bool_decide (actor <> row_assignee r) && bool_decide (actor <> row_assigner r)
    then Err (mkTaskRejected TaskNotCounterparty
                ("task " +:+ row_task_id r +:+ " is not assigned to or by " +:+ actor))
    else Ok tt
  | Some _, _ => Ok tt
  end.

(** ** Event kinds and markers *)
Inductive TaskEventKind : Set :=
| TaskEventKind_Assigned | TaskEventKind_Acked | TaskEventKind_Started
| TaskEventKind_Completed | TaskEventKind_Refused | TaskEventKind_Cancelled
| TaskEventKind_Reassigned | TaskEventKind_Reopened | TaskEventKind_Rejected
| TaskEventKind_Reminded | TaskEventKind_LeadNotified | TaskEventKind_Moved
| TaskEventKind_Migrated | TaskEventKind_RemindersReset.

#[export] Instance TaskEventKind_eq_dec : EqDecision TaskEventKind.
Proof. solve_decision. Defined.

Definition TaskEventKind_as_str (k : TaskEventKind) : string :=
  match k with
  | TaskEventKind_Assigned => "assigned"
  | TaskEventKind_Acked => "acked"
  | TaskEventKind_Started => "started"
  | TaskEventKind_Completed => "completed"
  | TaskEventKind_Refused => "refused"
  | TaskEventKind_Cancelled => "cancelled"
  | TaskEventKind_Reassigned => "reassigned"
  | TaskEventKind_Reopened => "reopened"
  | TaskEventKind_Rejected => "rejected"
  | TaskEventKind_Reminded => "reminded"
  | TaskEventKind_LeadNotified => "lead_notified"
  | TaskEventKind_Moved => "moved"
  | TaskEventKind_Migrated => "migrated"
  | TaskEventKind_RemindersReset => "reminders_reset"
  end.

Inductive TaskEventMarker : Set :=
| TaskEventMarker_Resend
| TaskEventMarker_AssignmentMissing.

#[export] Instance TaskEventMarker_eq_dec : EqDecision TaskEventMarker.
Proof. solve_decision. Defined.

Definition TaskEventMarker_as_str (m : TaskEventMarker) : string :=
  match m with
  | TaskEventMarker_Resend => "resend"
  | TaskEventMarker_AssignmentMissing => "assignment_missing"
  end.

Inductive PromptTrigger : Set := PromptTrigger_Steer | PromptTrigger_TaskPass.

#[export] Instance PromptTrigger_eq_dec : EqDecision PromptTrigger.
Proof. solve_decision. Defined.

Definition PromptTrigger_as_str (t : PromptTrigger) : string :=
  match t with
  | PromptTrigger_Steer => "steer"
  | PromptTrigger_TaskPass => "task_pass"
  end.

Record PromptHandoff : Set := mkPromptHandoff {
  handoff_team : TeamName;
  handoff_agent : AgentName;
  handoff_message_key : MessageKey;
  handoff_kind : BuiltInNudgeTemplateKind;
  handoff_task_id : TaskId;
  handoff_attempt : Z;
  handoff_trigger : PromptTrigger;
  handoff_at : IsoTimestamp
}.

#[export] Instance PromptHandoff_eq_dec : EqDecision PromptHandoff.
Proof. solve_decision. Defined.

Record TaskEventRow : Set := mkTaskEventRow {
  ev_team : TeamName;
  ev_task_id : TaskId;
  ev_assignee : AgentName;
  ev_seq : Z;
  ev_at : IsoTimestamp;
  ev_event : TaskEventKind;
  ev_from_state : option TaskState;
  ev_to_state : option TaskState;
  ev_actor : TaskActor;
  ev_message_id : option AtmMessageId;
  ev_outcome : option ReminderOutcome;
  ev_marker : option TaskEventMarker;
  ev_detail : option string
}.

#[export] Instance TaskEventRow_eq_dec : EqDecision TaskEventRow.
Proof. solve_decision. Defined.

Record RefusalRun : Set := mkRefusalRun { run_count : Z; run_started_at : option IsoTimestamp }.

(** ** Wire shapes *)
Record TaskRowWire : Set := mkTaskRowWire {
  wire_team : TeamName;
  wire_task_id : TaskId;
  wire_assignee : AgentName;
  wire_assigner : AgentName;
  wire_state : TaskStateTag;
  wire_close_outcome : option TaskCloseOutcome;
  wire_position : option QueuePosition;
  wire_assignment_message_id : AtmMessageId;
  wire_description : string;
  wire_assigned_at : IsoTimestamp;
  wire_updated_at : IsoTimestamp;
  wire_last_reminded_at : option IsoTimestamp;
  wire_reminder_count : Z;
  wire_lead_notified_count : Z
}.

(** [TryFrom<TaskRowWire> for TaskRow]. *)
Definition task_row_try_from (wire : TaskRowWire) : Outcome AtmError TaskRow :=
  let outcome :=
    if bool_decide (wire_state wire = TaskStateTag_Complete)
       && bool_decide (wire_close_outcome wire = None)
    then Some TaskCloseOutcome_Completed
    else wire_close_outcome wire in
  state ← from_parts (wire_state wire) outcome;
  if negb (is_open state) && bool_decide (is_Some (wire_position wire))
  then Err (validation "complete task with queue position")
  else
    Ok {| row_team := wire_team wire;
          row_task_id := wire_task_id wire;
          row_assignee := wire_assignee wire;
          row_assigner := wire_assigner wire;
          row_state := state;
          row_position := wire_position wire;
          row_assignment_message_id := wire_assignment_message_id wire;
          row_description := wire_description wire;
          row_assigned_at := wire_assigned_at wire;
          row_updated_at := wire_updated_at wire;
          row_last_reminded_at := wire_last_reminded_at wire;
          row_reminder_count := wire_reminder_count wire;
          row_lead_notified_count := wire_lead_notified_count wire |}.

(** [Serialize for TaskRow]: the wire record it serializes. *)
Definition task_row_serialize (row : TaskRow) : TaskRowWire :=
  {| wire_team := row_team row;
     wire_task_id := row_task_id row;
     wire_assignee := row_assignee row;
     wire_assigner := row_assigner row;
     wire_state := tag (row_state row);
     wire_close_outcome := close_outcome (row_state row);
     wire_position := row_position row;
     wire_assignment_message_id := row_assignment_message_id row;
     wire_description := row_description row;
     wire_assigned_at := row_assigned_at row;
     wire_updated_at := row_updated_at row;
     wire_last_reminded_at := row_last_reminded_at row;
     wire_reminder_count := row_reminder_count row;
     wire_lead_notified_count := row_lead_notified_count row |}.

Record TaskEventRowWire : Set := mkTaskEventRowWire {
  evw_team : TeamName;
  evw_task_id : TaskId;
  evw_assignee : AgentName;
  evw_seq : Z;
  evw_at : IsoTimestamp;
  evw_event : TaskEventKind;
  evw_from_state : option TaskStateTag;
  evw_to_state : option TaskStateTag;
  evw_close_outcome : option TaskCloseOutcome;
  evw_actor : TaskActor;
  evw_message_id : option AtmMessageId;
  evw_outcome : option ReminderOutcome;
  evw_marker : option TaskEventMarker;
  evw_detail : option string
}.

(** [TryFrom<TaskEventRowWire> for TaskEventRow]. *)
Definition task_event_row_try_from (wire : TaskEventRowWire) : Outcome AtmError TaskEventRow :=
  let outcome_for (t : TaskStateTag) : option TaskCloseOutcome :=
    if bool_decide (t = TaskStateTag_Complete)
    then Some (default TaskCloseOutcome_Completed (evw_close_outcome wire))
    else None in
  if bool_decide (is_Some (evw_close_outcome wire))
     && bool_decide (evw_from_state wire <> Some TaskStateTag_Complete)
     && bool_decide (evw_to_state wire <> Some TaskStateTag_Complete)
  then Err (validation "task event close_outcome without complete state")
  else if bool_decide (evw_from_state wire = Some TaskStateTag_Complete)
     && match evw_to_state wire with
        | Some t => bool_decide (t <> TaskStateTag_Complete)
        | None => false
        end
     && bool_decide (evw_event wire <> TaskEventKind_Reopened)
  then Err (validation "only a reopened event may transition a complete task to an open state")
  else
    from_state ← option_traverse (fun t => from_parts t (outcome_for t)) (evw_from_state wire);
    to_state ← option_traverse (fun t => from_parts t (outcome_for t)) (evw_to_state wire);
    Ok {| ev_team := evw_team wire;
          ev_task_id := evw_task_id wire;
          ev_assignee := evw_assignee wire;
          ev_seq := evw_seq wire;
          ev_at := evw_at wire;
          ev_event := evw_event wire;
          ev_from_state := from_state;
          ev_to_state := to_state;
          ev_actor := evw_actor wire;
          ev_message_id := evw_message_id wire;
          ev_outcome := evw_outcome wire;
          ev_marker := evw_marker wire;
          ev_detail := evw_detail wire |}.

(** [Serialize for TaskEventRow]. *)
Definition task_event_row_serialize (row : TaskEventRow) : TaskEventRowWire :=
  let outcome :=
    match ev_to_state row ≫= close_outcome with
    | Some o => Some o
    | None => ev_from_state row ≫= close_outcome
    end in
  {| evw_team := ev_team row;
     evw_task_id := ev_task_id row;
     evw_assignee := ev_assignee row;
     evw_seq := ev_seq row;
     evw_at := ev_at row;
     evw_event := ev_event row;
     evw_from_state := tag <$> ev_from_state row;
     evw_to_state := tag <$> ev_to_state row;
     evw_close_outcome := outcome;
     evw_actor := ev_actor row;
     evw_message_id := ev_message_id row;
     evw_outcome := ev_outcome row;
     evw_marker := ev_marker row;
     evw_detail := ev_detail row |}.

(** ** Theorems: state machine *)

Lemma from_parts_tag_outcome (s : TaskState) : from_parts (tag s) (close_outcome s) = Ok s.
Proof. by destruct s. Qed.

Lemma from_parts_inv t o s :
  from_parts t o = Ok s -> tag s = t /\ close_outcome s = o.
Proof. destruct t, o; simpl; intros; by simplify_eq. Qed.

Lemma transition_assigned_open state task_id actor current requested :
  exists s, transition state TaskEvent_Assigned task_id actor current requested = Ok s
            /\ is_open s = true.
Proof.
  destruct state as [[]|]; simpl; repeat case_bool_decide; eauto.
Qed.

(** Only the assignee or the assigner of a task may close it; every other
    actor is rejected as [TaskNotCounterparty], and closing an unknown task is
    rejected as [TaskNotFound]. *)
Theorem admit_close_iff_counterparty (row : option TaskRow) (outcome : TaskCloseOutcome)
    (task_id : TaskId) (actor : AgentName) :
  (admit_task row (TaskEvent_Completed outcome) task_id actor = Ok tt <->
   exists r, row = Some r /\ (actor = row_assignee r \/ actor = row_assigner r))
  /\ (forall e, admit_task row (TaskEvent_Completed outcome) task_id actor = Err e ->
        rejected_code e = match row with Some _ => TaskNotCounterparty | None => TaskNotFound end)
  /\ admit_task row (TaskEvent_Completed outcome) task_id actor <> Panic.
Proof.
  destruct row as [r|]; simpl.
  - repeat case_bool_decide; simpl; naive_solver.
  - naive_solver.
Qed.

(** A task limit survives the roster metadata round trip, an absent or null
    entry means one active task, and every accepted entry is a limit between 1
    and [u32::MAX]. *)
Theorem max_tasks_metadata (limit : Z) :
  1 <= limit <= u32_max ->
  max_tasks_from_metadata_value (Some (max_tasks_to_metadata_value limit)) = Some limit
  /\ max_tasks_from_metadata_value None = Some 1
  /\ max_tasks_from_metadata_value (Some Value_Null) = Some 1
  /\ (forall v n, max_tasks_from_metadata_value v = Some n -> 1 <= n <= u32_max).
Proof.
  intros Hl. split_and!; try done.
  - unfold max_tasks_from_metadata_value, max_tasks_to_metadata_value; simpl.
    rewrite Z2N.id by lia. unfold u32_try_from, max_tasks_new.
    rewrite bool_decide_eq_true_2 by lia. simpl.
    by rewrite bool_decide_eq_false_2 by lia.
  - unfold max_tasks_from_metadata_value, max_tasks_default, u32_max.
    intros [v|] n; [|intros; simplify_eq; lia].
    destruct (value_is_null v); [intros; simplify_eq; lia|].
    destruct (value_as_u64 v) as [m|]; simpl; [|done].
    unfold u32_try_from, max_tasks_new, u32_max.
    case_bool_decide; simpl; [|done]. case_bool_decide; [done|].
    intros; simplify_eq; lia.
Qed.

Lemma max_tasks_metadata_witness :
  1 <= 3 <= u32_max
  /\ max_tasks_from_metadata_value (Some (max_tasks_to_metadata_value 3)) = Some 3.
Proof. split; [done|]. by apply (max_tasks_metadata 3). Defined.

(** ** Theorems: wire round trips *)

(** A task row is recovered from its JSON shape exactly when a complete row
    carries no queue position; the decoder refuses the other rows. *)
Theorem task_row_wire_roundtrip (row : TaskRow) :
  (is_open (row_state row) = true \/ row_position row = None <->
   task_row_try_from (task_row_serialize row) = Ok row)
  /\ (forall wire r, task_row_try_from wire = Ok r ->
        task_row_try_from (task_row_serialize r) = Ok r).
Proof.
  assert (Hrt : forall r, is_open (row_state r) = true \/ row_position r = None ->
    task_row_try_from (task_row_serialize r) = Ok r).
  { intros [] Hr. unfold task_row_try_from, task_row_serialize; simpl in *.
    destruct row_state0; simpl; try done.
    destruct Hr as [| ->]; done. }
  split; [split|].
  - apply Hrt.
  - unfold task_row_try_from, task_row_serialize; simpl.
    destruct (row_state row) as [| |o]; simpl; [by left..|].
    case_bool_decide as Hp; [done|]. intros _. right. by apply eq_None_not_Some.
  - intros wire r Hr. apply Hrt. unfold task_row_try_from in Hr.
    destruct (from_parts _ _) as [s| |] eqn:Hs; simpl in Hr; try done.
    destruct (is_open s) eqn:Ho; simpl in Hr; [simplify_eq; by left|].
    case_bool_decide as Hp; [done|]. simplify_eq. right. by apply eq_None_not_Some.
Qed.

(** What the JSON shape of an event can carry: one close outcome for both
    states, and a complete-to-open step only for a reopened task. *)
Definition event_representable (e : TaskEventRow) : Prop :=
  (forall o o', ev_from_state e = Some (TaskState_Complete o) ->
                ev_to_state e = Some (TaskState_Complete o') -> o = o')
  /\ (forall o s, ev_from_state e = Some (TaskState_Complete o) -> ev_to_state e = Some s ->
        is_open s = true -> ev_event e = TaskEventKind_Reopened).

(** A task event is recovered from its JSON shape exactly when it is
    representable; whatever the decoder accepts is representable, so decoding
    normalizes an event once and for all. *)
Theorem task_event_wire_roundtrip (e : TaskEventRow) :
  (event_representable e <-> task_event_row_try_from (task_event_row_serialize e) = Ok e)
  /\ (forall wire r, task_event_row_try_from wire = Ok r -> event_representable r).
Proof.
  unfold event_representable. split.
  - destruct e as [t k a seq at_ ev f to ac m o mk d].
    unfold task_event_row_try_from, task_event_row_serialize; simpl.
    destruct f as [[| |o1]|], to as [[| |o2]|]; simpl; repeat case_bool_decide; simpl;
      naive_solver.
  - intros wire r. unfold task_event_row_try_from.
    destruct (evw_from_state wire) as [[]|], (evw_to_state wire) as [[]|];
      simpl; repeat case_bool_decide; simpl; naive_solver.
Qed.
