(* ===== verification/CronTypes.v ===== *)
(** * Cron schedules and their transitions: data

    Models the types of [crates/atm-storage/src/cron_schedule_store.rs],
    [cron_transition_store.rs] and [hook_types.rs] with their parsers, and the
    rows of the three cron tables of [atm-storage-rusqlite/src/hook_schema.rs].
    A path is its text; a text is its UTF-8 bytes. *)

From S2P Require Import Prelude ErrorCodes Types Address.
From stdpp Require Import base gmap strings list numbers.
From Stdlib Require Import Ascii.
Local Open Scope Z_scope.
Local Open Scope string_scope.
Local Open Scope list_scope.

(** [str::len]. *)
Definition str_len (s : string) : Z := Z.of_nat (String.length s).

Definition hook_malformed (detail : string) : AtmError :=
  atm_error_new HookMalformed ("HOOK.MALFORMED: " +:+ detail).
Definition hook_module_invalid (detail : string) : AtmError :=
  atm_error_new HookModuleInvalid ("HOOK.MODULE_INVALID: " +:+ detail).

(** ** Names and phases *)

Abbreviation CronName := string (only parsing).
Abbreviation PhaseId := string (only parsing).

Definition CRON_NAME_MAX_BYTES : Z := 64.

Definition cron_name_parse (value : string) : Outcome AtmError CronName :=
  if String.eqb value "" || (CRON_NAME_MAX_BYTES <? str_len value)%Z
  then Err (hook_module_invalid "name must contain 1..=64 bytes")
  else Ok value.

Definition ascii_lowercase (c : ascii) : bool := byte_between 97%nat 122%nat (nat_of_ascii c).
Definition phase_char (c : ascii) : bool :=
  ascii_lowercase c || byte_between 48%nat 57%nat (nat_of_ascii c) || Ascii.eqb c "-".

Definition is_phase_id (value : string) : bool :=
  match value with
  | "" => false
  | String first rest => (str_len value <=? 32)%Z && ascii_lowercase first && all_chars phase_char rest
  end.

Definition phase_id_parse (value : string) : Outcome AtmError PhaseId :=
  if is_phase_id value then Ok value
  else Err (validation_with_recovery ("phase id " +:+ value +:+ " must match ^[a-z][a-z0-9-]{0,31}$")
              "use a lowercase phase id such as bk or bk-2").

(** ** Schedules *)

(** [stopped_outcome]. *)
Definition stopped_outcome (reason : string) : string := "stopped: " +:+ reason.

(** [CronScheduleId] is a [u64], [CronGeneration] a [NonZeroU32]. *)
Abbreviation CronScheduleId := Z (only parsing).
Abbreviation CronGeneration := Z (only parsing).

Definition cron_generation_first : CronGeneration := 1.

Definition cron_generation_new (value : Z) : Outcome AtmError CronGeneration :=
  if (value =? 0)%Z
  then Err (validation_with_recovery "cron generation must be at least 1" "generations start at 1")
  else Ok value.

(** [CronGeneration::next]: [checked_add] on [u32]. *)
Definition cron_generation_next (g : CronGeneration) : option CronGeneration :=
  u32_try_from (g + 1).

Inductive StopCondition : Set :=
| StopCondition_Until (at_ : IsoTimestamp)
| StopCondition_Hook.

#[export] Instance StopCondition_eq_dec : EqDecision StopCondition.
Proof. solve_decision. Defined.

Record CronSchedule : Set := mkCronSchedule {
  sched_id : CronScheduleId;
  sched_generation : CronGeneration;
  sched_team : TeamName;
  sched_phase : PhaseId;
  sched_name : string;
  sched_cron_expr : string;
  sched_module_path : string;
  sched_cwd : string;
  sched_args : list string;
  sched_timeout_ms : Z;
  sched_jitter_s : Z;
  sched_custom : list (string * Value);
  sched_stop : StopCondition;
  sched_active : bool;
  sched_created_by : AgentName;
  sched_created_at : IsoTimestamp;
  sched_last_run_at : option IsoTimestamp;
  sched_last_outcome : option string;
  sched_ended_at : option IsoTimestamp
}.

Record NewCronSchedule : Set := mkNewCronSchedule {
  new_team : TeamName;
  new_phase : PhaseId;
  new_name : string;
  new_cron_expr : string;
  new_module_path : string;
  new_cwd : string;
  new_args : list string;
  new_timeout_ms : Z;
  new_jitter_s : Z;
  new_custom : list (string * Value);
  new_stop : StopCondition;
  new_created_by : AgentName;
  new_created_at : IsoTimestamp
}.

(** ** Outputs and diagnostics *)

Definition CRON_OUTPUT_BODY_MAX_BYTES : Z := 65536.
Definition CRON_DIAGNOSTIC_MAX_BYTES : Z := 4096.
Definition CRON_DELIVERY_RETRY_CAUSE_MAX_BYTES : Z := 1024.

Abbreviation CronOutputBody := string (only parsing).
Abbreviation CronDiagnosticDetail := string (only parsing).
Abbreviation DeliveryRetryCause := string (only parsing).

Definition cron_output_body_parse (value : string) : Outcome AtmError CronOutputBody :=
  if String.eqb value "" || (CRON_OUTPUT_BODY_MAX_BYTES <? str_len value)%Z
  then Err (hook_malformed "cron output body must contain 1..=65536 bytes")
  else Ok value.

(** [value.replace(['\r', '\n'], " ")]. *)
Fixpoint replace_line_breaks (s : string) : string :=
  match s with
  | "" => ""
  | String c s' =>
    let n := nat_of_ascii c in
    String (if Nat.eqb n 13%nat || Nat.eqb n 10%nat then " "%char else c) (replace_line_breaks s')
  end.

Definition cron_diagnostic_parse (value : string) : Outcome AtmError CronDiagnosticDetail :=
  let value := replace_line_breaks value in
  if String.eqb (trim value) "" || (CRON_DIAGNOSTIC_MAX_BYTES <? str_len value)%Z
  then Err (hook_malformed "cron diagnostic must contain 1..=4096 bytes")
  else Ok value.

(** [str::split_whitespace]: the maximal runs without white space, in order.
    [run] is the current run, reversed; each round removes a byte. *)
Fixpoint whitespace_runs (fuel : nat) (run l : list ascii) : list (list ascii) :=
  let finished := match run with [] => [] | _ :: _ => [reverse run] end in
  match fuel with
  | O => finished
  | S fuel' =>
    match strip_one white_space l with
    | Some l' => finished ++ whitespace_runs fuel' [] l'
    | None =>
      match l with
      | [] => finished
      | c :: l' => whitespace_runs fuel' (c :: run) l'
      end
    end
  end.

Definition split_whitespace (s : string) : list string :=
  let l := String.list_ascii_of_string s in
  String.string_of_list_ascii <$> whitespace_runs (S (length l)) [] l.

Definition delivery_retry_cause_parse (value : string) : Outcome AtmError DeliveryRetryCause :=
  let value := String.concat " " (split_whitespace value) in
  if String.eqb (trim value) "" || (CRON_DELIVERY_RETRY_CAUSE_MAX_BYTES <? str_len value)%Z
  then Err (hook_malformed "cron delivery retry cause must contain 1..=1024 bytes")
  else Ok value.

Example retry_cause_normalized :
  delivery_retry_cause_parse
    ("network" +:+ String (ascii_of_nat 13) (String (ascii_of_nat 10) "timeout"))
  = Ok "network timeout".
Proof. reflexivity. Qed.

Inductive CronModuleOutput : Set :=
| CronModuleOutput_Message (body : CronOutputBody)
| CronModuleOutput_Error (body : CronOutputBody).

#[export] Instance CronModuleOutput_eq_dec : EqDecision CronModuleOutput.
Proof. solve_decision. Defined.

(** ** Transitions *)

Inductive CronFailureKind : Set :=
| FailureKind_Timeout
| FailureKind_MalformedReply
| FailureKind_RunnerExit
| FailureKind_Refused
| FailureKind_ActionFailed
| FailureKind_StopCheckFailed.

#[export] Instance CronFailureKind_eq_dec : EqDecision CronFailureKind.
Proof. solve_decision. Defined.

(** The derived [Debug]. *)
Definition failure_kind_debug (k : CronFailureKind) : string :=
  match k with
  | FailureKind_Timeout => "Timeout"
  | FailureKind_MalformedReply => "MalformedReply"
  | FailureKind_RunnerExit => "RunnerExit"
  | FailureKind_Refused => "Refused"
  | FailureKind_ActionFailed => "ActionFailed"
  | FailureKind_StopCheckFailed => "StopCheckFailed"
  end.

Record CronFailure : Set := mkCronFailure {
  failure_kind : CronFailureKind;
  failure_code : option AtmErrorCode;
  failure_detail : CronDiagnosticDetail
}.

#[export] Instance CronFailure_eq_dec : EqDecision CronFailure.
Proof. solve_decision. Defined.

(** [CronFailureKey]. *)
Record CronFailureKey : Set := mkCronFailureKey {
  key_kind : CronFailureKind;
  key_stable_code : option AtmErrorCode;
  key_stable_reason : string
}.

#[export] Instance CronFailureKey_eq_dec : EqDecision CronFailureKey.
Proof. solve_decision. Defined.

Definition fingerprint (f : CronFailure) : CronFailureKey :=
  mkCronFailureKey (failure_kind f) (failure_code f) (failure_detail f).

Inductive CronSuccess : Set :=
| CronSuccess_Ok
| CronSuccess_Actions (count : Z).

#[export] Instance CronSuccess_eq_dec : EqDecision CronSuccess.
Proof. solve_decision. Defined.

Inductive CronRunTransition : Set :=
| Transition_Success (outcome : CronSuccess)
| Transition_StopCheckContinues
| Transition_Failure (failure : CronFailure)
| Transition_Stopped (reason : CronDiagnosticDetail)
| Transition_SkippedInFlight.

#[export] Instance CronRunTransition_eq_dec : EqDecision CronRunTransition.
Proof. solve_decision. Defined.

Record CronNoticeKey : Set := mkCronNoticeKey {
  notice_schedule_id : CronScheduleId;
  notice_generation : CronGeneration;
  notice_transition_seq : Z
}.

#[export] Instance CronNoticeKey_eq_dec : EqDecision CronNoticeKey.
Proof. solve_decision. Defined.

Inductive CronLifecycleEvent : Set :=
| LifecycleEvent_Error (failure : CronFailure)
| LifecycleEvent_Stopped (message : CronDiagnosticDetail).

#[export] Instance CronLifecycleEvent_eq_dec : EqDecision CronLifecycleEvent.
Proof. solve_decision. Defined.

Record CronNoticeIntent : Set := mkCronNoticeIntent {
  intent_key : CronNoticeKey;
  intent_team : TeamName;
  intent_recipient : AgentName;
  intent_name : CronName;
  intent_event : CronLifecycleEvent
}.

#[export] Instance CronNoticeIntent_eq_dec : EqDecision CronNoticeIntent.
Proof. solve_decision. Defined.

Inductive CronDeliveryKey : Set :=
| DeliveryKey_Lifecycle (key : CronNoticeKey)
| DeliveryKey_ModuleMail (schedule_id : CronScheduleId) (generation : CronGeneration)
    (transition_seq : Z) (output_index : Z).

#[export] Instance CronDeliveryKey_eq_dec : EqDecision CronDeliveryKey.
Proof. solve_decision. Defined.

Record CronModuleMailIntent : Set := mkCronModuleMailIntent {
  mail_key : CronDeliveryKey;
  mail_message_id : AtmMessageId;
  mail_team : TeamName;
  mail_recipient : AgentName;
  mail_name : CronName;
  mail_output : CronModuleOutput
}.

#[export] Instance CronModuleMailIntent_eq_dec : EqDecision CronModuleMailIntent.
Proof. solve_decision. Defined.

Inductive CronDeliveryIntent : Set :=
| DeliveryIntent_Lifecycle (intent : CronNoticeIntent)
| DeliveryIntent_ModuleMail (intent : CronModuleMailIntent).

#[export] Instance CronDeliveryIntent_eq_dec : EqDecision CronDeliveryIntent.
Proof. solve_decision. Defined.

Inductive PendingCronDelivery : Set :=
| Pending_ReadyToSend (intent : CronDeliveryIntent)
| Pending_ReconciliationRequired (intent : CronDeliveryIntent) (retry_cause : DeliveryRetryCause).

(** [PendingCronDelivery::intent]. *)
Definition pending_intent (p : PendingCronDelivery) : CronDeliveryIntent :=
  match p with
  | Pending_ReadyToSend intent | Pending_ReconciliationRequired intent _ => intent
  end.

Definition is_safe_to_resend (p : PendingCronDelivery) : bool :=
  match p with Pending_ReadyToSend _ => true | Pending_ReconciliationRequired _ _ => false end.

Record CronTransitionWrite : Set := mkCronTransitionWrite {
  write_id : CronScheduleId;
  write_generation : CronGeneration;
  write_at : IsoTimestamp;
  write_transition : CronRunTransition;
  write_outputs : list CronModuleOutput
}.

Inductive CronCommitResult : Set :=
| Commit_Applied (intents : list CronDeliveryIntent)
| Commit_StaleGeneration.

Inductive DeliveryReceipt : Set :=
| Receipt_Accepted (receipt_id : string)
| Receipt_Suppressed
| Receipt_RecipientUnavailable
| Receipt_Unknown (retry_cause : DeliveryRetryCause).

(** ** Rows *)

(** One row of [cron_schedule]; the key is [id]. *)
Record CronSqlRow : Set := mkCronSqlRow {
  c_generation : Z;
  c_team : string;
  c_phase : string;
  c_name : string;
  c_cron_expr : string;
  c_module_path : string;
  c_cwd : string;
  c_args : string;
  c_timeout_ms : Z;
  c_jitter_s : Z;
  c_custom : string;
  c_active : Z;
  c_until_at : option string;
  c_stop_hook : Z;
  c_created_by : string;
  c_created_at : string;
  c_last_run_at : option string;
  c_last_outcome : option string;
  c_ended_at : option string
}.

(** One row of [cron_transition_event]; the key is [(schedule_id, generation, transition_seq)]. *)
Record CronEventSqlRow : Set := mkCronEventSqlRow {
  ce_transition_at : string;
  ce_transition_kind : string;
  ce_failure_kind : option string;
  ce_failure_code : option string;
  ce_failure_detail : option string
}.

(** One row of [cron_delivery_intent], the columns outside its key. *)
Record CronIntentSqlRow : Set := mkCronIntentSqlRow {
  ci_payload : string;
  ci_state : string;
  ci_receipt : option string;
  ci_retry_cause : option string
}.

(** The columns [(schedule_id, generation, transition_seq, output_index, kind)]. *)
Abbreviation CronEventKey := (Z * Z * Z)%type (only parsing).
Abbreviation CronIntentKey := (Z * Z * Z * option Z * string)%type (only parsing).

(** The three tables; [cron_sequence] is the [sqlite_sequence] entry of the
    [AUTOINCREMENT] key. *)
Record CronTables : Set := mkCronTables {
  cron_schedule : gmap Z CronSqlRow;
  cron_sequence : Z;
  cron_transition_event : gmap CronEventKey CronEventSqlRow;
  cron_delivery_intent : gmap CronIntentKey CronIntentSqlRow
}.

Definition empty_cron : CronTables := mkCronTables ∅ 0 ∅ ∅.

(** The row a run may still write: [id = ?1 AND generation = ?2 AND active = 1]. *)
Definition cron_live (c : CronTables) (id generation : Z) : Prop :=
  exists r, cron_schedule c !! id = Some r /\ c_generation r = generation /\ c_active r = 1.

#[export] Instance cron_live_dec c id generation : Decision (cron_live c id generation).
Proof.
  unfold cron_live. destruct (cron_schedule c !! id) as [r|] eqn:Hr.
  - destruct (decide (c_generation r = generation /\ c_active r = 1)) as [Hd|Hd].
    + left. exists r. naive_solver.
    + right. naive_solver.
  - right. naive_solver.
Defined.
