(* ===== verification/Database.v ===== *)
(** * The SQLite store the writer lane mutates

    The tables of [crates/atm-storage-rusqlite] that the task ledger and the
    mail writer read and write, with the constraints of their DDL
    ([task_store.rs], [mail_messages_schema.rs], [shared_db.rs]), and the
    statements on them.  A failed statement reports a constraint violation and
    changes nothing, as SQLite's default [ABORT] resolution does.

    [Runtime] collects what the code takes from outside: the clock, fresh
    ULIDs, the JSON library, SQLite's error text, and the order in which SQLite
    visits the rows of an [UPDATE], which no theorem may rely on. *)

From S2P Require Import Prelude ErrorCodes Types TaskState CronTypes.
From stdpp Require Import base gmap strings list numbers sorting.
Local Open Scope Z_scope.
Local Open Scope string_scope.

(** ** Rows *)

(** [StorageEnvelope] of [writer/ops_envelope.rs], the value serialized into the
    [envelope_json] column. *)
Record StorageEnvelope : Set := mkStorageEnvelope {
  se_from : AgentName;
  se_source_chat_id : option ChatId;
  se_text : string;
  se_timestamp : IsoTimestamp;
  se_read : bool;
  se_source_team : option TeamName;
  se_destination_chat_id : option ChatId;
  se_summary : option string;
  se_message_id : option AtmMessageId;
  se_pending_ack_at : option IsoTimestamp;
  se_acknowledged_at : option IsoTimestamp;
  se_acknowledges_message_id : option AtmMessageId;
  se_parent_message_id : option AtmMessageId;
  se_thread_mode : option ThreadMode;
  se_expires_at : option IsoTimestamp;
  se_task_id : option TaskId;
  se_placement : option MoveTarget;
  se_task_op : option TaskOp;
  se_extra : list (string * Value)
}.

(** One row of [tasks]; [(team, task_id)] is the key.  [state] and
    [close_outcome] hold their column text. *)
Record TaskSqlRow : Set := mkTaskSqlRow {
  t_assignee : AgentName;
  t_assigner : AgentName;
  t_state : string;
  t_close_outcome : option string;
  t_position : option Z;
  t_assignment_message_id : AtmMessageId;
  t_description : string;
  t_assigned_at : IsoTimestamp;
  t_updated_at : IsoTimestamp;
  t_last_reminded_at : option IsoTimestamp;
  t_reminder_count : Z;
  t_lead_notified_count : Z
}.

(** One row of [task_events]; the enumerations hold their column text. *)
Record TaskEventSqlRow : Set := mkTaskEventSqlRow {
  e_team : TeamName;
  e_task_id : TaskId;
  e_assignee : AgentName;
  e_seq : Z;
  e_at : IsoTimestamp;
  e_event : string;
  e_from_state : option string;
  e_to_state : option string;
  e_close_outcome : option string;
  e_actor : AgentName;
  e_message_id : option AtmMessageId;
  e_outcome : option string;
  e_marker : option string;
  e_detail : option string
}.

(** One row of [mail_messages], the columns written by the canonical insert. *)
Record MailMessageRow : Set := mkMailMessageRow {
  m_envelope_json : StorageEnvelope;
  m_from_agent : AgentName;
  m_source_chat_id : option ChatId;
  m_destination_chat_id : option ChatId;
  m_message_text : option string;
  m_category : option string;
  m_content_format : option string;
  m_tags_json : list string;
  m_summary : option string;
  m_message_at : IsoTimestamp;
  m_message_id : option AtmMessageId;
  m_parent_message_id : option AtmMessageId;
  m_thread_mode : option string;
  m_recorded_at : option IsoTimestamp
}.

(** One row of [mail_message_states]. *)
Record MailStateRow : Set := mkMailStateRow {
  s_read : bool;
  s_pending_ack_at : option IsoTimestamp;
  s_acknowledged_at : option IsoTimestamp;
  s_expires_at : option IsoTimestamp;
  s_deleted_at : option IsoTimestamp;
  s_updated_at : option IsoTimestamp;
  s_nudge_pending_at : option IsoTimestamp;
  s_nudge_attempts : Z
}.

(** One row of [mail_message_search_documents]. *)
Record SearchDocument : Set := mkSearchDocument {
  d_message_id : option AtmMessageId;
  d_message_at : IsoTimestamp;
  d_body_text : string;
  d_summary : string;
  d_tags : string;
  d_var_values : string;
  d_from_agent : string
}.

(** One row of [team_roster]. *)
Record RosterSqlRow : Set := mkRosterSqlRow {
  r_member_kind : string;
  r_harness : string;
  r_agent_type : string;
  r_model : string;
  r_metadata_json : string;
  r_source : option string;
  r_recipient_pane_id : option string;
  r_updated_at : IsoTimestamp
}.

Abbreviation TaskKey := (TeamName * TaskId)%type (only parsing).
Abbreviation MailKey := (TeamName * AgentName * MessageKey)%type (only parsing).

Record Db : Type := mkDb {
  tasks : gmap TaskKey TaskSqlRow;
  task_events : list TaskEventSqlRow;
  prompt_handoffs : list PromptHandoff;
  escalation_recipients : gmap (string * string) IsoTimestamp;
  mail_messages : gmap MailKey MailMessageRow;
  mail_message_states : gmap MailKey MailStateRow;
  mail_seen_watermarks : gmap (TeamName * AgentName) IsoTimestamp;
  search_documents : gmap MailKey SearchDocument;
  team_roster : gmap (TeamName * AgentName) RosterSqlRow;
  cron : CronTables
}.

Definition set_tasks (t : gmap TaskKey TaskSqlRow) (d : Db) : Db :=
  mkDb t (task_events d) (prompt_handoffs d) (escalation_recipients d) (mail_messages d)
    (mail_message_states d) (mail_seen_watermarks d) (search_documents d) (team_roster d)
    (cron d).
Definition set_task_events (e : list TaskEventSqlRow) (d : Db) : Db :=
  mkDb (tasks d) e (prompt_handoffs d) (escalation_recipients d) (mail_messages d)
    (mail_message_states d) (mail_seen_watermarks d) (search_documents d) (team_roster d)
    (cron d).
Definition set_prompt_handoffs (h : list PromptHandoff) (d : Db) : Db :=
  mkDb (tasks d) (task_events d) h (escalation_recipients d) (mail_messages d)
    (mail_message_states d) (mail_seen_watermarks d) (search_documents d) (team_roster d)
    (cron d).
Definition set_escalation_recipients (r : gmap (string * string) IsoTimestamp) (d : Db) : Db :=
  mkDb (tasks d) (task_events d) (prompt_handoffs d) r (mail_messages d)
    (mail_message_states d) (mail_seen_watermarks d) (search_documents d) (team_roster d)
    (cron d).
Definition set_mail_messages (m : gmap MailKey MailMessageRow) (d : Db) : Db :=
  mkDb (tasks d) (task_events d) (prompt_handoffs d) (escalation_recipients d) m
    (mail_message_states d) (mail_seen_watermarks d) (search_documents d) (team_roster d)
    (cron d).
Definition set_mail_message_states (m : gmap MailKey MailStateRow) (d : Db) : Db :=
  mkDb (tasks d) (task_events d) (prompt_handoffs d) (escalation_recipients d) (mail_messages d)
    m (mail_seen_watermarks d) (search_documents d) (team_roster d) (cron d).
Definition set_mail_seen_watermarks (m : gmap (TeamName * AgentName) IsoTimestamp) (d : Db) : Db :=
  mkDb (tasks d) (task_events d) (prompt_handoffs d) (escalation_recipients d) (mail_messages d)
    (mail_message_states d) m (search_documents d) (team_roster d) (cron d).
Definition set_search_documents (m : gmap MailKey SearchDocument) (d : Db) : Db :=
  mkDb (tasks d) (task_events d) (prompt_handoffs d) (escalation_recipients d) (mail_messages d)
    (mail_message_states d) (mail_seen_watermarks d) m (team_roster d) (cron d).
Definition set_team_roster (m : gmap (TeamName * AgentName) RosterSqlRow) (d : Db) : Db :=
  mkDb (tasks d) (task_events d) (prompt_handoffs d) (escalation_recipients d) (mail_messages d)
    (mail_message_states d) (mail_seen_watermarks d) (search_documents d) m (cron d).
Definition set_cron (c : CronTables) (d : Db) : Db :=
  mkDb (tasks d) (task_events d) (prompt_handoffs d) (escalation_recipients d) (mail_messages d)
    (mail_message_states d) (mail_seen_watermarks d) (search_documents d) (team_roster d) c.

Lemma set_tasks_id d : set_tasks (tasks d) d = d.
Proof. by destruct d. Qed.

(** ** What the code takes from outside *)

(** [rusqlite::ffi::ErrorCode], the codes the store tells apart. *)
Inductive SqliteErrorCode : Set :=
| ConstraintViolation
| DatabaseBusy
| DatabaseLocked
| OperationInterrupted
| CannotOpen
| ReadOnly
| DatabaseCorrupt
| NotADatabase
| SystemIoFailure
| DiskFull
| OtherErrorCode.

(** The failures of [rusqlite].  The statements of the model report constraint
    violations and conversion failures. *)
Inductive RusqliteError : Set :=
| SqliteFailure (code : SqliteErrorCode)
| FromSqlConversionFailure (detail : string)
| IntegralValueOutOfRange (value : Z)
| InvalidColumnType (index : Z) (name : string).

Class Runtime : Type := mkRuntime {
  now_at : nat -> IsoTimestamp;                 (* the n-th reading of the clock *)
  ulid_at : nat -> AtmMessageId;                (* the ULID generated at reading n *)
  ulid_datetime : AtmMessageId -> IsoTimestamp; (* the time encoded in a ULID *)
  ulid_to_string : AtmMessageId -> string;      (* its canonical text *)
  json_from_str : string -> option Value;       (* serde_json::from_str *)
  envelope_json_len : StorageEnvelope -> Z;     (* bytes of the serialized envelope *)
  envelope_from_clashing : StorageEnvelope -> option MessageEnvelope;
      (* serde's reading of a stored envelope whose extra members reuse a field name *)
  number_to_string : Number -> string;          (* Display for serde_json::Number *)
  timestamp_to_string : IsoTimestamp -> string; (* Display for IsoTimestamp, the column text *)
  sqlite_display : RusqliteError -> string;     (* Display for rusqlite::Error *)
  database_path : string;                       (* the path of the database file *)
  scan : list TaskKey -> list TaskKey;          (* row order of an UPDATE *)
  control_fault : nat -> option RusqliteError
      (* the failure, if any, of a BEGIN, SAVEPOINT, RELEASE or COMMIT issued at reading n *)
}.

(** SQLite visits every selected row once. *)
Class RuntimeOk (rt : Runtime) : Prop := {
  scan_perm : forall keys, scan keys ≡ₚ keys
}.

(** The writer's world: the database and the number of readings taken so far of
    the clock, the ULID generator and the transaction control statements.  Dropping a savepoint restores the
    database; it does not rewind the clock. *)
Record World : Type := mkWorld { db : Db; ticks : nat }.

Definition M (A : Type) : Type := ST World AtmError A.

#[export] Instance M_ret : MRet M := st_ret World AtmError.
#[export] Instance M_bind : MBind M := st_mbind World AtmError.
#[export] Instance M_fmap : FMap M := st_fmap World AtmError.

Definition with_db (f : Db -> Db) (w : World) : World := mkWorld (f (db w)) (ticks w).
(** One more reading taken. *)
Definition tick (w : World) : World := mkWorld (db w) (S (ticks w)).
Definition get_db : M Db := fun w => (Ok (db w), w).
Definition put_db (d : Db) : M unit := fun w => (Ok tt, mkWorld d (ticks w)).
Definition fail {A} (e : AtmError) : M A := st_fail e.
Definition lift {A} (o : Outcome AtmError A) : M A := st_lift o.
Definition ok_or {A} (e : AtmError) (o : option A) : M A :=
  match o with Some a => mret a | None => fail e end.

(** Running a sequence one computation at a time. *)
Lemma run_bind {A B} (c : M A) (f : A -> M B) w a w' :
  c w = (Ok a, w') -> (c ≫= f) w = f a w'.
Proof. intros H. unfold mbind, M_bind, st_mbind, st_bind. by rewrite H. Qed.

Lemma run_bind_err {A B} (c : M A) (f : A -> M B) w e w' :
  c w = (Err e, w') -> (c ≫= f) w = (Err e, w').
Proof. intros H. unfold mbind, M_bind, st_mbind, st_bind. by rewrite H. Qed.

(** A sequence that succeeds is made of steps that succeed. *)
Lemma run_bind_ok_inv {A B} (c : M A) (f : A -> M B) w b w' :
  (c ≫= f) w = (Ok b, w') -> exists a w1, c w = (Ok a, w1) /\ f a w1 = (Ok b, w').
Proof.
  unfold mbind, M_bind, st_mbind, st_bind. destruct (c w) as [[a|e|] w1]; [|done..]. eauto.
Qed.

Lemma run_fmap {A B} (c : M A) (f : A -> B) w a w' :
  c w = (Ok a, w') -> (f <$> c) w = (Ok (f a), w').
Proof. intros H. unfold fmap, M_fmap, st_fmap, st_bind. by rewrite H. Qed.

Lemma run_get_db w : get_db w = (Ok (db w), w).
Proof. done. Qed.

Lemma run_ok_or {A} (e : AtmError) (o : option A) a w : o = Some a -> ok_or e o w = (Ok a, w).
Proof. by intros ->. Qed.

Lemma run_lift {A} (o : Outcome AtmError A) a w : o = Ok a -> lift o w = (Ok a, w).
Proof. by intros ->. Qed.

(** [step]: the next computation of a sequence is evaluated. *)
Ltac step := erewrite run_bind by reflexivity; cbv beta.

(** [run lem]: the next computation of a sequence succeeds, by [lem]. *)
Ltac run lem := erewrite run_bind; [|solve [eapply lem]]; cbv beta iota.
Ltac run_err lem := erewrite run_bind_err; [|solve [eapply lem]].

Section Store.
Context {rt : Runtime}.

(** [IsoTimestamp::now]. *)
Definition now : M IsoTimestamp :=
  fun w => (Ok (now_at (ticks w)), mkWorld (db w) (S (ticks w))).

(** [AtmMessageId::new_with_timestamp]. *)
Definition new_message_id_with_timestamp : M (AtmMessageId * IsoTimestamp) :=
  fun w => let id := ulid_at (ticks w) in
           (Ok (id, ulid_datetime id), mkWorld (db w) (S (ticks w))).

(** [sqlite_error]; the target is a database file. *)
Definition sqlite_error (m : string) (source : RusqliteError) : AtmError :=
  with_cause
    (match source with
     | SqliteFailure ConstraintViolation => validation m
     | SqliteFailure (DatabaseBusy | DatabaseLocked | OperationInterrupted) =>
       mailbox_lock_timeout database_path
     | SqliteFailure (CannotOpen | ReadOnly) => mailbox_write m
     | SqliteFailure (DatabaseCorrupt | NotADatabase) => mailbox_read m
     | SqliteFailure (SystemIoFailure | DiskFull) => mailbox_write m
     | _ => mailbox_write m
     end) (sqlite_display source).

(** *** [tasks]: constraints *)

(** The [CHECK] constraints of [TASK_TABLES_DDL]. *)
Definition task_row_check (r : TaskSqlRow) : bool :=
  bool_decide (t_state r = "assigned" \/ t_state r = "active" \/ t_state r = "complete")
  && match t_close_outcome r with
     | None => true
     | Some o => bool_decide (o = "completed" \/ o = "refused" \/ o = "cancelled")
     end
  && match t_position r with None => true | Some p => bool_decide (1 <= p) end
  && bool_decide (t_state r = "complete" <-> is_Some (t_close_outcome r))
  && bool_decide (t_state r = "complete" <-> t_position r = None).

(** Two rows collide in the partial unique index [tasks_position_per_member]. *)
Definition position_clash (k : TaskKey) (r : TaskSqlRow) (k' : TaskKey) (r' : TaskSqlRow)
    : Prop :=
  k <> k' /\ k.1 = k'.1 /\ t_state r <> "complete" /\ t_state r' <> "complete"
  /\ t_assignee r = t_assignee r' /\ is_Some (t_position r) /\ t_position r = t_position r'.

#[export] Instance position_clash_dec k r k' r' : Decision (position_clash k r k' r').
Proof. unfold position_clash. apply _. Defined.

Definition position_index_ok (ts : gmap TaskKey TaskSqlRow) (k : TaskKey) (r : TaskSqlRow)
    : bool :=
  bool_decide (map_Forall (fun k' r' => ~ position_clash k r k' r') ts).

(** Store a new version of one row, if the constraints hold. *)
Definition store_task_row (k : TaskKey) (r : TaskSqlRow) (ts : gmap TaskKey TaskSqlRow)
    : option (gmap TaskKey TaskSqlRow) :=
  if task_row_check r && position_index_ok ts k r then Some (<[k := r]> ts) else None.

(** *** [tasks]: statements *)

Fixpoint update_rows (f : TaskSqlRow -> TaskSqlRow) (keys : list TaskKey)
    (ts : gmap TaskKey TaskSqlRow) : option (gmap TaskKey TaskSqlRow) :=
  match keys with
  | [] => Some ts
  | k :: rest =>
    match ts !! k with
    | None => update_rows f rest ts
    | Some r => store_task_row k (f r) ts ≫= update_rows f rest
    end
  end.

Definition select_keys (P : TaskKey -> TaskSqlRow -> Prop) `{!forall k r, Decision (P k r)}
    (ts : gmap TaskKey TaskSqlRow) : list TaskKey :=
  (map_to_list (filter (fun kr => P kr.1 kr.2) ts)).*1.

(** [UPDATE tasks SET f WHERE P]. *)
Definition update_tasks (context : string) (P : TaskKey -> TaskSqlRow -> Prop)
    `{!forall k r, Decision (P k r)} (f : TaskSqlRow -> TaskSqlRow) : M unit :=
  d ← get_db;
  match update_rows f (scan (select_keys P (tasks d))) (tasks d) with
  | Some ts => put_db (set_tasks ts d)
  | None => fail (sqlite_error context (SqliteFailure ConstraintViolation))
  end.

(** [UPDATE tasks SET f WHERE team = ?1 AND task_id = ?2]. *)
Definition update_task (context : string) (k : TaskKey) (f : TaskSqlRow -> TaskSqlRow) : M unit :=
  d ← get_db;
  match update_rows f [k] (tasks d) with
  | Some ts => put_db (set_tasks ts d)
  | None => fail (sqlite_error context (SqliteFailure ConstraintViolation))
  end.

(** [INSERT INTO tasks]. *)
Definition insert_task (context : string) (k : TaskKey) (r : TaskSqlRow) : M unit :=
  d ← get_db;
  match tasks d !! k, store_task_row k r (tasks d) with
  | None, Some ts => put_db (set_tasks ts d)
  | _, _ => fail (sqlite_error context (SqliteFailure ConstraintViolation))
  end.

(** The rows of [team = ?1 AND assignee = ?2 AND state <> 'complete']. *)
Definition open_of (team : TeamName) (assignee : AgentName) (k : TaskKey) (r : TaskSqlRow)
    : Prop :=
  k.1 = team /\ t_assignee r = assignee /\ t_state r <> "complete".

#[export] Instance open_of_dec team assignee k r : Decision (open_of team assignee k r).
Proof. unfold open_of. apply _. Defined.

(** [ORDER BY position, task_id]; a [NULL] position sorts first, and a stored
    position is at least 1. *)
Definition position_key (r : TaskSqlRow) : Z := default 0 (t_position r).

Definition queue_le (a b : TaskKey * TaskSqlRow) : Prop :=
  position_key a.2 < position_key b.2
  \/ (position_key a.2 = position_key b.2 /\ String.le a.1.2 b.1.2).

#[export] Instance queue_le_dec a b : Decision (queue_le a b).
Proof. unfold queue_le. apply _. Defined.

Definition open_rows (team : TeamName) (assignee : AgentName) (ts : gmap TaskKey TaskSqlRow)
    : list (TaskKey * TaskSqlRow) :=
  merge_sort queue_le (map_to_list (filter (fun kr => open_of team assignee kr.1 kr.2) ts)).

(** [MAX(position)] over a member's open rows, 0 when there is none. *)
Definition max_position (rows : list (TaskKey * TaskSqlRow)) : Z :=
  foldr (fun kr acc => Z.max (position_key kr.2) acc) 0 rows.

(** *** [task_events] *)

(** [COALESCE(MAX(seq),0)] of one task. *)
Definition max_seq (team : TeamName) (task_id : TaskId) (es : list TaskEventSqlRow) : Z :=
  foldr (fun e acc =>
    if bool_decide (e_team e = team /\ e_task_id e = task_id)
    then Z.max (e_seq e) acc else acc) 0 es.

(** [INSERT INTO task_events], with its primary key [(team, task_id, seq)]. *)
Definition insert_task_event (context : string) (e : TaskEventSqlRow) : M unit :=
  d ← get_db;
  if bool_decide (Exists (fun e' => e_team e' = e_team e /\ e_task_id e' = e_task_id e
                                    /\ e_seq e' = e_seq e) (task_events d))
  then fail (sqlite_error context (SqliteFailure ConstraintViolation))
  else put_db (set_task_events (task_events d ++ [e]) d).
End Store.
