(* ===== verification/ThreadSend.v ===== *)
(** * Thread updates at send time

    Models [prepare_threaded_message] and [validate_thread_append] of
    [crates/atm-core/src/send/request.rs]: the checks a message that updates or
    supersedes another one must pass against the recipient's mailbox, and the
    acknowledgement it inherits from its thread.  The functions that mutate the
    envelope return it. *)

From S2P Require Import Prelude ErrorCodes Types Database Threading.
From stdpp Require Import base gmap strings numbers list.
Local Open Scope Z_scope.
Local Open Scope string_scope.
Local Open Scope list_scope.

(** The acknowledgement members of an envelope. *)
Definition with_ack (requires_ack : bool) (pending acknowledged : option IsoTimestamp)
    (e : InboxMessage) : InboxMessage :=
  {| env_from := env_from e;
     env_source_chat_id := env_source_chat_id e;
     env_text := env_text e;
     env_timestamp := env_timestamp e;
     env_read := env_read e;
     env_source_team := env_source_team e;
     env_destination_chat_id := env_destination_chat_id e;
     env_summary := env_summary e;
     env_message_id := env_message_id e;
     env_requires_ack := requires_ack;
     env_pending_ack_at := pending;
     env_acknowledged_at := acknowledged;
     env_acknowledges_message_id := env_acknowledges_message_id e;
     env_parent_message_id := env_parent_message_id e;
     env_thread_mode := env_thread_mode e;
     env_expires_at := env_expires_at e;
     env_task_id := env_task_id e;
     env_placement := env_placement e;
     env_task_op := env_task_op e;
     env_task_complete := env_task_complete e;
     env_extra := env_extra e |}.

Section ThreadSend.
Context {rt : Runtime}.

Definition parent_not_found (parent_id : AtmMessageId) : AtmError :=
  validation ("thread parent message " +:+ ulid_to_string parent_id
              +:+ " was not found in the recipient inbox").

Definition root_not_resolved (parent_id : AtmMessageId) : AtmError :=
  validation ("thread root could not be resolved for parent message "
              +:+ ulid_to_string parent_id).

Definition root_not_found (root_id : AtmMessageId) : AtmError :=
  validation ("thread root message " +:+ ulid_to_string root_id
              +:+ " was not found in the recipient inbox").

Definition already_has_successor (parent_id : AtmMessageId) : AtmError :=
  validation ("message " +:+ ulid_to_string parent_id
              +:+ " already has a successor; ATM threads are strictly linear").

Definition ephemeral_parent : AtmError :=
  validation "ephemeral messages may not be updated or superseded".

Definition not_original_sender : AtmError :=
  validation "only the original sender may append details or supersede a message thread".

Definition ephemeral_update : AtmError :=
  validation "ephemeral messages may not participate in a message thread".

Definition incomplete_update : AtmError :=
  validation "thread updates must set both parent_message_id and thread_mode".

Definition option_ok_or {A} (e : AtmError) (o : option A) : Outcome AtmError A :=
  match o with Some a => Ok a | None => Err e end.

Definition validate_thread_append (envelope : InboxMessage) (inbox_messages : list InboxMessage)
    (parent_id : AtmMessageId) : Outcome AtmError InboxMessage :=
  let index := ThreadIndex.new inbox_messages in
  parent ← option_ok_or (parent_not_found parent_id) (ThreadIndex.message index parent_id);
  if is_ephemeral parent then Err ephemeral_parent else
  root_id ← option_ok_or (root_not_resolved parent_id) (ThreadIndex.root_id index parent_id);
  root ← option_ok_or (root_not_found root_id) (ThreadIndex.message index root_id);
  if negb (String.eqb (canonical_sender_identity root) (canonical_sender_identity envelope))
  then Err not_original_sender
  else if ThreadIndex.has_successor index parent_id then Err (already_has_successor parent_id)
  else
    let requires_ack := ThreadIndex.thread_requires_ack index parent_id in
    Ok (with_ack requires_ack (if requires_ack then Some (env_timestamp envelope) else None) None
          envelope).

Definition prepare_threaded_message (envelope : InboxMessage) (inbox_messages : list InboxMessage)
    : Outcome AtmError InboxMessage :=
  match env_parent_message_id envelope, env_thread_mode envelope, env_expires_at envelope with
  | None, None, _ => Ok envelope
  | Some _, Some _, Some _ => Err ephemeral_update
  | Some parent_id, Some _, None => validate_thread_append envelope inbox_messages parent_id
  | Some _, None, _ | None, Some _, _ => Err incomplete_update
  end.

End ThreadSend.

(** * Threads stay linear

    A mailbox is linear when ids are unique and no message has two successors.
    In a linear mailbox without a cycle of parents, [chain_messages] is the
    thread of a message.  [step] is the life of a mailbox under concurrent
    senders: an update is validated against a snapshot, and committed later
    against the unique indexes of the store. *)

From S2P Require Import Threading.
Import ThreadIndex.
Local Close Scope Z_scope.

(** ** Linear mailboxes *)

Record linear_mailbox (ms : list InboxMessage) : Prop := mkLinear {
  linear_ids : forall m, m ∈ ms -> is_Some (env_parent_message_id m) -> is_Some (env_message_id m);
  linear_unique : NoDup (omap env_message_id ms);
  linear_single : NoDup (omap env_parent_message_id ms)
}.

(** Every message ranks above its parent. *)
Definition ranked (rank : AtmMessageId -> nat) (ms : list InboxMessage) : Prop :=
  forall m i p, m ∈ ms -> env_message_id m = Some i -> env_parent_message_id m = Some p ->
    rank p < rank i.

(** A message comes from the sender of its parent. *)
Definition same_sender (ms parents : list InboxMessage) : Prop :=
  forall m m' p, m ∈ ms -> m' ∈ parents -> env_parent_message_id m = Some p ->
    env_message_id m' = Some p -> env_from m = env_from m'.

Lemma omap_filter_unique {A} (f : A -> option AtmMessageId) (P : A -> Prop)
    `{!forall x, Decision (P x)} ms m i :
  (forall x, P x <-> f x = Some i) -> NoDup (omap f ms) -> m ∈ ms -> f m = Some i ->
  filter P ms = [m].
Proof.
  intros HP. induction ms as [|x ms IH]; [intros; set_solver|]. intros Hnd Hm Hi. rewrite filter_cons.
  apply elem_of_cons in Hm as [->|Hm].
  - rewrite decide_True by (by apply HP). f_equal. cbn in Hnd. rewrite Hi in Hnd.
    apply NoDup_cons in Hnd as [Hni _].
    destruct (filter P ms) as [|y l] eqn:E; [done|]. exfalso.
    assert (y ∈ filter P ms) as Hy by (rewrite E; set_solver).
    apply list_elem_of_filter in Hy as [Hfy%HP Hy]. apply Hni, list_elem_of_omap. eauto.
  - rewrite decide_False.
    + apply IH; [|done..]. cbn in Hnd. destruct (f x); [by apply NoDup_cons in Hnd as []|done].
    + intros Hx%HP. cbn in Hnd. rewrite Hx in Hnd. apply NoDup_cons in Hnd as [Hni _].
      apply Hni, list_elem_of_omap. eauto.
Qed.

Section LinearMailbox.
Context (ms : list InboxMessage) (Hlin : linear_mailbox ms).

Lemma linear_message m i : m ∈ ms -> env_message_id m = Some i -> message (new ms) i = Some m.
Proof.
  intros Hm Hi. rewrite by_id_new.
  by rewrite (omap_filter_unique env_message_id (has_id i) ms m i (fun _ => iff_refl _)
                (linear_unique _ Hlin) Hm Hi).
Qed.

Lemma linear_child m p : m ∈ ms -> env_parent_message_id m = Some p -> children (new ms) !! p = Some [m].
Proof.
  intros Hm Hp. rewrite children_new.
  by rewrite (omap_filter_unique env_parent_message_id (has_parent p) ms m p (fun _ => iff_refl _)
                (linear_single _ Hlin) Hm Hp).
Qed.

Lemma linear_children_inv p l :
  children (new ms) !! p = Some l ->
  exists m i, l = [m] /\ m ∈ ms /\ env_parent_message_id m = Some p /\ env_message_id m = Some i.
Proof.
  intros Hl. assert (exists m, m ∈ ms /\ env_parent_message_id m = Some p) as (m & Hm & Hp).
  { rewrite children_new in Hl. destruct (filter (has_parent p) ms) as [|m l'] eqn:E; [done|].
    exists m. assert (m ∈ filter (has_parent p) ms) as Hin by (rewrite E; set_solver).
    by apply list_elem_of_filter in Hin as [? ?]. }
  rewrite (linear_child m p) in Hl by done. destruct (linear_ids _ Hlin m Hm) as [i Hi]; [eauto|].
  simplify_eq. eauto 6.
Qed.

Lemma linear_successor_count p : successor_count (new ms) p <= 1.
Proof.
  unfold successor_count. destruct (children (new ms) !! p) as [l|] eqn:Hl; [|lia].
  apply linear_children_inv in Hl as (m & i & -> & _). done.
Qed.

(** The index does not depend on the order in which the mailbox is listed. *)
Lemma linear_permutation ms' : ms ≡ₚ ms' -> new ms = new ms'.
Proof.
  intros Hp.
  assert (forall (f : InboxMessage -> option AtmMessageId) (P : InboxMessage -> Prop)
            (HD : forall x, Decision (P x)) i, (forall x, P x <-> f x = Some i) ->
            NoDup (omap f ms) -> filter P ms = filter P ms') as Hf.
  { intros f P HD i HP Hnd. assert (filter P ms ≡ₚ filter P ms') as Hpf by (by rewrite Hp).
    destruct (filter P ms) as [|m l] eqn:E; [by apply Permutation_nil_l in Hpf|].
    assert (m ∈ filter P ms) as Hm by (rewrite E; set_solver).
    apply list_elem_of_filter in Hm as [Hi%HP Hm].
    rewrite (omap_filter_unique f P ms m i HP Hnd Hm Hi) in E. simplify_eq.
    by apply Permutation_singleton_l in Hpf. }
  assert (by_id (new ms) = by_id (new ms')) as E1.
  { apply map_eq. intros i. pose proof (by_id_new ms i) as A. pose proof (by_id_new ms' i) as B.
    unfold message in A, B. rewrite A, B. f_equal.
    apply (Hf env_message_id _ _ i); [done|apply Hlin]. }
  assert (children (new ms) = children (new ms')) as E2.
  { apply map_eq. intros i. rewrite !children_new.
    by rewrite (Hf env_parent_message_id (has_parent i) _ i (fun _ => iff_refl _)
                  (linear_single _ Hlin)). }
  destruct (new ms), (new ms'). cbn in *. by subst.
Qed.

Context (rank : AtmMessageId -> nat) (Hrank : ranked rank ms).

(** The chain from a message is linked to the end of its thread. *)
Lemma chain_loop_linked fuel (seen : gset AtmMessageId) m i cs :
  m ∈ ms -> env_message_id m = Some i -> (forall j, j ∈ seen -> rank j < rank i) ->
  chain_loop (new ms) fuel seen (Some i) = Some cs ->
  exists rest, cs = m :: rest /\ linked (new ms) (Some i) rest.
Proof.
  revert seen m i cs. induction fuel as [|fuel IH]; intros seen m i cs Hm Hi Hseen; [done|].
  cbn [chain_loop]. rewrite bool_decide_eq_false_2 by (intros Hs%Hseen; lia).
  rewrite (linear_message m i) by done. intros (cs' & Hc & ->)%fmap_Some. exists cs'. split; [done|].
  unfold primary_successor in Hc. destruct (children (new ms) !! i) as [l|] eqn:Hl.
  - apply linear_children_inv in Hl as Hinv. destruct Hinv as (m' & i' & -> & Hm' & Hp' & Hi').
    cbn in Hc. rewrite Hi' in Hc. pose proof (Hrank _ _ _ Hm' Hi' Hp') as Hlt.
    apply (IH _ m') in Hc as (rest & -> & Hrest); [|done..|].
    + cbn. split_and!; [done..|]. exists i'. split_and!; [done| |done]. by apply linear_message.
    + intros j [->%elem_of_singleton|Hj]%elem_of_union; [done|]. pose proof (Hseen _ Hj). lia.
  - cbn in Hc. destruct fuel; [done|]. cbn in Hc. simplify_eq. exact Hl.
Qed.

(** The walk to the root ends at a message without parent. *)
Lemma root_loop_root fuel (seen : gset AtmMessageId) i r :
  (forall j, j ∈ seen -> rank i < rank j) -> root_loop (new ms) fuel seen i = Some (Some r) ->
  exists m, m ∈ ms /\ env_message_id m = Some r /\ env_parent_message_id m = None.
Proof.
  revert seen i. induction fuel as [|fuel IH]; intros seen i Hseen; [done|]. cbn [root_loop].
  destruct (message (new ms) i) as [m|] eqn:Hm; [|done]. apply message_new_elem in Hm as [Hm Hi].
  destruct (env_parent_message_id m) as [p|] eqn:Hp; [|intros; simplify_eq; eauto].
  case_bool_decide as Hs; [apply Hseen in Hs; lia|]. pose proof (Hrank _ _ _ Hm Hi Hp).
  apply IH. intros j [->%elem_of_singleton|Hj]%elem_of_union; [done|]. pose proof (Hseen _ Hj). lia.
Qed.

(** A message whose walk ends at the root of a thread lies on that thread. *)
Lemma root_loop_on_thread fuel seen i r cs :
  is_thread (new ms) cs -> thread_id cs 0 r -> root_loop (new ms) fuel seen i = Some (Some r) ->
  exists k, thread_id cs k i.
Proof.
  intros Hcs Hr. revert seen i. induction fuel as [|fuel IH]; intros seen i; [done|].
  cbn [root_loop]. destruct (message (new ms) i) as [m|] eqn:Hm; [|done].
  destruct (env_parent_message_id m) as [p|] eqn:Hp; [|intros; simplify_eq; eauto].
  case_bool_decide as Hs; [intros; simplify_eq; eauto|].
  intros (k & m' & Hk & Hm')%IH. apply message_new_elem in Hm as [Hm Hi].
  pose proof (linear_child _ _ Hm Hp) as Hc.
  destruct (decide (S k = length cs)) as [Hlast|Hlast].
  - destruct (thread_at _ _ Hcs _ _ Hk) as (p' & Hp' & _ & _ & Hend). simplify_eq.
    specialize (Hend Hlast). unfold primary_successor in Hend. by rewrite Hc in Hend.
  - destruct (lookup_lt_is_Some_2 cs (S k)) as [m'' Hm''];
      [apply lookup_lt_Some in Hk; lia|].
    destruct (thread_at _ _ Hcs _ _ Hm'') as (i' & Hi' & _ & (q & p' & Hq & Hp' & _ & Hs') & _).
    simplify_eq. unfold primary_successor in Hs'. rewrite Hc in Hs'. cbn in Hs'. simplify_eq.
    by exists (S k), m''.
Qed.

(** The chain of a message whose root is found is its thread. *)
Lemma chain_is_thread i r :
  root_id (new ms) i = Some r ->
  is_thread (new ms) (chain_messages (new ms) i) /\ thread_id (chain_messages (new ms) i) 0 r
  /\ exists k, thread_id (chain_messages (new ms) i) k i.
Proof.
  intros Hr. unfold chain_messages. rewrite Hr.
  destruct (root_loop_ends (new ms) (root_fuel (new ms)) ∅ i (fuel_start _)) as [o Ho].
  destruct (chain_loop_ends (new ms) (chain_fuel (new ms)) ∅ (Some r) (fuel_start _)) as [cs Hcs].
  unfold root_id in Hr. rewrite Ho in Hr. cbn in Hr. subst o.
  destruct (root_loop_root _ ∅ _ _ ltac:(by intros j []%not_elem_of_empty) Ho) as (m & Hm & Hi & Hp).
  destruct (chain_loop_linked _ ∅ m r cs Hm Hi ltac:(by intros j []%not_elem_of_empty) Hcs)
    as (rest & -> & Hl).
  assert (is_thread (new ms) (m :: rest)) as Hth.
  { split; [done|]. cbn. split_and!; [done..|]. exists r. split_and!; [done| |done].
    by apply linear_message. }
  assert (thread_id (m :: rest) 0 r) as H0 by (by exists m).
  rewrite Hcs. cbn. split_and!; [done..|]. by eapply root_loop_on_thread.
Qed.

Lemma chain_elem i r m : root_id (new ms) i = Some r -> m ∈ chain_messages (new ms) i -> m ∈ ms.
Proof.
  intros Hr [k Hk]%list_elem_of_lookup. destruct (chain_is_thread i r Hr) as (Hth & _ & _).
  destruct (thread_at _ _ Hth _ _ Hk) as (j & _ & Hlook & _). by apply message_new_elem in Hlook as [].
Qed.

(** A thread has one sender. *)
Lemma chain_sender i r m m' :
  same_sender ms ms -> root_id (new ms) i = Some r -> message (new ms) r = Some m ->
  m' ∈ chain_messages (new ms) i -> env_from m' = env_from m.
Proof.
  intros Hs Hr Hm [k Hk]%list_elem_of_lookup. destruct (chain_is_thread i r Hr) as (Hth & H0 & _).
  revert m' Hk. induction k as [|k IH]; intros m' Hk.
  - destruct (thread_at _ _ Hth _ _ Hk) as (j & Hj & Hlook & _). destruct H0 as (x & ? & ?).
    by simplify_eq.
  - destruct (thread_at _ _ Hth _ _ Hk) as (j & Hj & Hlook & (q & p & Hq & Hp & Hpar & _) & _).
    rewrite <- (IH _ Hq). apply (Hs m' q p); [| |done..].
    + by apply message_new_elem in Hlook as [].
    + eapply chain_elem; [done|]. by eapply list_elem_of_lookup_2.
Qed.
End LinearMailbox.

(** ** Validated updates *)
Section Prepare.
Context {rt : Runtime}.

(** What a validated update is. *)
Inductive prepared (e : InboxMessage) (ms : list InboxMessage) : InboxMessage -> Prop :=
| prepared_root :
    env_parent_message_id e = None -> env_thread_mode e = None -> prepared e ms e
| prepared_update p parent r root ack :
    env_parent_message_id e = Some p ->
    is_Some (env_thread_mode e) ->
    env_expires_at e = None ->
    message (new ms) p = Some parent ->
    env_expires_at parent = None ->
    root_id (new ms) p = Some r ->
    message (new ms) r = Some root ->
    env_from root = env_from e ->
    children (new ms) !! p = None ->
    ack = thread_requires_ack (new ms) p ->
    prepared e ms (with_ack ack (if ack then Some (env_timestamp e) else None) None e).

Lemma has_successor_false ms p : has_successor (new ms) p = false -> children (new ms) !! p = None.
Proof.
  unfold has_successor, successor_count. rewrite children_new.
  by destruct (filter (has_parent p) ms).
Qed.

Lemma option_ok_or_bind {A B} (o : option A) err (f : A -> Outcome AtmError B) b :
  option_ok_or err o ≫= f = Ok b -> exists a, o = Some a /\ f a = Ok b.
Proof. destruct o; [eauto|done]. Qed.

Lemma prepare_prepared e ms e' : prepare_threaded_message e ms = Ok e' -> prepared e ms e'.
Proof.
  unfold prepare_threaded_message.
  destruct (env_parent_message_id e) as [p|] eqn:Hp, (env_thread_mode e) as [mode|] eqn:Hm;
    [|done..|intros [= <-]; by apply prepared_root].
  destruct (env_expires_at e) eqn:Hx; [done|]. unfold validate_thread_append.
  intros (parent & Hpar & H)%option_ok_or_bind. unfold is_ephemeral in H. case_bool_decide as He; [done|].
  apply eq_None_not_Some in He.
  apply option_ok_or_bind in H as (r & Hr & H). apply option_ok_or_bind in H as (root & Hroot & H).
  unfold canonical_sender_identity in H. destruct (String.eqb_spec (env_from root) (env_from e)); [|done].
  cbn [negb] in H. destruct (has_successor (new ms) p) eqn:Hs; [done|].
  apply has_successor_false in Hs. injection H as <-. by eapply prepared_update.
Qed.

Lemma prepared_id e ms e' : prepared e ms e' -> env_message_id e' = env_message_id e.
Proof. by destruct 1. Qed.
Lemma prepared_parent e ms e' : prepared e ms e' -> env_parent_message_id e' = env_parent_message_id e.
Proof. by destruct 1. Qed.
Lemma prepared_from e ms e' : prepared e ms e' -> env_from e' = env_from e.
Proof. by destruct 1. Qed.

(** ** The life of a mailbox *)

(** The stored messages, the updates that were validated and not yet committed,
    and the message ids handed out so far. *)
Record Mailbox : Type := mkMailbox {
  stored : list InboxMessage;
  in_flight : list InboxMessage;
  used : gset AtmMessageId
}.

(** The unique indexes [uq_mail_messages_message_id] and
    [uq_mail_messages_single_successor] accept the message. *)
Definition index_accepts (ms : list InboxMessage) (e : InboxMessage) : Prop :=
  (forall i, env_message_id e = Some i -> i ∉ omap env_message_id ms)
  /\ (forall p, env_parent_message_id e = Some p -> p ∉ omap env_parent_message_id ms).

(** A stored message changes its display state only. *)
Definition same_thread_fields (m m' : InboxMessage) : Prop :=
  env_message_id m' = env_message_id m /\ env_parent_message_id m' = env_parent_message_id m
  /\ env_from m' = env_from m.

Inductive step : Mailbox -> Mailbox -> Prop :=
| step_prepare s fl u snapshot e e' i :
    snapshot ≡ₚ s ->
    env_message_id e = Some i -> i ∉ u ->
    prepare_threaded_message e snapshot = Ok e' ->
    step (mkMailbox s fl u) (mkMailbox s (fl ++ [e']) ({[i]} ∪ u))
| step_commit s fl1 e fl2 u :
    index_accepts s e ->
    step (mkMailbox s (fl1 ++ e :: fl2) u) (mkMailbox (s ++ [e]) (fl1 ++ fl2) u)
| step_refuse s fl1 e fl2 u :
    step (mkMailbox s (fl1 ++ e :: fl2) u) (mkMailbox s (fl1 ++ fl2) u)
| step_remove s1 m s2 fl u :
    step (mkMailbox (s1 ++ m :: s2) fl u) (mkMailbox (s1 ++ s2) fl u)
| step_display s1 m m' s2 fl u :
    same_thread_fields m m' ->
    step (mkMailbox (s1 ++ m :: s2) fl u) (mkMailbox (s1 ++ m' :: s2) fl u).

Definition empty_mailbox : Mailbox := mkMailbox [] [] ∅.

Record mailbox_inv (b : Mailbox) : Prop := mkMailboxInv {
  inv_ids : forall m, m ∈ stored b ++ in_flight b -> is_Some (env_message_id m);
  inv_unique : NoDup (omap env_message_id (stored b ++ in_flight b));
  inv_single : NoDup (omap env_parent_message_id (stored b));
  inv_used : forall m i, m ∈ stored b ++ in_flight b ->
    env_message_id m = Some i \/ env_parent_message_id m = Some i -> i ∈ used b;
  inv_rank : exists rank, ranked rank (stored b ++ in_flight b);
  inv_sender : same_sender (stored b ++ in_flight b) (stored b);
  inv_waiting : forall m m' p, m ∈ stored b ++ in_flight b -> m' ∈ in_flight b ->
    env_parent_message_id m = Some p -> env_message_id m' <> Some p
}.

Lemma inv_linear b : mailbox_inv b -> linear_mailbox (stored b).
Proof.
  intros [Hids Hu Hs _ _ _ _]. split; [|rewrite omap_app in Hu; by apply NoDup_app in Hu as []|done].
  intros m Hm _. apply Hids. set_solver.
Qed.

Lemma inv_empty : mailbox_inv empty_mailbox.
Proof.
  split; cbn; try (intros; exfalso; by eapply not_elem_of_nil); try apply NoDup_nil_2.
  - exists (fun _ => 0). intros m i p []%not_elem_of_nil.
  - intros m m' p []%not_elem_of_nil.
Qed.

Lemma sublist_omap {A B} (f : A -> option B) l1 l2 :
  l1 `sublist_of` l2 -> omap f l1 `sublist_of` omap f l2.
Proof. induction 1 as [|x l1 l2 _ IH|x l1 l2 _ IH]; cbn; [done|..]; destruct (f x); try done; by constructor. Qed.

Lemma linear_perm ms ms' : ms ≡ₚ ms' -> linear_mailbox ms -> linear_mailbox ms'.
Proof.
  intros Hp [H1 H2 H3]. split.
  - intros m Hm. apply H1. by rewrite Hp.
  - by rewrite <- Hp.
  - by rewrite <- Hp.
Qed.

(** The parent of a validated update is stored, and has its sender. *)
Lemma prepared_parent_stored s snapshot rank e e' q :
  snapshot ≡ₚ s -> linear_mailbox s -> ranked rank s -> same_sender s s ->
  prepared e snapshot e' -> env_parent_message_id e' = Some q ->
  exists m, m ∈ s /\ env_message_id m = Some q /\ env_from m = env_from e'.
Proof.
  intros Hperm Hlin Hr Hse Hp Hq.
  assert (linear_mailbox snapshot) as Hlin' by (by apply (linear_perm s)).
  rewrite (prepared_from _ _ _ Hp). rewrite (prepared_parent _ _ _ Hp) in Hq.
  destruct Hp as [Hn _|p parent r root ack Hpar _ _ Hm _ Hrt Hroot Hf _ _]; [congruence|].
  assert (p = q) as -> by congruence. rewrite (linear_permutation snapshot Hlin' s Hperm) in *.
  destruct (message_new_elem _ _ _ Hm) as [Hin Hid]. exists parent. split_and!; [done..|].
  rewrite <- Hf. eapply (chain_sender s Hlin rank Hr q r); [done..|].
  destruct (chain_is_thread s Hlin rank Hr q r Hrt) as (Hth & _ & k & x & Hk & Hx).
  destruct (thread_at _ _ Hth _ _ Hk) as (j & Hj & Hlook & _). simplify_eq.
  by eapply list_elem_of_lookup_2.
Qed.

(** Forgetting messages keeps the invariant. *)
Lemma inv_sublist s fl u s' fl' :
  s' `sublist_of` s -> fl' `sublist_of` fl ->
  mailbox_inv (mkMailbox s fl u) -> mailbox_inv (mkMailbox s' fl' u).
Proof.
  intros Hs Hfl [Hids Hu Hsi Hused [rank Hr] Hse Hw]. cbn in *.
  assert (s' ++ fl' `sublist_of` s ++ fl) as Ht by (by apply sublist_app).
  assert (forall x, x ∈ s' ++ fl' -> x ∈ s ++ fl) as Hin
    by (intros x; by apply (sublist_subseteq _ _ Ht)).
  assert (forall x, x ∈ s' -> x ∈ s) as Hin1 by (intros x; by apply (sublist_subseteq _ _ Hs)).
  assert (forall x, x ∈ fl' -> x ∈ fl) as Hin2 by (intros x; by apply (sublist_subseteq _ _ Hfl)).
  split; cbn; eauto.
  - apply (sublist_NoDup _ _ Hu), sublist_omap, Ht.
  - apply (sublist_NoDup _ _ Hsi), sublist_omap, Hs.
  - exists rank. intros m i p Hm. by apply Hr, Hin.
  - intros m m' p Hm Hm'. by apply Hse; auto.
Qed.

Lemma inv_prepare s fl u snapshot e e' i :
  snapshot ≡ₚ s -> env_message_id e = Some i -> i ∉ u -> prepared e snapshot e' ->
  mailbox_inv (mkMailbox s fl u) -> mailbox_inv (mkMailbox s (fl ++ [e']) ({[i]} ∪ u)).
Proof.
  intros Hperm Hi Hfresh Hp [Hids Hu Hsi Hused [rank Hr] Hse Hw]. cbn in *.
  assert (env_message_id e' = Some i) as Hi' by (by rewrite (prepared_id _ _ _ Hp)).
  assert (forall q, env_parent_message_id e' = Some q ->
            exists m, m ∈ s /\ env_message_id m = Some q /\ env_from m = env_from e') as Hpar.
  { intros q Hq. eapply (prepared_parent_stored s snapshot rank e e'); try done.
    - split; [|rewrite omap_app in Hu; by apply NoDup_app in Hu as []|done].
      intros m Hm _. apply Hids, elem_of_app. by left.
    - intros m j p Hm. apply Hr, elem_of_app. by left.
    - intros m m' p Hm. apply Hse, elem_of_app. by left. }
  assert (forall m, m ∈ s ++ fl ++ [e'] -> m ∈ s ++ fl \/ m = e') as Hcase
    by (intros m; rewrite !elem_of_app, list_elem_of_singleton; tauto).
  assert (forall m, m ∈ s -> m ∈ s ++ fl) as Hl by (intros m Hm; apply elem_of_app; by left).
  assert (forall m q, m ∈ s ++ fl -> env_message_id m = Some q \/ env_parent_message_id m = Some q ->
            q <> i) as Hni by (intros m q Hm Hq ->; by eapply Hfresh, Hused).
  split; cbn.
  - intros m [Hm| ->]%Hcase; eauto.
  - rewrite app_assoc, omap_app. cbn. rewrite Hi'. apply NoDup_app. split_and!; [done| |apply NoDup_singleton].
    intros q (m & Hm & Hq)%list_elem_of_omap ->%list_elem_of_singleton. by eapply Hni; eauto.
  - done.
  - intros m q [Hm| ->]%Hcase [Hq|Hq]; apply elem_of_union.
    + right. eauto.
    + right. eauto.
    + left. apply elem_of_singleton. congruence.
    + right. destruct (Hpar _ Hq) as (m' & Hm' & Hq' & _). eapply Hused; eauto.
  - exists (fun j => if decide (j = i) then S (match env_parent_message_id e' with
                                               Some q => rank q | None => 0 end) else rank j).
    intros m j q [Hm| ->]%Hcase Hj Hq.
    + rewrite !decide_False by eauto. eauto.
    + rewrite Hi' in Hj. simplify_eq. rewrite (decide_True (P := j = j)), Hq by done.
      rewrite decide_False; [lia|]. destruct (Hpar _ Hq) as (m' & Hm' & Hq' & _).
      apply (Hni m'); auto.
  - intros m m' q [Hm| ->]%Hcase Hm' Hq Hq'; [eauto|].
    destruct (Hpar _ Hq) as (m'' & Hm'' & Hq'' & Hf). rewrite <- Hf. f_equal.
    rewrite omap_app in Hu. apply NoDup_app in Hu as (Hu & _ & _).
    pose proof (omap_filter_unique env_message_id (has_id q) s m'' q (fun _ => iff_refl _) Hu Hm'' Hq'').
    pose proof (omap_filter_unique env_message_id (has_id q) s m' q (fun _ => iff_refl _) Hu Hm' Hq').
    congruence.
  - intros m m' q Hm [Hm'|Hm']%elem_of_app Hq Hq'.
    + apply Hcase in Hm as [Hm| ->]; [by eapply (Hw m m' q)|].
      destruct (Hpar _ Hq) as (m'' & Hm'' & Hq'' & _).
      rewrite omap_app in Hu. apply NoDup_app in Hu as (_ & Hd & _).
      apply (Hd q); apply list_elem_of_omap; eauto.
    + apply list_elem_of_singleton in Hm' as ->. rewrite Hi' in Hq'. simplify_eq.
      apply Hcase in Hm as [Hm| ->]; [by eapply (Hni m); eauto|].
      destruct (Hpar _ Hq) as (m'' & Hm'' & Hq'' & _). by apply (Hni m'' _ (Hl _ Hm'') (or_introl Hq'')).
Qed.

Lemma inv_commit s fl1 e fl2 u :
  index_accepts s e ->
  mailbox_inv (mkMailbox s (fl1 ++ e :: fl2) u) -> mailbox_inv (mkMailbox (s ++ [e]) (fl1 ++ fl2) u).
Proof.
  intros [_ Hacc] [Hids Hu Hsi Hused [rank Hr] Hse Hw]. cbn in *.
  assert (s ++ fl1 ++ e :: fl2 ≡ₚ (s ++ [e]) ++ fl1 ++ fl2) as Hperm
    by (rewrite <- (app_assoc s); apply Permutation_app_head; by rewrite <- Permutation_middle).
  assert (forall m, m ∈ (s ++ [e]) ++ fl1 ++ fl2 -> m ∈ s ++ fl1 ++ e :: fl2) as Hin
    by (intros m; by rewrite Hperm).
  assert (forall m, m ∈ fl1 ++ fl2 -> m ∈ fl1 ++ e :: fl2) as Hfl
    by (intros m; rewrite !elem_of_app, elem_of_cons; tauto).
  split; cbn; eauto.
  - by rewrite <- Hperm.
  - rewrite omap_app. cbn. destruct (env_parent_message_id e) as [p|] eqn:Hp; [|by rewrite app_nil_r].
    apply NoDup_app. split_and!; [done| |apply NoDup_singleton].
    intros q Hq ->%list_elem_of_singleton. by eapply Hacc.
  - exists rank. intros m i p Hm. by apply Hr, Hin.
  - intros m m' p Hm [Hm'| ->%list_elem_of_singleton]%elem_of_app Hp Hi; [by eapply Hse; auto|].
    exfalso. eapply (Hw m e p); [auto| |done..]. apply elem_of_app. right. by left.
Qed.

Lemma inv_display s1 m m' s2 fl u :
  same_thread_fields m m' ->
  mailbox_inv (mkMailbox (s1 ++ m :: s2) fl u) -> mailbox_inv (mkMailbox (s1 ++ m' :: s2) fl u).
Proof.
  intros (Ei & Ep & Ef) [Hids Hu Hsi Hused [rank Hr] Hse Hw]. cbn in *.
  assert (forall (f : InboxMessage -> option AtmMessageId), f m' = f m ->
            omap f (s1 ++ m' :: s2) = omap f (s1 ++ m :: s2)) as Ho
    by (intros f Hf; rewrite !omap_app; cbn; by rewrite Hf).
  assert (forall x, x ∈ s1 ++ m' :: s2 -> exists y, y ∈ s1 ++ m :: s2 /\ same_thread_fields y x) as Hin1.
  { intros x. rewrite elem_of_app, elem_of_cons. intros [Hx|[->|Hx]].
    - exists x. split; [|by split_and!]. apply elem_of_app. by left.
    - exists m. split; [|by split_and!]. apply elem_of_app. right. by left.
    - exists x. split; [|by split_and!]. apply elem_of_app. right. by right. }
  assert (forall x, x ∈ (s1 ++ m' :: s2) ++ fl ->
            exists y, y ∈ (s1 ++ m :: s2) ++ fl /\ same_thread_fields y x) as Hin.
  { intros x [Hx|Hx]%elem_of_app.
    - destruct (Hin1 x Hx) as (y & Hy & Hs). exists y. split; [|done]. apply elem_of_app. by left.
    - exists x. split; [|by split_and!]. apply elem_of_app. by right. }
  split; cbn.
  - intros x (y & Hy & E1 & _)%Hin. rewrite E1. auto.
  - rewrite omap_app, Ho, <- omap_app by done. done.
  - by rewrite Ho.
  - intros x i (y & Hy & E1 & E2 & _)%Hin. rewrite E1, E2. eauto.
  - exists rank. intros x i p (y & Hy & E1 & E2 & _)%Hin. rewrite E1, E2. eauto.
  - intros x x' p (y & Hy & E1 & E2 & E3)%Hin (y' & Hy' & F1 & F2 & F3)%Hin1.
    rewrite E2, F1, E3, F3. eauto.
  - intros x x' p (y & Hy & E1 & E2 & E3)%Hin Hx'. rewrite E2. eauto.
Qed.

Lemma inv_step b b' : step b b' -> mailbox_inv b -> mailbox_inv b'.
Proof.
  destruct 1.
  - eapply inv_prepare; eauto using prepare_prepared.
  - by apply inv_commit.
  - apply inv_sublist; [done|]. apply sublist_app; [done|by apply sublist_cons].
  - apply inv_sublist; [|done]. apply sublist_app; [done|by apply sublist_cons].
  - by apply inv_display.
Qed.

Lemma inv_reachable b : rtc step empty_mailbox b -> mailbox_inv b.
Proof.
  intros H. remember empty_mailbox as b0 eqn:E. assert (mailbox_inv b0) as Hinv
    by (subst; apply inv_empty). clear E.
  induction H; [done|]. eauto using inv_step.
Qed.
End Prepare.
