(* ===== verification/Selection.v ===== *)
(** * Mailbox selection

    Models the read and acknowledgement state of a message
    ([crates/atm-core/src/read/state.rs], [types.rs] and
    [derive_ack_requirement] of [crates/atm-storage/src/contract.rs]), the
    filters of [read/filters.rs] and the selection of [read/selection.rs], which
    the retained path and the reader lane share.

    [IsoTimestamp::now] is called once per message: a function that reads the
    clock takes the number [t] of readings taken before it, and the reading for
    the [k]-th message of a list is [now_at (t + k)]. *)

From S2P Require Import Prelude ErrorCodes Types Address Database Threading.
From stdpp Require Import base gmap strings numbers list.
From Stdlib Require Import Ascii.
Local Open Scope Z_scope.
Local Open Scope string_scope.
Local Open Scope list_scope.

(** ** State of a message *)

Inductive ReadState : Set := ReadState_Unread | ReadState_Read.
Inductive AckRequirementState : Set := NotRequired | RequiredPending | RequiredAcknowledged.
Inductive AckState : Set := NoAckRequired | PendingAck | Acknowledged.
Inductive MessageClass : Set := Class_Unread | Class_PendingAck | Class_Acknowledged | Class_Read.
Inductive DisplayBucket : Set := Bucket_Unread | Bucket_PendingAck | Bucket_History.
Inductive ReadSelection : Set :=
| Selection_Actionable | Selection_Unread | Selection_PendingAck | Selection_All.

#[export] Instance DisplayBucket_eq_dec : EqDecision DisplayBucket.
Proof. solve_decision. Defined.
#[export] Instance MessageClass_eq_dec : EqDecision MessageClass.
Proof. solve_decision. Defined.
#[export] Instance ReadSelection_eq_dec : EqDecision ReadSelection.
Proof. solve_decision. Defined.

Definition derive_read_state (message : InboxMessage) : ReadState :=
  if env_read message then ReadState_Read else ReadState_Unread.

Definition derive_ack_requirement (message : InboxMessage) : AckRequirementState :=
  if negb (env_requires_ack message) then NotRequired
  else if bool_decide (is_Some (env_acknowledged_at message)) then RequiredAcknowledged
  else RequiredPending.

Definition derive_ack_state (message : InboxMessage) : AckState :=
  match derive_ack_requirement message with
  | NotRequired => NoAckRequired
  | RequiredPending => PendingAck
  | RequiredAcknowledged => Acknowledged
  end.

(** The [debug_assert] on an unread acknowledged message is not part of a
    release build. *)
Definition classify_message (message : InboxMessage) : MessageClass :=
  match derive_read_state message, derive_ack_state message with
  | ReadState_Unread, NoAckRequired => Class_Unread
  | ReadState_Unread, PendingAck => Class_PendingAck
  | ReadState_Unread, Acknowledged => Class_Acknowledged
  | ReadState_Read, NoAckRequired => Class_Read
  | ReadState_Read, PendingAck => Class_PendingAck
  | ReadState_Read, Acknowledged => Class_Acknowledged
  end.

Definition display_bucket_for_class (class : MessageClass) : DisplayBucket :=
  match class with
  | Class_Unread => Bucket_Unread
  | Class_PendingAck => Bucket_PendingAck
  | Class_Acknowledged | Class_Read => Bucket_History
  end.

(** ** Records *)

Record ClassifiedMessage : Set := mkClassified {
  cm_source_index : nat;
  cm_source_path : string;
  cm_bucket : DisplayBucket;
  cm_class : MessageClass;
  cm_envelope : InboxMessage
}.

Record BucketCounts : Set := mkBucketCounts {
  count_unread : nat;
  count_pending_ack : nat;
  count_history : nat
}.

Inductive ParticipantDirection : Set := Direction_From | Direction_To | Direction_Either.

Record MessageParticipantFilter : Set := mkParticipantFilter {
  participant_agent : AgentName;
  participant_chat_id : option ChatId;
  participant_direction : ParticipantDirection
}.

Record MailboxSelectionRequest : Set := mkSelectionRequest {
  selection_mode : ReadSelection;
  seen_watermark : option IsoTimestamp;
  message_id_filter : option AtmMessageId;
  sender_filter : option AgentName;
  participant_filter : option MessageParticipantFilter;
  timestamp_filter : option IsoTimestamp;
  task_filter : option TaskId;
  contains_filter : option string
}.

Definition MailboxSelectionRequest_default : MailboxSelectionRequest :=
  mkSelectionRequest Selection_Unread None None None None None None None.

Definition without_contains (r : MailboxSelectionRequest) : MailboxSelectionRequest :=
  mkSelectionRequest (selection_mode r) (seen_watermark r) (message_id_filter r) (sender_filter r)
    (participant_filter r) (timestamp_filter r) (task_filter r) None.

Record MailboxSelectionCandidate : Set := mkCandidate {
  candidate_message_key : string;
  candidate_envelope : InboxMessage
}.

Record SelectedMailboxMessage : Set := mkSelected {
  sel_message_key : string;
  sel_bucket : DisplayBucket;
  sel_class : MessageClass;
  sel_envelope : InboxMessage
}.

Record MailboxSelectionResult : Set := mkSelectionResult {
  bucket_counts : BucketCounts;
  selected : list SelectedMailboxMessage
}.

(** ** Filters *)

(** [u8::to_ascii_lowercase]. *)
Definition to_ascii_lowercase (c : ascii) : ascii :=
  if byte_between 65 90 (nat_of_ascii c) then ascii_of_nat (nat_of_ascii c + 32) else c.

(** The bytes start with the needle, up to ASCII case. *)
Fixpoint starts_ignoring_case (needle hay : list ascii) : bool :=
  match needle, hay with
  | [], _ => true
  | n :: needle, h :: hay =>
    Ascii.eqb (to_ascii_lowercase n) (to_ascii_lowercase h) && starts_ignoring_case needle hay
  | _ :: _, [] => false
  end.

(** [windows(needle.len()).any(|window| window.eq_ignore_ascii_case(needle))]. *)
Fixpoint any_window (needle hay : list ascii) : bool :=
  match hay with
  | [] => false
  | _ :: rest => starts_ignoring_case needle hay || any_window needle rest
  end.

Definition text_contains_needle (text : option string) (needle : string) : bool :=
  if String.eqb needle "" then true
  else
    match text with
    | Some value => any_window (String.list_ascii_of_string needle) (String.list_ascii_of_string value)
    | None => false
    end.

Definition apply_sender_filter (messages : list ClassifiedMessage) (sender : option AgentName)
    : list ClassifiedMessage :=
  match sender with
  | Some sender => filter (fun m => env_from (cm_envelope m) = sender) messages
  | None => messages
  end.

Definition matches_participant_filter (message : ClassifiedMessage)
    (participant : option MessageParticipantFilter) : bool :=
  match participant with
  | None => true
  | Some participant =>
    let e := cm_envelope message in
    let source_matches :=
      bool_decide (env_from e = participant_agent participant)
      && bool_decide (env_source_chat_id e = participant_chat_id participant) in
    let destination_matches :=
      bool_decide (env_destination_chat_id e = participant_chat_id participant) in
    match participant_direction participant with
    | Direction_From => source_matches
    | Direction_To => destination_matches
    | Direction_Either => source_matches || destination_matches
    end
  end.

Definition apply_participant_filter (messages : list ClassifiedMessage)
    (participant : option MessageParticipantFilter) : list ClassifiedMessage :=
  match participant with
  | Some participant => List.filter (fun m => matches_participant_filter m (Some participant)) messages
  | None => messages
  end.

Definition apply_timestamp_filter (messages : list ClassifiedMessage) (since : option IsoTimestamp)
    : list ClassifiedMessage :=
  match since with
  | Some since => List.filter (fun m => since <=? env_timestamp (cm_envelope m))%Z messages
  | None => messages
  end.

Definition apply_task_filter (messages : list ClassifiedMessage) (task_id : option TaskId)
    : list ClassifiedMessage :=
  match task_id with
  | Some task_id => filter (fun m => env_task_id (cm_envelope m) = Some task_id) messages
  | None => messages
  end.

Definition in_selection_mode (mode : ReadSelection) (bucket : DisplayBucket) : bool :=
  match mode, bucket with
  | Selection_Actionable, (Bucket_Unread | Bucket_PendingAck) => true
  | Selection_Actionable, Bucket_History => false
  | Selection_Unread, bucket => bool_decide (bucket = Bucket_Unread)
  | Selection_PendingAck, bucket => bool_decide (bucket = Bucket_PendingAck)
  | Selection_All, _ => true
  end.

Definition apply_selection_mode (messages : list ClassifiedMessage) (mode : ReadSelection)
    (_seen_watermark : option IsoTimestamp) : list ClassifiedMessage :=
  List.filter (fun m => in_selection_mode mode (cm_bucket m)) messages.

(** ** Order *)

(** [then_with] on comparisons. *)
Definition then_with (c d : comparison) : comparison := match c with Eq => d | _ => c end.

(** [slice::sort_by], a stable sort: an element is put before the equal ones
    that came after it. *)
Fixpoint insert_by {A} (compare : A -> A -> comparison) (x : A) (l : list A) : list A :=
  match l with
  | [] => [x]
  | y :: rest => match compare x y with Gt => y :: insert_by compare x rest | _ => x :: l end
  end.

Definition sort_by {A} (compare : A -> A -> comparison) (l : list A) : list A :=
  foldr (insert_by compare) [] l.

(** [Vec::truncate], when there is a limit. *)
Definition limit_to {A} (limit : option nat) (l : list A) : list A :=
  match limit with Some n => take n l | None => l end.

Definition compare_selected (l r : SelectedMailboxMessage) : comparison :=
  then_with
    (then_with (Z.compare (env_timestamp (sel_envelope r)) (env_timestamp (sel_envelope l)))
               (ThreadIndex.id_compare (env_message_id (sel_envelope r))
                                       (env_message_id (sel_envelope l))))
    (String.compare (sel_message_key r) (sel_message_key l)).

Definition sort_and_limit_mailbox_selection (selected : list SelectedMailboxMessage)
    (limit : option nat) : list SelectedMailboxMessage :=
  limit_to limit (sort_by compare_selected selected).

(** ** Selection *)

(** A message of a thread that is not its last one is shown as history. *)
Definition as_historical (e : InboxMessage) : InboxMessage :=
  {| env_from := env_from e;
     env_source_chat_id := env_source_chat_id e;
     env_text := env_text e;
     env_timestamp := env_timestamp e;
     env_read := true;
     env_source_team := env_source_team e;
     env_destination_chat_id := env_destination_chat_id e;
     env_summary := env_summary e;
     env_message_id := env_message_id e;
     env_requires_ack := env_requires_ack e;
     env_pending_ack_at := None;
     env_acknowledged_at := env_acknowledged_at e;
     env_acknowledges_message_id := env_acknowledges_message_id e;
     env_parent_message_id := env_parent_message_id e;
     env_thread_mode := env_thread_mode e;
     env_expires_at := env_expires_at e;
     env_task_id := env_task_id e;
     env_placement := env_placement e;
     env_task_op := env_task_op e;
     env_task_complete := env_task_complete e;
     env_extra := env_extra e |}.

Definition effective_display_envelope (envelope : InboxMessage) (thread_index : ThreadIndex.t)
    : InboxMessage :=
  match env_message_id envelope with
  | None => envelope
  | Some message_id =>
    if ThreadIndex.is_terminal thread_index message_id then envelope else as_historical envelope
  end.

Definition classify_candidates (candidates : list MailboxSelectionCandidate)
    : list ClassifiedMessage :=
  let thread_index := ThreadIndex.new (candidate_envelope <$> candidates) in
  imap (fun index candidate =>
          let envelope := effective_display_envelope (candidate_envelope candidate) thread_index in
          let class := classify_message envelope in
          mkClassified index (candidate_message_key candidate) (display_bucket_for_class class)
            class envelope) candidates.

Definition classify_mailbox_candidates : list MailboxSelectionCandidate -> list ClassifiedMessage :=
  classify_candidates.

Definition message_matches_contains (message : ClassifiedMessage) (needle : option string) : bool :=
  match needle with
  | None => true
  | Some value => text_contains_needle (Some (env_text (cm_envelope message))) value
  end.

Definition with_envelope (e : InboxMessage) (m : ClassifiedMessage) : ClassifiedMessage :=
  mkClassified (cm_source_index m) (cm_source_path m) (cm_bucket m) (cm_class m) e.

(** A message without id, or the last message of its thread. *)
Definition is_current (thread_index : ThreadIndex.t) (e : InboxMessage) : bool :=
  match env_message_id e with
  | None => true
  | Some message_id => ThreadIndex.is_terminal thread_index message_id
  end.

Definition to_logical_current (thread_index : ThreadIndex.t) (m : ClassifiedMessage)
    : ClassifiedMessage :=
  match env_message_id (cm_envelope m) ≫= ThreadIndex.logical_current_envelope thread_index with
  | Some logical => with_envelope logical m
  | None => m
  end.

Definition logical_current_messages (messages : list ClassifiedMessage) : list ClassifiedMessage :=
  let thread_index := ThreadIndex.new (cm_envelope <$> messages) in
  to_logical_current thread_index
    <$> List.filter (fun m => is_current thread_index (cm_envelope m)) messages.

Section Selection.
Context {rt : Runtime}.

Definition hidden_from_normal_views (at_ : IsoTimestamp) (envelope : InboxMessage) : bool :=
  is_expired_ephemeral envelope at_ || (is_ephemeral envelope && env_read envelope).

Definition hidden_for_selection (at_ : IsoTimestamp) (envelope : InboxMessage)
    (mode : ReadSelection) : bool :=
  if is_expired_ephemeral envelope at_ then true
  else bool_decide (mode <> Selection_All) && is_ephemeral envelope && env_read envelope.

Definition count_bucket (counts : BucketCounts) (bucket : DisplayBucket) : BucketCounts :=
  match bucket with
  | Bucket_Unread =>
    mkBucketCounts (S (count_unread counts)) (count_pending_ack counts) (count_history counts)
  | Bucket_PendingAck =>
    mkBucketCounts (count_unread counts) (S (count_pending_ack counts)) (count_history counts)
  | Bucket_History =>
    mkBucketCounts (count_unread counts) (count_pending_ack counts) (S (count_history counts))
  end.

Fixpoint count_from (t : nat) (counts : BucketCounts) (messages : list ClassifiedMessage)
    : BucketCounts :=
  match messages with
  | [] => counts
  | m :: rest =>
    count_from (S t)
      (if hidden_from_normal_views (now_at t) (cm_envelope m) then counts
       else count_bucket counts (cm_bucket m)) rest
  end.

Definition bucket_counts_for (t : nat) (messages : list ClassifiedMessage) : BucketCounts :=
  count_from t (mkBucketCounts 0 0 0) messages.

(** [filter(|message| !hidden_for_selection(&message.envelope, mode))]. *)
Fixpoint filter_hidden (t : nat) (mode : ReadSelection) (messages : list ClassifiedMessage)
    : list ClassifiedMessage :=
  match messages with
  | [] => []
  | m :: rest =>
    if hidden_for_selection (now_at t) (cm_envelope m) mode then filter_hidden (S t) mode rest
    else m :: filter_hidden (S t) mode rest
  end.

(** The messages with the id asked for. *)
Definition select_by_id (message_id : AtmMessageId) (request : MailboxSelectionRequest)
    (classified : list ClassifiedMessage) : list ClassifiedMessage :=
  List.filter (fun m => message_matches_contains m (contains_filter request))
    (List.filter (fun m => matches_participant_filter m (participant_filter request))
       (filter (fun m => env_message_id (cm_envelope m) = Some message_id) classified)).

Definition apply_filters (request : MailboxSelectionRequest) (messages : list ClassifiedMessage)
    : list ClassifiedMessage :=
  apply_task_filter
    (apply_timestamp_filter
       (apply_participant_filter
          (apply_sender_filter messages (sender_filter request)) (participant_filter request))
       (timestamp_filter request))
    (task_filter request).

Definition select_classified_mailbox_candidates (t : nat)
    (candidates : list MailboxSelectionCandidate) (request : MailboxSelectionRequest)
    : BucketCounts * list ClassifiedMessage :=
  let classified_all := classify_candidates candidates in
  match message_id_filter request with
  | Some message_id =>
    (bucket_counts_for t (logical_current_messages classified_all),
     select_by_id message_id request classified_all)
  | None =>
    let logical_current := logical_current_messages classified_all in
    (bucket_counts_for t logical_current,
     apply_selection_mode
       (List.filter (fun m => message_matches_contains m (contains_filter request))
          (filter_hidden (t + length logical_current) (selection_mode request)
             (apply_filters request logical_current)))
       (selection_mode request)
       (if bool_decide (selection_mode request = Selection_All) then None
        else seen_watermark request))
  end.

Definition to_selected (m : ClassifiedMessage) : SelectedMailboxMessage :=
  mkSelected (cm_source_path m) (cm_bucket m) (cm_class m) (cm_envelope m).

Definition select_mailbox_candidates (t : nat) (candidates : list MailboxSelectionCandidate)
    (request : MailboxSelectionRequest) : MailboxSelectionResult :=
  let '(counts, chosen) := select_classified_mailbox_candidates t candidates request in
  mkSelectionResult counts (to_selected <$> chosen).

(** [select_classified_messages]. *)
Definition select_classified_messages (t : nat) (messages : list ClassifiedMessage)
    (mode : ReadSelection) (watermark : option IsoTimestamp) : list ClassifiedMessage :=
  apply_selection_mode (filter_hidden t mode messages) mode
    (if bool_decide (mode = Selection_All) then None else watermark).

(** The readings of the clock a selection takes at most; each message is checked
    once for the counts and, without an id filter, once for the selection. *)
Definition selection_readings (candidates : list MailboxSelectionCandidate)
    (request : MailboxSelectionRequest) : nat :=
  let logical_current := logical_current_messages (classify_candidates candidates) in
  match message_id_filter request with
  | Some _ => length logical_current
  | None => length logical_current + length (apply_filters request logical_current)
  end.
End Selection.

(** * Facts about the mailbox selection

    [sort_by] sorts, and a selection of messages that are all the last of their
    threads only filters them. *)

From S2P Require Import Threading.
From stdpp Require Import base gmap strings numbers sorting list.
Local Close Scope Z_scope.

(** ** Sorting *)
Section Sort.
Context {A : Type} (compare : A -> A -> comparison).

Lemma insert_by_perm x l : insert_by compare x l ≡ₚ x :: l.
Proof.
  induction l as [|y l IH]; [done|]. cbn [insert_by]. destruct (compare x y); [done..|].
  by rewrite IH, Permutation_swap.
Qed.

Lemma sort_by_perm l : sort_by compare l ≡ₚ l.
Proof. induction l as [|x l IH]; [done|]. cbn [sort_by foldr]. by rewrite insert_by_perm, IH. Qed.

Lemma elem_of_sort_by x l : x ∈ sort_by compare l <-> x ∈ l.
Proof. by rewrite sort_by_perm. Qed.

(** A total preorder, in terms of the comparison. *)
Context (Htotal : forall x y, compare x y = Gt -> compare y x <> Gt).
Context (Htrans : forall x y z, compare x y <> Gt -> compare y z <> Gt -> compare x z <> Gt).

Definition ordered : list A -> Prop := StronglySorted (fun x y => compare x y <> Gt).

Lemma insert_by_ordered x l : ordered l -> ordered (insert_by compare x l).
Proof.
  induction 1 as [|y l Hl IH Hy]; cbn [insert_by]; [repeat constructor|].
  destruct (compare x y) eqn:E.
  3:{ constructor; [done|]. apply Forall_forall. intros z Hz.
      rewrite (insert_by_perm x l) in Hz. apply elem_of_cons in Hz as [->|Hz].
      - by apply Htotal.
      - by apply (proj1 (Forall_forall _ _) Hy). }
  all: constructor; [by constructor|]; constructor; [congruence|];
    eapply Forall_impl; [exact Hy|]; intros z Hz; eapply Htrans; [|exact Hz]; congruence.
Qed.

Lemma sort_by_ordered l : ordered (sort_by compare l).
Proof. induction l as [|x l IH]; [constructor|]. by apply insert_by_ordered. Qed.

Lemma sort_by_head_le x l y : head (sort_by compare l) = Some x -> y ∈ l -> x = y \/ compare x y <> Gt.
Proof.
  pose proof (sort_by_ordered l) as Ho. intros Hh Hy. rewrite <- elem_of_sort_by in Hy.
  destruct (sort_by compare l) as [|z r]; [done|]. cbn in Hh. simplify_eq.
  inversion Ho as [|? ? _ Hf]; subst. apply elem_of_cons in Hy as [->|Hy]; [by left|right].
  by apply (proj1 (Forall_forall _ _) Hf).
Qed.
End Sort.

(** ** Comparisons *)

(** [CompSpec]-style facts of a comparison: it is the order of its keys. *)
Record cmp_ok {A} (c : A -> A -> comparison) : Prop := mkCmpOk {
  cmp_anti : forall x y, c y x = CompOpp (c x y);
  cmp_le_trans : forall x y z, c x y <> Gt -> c y z <> Gt -> c x z <> Gt;
  cmp_eq_l : forall x y z, c x y = Eq -> c x z = c y z
}.

Lemma cmp_ok_then {A} (c d : A -> A -> comparison) :
  cmp_ok c -> cmp_ok d -> cmp_ok (fun x y => then_with (c x y) (d x y)).
Proof.
  intros [Ca Ct Ce] [Da Dt De].
  assert (forall x y z, c x y = Eq -> c z x = c z y) as Cer
    by (intros x y z H; rewrite (Ca x z), (Ca y z), (Ce _ _ z H); done).
  split.
  - intros x y. rewrite (Ca x y). destruct (c x y); cbn; [apply Da|done..].
  - intros x y z H1 H2. destruct (c x y) eqn:Exy.
    + rewrite (Ce _ _ z Exy). destruct (c y z) eqn:Eyz; cbn in *; [by eapply Dt|done..].
    + destruct (c y z) eqn:Eyz.
      * rewrite <- (Cer _ _ x Eyz), Exy. done.
      * assert (c x z <> Gt) as Hn by (eapply (Ct x y z); congruence).
        destruct (c x z) eqn:Exz; cbn; [|done..].
        pose proof (Ce _ _ y Exz) as H3. by rewrite Exy, (Ca y z), Eyz in H3.
      * done.
    + done.
  - intros x y z H. destruct (c x y) eqn:Exy; cbn in H; [|done..].
    rewrite (Ce _ _ z Exy), (De _ _ z H). done.
Qed.

Lemma cmp_ok_flip {A} (c : A -> A -> comparison) : cmp_ok c -> cmp_ok (fun x y => c y x).
Proof.
  intros [Ca Ct Ce]. split.
  - intros x y. apply Ca.
  - intros x y z H1 H2. by eapply Ct.
  - intros x y z H. rewrite (Ca y z), (Ca x z). f_equal.
    assert (c x y = Eq) as H' by (rewrite (Ca y x), H; done). by rewrite (Ce _ _ z H').
Qed.

Lemma cmp_ok_on {A B} (f : A -> B) (c : B -> B -> comparison) :
  cmp_ok c -> cmp_ok (fun x y => c (f x) (f y)).
Proof. intros [Ca Ct Ce]. split; intros; eauto. Qed.

Lemma cmp_ok_Z : cmp_ok Z.compare.
Proof.
  split.
  - intros x y. apply Z.compare_antisym.
  - intros x y z. rewrite !Z.compare_ngt_iff. lia.
  - intros x y z ->%Z.compare_eq. done.
Qed.

Lemma cmp_ok_id : cmp_ok ThreadIndex.id_compare.
Proof.
  split.
  - intros [x|] [y|]; cbn; [apply N.compare_antisym|done..].
  - intros [x|] [y|] [z|]; cbn; try done. rewrite !N.compare_ngt_iff. lia.
  - intros [x|] [y|] [z|]; cbn; try done. intros ->%N.compare_eq. done.
Qed.

Lemma cmp_ok_string : cmp_ok String.compare.
Proof.
  split.
  - intros x y. apply String.compare_antisym.
  - intros x y z H1 H2. assert (String.le x z) as H.
    { transitivity y; unfold String.le, String.leb;
        [by destruct (String.compare x y)|by destruct (String.compare y z)]. }
    unfold String.le, String.leb in H. by destruct (String.compare x z).
  - intros x y z ->%String.compare_eq_iff. done.
Qed.

(** ** Newest first *)

Lemma cmp_ok_selected : cmp_ok compare_selected.
Proof.
  unfold compare_selected.
  apply (cmp_ok_then
           (fun l r => then_with (Z.compare (env_timestamp (sel_envelope r)) (env_timestamp (sel_envelope l)))
              (ThreadIndex.id_compare (env_message_id (sel_envelope r)) (env_message_id (sel_envelope l))))
           (fun l r => String.compare (sel_message_key r) (sel_message_key l))).
  - apply (cmp_ok_then
             (fun l r => Z.compare (env_timestamp (sel_envelope r)) (env_timestamp (sel_envelope l)))
             (fun l r => ThreadIndex.id_compare (env_message_id (sel_envelope r))
                           (env_message_id (sel_envelope l)))).
    + apply (cmp_ok_flip (fun l r => Z.compare (env_timestamp (sel_envelope l)) (env_timestamp (sel_envelope r)))),
        (cmp_ok_on (fun m => env_timestamp (sel_envelope m))), cmp_ok_Z.
    + apply (cmp_ok_flip (fun l r => ThreadIndex.id_compare (env_message_id (sel_envelope l)) (env_message_id (sel_envelope r)))),
        (cmp_ok_on (fun m => env_message_id (sel_envelope m))), cmp_ok_id.
  - apply (cmp_ok_flip (fun l r => String.compare (sel_message_key l) (sel_message_key r))),
      (cmp_ok_on sel_message_key), cmp_ok_string.
Qed.

Lemma cmp_ok_total {A} (c : A -> A -> comparison) : cmp_ok c -> forall x y, c x y = Gt -> c y x <> Gt.
Proof. intros [Ca _ _] x y H. by rewrite (Ca x y), H. Qed.

Lemma selected_head_newest l x y :
  head (sort_by compare_selected l) = Some x -> y ∈ l ->
  (env_timestamp (sel_envelope y) <= env_timestamp (sel_envelope x))%Z.
Proof.
  intros Hx Hy.
  destruct (sort_by_head_le compare_selected (cmp_ok_total _ cmp_ok_selected)
              (cmp_le_trans _ cmp_ok_selected) x l y Hx Hy) as [->|H]; [lia|].
  revert H. unfold compare_selected, then_with.
  destruct (Z.compare_spec (env_timestamp (sel_envelope y)) (env_timestamp (sel_envelope x))); [lia..|done].
Qed.

(** ** Selecting the last messages of threads *)
Section Terminals.
Import ThreadIndex.
Context (ms : list InboxMessage).

(** Nothing in the list succeeds a message of the list, ids are unique, and a
    message that adds details has a parent. *)
Hypothesis Hlast : forall m m' i, m ∈ ms -> m' ∈ ms -> env_message_id m = Some i ->
  env_parent_message_id m' <> Some i.
Hypothesis Hunique : forall m m' i, m ∈ ms -> m' ∈ ms -> env_message_id m = Some i ->
  env_message_id m' = Some i -> m = m'.
Hypothesis Hdetails : forall m, m ∈ ms -> env_thread_mode m = Some ThreadMode_AddDetails ->
  is_Some (env_parent_message_id m).

Lemma no_children m i : m ∈ ms -> env_message_id m = Some i -> children (new ms) !! i = None.
Proof.
  intros Hm Hi. rewrite children_new. destruct (filter (has_parent i) ms) as [|m' l] eqn:E; [done|].
  assert (m' ∈ filter (has_parent i) ms) as Hm' by (rewrite E; left).
  apply list_elem_of_filter in Hm' as [Hp Hm']. exfalso. by eapply (Hlast m m').
Qed.

Lemma unique_message m i : m ∈ ms -> env_message_id m = Some i -> message (new ms) i = Some m.
Proof.
  intros Hm Hi. destruct (message_new_is_Some ms i m Hm Hi) as [m' Hm'].
  destruct (message_new_elem _ _ _ Hm') as [Hin Hi']. rewrite Hm'. f_equal. by eapply Hunique.
Qed.

Lemma terminal_of_last m i : m ∈ ms -> env_message_id m = Some i -> terminal_id (new ms) i = Some i.
Proof.
  intros Hm Hi. unfold terminal_id, terminal_fuel. cbn [terminal_loop].
  rewrite bool_decide_eq_false_2 by apply not_elem_of_empty. unfold primary_successor.
  by rewrite (no_children m i).
Qed.

Lemma current_of_last m : m ∈ ms -> is_current (new ms) m = true.
Proof.
  intros Hm. unfold is_current. destruct (env_message_id m) as [i|] eqn:Hi; [|done].
  unfold is_terminal. apply bool_decide_eq_true. by eapply terminal_of_last.
Qed.

Lemma effective_of_last m : m ∈ ms -> effective_display_envelope m (new ms) = m.
Proof.
  intros Hm. unfold effective_display_envelope. destruct (env_message_id m) as [i|] eqn:Hi; [|done].
  unfold is_terminal. rewrite bool_decide_eq_true_2; [done|]. by eapply terminal_of_last.
Qed.

(** The parent of a message of the list is not in the list: no root, no chain. *)
Lemma chain_of_last m i p :
  m ∈ ms -> env_message_id m = Some i -> env_parent_message_id m = Some p ->
  chain_messages (new ms) i = [].
Proof.
  intros Hm Hi Hp. unfold chain_messages. enough (root_id (new ms) i = None) as -> by done.
  unfold root_id, root_fuel. cbn [root_loop]. rewrite (unique_message m i), Hp by done.
  rewrite bool_decide_eq_false_2 by apply not_elem_of_empty.
  assert (message (new ms) p = None) as Hn.
  { apply eq_None_not_Some. intros [m' Hm']. apply message_new_elem in Hm' as [Hm' Hi'].
    by eapply (Hlast m' m). }
  destruct (size (by_id (new ms))) eqn:E; cbn [root_loop]; [done|]. by rewrite Hn.
Qed.

Lemma logical_of_last m i :
  m ∈ ms -> env_message_id m = Some i -> logical_current_envelope (new ms) i = Some m.
Proof.
  intros Hm Hi. unfold logical_current_envelope. rewrite (terminal_of_last m i) by done.
  cbn [mbind option_bind]. rewrite (unique_message m i) by done. cbn [mbind option_bind].
  case_bool_decide as Hmode; [done|].
  destruct (Hdetails m Hm Hmode) as [p Hp]. by rewrite (chain_of_last m i p).
Qed.
End Terminals.

(** What a candidate becomes when it is the last message of its thread. *)
Definition as_classified (index : nat) (c : MailboxSelectionCandidate) : ClassifiedMessage :=
  let class := classify_message (candidate_envelope c) in
  mkClassified index (candidate_message_key c) (display_bucket_for_class class) class
    (candidate_envelope c).

Definition all_last (ms : list InboxMessage) : Prop :=
  (forall m m' i, m ∈ ms -> m' ∈ ms -> env_message_id m = Some i ->
     env_parent_message_id m' <> Some i)
  /\ (forall m m' i, m ∈ ms -> m' ∈ ms -> env_message_id m = Some i ->
        env_message_id m' = Some i -> m = m')
  /\ (forall m, m ∈ ms -> env_thread_mode m = Some ThreadMode_AddDetails ->
        is_Some (env_parent_message_id m)).

Section AllLast.
Context (cs : list MailboxSelectionCandidate).
Hypothesis Hall : all_last (candidate_envelope <$> cs).

Lemma classify_all_last : classify_candidates cs = imap as_classified cs.
Proof.
  destruct Hall as (H1 & H2 & H3). unfold classify_candidates. apply imap_ext.
  intros k c Hc. unfold as_classified. rewrite effective_of_last; [done..|].
  apply list_elem_of_fmap. exists c. split; [done|]. by eapply list_elem_of_lookup_2.
Qed.

Lemma envelopes_all_last : cm_envelope <$> imap as_classified cs = candidate_envelope <$> cs.
Proof. rewrite fmap_imap. apply list_eq. intros k. rewrite list_lookup_imap, list_lookup_fmap. done. Qed.

Lemma logical_all_last : logical_current_messages (imap as_classified cs) = imap as_classified cs.
Proof.
  destruct Hall as (H1 & H2 & H3). unfold logical_current_messages. rewrite envelopes_all_last.
  assert (forall m, m ∈ imap as_classified cs -> cm_envelope m ∈ candidate_envelope <$> cs) as Hin.
  { intros m Hm. rewrite <- envelopes_all_last. by apply list_elem_of_fmap_2. }
  revert Hin. generalize (imap as_classified cs) as l. induction l as [|m l IH]; intros Hin; [done|].
  cbn [List.filter]. rewrite current_of_last; [|done..|apply Hin; left]. rewrite fmap_cons.
  f_equal; [|apply IH; intros x Hx; apply Hin; by right].
  unfold to_logical_current. destruct (env_message_id (cm_envelope m)) as [i|] eqn:Hi; [|done].
  cbn [mbind option_bind].
  rewrite (logical_of_last _ H1 H2 H3 (cm_envelope m) i); [by destruct m|apply Hin; left|done].
Qed.

Context {rt : Runtime}.

Lemma filter_hidden_elem t mode l m : m ∈ filter_hidden t mode l -> m ∈ l.
Proof.
  revert t. induction l as [|x l IH]; intros t; [done|]. cbn [filter_hidden].
  destruct (hidden_for_selection _ _ _).
  - intros H%IH. by right.
  - intros [->|H%IH]%elem_of_cons; [by left|by right].
Qed.

Lemma list_filter_elem {A} (f : A -> bool) l x : x ∈ List.filter f l <-> x ∈ l /\ f x = true.
Proof. rewrite !list_elem_of_In. apply filter_In. Qed.

Lemma apply_filters_elem request l m :
  m ∈ apply_filters request l ->
  m ∈ l /\ matches_participant_filter m (participant_filter request) = true.
Proof.
  unfold apply_filters, apply_task_filter, apply_timestamp_filter, apply_participant_filter,
    apply_sender_filter.
  intros H.
  assert (m ∈ match participant_filter request with
              | Some p => List.filter (fun m => matches_participant_filter m (Some p))
                  (match sender_filter request with
                   | Some sender => filter (fun m => env_from (cm_envelope m) = sender) l
                   | None => l end)
              | None => match sender_filter request with
                   | Some sender => filter (fun m => env_from (cm_envelope m) = sender) l
                   | None => l end
              end) as H1.
  { destruct (task_filter request); [apply list_elem_of_filter in H as [_ H]|];
      (destruct (timestamp_filter request); [apply list_filter_elem in H as [H _]|]); done. }
  destruct (participant_filter request) as [p|].
  - apply list_filter_elem in H1 as [H1 Hp]. split; [|done].
    destruct (sender_filter request); [by apply list_elem_of_filter in H1 as []|done].
  - split; [|done]. destruct (sender_filter request); [by apply list_elem_of_filter in H1 as []|done].
Qed.

(** Every selected message is a candidate, unchanged. *)
Lemma select_all_last t request x :
  x ∈ selected (select_mailbox_candidates t cs request) ->
  exists k c, cs !! k = Some c /\ x = to_selected (as_classified k c)
    /\ matches_participant_filter (as_classified k c) (participant_filter request) = true.
Proof.
  unfold select_mailbox_candidates, select_classified_mailbox_candidates.
  rewrite classify_all_last, logical_all_last.
  assert (forall m, m ∈ imap as_classified cs -> exists k c, cs !! k = Some c /\ m = as_classified k c)
    as Hin.
  { intros m (k & c & -> & Hk)%elem_of_lookup_imap. eauto. }
  destruct (message_id_filter request) as [i|]; cbn [selected]; intros (m & -> & Hm)%list_elem_of_fmap.
  - unfold select_by_id in Hm. apply list_filter_elem in Hm as [Hm _].
    apply list_filter_elem in Hm as [Hm Hp]. apply list_elem_of_filter in Hm as [_ Hm].
    destruct (Hin m Hm) as (k & c & Hk & ->). eauto.
  - unfold apply_selection_mode in Hm. apply list_filter_elem in Hm as [Hm _].
    apply list_filter_elem in Hm as [Hm _]. apply filter_hidden_elem, apply_filters_elem in Hm as [Hm Hp].
    destruct (Hin m Hm) as (k & c & Hk & ->). eauto.
Qed.
End AllLast.

(** ** Selecting everything *)

(** A sorted list is sorted already. *)
Lemma sort_by_sorted {A} (compare : A -> A -> comparison) l :
  Sorted (fun x y => compare x y <> Gt) l -> sort_by compare l = l.
Proof.
  induction 1 as [|x l Hl IH Hx]; [done|]. cbn [sort_by foldr]. fold (sort_by compare l). rewrite IH.
  destruct Hx as [|y l Hy]; [done|]. cbn [insert_by]. by destruct (compare x y).
Qed.

Definition without_filters (request : MailboxSelectionRequest) : Prop :=
  selection_mode request = Selection_All /\ message_id_filter request = None
  /\ sender_filter request = None /\ participant_filter request = None
  /\ timestamp_filter request = None /\ task_filter request = None /\ contains_filter request = None.

Section SelectAll.
Context {rt : Runtime}.

Lemma filter_hidden_none t mode l :
  (forall m, m ∈ l -> env_expires_at (cm_envelope m) = None) -> filter_hidden t mode l = l.
Proof.
  revert t. induction l as [|m l IH]; intros t Hn; [done|]. cbn [filter_hidden].
  unfold hidden_for_selection, is_expired_ephemeral, is_ephemeral. rewrite (Hn m) by left.
  rewrite (bool_decide_eq_false_2 (is_Some None)) by (by intros [? [=]]).
  rewrite andb_false_r. cbn [andb].
  f_equal. apply IH. intros x Hx. apply Hn. by right.
Qed.

Lemma list_filter_true {A} (f : A -> bool) l : (forall x, x ∈ l -> f x = true) -> List.filter f l = l.
Proof.
  induction l as [|x l IH]; intros H; [done|]. cbn [List.filter]. rewrite (H x) by left.
  f_equal. apply IH. intros y Hy. apply H. by right.
Qed.

Definition candidate_selected (c : MailboxSelectionCandidate) : SelectedMailboxMessage :=
  to_selected (as_classified 0 c).

Lemma select_everything t cs request :
  all_last (candidate_envelope <$> cs) -> without_filters request ->
  (forall c, c ∈ cs -> env_expires_at (candidate_envelope c) = None) ->
  selected (select_mailbox_candidates t cs request) = candidate_selected <$> cs.
Proof.
  intros Hall (Hmode & Hid & Hs & Hp & Ht & Hk & Hc) Hexp.
  unfold select_mailbox_candidates, select_classified_mailbox_candidates.
  rewrite Hid, (classify_all_last _ Hall), (logical_all_last _ Hall). cbn [selected].
  unfold apply_filters, apply_task_filter, apply_timestamp_filter, apply_participant_filter,
    apply_sender_filter, apply_selection_mode. rewrite Hs, Hp, Ht, Hk, Hc, Hmode.
  rewrite filter_hidden_none.
  - rewrite (list_filter_true (fun m => message_matches_contains m None)) by done.
    rewrite list_filter_true by (by intros []). rewrite fmap_imap.
    apply list_eq. intros k. rewrite list_lookup_imap, list_lookup_fmap. by destruct (cs !! k).
  - intros m (k & c & -> & Hk')%elem_of_lookup_imap. cbn. apply Hexp. by eapply list_elem_of_lookup_2.
Qed.
End SelectAll.
