(* ===== verification/Transaction.v ===== *)
(** * Transactions of the shared database

    Models [SharedDb::with_transaction] and [SharedDb::read] of
    [crates/atm-storage-rusqlite/src/shared_db.rs]: the store operations outside
    the writer lane run in an immediate transaction of their own, or read one
    snapshot. *)

From S2P Require Import Prelude ErrorCodes Types Database.
From stdpp Require Import base gmap strings list numbers.
Local Open Scope Z_scope.
Local Open Scope string_scope.
Local Open Scope list_scope.

(** Dropping a savepoint: the database of [saved], the clock of [w]. *)
Definition rollback (saved w : World) : World := mkWorld (db saved) (ticks w).

Section Transactions.
Context {rt : Runtime}.

(** [SharedDb::with_transaction]: an error of the operation, or of the commit,
    drops the transaction. *)
Definition with_transaction {A} (operation : M A) : M A :=
  fun w =>
    match control_fault (ticks w) with
    | Some fault => (Err (sqlite_error "failed to open sqlite immediate transaction" fault), tick w)
    | None =>
      match operation (tick w) with
      | (Ok value, w') =>
        match control_fault (ticks w') with
        | Some fault =>
          (Err (sqlite_error "failed to commit sqlite transaction" fault), rollback w (tick w'))
        | None => (Ok value, tick w')
        end
      | (Err e, w') => (Err e, rollback w w')
      | (Panic, w') => (Panic, rollback w w')
      end
    end.

Definition query {A} (context : string) (q : Db -> Outcome RusqliteError A) : M A :=
  d ← get_db;
  match q d with
  | Ok a => mret a
  | Err e => fail (sqlite_error context e)
  | Panic => st_panic
  end.

(** A transaction fails with its database unchanged, because a control statement
    failed, or ends as its body does. *)
Lemma with_transaction_cases {A} (c : M A) w :
  (exists e w', with_transaction c w = (Err e, w') /\ db w' = db w
     /\ exists n fault, control_fault n = Some fault)
  \/ match c (tick w) with
     | (Ok a, w1) => with_transaction c w = (Ok a, tick w1)
     | (Err e, w1) => with_transaction c w = (Err e, rollback w w1)
     | (Panic, w1) => with_transaction c w = (Panic, rollback w w1)
     end.
Proof.
  unfold with_transaction. destruct (control_fault (ticks w)) eqn:Hf; [left; by eauto 10|].
  destruct (c (tick w)) as [[a|e|] w1]; [|by right..].
  destruct (control_fault (ticks w1)) eqn:Hf1; [left|by right].
  eexists _, _. split; [reflexivity|]. split; [done|]. by eexists _, _.
Qed.

(** It commits when the control statements succeed. *)
Lemma with_transaction_ok {A} (c : M A) w a w1 :
  c (tick w) = (Ok a, w1) -> control_fault (ticks w) = None -> control_fault (ticks w1) = None ->
  with_transaction c w = (Ok a, tick w1).
Proof. intros Hc Hf Hf1. unfold with_transaction. by rewrite Hf, Hc, Hf1. Qed.
End Transactions.
