(* ===== verification/Roster.v ===== *)
(** * Team rosters

    Models the roster data and the effective names of
    [crates/atm-storage/src/contract/roster.rs], the name types of [types.rs] it
    uses, the SQLite roster store of
    [crates/atm-storage-rusqlite/src/roster_store.rs], and the alias resolution of
    [crates/atm-core/src/caller_context.rs] and
    [service_runtime/roster_resolution.rs].

    The metadata of a member is a JSON map; its text is a column of
    [team_roster].  [RosterText] is what the code takes from [serde_json] and from
    SQLite's JSON functions. *)

From S2P Require Import Prelude ErrorCodes Types Database Transaction Address Selection.
From stdpp Require Import base gmap strings list numbers pretty.
Local Open Scope string_scope.
Local Open Scope list_scope.

(** ** Data *)

Inductive RosterMemberKind : Set :=
| Permanent
| Ephemeral.

Inductive RosterHarness : Set :=
| ClaudeCode
| CodexCli
| GeminiCli
| Opencode
| Hermes
| PythonGraft.

Inductive AgentType : Set :=
| AgentType_GeneralPurpose
| AgentType_Plan
| AgentType_Lead
| AgentType_Qa
| AgentType_Worker
| AgentType_Unknown (value : string).

#[export] Instance RosterMemberKind_eq_dec : EqDecision RosterMemberKind.
Proof. solve_decision. Defined.
#[export] Instance RosterHarness_eq_dec : EqDecision RosterHarness.
Proof. solve_decision. Defined.
#[export] Instance AgentType_eq_dec : EqDecision AgentType.
Proof. solve_decision. Defined.

(** [From<String> for AgentType]. *)
Definition agent_type_from (value : string) : AgentType :=
  if String.eqb value "general-purpose" then AgentType_GeneralPurpose
  else if String.eqb value "plan" then AgentType_Plan
  else if String.eqb value "lead" then AgentType_Lead
  else if String.eqb value "qa" then AgentType_Qa
  else if String.eqb value "worker" then AgentType_Worker
  else AgentType_Unknown value.

Definition agent_type_as_str (t : AgentType) : string :=
  match t with
  | AgentType_GeneralPurpose => "general-purpose"
  | AgentType_Plan => "plan"
  | AgentType_Lead => "lead"
  | AgentType_Qa => "qa"
  | AgentType_Worker => "worker"
  | AgentType_Unknown value => value
  end.

Record RosterMember : Set := mkRosterMember {
  rm_team_name : TeamName;
  rm_agent_name : AgentName;
  rm_member_kind : RosterMemberKind;
  rm_harness : RosterHarness;
  rm_agent_type : AgentType;
  rm_model : string;
  rm_recipient_pane_id : option string;
  rm_metadata_json : list (string * Value)
}.

Record RosterSnapshot : Set := mkRosterSnapshot {
  rs_team_name : TeamName;
  rs_members : list RosterMember;
  rs_refreshed_at : option IsoTimestamp
}.

(** [ModelName::new]. *)
Definition model_name_new (value : string) : Outcome AtmError string :=
  if Nat.ltb 256 (String.length value)
  then Err (validation "model must be at most 256 bytes")
  else Ok value.

(** [PaneId::new]. *)
Definition pane_id_new (value : string) : Outcome AtmError string :=
  let trimmed := trim value in
  if String.eqb trimmed "" then Err (validation "pane id must not be blank")
  else if Nat.ltb 256 (String.length trimmed)
  then Err (validation "pane id must be at most 256 bytes")
  else Ok trimmed.

(** ** Effective names *)

Record RosterUniqueName : Set := mkRosterUniqueName {
  un_team_name : TeamName;
  un_agent_name : AgentName;
  un_unique_name : string
}.

#[export] Instance RosterUniqueName_eq_dec : EqDecision RosterUniqueName.
Proof. solve_decision. Defined.

(** [metadata_json.get("alias").and_then(Value::as_str).map(str::trim)]. *)
Definition entry_alias (member : RosterMember) : option string :=
  match object_get "alias" (rm_metadata_json member) with
  | Some (Value_String alias) => Some (trim alias)
  | _ => None
  end.

(** [RosterUniqueName::from_member]. *)
Definition from_member (member : RosterMember) : RosterUniqueName :=
  mkRosterUniqueName (rm_team_name member) (rm_agent_name member)
    match entry_alias member with
    | Some alias => if String.eqb alias "" then rm_agent_name member else alias
    | None => rm_agent_name member
    end.

Definition compare_unique_names (l r : RosterUniqueName) : comparison :=
  then_with
    (then_with (String.compare (un_unique_name l) (un_unique_name r))
               (String.compare (un_team_name l) (un_team_name r)))
    (String.compare (un_agent_name l) (un_agent_name r)).

(** The runs of one name in a sorted list. *)
Fixpoint name_runs (sorted : list RosterUniqueName) : list (list RosterUniqueName) :=
  match sorted with
  | [] => []
  | x :: rest =>
    match name_runs rest with
    | (y :: run) :: runs =>
      if String.eqb (un_unique_name x) (un_unique_name y) then (x :: y :: run) :: runs
      else [x] :: (y :: run) :: runs
    | runs => [x] :: runs
    end
  end.

Definition roster_unique_name_collisions (names : list RosterUniqueName) : list RosterUniqueName :=
  concat (List.filter (fun run => Nat.ltb 1 (length run))
            (name_runs (sort_by compare_unique_names names))).

Definition roster_write_delta (persisted proposed : list RosterUniqueName)
    : list RosterUniqueName :=
  List.filter (fun p =>
    match List.find (fun q => String.eqb (un_team_name q) (un_team_name p)
                              && String.eqb (un_agent_name q) (un_agent_name p)) persisted with
    | None => true
    | Some q => negb (String.eqb (un_unique_name q) (un_unique_name p))
    end) proposed.

Definition mem_string (s : string) (l : list string) : bool := existsb (String.eqb s) l.

Definition team_scoped_roster_unique_name_collisions (collisions : list RosterUniqueName)
    (team : TeamName) : list RosterUniqueName :=
  let scoped :=
    un_unique_name <$> List.filter (fun c => String.eqb (un_team_name c) team) collisions in
  List.filter (fun c => mem_string (un_unique_name c) scoped) collisions.

(** The collisions of the names [all] that a name of [written] takes part in. *)
Definition written_collisions (written all : list RosterUniqueName) : list RosterUniqueName :=
  let all_collisions := roster_unique_name_collisions all in
  let written_collision_names :=
    un_unique_name <$> List.filter (fun c => bool_decide (c ∈ written)) all_collisions in
  List.filter (fun c => mem_string (un_unique_name c) written_collision_names) all_collisions.

(** [slice::join]. *)
Definition join (separator : string) (pieces : list string) : string :=
  String.concat separator pieces.

Definition roster_unique_name_collision_error (collisions : list RosterUniqueName) : AtmError :=
  let names := sort_by String.compare (remove_dups (un_unique_name <$> collisions)) in
  let detail name :=
    "`" +:+ name +:+ "`: "
    +:+ join ", " ((fun c => "(" +:+ un_team_name c +:+ ", " +:+ un_agent_name c +:+ ")")
                   <$> List.filter (fun c => String.eqb (un_unique_name c) name) collisions) in
  validation ("roster unique-name collision(s): " +:+ join "; " (detail <$> names)
              +:+ "; choose a distinct --alias for one conflicting member").

(** ** Aliases at ingress *)

Definition has_alias (candidate : AgentName) (member : RosterMember) : bool :=
  bool_decide (entry_alias member = Some candidate).

(** [resolve_roster_alias_with_owner] of [caller_context.rs]. *)
Definition resolve_roster_alias_with_owner (candidate : AgentName) (addressed_team : TeamName)
    (addressed_roster all_rosters : list RosterMember) (allow_database_wide_alias : bool)
    : TeamName * AgentName :=
  if existsb (fun member => String.eqb (rm_agent_name member) candidate) addressed_roster
  then (addressed_team, candidate)
  else
    match List.find (has_alias candidate) addressed_roster with
    | Some member => (addressed_team, rm_agent_name member)
    | None =>
      match (if allow_database_wide_alias then List.find (has_alias candidate) all_rosters
             else None) with
      | Some member => (rm_team_name member, rm_agent_name member)
      | None => (addressed_team, candidate)
      end
    end.

Definition resolve_roster_alias (candidate : AgentName) (team : TeamName)
    (roster : list RosterMember) : AgentName :=
  (resolve_roster_alias_with_owner candidate team roster roster false).2.

(** [resolve_retained_roster_member_at_ingress] over the roster mirror, the
    entries of all teams. *)
Definition resolve_roster_member_at_ingress (roster : list RosterMember) (addressed_team : TeamName)
    (candidate : AgentName) (allow_database_wide_alias : bool) : option (TeamName * AgentName) :=
  let addressed_roster := filter (fun m => rm_team_name m = addressed_team) roster in
  let all_rosters := if allow_database_wide_alias then roster else [] in
  let '(team, canonical) :=
    resolve_roster_alias_with_owner candidate addressed_team addressed_roster all_rosters
      allow_database_wide_alias in
  if existsb (fun m => String.eqb (rm_team_name m) team
                       && String.eqb (rm_agent_name m) canonical) roster
  then Some (team, canonical) else None.

(** ** Columns *)

Definition roster_member_kind_value (kind : RosterMemberKind) : string :=
  match kind with Permanent => "permanent" | Ephemeral => "ephemeral" end.

Definition roster_harness_value (harness : RosterHarness) : string :=
  match harness with
  | ClaudeCode => "claude-code"
  | CodexCli => "codex-cli"
  | GeminiCli => "gemini-cli"
  | Opencode => "opencode"
  | Hermes => "hermes"
  | PythonGraft => "python-graft"
  end.

Definition parse_member_kind (raw : string) : Outcome AtmError RosterMemberKind :=
  if String.eqb raw "permanent" then Ok Permanent
  else if String.eqb raw "ephemeral" then Ok Ephemeral
  else Err (validation ("failed to parse canonical team-roster member_kind `" +:+ raw +:+ "`")).

Definition parse_harness (raw : string) : Outcome AtmError RosterHarness :=
  if String.eqb raw "claude-code" then Ok ClaudeCode
  else if String.eqb raw "codex-cli" then Ok CodexCli
  else if String.eqb raw "gemini-cli" then Ok GeminiCli
  else if String.eqb raw "opencode" then Ok Opencode
  else if String.eqb raw "hermes" then Ok Hermes
  else if String.eqb raw "python-graft" then Ok PythonGraft
  else Err (validation ("failed to parse canonical team-roster harness `" +:+ raw +:+ "`")).

Class RosterText : Type := mkRosterText {
  metadata_to_string : list (string * Value) -> string;  (* serde_json::to_string of a map *)
  metadata_cause : string -> string;   (* serde's error on a text that is no map *)
  json_extract_text : Value -> string  (* SQLite's text of a boolean, number, array or object *)
}.

(** A map that was read from JSON is printed to a text that reads as the same map. *)
Class RosterTextOk (rt : Runtime) (tx : RosterText) : Prop := {
  metadata_read_back : forall text m,
    json_from_str text = Some (Value_Object m) ->
    json_from_str (metadata_to_string m) = Some (Value_Object m)
}.

(** SQLite's [TRIM]: spaces only. *)
Definition sql_trim (s : string) : string :=
  let strip l := strip_all (length l) [[32]] l in
  String.string_of_list_ascii
    (reverse (strip (reverse (strip (String.list_ascii_of_string s))))).

Abbreviation RosterRow := ((TeamName * AgentName) * RosterSqlRow)%type (only parsing).

Definition MAX_CANONICAL_ROSTER_MEMBERS : nat := 4096.

Section Store.
Context {rt : Runtime} {tx : RosterText}.

(** [json_extract(metadata_json, '$.alias')], trimmed; a text that is no JSON is
    an error of the statement. *)
Definition sql_alias (metadata_json : string) : Outcome RusqliteError (option string) :=
  match json_from_str metadata_json with
  | None => Err (SqliteFailure OtherErrorCode)
  | Some metadata =>
    Ok match value_get metadata "alias" with
       | None | Some Value_Null => None
       | Some (Value_String alias) => Some (sql_trim alias)
       | Some value => Some (sql_trim (json_extract_text value))
       end
  end.

(** [COALESCE(NULLIF(TRIM(..), ''), agent_name)]. *)
Definition sql_unique_name (agent_name : string) (alias : option string) : string :=
  match alias with
  | Some a => if String.eqb a "" then agent_name else a
  | None => agent_name
  end.

Definition compare_roster_keys (l r : RosterRow) : comparison :=
  then_with (String.compare l.1.1 r.1.1) (String.compare l.1.2 r.1.2).

(** [ORDER BY team_name ASC, agent_name ASC]. *)
Definition roster_rows (d : Db) : list RosterRow :=
  sort_by compare_roster_keys (map_to_list (team_roster d)).

Definition read_unique_name (row : RosterRow) : Outcome AtmError RosterUniqueName :=
  let '((team_name, agent_name), r) := row in
  match sql_alias (r_metadata_json r) with
  | Err e => Err (sqlite_error "failed to decode database-wide roster unique-name row" e)
  | Panic => Panic
  | Ok alias =>
    match team_name_from_str team_name with
    | Err e => Err (validation ("failed to parse roster unique-name team `" +:+ team_name
                                +:+ "`: " +:+ message e))
    | Panic => Panic
    | Ok team =>
      match agent_name_from_str agent_name with
      | Err e => Err (validation ("failed to parse roster unique-name member `" +:+ agent_name
                                  +:+ "`: " +:+ message e))
      | Panic => Panic
      | Ok agent => Ok (mkRosterUniqueName team agent (sql_unique_name agent_name alias))
      end
    end
  end.

Definition load_unique_names : M (list RosterUniqueName) :=
  d ← get_db;
  lift (collect (read_unique_name <$> roster_rows d)).

Definition enforce_roster_unique_names (roster : RosterSnapshot) : M unit :=
  names ← load_unique_names;
  let proposed_names := from_member <$> rs_members roster in
  if bool_decide (NoDup ((fun p => (un_team_name p, un_agent_name p)) <$> proposed_names)) then
    let written_names := roster_write_delta names proposed_names in
    match written_names with
    | [] => mret tt
    | _ :: _ =>
      let retained :=
        List.filter (fun p => negb (String.eqb (un_team_name p) (rs_team_name roster))) names in
      match written_collisions written_names (retained ++ proposed_names) with
      | [] => mret tt
      | collisions => fail (roster_unique_name_collision_error collisions)
      end
    end
  else
    match roster_unique_name_collisions proposed_names with
    | [] => fail (validation
        ("roster-store replace rejected team " +:+ rs_team_name roster
         +:+ " because the proposed roster contains the same member more than once; remove the duplicate (team, agent_name) entry from the roster payload before replace_roster"))
    | collisions => fail (roster_unique_name_collision_error collisions)
    end.

Definition build_roster_member (team : TeamName) (agent_name : string) (row : RosterSqlRow)
    : Outcome AtmError RosterMember :=
  agent ←
    match agent_name_from_str agent_name with
    | Err e => Err (validation ("failed to parse canonical team-roster agent_name `"
                                +:+ agent_name +:+ "`: " +:+ message e))
    | o => o
    end;
  metadata ←
    match json_from_str (r_metadata_json row) with
    | Some (Value_Object m) => Ok m
    | _ => Err (with_cause (validation "failed to decode team-roster metadata")
                  (metadata_cause (r_metadata_json row)))
    end;
  model ←
    (if String.eqb (r_model row) "" then Ok ""
     else match model_name_new (r_model row) with
          | Err e => Err (validation ("failed to parse canonical team-roster model: "
                                      +:+ message e))
          | o => o
          end);
  pane ←
    option_traverse (fun pane =>
      match pane_id_new pane with
      | Err e => Err (validation ("failed to parse canonical team-roster recipient_pane_id `"
                                  +:+ pane +:+ "`: " +:+ message e))
      | o => o
      end) (r_recipient_pane_id row);
  kind ← parse_member_kind (r_member_kind row);
  harness ← parse_harness (r_harness row);
  Ok (mkRosterMember team agent kind harness (agent_type_from (r_agent_type row)) model pane
        metadata).

(** The rows of a team in the order of its agents, at most one more than the cap. *)
Definition team_rows (team : TeamName) (d : Db) : list RosterRow :=
  take (S MAX_CANONICAL_ROSTER_MEMBERS)
    (List.filter (fun row => String.eqb row.1.1 team) (roster_rows d)).

Definition load_roster (team : TeamName) : M RosterSnapshot :=
  d ← get_db;
  members ← lift (collect ((fun row => build_roster_member team row.1.2 row.2)
                           <$> team_rows team d));
  if Nat.ltb MAX_CANONICAL_ROSTER_MEMBERS (length members)
  then fail (validation ("roster-store load rejected team " +:+ team
         +:+ " because persisted roster rows exceeded the canonical cap of "
         +:+ pretty MAX_CANONICAL_ROSTER_MEMBERS))
  else mret (mkRosterSnapshot team members None).

(** One [INSERT INTO team_roster]; the key is the primary key. *)
Definition insert_roster_member (team : TeamName) (updated_at : IsoTimestamp)
    (member : RosterMember) : M unit :=
  if String.eqb (rm_team_name member) team then
    d ← get_db;
    match team_roster d !! (team, rm_agent_name member) with
    | Some _ => fail (sqlite_error "failed to replace canonical team-roster member"
                        (SqliteFailure ConstraintViolation))
    | None =>
      put_db (set_team_roster
        (<[(team, rm_agent_name member) :=
             mkRosterSqlRow (roster_member_kind_value (rm_member_kind member))
               (roster_harness_value (rm_harness member))
               (agent_type_as_str (rm_agent_type member)) (rm_model member)
               (metadata_to_string (rm_metadata_json member)) None
               (rm_recipient_pane_id member) updated_at]> (team_roster d)) d)
    end
  else
    fail (validation ("roster-store replace rejected member " +:+ rm_agent_name member
      +:+ " because team_name " +:+ rm_team_name member +:+ " did not match request team "
      +:+ team)).

Fixpoint insert_roster_members (team : TeamName) (updated_at : IsoTimestamp)
    (members : list RosterMember) : M unit :=
  match members with
  | [] => mret tt
  | member :: rest =>
    _ ← insert_roster_member team updated_at member;
    insert_roster_members team updated_at rest
  end.

(** [DELETE FROM team_roster WHERE team_name = ?1]. *)
Definition clear_team_roster (team : TeamName) : M unit :=
  d ← get_db;
  put_db (set_team_roster (filter (fun kr => kr.1.1 <> team) (team_roster d)) d).

Definition save_roster (roster : RosterSnapshot) : M unit :=
  let team := rs_team_name roster in
  if Nat.ltb MAX_CANONICAL_ROSTER_MEMBERS (length (rs_members roster)) then
    fail (validation ("roster-store replace rejected team " +:+ team +:+ " because "
      +:+ pretty (length (rs_members roster)) +:+ " members exceeds the canonical roster cap of "
      +:+ pretty MAX_CANONICAL_ROSTER_MEMBERS))
  else
    updated_at ← now;
    with_transaction (
      _ ← enforce_roster_unique_names roster;
      _ ← clear_team_roster team;
      insert_roster_members team updated_at (rs_members roster)).

Definition parse_roster_team (raw : string) : Outcome AtmError TeamName :=
  match team_name_from_str raw with
  | Err e => Err (validation ("failed to parse canonical roster team_name `" +:+ raw +:+ "`: "
                              +:+ message e))
  | o => o
  end.

Definition list_teams : M (list TeamName) :=
  d ← get_db;
  lift (collect (parse_roster_team <$> remove_dups ((fun row => row.1.1) <$> roster_rows d))).

End Store.

(** * Facts about the roster store

    The collisions of effective names, what a replaced roster holds, and that a
    stored member reads back. *)

From S2P Require Import Threading Selection.
From stdpp Require Import base gmap strings numbers sorting pretty list.

(** ** Collisions *)

Definition same_name (p q : RosterUniqueName) : bool :=
  String.eqb (un_unique_name q) (un_unique_name p).

Definition name_le (p q : RosterUniqueName) : Prop :=
  String.compare (un_unique_name p) (un_unique_name q) <> Gt.

Lemma cmp_ok_unique_names : cmp_ok compare_unique_names.
Proof.
  unfold compare_unique_names.
  apply (cmp_ok_then (fun l r => then_with (String.compare (un_unique_name l) (un_unique_name r))
                                           (String.compare (un_team_name l) (un_team_name r)))
           (fun l r => String.compare (un_agent_name l) (un_agent_name r)));
    [apply (cmp_ok_then (fun l r => String.compare (un_unique_name l) (un_unique_name r))
              (fun l r => String.compare (un_team_name l) (un_team_name r)))|].
  - apply (cmp_ok_on un_unique_name), cmp_ok_string.
  - apply (cmp_ok_on un_team_name), cmp_ok_string.
  - apply (cmp_ok_on un_agent_name), cmp_ok_string.
Qed.

Lemma sorted_names l : StronglySorted name_le (sort_by compare_unique_names l).
Proof.
  pose proof (sort_by_ordered compare_unique_names (cmp_ok_total _ cmp_ok_unique_names)
    (cmp_le_trans _ cmp_ok_unique_names) l) as H. unfold ordered in H.
  induction H as [|x l' _ IH Hf]; constructor; [done|].
  eapply Forall_impl; [exact Hf|]. intros y Hy. unfold name_le, compare_unique_names in *.
  by destruct (String.compare (un_unique_name x) (un_unique_name y)).
Qed.

Lemma name_le_antisym p q : name_le p q -> name_le q p -> un_unique_name p = un_unique_name q.
Proof.
  unfold name_le. intros H1 H2. rewrite (String.compare_antisym (un_unique_name q)) in H2.
  destruct (String.compare (un_unique_name p) (un_unique_name q)) eqn:E; cbn in *; [|done..].
  by apply String.compare_eq_iff.
Qed.

Lemma name_runs_concat l : concat (name_runs l) = l.
Proof.
  induction l as [|x l IH]; [done|]. cbn [name_runs].
  destruct (name_runs l) as [|[|y run] runs]; cbn in *; [by subst|by rewrite IH|].
  destruct (String.eqb _ _); cbn; by rewrite IH.
Qed.

(** A run is the part of the list with one name; runs have different names. *)
Definition run_of (l run : list RosterUniqueName) : Prop :=
  exists x r, run = x :: r /\ run = List.filter (same_name x) l.

Definition run_name (run : list RosterUniqueName) : option string := un_unique_name <$> head run.

Lemma same_name_refl x : same_name x x = true.
Proof. apply String.eqb_refl. Qed.

Lemma same_name_iff x y : same_name x y = true <-> un_unique_name y = un_unique_name x.
Proof. apply String.eqb_eq. Qed.

Lemma run_of_cons_other x l run :
  run_of l run -> run_name run <> Some (un_unique_name x) -> run_of (x :: l) run.
Proof.
  intros (y & r & -> & Hr) Hn. exists y, r. split; [done|]. cbn [List.filter].
  destruct (same_name y x) eqn:E; [|done]. apply same_name_iff in E. cbn in Hn. congruence.
Qed.

Lemma name_runs_spec l :
  StronglySorted name_le l ->
  NoDup (run_name <$> name_runs l) /\ Forall (run_of l) (name_runs l).
Proof.
  induction 1 as [|x l Hs [IHn IHr] Hx]; [split; constructor|]. cbn [name_runs].
  pose proof (name_runs_concat l) as Hc.
  destruct (name_runs l) as [|[|y run] runs].
  - cbn in Hc. subst l. split; [apply NoDup_singleton|]. constructor; [|constructor].
    exists x, []. split; [done|]. cbn. by rewrite same_name_refl.
  - apply Forall_cons_1 in IHr as [(? & ? & ? & _) _]. done.
  - rewrite fmap_cons in IHn. apply NoDup_cons in IHn as [Hnin IHn].
    apply Forall_cons_1 in IHr as [Hrun IHr]. cbn in Hc.
    assert (y ∈ l) as Hyl by (subst l; set_solver).
    destruct (String.eqb_spec (un_unique_name x) (un_unique_name y)) as [E|E].
    + split.
      * rewrite fmap_cons. apply NoDup_cons. split; [|done]. by cbn; rewrite E.
      * constructor.
        { destruct Hrun as (y' & r & [= <- <-] & Hr). exists x, (y :: run). split; [done|].
          cbn [List.filter]. rewrite same_name_refl. f_equal. rewrite Hr.
          apply List.filter_ext. intros z. unfold same_name. by rewrite E. }
        { apply Forall_forall. intros r Hr. rewrite Forall_forall in IHr.
          apply run_of_cons_other; [by apply IHr|]. intros Hn. apply Hnin.
          cbn. rewrite <- E, <- Hn. by apply list_elem_of_fmap_2. }
    + assert (forall z, z ∈ l -> un_unique_name z <> un_unique_name x) as Hne.
      { intros z Hz Ez. apply E. apply name_le_antisym.
        - rewrite Forall_forall in Hx. by apply Hx.
        - subst l. inversion Hs as [|? ? _ Hy]; subst. unfold name_le. rewrite <- Ez.
          apply elem_of_cons in Hz as [->|Hz]; [congruence|].
          by apply (proj1 (Forall_forall _ _) Hy). }
      assert (forall r, run_of l r -> run_name r <> Some (un_unique_name x)) as Hrn.
      { intros r (z & r' & -> & Hz) [= Ez]. apply (Hne z); [|done].
        assert (z ∈ List.filter (same_name z) l) as Hin by (rewrite <- Hz; set_solver).
        by apply list_filter_elem in Hin as [? _]. }
      split.
      * rewrite fmap_cons. apply NoDup_cons. split.
        { intros (r & Hr & Hin)%list_elem_of_fmap. apply (Hrn r); [|done].
          apply elem_of_cons in Hin as [->|Hin]; [done|]. rewrite Forall_forall in IHr. by apply IHr. }
        { rewrite fmap_cons. apply NoDup_cons. done. }
      * constructor.
        { exists x, []. split; [done|]. cbn [List.filter]. rewrite same_name_refl. f_equal.
          symmetry. destruct (List.filter (same_name x) l) as [|z r] eqn:F; [done|].
          assert (z ∈ List.filter (same_name x) l) as Hin by (rewrite F; set_solver).
          apply list_filter_elem in Hin as [Hz Ez%same_name_iff]. by destruct (Hne z Hz). }
        { constructor; [by apply run_of_cons_other, Hrn|].
          eapply Forall_impl; [exact IHr|]. intros r Hr. by apply run_of_cons_other, Hrn. }
Qed.

(** A name collides when the list has more than one entry with it. *)
Definition collides (names : list RosterUniqueName) (p : RosterUniqueName) : Prop :=
  1 < length (List.filter (same_name p) names).

#[export] Instance collides_dec names p : Decision (collides names p).
Proof. unfold collides. apply _. Defined.

Lemma filter_same_length x names names' :
  names ≡ₚ names' -> length (List.filter (same_name x) names) = length (List.filter (same_name x) names').
Proof.
  induction 1 as [|y l l' _ IH|y z l|l1 l2 l3 _ IH1 _ IH2]; cbn; [done|..|congruence].
  - destruct (same_name x y); cbn; congruence.
  - by destruct (same_name x y), (same_name x z).
Qed.

Lemma collides_perm names names' p : names ≡ₚ names' -> collides names p <-> collides names' p.
Proof. intros H. unfold collides. by rewrite (filter_same_length p _ _ H). Qed.

Lemma elem_of_collisions names p :
  p ∈ roster_unique_name_collisions names <-> p ∈ names /\ collides names p.
Proof.
  unfold roster_unique_name_collisions. set (sorted := sort_by compare_unique_names names).
  assert (sorted ≡ₚ names) as Hp by apply sort_by_perm.
  rewrite <- Hp at 1. rewrite <- (collides_perm _ _ p Hp).
  pose proof (proj2 (name_runs_spec _ (sorted_names names))) as Hruns. fold sorted in Hruns.
  rewrite Forall_forall in Hruns. rewrite <- (name_runs_concat sorted) at 2.
  rewrite !list_elem_of_In, !in_concat. split.
  - intros (run & Hr & Hp'). apply filter_In in Hr as [Hr Hl%Nat.ltb_lt].
    split; [by exists run|]. destruct (Hruns run) as (x & r & Hx & Hf); [by apply list_elem_of_In|].
    unfold collides. assert (p ∈ run) as Hin by by apply list_elem_of_In. rewrite Hf in Hin.
    apply list_filter_elem in Hin as [_ E%same_name_iff].
    rewrite (filter_ext (same_name p) (same_name x)); [by rewrite <- Hf|].
    intros z. unfold same_name. by rewrite E.
  - intros [(run & Hr & Hp') Hc]. exists run. split; [|done]. apply filter_In. split; [done|].
    apply Nat.ltb_lt. destruct (Hruns run) as (x & r & Hx & Hf); [by apply list_elem_of_In|].
    assert (p ∈ run) as Hin by by apply list_elem_of_In. rewrite Hf in Hin |- *.
    apply list_filter_elem in Hin as [_ E%same_name_iff]. unfold collides in Hc.
    rewrite (filter_ext (same_name x) (same_name p)); [done|].
    intros z. unfold same_name. by rewrite E.
Qed.

Lemma mem_string_iff s l : mem_string s l = true <-> s ∈ l.
Proof.
  unfold mem_string. rewrite existsb_exists. split.
  - intros (x & Hx%list_elem_of_In & ->%String.eqb_eq). done.
  - intros H. exists s. split; [by apply list_elem_of_In|apply String.eqb_refl].
Qed.

(** Nothing is reported exactly when no written name collides. *)
Lemma written_collisions_nil written all :
  (forall p, p ∈ written -> p ∈ all) ->
  written_collisions written all = [] <-> forall p, p ∈ written -> ~ collides all p.
Proof.
  intros Hsub. unfold written_collisions. split.
  - intros Hnil p Hp Hc.
    assert (p ∈ roster_unique_name_collisions all) as Hin by (apply elem_of_collisions; auto).
    assert (p ∈ ([] : list RosterUniqueName)) as Hno; [|by apply not_elem_of_nil in Hno].
    rewrite <- Hnil. apply list_filter_elem. split; [done|]. apply mem_string_iff.
    apply list_elem_of_fmap_2, list_filter_elem. split; [done|]. by apply bool_decide_eq_true.
  - intros Hno. destruct (List.filter _ _) as [|c l] eqn:E; [done|].
    assert (c ∈ c :: l) as Hc by set_solver. rewrite <- E in Hc.
    apply list_filter_elem in Hc as [Hc Hm%mem_string_iff].
    apply list_elem_of_fmap in Hm as (p & Hn & Hp). apply list_filter_elem in Hp as [Hp Hw].
    apply bool_decide_eq_true in Hw. apply elem_of_collisions in Hp as [_ Hp].
    by destruct (Hno p Hw).
Qed.

Lemma elem_of_write_delta persisted proposed p :
  p ∈ roster_write_delta persisted proposed -> p ∈ proposed.
Proof. unfold roster_write_delta. rewrite list_filter_elem. by intros [? _]. Qed.

(** A proposed name that is not written is a persisted one. *)
Lemma unwritten_persisted persisted proposed p :
  p ∈ proposed -> p ∉ roster_write_delta persisted proposed -> p ∈ persisted.
Proof.
  unfold roster_write_delta. rewrite list_filter_elem. intros Hp Hn.
  destruct (List.find _ persisted) as [q|] eqn:F; [|by destruct Hn].
  destruct (String.eqb_spec (un_unique_name q) (un_unique_name p)) as [E|E]; [|by destruct Hn].
  apply find_some in F as [Hq [Ht%String.eqb_eq Ha%String.eqb_eq]%andb_true_iff].
  destruct p, q; cbn in *; subst. by apply list_elem_of_In.
Qed.

(** Two entries of one name make it collide. *)
Lemma two_collide names p q :
  p ∈ names -> q ∈ names -> p <> q -> un_unique_name p = un_unique_name q -> collides names p.
Proof.
  intros Hp Hq Hne E. unfold collides.
  assert (p ∈ List.filter (same_name p) names) as H1
    by (apply list_filter_elem; split; [done|apply same_name_refl]).
  assert (q ∈ List.filter (same_name p) names) as H2
    by (apply list_filter_elem; split; [done|by apply same_name_iff]).
  destruct (List.filter (same_name p) names) as [|x [|y l]]; cbn; [set_solver| |lia].
  apply list_elem_of_singleton in H1, H2. congruence.
Qed.

(** A list without repeated entries whose written names do not collide, and whose
    other names come from a list without repeated names, has none either. *)
Lemma names_stay_unique (written old all : list RosterUniqueName) :
  NoDup all -> NoDup (un_unique_name <$> old) ->
  (forall p, p ∈ all -> p ∈ written \/ p ∈ old) ->
  (forall p, p ∈ written -> ~ collides all p) ->
  NoDup (un_unique_name <$> all).
Proof.
  intros Hall Hold Hsplit Hw. apply NoDup_fmap_2_strong; [|done]. intros p q Hp Hq E.
  destruct (decide (p = q)) as [|Hne]; [done|].
  assert (collides all p) as Hcp by by eapply two_collide.
  assert (collides all q) as Hcq by by eapply (two_collide _ q p); eauto.
  destruct (Hsplit p Hp) as [Hp'|Hp']; [by destruct (Hw p Hp')|].
  destruct (Hsplit q Hq) as [Hq'|Hq']; [by destruct (Hw q Hq')|].
  apply list_elem_of_lookup in Hp' as [i Hi]. apply list_elem_of_lookup in Hq' as [j Hj].
  assert (i = j) as ->; [|congruence].
  eapply NoDup_lookup; [exact Hold| |]; rewrite list_lookup_fmap;
    [by rewrite Hi|by rewrite Hj, E].
Qed.

(** ** Members as rows *)

Section Members.
Context {rt : Runtime} {tx : RosterText}.

(** The row of a member. *)
Definition roster_row (updated_at : IsoTimestamp) (m : RosterMember) : RosterSqlRow :=
  mkRosterSqlRow (roster_member_kind_value (rm_member_kind m)) (roster_harness_value (rm_harness m))
    (agent_type_as_str (rm_agent_type m)) (rm_model m) (metadata_to_string (rm_metadata_json m))
    None (rm_recipient_pane_id m) updated_at.

(** What the newtypes of a member guarantee: a valid name, model and pane, a kind
    of agent in its own spelling, and metadata that came from JSON. *)
Record member_ok (m : RosterMember) : Prop := {
  mo_team : segment_ok (rm_team_name m);
  mo_agent : segment_ok (rm_agent_name m);
  mo_type : agent_type_from (agent_type_as_str (rm_agent_type m)) = rm_agent_type m;
  mo_model : model_name_new (rm_model m) = Ok (rm_model m);
  mo_pane : forall p, rm_recipient_pane_id m = Some p -> pane_id_new p = Ok p;
  mo_metadata : exists text, json_from_str text = Some (Value_Object (rm_metadata_json m))
}.

Context {txok : RosterTextOk rt tx}.

Lemma row_reads_back at_ m :
  member_ok m ->
  build_roster_member (rm_team_name m) (rm_agent_name m) (roster_row at_ m) = Ok m.
Proof.
  intros [Ht Ha Hy Hm Hp (text & Hj)]. unfold build_roster_member, roster_row. cbn [r_metadata_json
    r_model r_recipient_pane_id r_member_kind r_harness r_agent_type].
  unfold agent_name_from_str. rewrite (parse_segment_ok _ _ Ha). cbn [mbind outcome_mbind outcome_bind].
  rewrite (metadata_read_back _ _ Hj). cbn [mbind outcome_mbind outcome_bind].
  assert ((if String.eqb (rm_model m) "" then Ok "" : Outcome AtmError string
           else match model_name_new (rm_model m) with
                | Err e => Err (validation ("failed to parse canonical team-roster model: "
                                            +:+ message e))
                | o => o
                end) = Ok (rm_model m)) as ->.
  { destruct (String.eqb_spec (rm_model m) "") as [->|_]; [done|]. by rewrite Hm. }
  cbn [mbind outcome_mbind outcome_bind].
  destruct (rm_recipient_pane_id m) as [p|] eqn:Ep; cbn [option_traverse];
    [rewrite (Hp p eq_refl)|]; cbn [mbind outcome_mbind outcome_bind];
    destruct m as [? ? k h ? ? ? ?], k, h; cbn in *; by rewrite Hy, ?Ep; subst.
Qed.

(** ** Replacing a roster *)

Definition put_members (team : TeamName) (at_ : IsoTimestamp) (members : list RosterMember)
    (t : gmap (TeamName * AgentName) RosterSqlRow) : gmap (TeamName * AgentName) RosterSqlRow :=
  foldl (fun t m => <[(team, rm_agent_name m) := roster_row at_ m]> t) t members.

Lemma put_members_lookup team at_ members t team' a :
  NoDup (rm_agent_name <$> members) ->
  put_members team at_ members t !! (team', a)
  = match List.find (fun m => String.eqb (rm_agent_name m) a) members with
    | Some m => if bool_decide (team' = team) then Some (roster_row at_ m) else t !! (team', a)
    | None => t !! (team', a)
    end.
Proof.
  revert t. induction members as [|m ms IH]; intros t Hn; [done|]. rewrite fmap_cons in Hn.
  apply NoDup_cons in Hn as [Hnin Hn]. cbn [put_members foldl List.find].
  fold (put_members team at_ ms (<[(team, rm_agent_name m) := roster_row at_ m]> t)).
  rewrite (IH _ Hn). destruct (String.eqb_spec (rm_agent_name m) a) as [<-|Hne].
  - destruct (List.find _ ms) as [m'|] eqn:F.
    + apply find_some in F as [Hin Heq%String.eqb_eq]. destruct Hnin. rewrite <- Heq.
      apply list_elem_of_fmap_2. by apply list_elem_of_In.
    + case_bool_decide; [subst; by rewrite lookup_insert_eq|rewrite lookup_insert_ne; congruence].
  - assert (<[(team, rm_agent_name m) := roster_row at_ m]> t !! (team', a) = t !! (team', a)) as ->
      by (apply lookup_insert_ne; congruence). done.
Qed.

Definition fresh_members (team : TeamName) (members : list RosterMember)
    (t : gmap (TeamName * AgentName) RosterSqlRow) : Prop :=
  Forall (fun m => t !! (team, rm_agent_name m) = None) members.

Lemma run_put_db d w : put_db d w = (Ok tt, mkWorld d (ticks w)).
Proof. done. Qed.

(** The members go in when they are of the team, different, and not there yet. *)
Lemma insert_roster_members_run team at_ members w :
  Forall (fun m => rm_team_name m = team) members -> NoDup (rm_agent_name <$> members) ->
  fresh_members team members (team_roster (db w)) ->
  insert_roster_members team at_ members w
  = (Ok tt, with_db (fun d => set_team_roster (put_members team at_ members (team_roster d)) d) w).
Proof.
  revert w. induction members as [|m ms IH]; intros w Ht Hn Hf; cbn [insert_roster_members].
  { destruct w as [[] ?]; done. }
  apply Forall_cons_1 in Ht as [Hm Ht]. rewrite fmap_cons in Hn. apply NoDup_cons in Hn as [Hnin Hn].
  apply Forall_cons_1 in Hf as [Hfm Hf].
  erewrite run_bind.
  2:{ unfold insert_roster_member. rewrite Hm, String.eqb_refl. run run_get_db. rewrite Hfm.
      apply run_put_db. }
  rewrite IH; [|done|done|].
  - unfold with_db. cbn. done.
  - unfold fresh_members in *. rewrite Forall_forall in Hf |- *. intros x Hx. cbn.
    rewrite lookup_insert_ne; [by apply Hf|]. intros [= E]. apply Hnin. rewrite E.
    by apply list_elem_of_fmap_2.
Qed.

Lemma insert_roster_members_inv team at_ members w w' :
  insert_roster_members team at_ members w = (Ok tt, w') ->
  Forall (fun m => rm_team_name m = team) members /\ NoDup (rm_agent_name <$> members)
  /\ fresh_members team members (team_roster (db w)).
Proof.
  revert w. induction members as [|m ms IH]; intros w; cbn [insert_roster_members].
  { intros _. repeat split; constructor. }
  intros H. apply run_bind_ok_inv in H as ([] & w1 & H1 & H2).
  unfold insert_roster_member in H1.
  destruct (String.eqb_spec (rm_team_name m) team) as [Hm|]; [|done].
  rewrite (run_bind get_db _ w (db w) w) in H1 by done.
  destruct (team_roster (db w) !! (team, rm_agent_name m)) eqn:E; [done|].
  injection H1 as <-. apply IH in H2 as (Ht & Hn & Hf). cbn in Hf. repeat split.
  - by constructor.
  - rewrite fmap_cons. apply NoDup_cons. split; [|done].
    intros (x & Ex & Hx)%list_elem_of_fmap. unfold fresh_members in Hf.
    rewrite Forall_forall in Hf. specialize (Hf x Hx). by rewrite <- Ex, lookup_insert_eq in Hf.
  - constructor; [done|]. eapply Forall_impl; [exact Hf|]. intros x Hx.
    apply lookup_insert_None in Hx as [? _]. done.
Qed.

(** The table after a team's roster was replaced. *)
Definition replaced_table (team : TeamName) (at_ : IsoTimestamp) (members : list RosterMember)
    (t : gmap (TeamName * AgentName) RosterSqlRow) : gmap (TeamName * AgentName) RosterSqlRow :=
  put_members team at_ members (filter (fun kr => kr.1.1 <> team) t).

Lemma replaced_lookup team at_ members t team' a :
  NoDup (rm_agent_name <$> members) ->
  replaced_table team at_ members t !! (team', a)
  = if bool_decide (team' = team)
    then roster_row at_ <$> List.find (fun m => String.eqb (rm_agent_name m) a) members
    else t !! (team', a).
Proof.
  intros Hn. unfold replaced_table. rewrite (put_members_lookup _ _ _ _ _ _ Hn).
  assert (forall (P := fun kr : (TeamName * AgentName) * RosterSqlRow => kr.1.1 <> team),
    filter P t !! (team', a) = if bool_decide (team' = team) then None else t !! (team', a)) as ->.
  { intros P. case_bool_decide as E.
    - apply map_lookup_filter_None_2. right. intros r _. unfold P. by intros [].
    - destruct (t !! (team', a)) eqn:F.
      + by apply map_lookup_filter_Some_2.
      + apply map_lookup_filter_None_2. by left. }
  case_bool_decide; by destruct (List.find _ members).
Qed.

Lemma fresh_after_clear (team : TeamName) (members : list RosterMember) (t : gmap (TeamName * AgentName) RosterSqlRow) :
  fresh_members team members (filter (fun kr => kr.1.1 <> team) t).
Proof.
  apply Forall_forall. intros m _. apply map_lookup_filter_None_2. right. intros r _ Hr. by apply Hr.
Qed.

(** ** Saving *)

Definition unique_key (p : RosterUniqueName) : TeamName * AgentName :=
  (un_team_name p, un_agent_name p).

(** The names of the other teams. *)
Definition retained_names (team : TeamName) (names : list RosterUniqueName)
    : list RosterUniqueName :=
  List.filter (fun p => negb (String.eqb (un_team_name p) team)) names.

(** A replacement is admissible when it names no member twice and no name it
    writes collides. *)
Definition admissible (names : list RosterUniqueName) (roster : RosterSnapshot) : Prop :=
  let proposed := from_member <$> rs_members roster in
  NoDup (unique_key <$> proposed)
  /\ forall p, p ∈ roster_write_delta names proposed ->
       ~ collides (retained_names (rs_team_name roster) names ++ proposed) p.

Lemma load_unique_names_run w o : load_unique_names w = o -> exists r, o = (r, w).
Proof.
  intros <-. unfold load_unique_names. run run_get_db. unfold lift, st_lift.
  by destruct (collect _); eexists.
Qed.

Lemma enforce_state roster w : exists r, enforce_roster_unique_names roster w = (r, w).
Proof.
  unfold enforce_roster_unique_names.
  destruct (load_unique_names_run w _ eq_refl) as [[names|e|] Hl];
    [|erewrite run_bind_err by exact Hl; by eexists
     |unfold mbind, M_bind, st_mbind, st_bind; rewrite Hl; by eexists].
  erewrite run_bind by exact Hl. cbv zeta. case_bool_decide.
  - destruct (roster_write_delta _ _); [by eexists|]. destruct (written_collisions _ _); by eexists.
  - destruct (roster_unique_name_collisions _); by eexists.
Qed.

Lemma enforce_ok_iff roster w names :
  load_unique_names w = (Ok names, w) ->
  enforce_roster_unique_names roster w = (Ok tt, w) <-> admissible names roster.
Proof.
  intros Hl. unfold enforce_roster_unique_names, admissible. erewrite run_bind by exact Hl. cbv zeta.
  fold unique_key. set (proposed := from_member <$> rs_members roster).
  fold (retained_names (rs_team_name roster) names).
  set (all := retained_names (rs_team_name roster) names ++ proposed).
  case_bool_decide as Hn.
  - assert (forall p, p ∈ roster_write_delta names proposed -> p ∈ all) as Hsub
      by (intros p Hp%elem_of_write_delta; apply elem_of_app; by right).
    pose proof (written_collisions_nil _ _ Hsub) as Hw.
    destruct (roster_write_delta names proposed) as [|x l] eqn:E.
    + split; [|done]. intros _. split; [done|]. intros p Hp. by apply not_elem_of_nil in Hp.
    + destruct (written_collisions (x :: l) all) as [|c cs] eqn:C.
      * split; [|done]. intros _. split; [done|]. by apply Hw.
      * split; [by destruct c|]. intros [_ Hno]. apply Hw in Hno. done.
  - split; [|by intros [? _]]. by destruct (roster_unique_name_collisions proposed).
Qed.

Lemma enforce_loads roster w :
  enforce_roster_unique_names roster w = (Ok tt, w) -> exists names, load_unique_names w = (Ok names, w).
Proof.
  unfold enforce_roster_unique_names. intros H. apply run_bind_ok_inv in H as (names & w1 & H & _).
  exists names. destruct (load_unique_names_run w _ H) as [r [= _ ->]]. done.
Qed.

(** The body of the transaction of a save. *)
Definition replace_body (roster : RosterSnapshot) (at_ : IsoTimestamp) : M unit :=
  _ ← enforce_roster_unique_names roster;
  _ ← clear_team_roster (rs_team_name roster);
  insert_roster_members (rs_team_name roster) at_ (rs_members roster).

Lemma replace_body_ok roster at_ w w' :
  replace_body roster at_ w = (Ok tt, w') <->
  (exists names, load_unique_names w = (Ok names, w) /\ admissible names roster)
  /\ Forall (fun m => rm_team_name m = rs_team_name roster) (rs_members roster)
  /\ NoDup (rm_agent_name <$> rs_members roster)
  /\ w' = with_db (fun d => set_team_roster
            (replaced_table (rs_team_name roster) at_ (rs_members roster) (team_roster d)) d) w.
Proof.
  unfold replace_body. set (team := rs_team_name roster).
  assert (clear_team_roster team w
    = (Ok tt, with_db (fun d => set_team_roster (filter (fun kr => kr.1.1 <> team) (team_roster d)) d) w))
    as Hclear by done.
  split.
  - intros H. apply run_bind_ok_inv in H as ([] & w1 & H1 & H).
    destruct (enforce_state roster w) as [r Hr]. rewrite Hr in H1. injection H1 as -> <-.
    destruct (enforce_loads _ _ Hr) as [names Hl].
    erewrite run_bind in H by exact Hclear.
    pose proof (insert_roster_members_inv _ _ _ _ _ H) as (Ht & Hn & Hf).
    rewrite insert_roster_members_run in H by done. injection H as <-.
    split; [exists names; split; [done|by apply (enforce_ok_iff _ w)]|]. done.
  - intros ((names & Hl & Ha) & Ht & Hn & ->).
    erewrite run_bind by (by apply (enforce_ok_iff _ _ names)).
    erewrite run_bind by exact Hclear.
    by rewrite insert_roster_members_run by (done || apply fresh_after_clear).
Qed.

Lemma save_roster_unfold roster :
  save_roster roster
  = if Nat.ltb MAX_CANONICAL_ROSTER_MEMBERS (length (rs_members roster)) then
      fail (validation ("roster-store replace rejected team " +:+ rs_team_name roster +:+ " because "
        +:+ pretty (length (rs_members roster))
        +:+ " members exceeds the canonical roster cap of " +:+ pretty MAX_CANONICAL_ROSTER_MEMBERS))
    else updated_at ← now; with_transaction (replace_body roster updated_at).
Proof. done. Qed.

Lemma load_unique_names_db w w' r :
  db w = db w' -> load_unique_names w = (r, w) -> load_unique_names w' = (r, w').
Proof.
  unfold load_unique_names. rewrite (run_bind get_db _ w (db w) w) by done.
  rewrite (run_bind get_db _ w' (db w') w') by done. intros ->. unfold lift, st_lift.
  by destruct (collect _); intros [= <-].
Qed.

(** What a successful save did. *)
Lemma save_roster_ok roster w w' :
  save_roster roster w = (Ok tt, w') ->
  length (rs_members roster) <= MAX_CANONICAL_ROSTER_MEMBERS
  /\ (exists names, load_unique_names w = (Ok names, w) /\ admissible names roster)
  /\ Forall (fun m => rm_team_name m = rs_team_name roster) (rs_members roster)
  /\ NoDup (rm_agent_name <$> rs_members roster)
  /\ db w' = set_team_roster (replaced_table (rs_team_name roster) (now_at (ticks w))
                                (rs_members roster) (team_roster (db w))) (db w).
Proof.
  rewrite save_roster_unfold. destruct (Nat.ltb_spec MAX_CANONICAL_ROSTER_MEMBERS
    (length (rs_members roster))) as [|Hlen]; [done|].
  rewrite (run_bind now _ w (now_at (ticks w)) (tick w)) by done. intros H.
  destruct (with_transaction_cases (replace_body roster (now_at (ticks w))) (tick w))
    as [(e & w1 & H1 & _)|Hc]; [congruence|].
  destruct (replace_body _ _ (tick (tick w))) as [[[]|e|] w1] eqn:E; rewrite Hc in H; [|done..].
  injection H as <-. apply replace_body_ok in E as ((names & Hl & Ha) & Ht & Hn & ->).
  split; [done|]. split; [|done]. exists names. split; [|done].
  eapply load_unique_names_db; [|exact Hl]. done.
Qed.

(** A save that fails leaves the database as it was. *)
Lemma save_roster_fails roster w r w' :
  save_roster roster w = (r, w') -> r <> Ok tt -> db w' = db w.
Proof.
  rewrite save_roster_unfold. destruct (Nat.ltb _ _); [by intros [= <- <-]|].
  rewrite (run_bind now _ w (now_at (ticks w)) (tick w)) by done. intros H Hr.
  destruct (with_transaction_cases (replace_body roster (now_at (ticks w))) (tick w))
    as [(e & w1 & H1 & Hdb & _)|Hc]; [rewrite H1 in H; by injection H as <- <-|].
  destruct (replace_body _ _ (tick (tick w))) as [[[]|e|] w1] eqn:E; rewrite Hc in H;
    injection H as <- <-; [|done..]. done.
Qed.

(** A save of an admissible roster succeeds unless a control statement fails. *)
Lemma save_roster_runs roster w names :
  length (rs_members roster) <= MAX_CANONICAL_ROSTER_MEMBERS ->
  load_unique_names w = (Ok names, w) -> admissible names roster ->
  Forall (fun m => rm_team_name m = rs_team_name roster) (rs_members roster) ->
  NoDup (rm_agent_name <$> rs_members roster) ->
  control_fault (S (ticks w)) = None -> control_fault (S (S (ticks w))) = None ->
  exists w', save_roster roster w = (Ok tt, w').
Proof.
  intros Hlen Hl Ha Ht Hn Hf1 Hf2. rewrite save_roster_unfold.
  destruct (Nat.ltb_spec MAX_CANONICAL_ROSTER_MEMBERS (length (rs_members roster))); [lia|].
  rewrite (run_bind now _ w (now_at (ticks w)) (tick w)) by done.
  eexists. apply with_transaction_ok; [|done|].
  - apply replace_body_ok. split; [|split; [done|split; [done|reflexivity]]].
    exists names. split; [|done]. eapply load_unique_names_db; [|exact Hl]. done.
  - done.
Qed.
End Members.
