(* ===== verification/RosterMirror.v ===== *)
(** * The roster mirror

    Models the runtime observations of [crates/atm-storage/src/contract.rs] and
    the write-through mirror of [crates/atm-storage-rusqlite/src/roster_runtime.rs]:
    the rosters of all teams in memory, with the state observed of each member,
    beside the durable roster store.

    Every operation of the mirror runs under its locks and is one step here. *)

From S2P Require Import Prelude ErrorCodes Types Database Transaction Address Selection Roster.
From stdpp Require Import base gmap strings list numbers.
Local Open Scope Z_scope.
Local Open Scope string_scope.
Local Open Scope list_scope.

(** ** Observations *)

Inductive RuntimeMemberState : Set :=
| State_Unknown
| State_IdentityConflict
| State_Offline
| State_Idle
| State_Active
| State_Blocked.

Inductive RuntimeObservationSource : Set :=
| Source_Heartbeat
| Source_HerdrPoll.

Inductive RuntimeObservationAvailability : Set :=
| Availability_Unobserved
| Availability_Fresh
| Availability_Unavailable.

#[export] Instance RuntimeMemberState_eq_dec : EqDecision RuntimeMemberState.
Proof. solve_decision. Defined.
#[export] Instance RuntimeObservationSource_eq_dec : EqDecision RuntimeObservationSource.
Proof. solve_decision. Defined.
#[export] Instance RuntimeObservationAvailability_eq_dec :
  EqDecision RuntimeObservationAvailability.
Proof. solve_decision. Defined.

(** [RosterStateRevision::next]. *)
Definition revision_next (revision : Z) : Z := Z.min u64_max (revision + 1).

Record RosterRuntimeIdentity : Set := mkRosterRuntimeIdentity {
  id_pid : Z;
  id_session_id : option string
}.

Record RosterRuntimeObservation : Set := mkRosterRuntimeObservation {
  obs_revision : Z;
  obs_state : RuntimeMemberState;
  obs_availability : RuntimeObservationAvailability;
  obs_last_observation_attempt_by : option RuntimeObservationSource;
  obs_last_observation_attempt_at : option IsoTimestamp;
  obs_last_observed_by : option RuntimeObservationSource;
  obs_last_observed_at : option IsoTimestamp;
  obs_pid : option Z;
  obs_session_id : option string;
  obs_last_active_at : option IsoTimestamp;
  obs_state_changed_by : option RuntimeObservationSource;
  obs_state_changed_at : option IsoTimestamp;
  obs_session_changed_by : option RuntimeObservationSource;
  obs_session_changed_at : option IsoTimestamp
}.

Definition observation_default : RosterRuntimeObservation :=
  mkRosterRuntimeObservation 0 State_Unknown Availability_Unobserved None None None None None None
    None None None None None.

Record RosterRuntimeObservationUpdate : Set := mkObservationUpdate {
  up_agent : AgentName;
  up_state : option RuntimeMemberState;
  up_availability : RuntimeObservationAvailability;
  up_source : RuntimeObservationSource;
  up_observed_at : IsoTimestamp;
  up_identity : option RosterRuntimeIdentity
}.

(** [RosterRuntimeObservationUpdate::observed] and [::unavailable]. *)
Definition observed (agent : AgentName) (state : RuntimeMemberState)
    (source : RuntimeObservationSource) (observed_at : IsoTimestamp)
    (identity : option RosterRuntimeIdentity) : RosterRuntimeObservationUpdate :=
  mkObservationUpdate agent (Some state) Availability_Fresh source observed_at identity.

Definition unavailable (agent : AgentName) (source : RuntimeObservationSource)
    (observed_at : IsoTimestamp) : RosterRuntimeObservationUpdate :=
  mkObservationUpdate agent None Availability_Unavailable source observed_at None.

Record RosterRuntimeMutationOutcome : Set := mkMutationOutcome {
  out_agent : AgentName;
  out_previous_state : RuntimeMemberState;
  out_current : RosterRuntimeObservation;
  out_state_changed : bool;
  out_pid_changed : bool
}.

Definition state_changed (update : RosterRuntimeObservationUpdate)
    (runtime : RosterRuntimeObservation) : bool :=
  match up_state update with
  | Some next => bool_decide (next <> obs_state runtime)
  | None => false
  end.

(** A session the update names and the record does not have. *)
Definition new_session (update : RosterRuntimeObservationUpdate)
    (runtime : RosterRuntimeObservation) : option string :=
  match up_identity update with
  | Some identity =>
    match id_session_id identity with
    | Some session =>
      if bool_decide (obs_session_id runtime = Some session) then None else Some session
    | None => None
    end
  | None => None
  end.

(** [apply_runtime_observation]; the record it leaves is [out_current]. *)
Definition apply_runtime_observation (update : RosterRuntimeObservationUpdate)
    (runtime : RosterRuntimeObservation) : RosterRuntimeMutationOutcome :=
  let changed := state_changed update runtime in
  let source := Some (up_source update) in
  let at_ := Some (up_observed_at update) in
  let carries := bool_decide (is_Some (up_state update)) in
  let session := new_session update runtime in
  let renewed := bool_decide (is_Some session) in
  let current :=
    {| obs_revision := if carries then revision_next (obs_revision runtime)
                       else obs_revision runtime;
       obs_state := default (obs_state runtime) (up_state update);
       obs_availability := up_availability update;
       obs_last_observation_attempt_by := source;
       obs_last_observation_attempt_at := at_;
       obs_last_observed_by := if carries then source else obs_last_observed_by runtime;
       obs_last_observed_at := if carries then at_ else obs_last_observed_at runtime;
       obs_pid := match up_identity update with
                  | Some identity => Some (id_pid identity)
                  | None => obs_pid runtime
                  end;
       obs_session_id := if renewed then session else obs_session_id runtime;
       obs_last_active_at :=
         if bool_decide (up_state update = Some State_Active) then at_
         else obs_last_active_at runtime;
       obs_state_changed_by := if changed then source else obs_state_changed_by runtime;
       obs_state_changed_at := if changed then at_ else obs_state_changed_at runtime;
       obs_session_changed_by := if renewed then source else obs_session_changed_by runtime;
       obs_session_changed_at := if renewed then at_ else obs_session_changed_at runtime |} in
  mkMutationOutcome (up_agent update) (obs_state runtime) current changed
    match obs_pid runtime with
    | Some pid => bool_decide (obs_pid current <> Some pid)
    | None => false
    end.

Record RosterMemberEphemeralState : Set := mkEphemeralState {
  eph_runtime : RosterRuntimeObservation;
  eph_herdr_wake_pending : bool
}.

Definition ephemeral_default : RosterMemberEphemeralState :=
  mkEphemeralState observation_default false.

(** ** One team *)

Record TeamRosterRecord : Set := mkTeamRosterRecord {
  entries : list RosterMember;
  ephemeral : gmap AgentName RosterMemberEphemeralState
}.

(** [from_durable]. *)
Definition from_durable (members : list RosterMember) : TeamRosterRecord :=
  mkTeamRosterRecord members
    (list_to_map (reverse ((fun m => (rm_agent_name m, ephemeral_default)) <$> members))).

(** [replaced_with]: retained members keep their state. *)
Definition replaced_with (record : TeamRosterRecord) (members : list RosterMember)
    : TeamRosterRecord :=
  mkTeamRosterRecord members
    (list_to_map (reverse ((fun m =>
       (rm_agent_name m, default ephemeral_default (ephemeral record !! rm_agent_name m)))
       <$> members))).

Definition has_member (record : TeamRosterRecord) (agent : AgentName) : bool :=
  existsb (fun m => String.eqb (rm_agent_name m) agent) (entries record).

(** ** All teams *)

Abbreviation RosterRuntimeState := (gmap TeamName TeamRosterRecord).

Module Mirror.

Definition hydrate (state : RosterRuntimeState) (team : TeamName) (members : list RosterMember)
    : RosterRuntimeState := <[team := from_durable members]> state.

Definition replace_roster (state : RosterRuntimeState) (team : TeamName)
    (members : list RosterMember) : RosterRuntimeState :=
  match members with
  | [] => delete team state
  | _ :: _ =>
    <[team := replaced_with (default (mkTeamRosterRecord [] ∅) (state !! team)) members]> state
  end.

Definition load_team_roster (state : RosterRuntimeState) (team : TeamName) : list RosterMember :=
  match state !! team with Some record => entries record | None => [] end.

Definition load_roster_member (state : RosterRuntimeState) (team : TeamName) (agent : AgentName)
    : option RosterMember :=
  match state !! team with
  | Some record => List.find (fun m => String.eqb (rm_agent_name m) agent) (entries record)
  | None => None
  end.

(** The keys of the [BTreeMap], in order. *)
Definition team_names (state : RosterRuntimeState) : list TeamName :=
  sort_by String.compare (map_to_list state).*1.

Definition ephemeral_state (state : RosterRuntimeState) (team : TeamName) (agent : AgentName)
    : option RosterMemberEphemeralState :=
  match state !! team with Some record => ephemeral record !! agent | None => None end.

Definition set_ephemeral_state (state : RosterRuntimeState) (team : TeamName) (agent : AgentName)
    (mutate : RosterMemberEphemeralState -> RosterMemberEphemeralState)
    : bool * RosterRuntimeState :=
  match state !! team with
  | None => (false, state)
  | Some record =>
    if has_member record agent then
      (true, <[team := mkTeamRosterRecord (entries record)
        (<[agent := mutate (default ephemeral_default (ephemeral record !! agent))]>
           (ephemeral record))]> state)
    else (false, state)
  end.

Definition set_herdr_wake_pending (state : RosterRuntimeState) (team : TeamName)
    (agent : AgentName) (pending : bool) : bool * RosterRuntimeState :=
  set_ephemeral_state state team agent (fun s => mkEphemeralState (eph_runtime s) pending).

(** The loop of [apply_runtime_observations] over the updates of one team. *)
Fixpoint observe_all (record : TeamRosterRecord) (updates : list RosterRuntimeObservationUpdate)
    (states : gmap AgentName RosterMemberEphemeralState)
    : list RosterRuntimeMutationOutcome * gmap AgentName RosterMemberEphemeralState :=
  match updates with
  | [] => ([], states)
  | update :: rest =>
    if has_member record (up_agent update) then
      let state := default ephemeral_default (states !! up_agent update) in
      let outcome := apply_runtime_observation update (eph_runtime state) in
      let '(outcomes, states') :=
        observe_all record rest
          (<[up_agent update := mkEphemeralState (out_current outcome)
                                  (eph_herdr_wake_pending state)]> states) in
      (outcome :: outcomes, states')
    else observe_all record rest states
  end.

Definition apply_runtime_observations (state : RosterRuntimeState) (team : TeamName)
    (updates : list RosterRuntimeObservationUpdate)
    : list RosterRuntimeMutationOutcome * RosterRuntimeState :=
  match updates, state !! team with
  | [], _ | _, None => ([], state)
  | _ :: _, Some record =>
    let '(outcomes, states) := observe_all record updates (ephemeral record) in
    (outcomes, <[team := mkTeamRosterRecord (entries record) states]> state)
  end.

Definition load_runtime_observations (state : RosterRuntimeState) (team : TeamName)
    : list (AgentName * RosterRuntimeObservation) :=
  match state !! team with
  | None => []
  | Some record =>
    (fun m => (rm_agent_name m,
               match ephemeral record !! rm_agent_name m with
               | Some s => eph_runtime s
               | None => observation_default
               end)) <$> entries record
  end.

End Mirror.

(** ** The write-through view *)

(** The database beside the mirror. *)
Record RosterWorld : Type := mkRosterWorld {
  rw_world : World;
  rw_mirror : RosterRuntimeState
}.

Definition R (A : Type) : Type := ST RosterWorld AtmError A.

#[export] Instance R_ret : MRet R := st_ret RosterWorld AtmError.
#[export] Instance R_bind : MBind R := st_mbind RosterWorld AtmError.
#[export] Instance R_fmap : FMap R := st_fmap RosterWorld AtmError.

(** A call of the durable store. *)
Definition durable {A} (c : M A) : R A :=
  fun rw => let '(o, w) := c (rw_world rw) in (o, mkRosterWorld w (rw_mirror rw)).

Definition get_mirror : R RosterRuntimeState := fun rw => (Ok (rw_mirror rw), rw).
Definition put_mirror (state : RosterRuntimeState) : R unit :=
  fun rw => (Ok tt, mkRosterWorld (rw_world rw) state).

Module WriteThrough.
Section View.
Context {rt : Runtime} {tx : RosterText}.

Definition view_load_roster (team : TeamName) : R RosterSnapshot :=
  state ← get_mirror;
  mret (mkRosterSnapshot team (Mirror.load_team_roster state team) None).

Definition view_save_roster (roster : RosterSnapshot) : R unit :=
  _ ← durable (Roster.save_roster roster);
  state ← get_mirror;
  put_mirror (Mirror.replace_roster state (rs_team_name roster) (rs_members roster)).

Definition view_list_teams : R (list TeamName) :=
  state ← get_mirror;
  mret (Mirror.team_names state).

(** The loop of the trait's [unique_names], over the rosters in memory. *)
Fixpoint unique_names_of (teams : list TeamName) : R (list RosterUniqueName) :=
  match teams with
  | [] => mret []
  | team :: rest =>
    snapshot ← view_load_roster team;
    names ← unique_names_of rest;
    mret ((from_member <$> rs_members snapshot) ++ names)
  end.

Definition unique_names : R (list RosterUniqueName) :=
  teams ← view_list_teams;
  unique_names_of teams.

Fixpoint hydrate_teams (teams : list TeamName) : R unit :=
  match teams with
  | [] => mret tt
  | team :: rest =>
    snapshot ← durable (Roster.load_roster team);
    state ← get_mirror;
    _ ← put_mirror (Mirror.hydrate state team (rs_members snapshot));
    hydrate_teams rest
  end.

Definition hydrate_roster_runtime_from_durable : R unit :=
  teams ← durable Roster.list_teams;
  hydrate_teams teams.

Definition reload_from_durable : R unit :=
  _ ← put_mirror ∅;
  hydrate_roster_runtime_from_durable.

(** [build_write_through_roster]: nothing is installed when hydration fails. *)
Definition build_write_through_roster (w : World) : Outcome AtmError RosterWorld :=
  match hydrate_roster_runtime_from_durable (mkRosterWorld w ∅) with
  | (Ok _, rw) => Ok rw
  | (Err e, _) => Err e
  | (Panic, _) => Panic
  end.

End View.
End WriteThrough.

(** * Facts about the roster mirror

    What the durable store loads, what a save makes of it, and the invariant of
    the write-through view: the rosters in memory are the durable ones. *)

From S2P Require Import Threading Selection Roster.
From stdpp Require Import base gmap strings numbers sorting pretty list.
Local Close Scope Z_scope.

Lemma Forall2_perm_l {A B} (P : A -> B -> Prop) l l' k :
  l ≡ₚ l' -> Forall2 P l k -> exists k', Forall2 P l' k' /\ k ≡ₚ k'.
Proof.
  intros Hp. revert k. induction Hp as [|x l l' _ IH|x y l|l1 l2 l3 _ IH1 _ IH2]; intros k Hf.
  - apply Forall2_nil_inv_l in Hf as ->. by exists [].
  - apply Forall2_cons_inv_l in Hf as (z & k1 & Hz & Hf & ->).
    destruct (IH k1 Hf) as (k' & H & Hk). exists (z :: k'). by rewrite Hk; auto.
  - apply Forall2_cons_inv_l in Hf as (z & k1 & Hz & Hf & ->).
    apply Forall2_cons_inv_l in Hf as (u & k2 & Hu & Hf & ->).
    exists (u :: z :: k2). split; [by repeat constructor|by rewrite Permutation_swap].
  - destruct (IH1 k Hf) as (k1 & H1 & Hk1). destruct (IH2 k1 H1) as (k2 & H2 & Hk2).
    exists k2. split; [done|]. by rewrite Hk1.
Qed.

(** ** Keys and names *)

Definition keys_ok (d : Db) : Prop :=
  forall t a r, team_roster d !! (t, a) = Some r -> segment_ok t /\ segment_ok a.

Section Names.
Context {rt : Runtime} {tx : RosterText}.

(** SQLite reads the member's alias as the code does. *)
Definition alias_clean (m : RosterMember) : Prop :=
  match object_get "alias" (rm_metadata_json m) with
  | None | Some Value_Null => True
  | Some (Value_String alias) => sql_trim alias = trim alias
  | Some _ => False
  end.

Lemma elem_of_roster_rows d k r : (k, r) ∈ roster_rows d <-> team_roster d !! k = Some r.
Proof. unfold roster_rows. rewrite elem_of_sort_by. apply elem_of_map_to_list. Qed.

Lemma NoDup_roster_keys d : NoDup (roster_rows d).*1.
Proof. unfold roster_rows. rewrite (sort_by_perm compare_roster_keys). apply NoDup_fst_map_to_list. Qed.

Lemma read_unique_name_key d k r p :
  keys_ok d -> team_roster d !! k = Some r -> read_unique_name (k, r) = Ok p -> unique_key p = k.
Proof.
  intros Hk Hr. destruct k as [t a]. destruct (Hk _ _ _ Hr) as [Ht Ha]. unfold read_unique_name.
  destruct (sql_alias _) as [alias|e|]; [|done..].
  unfold team_name_from_str, agent_name_from_str.
  rewrite (parse_segment_ok _ _ Ht), (parse_segment_ok _ _ Ha). by intros [= <-].
Qed.

Lemma load_unique_names_iff w names :
  load_unique_names w = (Ok names, w) <->
  Forall2 (fun row p => read_unique_name row = Ok p) (roster_rows (db w)) names.
Proof.
  unfold load_unique_names. rewrite (run_bind get_db _ w (db w) w) by done. unfold lift, st_lift.
  rewrite <- collect_iff. by destruct (collect _); split; intros [= ->].
Qed.

Lemma loaded_names_keys w names :
  keys_ok (db w) -> load_unique_names w = (Ok names, w) ->
  unique_key <$> names = (roster_rows (db w)).*1.
Proof.
  rewrite load_unique_names_iff. intros Hk Hf.
  assert (forall k r, (k, r) ∈ roster_rows (db w) -> team_roster (db w) !! k = Some r) as Hin
    by (intros k r; apply elem_of_roster_rows).
  revert Hin. induction Hf as [|[k r] p rows names Hp Hf IH]; intros Hin; [done|].
  rewrite !fmap_cons. f_equal.
  - eapply read_unique_name_key; [done| |exact Hp]. apply Hin. by left.
  - apply IH. intros k' r' H. apply Hin. by right.
Qed.

Lemma elem_of_loaded_names w names p :
  load_unique_names w = (Ok names, w) ->
  p ∈ names <-> exists k r, team_roster (db w) !! k = Some r /\ read_unique_name (k, r) = Ok p.
Proof.
  rewrite load_unique_names_iff. intros Hf. split.
  - intros (i & Hi)%list_elem_of_lookup. destruct (Forall2_lookup_r _ _ _ _ _ Hf Hi) as ([k r] & Hr & Hp).
    exists k, r. split; [|done]. apply elem_of_roster_rows. by eapply list_elem_of_lookup_2.
  - intros (k & r & Hr & Hp). apply elem_of_roster_rows, list_elem_of_lookup in Hr as [i Hi].
    destruct (Forall2_lookup_l _ _ _ _ _ Hf Hi) as (q & Hq & E). rewrite Hp in E. simplify_eq.
    by eapply list_elem_of_lookup_2.
Qed.

Context {txok : RosterTextOk rt tx}.

Lemma stored_name at_ m :
  member_ok m -> alias_clean m ->
  read_unique_name ((rm_team_name m, rm_agent_name m), roster_row at_ m) = Ok (from_member m).
Proof.
  intros [Ht Ha _ _ _ (text & Hj)] Hc. unfold read_unique_name, sql_alias. cbn [r_metadata_json roster_row].
  rewrite (metadata_read_back _ _ Hj). cbn [value_get].
  unfold team_name_from_str, agent_name_from_str.
  rewrite (parse_segment_ok _ _ Ht), (parse_segment_ok _ _ Ha).
  unfold from_member, entry_alias. unfold alias_clean in Hc.
  destruct (object_get "alias" (rm_metadata_json m)) as [[]|]; try done. unfold sql_unique_name. by rewrite Hc.
Qed.

(** ** A save and the keys *)

Lemma find_member a (members : list RosterMember) m :
  NoDup (rm_agent_name <$> members) ->
  List.find (fun m => String.eqb (rm_agent_name m) a) members = Some m
  <-> m ∈ members /\ rm_agent_name m = a.
Proof.
  intros Hn. split.
  - intros [Hm Ha%String.eqb_eq]%find_some. split; [by apply list_elem_of_In|done].
  - intros [Hm <-]. destruct (List.find _ members) as [m'|] eqn:F.
    + apply find_some in F as [Hm' E%String.eqb_eq]. f_equal.
      apply list_elem_of_In in Hm'. apply list_elem_of_lookup in Hm as [i Hi].
      apply list_elem_of_lookup in Hm' as [j Hj].
      assert (i = j) as ->; [|congruence].
      eapply NoDup_lookup; [exact Hn|..]; rewrite list_lookup_fmap; [by rewrite Hi|by rewrite Hj, <- E].
    + apply list_elem_of_In in Hm. eapply find_none in F; [|exact Hm]. by rewrite String.eqb_refl in F.
Qed.

Definition saved_db (roster : RosterSnapshot) (at_ : IsoTimestamp) (d : Db) : Db :=
  set_team_roster (replaced_table (rs_team_name roster) at_ (rs_members roster) (team_roster d)) d.

Lemma saved_row roster at_ d t a r :
  NoDup (rm_agent_name <$> rs_members roster) ->
  team_roster (saved_db roster at_ d) !! (t, a) = Some r <->
  (t <> rs_team_name roster /\ team_roster d !! (t, a) = Some r)
  \/ (t = rs_team_name roster /\ exists m, m ∈ rs_members roster /\ rm_agent_name m = a
      /\ r = roster_row at_ m).
Proof.
  intros Hn. cbn [saved_db team_roster set_team_roster]. rewrite (replaced_lookup _ _ _ _ _ _ Hn).
  case_bool_decide as E.
  - rewrite fmap_Some. split.
    + intros (m & Hm & ->). right. split; [done|]. apply (find_member _ _ _ Hn) in Hm. naive_solver.
    + intros [[? _]|[_ (m & Hm & Ha & ->)]]; [done|]. exists m. split; [|done]. by apply find_member.
  - naive_solver.
Qed.

Lemma saved_keys_ok roster at_ d :
  NoDup (rm_agent_name <$> rs_members roster) ->
  Forall (fun m => rm_team_name m = rs_team_name roster) (rs_members roster) ->
  Forall member_ok (rs_members roster) -> keys_ok d -> keys_ok (saved_db roster at_ d).
Proof.
  intros Hn Ht Hok Hk t a r Hr. apply (saved_row _ _ _ _ _ _ Hn) in Hr
    as [[_ Hr]|[-> (m & Hm & <- & _)]]; [by eapply Hk|].
  rewrite Forall_forall in Ht, Hok. rewrite <- (Ht m Hm). by split; apply Hok.
Qed.

(** The names of the store after a save. *)
Lemma saved_names w w' roster names :
  keys_ok (db w) -> load_unique_names w = (Ok names, w) ->
  Forall (fun m => rm_team_name m = rs_team_name roster) (rs_members roster) ->
  NoDup (rm_agent_name <$> rs_members roster) ->
  Forall member_ok (rs_members roster) -> Forall alias_clean (rs_members roster) ->
  db w' = saved_db roster (now_at (ticks w)) (db w) ->
  exists names', load_unique_names w' = (Ok names', w')
    /\ names' ≡ₚ retained_names (rs_team_name roster) names ++ (from_member <$> rs_members roster).
Proof.
  intros Hk Hl Ht Hn Hok Hc Hdb. set (at_ := now_at (ticks w)) in *.
  rewrite Forall_forall in Ht, Hok, Hc.
  pose proof (fun p => elem_of_loaded_names w names p Hl) as Hnames.
  assert (forall k r, team_roster (db w') !! k = Some r -> exists p, read_unique_name (k, r) = Ok p
    /\ p ∈ retained_names (rs_team_name roster) names ++ (from_member <$> rs_members roster)) as Hread.
  { intros [t a] r Hr. rewrite Hdb in Hr. apply (saved_row _ _ _ _ _ _ Hn) in Hr
      as [[Hne Hr]|[-> (m & Hm & <- & ->)]].
    - pose proof Hr as Hin. rewrite <- elem_of_roster_rows in Hin.
      pose proof Hl as Hf. rewrite load_unique_names_iff in Hf.
      apply list_elem_of_lookup in Hin as [i Hi].
      destruct (Forall2_lookup_l _ _ _ _ _ Hf Hi) as (p & Hp & E). exists p. split; [done|].
      apply elem_of_app. left. apply list_filter_elem. split; [by eapply list_elem_of_lookup_2|].
      pose proof (read_unique_name_key _ _ _ _ Hk Hr E) as [= <- _].
      by apply negb_true_iff, String.eqb_neq.
    - exists (from_member m). split; [rewrite <- (Ht m Hm); apply stored_name; auto|].
      apply elem_of_app. right. by apply list_elem_of_fmap_2. }
  assert (exists names', Forall2 (fun row p => read_unique_name row = Ok p) (roster_rows (db w')) names')
    as [names' Hf].
  { assert (Forall (fun row => exists p, read_unique_name row = Ok p) (roster_rows (db w'))) as Ha.
    { apply Forall_forall. intros [k r] Hr. apply elem_of_roster_rows, Hread in Hr as (p & ? & _). eauto. }
    clear -Ha. induction Ha as [|row rows [p Hp] _ [ps IH]]; [by exists []|]. exists (p :: ps). by constructor. }
  apply load_unique_names_iff in Hf as Hl'. exists names'. split; [done|].
  assert (keys_ok (db w')) as Hk'
    by (rewrite Hdb; apply saved_keys_ok; [done|by apply Forall_forall..|done]).
  apply NoDup_Permutation.
  - apply (NoDup_fmap_1 unique_key). rewrite (loaded_names_keys _ _ Hk' Hl'). apply NoDup_roster_keys.
  - apply NoDup_app. split; [|split].
    + apply NoDup_ListNoDup, List.NoDup_filter, NoDup_ListNoDup, (NoDup_fmap_1 unique_key).
      rewrite (loaded_names_keys _ _ Hk Hl). apply NoDup_roster_keys.
    + intros p [_ Hne]%list_filter_elem (m & -> & Hm)%list_elem_of_fmap.
      apply negb_true_iff, String.eqb_neq in Hne. apply Hne. cbn. by apply Ht.
    + apply (NoDup_fmap_1 un_agent_name). rewrite <- list_fmap_compose. done.
  - intros p. rewrite (elem_of_loaded_names w' names' p Hl'). split.
    + intros (k & r & Hr & Hp). destruct (Hread k r Hr) as (q & Hq & Hin). congruence.
    + intros [[Hp Hne]%list_filter_elem|(m & -> & Hm)%list_elem_of_fmap]%elem_of_app.
      * apply Hnames in Hp as ([t a] & r & Hr & Hp). exists (t, a), r. split; [|done].
        rewrite Hdb. apply (saved_row _ _ _ _ _ _ Hn). left. split; [|done].
        pose proof (read_unique_name_key _ _ _ _ Hk Hr Hp) as [= <- _].
        by apply negb_true_iff, String.eqb_neq in Hne.
      * exists (rs_team_name roster, rm_agent_name m), (roster_row at_ m). split.
        { rewrite Hdb. apply (saved_row _ _ _ _ _ _ Hn). right. eauto. }
        { rewrite <- (Ht m Hm). apply stored_name; auto. }
Qed.
End Names.

(** ** What the durable store loads *)

Section Mirrors.
Context {rt : Runtime} {tx : RosterText} {txok : RosterTextOk rt tx}.

Definition rows_of (team : TeamName) (d : Db) : list RosterRow :=
  List.filter (fun row => String.eqb row.1.1 team) (roster_rows d).

Lemma elem_of_rows_of team d t a r :
  ((t, a), r) ∈ rows_of team d <-> t = team /\ team_roster d !! (t, a) = Some r.
Proof. unfold rows_of. rewrite list_filter_elem, elem_of_roster_rows. cbn. rewrite String.eqb_eq. tauto. Qed.

Lemma NoDup_rows_of team d : NoDup (rows_of team d).
Proof.
  apply NoDup_ListNoDup, List.NoDup_filter, NoDup_ListNoDup.
  apply (NoDup_fmap_1 fst), NoDup_roster_keys.
Qed.

(** [members] is what the rows of the team say, and they are within the cap. *)
Definition team_holds (d : Db) (team : TeamName) (members : list RosterMember) : Prop :=
  Forall2 (fun row m => build_roster_member team row.1.2 row.2 = Ok m) (rows_of team d) members
  /\ length members <= MAX_CANONICAL_ROSTER_MEMBERS.

Lemma load_roster_holds team members w :
  team_holds (db w) team members <->
  Roster.load_roster team w = (Ok (mkRosterSnapshot team members None), w).
Proof.
  unfold team_holds, Roster.load_roster. rewrite (run_bind get_db _ w (db w) w) by done.
  change (team_rows team (db w)) with (take (S MAX_CANONICAL_ROSTER_MEMBERS) (rows_of team (db w))).
  set (f := fun row : RosterRow => build_roster_member team row.1.2 row.2).
  set (rows := rows_of team (db w)). split.
  - intros [Hf Hlen]. pose proof (Forall2_length _ _ _ Hf) as Hl.
    rewrite (run_bind (lift _) _ w members w).
    + destruct (Nat.ltb_spec MAX_CANONICAL_ROSTER_MEMBERS (length members)); [lia|done].
    + apply run_lift. rewrite take_ge by (etransitivity; [apply Nat.eq_le_incl, Hl|lia]).
      by apply collect_iff.
  - intros H. apply run_bind_ok_inv in H as (ms & w1 & H1 & H2). unfold lift, st_lift in H1.
    injection H1 as Hc <-. apply (collect_iff f) in Hc.
    destruct (Nat.ltb_spec MAX_CANONICAL_ROSTER_MEMBERS (length ms)); [done|].
    injection H2 as <-. pose proof (Forall2_length _ _ _ Hc) as Hl. rewrite length_take in Hl.
    rewrite take_ge in Hc; [done|]. lia.
Qed.

(** Rows that are the same up to order hold the same members. *)
Lemma team_holds_perm d d' team members rows :
  rows_of team d ≡ₚ rows -> rows_of team d' ≡ₚ rows -> team_holds d team members ->
  exists members', team_holds d' team members' /\ members ≡ₚ members'.
Proof.
  intros Hr Hr' [Hf Hl]. assert (rows_of team d ≡ₚ rows_of team d') as Hp by (by rewrite Hr, Hr').
  destruct (Forall2_perm_l _ _ _ _ Hp Hf) as (ms & Hms & Hpm). exists ms.
  split; [split; [done|by rewrite <- Hpm]|done].
Qed.

Lemma holds_nil d team members :
  team_holds d team members ->
  members = [] <-> forall a, team_roster d !! (team, a) = None.
Proof.
  intros [Hf _]. split.
  - intros ->. apply Forall2_nil_inv_r in Hf. intros a.
    destruct (team_roster d !! (team, a)) as [r|] eqn:E; [|done].
    assert (((team, a), r) ∈ rows_of team d) as Hin by by apply elem_of_rows_of.
    rewrite Hf in Hin. by apply not_elem_of_nil in Hin.
  - intros Hno. destruct (rows_of team d) as [|[[t a] r] rows] eqn:E.
    + by apply Forall2_nil_inv_l in Hf.
    + assert (((t, a), r) ∈ rows_of team d) as Hin by (rewrite E; by left).
      apply elem_of_rows_of in Hin as [-> Hin]. by rewrite Hno in Hin.
Qed.

(** The names of the loaded members are the agents of the rows. *)
Lemma holds_names d team members :
  keys_ok d -> team_holds d team members ->
  rm_agent_name <$> members = (fun row => row.1.2) <$> rows_of team d.
Proof.
  intros Hk [Hf _].
  assert (forall t a r, ((t, a), r) ∈ rows_of team d -> segment_ok a) as Hin.
  { intros t a r [-> Hr]%elem_of_rows_of. by eapply Hk. }
  revert Hin. induction Hf as [|[[t a] r] m rows ms Hb _ IH]; intros Hin; [done|].
  rewrite !fmap_cons. f_equal; [|apply IH; intros; eapply Hin; by right].
  assert (segment_ok a) as Ha by (eapply Hin; by left). cbn in Hb |- *.
  unfold build_roster_member, agent_name_from_str in Hb. rewrite (parse_segment_ok _ _ Ha) in Hb.
  cbn [mbind outcome_mbind outcome_bind] in Hb.
  destruct (json_from_str _) as [[]|]; cbn in Hb; try done.
  destruct (if String.eqb _ _ then _ else _); cbn in Hb; [|done..].
  destruct (option_traverse _ _); cbn in Hb; [|done..].
  destruct (parse_member_kind _); cbn in Hb; [|done..].
  destruct (parse_harness _); cbn in Hb; [|done..]. by injection Hb as <-.
Qed.

Lemma holds_NoDup d team members :
  keys_ok d -> team_holds d team members -> NoDup (rm_agent_name <$> members).
Proof.
  intros Hk Hh. rewrite (holds_names _ _ _ Hk Hh).
  apply NoDup_fmap_2_strong; [|apply NoDup_rows_of].
  intros [[t a] r] [[t' a'] r'] [-> H]%elem_of_rows_of [-> H']%elem_of_rows_of E. cbn in E. subst.
  congruence.
Qed.

(** ** A save *)

Lemma saved_holds_team roster at_ d :
  NoDup (rm_agent_name <$> rs_members roster) ->
  Forall (fun m => rm_team_name m = rs_team_name roster) (rs_members roster) ->
  Forall member_ok (rs_members roster) ->
  length (rs_members roster) <= MAX_CANONICAL_ROSTER_MEMBERS ->
  exists members, team_holds (saved_db roster at_ d) (rs_team_name roster) members
    /\ rs_members roster ≡ₚ members.
Proof.
  intros Hn Ht Hok Hlen. set (team := rs_team_name roster) in *.
  set (row m := ((team, rm_agent_name m), roster_row at_ m)).
  assert (rows_of team (saved_db roster at_ d) ≡ₚ row <$> rs_members roster) as Hp.
  { apply NoDup_Permutation; [apply NoDup_rows_of| |].
    - apply (NoDup_fmap_1 (fun x => x.1.2)). rewrite <- list_fmap_compose. done.
    - intros [[t a] r]. rewrite elem_of_rows_of, (saved_row _ _ _ _ _ _ Hn), list_elem_of_fmap.
      unfold row. split.
      + intros [-> [[? _]|[_ (m & Hm & <- & ->)]]]; [done|]. by exists m.
      + intros (m & [= -> -> ->] & Hm). split; [done|]. right. split; [done|]. eauto. }
  assert (Forall2 (fun row m => build_roster_member team row.1.2 row.2 = Ok m)
            (row <$> rs_members roster) (rs_members roster)) as Hf.
  { apply Forall2_fmap_l, Forall_Forall2_diag. rewrite Forall_forall in Ht, Hok |- *.
    intros m Hm. cbn. rewrite <- (Ht m Hm). apply row_reads_back. auto. }
  symmetry in Hp. destruct (Forall2_perm_l _ _ _ _ Hp Hf) as (ms & Hms & Hpm).
  exists ms. split; [split; [done|by rewrite <- Hpm]|done].
Qed.

Lemma saved_holds_other roster at_ d team members :
  NoDup (rm_agent_name <$> rs_members roster) -> team <> rs_team_name roster ->
  team_holds d team members ->
  exists members', team_holds (saved_db roster at_ d) team members' /\ members ≡ₚ members'.
Proof.
  intros Hn Hne Hh. eapply (team_holds_perm d); [reflexivity| |exact Hh].
  apply NoDup_Permutation; [apply NoDup_rows_of..|]. intros [[t a] r].
  rewrite !elem_of_rows_of, (saved_row _ _ _ _ _ _ Hn). naive_solver.
Qed.

(** ** The invariant *)

(** The mirror holds, for every team, the members of the durable store, and a
    state of each. *)
Definition mirrors (d : Db) (state : RosterRuntimeState) : Prop :=
  forall team, exists members,
    team_holds d team members
    /\ Mirror.load_team_roster state team ≡ₚ members
    /\ (state !! team = None <-> members = [])
    /\ forall record, state !! team = Some record ->
         dom (ephemeral record) = list_to_set (rm_agent_name <$> members).

Lemma dom_states {B} (f : RosterMember -> B) (members : list RosterMember) :
  dom (list_to_map (reverse ((fun m => (rm_agent_name m, f m)) <$> members)) : gmap AgentName B)
  = list_to_set (rm_agent_name <$> members).
Proof.
  rewrite dom_list_to_map_L, fmap_reverse, <- list_fmap_compose. apply set_eq. intros a.
  rewrite !elem_of_list_to_set, elem_of_reverse. done.
Qed.

Lemma list_to_set_perm (l k : list RosterMember) :
  l ≡ₚ k ->
  (list_to_set (rm_agent_name <$> l) : gset AgentName) = list_to_set (rm_agent_name <$> k).
Proof. intros H. apply set_eq. intros a. by rewrite !elem_of_list_to_set, H. Qed.

Lemma mirrors_saved d state roster at_ :
  mirrors d state ->
  NoDup (rm_agent_name <$> rs_members roster) ->
  Forall (fun m => rm_team_name m = rs_team_name roster) (rs_members roster) ->
  Forall member_ok (rs_members roster) ->
  length (rs_members roster) <= MAX_CANONICAL_ROSTER_MEMBERS ->
  mirrors (saved_db roster at_ d)
    (Mirror.replace_roster state (rs_team_name roster) (rs_members roster)).
Proof.
  intros Hm Hn Ht Hok Hlen team. destruct (decide (team = rs_team_name roster)) as [->|Hne].
  - destruct (saved_holds_team roster at_ d Hn Ht Hok Hlen) as (ms & Hh & Hp).
    exists ms. split; [done|]. unfold Mirror.load_team_roster, Mirror.replace_roster.
    destruct (rs_members roster) as [|m l] eqn:E.
    + apply Permutation_nil_l in Hp. subst ms. rewrite lookup_delete_eq. done.
    + rewrite lookup_insert_eq. split; [done|]. split.
      * split; [done|]. intros ->. symmetry in Hp. by apply Permutation_nil_l in Hp.
      * intros record [= <-]. unfold replaced_with. cbn [ephemeral].
        rewrite dom_states. by apply list_to_set_perm.
  - destruct (Hm team) as (ms & Hh & Hl & Hnone & Hd).
    destruct (saved_holds_other roster at_ d team ms Hn Hne Hh) as (ms' & Hh' & Hp).
    exists ms'. split; [done|].
    assert (Mirror.replace_roster state (rs_team_name roster) (rs_members roster) !! team = state !! team) as E.
    { unfold Mirror.replace_roster. destruct (rs_members roster);
        [by rewrite lookup_delete_ne|by rewrite lookup_insert_ne]. }
    unfold Mirror.load_team_roster in *. rewrite E. split; [by rewrite Hl|]. split.
    + rewrite Hnone. split; intros ->; [by apply Permutation_nil_l in Hp|].
      symmetry in Hp. by apply Permutation_nil_l in Hp.
    + intros record Hr. rewrite (Hd record Hr). by apply list_to_set_perm.
Qed.

(** ** Hydration *)

(** The members the store loads, if it can. *)
Definition loaded (d : Db) (team : TeamName) : list RosterMember :=
  match Roster.load_roster team (mkWorld d 0) with
  | (Ok snapshot, _) => rs_members snapshot
  | _ => []
  end.

Lemma holds_loaded d team members : team_holds d team members -> members = loaded d team.
Proof. intros H. unfold loaded. by rewrite (proj1 (load_roster_holds team members (mkWorld d 0)) H). Qed.

Lemma load_roster_db team w r w' :
  Roster.load_roster team w = (Ok r, w') ->
  w' = w /\ rs_team_name r = team /\ team_holds (db w) team (rs_members r).
Proof.
  intros H. assert (w' = w /\ r = mkRosterSnapshot team (rs_members r) None) as [-> Hr].
  { unfold Roster.load_roster in H. apply run_bind_ok_inv in H as (d & w1 & [= <- <-] & H).
    apply run_bind_ok_inv in H as (ms & w1 & [= _ <-] & H).
    destruct (Nat.ltb _ _); [done|]. by injection H as <- <-. }
  rewrite Hr in H. apply load_roster_holds in H. by rewrite Hr.
Qed.

Lemma hydrate_teams_inv teams rw rw' :
  WriteThrough.hydrate_teams teams rw = (Ok tt, rw') ->
  rw_world rw' = rw_world rw
  /\ (forall t, t ∈ teams -> team_holds (db (rw_world rw)) t (loaded (db (rw_world rw)) t))
  /\ forall t, rw_mirror rw' !! t
      = if bool_decide (t ∈ teams) then Some (from_durable (loaded (db (rw_world rw)) t))
        else rw_mirror rw !! t.
Proof.
  revert rw. induction teams as [|team teams IH]; intros rw; cbn [WriteThrough.hydrate_teams].
  { intros [= <-]. split; [done|]. split; [intros t Ht; by apply not_elem_of_nil in Ht|].
    intros t. by rewrite bool_decide_eq_false_2 by apply not_elem_of_nil. }
  unfold mbind, R_bind, st_mbind, st_bind, durable, get_mirror, put_mirror.
  destruct (Roster.load_roster team (rw_world rw)) as [[snapshot|e|] w1] eqn:Hl; [|done..].
  apply load_roster_db in Hl as (-> & _ & Hh). cbn [rw_mirror rw_world]. intros H.
  apply IH in H as (Hw & Hall & Hlook). cbn [rw_world rw_mirror] in *.
  pose proof (holds_loaded _ _ _ Hh) as Hms. split; [done|]. split.
  - intros t [->|Ht]%elem_of_cons; [by rewrite <- Hms|by apply Hall].
  - intros t. rewrite Hlook. unfold Mirror.hydrate.
    destruct (decide (t = team)) as [->|Hne].
    + rewrite (bool_decide_eq_true_2 (team ∈ team :: teams)) by by left.
      case_bool_decide; [done|]. by rewrite lookup_insert_eq, Hms.
    + rewrite lookup_insert_ne by done. rewrite (bool_decide_ext (t ∈ team :: teams) (t ∈ teams)); [done|].
      rewrite elem_of_cons. naive_solver.
Qed.

Lemma hydrate_teams_runs teams rw :
  (forall t, t ∈ teams -> exists members, team_holds (db (rw_world rw)) t members) ->
  exists rw', WriteThrough.hydrate_teams teams rw = (Ok tt, rw').
Proof.
  revert rw. induction teams as [|team teams IH]; intros rw H; cbn [WriteThrough.hydrate_teams]; [by eexists|].
  destruct (H team) as (ms & Hh); [by left|]. apply load_roster_holds in Hh.
  unfold mbind, R_bind, st_mbind, st_bind, durable, get_mirror, put_mirror. rewrite Hh.
  apply IH. intros t Ht. apply H. by right.
Qed.

(** The teams of the store. *)
Definition stored_teams (d : Db) : list TeamName :=
  remove_dups ((fun row : RosterRow => row.1.1) <$> roster_rows d).

Lemma elem_of_stored_teams d t :
  t ∈ stored_teams d <-> exists a r, team_roster d !! (t, a) = Some r.
Proof.
  unfold stored_teams. rewrite elem_of_remove_dups, list_elem_of_fmap. split.
  - intros ([[t' a] r] & -> & Hr). exists a, r. by apply elem_of_roster_rows.
  - intros (a & r & Hr). exists ((t, a), r). split; [done|]. by apply elem_of_roster_rows.
Qed.

Lemma list_teams_run w :
  keys_ok (db w) -> Roster.list_teams w = (Ok (stored_teams (db w)), w).
Proof.
  intros Hk. unfold Roster.list_teams. rewrite (run_bind get_db _ w (db w) w) by done.
  apply run_lift, collect_iff. change (remove_dups _) with (stored_teams (db w)).
  apply Forall_Forall2_diag, Forall_forall. intros t (a & r & Hr)%elem_of_stored_teams.
  destruct (Hk _ _ _ Hr) as [Ht _]. unfold parse_roster_team, team_name_from_str.
  by rewrite (parse_segment_ok _ _ Ht).
Qed.

Lemma hydrated_mirrors w rw :
  keys_ok (db w) ->
  WriteThrough.hydrate_roster_runtime_from_durable (mkRosterWorld w ∅) = (Ok tt, rw) ->
  rw_world rw = w /\ mirrors (db w) (rw_mirror rw).
Proof.
  intros Hk. unfold WriteThrough.hydrate_roster_runtime_from_durable, mbind, R_bind, st_mbind, st_bind, durable.
  cbn [rw_world rw_mirror]. rewrite (list_teams_run w Hk). intros H.
  apply hydrate_teams_inv in H as (Hw & Hall & Hlook). cbn [rw_world rw_mirror] in *.
  split; [done|]. intros team. unfold Mirror.load_team_roster. rewrite Hlook, lookup_empty.
  case_bool_decide as Hin.
  - exists (loaded (db w) team). pose proof (Hall _ Hin) as Hh. split; [done|]. split; [done|]. split.
    + split; [done|]. intros Hnil. pose proof (proj1 (holds_nil _ _ _ Hh) Hnil) as Hno.
      apply elem_of_stored_teams in Hin as (a & r & Hr). by rewrite Hno in Hr.
    + intros record [= <-]. cbn [from_durable ephemeral]. apply dom_states.
  - exists []. split; [|done]. split; [|cbn; lia].
    destruct (rows_of team (db w)) as [|[[t a] r] rows] eqn:E; [constructor|].
    assert (((t, a), r) ∈ rows_of team (db w)) as Hr by (rewrite E; by left).
    apply elem_of_rows_of in Hr as [-> Hr]. destruct Hin. apply elem_of_stored_teams. eauto.
Qed.

(** ** Observations *)

Lemma has_member_iff record a :
  has_member record a = true <-> a ∈ rm_agent_name <$> entries record.
Proof.
  unfold has_member. rewrite existsb_exists, list_elem_of_fmap. split.
  - intros (m & Hm%list_elem_of_In & <-%String.eqb_eq). eauto.
  - intros (m & -> & Hm). exists m. split; [by apply list_elem_of_In|apply String.eqb_refl].
Qed.

Lemma observe_all_dom record updates states outcomes states' :
  (forall a, a ∈ rm_agent_name <$> entries record -> a ∈ dom states) ->
  Mirror.observe_all record updates states = (outcomes, states') -> dom states' = dom states.
Proof.
  revert states outcomes. induction updates as [|u us IH]; intros states outcomes Hm; cbn [Mirror.observe_all];
    [by intros [= <- <-]|].
  destruct (has_member record (up_agent u)) eqn:E; [|by apply IH].
  apply has_member_iff, Hm in E as Hd.
  set (states1 := <[up_agent u := _]> states).
  assert (dom states1 = dom states) as Hd1 by (unfold states1; rewrite dom_insert_L; set_solver).
  destruct (Mirror.observe_all record us states1) as [os ss] eqn:Ho. intros [= <- <-].
  rewrite <- Hd1. eapply IH; [|exact Ho]. intros a Ha. rewrite Hd1. by apply Hm.
Qed.

(** Replacing the states of a team's members keeps the mirror. *)
Lemma mirrors_states d state team record states :
  mirrors d state -> state !! team = Some record -> dom states = dom (ephemeral record) ->
  mirrors d (<[team := mkTeamRosterRecord (entries record) states]> state).
Proof.
  intros Hm Hr Hd t. destruct (Hm t) as (ms & Hh & Hl & Hn & He). exists ms. split; [done|].
  unfold Mirror.load_team_roster in *. destruct (decide (t = team)) as [->|Hne].
  - rewrite lookup_insert_eq, Hr in *. split; [done|]. split; [by rewrite <- Hn|].
    intros rec [= <-]. cbn [ephemeral]. rewrite Hd. by apply He.
  - by rewrite lookup_insert_ne.
Qed.

Lemma mirrors_members d state team record a :
  mirrors d state -> state !! team = Some record ->
  a ∈ rm_agent_name <$> entries record -> a ∈ dom (ephemeral record).
Proof.
  intros Hm Hr Ha. destruct (Hm team) as (ms & _ & Hl & _ & He). rewrite (He _ Hr).
  unfold Mirror.load_team_roster in Hl. rewrite Hr in Hl. apply elem_of_list_to_set. by rewrite <- Hl.
Qed.

Lemma mirrors_observed d state team updates :
  mirrors d state -> mirrors d (Mirror.apply_runtime_observations state team updates).2.
Proof.
  intros Hm. unfold Mirror.apply_runtime_observations.
  destruct updates as [|u us]; [done|]. destruct (state !! team) as [record|] eqn:Hr; [|done].
  destruct (Mirror.observe_all record (u :: us) (ephemeral record)) as [os ss] eqn:Ho. cbn [snd].
  apply mirrors_states; [done..|]. eapply observe_all_dom; [|exact Ho].
  intros a. by apply (mirrors_members _ _ _ _ _ Hm Hr).
Qed.

Lemma mirrors_wake d state team agent pending :
  mirrors d state -> mirrors d (Mirror.set_herdr_wake_pending state team agent pending).2.
Proof.
  intros Hm. unfold Mirror.set_herdr_wake_pending, Mirror.set_ephemeral_state.
  destruct (state !! team) as [record|] eqn:Hr; [|done].
  destruct (has_member record agent) eqn:Ha; [|done]. cbn [snd]. apply mirrors_states; [done..|].
  apply has_member_iff, (mirrors_members _ _ _ _ _ Hm Hr) in Ha. rewrite dom_insert_L. set_solver.
Qed.

(** ** Operations of the view *)

Inductive RosterOp : Type :=
| Op_SaveRoster (roster : RosterSnapshot)
| Op_Observe (team : TeamName) (updates : list RosterRuntimeObservationUpdate)
| Op_WakePending (team : TeamName) (agent : AgentName) (pending : bool)
| Op_Reload.

Definition run_roster_op (op : RosterOp) : R unit :=
  match op with
  | Op_SaveRoster roster => WriteThrough.view_save_roster roster
  | Op_Observe team updates =>
    state ← get_mirror; put_mirror (Mirror.apply_runtime_observations state team updates).2
  | Op_WakePending team agent pending =>
    state ← get_mirror; put_mirror (Mirror.set_herdr_wake_pending state team agent pending).2
  | Op_Reload => WriteThrough.reload_from_durable
  end.

(** A sequence of operations, whether they succeed or not. *)
Definition run_roster_ops (ops : list RosterOp) (rw : RosterWorld) : RosterWorld :=
  foldl (fun rw op => (run_roster_op op rw).2) rw ops.

(** The members a save is given are values of their types. *)
Definition roster_op_ok (op : RosterOp) : Prop :=
  match op with Op_SaveRoster roster => Forall member_ok (rs_members roster) | _ => True end.

Definition view_ok (rw : RosterWorld) : Prop :=
  keys_ok (db (rw_world rw)) /\ mirrors (db (rw_world rw)) (rw_mirror rw).

Lemma view_saved roster rw :
  Forall member_ok (rs_members roster) -> view_ok rw ->
  view_ok (WriteThrough.view_save_roster roster rw).2.
Proof.
  intros Hok [Hk Hm]. unfold WriteThrough.view_save_roster, mbind, R_bind, st_mbind, st_bind, durable, get_mirror, put_mirror.
  destruct (Roster.save_roster roster (rw_world rw)) as [r w'] eqn:Hs.
  assert (r = Ok tt \/ r <> Ok tt) as [->|Hne] by (destruct r as [[]|e|]; [by left|by right..]).
  - cbn [rw_mirror rw_world snd]. apply save_roster_ok in Hs as (Hlen & _ & Ht & Hn & Hdb).
    unfold view_ok. cbn [rw_mirror rw_world]. rewrite Hdb. split.
    + by apply saved_keys_ok.
    + by apply mirrors_saved.
  - assert (view_ok (mkRosterWorld w' (rw_mirror rw))) as Hv.
    { unfold view_ok. cbn. by rewrite (save_roster_fails _ _ _ _ Hs Hne). }
    by destruct r as [[]|e|].
Qed.

Lemma view_reloaded rw : view_ok rw -> view_ok (WriteThrough.reload_from_durable rw).2.
Proof.
  intros [Hk Hm]. unfold WriteThrough.reload_from_durable.
  change ((put_mirror ∅ ≫= fun _ => WriteThrough.hydrate_roster_runtime_from_durable) rw)
    with (WriteThrough.hydrate_roster_runtime_from_durable (mkRosterWorld (rw_world rw) ∅)).
  assert (exists rw', WriteThrough.hydrate_roster_runtime_from_durable (mkRosterWorld (rw_world rw) ∅)
    = (Ok tt, rw')) as [rw' Hrw].
  { unfold WriteThrough.hydrate_roster_runtime_from_durable, mbind, R_bind, st_mbind, st_bind, durable.
    cbn [rw_world rw_mirror]. rewrite (list_teams_run _ Hk). apply hydrate_teams_runs.
    intros t _. destruct (Hm t) as (ms & Hh & _). by exists ms. }
  rewrite Hrw. apply (hydrated_mirrors _ _ Hk) in Hrw as [Hw Hm']. cbn [snd].
  unfold view_ok. by rewrite Hw.
Qed.

Lemma view_op op rw : roster_op_ok op -> view_ok rw -> view_ok (run_roster_op op rw).2.
Proof.
  intros Hop Hv. pose proof Hv as [Hk Hm]. destruct op; cbn [run_roster_op].
  - by apply view_saved.
  - split; [done|]. cbn. by apply mirrors_observed.
  - split; [done|]. cbn. by apply mirrors_wake.
  - by apply view_reloaded.
Qed.

Lemma view_ops ops rw : Forall roster_op_ok ops -> view_ok rw -> view_ok (run_roster_ops ops rw).
Proof.
  unfold run_roster_ops. revert rw. induction ops as [|op ops IH]; intros rw Hops Hv; [done|].
  apply Forall_cons_1 in Hops as [Hop Hops]. cbn [foldl]. apply IH; [done|]. by apply view_op.
Qed.

Lemma built_view_ok w rw :
  keys_ok (db w) -> WriteThrough.build_write_through_roster w = Ok rw -> view_ok rw.
Proof.
  intros Hk. unfold WriteThrough.build_write_through_roster.
  destruct (WriteThrough.hydrate_roster_runtime_from_durable _) as [[[]|e|] rw'] eqn:H; [|done..].
  intros [= <-]. apply (hydrated_mirrors _ _ Hk) in H as [Hw Hm]. unfold view_ok. by rewrite Hw.
Qed.
End Mirrors.

(** ** The history of a member *)

(** The record after a history of updates. *)
Definition observe_history (history : list RosterRuntimeObservationUpdate)
    (runtime : RosterRuntimeObservation) : RosterRuntimeObservation :=
  foldl (fun r u => out_current (apply_runtime_observation u r)) runtime history.

Lemma observe_history_snoc history u runtime :
  observe_history (history ++ [u]) runtime
  = out_current (apply_runtime_observation u (observe_history history runtime)).
Proof. unfold observe_history. by rewrite foldl_app. Qed.

(** The updates of one member, in order. *)
Definition updates_of (agent : AgentName) (updates : list RosterRuntimeObservationUpdate)
    : list RosterRuntimeObservationUpdate :=
  List.filter (fun u => String.eqb (up_agent u) agent) updates.

Lemma observe_all_member record updates states a s :
  has_member record a = true -> states !! a = Some s ->
  (Mirror.observe_all record updates states).2 !! a
  = Some (mkEphemeralState (observe_history (updates_of a updates) (eph_runtime s))
            (eph_herdr_wake_pending s)).
Proof.
  intros Ha. revert states s. induction updates as [|u us IH]; intros states s Hs; cbn [Mirror.observe_all updates_of List.filter].
  { cbn [snd]. rewrite Hs. by destruct s. }
  destruct (has_member record (up_agent u)) eqn:Hu.
  - set (states1 := <[up_agent u := _]> states).
    assert ((let '(outcomes, states') := Mirror.observe_all record us states1 in
             (apply_runtime_observation u (eph_runtime (default ephemeral_default (states !! up_agent u)))
                :: outcomes, states')).2 = (Mirror.observe_all record us states1).2) as ->
      by by destruct (Mirror.observe_all record us states1).
    destruct (String.eqb_spec (up_agent u) a) as [E|E].
    + erewrite IH; [|unfold states1; rewrite E; apply lookup_insert_eq]. by rewrite Hs.
    + erewrite IH; [done|]. unfold states1. by rewrite lookup_insert_ne.
  - destruct (String.eqb_spec (up_agent u) a) as [E|E]; [congruence|]. by apply IH.
Qed.

(** The last state the history carries. *)
Definition last_state (history : list RosterRuntimeObservationUpdate) : option RuntimeMemberState :=
  last (omap up_state history).

Lemma history_state history :
  obs_state (observe_history history observation_default) = default State_Unknown (last_state history).
Proof.
  induction history as [|u history IH] using rev_ind; [done|].
  rewrite observe_history_snoc. cbn [out_current apply_runtime_observation obs_state]. rewrite IH.
  unfold last_state. rewrite omap_app. cbn [omap list_omap]. destruct (up_state u); cbn [default];
    [by rewrite last_snoc|by rewrite app_nil_r].
Qed.

Lemma history_revision history :
  obs_revision (observe_history history observation_default)
  = Z.min u64_max (Z.of_nat (length (omap up_state history))).
Proof.
  induction history as [|u history IH] using rev_ind; [done|].
  rewrite observe_history_snoc. cbn [out_current apply_runtime_observation obs_revision]. rewrite IH.
  rewrite omap_app, length_app. cbn [omap list_omap]. unfold revision_next, u64_max.
  destruct (up_state u); cbn [length]; [rewrite bool_decide_eq_true_2 by by eexists
    |rewrite bool_decide_eq_false_2 by by intros [? ?]]; lia.
Qed.

(** An update of the history that changed the state, with nothing after it that
    changed it again. *)
Definition last_change (history : list RosterRuntimeObservationUpdate)
    (u : RosterRuntimeObservationUpdate) : Prop :=
  exists before after s,
    history = before ++ u :: after /\ up_state u = Some s
    /\ s <> default State_Unknown (last_state before)
    /\ Forall (fun v => up_state v = None \/ up_state v = Some s) after.

Lemma same_state_after before u s after :
  up_state u = Some s -> Forall (fun v => up_state v = None \/ up_state v = Some s) after ->
  last_state (before ++ u :: after) = Some s.
Proof.
  intros Hu Ha. unfold last_state. rewrite omap_app. cbn [omap list_omap]. rewrite Hu.
  assert (Forall (eq s) (omap up_state after)) as Hs.
  { induction Ha as [|v l Hv _ IH]; [constructor|]. cbn [omap list_omap].
    destruct Hv as [->| ->]; [done|by constructor]. }
  rewrite last_app_cons. clear Ha. induction (omap up_state after) as [|x l IH]; [done|].
  apply Forall_cons_1 in Hs as [<- Hs]. cbn [last] in *. destruct l; [done|]. by apply IH.
Qed.

Lemma history_changed_at history at_ :
  obs_state_changed_at (observe_history history observation_default) = Some at_ <->
  exists u, last_change history u /\ up_observed_at u = at_.
Proof.
  revert at_. induction history as [|u history IH] using rev_ind; intros at_.
  { split; [done|]. intros (u & (before & after & s & H & _) & _). by destruct before. }
  rewrite observe_history_snoc. cbn [out_current apply_runtime_observation obs_state_changed_at].
  unfold state_changed. rewrite history_state. destruct (up_state u) as [s|] eqn:Hu.
  - case_bool_decide as Hne.
    + split.
      * intros [= <-]. exists u. split; [|done]. exists history, [], s. by repeat split.
      * intros (v & (before & after & s' & Hh & Hv & Hd & Ha) & <-). f_equal.
        destruct after as [|x after _] using rev_ind.
        { apply app_inj_tail in Hh as [_ ->]. done. }
        rewrite app_comm_cons, app_assoc in Hh. apply app_inj_tail in Hh as [Hh Hx1]; subst x.
        apply Forall_app in Ha as [Ha Hx]. apply Forall_cons_1 in Hx as [Hx _]. rewrite Hu in Hx.
        destruct Hne. rewrite Hh, (same_state_after _ _ _ _ Hv Ha). cbn. destruct Hx; congruence.
    + rewrite IH. split.
      * intros (v & (before & after & s' & Hh & Hv & Hd & Ha) & Hat). exists v. split; [|done].
        exists before, (after ++ [u]), s'. rewrite Hh, <- app_assoc. split; [done|]. split; [done|].
        split; [done|]. apply Forall_app. split; [done|]. constructor; [|done]. right. rewrite Hu, Hne, Hh.
        by rewrite (same_state_after _ _ _ _ Hv Ha).
      * intros (v & (before & after & s' & Hh & Hv & Hd & Ha) & Hat). exists v. split; [|done].
        destruct after as [|x after _] using rev_ind.
        { apply app_inj_tail in Hh as [-> ->]. rewrite Hu in Hv. congruence. }
        rewrite app_comm_cons, app_assoc in Hh. apply app_inj_tail in Hh as [Hh Hx1]; subst x.
        apply Forall_app in Ha as [Ha _]. by exists before, after, s'.
  - rewrite IH. split.
    + intros (v & (before & after & s' & Hh & Hv & Hd & Ha) & Hat). exists v. split; [|done].
      exists before, (after ++ [u]), s'. rewrite Hh, <- app_assoc. split; [done|]. split; [done|].
      split; [done|]. apply Forall_app. split; [done|]. constructor; [by left|done].
    + intros (v & (before & after & s' & Hh & Hv & Hd & Ha) & Hat). exists v. split; [|done].
      destruct after as [|x after _] using rev_ind.
      { apply app_inj_tail in Hh as [_ ->]. congruence. }
      rewrite app_comm_cons, app_assoc in Hh. apply app_inj_tail in Hh as [Hh Hx1]; subst x.
      apply Forall_app in Ha as [Ha _]. by exists before, after, s'.
Qed.
