(* ===== verification/CronStore.v ===== *)
(** * The cron schedule store

    Models [crates/atm-storage-rusqlite/src/cron_schedule_store.rs] and
    [store_support.rs] over the [cron_schedule] table of [hook_schema.rs]:
    starting, restarting and ending a schedule, listing, and the run and stop
    records of one generation. *)

From S2P Require Import Prelude ErrorCodes Types Address TaskState CronTypes Database Transaction.
From stdpp Require Import base gmap strings list numbers sorting pretty.
Local Open Scope Z_scope.
Local Open Scope string_scope.
Local Open Scope list_scope.

(** ** Stored intents *)

(** The payload of [cron_delivery_intent], before it is serialized. *)
Inductive StoredEvent : Set :=
| StoredEvent_Error (kind : CronFailureKind) (code : option string) (detail : string)
| StoredEvent_Stopped (message : string).

Inductive StoredIntent : Set :=
| StoredIntent_Lifecycle (team recipient name : string) (event : StoredEvent)
| StoredIntent_ModuleMail (message_id team recipient name : string) (output : CronModuleOutput).

(** ** What the code takes from outside *)

(** A reader returns its error text or a value. *)
Class CronRuntime : Type := mkCronRuntime {
  stamp : IsoTimestamp -> string;              (* to_rfc3339_opts(Nanos, true) *)
  timestamp_from_str : string -> string + IsoTimestamp;
      (* the RFC 3339 reader, with its error text *)
  args_to_string : list string -> string;      (* serde_json::to_string of Vec<String> *)
  args_from_str : string -> string + list string;
  object_to_string : list (string * Value) -> string; (* Value::Object(..).to_string() *)
  intent_to_string : StoredIntent -> string;   (* serde_json::to_string of StoredIntent *)
  intent_from_str : string -> string + StoredIntent;
  ulid_from_str : string -> string + AtmMessageId;
  sqlite_message : SqliteErrorCode -> string   (* the message SQLite gives with a failure *)
}.

(** The years 0000 to 9999, which RFC 3339 can write, in nanoseconds. *)
Definition rfc3339_range (t : IsoTimestamp) : Prop :=
  -62167219200000000000 <= t < 253402300800000000000.

(** Readers read back what the writers wrote. *)
Class CronRuntimeOk (rt : Runtime) (crt : CronRuntime) : Prop := {
  stamp_parse : forall t, rfc3339_range t -> timestamp_from_str (stamp t) = inr t;
  args_parse : forall args, args_from_str (args_to_string args) = inr args;
  intent_parse : forall i, intent_from_str (intent_to_string i) = inr i;
  ulid_parse : forall id, (id < 2 ^ 128)%N -> ulid_from_str (ulid_to_string id) = inr id;
  ulid_range : forall n, (ulid_at n < 2 ^ 128)%N
}.

Section CronStore.
Context {rt : Runtime} {crt : CronRuntime}.

(** ** [store_support.rs] *)

Definition internal (key detail : string) : AtmError :=
  atm_error_new InternalError ("stored row " +:+ key +:+ ": " +:+ detail).

(** The [Display] text of the error becomes the detail. *)
Definition map_internal {A} (key : string) (o : string + A) : Outcome AtmError A :=
  match o with
  | inl detail => Err (internal key detail)
  | inr a => Ok a
  end.

Definition parse_stamp (key value : string) : Outcome AtmError IsoTimestamp :=
  map_internal key (timestamp_from_str value).

Definition parse_optional_stamp (key : string) (value : option string)
    : Outcome AtmError (option IsoTimestamp) :=
  option_traverse (parse_stamp key) value.

Definition encode_custom (custom : list (string * Value)) : string := object_to_string custom.

Definition parse_custom (key value : string) : Outcome AtmError (list (string * Value)) :=
  match json_from_str value with
  | Some (Value_Object members) => Ok members
  | _ => Err (internal key "custom is not a JSON object")
  end.

Definition write_error (table : string) (error : RusqliteError) : AtmError :=
  match error with
  | SqliteFailure ConstraintViolation =>
    validation_with_recovery (table +:+ ": " +:+ sqlite_message ConstraintViolation)
      "check the request fields against docs/atm-storage/boundaries.md"
  | other => sqlite_error ("failed to write " +:+ table) other
  end.

(** ** The table *)

Definition TABLE : string := "cron_schedule".

(** The [CHECK] constraints of [CRON_SCHEDULE_DDL]. *)
Definition cron_row_check (r : CronSqlRow) : bool :=
  bool_decide (1 <= c_generation r)
  && bool_decide (0 < c_timeout_ms r)
  && bool_decide (0 <= c_jitter_s r)
  && bool_decide (c_active r = 0 \/ c_active r = 1)
  && bool_decide (c_stop_hook r = 0 \/ c_stop_hook r = 1)
  && Bool.eqb (bool_decide (is_Some (c_until_at r))) (negb (bool_decide (c_stop_hook r = 1)))
  && Bool.eqb (bool_decide (c_active r = 1)) (bool_decide (c_ended_at r = None)).

(** [UNIQUE (team, phase, name)]. *)
Definition cron_unique_key (r : CronSqlRow) : string * string * string :=
  (c_team r, c_phase r, c_name r).

Definition cron_no_clash (id : Z) (r : CronSqlRow) (t : gmap Z CronSqlRow) : bool :=
  bool_decide (map_Forall (fun id' r' => id' = id \/ cron_unique_key r' <> cron_unique_key r) t).

Definition store_cron_row (id : Z) (r : CronSqlRow) (t : gmap Z CronSqlRow)
    : option (gmap Z CronSqlRow) :=
  if cron_row_check r && cron_no_clash id r t then Some (<[id := r]> t) else None.

(** An [UPDATE] visits each selected row once.  None of the statements below
    moves a row onto another's unique key, so the order does not matter. *)
Fixpoint update_cron_rows (f : CronSqlRow -> CronSqlRow) (ids : list Z) (t : gmap Z CronSqlRow)
    : option (gmap Z CronSqlRow) :=
  match ids with
  | [] => Some t
  | id :: rest =>
    match t !! id with
    | None => update_cron_rows f rest t
    | Some r => store_cron_row id (f r) t ≫= update_cron_rows f rest
    end
  end.

Definition select_cron (P : Z -> CronSqlRow -> Prop) `{!forall id r, Decision (P id r)}
    (t : gmap Z CronSqlRow) : list (Z * CronSqlRow) :=
  map_to_list (filter (fun kr => P kr.1 kr.2) t).

Definition put_schedule (t : gmap Z CronSqlRow) (c : CronTables) : CronTables :=
  mkCronTables t (cron_sequence c) (cron_transition_event c) (cron_delivery_intent c).

(** [UPDATE cron_schedule SET f WHERE P]: the number of rows changed. *)
Definition update_cron (P : Z -> CronSqlRow -> Prop) `{!forall id r, Decision (P id r)}
    (f : CronSqlRow -> CronSqlRow) : M Z :=
  d ← get_db;
  let ids := (select_cron P (cron_schedule (cron d))).*1 in
  match update_cron_rows f ids (cron_schedule (cron d)) with
  | Some t => _ ← put_db (set_cron (put_schedule t (cron d)) d); mret (Z.of_nat (length ids))
  | None => fail (write_error TABLE (SqliteFailure ConstraintViolation))
  end.

(** The next [AUTOINCREMENT] key: above every key the table ever had. *)
Definition next_rowid (c : CronTables) : option Z :=
  i64_try_from (map_fold (fun id _ acc => Z.max id acc) (cron_sequence c) (cron_schedule c) + 1).

(** [INSERT INTO cron_schedule] and [last_insert_rowid]. *)
Definition insert_cron (r : CronSqlRow) : M Z :=
  d ← get_db;
  match next_rowid (cron d) with
  | None => fail (write_error TABLE (SqliteFailure DiskFull))
  | Some id =>
    match store_cron_row id r (cron_schedule (cron d)) with
    | Some t =>
      _ ← put_db (set_cron (mkCronTables t id (cron_transition_event (cron d))
                              (cron_delivery_intent (cron d))) d);
      mret id
    | None => fail (write_error TABLE (SqliteFailure ConstraintViolation))
    end
  end.

(** ** Reading rows *)

(** [decode] of one row as [read_raw] reads it. *)
Definition decode_cron (id : Z) (raw : CronSqlRow) : Outcome AtmError CronSchedule :=
  let key := TABLE +:+ " id " +:+ pretty id in
  stop ← match bool_decide (c_stop_hook raw = 1), c_until_at raw with
         | true, None => Ok StopCondition_Hook
         | false, Some until_at => at_ ← parse_stamp key until_at; Ok (StopCondition_Until at_)
         | _, _ => Err (internal key "stop condition is neither hook nor until")
         end;
  args ← map_internal key (args_from_str (c_args raw));
  schedule_id ← (if bool_decide (0 <= id) then Ok id else Err (internal key "id is negative"));
  generation ← match u32_try_from (c_generation raw) with
               | None => Err (internal key "generation is out of range")
               | Some g =>
                 match cron_generation_new g with
                 | Ok g => Ok g
                 | Err _ => Err (internal key "generation is zero")
                 | Panic => Panic
                 end
               end;
  phase ← match phase_id_parse (c_phase raw) with
          | Ok p => Ok p
          | Err e => Err (internal key (message e))
          | Panic => Panic
          end;
  timeout_ms ← match u32_try_from (c_timeout_ms raw) with
               | Some n => Ok n
               | None => Err (internal key "timeout_ms is out of range")
               end;
  jitter_s ← match u32_try_from (c_jitter_s raw) with
             | Some n => Ok n
             | None => Err (internal key "jitter_s is out of range")
             end;
  custom ← parse_custom key (c_custom raw);
  created_at ← parse_stamp key (c_created_at raw);
  last_run_at ← parse_optional_stamp key (c_last_run_at raw);
  ended_at ← parse_optional_stamp key (c_ended_at raw);
  Ok {| sched_id := schedule_id;
        sched_generation := generation;
        sched_team := c_team raw;
        sched_phase := phase;
        sched_name := c_name raw;
        sched_cron_expr := c_cron_expr raw;
        sched_module_path := c_module_path raw;
        sched_cwd := c_cwd raw;
        sched_args := args;
        sched_timeout_ms := timeout_ms;
        sched_jitter_s := jitter_s;
        sched_custom := custom;
        sched_stop := stop;
        sched_active := bool_decide (c_active raw = 1);
        sched_created_by := c_created_by raw;
        sched_created_at := created_at;
        sched_last_run_at := last_run_at;
        sched_last_outcome := c_last_outcome raw;
        sched_ended_at := ended_at |}.

Definition read_cron_rows (rows : list (Z * CronSqlRow)) : Outcome AtmError (list CronSchedule) :=
  collect ((fun kr => decode_cron kr.1 kr.2) <$> rows).

(** [ORDER BY a, ...] on a text column. *)
Definition text_then (a b : string) (rest : Prop) : Prop :=
  (String.le a b /\ a <> b) \/ (a = b /\ rest).

#[export] Instance text_then_dec a b rest `{!Decision rest} : Decision (text_then a b rest).
Proof. unfold text_then. apply _. Defined.

(** [ORDER BY active DESC, created_at, phase, name]. *)
Definition cron_list_le (a b : Z * CronSqlRow) : Prop :=
  c_active b.2 < c_active a.2
  \/ (c_active a.2 = c_active b.2
      /\ text_then (c_created_at a.2) (c_created_at b.2)
           (text_then (c_phase a.2) (c_phase b.2) (String.le (c_name a.2) (c_name b.2)))).

#[export] Instance cron_list_le_dec a b : Decision (cron_list_le a b).
Proof. unfold cron_list_le. apply _. Defined.

(** The [WHERE] clause of [list_query]. *)
Definition cron_listed (team : option TeamName) (phase : option PhaseId) (active_only : bool)
    (id : Z) (r : CronSqlRow) : Prop :=
  (team = None \/ team = Some (c_team r)) /\ (phase = None \/ phase = Some (c_phase r))
  /\ (active_only = false \/ c_active r = 1).

#[export] Instance cron_listed_dec team phase active_only id r :
  Decision (cron_listed team phase active_only id r).
Proof. unfold cron_listed. apply _. Defined.

Definition list_query (team : option TeamName) (phase : option PhaseId) (active_only : bool)
    (d : Db) : Outcome AtmError (list CronSchedule) :=
  read_cron_rows (merge_sort cron_list_le
    (select_cron (cron_listed team phase active_only) (cron_schedule (cron d)))).

(** ** Operations *)

Definition stop_columns (stop : StopCondition) : option string * Z :=
  match stop with
  | StopCondition_Until at_ => (Some (stamp at_), 0)
  | StopCondition_Hook => (None, 1)
  end.

(** [cron_schedule_store::stored_id]. *)
Definition schedule_stored_id (id : CronScheduleId) : option Z := i64_try_from id.

(** The columns of [ScheduleColumns], as [insert] writes them. *)
Definition inserted_row (s : NewCronSchedule) : CronSqlRow :=
  {| c_generation := 1;
     c_team := new_team s;
     c_phase := new_phase s;
     c_name := new_name s;
     c_cron_expr := new_cron_expr s;
     c_module_path := new_module_path s;
     c_cwd := new_cwd s;
     c_args := args_to_string (new_args s);
     c_timeout_ms := new_timeout_ms s;
     c_jitter_s := new_jitter_s s;
     c_custom := encode_custom (new_custom s);
     c_active := 1;
     c_until_at := (stop_columns (new_stop s)).1;
     c_stop_hook := (stop_columns (new_stop s)).2;
     c_created_by := new_created_by s;
     c_created_at := stamp (new_created_at s);
     c_last_run_at := None;
     c_last_outcome := None;
     c_ended_at := None |}.

Definition with_generation (g : Z) (r : CronSqlRow) : CronSqlRow :=
  mkCronSqlRow g (c_team r) (c_phase r) (c_name r) (c_cron_expr r) (c_module_path r) (c_cwd r)
    (c_args r) (c_timeout_ms r) (c_jitter_s r) (c_custom r) (c_active r) (c_until_at r)
    (c_stop_hook r) (c_created_by r) (c_created_at r) (c_last_run_at r) (c_last_outcome r)
    (c_ended_at r).

(** [restart]: every column of the new schedule, the next generation. *)
Definition restarted_row (s : NewCronSchedule) (r : CronSqlRow) : CronSqlRow :=
  with_generation (c_generation r + 1) (inserted_row s).

(** [SET active, last_run_at, last_outcome, ended_at]. *)
Definition with_run_state (active : Z) (last_run_at last_outcome ended_at : option string)
    (r : CronSqlRow) : CronSqlRow :=
  mkCronSqlRow (c_generation r) (c_team r) (c_phase r) (c_name r) (c_cron_expr r)
    (c_module_path r) (c_cwd r) (c_args r) (c_timeout_ms r) (c_jitter_s r) (c_custom r) active
    (c_until_at r) (c_stop_hook r) (c_created_by r) (c_created_at r) last_run_at last_outcome
    ended_at.

Definition named (team : TeamName) (phase : PhaseId) (name : string) (id : Z) (r : CronSqlRow)
    : Prop := c_team r = team /\ c_phase r = phase /\ c_name r = name.

#[export] Instance named_dec team phase name id r : Decision (named team phase name id r).
Proof. unfold named. apply _. Defined.

Definition has_id (wanted id : Z) (r : CronSqlRow) : Prop := id = wanted.

#[export] Instance has_id_dec wanted id r : Decision (has_id wanted id r).
Proof. unfold has_id. apply _. Defined.

Definition already_active (s : NewCronSchedule) : AtmError :=
  validation_with_recovery
    ("cron schedule " +:+ new_name s +:+ " already active for phase " +:+ new_phase s)
    ("run atm cron end --phase " +:+ new_phase s +:+ " " +:+ new_name s +:+ " first").

(** The body of the transaction of [start]. *)
Definition cron_start_in (s : NewCronSchedule) : M CronSchedule :=
  d ← get_db;
  id ← match head (select_cron (named (new_team s) (new_phase s) (new_name s)) (cron_schedule (cron d))) with
       | Some (id, r) =>
         if bool_decide (c_active r = 1) then fail (already_active s)
         else _ ← update_cron (has_id id) (restarted_row s); mret id
       | None => insert_cron (inserted_row s)
       end;
  d ← get_db;
  rows ← lift (read_cron_rows (select_cron (has_id id) (cron_schedule (cron d))));
  ok_or (internal (TABLE +:+ " id " +:+ pretty id) "row missing after start") (last rows).

Definition cron_start (s : NewCronSchedule) : M CronSchedule := with_transaction (cron_start_in s).

(** The [WHERE] clause of [end]. *)
Definition ends (team : TeamName) (phase : PhaseId) (name : option string) (id : Z) (r : CronSqlRow)
    : Prop :=
  c_team r = team /\ c_phase r = phase /\ c_active r = 1 /\ (name = None \/ name = Some (c_name r)).

#[export] Instance ends_dec team phase name id r : Decision (ends team phase name id r).
Proof. unfold ends. apply _. Defined.

(** [ORDER BY created_at, name]. *)
Definition cron_end_le (a b : Z * CronSqlRow) : Prop :=
  text_then (c_created_at a.2) (c_created_at b.2) (String.le (c_name a.2) (c_name b.2)).

#[export] Instance cron_end_le_dec a b : Decision (cron_end_le a b).
Proof. unfold cron_end_le. apply _. Defined.

Definition ended_row (at_ : IsoTimestamp) (r : CronSqlRow) : CronSqlRow :=
  with_run_state 0 (c_last_run_at r) (c_last_outcome r) (Some (stamp at_)) r.

Definition ended_schedule (at_ : IsoTimestamp) (s : CronSchedule) : CronSchedule :=
  mkCronSchedule (sched_id s) (sched_generation s) (sched_team s) (sched_phase s) (sched_name s)
    (sched_cron_expr s) (sched_module_path s) (sched_cwd s) (sched_args s) (sched_timeout_ms s)
    (sched_jitter_s s) (sched_custom s) (sched_stop s) false (sched_created_by s)
    (sched_created_at s) (sched_last_run_at s) (sched_last_outcome s) (Some at_).

Definition cron_end_in (team : TeamName) (phase : PhaseId) (name : option string)
    (at_ : IsoTimestamp) : M (list CronSchedule) :=
  d ← get_db;
  selected ← lift (read_cron_rows (merge_sort cron_end_le
               (select_cron (ends team phase name) (cron_schedule (cron d)))));
  _ ← update_cron (ends team phase name) (ended_row at_);
  mret (ended_schedule at_ <$> selected).

Definition cron_end (team : TeamName) (phase : PhaseId) (name : option string) (at_ : IsoTimestamp)
    : M (list CronSchedule) :=
  with_transaction (cron_end_in team phase name at_).

Definition cron_list (team : option TeamName) (phase : option PhaseId) : M (list CronSchedule) :=
  d ← get_db; lift (list_query team phase false d).

Definition active_all : M (list CronSchedule) :=
  d ← get_db; lift (list_query None None true d).

(** [WHERE id = ?1 AND generation = ?2 AND active = 1]. *)
Definition live_row (wanted generation id : Z) (r : CronSqlRow) : Prop :=
  id = wanted /\ c_generation r = generation /\ c_active r = 1.

#[export] Instance live_row_dec wanted generation id r : Decision (live_row wanted generation id r).
Proof. unfold live_row. apply _. Defined.

Definition run_row (at_ : IsoTimestamp) (outcome : string) (r : CronSqlRow) : CronSqlRow :=
  with_run_state (c_active r) (Some (stamp at_)) (Some outcome) (c_ended_at r) r.

Definition record_run (id : CronScheduleId) (generation : CronGeneration) (at_ : IsoTimestamp)
    (outcome : string) : M bool :=
  match schedule_stored_id id with
  | None => mret false
  | Some id =>
    with_transaction (
      changed ← update_cron (live_row id generation) (run_row at_ outcome);
      mret (bool_decide (changed = 1)))
  end.

Definition stopped_row (at_ : IsoTimestamp) (outcome : string) (r : CronSqlRow) : CronSqlRow :=
  with_run_state 0 (c_last_run_at r) (Some outcome) (Some (stamp at_)) r.

Definition record_stop (id : CronScheduleId) (generation : CronGeneration) (at_ : IsoTimestamp)
    (reason : string) : M bool :=
  match schedule_stored_id id with
  | None => mret false
  | Some id =>
    with_transaction (
      changed ← update_cron (live_row id generation) (stopped_row at_ (stopped_outcome reason));
      mret (bool_decide (changed = 1)))
  end.
End CronStore.

(** * Facts about the cron schedule store

    The invariant of the cron tables, what the statements do under it, and how
    each schedule operation runs. *)

(** ** The invariant of [cron_schedule] *)

Definition cron_unique (t : gmap Z CronSqlRow) : Prop :=
  forall id1 id2 r1 r2, t !! id1 = Some r1 -> t !! id2 = Some r2 ->
    cron_unique_key r1 = cron_unique_key r2 -> id1 = id2.

(** Every row satisfies its [CHECK]s, has a generation a [CronGeneration] can
    hold and a key the [AUTOINCREMENT] sequence has passed; no two rows have the
    same team, phase and name. *)
Record schedules_ok (c : CronTables) : Prop := mkSchedulesOk {
  so_check : forall id r, cron_schedule c !! id = Some r -> cron_row_check r = true;
  so_generation : forall id r, cron_schedule c !! id = Some r -> c_generation r <= u32_max;
  so_id : forall id r, cron_schedule c !! id = Some r -> 1 <= id <= cron_sequence c;
  so_sequence : 0 <= cron_sequence c <= i64_max;
  so_unique : cron_unique (cron_schedule c)
}.

Lemma eqb_bool_decide (P Q : Prop) `{!Decision P, !Decision Q} :
  Bool.eqb (bool_decide P) (bool_decide Q) = true <-> (P <-> Q).
Proof. do 2 case_bool_decide; simpl; naive_solver. Qed.

(** What the [CHECK]s say. *)
Lemma cron_row_checked r :
  cron_row_check r = true <->
  1 <= c_generation r /\ 0 < c_timeout_ms r /\ 0 <= c_jitter_s r
  /\ (c_active r = 0 \/ c_active r = 1) /\ (c_stop_hook r = 0 \/ c_stop_hook r = 1)
  /\ (is_Some (c_until_at r) <-> c_stop_hook r <> 1)
  /\ (c_active r = 1 <-> c_ended_at r = None).
Proof.
  unfold cron_row_check. rewrite !andb_true_iff, !bool_decide_eq_true, <- bool_decide_not.
  rewrite !eqb_bool_decide. tauto.
Qed.

(** ** Selections *)

Lemma elem_of_select (P : Z -> CronSqlRow -> Prop) `{!forall id r, Decision (P id r)} t id r :
  (id, r) ∈ select_cron P t <-> t !! id = Some r /\ P id r.
Proof. unfold select_cron. rewrite elem_of_map_to_list, map_lookup_filter_Some. done. Qed.

Lemma select_NoDup (P : Z -> CronSqlRow -> Prop) `{!forall id r, Decision (P id r)} t :
  NoDup (select_cron P t).*1.
Proof. apply NoDup_fst_map_to_list. Qed.

(** A clause that names the key selects at most its row. *)
Lemma select_one (P : Z -> CronSqlRow -> Prop) `{!forall id r, Decision (P id r)} wanted t :
  (forall id r, P id r -> id = wanted) ->
  select_cron P t
  = match t !! wanted with
    | Some r => if decide (P wanted r) then [(wanted, r)] else []
    | None => []
    end.
Proof.
  intros HP. unfold select_cron. destruct (t !! wanted) as [r|] eqn:Hr.
  - destruct (decide (P wanted r)) as [Hp|Hp].
    + rewrite <- map_to_list_singleton. f_equal. apply map_eq. intros id. apply option_eq. intros r'.
      rewrite map_lookup_filter_Some. simpl. rewrite lookup_singleton_Some. split.
      * intros [Hl Hq]. assert (id = wanted) as -> by by eapply HP. split; [done|congruence].
      * intros [<- <-]. done.
    + rewrite <- map_to_list_empty. f_equal. apply map_empty_filter. intros id r' Hl Hq.
      assert (id = wanted) as -> by by eapply HP. simpl in Hq. rewrite Hr in Hl. injection Hl as ->. done.
  - rewrite <- map_to_list_empty. f_equal. apply map_empty_filter. intros id r' Hl Hq.
    assert (id = wanted) as -> by by eapply HP. congruence.
Qed.

(** At most one row has a given name. *)
Lemma select_named t team phase name :
  cron_unique t ->
  head (select_cron (named team phase name) t) = None
    /\ (forall id r, t !! id = Some r -> cron_unique_key r <> (team, phase, name))
  \/ exists id r, head (select_cron (named team phase name) t) = Some (id, r)
       /\ t !! id = Some r /\ cron_unique_key r = (team, phase, name).
Proof.
  intros Hu. destruct (select_cron (named team phase name) t) as [|[id r] l] eqn:Hs.
  - left. split; [done|]. intros id r Hr Hk.
    assert (Hin : (id, r) ∈ select_cron (named team phase name) t).
    { apply elem_of_select. split; [done|]. by injection Hk as Ht Hp Hn. }
    rewrite Hs in Hin. by apply not_elem_of_nil in Hin.
  - right. exists id, r. split; [done|].
    assert (Hin : (id, r) ∈ select_cron (named team phase name) t) by (rewrite Hs; by left).
    apply elem_of_select in Hin as [Hl (<- & <- & <-)]. done.
Qed.

(** ** Updates *)

(** An assignment that keeps the unique key and the [CHECK]s. *)
Definition keeps_row (f : CronSqlRow -> CronSqlRow) (r : CronSqlRow) : Prop :=
  cron_row_check (f r) = true /\ cron_unique_key (f r) = cron_unique_key r.

Lemma unique_insert t id r r' :
  cron_unique t -> t !! id = Some r -> cron_unique_key r' = cron_unique_key r ->
  cron_unique (<[id := r']> t).
Proof.
  intros Hu Hr Hk id1 id2 r1 r2. rewrite !lookup_insert_Some.
  intros [[<- <-]|[Hn1 H1]] [[<- <-]|[Hn2 H2]] Heq; [done| | |by eapply Hu].
  - rewrite Hk in Heq. by eapply Hu.
  - rewrite Hk in Heq. by eapply Hu.
Qed.

Lemma no_clash_unique t id r r' :
  cron_unique t -> t !! id = Some r -> cron_unique_key r' = cron_unique_key r ->
  cron_no_clash id r' t = true.
Proof.
  intros Hu Hr Hk. apply bool_decide_eq_true. intros id2 r2 H2.
  destruct (decide (id2 = id)) as [->|Hne]; [by left|right]. rewrite Hk. intros Heq.
  apply Hne. by eapply Hu.
Qed.

Lemma store_row_run t id r r' :
  cron_unique t -> t !! id = Some r -> cron_unique_key r' = cron_unique_key r ->
  cron_row_check r' = true -> store_cron_row id r' t = Some (<[id := r']> t).
Proof.
  intros Hu Hr Hk Hc. unfold store_cron_row. rewrite Hc. by erewrite no_clash_unique.
Qed.

Lemma update_cron_rows_run f ids t :
  NoDup ids -> cron_unique t ->
  (forall id r, id ∈ ids -> t !! id = Some r -> keeps_row f r) ->
  exists t', update_cron_rows f ids t = Some t' /\ cron_unique t'
    /\ forall id, t' !! id = if decide (id ∈ ids) then f <$> t !! id else t !! id.
Proof.
  intros Hnd. revert t. induction Hnd as [|id ids Hni Hnd IH]; intros t Hu Hk.
  { exists t. split_and!; [done..|]. intros id. by rewrite decide_False by apply not_elem_of_nil. }
  simpl. destruct (t !! id) as [r|] eqn:Hr.
  - destruct (Hk id r ltac:(by left) Hr) as [Hc Huk].
    rewrite (store_row_run t id r) by done. simpl.
    destruct (IH (<[id := f r]> t)) as (t' & Ht & Hu' & Hl).
    { by eapply unique_insert. }
    { intros id' r' Hin. rewrite lookup_insert_ne by (intros ->; done). intros Hr'.
      apply (Hk id' r'); [by right|done]. }
    exists t'. split_and!; [done..|]. intros id'. rewrite Hl.
    destruct (decide (id' = id)) as [->|Hne].
    + rewrite decide_False by done. rewrite lookup_insert_eq, decide_True by (by left). by rewrite Hr.
    + rewrite lookup_insert_ne by done. destruct (decide (id' ∈ ids)) as [Hin|Hin].
      * by rewrite decide_True by (by right).
      * rewrite decide_False; [done|]. intros [->|?]%elem_of_cons; done.
  - destruct (IH t Hu) as (t' & Ht & Hu' & Hl).
    { intros id' r' Hin. apply Hk. by right. }
    exists t'. split_and!; [done..|]. intros id'. rewrite Hl.
    destruct (decide (id' = id)) as [->|Hne].
    + rewrite decide_False by done. rewrite decide_True by (by left). by rewrite Hr.
    + destruct (decide (id' ∈ ids)) as [Hin|Hin].
      * by rewrite decide_True by (by right).
      * rewrite decide_False; [done|]. intros [->|?]%elem_of_cons; done.
Qed.

(** ** Statements *)

Section Statements.
Context {rt : Runtime} {crt : CronRuntime}.
Implicit Types w : World.

(** The database with another schedule table. *)
Definition with_schedule (t : gmap Z CronSqlRow) (d : Db) : Db := set_cron (put_schedule t (cron d)) d.

Lemma with_schedule_same d : with_schedule (cron_schedule (cron d)) d = d.
Proof. unfold with_schedule, set_cron, put_schedule. destruct d as [????????? []]. done. Qed.

(** An [UPDATE] of the row a run may write: it changes that row, or nothing. *)
Lemma update_live_run id generation f w :
  cron_unique (cron_schedule (cron (db w))) ->
  (forall r, cron_schedule (cron (db w)) !! id = Some r -> c_active r = 1 -> keeps_row f r) ->
  update_cron (live_row id generation) f w
  = match cron_schedule (cron (db w)) !! id with
    | Some r =>
      if decide (live_row id generation id r)
      then (Ok 1, mkWorld (with_schedule (<[id := f r]> (cron_schedule (cron (db w)))) (db w)) (ticks w))
      else (Ok 0, w)
    | None => (Ok 0, w)
    end.
Proof.
  intros Hu Hk. unfold update_cron. run run_get_db.
  rewrite (select_one (live_row id generation) id) by (by intros ?? (-> & _)).
  destruct (cron_schedule (cron (db w)) !! id) as [r|] eqn:Hr.
  - destruct (decide (live_row id generation id r)) as [Hl|Hl]; simpl.
    + destruct (Hk r eq_refl (proj2 (proj2 Hl))) as [Hc Huk].
      rewrite Hr. rewrite (store_row_run _ id r) by done. done.
    + fold (with_schedule (cron_schedule (cron (db w))) (db w)). rewrite with_schedule_same.
      by destruct w.
  - simpl. fold (with_schedule (cron_schedule (cron (db w))) (db w)). rewrite with_schedule_same.
    by destruct w.
Qed.

(** An [UPDATE] of one row by its key. *)
Lemma update_id_run id f r w :
  cron_unique (cron_schedule (cron (db w))) ->
  cron_schedule (cron (db w)) !! id = Some r -> keeps_row f r ->
  update_cron (has_id id) f w
  = (Ok 1, mkWorld (with_schedule (<[id := f r]> (cron_schedule (cron (db w)))) (db w)) (ticks w)).
Proof.
  intros Hu Hr [Hc Huk]. unfold update_cron. run run_get_db.
  rewrite (select_one (has_id id) id) by done. rewrite Hr.
  rewrite decide_True by done. simpl. rewrite Hr, (store_row_run _ id r) by done. done.
Qed.

(** An [UPDATE] of every selected row. *)
Lemma update_many_run (P : Z -> CronSqlRow -> Prop) `{!forall id r, Decision (P id r)} f w :
  cron_unique (cron_schedule (cron (db w))) ->
  (forall id r, cron_schedule (cron (db w)) !! id = Some r -> P id r -> keeps_row f r) ->
  exists t, update_cron P f w
    = (Ok (Z.of_nat (length (select_cron P (cron_schedule (cron (db w)))))),
       mkWorld (with_schedule t (db w)) (ticks w))
    /\ cron_unique t
    /\ forall id, t !! id = (fun r => if decide (P id r) then f r else r) <$> cron_schedule (cron (db w)) !! id.
Proof.
  intros Hu Hk. unfold update_cron. run run_get_db.
  destruct (update_cron_rows_run f (select_cron P (cron_schedule (cron (db w)))).*1
    (cron_schedule (cron (db w)))) as (t & Ht & Hu' & Hl); [apply select_NoDup|done| |].
  { intros id r ([id' r'] & -> & Hin)%list_elem_of_fmap Hr. simpl in Hr.
    apply elem_of_select in Hin as [Hl Hp]. assert (r' = r) as -> by congruence. by eapply Hk. }
  exists t. rewrite Ht. split; [by rewrite length_fmap|]. split; [done|]. intros id. rewrite Hl.
  destruct (cron_schedule (cron (db w)) !! id) as [r|] eqn:Hr; [|by destruct (decide _)]. simpl.
  destruct (decide (P id r)) as [Hp|Hp].
  - rewrite decide_True; [done|]. apply list_elem_of_fmap. exists (id, r). split; [done|].
    by apply elem_of_select.
  - rewrite decide_False; [done|]. intros ([id' r'] & -> & Hin)%list_elem_of_fmap.
    apply elem_of_select in Hin as [Hl' Hp']. simpl in *. congruence.
Qed.

(** The next key is above every key of the table. *)
Lemma fold_max_bound (t : gmap Z CronSqlRow) n :
  (forall id r, t !! id = Some r -> id <= n) ->
  map_fold (fun id _ acc => Z.max id acc) n t = n.
Proof.
  induction t as [|id r t Hn Hfirst IH] using map_first_key_ind; intros Hb; [apply map_fold_empty|].
  rewrite map_fold_insert_first_key by done. rewrite IH.
  - pose proof (Hb id r (lookup_insert_eq _ _ _)). lia.
  - intros id' r' Hr'. apply (Hb id' r'). rewrite lookup_insert_ne; [done|congruence].
Qed.

Lemma next_rowid_run c :
  schedules_ok c -> next_rowid c = i64_try_from (cron_sequence c + 1).
Proof.
  intros Ho. unfold next_rowid. rewrite fold_max_bound; [done|]. intros id r Hr.
  apply (so_id c Ho) in Hr. lia.
Qed.

Lemma insert_cron_run r w :
  schedules_ok (cron (db w)) -> cron_row_check r = true ->
  (forall id r', cron_schedule (cron (db w)) !! id = Some r' -> cron_unique_key r' <> cron_unique_key r) ->
  cron_sequence (cron (db w)) < i64_max ->
  let id := cron_sequence (cron (db w)) + 1 in
  insert_cron r w
  = (Ok id, mkWorld (set_cron (mkCronTables (<[id := r]> (cron_schedule (cron (db w)))) id
                                 (cron_transition_event (cron (db w)))
                                 (cron_delivery_intent (cron (db w)))) (db w)) (ticks w)).
Proof.
  intros Ho Hc Hfresh Hroom id. unfold insert_cron. run run_get_db. rewrite next_rowid_run by done.
  unfold i64_try_from. rewrite bool_decide_eq_true_2 by lia. fold id.
  unfold store_cron_row. rewrite Hc. unfold cron_no_clash. rewrite bool_decide_eq_true_2; [done|].
  intros id' r' Hr'. right. by eapply Hfresh.
Qed.
End Statements.

(** ** Reading a row back *)

(** A well-typed request whose values can be written and read: a [PhaseId],
    [u32] numbers, times RFC 3339 can write, and custom members that their JSON
    text gives back. *)
Record new_schedule_ok {rt : Runtime} {crt : CronRuntime} (s : NewCronSchedule) : Prop := mkNewScheduleOk {
  no_phase : is_phase_id (new_phase s) = true;
  no_timeout : 0 <= new_timeout_ms s <= u32_max;
  no_jitter : 0 <= new_jitter_s s <= u32_max;
  no_created : rfc3339_range (new_created_at s);
  no_stop : match new_stop s with StopCondition_Until at_ => rfc3339_range at_ | _ => True end;
  no_custom : json_from_str (object_to_string (new_custom s)) = Some (Value_Object (new_custom s))
}.

(** The schedule a request starts. *)
Definition started_schedule (id : CronScheduleId) (g : CronGeneration) (s : NewCronSchedule) : CronSchedule :=
  {| sched_id := id;
     sched_generation := g;
     sched_team := new_team s;
     sched_phase := new_phase s;
     sched_name := new_name s;
     sched_cron_expr := new_cron_expr s;
     sched_module_path := new_module_path s;
     sched_cwd := new_cwd s;
     sched_args := new_args s;
     sched_timeout_ms := new_timeout_ms s;
     sched_jitter_s := new_jitter_s s;
     sched_custom := new_custom s;
     sched_stop := new_stop s;
     sched_active := true;
     sched_created_by := new_created_by s;
     sched_created_at := new_created_at s;
     sched_last_run_at := None;
     sched_last_outcome := None;
     sched_ended_at := None |}.

Lemma outcome_bind_ok {E A B} (o : Outcome E A) (f : A -> Outcome E B) a : o = Ok a -> (o ≫= f) = f a.
Proof. by intros ->. Qed.

Ltac rok lem := erewrite outcome_bind_ok; [|solve [eapply lem; eauto]]; cbv beta.

Section Reading.
Context {rt : Runtime} {crt : CronRuntime} {crtok : CronRuntimeOk rt crt}.

Lemma parse_stamp_run key t : rfc3339_range t -> parse_stamp key (stamp t) = Ok t.
Proof. intros Ht. unfold parse_stamp. by rewrite stamp_parse. Qed.

Lemma started_stop key s :
  new_schedule_ok s ->
  match bool_decide ((stop_columns (new_stop s)).2 = 1), (stop_columns (new_stop s)).1 with
  | true, None => Ok StopCondition_Hook
  | false, Some until_at => at_ ← parse_stamp key until_at; Ok (StopCondition_Until at_)
  | _, _ => Err (internal key "stop condition is neither hook nor until")
  end = Ok (new_stop s).
Proof.
  intros Hs. pose proof (no_stop s Hs) as Hr. destruct (new_stop s) as [at_|]; [|done]. simpl.
  by rewrite parse_stamp_run.
Qed.

Lemma decode_started id g s :
  new_schedule_ok s -> 0 <= id -> 1 <= g <= u32_max ->
  decode_cron id (with_generation g (inserted_row s)) = Ok (started_schedule id g s).
Proof.
  intros Hs Hid Hg. unfold decode_cron. cbv zeta. rok started_stop. cbn [with_generation inserted_row c_args].
  rewrite args_parse. cbn [map_internal mbind outcome_mbind outcome_bind].
  cbn [with_generation inserted_row c_generation c_phase c_timeout_ms c_jitter_s c_custom c_created_at
       c_last_run_at c_ended_at].
  rewrite (bool_decide_eq_true_2 _ Hid). cbn [mbind outcome_mbind outcome_bind].
  unfold u32_try_from. rewrite (bool_decide_eq_true_2 (0 <= g <= u32_max)) by lia.
  unfold cron_generation_new. destruct (Z.eqb_spec g 0); [lia|]. cbn [mbind outcome_mbind outcome_bind].
  unfold phase_id_parse. rewrite (no_phase s Hs). cbn [mbind outcome_mbind outcome_bind].
  rewrite (bool_decide_eq_true_2 _ (no_timeout s Hs)). cbn [mbind outcome_mbind outcome_bind].
  rewrite (bool_decide_eq_true_2 _ (no_jitter s Hs)). cbn [mbind outcome_mbind outcome_bind].
  unfold parse_custom, encode_custom. rewrite (no_custom s Hs). cbn [mbind outcome_mbind outcome_bind].
  rewrite parse_stamp_run by apply (no_created s Hs). done.
Qed.

(** The generation after the last does not fit a [CronGeneration]. *)
Lemma decode_generation_exhausted id s :
  new_schedule_ok s -> 0 <= id ->
  decode_cron id (with_generation (u32_max + 1) (inserted_row s))
  = Err (internal (TABLE +:+ " id " +:+ pretty id) "generation is out of range").
Proof.
  intros Hs Hid. unfold decode_cron. cbv zeta. rok started_stop. cbn [with_generation inserted_row c_args].
  rewrite args_parse. cbn [map_internal mbind outcome_mbind outcome_bind].
  rewrite (bool_decide_eq_true_2 _ Hid). cbn [mbind outcome_mbind outcome_bind].
  unfold u32_try_from. cbn [with_generation c_generation].
  by rewrite (bool_decide_eq_false_2 (0 <= u32_max + 1 <= u32_max)) by lia.
Qed.

(** What is read of a row depends on its columns alone: the ended row reads as
    the ended schedule. *)
Lemma decode_ended id r s at_ :
  rfc3339_range at_ -> decode_cron id r = Ok s ->
  decode_cron id (ended_row at_ r) = Ok (ended_schedule at_ s).
Proof.
  intros Hat. unfold decode_cron. cbv zeta. cbn [ended_row with_run_state c_stop_hook c_until_at c_args
    c_generation c_phase c_timeout_ms c_jitter_s c_custom c_created_at c_last_run_at c_ended_at].
  unfold mbind, outcome_mbind.
  repeat match goal with
  | |- outcome_bind _ ?o = Ok _ -> _ => destruct o; [cbn [outcome_bind]|done..]
  end.
  unfold parse_optional_stamp at 1. cbn [option_traverse]. rewrite parse_stamp_run by done.
  cbn [outcome_bind]. by intros [= <-].
Qed.
End Reading.

(** ** Keeping the invariant *)

(** It is about the schedule table alone. *)
Lemma schedules_ok_same c c' :
  cron_schedule c' = cron_schedule c -> cron_sequence c' = cron_sequence c -> schedules_ok c -> schedules_ok c'.
Proof. intros Hs Hq []. by constructor; rewrite ?Hs, ?Hq. Qed.

Lemma schedules_ok_update c id r r' :
  schedules_ok c -> cron_schedule c !! id = Some r ->
  cron_row_check r' = true -> c_generation r' <= u32_max -> cron_unique_key r' = cron_unique_key r ->
  schedules_ok (put_schedule (<[id := r']> (cron_schedule c)) c).
Proof.
  intros Ho Hr Hc Hg Hk. destruct Ho as [Hch Hgen Hid Hseq Hu]. constructor; simpl; [| | |done|].
  - intros id' r1. rewrite lookup_insert_Some. intros [[<- <-]|[_ H]]; eauto.
  - intros id' r1. rewrite lookup_insert_Some. intros [[<- <-]|[_ H]]; eauto.
  - intros id' r1. rewrite lookup_insert_Some. intros [[<- _]|[_ H]]; eauto.
  - by eapply unique_insert.
Qed.

Lemma schedules_ok_insert c r :
  schedules_ok c -> cron_row_check r = true -> c_generation r <= u32_max ->
  (forall id r', cron_schedule c !! id = Some r' -> cron_unique_key r' <> cron_unique_key r) ->
  cron_sequence c < i64_max ->
  schedules_ok (mkCronTables (<[cron_sequence c + 1 := r]> (cron_schedule c)) (cron_sequence c + 1)
                  (cron_transition_event c) (cron_delivery_intent c)).
Proof.
  intros [Hch Hgen Hid Hseq Hu] Hc Hg Hf Hroom. constructor; simpl; [| | |lia|].
  - intros id' r1. rewrite lookup_insert_Some. intros [[<- <-]|[_ H]]; eauto.
  - intros id' r1. rewrite lookup_insert_Some. intros [[<- <-]|[_ H]]; eauto.
  - intros id' r1. rewrite lookup_insert_Some. intros [[<- _]|[_ H]]; [lia|].
    specialize (Hid _ _ H). lia.
  - intros id1 id2 r1 r2. rewrite !lookup_insert_Some.
    intros [[<- <-]|[Hn1 H1]] [[<- <-]|[Hn2 H2]] Heq; [done| | |by eapply Hu].
    + exfalso. by eapply Hf.
    + exfalso. by eapply Hf.
Qed.

(** A table whose rows were changed one by one by an assignment that keeps them. *)
Lemma schedules_ok_many c f (P : Z -> CronSqlRow -> Prop) `{!forall id r, Decision (P id r)} t :
  schedules_ok c -> cron_unique t ->
  (forall r, c_generation (f r) = c_generation r) ->
  (forall id r, cron_schedule c !! id = Some r -> P id r -> cron_row_check (f r) = true) ->
  (forall id, t !! id = (fun r => if decide (P id r) then f r else r) <$> cron_schedule c !! id) ->
  schedules_ok (put_schedule t c).
Proof.
  intros [Hch Hgen Hid Hseq Hu] Hut Hg Hc Hl. constructor; simpl; [| | |done|done];
    intros id r; rewrite Hl; intros (r0 & Hr & ->)%fmap_Some.
  - destruct (decide (P id r0)); eauto.
  - destruct (decide (P id r0)); [rewrite Hg|]; eauto.
  - eauto.
Qed.

Lemma inserted_row_check {rt : Runtime} {crt : CronRuntime} s g :
  new_schedule_ok s -> 0 < new_timeout_ms s -> 1 <= g ->
  cron_row_check (with_generation g (inserted_row s)) = true.
Proof.
  intros Hs Ht Hg. apply cron_row_checked. pose proof (no_jitter s Hs).
  unfold inserted_row, stop_columns. simpl. split_and!; try done; try lia; destruct (new_stop s); simpl; auto.
  - split; [by intros [? [=]]|done].
  - split; [by intros [? [=]]|done].
Qed.

Lemma run_state_check r active run out ended :
  cron_row_check r = true -> active = 0 \/ active = 1 -> (active = 1 <-> ended = None) ->
  cron_row_check (with_run_state active run out ended r) = true.
Proof. rewrite !cron_row_checked. simpl. tauto. Qed.

(** ** Starting *)

Section Operations.
Context {rt : Runtime} {crt : CronRuntime} {crtok : CronRuntimeOk rt crt}.
Implicit Types w : World.

(** How the body of [start] ends. *)
Definition start_succeeds (s : NewCronSchedule) w : Prop :=
  let c := cron (db w) in
  exists id g c', cron_start_in s w = (Ok (started_schedule id g s), mkWorld (set_cron c' (db w)) (ticks w))
     /\ schedules_ok c' /\ cron_schedule c' = <[id := with_generation g (inserted_row s)]> (cron_schedule c)
     /\ cron_transition_event c' = cron_transition_event c /\ cron_delivery_intent c' = cron_delivery_intent c
     /\ ((g = 1 /\ id = cron_sequence c + 1 /\ cron_schedule c !! id = None)
         \/ (exists r, cron_schedule c !! id = Some r /\ c_active r = 0
               /\ cron_unique_key r = (new_team s, new_phase s, new_name s) /\ g = c_generation r + 1)).

(** Why a start is refused. *)
Definition start_refusal (s : NewCronSchedule) (c : CronTables) (e : AtmError) : Prop :=
  (e = already_active s /\ exists id r, cron_schedule c !! id = Some r /\ c_active r = 1
     /\ cron_unique_key r = (new_team s, new_phase s, new_name s))
  \/ (exists id r, cron_schedule c !! id = Some r /\ c_active r = 0 /\ c_generation r = u32_max
     /\ cron_unique_key r = (new_team s, new_phase s, new_name s))
  \/ new_timeout_ms s = 0 \/ cron_sequence c = i64_max.

Definition start_fails (s : NewCronSchedule) w : Prop :=
  exists e w', cron_start_in s w = (Err e, w') /\ start_refusal s (cron (db w)) e.

(** The row just written is read back. *)
Lemma read_started id g s (t : gmap Z CronSqlRow) :
  new_schedule_ok s -> 0 <= id -> 1 <= g <= u32_max ->
  read_cron_rows (select_cron (has_id id) (<[id := with_generation g (inserted_row s)]> t))
  = Ok [started_schedule id g s].
Proof.
  intros Hs Hid Hg. rewrite (select_one (has_id id) id) by done.
  rewrite lookup_insert_eq, decide_True by done. unfold read_cron_rows. simpl. by rewrite decode_started.
Qed.

Lemma zero_timeout_check s g :
  new_timeout_ms s = 0 -> cron_row_check (with_generation g (inserted_row s)) = false.
Proof. intros Hz. apply not_true_is_false. rewrite cron_row_checked. simpl. lia. Qed.

(** No row has the name: it is inserted. *)
Lemma cron_start_new s w :
  schedules_ok (cron (db w)) -> new_schedule_ok s ->
  head (select_cron (named (new_team s) (new_phase s) (new_name s)) (cron_schedule (cron (db w)))) = None ->
  (forall id r, cron_schedule (cron (db w)) !! id = Some r ->
     cron_unique_key r <> (new_team s, new_phase s, new_name s)) ->
  start_succeeds s w \/ start_fails s w.
Proof.
  intros Ho Hs Hnone Hfresh. pose proof (so_sequence _ Ho) as Hseq. pose proof (no_timeout s Hs) as Hto.
  destruct (decide (cron_sequence (cron (db w)) = i64_max)) as [Hfull|Hroom];
    [right|destruct (decide (new_timeout_ms s = 0)) as [Hz|Hz]; [right|left]].
  - eexists _, _. split; [|by do 3 right]. unfold cron_start_in. run run_get_db. rewrite Hnone.
    apply run_bind_err. unfold insert_cron. run run_get_db. rewrite next_rowid_run by done.
    unfold i64_try_from. by rewrite bool_decide_eq_false_2 by lia.
  - eexists _, _. split; [|by do 2 right; left]. unfold cron_start_in. run run_get_db. rewrite Hnone.
    apply run_bind_err. unfold insert_cron. run run_get_db. rewrite next_rowid_run by done.
    unfold i64_try_from. rewrite bool_decide_eq_true_2 by lia. unfold store_cron_row.
    assert (cron_row_check (inserted_row s) = false) as -> by (by apply (zero_timeout_check s 1)). done.
  - assert (Hc : cron_row_check (inserted_row s) = true) by (apply (inserted_row_check s 1); [done|lia..]).
    exists (cron_sequence (cron (db w)) + 1), 1.
    eexists. split; [|split; [apply (schedules_ok_insert (cron (db w)) (inserted_row s)); [done..|lia]|]].
    + unfold cron_start_in. run run_get_db. rewrite Hnone.
      erewrite run_bind; [|apply insert_cron_run; [done..|lia]]. run run_get_db.
      cbn [db set_cron cron cron_schedule].
      change (inserted_row s) with (with_generation 1 (inserted_row s)) at 1.
      rewrite read_started by (done || lia). done.
    + split_and!; [done..|left]. split_and!; [done..|]. apply eq_None_not_Some. intros [r Hr].
      apply (so_id _ Ho) in Hr. lia.
Qed.

(** An ended row has the name: it is restarted, unless its generations are used up. *)
Lemma cron_start_again s w id r :
  schedules_ok (cron (db w)) -> new_schedule_ok s ->
  head (select_cron (named (new_team s) (new_phase s) (new_name s)) (cron_schedule (cron (db w)))) = Some (id, r) ->
  cron_schedule (cron (db w)) !! id = Some r ->
  cron_unique_key r = (new_team s, new_phase s, new_name s) -> c_active r = 0 ->
  start_succeeds s w \/ start_fails s w.
Proof.
  intros Ho Hs Hsome Hr Hk Ha. pose proof (no_timeout s Hs) as Hto.
  pose proof (so_check _ Ho id r Hr) as Hchk. apply cron_row_checked in Hchk as (Hg1 & _).
  pose proof (so_id _ Ho id r Hr) as Hid. pose proof (so_generation _ Ho id r Hr) as Hg2.
  assert (Hkey : cron_unique_key (restarted_row s r) = cron_unique_key r) by (by rewrite Hk).
  destruct (decide (new_timeout_ms s = 0)) as [Hz|Hz].
  { right. eexists _, _. split; [|by do 2 right; left]. unfold cron_start_in. run run_get_db. rewrite Hsome.
    rewrite bool_decide_eq_false_2 by lia. apply run_bind_err, run_bind_err. unfold update_cron.
    run run_get_db. rewrite (select_one (has_id id) id) by done. rewrite Hr, decide_True by done. simpl.
    rewrite Hr. unfold store_cron_row.
    assert (cron_row_check (restarted_row s r) = false) as -> by (by apply zero_timeout_check). done. }
  assert (Hc : cron_row_check (restarted_row s r) = true) by (apply inserted_row_check; [done|lia..]).
  assert (Hup : update_cron (has_id id) (restarted_row s) w
    = (Ok 1, mkWorld (with_schedule (<[id := restarted_row s r]> (cron_schedule (cron (db w)))) (db w)) (ticks w)))
    by (by apply update_id_run; [apply so_unique|..]).
  destruct (decide (c_generation r = u32_max)) as [Hmax|Hmax]; [right|left].
  - eexists _, _. split; [|right; left; by exists id, r].
    unfold cron_start_in. run run_get_db. rewrite Hsome, bool_decide_eq_false_2 by lia.
    erewrite run_bind; [|by erewrite run_bind by exact Hup]. run run_get_db.
    cbn [db with_schedule set_cron cron put_schedule cron_schedule].
    rewrite (select_one (has_id id) id) by done. rewrite lookup_insert_eq, decide_True by done.
    apply run_bind_err. unfold read_cron_rows. simpl. unfold restarted_row. rewrite Hmax.
    by rewrite decode_generation_exhausted by (done || lia).
  - exists id, (c_generation r + 1), (put_schedule (<[id := restarted_row s r]> (cron_schedule (cron (db w)))) (cron (db w))).
    split_and!; [| |done..|right; by exists r].
    + unfold cron_start_in. run run_get_db. rewrite Hsome, bool_decide_eq_false_2 by lia.
      erewrite run_bind; [|by erewrite run_bind by exact Hup]. run run_get_db.
      cbn [db with_schedule set_cron cron put_schedule cron_schedule]. unfold restarted_row.
      rewrite read_started by (done || lia). done.
    + apply (schedules_ok_update _ id r); [done..| |done]. simpl. lia.
Qed.

Lemma cron_start_in_cases s w :
  schedules_ok (cron (db w)) -> new_schedule_ok s -> start_succeeds s w \/ start_fails s w.
Proof.
  intros Ho Hs.
  destruct (select_named (cron_schedule (cron (db w))) (new_team s) (new_phase s) (new_name s) (so_unique _ Ho))
    as [[Hnone Hfresh]|(id & r & Hsome & Hr & Hk)]; [by apply cron_start_new|].
  pose proof (so_check _ Ho id r Hr) as Hchk. apply cron_row_checked in Hchk as (_ & _ & _ & [Ha|Ha] & _).
  { by eapply cron_start_again. }
  right. exists (already_active s), w. split.
  - unfold cron_start_in. run run_get_db. rewrite Hsome, bool_decide_eq_true_2 by done. by apply run_bind_err.
  - left. split; [done|]. eauto 10.
Qed.
(** ** Ending *)

Lemma ended_keeps at_ r : cron_row_check r = true -> keeps_row (ended_row at_) r.
Proof. intros Hc. split; [|done]. apply run_state_check; [done|by left|done]. Qed.

(** Collecting decoded rows. *)
Lemma read_rows_ok rows l :
  read_cron_rows rows = Ok l <-> Forall2 (fun kr s => decode_cron kr.1 kr.2 = Ok s) rows l.
Proof.
  apply collect_iff.
Qed.

Lemma decode_no_panic id r : decode_cron id r <> Panic.
Proof.
  unfold decode_cron, mbind, outcome_mbind, parse_optional_stamp, parse_stamp, map_internal, parse_custom,
    cron_generation_new, phase_id_parse, option_traverse, outcome_bind. cbv zeta.
  repeat (case_match; simplify_eq; try done).
Qed.

Lemma read_rows_no_panic rows : read_cron_rows rows <> Panic.
Proof.
  apply collect_no_panic, Forall_true. intros kr. apply decode_no_panic.
Qed.

Lemma read_rows_err rows e :
  read_cron_rows rows = Err e -> exists id r, (id, r) ∈ rows /\ decode_cron id r = Err e.
Proof.
  unfold read_cron_rows. induction rows as [|[id r] rows IH]; [done|]. rewrite fmap_cons. cbn [collect].
  simpl fst; simpl snd. destruct (decode_cron id r) as [s|e'|] eqn:Hd; cbn [outcome_bind]; [|by intros [= ->]; exists id, r; split; [left|]|done].
  destruct (collect _) as [l|e'|] eqn:Hc; cbn [outcome_bind]; [done| |done]. intros [= ->].
  destruct (IH eq_refl) as (id' & r' & Hin & Hd'). exists id', r'. split; [by right|done].
Qed.

(** The rows an end selects that cannot be read refuse it; otherwise every one of
    them is ended and returned. *)
Lemma cron_end_in_cases team phase name at_ w :
  schedules_ok (cron (db w)) -> rfc3339_range at_ ->
  (exists e, cron_end_in team phase name at_ w = (Err e, w)
     /\ exists id r, cron_schedule (cron (db w)) !! id = Some r /\ ends team phase name id r
          /\ forall s, decode_cron id r <> Ok s)
  \/ (exists l t, cron_end_in team phase name at_ w = (Ok l, mkWorld (with_schedule t (db w)) (ticks w))
     /\ schedules_ok (put_schedule t (cron (db w)))
     /\ (forall id, t !! id = (fun r => if decide (ends team phase name id r) then ended_row at_ r else r)
                               <$> cron_schedule (cron (db w)) !! id)
     /\ forall s, s ∈ l <-> exists id r, cron_schedule (cron (db w)) !! id = Some r
          /\ ends team phase name id r /\ decode_cron id (ended_row at_ r) = Ok s).
Proof.
  intros Ho Hat. unfold cron_end_in.
  set (rows := merge_sort cron_end_le (select_cron (ends team phase name) (cron_schedule (cron (db w))))).
  assert (Hrows : forall id r, (id, r) ∈ rows <-> cron_schedule (cron (db w)) !! id = Some r /\ ends team phase name id r).
  { intros id r. unfold rows. rewrite merge_sort_Permutation. apply elem_of_select. }
  destruct (read_cron_rows rows) as [l|e|] eqn:Hread; [right|left|by apply read_rows_no_panic in Hread].
  - destruct (update_many_run (ends team phase name) (ended_row at_) w) as (t & Hup & Hu & Hl);
      [apply (so_unique _ Ho)|intros id r Hr _; apply ended_keeps; by eapply so_check|].
    exists (ended_schedule at_ <$> l), t. split_and!; [| |done|].
    + run run_get_db. fold rows. rewrite Hread. step. erewrite run_bind by exact Hup. done.
    + apply (schedules_ok_many _ (ended_row at_) (ends team phase name)); [done..| |exact Hl].
      intros id r Hr _. by apply ended_keeps, (so_check _ Ho id).
    + intros s. rewrite list_elem_of_fmap. apply read_rows_ok in Hread. split.
      * intros (s0 & -> & Hin). apply list_elem_of_lookup in Hin as [i Hi].
        destruct (Forall2_lookup_r _ _ _ _ _ Hread Hi) as ([id r] & Hir & Hd).
        apply list_elem_of_lookup_2, Hrows in Hir as [Hr He]. exists id, r. split_and!; [done..|].
        by apply decode_ended.
      * intros (id & r & Hr & He & Hd). assert (Hir : (id, r) ∈ rows) by (by apply Hrows).
        apply list_elem_of_lookup in Hir as [i Hi].
        destruct (Forall2_lookup_l _ _ _ _ _ Hread Hi) as (s0 & Hs0 & Hd0). simpl in Hd0.
        pose proof (decode_ended _ _ _ at_ Hat Hd0) as Hde. exists s0. split; [congruence|].
        by eapply list_elem_of_lookup_2.
  - exists e. split; [run run_get_db; fold rows; by rewrite Hread|].
    destruct (read_rows_err rows e Hread) as (id & r & Hin & Hd). apply Hrows in Hin as [Hr He].
    exists id, r. split_and!; [done..|]. congruence.
Qed.

(** ** Records of a run *)

(** An assignment to the live row of a generation, in its transaction. *)
Lemma live_transaction id generation f w :
  schedules_ok (cron (db w)) ->
  (forall r, cron_schedule (cron (db w)) !! id = Some r -> c_active r = 1 -> keeps_row f r) ->
  match with_transaction (changed ← update_cron (live_row id generation) f; mret (bool_decide (changed = 1))) w with
  | (Ok written, w') =>
    if written : bool
    then exists r, cron_schedule (cron (db w)) !! id = Some r /\ c_generation r = generation /\ c_active r = 1
         /\ db w' = with_schedule (<[id := f r]> (cron_schedule (cron (db w)))) (db w)
    else ~ cron_live (cron (db w)) id generation /\ db w' = db w
  | (Err _, w') => db w' = db w /\ exists n fault, control_fault n = Some fault
  | (Panic, _) => False
  end.
Proof.
  intros Ho Hk.
  destruct (with_transaction_cases (changed ← update_cron (live_row id generation) f;
    mret (bool_decide (changed = 1))) w) as [(e & w' & -> & Hd & Hf)|Hc]; [done|].
  assert (Hup := update_live_run id generation f (tick w) (so_unique _ Ho) Hk). simpl in Hup.
  destruct (cron_schedule (cron (db w)) !! id) as [r|] eqn:Hr;
    [destruct (decide (live_row id generation id r)) as [(_ & Hg & Ha)|Hl]|];
    rewrite (run_bind _ _ _ _ _ Hup) in Hc; simpl in Hc; rewrite Hc; simpl.
  - by exists r.
  - split; [|done]. intros (r' & Hr' & Hg & Ha). apply Hl. split_and!; congruence.
  - split; [|done]. intros (r' & Hr' & _). congruence.
Qed.

Lemma run_keeps at_ out r : cron_row_check r = true -> c_active r = 1 -> keeps_row (run_row at_ out) r.
Proof.
  intros Hc Ha. split; [|done]. pose proof (proj1 (cron_row_checked r) Hc) as (_ & _ & _ & _ & _ & _ & He).
  apply run_state_check; [done|by right|done].
Qed.

Lemma stopped_keeps at_ out r : cron_row_check r = true -> keeps_row (stopped_row at_ out) r.
Proof. intros Hc. split; [|done]. apply run_state_check; [done|by left|done]. Qed.
End Operations.
