(* ===== verification/CronTransition.v ===== *)
(** * The cron transition store

    Models [crates/atm-storage-rusqlite/src/cron_transition_store.rs] over the
    tables [cron_transition_event] and [cron_delivery_intent]: a run's
    transition is committed with its event, the new state of its schedule and
    the deliveries it gives rise to; deliveries are listed and settled. *)

From S2P Require Import Prelude ErrorCodes Types Address TaskState CronTypes Database Transaction.
From S2P Require Import CronStore.
From stdpp Require Import base gmap strings list numbers sorting pretty.
Local Open Scope Z_scope.
Local Open Scope string_scope.
Local Open Scope list_scope.

Definition EVENTS : string := "cron_transition_event".
Definition INTENTS : string := "cron_delivery_intent".

Definition store_query_failed (detail : string) : AtmError := atm_error_new StoreQueryFailed detail.

(** ** Columns of a transition *)

Definition stored_id (id : CronScheduleId) : Outcome AtmError Z :=
  match i64_try_from id with
  | Some id => Ok id
  | None => Err (validation "cron schedule id exceeds SQLite range")
  end.

Definition stored_seq (sequence : Z) : Outcome AtmError Z :=
  match i64_try_from sequence with
  | Some n => Ok n
  | None => Err (validation "cron transition sequence exceeds SQLite range")
  end.

Definition failure_columns (t : CronRunTransition) : string * option CronFailure :=
  match t with
  | Transition_Success _ => ("success", None)
  | Transition_StopCheckContinues => ("continue", None)
  | Transition_Failure failure => ("failure", Some failure)
  | Transition_Stopped _ => ("stopped", None)
  | Transition_SkippedInFlight => ("skipped", None)
  end.

Definition lifecycle_event (t : CronRunTransition) : option CronLifecycleEvent :=
  match t with
  | Transition_Failure failure => Some (LifecycleEvent_Error failure)
  | Transition_Stopped reason => Some (LifecycleEvent_Stopped reason)
  | _ => None
  end.

Definition outcome (t : CronRunTransition) : option string :=
  match t with
  | Transition_Success CronSuccess_Ok => Some "ok"
  | Transition_Success (CronSuccess_Actions count) => Some ("actions:" +:+ pretty count)
  | Transition_Failure failure => Some ("failure:" +:+ failure_detail failure)
  | Transition_Stopped reason => Some ("stopped: " +:+ reason)
  | Transition_StopCheckContinues | Transition_SkippedInFlight => None
  end.

Section CronTransition.
Context {rt : Runtime} {crt : CronRuntime}.

(** ** Payloads *)

Definition stored_intent (intent : CronDeliveryIntent) : StoredIntent :=
  match intent with
  | DeliveryIntent_Lifecycle i =>
    StoredIntent_Lifecycle (intent_team i) (intent_recipient i) (intent_name i)
      (match intent_event i with
       | LifecycleEvent_Error failure =>
         StoredEvent_Error (failure_kind failure) (code_display <$> failure_code failure)
           (failure_detail failure)
       | LifecycleEvent_Stopped message => StoredEvent_Stopped message
       end)
  | DeliveryIntent_ModuleMail i =>
    StoredIntent_ModuleMail (ulid_to_string (mail_message_id i)) (mail_team i) (mail_recipient i)
      (mail_name i) (mail_output i)
  end.

Definition encode_intent (intent : CronDeliveryIntent) : string := intent_to_string (stored_intent intent).

(** [map_err(|error| internal(INTENTS, error.message()))]. *)
Definition map_message {A} (key : string) (o : Outcome AtmError A) : Outcome AtmError A :=
  match o with
  | Ok a => Ok a
  | Err e => Err (internal key (message e))
  | Panic => Panic
  end.

(** [AtmErrorCode::from_str] with the text of [UnknownAtmErrorCode]. *)
Definition code_from_str (value : string) : Outcome AtmError AtmErrorCode :=
  match from_str value with
  | Ok c => Ok c
  | Err v => Err (internal INTENTS ("unknown ATM error code: " +:+ v))
  | Panic => Panic
  end.

Definition decode_event (event : StoredEvent) : Outcome AtmError CronLifecycleEvent :=
  match event with
  | StoredEvent_Error kind code detail =>
    code ← option_traverse code_from_str code;
    detail ← map_message INTENTS (cron_diagnostic_parse detail);
    Ok (LifecycleEvent_Error (mkCronFailure kind code detail))
  | StoredEvent_Stopped m =>
    m ← map_message INTENTS (cron_diagnostic_parse m);
    Ok (LifecycleEvent_Stopped m)
  end.

Definition decode_intent (key : CronDeliveryKey) (payload : string) : Outcome AtmError CronDeliveryIntent :=
  stored ← map_internal INTENTS (intent_from_str payload);
  match key, stored with
  | DeliveryKey_Lifecycle key, StoredIntent_Lifecycle team recipient name event =>
    event ← decode_event event;
    team ← map_message INTENTS (team_name_from_str team);
    recipient ← map_message INTENTS (agent_name_from_str recipient);
    name ← map_message INTENTS (cron_name_parse name);
    Ok (DeliveryIntent_Lifecycle (mkCronNoticeIntent key team recipient name event))
  | DeliveryKey_ModuleMail _ _ _ _, StoredIntent_ModuleMail message_id team recipient name output =>
    message_id ← map_internal INTENTS (ulid_from_str message_id);
    team ← map_message INTENTS (team_name_from_str team);
    recipient ← map_message INTENTS (agent_name_from_str recipient);
    name ← map_message INTENTS (cron_name_parse name);
    Ok (DeliveryIntent_ModuleMail (mkCronModuleMailIntent key message_id team recipient name output))
  | _, _ => Err (internal INTENTS "stored delivery kind does not match its key")
  end.

(** ** The tables *)

(** The [CHECK] constraints of [cron_transition_event]. *)
Definition cron_event_check (k : CronEventKey) (r : CronEventSqlRow) : bool :=
  bool_decide (1 <= k.1.2) && bool_decide (1 <= k.2)
  && bool_decide (ce_transition_kind r ∈ ["success"; "continue"; "failure"; "stopped"])
  && Bool.eqb (bool_decide (ce_transition_kind r = "failure")) (bool_decide (is_Some (ce_failure_kind r)))
  && (bool_decide (is_Some (ce_failure_kind r))
      || (bool_decide (ce_failure_code r = None) && bool_decide (ce_failure_detail r = None)))
  && (bool_decide (ce_failure_kind r = None) || bool_decide (is_Some (ce_failure_detail r))).

(** [UNIQUE (schedule_id, generation, transition_at)]. *)
Definition cron_event_no_clash (k : CronEventKey) (r : CronEventSqlRow)
    (t : gmap CronEventKey CronEventSqlRow) : bool :=
  bool_decide (map_Forall (fun k' r' => k'.1 <> k.1 \/ ce_transition_at r' <> ce_transition_at r) t).

Definition put_events (t : gmap CronEventKey CronEventSqlRow) (c : CronTables) : CronTables :=
  mkCronTables (cron_schedule c) (cron_sequence c) t (cron_delivery_intent c).
Definition put_intents (t : gmap CronIntentKey CronIntentSqlRow) (c : CronTables) : CronTables :=
  mkCronTables (cron_schedule c) (cron_sequence c) (cron_transition_event c) t.

(** [INSERT INTO cron_transition_event]. *)
Definition insert_cron_event (k : CronEventKey) (r : CronEventSqlRow) : M unit :=
  d ← get_db;
  let t := cron_transition_event (cron d) in
  if bool_decide (t !! k = None) && cron_event_check k r && cron_event_no_clash k r t
  then put_db (set_cron (put_events (<[k := r]> t) (cron d)) d)
  else fail (write_error EVENTS (SqliteFailure ConstraintViolation)).

(** The [CHECK] constraints of [cron_delivery_intent]. *)
Definition cron_intent_check (k : CronIntentKey) (r : CronIntentSqlRow) : bool :=
  let '(_, _, seq, _, kind) := k in
  bool_decide (1 <= seq)
  && bool_decide (kind ∈ ["lifecycle"; "module_mail"])
  && bool_decide (ci_state r ∈ ["pending"; "delivered"; "suppressed"; "recipient_unavailable"; "unknown"])
  && Bool.eqb (bool_decide (ci_state r = "unknown")) (bool_decide (is_Some (ci_retry_cause r))).

(** The primary key, in which a [NULL] output index is distinct from every
    other, and the unique index on [(..., kind, COALESCE(output_index, -1))]. *)
Definition cron_intent_clash (a b : CronIntentKey) : Prop :=
  let '(ida, ga, sa, oa, ka) := a in
  let '(idb, gb, sb, ob, kb) := b in
  ida = idb /\ ga = gb /\ sa = sb
  /\ ((oa = ob /\ is_Some oa) \/ (ka = kb /\ default (-1) oa = default (-1) ob)).

#[export] Instance cron_intent_clash_dec a b : Decision (cron_intent_clash a b).
Proof. unfold cron_intent_clash. repeat case_match. apply _. Defined.

(** [INSERT INTO cron_delivery_intent]. *)
Definition insert_cron_intent (k : CronIntentKey) (payload : string) : M unit :=
  d ← get_db;
  let t := cron_delivery_intent (cron d) in
  let r := mkCronIntentSqlRow payload "pending" None None in
  if cron_intent_check k r && bool_decide (map_Forall (fun k' _ => ~ cron_intent_clash k' k) t)
  then put_db (set_cron (put_intents (<[k := r]> t) (cron d)) d)
  else fail (store_query_failed ("failed to persist cron delivery intent: "
                                 +:+ sqlite_display (SqliteFailure ConstraintViolation))).

Definition persist_intent (intent : CronDeliveryIntent) : M unit :=
  let columns :=
    match intent with
    | DeliveryIntent_Lifecycle i =>
      Ok (notice_schedule_id (intent_key i), notice_generation (intent_key i),
          notice_transition_seq (intent_key i), None, "lifecycle")
    | DeliveryIntent_ModuleMail i =>
      match mail_key i with
      | DeliveryKey_ModuleMail schedule_id generation transition_seq output_index =>
        Ok (schedule_id, generation, transition_seq, Some output_index, "module_mail")
      | DeliveryKey_Lifecycle _ => Panic
      end
    end in
  '(id, generation, sequence, output_index, kind) ← lift columns;
  id ← lift (stored_id id);
  sequence ← lift (stored_seq sequence);
  insert_cron_intent (id, generation, sequence, output_index, kind) (encode_intent intent).

(** ** Committing a transition *)

(** The events of one generation of a schedule. *)
Definition events_of (d : Db) (id generation : Z) : list (CronEventKey * CronEventSqlRow) :=
  map_to_list (filter (fun kr : CronEventKey * CronEventSqlRow => kr.1.1 = (id, generation))
                 (cron_transition_event (cron d))).

(** [COALESCE(MAX(transition_seq), 0)]. *)
Definition max_transition_seq (rows : list (CronEventKey * CronEventSqlRow)) : Z :=
  foldr (fun kr acc => Z.max kr.1.2 acc) 0 rows.

(** [ORDER BY transition_seq DESC LIMIT 1]. *)
Definition latest_event (rows : list (CronEventKey * CronEventSqlRow)) : option CronEventSqlRow :=
  snd <$> head (filter (fun kr => kr.1.2 = max_transition_seq rows) rows).

(** [row.get] of a [String] column. *)
Definition get_text (index : Z) (name : string) (value : option string)
    : Outcome RusqliteError string :=
  match value with
  | Some v => Ok v
  | None => Err (InvalidColumnType index name)
  end.

(** [SELECT failure_kind, failure_code, failure_detail ... LIMIT 1]: the latest
    event of any kind. *)
Definition prior_failure_row (d : Db) (id generation : Z)
    : Outcome RusqliteError (option (string * option string * string)) :=
  match latest_event (events_of d id generation) with
  | None => Ok None
  | Some r =>
    kind ← get_text 0 "failure_kind" (ce_failure_kind r);
    detail ← get_text 2 "failure_detail" (ce_failure_detail r);
    Ok (Some (kind, ce_failure_code r, detail))
  end.

Definition prior_failure (id generation : Z) : M (option (string * option string * string)) :=
  d ← get_db;
  match prior_failure_row d id generation with
  | Ok prior => mret prior
  | Err e => fail (store_query_failed ("failed to read prior cron failure: " +:+ sqlite_display e))
  | Panic => st_panic
  end.

(** [repeated_failure]. *)
Definition repeated_failure (failure : option CronFailure)
    (prior : option (string * option string * string)) : bool :=
  match failure, prior with
  | Some current, Some (kind, code, detail) =>
    String.eqb kind (failure_kind_debug (failure_kind current))
    && bool_decide (code = code_display <$> failure_code current)
    && String.eqb detail (failure_detail current)
  | _, _ => false
  end.

(** The [UPDATE] of the schedule: a stopped run ends it. *)
Definition transition_row (at_ : IsoTimestamp) (outcome kind : string) (r : CronSqlRow) : CronSqlRow :=
  if String.eqb kind "stopped"
  then with_run_state 0 (Some (stamp at_)) (Some outcome) (Some (stamp at_)) r
  else with_run_state (c_active r) (Some (stamp at_)) (Some outcome) (c_ended_at r) r.

(** The schedule's team, creator and name, parsed for each delivery. *)
Definition delivery_names (r : CronSqlRow) : Outcome AtmError (TeamName * AgentName * CronName) :=
  team ← map_message EVENTS (team_name_from_str (c_team r));
  recipient ← map_message EVENTS (agent_name_from_str (c_created_by r));
  name ← map_message EVENTS (cron_name_parse (c_name r));
  Ok (team, recipient, name).

Definition notice_intents (key : CronNoticeKey) (r : CronSqlRow) (event : option CronLifecycleEvent)
    : Outcome AtmError (list CronDeliveryIntent) :=
  match event with
  | None => Ok []
  | Some event =>
    '(team, recipient, name) ← delivery_names r;
    Ok [DeliveryIntent_Lifecycle (mkCronNoticeIntent key team recipient name event)]
  end.

(** [AtmMessageId::new]. *)
Definition new_message_id : M AtmMessageId :=
  fun w => (Ok (ulid_at (ticks w)), mkWorld (db w) (S (ticks w))).

Fixpoint mail_intents (key : CronNoticeKey) (r : CronSqlRow) (index : Z)
    (outputs : list CronModuleOutput) : M (list CronDeliveryIntent) :=
  match outputs with
  | [] => mret []
  | output :: rest =>
    output_index ← (if bool_decide (index <= 65535) then mret index
                    else fail (validation "cron transition has too many outputs"));
    message_id ← new_message_id;
    '(team, recipient, name) ← lift (delivery_names r);
    let intent := DeliveryIntent_ModuleMail
      (mkCronModuleMailIntent
         (DeliveryKey_ModuleMail (notice_schedule_id key) (notice_generation key)
            (notice_transition_seq key) output_index)
         message_id team recipient name output) in
    intents ← mail_intents key r (index + 1) rest;
    mret (intent :: intents)
  end.

(** [SELECT COALESCE(MAX(transition_seq), 0) + 1]: past [i64::MAX] SQLite answers
    with a real number, which is not read as an [i64]. *)
Definition next_transition_seq (id generation : Z) : M Z :=
  d ← get_db;
  ok_or (store_query_failed ("failed to select cron transition sequence: "
           +:+ sqlite_display (InvalidColumnType 0 "COALESCE(MAX(transition_seq), 0) + 1")))
    (i64_try_from (max_transition_seq (events_of d id generation) + 1)).

(** The body of the transaction of [commit]. *)
Definition commit_in (write : CronTransitionWrite) : M CronCommitResult :=
  let generation := write_generation write in
  id ← lift (stored_id (write_id write));
  d ← get_db;
  match head (select_cron (live_row id generation) (cron_schedule (cron d))) with
  | None => mret Commit_StaleGeneration
  | Some (_, r) =>
    let '(kind, failure) := failure_columns (write_transition write) in
    prior ← (if String.eqb kind "failure" then prior_failure id generation else mret None);
    next ← next_transition_seq id generation;
    _ ← insert_cron_event (id, generation, next)
          (mkCronEventSqlRow (stamp (write_at write)) kind
             ((fun f => failure_kind_debug (failure_kind f)) <$> failure)
             (failure ≫= (fun f => code_display <$> failure_code f))
             (failure_detail <$> failure));
    _ ← match outcome (write_transition write) with
        | Some o => _ ← update_cron (live_row id generation) (transition_row (write_at write) o kind);
                    mret tt
        | None => mret tt
        end;
    sequence ← (if bool_decide (0 <= next) then mret next
                else fail (internal EVENTS "negative transition sequence"));
    let key := mkCronNoticeKey (write_id write) generation sequence in
    let event := if repeated_failure failure prior then None else lifecycle_event (write_transition write) in
    notices ← lift (notice_intents key r event);
    mails ← mail_intents key r 0 (write_outputs write);
    _ ← st_iter persist_intent (notices ++ mails);
    mret (Commit_Applied (notices ++ mails))
  end.

Definition commit (write : CronTransitionWrite) : M CronCommitResult :=
  match write_transition write with
  | Transition_SkippedInFlight => mret (Commit_Applied [])
  | _ => with_transaction (commit_in write)
  end.

(** ** Deliveries *)

(** [WHERE state IN ('pending', 'unknown')]. *)
Definition undelivered (r : CronIntentSqlRow) : Prop := ci_state r = "pending" \/ ci_state r = "unknown".

#[export] Instance undelivered_dec r : Decision (undelivered r).
Proof. unfold undelivered. apply _. Defined.

(** [ORDER BY schedule_id, generation, transition_seq, COALESCE(output_index, -1)]. *)
Definition intent_le (a b : CronIntentKey * CronIntentSqlRow) : Prop :=
  let '(ida, ga, sa, oa, _) := a.1 in
  let '(idb, gb, sb, ob, _) := b.1 in
  ida < idb \/ (ida = idb /\ (ga < gb \/ (ga = gb /\ (sa < sb \/ (sa = sb /\ default (-1) oa <= default (-1) ob))))).

#[export] Instance intent_le_dec a b : Decision (intent_le a b).
Proof. unfold intent_le. repeat case_match. apply _. Defined.

Definition pending_key (k : CronIntentKey) : Outcome AtmError CronDeliveryKey :=
  let '(id, generation, sequence, output_index, kind) := k in
  schedule_id ← (if bool_decide (0 <= id) then Ok id else Err (internal INTENTS "negative schedule id"));
  generation ← match u32_try_from generation with
               | None => Err (internal INTENTS "invalid generation")
               | Some g =>
                 match cron_generation_new g with
                 | Ok g => Ok g
                 | Err _ => Err (internal INTENTS "zero generation")
                 | Panic => Panic
                 end
               end;
  transition_seq ← (if bool_decide (0 <= sequence) then Ok sequence
                    else Err (internal INTENTS "negative sequence"));
  if String.eqb kind "lifecycle"
  then Ok (DeliveryKey_Lifecycle (mkCronNoticeKey schedule_id generation transition_seq))
  else
    match output_index with
    | None => Err (internal INTENTS "module output missing index")
    | Some index =>
      if bool_decide (0 <= index <= 65535)
      then Ok (DeliveryKey_ModuleMail schedule_id generation transition_seq index)
      else Err (internal INTENTS "invalid output index")
    end.

Definition decode_pending (kr : CronIntentKey * CronIntentSqlRow) : Outcome AtmError PendingCronDelivery :=
  key ← pending_key kr.1;
  intent ← decode_intent key (ci_payload kr.2);
  if String.eqb (ci_state kr.2) "unknown"
  then
    match ci_retry_cause kr.2 with
    | None => Err (internal INTENTS "unknown delivery missing retry cause")
    | Some cause =>
      cause ← map_message INTENTS (delivery_retry_cause_parse cause);
      Ok (Pending_ReconciliationRequired intent cause)
    end
  else Ok (Pending_ReadyToSend intent).

Definition pending_rows (d : Db) (limit : Z) : list (CronIntentKey * CronIntentSqlRow) :=
  take (Z.to_nat (default i64_max (i64_try_from limit)))
    (merge_sort intent_le (map_to_list
       (filter (fun kr : CronIntentKey * CronIntentSqlRow => undelivered kr.2)
          (cron_delivery_intent (cron d))))).

Definition pending (limit : Z) : M (list PendingCronDelivery) :=
  d ← get_db; lift (collect (decode_pending <$> pending_rows d limit)).

(** [WHERE ... AND ((output_index IS NULL AND ?7 IS NULL) OR output_index = ?7)
    AND state = 'pending']. *)
Definition settles (id generation sequence : Z) (output_index : option Z)
    (k : CronIntentKey) (r : CronIntentSqlRow) : Prop :=
  let '(id', generation', sequence', output_index', _) := k in
  id' = id /\ generation' = generation /\ sequence' = sequence /\ output_index' = output_index
  /\ ci_state r = "pending".

#[export] Instance settles_dec id generation sequence output_index k r :
  Decision (settles id generation sequence output_index k r).
Proof. unfold settles. repeat case_match. apply _. Defined.

(** The columns [(state, receipt, retry_cause)] of a receipt. *)
Definition receipt_columns (receipt : DeliveryReceipt) : string * option string * option string :=
  match receipt with
  | Receipt_Accepted receipt_id => ("delivered", Some receipt_id, None)
  | Receipt_Suppressed => ("suppressed", None, None)
  | Receipt_RecipientUnavailable => ("recipient_unavailable", None, None)
  | Receipt_Unknown retry_cause => ("unknown", None, Some retry_cause)
  end.

Definition settled_row (receipt : DeliveryReceipt) (r : CronIntentSqlRow) : CronIntentSqlRow :=
  let '(state, text, cause) := receipt_columns receipt in
  mkCronIntentSqlRow (ci_payload r) state text cause.

(** The key columns of a delivery. *)
Definition key_columns (key : CronDeliveryKey) : Z * Z * Z * option Z :=
  match key with
  | DeliveryKey_Lifecycle key =>
    (notice_schedule_id key, notice_generation key, notice_transition_seq key, None)
  | DeliveryKey_ModuleMail schedule_id generation transition_seq output_index =>
    (schedule_id, generation, transition_seq, Some output_index)
  end.

(** [UPDATE cron_delivery_intent]: the new state satisfies the [CHECK]s. *)
Definition settle (id generation sequence : Z) (output_index : option Z) (receipt : DeliveryReceipt)
    : M Z :=
  d ← get_db;
  let t := cron_delivery_intent (cron d) in
  let chosen := filter (fun kr : CronIntentKey * CronIntentSqlRow =>
                          settles id generation sequence output_index kr.1 kr.2) t in
  if bool_decide (map_Forall (fun k r => cron_intent_check k (settled_row receipt r) = true) chosen)
  then
    _ ← put_db (set_cron (put_intents ((settled_row receipt <$> chosen) ∪ t) (cron d)) d);
    mret (Z.of_nat (size chosen))
  else fail (write_error INTENTS (SqliteFailure ConstraintViolation)).

Definition mark_delivered_in (key : CronDeliveryKey) (receipt : DeliveryReceipt) : M bool :=
  let '(id, generation, sequence, output_index) := key_columns key in
  id ← lift (stored_id id);
  sequence ← lift (stored_seq sequence);
  changed ← settle id generation sequence output_index receipt;
  mret (bool_decide (changed = 1)).

Definition mark_delivered (key : CronDeliveryKey) (receipt : DeliveryReceipt) : M bool :=
  with_transaction (mark_delivered_in key receipt).
End CronTransition.

(** * Facts about the cron transition store

    The invariant of the three cron tables, the numbering of a generation's
    events, and how a commit runs. *)

From S2P Require Import CronStore.

(** ** The invariant *)

(** A key and the event it needs: a lifecycle notice has no output index and is
    about a failed or stopped run, a module mail has a [u16] index. *)
Definition intent_key_ok (c : CronTables) (k : CronIntentKey) : Prop :=
  let '(id, g, s, o, kind) := k in
  exists ev, cron_transition_event c !! (id, g, s) = Some ev
    /\ ((kind = "lifecycle" /\ o = None /\ (ce_transition_kind ev = "failure" \/ ce_transition_kind ev = "stopped"))
        \/ (kind = "module_mail" /\ exists i, o = Some i /\ 0 <= i <= 65535)).

(** The events of a generation are numbered from 1 without gaps, no two at the
    same time, for a generation its schedule has reached; every delivery belongs
    to an event. *)
Record cron_inv (c : CronTables) : Prop := mkCronInv {
  inv_schedules : schedules_ok c;
  inv_event : forall id g s ev, cron_transition_event c !! (id, g, s) = Some ev ->
    cron_event_check (id, g, s) ev = true
    /\ exists r, cron_schedule c !! id = Some r /\ g <= c_generation r;
  inv_numbered : forall id g s s', is_Some (cron_transition_event c !! (id, g, s)) ->
    1 <= s' <= s -> is_Some (cron_transition_event c !! (id, g, s'));
  inv_stamps : forall id g s s' ev ev', cron_transition_event c !! (id, g, s) = Some ev ->
    cron_transition_event c !! (id, g, s') = Some ev' ->
    ce_transition_at ev = ce_transition_at ev' -> s = s';
  inv_intent : forall k r, cron_delivery_intent c !! k = Some r ->
    cron_intent_check k r = true /\ intent_key_ok c k
}.

Lemma event_checked id g s ev :
  cron_event_check (id, g, s) ev = true <->
  1 <= g /\ 1 <= s /\ ce_transition_kind ev ∈ ["success"; "continue"; "failure"; "stopped"]
  /\ (ce_transition_kind ev = "failure" <-> is_Some (ce_failure_kind ev))
  /\ (is_Some (ce_failure_kind ev) \/ (ce_failure_code ev = None /\ ce_failure_detail ev = None))
  /\ (ce_failure_kind ev = None \/ is_Some (ce_failure_detail ev)).
Proof.
  unfold cron_event_check. simpl.
  rewrite !andb_true_iff, !orb_true_iff, !andb_true_iff, !bool_decide_eq_true, !eqb_bool_decide. tauto.
Qed.

(** ** Numbering *)

Lemma elem_of_events d id g k ev :
  (k, ev) ∈ events_of d id g <-> cron_transition_event (cron d) !! k = Some ev /\ k.1 = (id, g).
Proof. unfold events_of. rewrite elem_of_map_to_list, map_lookup_filter_Some. done. Qed.

Lemma max_seq_ge rows kr : kr ∈ rows -> kr.1.2 <= max_transition_seq rows.
Proof.
  induction rows as [|a rows IH]; [by intros ?%elem_of_nil|]. simpl.
  intros [->|Hin]%elem_of_cons; [lia|]. specialize (IH Hin). lia.
Qed.

Lemma max_seq_in rows : max_transition_seq rows = 0 \/ exists kr, kr ∈ rows /\ kr.1.2 = max_transition_seq rows.
Proof.
  induction rows as [|a rows IH]; [by left|]. simpl.
  destruct (Z.max_spec a.1.2 (max_transition_seq rows)) as [[_ ->]|[_ ->]].
  - destruct IH as [->|(kr & Hin & Heq)]; [by left|right]. exists kr. split; [by right|done].
  - right. exists a. split; [by left|done].
Qed.

(** The number of the last event of a generation, 0 when it has none. *)
Definition last_seq (d : Db) (id g : Z) : Z := max_transition_seq (events_of d id g).

Lemma last_seq_ub d id g s : is_Some (cron_transition_event (cron d) !! (id, g, s)) -> s <= last_seq d id g.
Proof. intros [ev Hev]. apply (max_seq_ge _ ((id, g, s), ev)). by apply elem_of_events. Qed.

Lemma last_seq_found d id g :
  last_seq d id g <> 0 -> is_Some (cron_transition_event (cron d) !! (id, g, last_seq d id g)).
Proof.
  intros Hn. destruct (max_seq_in (events_of d id g)) as [H0|([[[i g'] s] ev] & Hin & Hs)]; [done|].
  apply elem_of_events in Hin as [Hl Hk]. simpl in Hk, Hs. injection Hk as -> ->.
  unfold last_seq. rewrite <- Hs. eauto.
Qed.

Lemma last_seq_nonneg d id g : cron_inv (cron d) -> 0 <= last_seq d id g.
Proof.
  intros Hi. destruct (decide (last_seq d id g = 0)) as [->|Hn]; [done|].
  destruct (last_seq_found d id g Hn) as [ev Hev]. apply (inv_event _ Hi) in Hev as [Hc _].
  apply event_checked in Hc. lia.
Qed.

(** The events of a generation are those numbered 1 to the last. *)
Lemma event_iff d id g s :
  cron_inv (cron d) -> is_Some (cron_transition_event (cron d) !! (id, g, s)) <-> 1 <= s <= last_seq d id g.
Proof.
  intros Hi. split.
  - intros Hs. split; [|by apply last_seq_ub]. destruct Hs as [ev Hev].
    apply (inv_event _ Hi) in Hev as [Hc _]. apply event_checked in Hc. lia.
  - intros Hs. eapply (inv_numbered _ Hi); [apply last_seq_found; lia|done].
Qed.

(** The query for the latest event. *)
Lemma latest_event_run d id g :
  cron_inv (cron d) ->
  latest_event (events_of d id g) = cron_transition_event (cron d) !! (id, g, last_seq d id g).
Proof.
  intros Hi. unfold latest_event. fold (last_seq d id g).
  destruct (filter _ (events_of d id g)) as [|[[[i g'] s] ev] l] eqn:Hf.
  - symmetry. simpl. apply eq_None_not_Some. intros [ev Hev].
    assert (Hin : ((id, g, last_seq d id g), ev) ∈ filter (fun kr : CronEventKey * CronEventSqlRow =>
      kr.1.2 = last_seq d id g) (events_of d id g)).
    { apply list_elem_of_filter. split; [done|]. by apply elem_of_events. }
    rewrite Hf in Hin. by apply not_elem_of_nil in Hin.
  - simpl. assert (Hin : ((i, g', s), ev) ∈ filter (fun kr : CronEventKey * CronEventSqlRow =>
      kr.1.2 = last_seq d id g) (events_of d id g)) by (rewrite Hf; by left).
    apply list_elem_of_filter in Hin as [Hs Hin]. apply elem_of_events in Hin as [Hl Hk].
    simpl in Hs, Hk. injection Hk as -> ->. by rewrite <- Hs.
Qed.

(** ** Deliveries written by a commit *)

(** The key columns [persist_intent] writes. *)
Definition intent_row_key (i : CronDeliveryIntent) : CronIntentKey :=
  match i with
  | DeliveryIntent_Lifecycle i =>
    (notice_schedule_id (intent_key i), notice_generation (intent_key i),
     notice_transition_seq (intent_key i), None, "lifecycle")
  | DeliveryIntent_ModuleMail i =>
    match mail_key i with
    | DeliveryKey_ModuleMail id g s o => (id, g, s, Some o, "module_mail")
    | DeliveryKey_Lifecycle key =>
      (notice_schedule_id key, notice_generation key, notice_transition_seq key, None, "module_mail")
    end
  end.

Section Commit.
Context {rt : Runtime} {crt : CronRuntime}.
Implicit Types w : World.

(** The row of a delivery not yet sent. *)
Definition fresh_row (i : CronDeliveryIntent) : CronIntentSqlRow :=
  mkCronIntentSqlRow (encode_intent i) "pending" None None.

Definition add_intents (l : list CronDeliveryIntent) (t : gmap CronIntentKey CronIntentSqlRow)
    : gmap CronIntentKey CronIntentSqlRow :=
  foldl (fun t i => <[intent_row_key i := fresh_row i]> t) t l.

Definition with_intents (t : gmap CronIntentKey CronIntentSqlRow) (d : Db) : Db :=
  set_cron (put_intents t (cron d)) d.

(** The deliveries of one commit: one notice at most, one mail per output. *)
Definition notice_of (key : CronNoticeKey) (names : TeamName * AgentName * CronName)
    (event : option CronLifecycleEvent) : list CronDeliveryIntent :=
  match event with
  | None => []
  | Some e => [DeliveryIntent_Lifecycle (mkCronNoticeIntent key names.1.1 names.1.2 names.2 e)]
  end.

Fixpoint mails_of (key : CronNoticeKey) (names : TeamName * AgentName * CronName) (clock : nat)
    (index : Z) (outputs : list CronModuleOutput) : list CronDeliveryIntent :=
  match outputs with
  | [] => []
  | output :: rest =>
    DeliveryIntent_ModuleMail
      (mkCronModuleMailIntent
         (DeliveryKey_ModuleMail (notice_schedule_id key) (notice_generation key)
            (notice_transition_seq key) index)
         (ulid_at clock) names.1.1 names.1.2 names.2 output)
    :: mails_of key names (S clock) (index + 1) rest
  end.

Lemma mails_run key r names outputs index w :
  (outputs <> [] -> delivery_names r = Ok names) -> index + Z.of_nat (length outputs) <= 65536 ->
  mail_intents key r index outputs w
  = (Ok (mails_of key names (ticks w) index outputs), mkWorld (db w) (ticks w + length outputs)).
Proof.
  destruct (decide (outputs = [])) as [->|Hne].
  { intros _ _. simpl. rewrite Nat.add_0_r. by destruct w. }
  intros Hn. specialize (Hn Hne). clear Hne. revert index w.
  induction outputs as [|o outputs IH]; intros index w Hlen; simpl.
  { rewrite Nat.add_0_r. by destruct w. }
  simpl in Hlen. rewrite bool_decide_eq_true_2 by lia. step. step. erewrite run_bind by (by rewrite Hn).
  destruct names as [[team recipient] name]. simpl.
  erewrite run_bind by (apply IH; lia). simpl. unfold mret, M_ret, st_ret. repeat f_equal. lia.
Qed.

(** Every mail belongs to the transition, with its index. *)
Lemma mails_keys key names clock index outputs i :
  i ∈ mails_of key names clock index outputs ->
  exists o, index <= o < index + Z.of_nat (length outputs)
    /\ intent_row_key i = (notice_schedule_id key, notice_generation key, notice_transition_seq key, Some o, "module_mail").
Proof.
  revert clock index. induction outputs as [|out outputs IH]; intros clock index; simpl.
  { by intros ?%elem_of_nil. }
  intros [->|Hin]%elem_of_cons.
  - exists index. split; [lia|done].
  - apply IH in Hin as (o & Ho & Hk). exists o. split; [lia|done].
Qed.

(** ** Persisting *)

(** What [persist_intent] needs of an intent: a key of the right kind whose
    numbers SQLite can hold. *)
Definition intent_storable (i : CronDeliveryIntent) : Prop :=
  match i with
  | DeliveryIntent_Lifecycle i => notice_schedule_id (intent_key i) <= i64_max
      /\ 1 <= notice_transition_seq (intent_key i) <= i64_max
  | DeliveryIntent_ModuleMail i =>
    match mail_key i with
    | DeliveryKey_ModuleMail id _ s _ => id <= i64_max /\ 1 <= s <= i64_max
    | DeliveryKey_Lifecycle _ => False
    end
  end.

Lemma persist_intents_run i w :
  intent_storable i ->
  map_Forall (fun k _ => ~ cron_intent_clash k (intent_row_key i)) (cron_delivery_intent (cron (db w))) ->
  persist_intent i w
  = (Ok tt, mkWorld (with_intents (<[intent_row_key i := fresh_row i]> (cron_delivery_intent (cron (db w)))) (db w))
              (ticks w)).
Proof.
  intros Hs Hc. unfold persist_intent.
  assert (Hins : insert_cron_intent (intent_row_key i) (encode_intent i) w
    = (Ok tt, mkWorld (with_intents (<[intent_row_key i := fresh_row i]> (cron_delivery_intent (cron (db w)))) (db w))
                (ticks w))).
  { unfold insert_cron_intent. run run_get_db.
    assert (cron_intent_check (intent_row_key i) (mkCronIntentSqlRow (encode_intent i) "pending" None None) = true) as ->.
    { unfold cron_intent_check, intent_row_key.
      destruct i as [i|i]; simpl in Hs; [|destruct (mail_key i); [done|]];
        rewrite bool_decide_eq_true_2 by lia; done. }
    by rewrite bool_decide_eq_true_2. }
  destruct i as [i|i]; simpl in Hs.
  - step. unfold stored_id, stored_seq, i64_try_from.
    rewrite !bool_decide_eq_true_2 by lia. step. step. exact Hins.
  - unfold intent_row_key in *. destruct (mail_key i) as [|id g s o]; [done|].
    step. unfold stored_id, stored_seq, i64_try_from.
    rewrite !bool_decide_eq_true_2 by lia. step. step. exact Hins.
Qed.

Lemma persist_all l w :
  Forall intent_storable l ->
  (forall i, i ∈ l -> map_Forall (fun k _ => ~ cron_intent_clash k (intent_row_key i)) (cron_delivery_intent (cron (db w)))) ->
  ForallOrdPairs (fun a b => ~ cron_intent_clash (intent_row_key a) (intent_row_key b)) l ->
  st_iter persist_intent l w
  = (Ok tt, mkWorld (with_intents (add_intents l (cron_delivery_intent (cron (db w)))) (db w)) (ticks w)).
Proof.
  revert w. induction l as [|i l IH]; intros w Hs Hc Hp; simpl.
  { unfold mret, st_ret. f_equal. destruct w as [d n]. destruct d as [????????? []]. done. }
  apply Forall_cons in Hs as [Hi Hs]. inversion_clear Hp as [|?? Hpi Hpl].
  erewrite run_bind by (apply persist_intents_run; [done|apply Hc; by left]).
  rewrite IH; [done|done| |done].
  intros j Hj. cbn [db with_intents set_cron cron put_intents cron_delivery_intent].
  apply map_Forall_insert_2; [by rewrite Forall_forall in Hpi; apply Hpi|].
  apply Hc. by right.
Qed.

(** The table with the new rows. *)
Lemma add_intents_lookup l t k :
  NoDup (intent_row_key <$> l) ->
  add_intents l t !! k
  = match list_find (fun i => intent_row_key i = k) l with
    | Some (_, i) => Some (fresh_row i)
    | None => t !! k
    end.
Proof.
  revert t. induction l as [|i l IH]; intros t Hnd; [done|]. simpl. fold (add_intents l (<[intent_row_key i:=fresh_row i]> t)).
  apply NoDup_cons in Hnd as [Hni Hnd]. rewrite IH by done.
  destruct (decide (intent_row_key i = k)) as [<-|Hne].
  - destruct (list_find _ l) as [[n j]|] eqn:Hf.
    + exfalso. apply Hni. apply list_find_Some in Hf as (Hj & Hk & _). apply list_elem_of_fmap.
      exists j. split; [done|]. by eapply list_elem_of_lookup_2.
    + by rewrite lookup_insert_eq.
  - destruct (list_find _ l) as [[n j]|]; simpl; [done|]. by rewrite lookup_insert_ne.
Qed.

(** ** The prior failure *)

(** The event a commit writes. *)
Definition event_row (write : CronTransitionWrite) : CronEventSqlRow :=
  let '(kind, failure) := failure_columns (write_transition write) in
  mkCronEventSqlRow (stamp (write_at write)) kind
    ((fun f => failure_kind_debug (failure_kind f)) <$> failure)
    (failure ≫= (fun f => code_display <$> failure_code f))
    (failure_detail <$> failure).

Definition latest (d : Db) (id g : Z) : option CronEventSqlRow :=
  cron_transition_event (cron d) !! (id, g, last_seq d id g).

(** The columns of the latest event, when it is a failure. *)
Definition prior_columns (ev : CronEventSqlRow) : option (string * option string * string) :=
  kind ← ce_failure_kind ev; detail ← ce_failure_detail ev; Some (kind, ce_failure_code ev, detail).

Lemma latest_checked d id g ev :
  cron_inv (cron d) -> latest d id g = Some ev -> cron_event_check (id, g, last_seq d id g) ev = true.
Proof. intros Hi Hl. by apply (inv_event _ Hi) in Hl as [Hc _]. Qed.

Lemma prior_failure_run id g w :
  cron_inv (cron (db w)) ->
  (forall ev, latest (db w) id g = Some ev -> ce_transition_kind ev = "failure") ->
  prior_failure id g w = (Ok (latest (db w) id g ≫= prior_columns), w).
Proof.
  intros Hi Hk. unfold prior_failure. run run_get_db. unfold prior_failure_row.
  rewrite latest_event_run by done. fold (latest (db w) id g).
  destruct (latest (db w) id g) as [ev|] eqn:Hl; [|done].
  pose proof (latest_checked _ _ _ _ Hi Hl) as Hc.
  apply event_checked in Hc as (_ & _ & _ & Hfk & _ & Hfd).
  destruct (proj1 Hfk (Hk ev eq_refl)) as [kind Hkind].
  destruct Hfd as [Hn|[detail Hd]]; [congruence|].
  cbn [mbind option_bind]. unfold prior_columns. rewrite Hkind, Hd. done.
Qed.

(** The query fails when the latest event of the generation is not a failure. *)
Lemma prior_failure_err id g ev w :
  cron_inv (cron (db w)) -> latest (db w) id g = Some ev -> ce_transition_kind ev <> "failure" ->
  prior_failure id g w
  = (Err (store_query_failed ("failed to read prior cron failure: "
                              +:+ sqlite_display (InvalidColumnType 0 "failure_kind"))), w).
Proof.
  intros Hi Hl Hk. unfold prior_failure. run run_get_db. unfold prior_failure_row.
  rewrite latest_event_run by done. fold (latest (db w) id g). rewrite Hl.
  pose proof (latest_checked _ _ _ _ Hi Hl) as Hc. apply event_checked in Hc as (_ & _ & _ & Hfk & _).
  destruct (ce_failure_kind ev) as [k|]; [|done]. exfalso. apply Hk, Hfk. eauto.
Qed.

(** ** Running a commit *)

(** The lifecycle event a commit announces: none for a failure that repeats the
    latest. *)
Definition commit_event (write : CronTransitionWrite) w : option CronLifecycleEvent :=
  let prior := match write_transition write with
               | Transition_Failure _ =>
                 latest (db w) (write_id write) (write_generation write) ≫= prior_columns
               | _ => None
               end in
  if repeated_failure (failure_columns (write_transition write)).2 prior then None
  else lifecycle_event (write_transition write).

(** The deliveries of a commit. *)
Definition commit_key (write : CronTransitionWrite) w : CronNoticeKey :=
  mkCronNoticeKey (write_id write) (write_generation write)
    (last_seq (db w) (write_id write) (write_generation write) + 1).

Definition commit_intents (write : CronTransitionWrite) (names : TeamName * AgentName * CronName) w
    : list CronDeliveryIntent :=
  notice_of (commit_key write w) names (commit_event write w)
  ++ mails_of (commit_key write w) names (ticks w) 0 (write_outputs write).

(** A commit that delivers something needs the names of its schedule. *)
Definition delivers (write : CronTransitionWrite) w : Prop :=
  commit_event write w <> None \/ write_outputs write <> [].

(** When a transition can be committed: its schedule is live and its names can
    be written into a delivery, no event of the generation has its time, the
    latest event does not stand in the way of a failure, and the counters have
    room. *)
Record commit_ready (write : CronTransitionWrite) (r : CronSqlRow)
    (names : TeamName * AgentName * CronName) w : Prop := mkCommitReady {
  ready_row : cron_schedule (cron (db w)) !! write_id write = Some r;
  ready_generation : c_generation r = write_generation write;
  ready_active : c_active r = 1;
  ready_names : delivers write w -> delivery_names r = Ok names;
  ready_kind : write_transition write <> Transition_SkippedInFlight;
  ready_stamp : forall s ev, cron_transition_event (cron (db w)) !! (write_id write, write_generation write, s) = Some ev ->
    ce_transition_at ev <> stamp (write_at write);
  ready_prior : forall f ev, write_transition write = Transition_Failure f ->
    latest (db w) (write_id write) (write_generation write) = Some ev -> ce_transition_kind ev = "failure";
  ready_outputs : Z.of_nat (length (write_outputs write)) <= 65536;
  ready_room : last_seq (db w) (write_id write) (write_generation write) < i64_max
}.

(** Its schedule row. *)
Definition committed_row (write : CronTransitionWrite) (r : CronSqlRow) : CronSqlRow :=
  match outcome (write_transition write) with
  | Some o => transition_row (write_at write) o (failure_columns (write_transition write)).1 r
  | None => r
  end.

Definition committed_tables (write : CronTransitionWrite) (r : CronSqlRow)
    (names : TeamName * AgentName * CronName) w : CronTables :=
  let c := cron (db w) in
  mkCronTables (<[write_id write := committed_row write r]> (cron_schedule c)) (cron_sequence c)
    (<[(write_id write, write_generation write,
        last_seq (db w) (write_id write) (write_generation write) + 1) := event_row write]>
       (cron_transition_event c))
    (add_intents (commit_intents write names w) (cron_delivery_intent c)).

Lemma transition_keeps at_ o kind r :
  cron_row_check r = true -> c_active r = 1 -> keeps_row (transition_row at_ o kind) r.
Proof.
  intros Hc Ha. pose proof (proj1 (cron_row_checked r) Hc) as (_ & _ & _ & _ & _ & _ & He).
  unfold transition_row. split; destruct (String.eqb kind "stopped"); try done.
  - apply run_state_check; [done|by left|done].
Qed.

Lemma transition_generation at_ o kind r : c_generation (transition_row at_ o kind r) = c_generation r.
Proof. unfold transition_row. by destruct (String.eqb kind "stopped"). Qed.

Lemma event_row_check write g s :
  write_transition write <> Transition_SkippedInFlight -> 1 <= g -> 1 <= s ->
  forall id, cron_event_check (id, g, s) (event_row write) = true.
Proof.
  intros Hk Hg Hs id. apply event_checked. unfold event_row.
  destruct (write_transition write); simpl; split_and!; try done; try set_solver; try naive_solver.
Qed.

(** The deliveries of one transition never share a key. *)
Lemma mails_pairs key names clock index outputs :
  ForallOrdPairs (fun a b => ~ cron_intent_clash (intent_row_key a) (intent_row_key b))
    (mails_of key names clock index outputs).
Proof.
  revert clock index. induction outputs as [|o outputs IH]; intros clock index; simpl; constructor; [|apply IH].
  apply Forall_forall. intros i Hi. apply mails_keys in Hi as (o' & Ho' & ->). simpl.
  intros (_ & _ & _ & [[[= <-] _]|[_ Heq]]); [lia|]. simpl in Heq. lia.
Qed.

Lemma commit_pairs write names w :
  ForallOrdPairs (fun a b => ~ cron_intent_clash (intent_row_key a) (intent_row_key b)) (commit_intents write names w).
Proof.
  unfold commit_intents, notice_of. destruct (commit_event write w) as [e|]; [|apply mails_pairs].
  constructor; [|apply mails_pairs]. apply Forall_forall. intros i Hi.
  apply mails_keys in Hi as (o' & Ho' & ->). simpl. intros (_ & _ & _ & [[[=] _]|[[=] _]]).
Qed.

(** Every delivery of a commit has the key of its event. *)
Lemma commit_intent_keys write names w i :
  i ∈ commit_intents write names w ->
  exists o kind, intent_row_key i
    = (write_id write, write_generation write,
       last_seq (db w) (write_id write) (write_generation write) + 1, o, kind)
    /\ ((kind = "lifecycle" /\ o = None /\ exists e, commit_event write w = Some e)
        \/ (kind = "module_mail" /\ exists n, o = Some n /\ 0 <= n < Z.of_nat (length (write_outputs write)))).
Proof.
  unfold commit_intents. intros [Hi|Hi]%elem_of_app.
  - unfold notice_of in Hi. destruct (commit_event write w) as [e|] eqn:He; [|by apply elem_of_nil in Hi].
    apply list_elem_of_singleton in Hi as ->. exists None, "lifecycle". split; [done|left]. eauto.
  - apply mails_keys in Hi as (o & Ho & Hk). exists (Some o), "module_mail". split; [done|right]. eauto.
Qed.

Definition with_events (t : gmap CronEventKey CronEventSqlRow) (d : Db) : Db :=
  set_cron (put_events t (cron d)) d.

Lemma insert_event_run id g s ev w :
  cron_transition_event (cron (db w)) !! (id, g, s) = None -> cron_event_check (id, g, s) ev = true ->
  (forall s' ev', cron_transition_event (cron (db w)) !! (id, g, s') = Some ev' ->
     ce_transition_at ev' <> ce_transition_at ev) ->
  insert_cron_event (id, g, s) ev w
  = (Ok tt, mkWorld (with_events (<[(id, g, s) := ev]> (cron_transition_event (cron (db w)))) (db w)) (ticks w)).
Proof.
  intros Hn Hc Hs. unfold insert_cron_event. run run_get_db.
  rewrite bool_decide_eq_true_2, Hc by done. unfold cron_event_no_clash. rewrite bool_decide_eq_true_2; [done|].
  intros [[id' g'] s'] ev' Hev'. simpl. destruct (decide ((id', g') = (id, g))) as [[= -> ->]|Hne]; [right|by left].
  by eapply Hs.
Qed.

Lemma prior_query_run write w :
  cron_inv (cron (db w)) ->
  (forall f ev, write_transition write = Transition_Failure f ->
    latest (db w) (write_id write) (write_generation write) = Some ev -> ce_transition_kind ev = "failure") ->
  (if String.eqb (failure_columns (write_transition write)).1 "failure"
   then prior_failure (write_id write) (write_generation write) else mret None) w
  = (Ok (match write_transition write with
         | Transition_Failure _ => latest (db w) (write_id write) (write_generation write) ≫= prior_columns
         | _ => None
         end), w).
Proof.
  intros Hi Hp. destruct (write_transition write) as [o| |f|reason|] eqn:Ht; try done.
  apply prior_failure_run; [done|]. intros ev. by apply (Hp f).
Qed.

(** The schedule's [UPDATE], if the transition has an outcome. *)
Lemma outcome_update_run write r w :
  schedules_ok (cron (db w)) -> cron_schedule (cron (db w)) !! write_id write = Some r ->
  c_generation r = write_generation write -> c_active r = 1 ->
  match outcome (write_transition write) with
  | Some o => _ ← update_cron (live_row (write_id write) (write_generation write))
                    (transition_row (write_at write) o (failure_columns (write_transition write)).1);
              mret tt
  | None => mret tt
  end w
  = (Ok tt, mkWorld (with_schedule (<[write_id write := committed_row write r]> (cron_schedule (cron (db w)))) (db w))
              (ticks w)).
Proof.
  intros Ho Hr Hg Ha. unfold committed_row. destruct (outcome (write_transition write)) as [o|].
  - erewrite run_bind; [reflexivity|]. rewrite update_live_run; [|by apply so_unique|].
    + rewrite Hr. by rewrite decide_True.
    + intros r' Hr' Ha'. apply transition_keeps; [by eapply so_check|done].
  - rewrite insert_id by done. rewrite with_schedule_same. by destruct w.
Qed.

Lemma notice_run key r names e :
  (e <> None -> delivery_names r = Ok names) -> notice_intents key r e = Ok (notice_of key names e).
Proof.
  intros Hn. unfold notice_intents, notice_of. destruct e as [e|]; [|done]. rewrite Hn by done.
  by destruct names as [[??] ?].
Qed.

Lemma commit_storable write names w :
  cron_inv (cron (db w)) -> write_id write <= i64_max ->
  last_seq (db w) (write_id write) (write_generation write) < i64_max ->
  Forall intent_storable (commit_intents write names w).
Proof.
  intros Hi Hid Hroom. pose proof (last_seq_nonneg (db w) (write_id write) (write_generation write) Hi).
  apply Forall_app. split.
  - unfold notice_of. destruct (commit_event write w); repeat constructor; simpl; lia.
  - generalize (ticks w) 0. induction (write_outputs write) as [|o outputs IH]; intros clock index; simpl;
      constructor; [simpl; lia|apply IH].
Qed.

(** No delivery of an event that is not there yet. *)
Lemma new_event_no_clash write names w i :
  cron_inv (cron (db w)) -> i ∈ commit_intents write names w ->
  map_Forall (fun k _ => ~ cron_intent_clash k (intent_row_key i)) (cron_delivery_intent (cron (db w))).
Proof.
  intros Hi Hin [[[[id g] s] o] kind] row Hrow. apply commit_intent_keys in Hin as (o' & kind' & -> & _).
  apply (inv_intent _ Hi) in Hrow as [_ (ev & Hev & _)]. simpl. intros (-> & -> & -> & _).
  assert (Hs : is_Some (cron_transition_event (cron (db w)) !! (write_id write, write_generation write,
    last_seq (db w) (write_id write) (write_generation write) + 1))) by eauto.
  apply last_seq_ub in Hs. lia.
Qed.

(** The world after the event and the schedule are written. *)
Definition recorded write r w : World :=
  mkWorld (set_cron (mkCronTables (<[write_id write := committed_row write r]> (cron_schedule (cron (db w))))
             (cron_sequence (cron (db w)))
             (<[(write_id write, write_generation write,
                 last_seq (db w) (write_id write) (write_generation write) + 1) := event_row write]>
                (cron_transition_event (cron (db w))))
             (cron_delivery_intent (cron (db w)))) (db w)) (ticks w).

(** The rest of a commit: its deliveries. *)
Definition deliver write r w : M CronCommitResult :=
  notices ← lift (notice_intents (commit_key write w) r (commit_event write w));
  mails ← mail_intents (commit_key write w) r 0 (write_outputs write);
  _ ← st_iter persist_intent (notices ++ mails);
  mret (Commit_Applied (notices ++ mails)).

(** A commit up to its event. *)
Lemma commit_in_live write r w :
  cron_inv (cron (db w)) -> write_id write <= i64_max ->
  cron_schedule (cron (db w)) !! write_id write = Some r ->
  c_generation r = write_generation write -> c_active r = 1 ->
  commit_in write w
  = (prior ← (if String.eqb (failure_columns (write_transition write)).1 "failure"
              then prior_failure (write_id write) (write_generation write) else mret None);
     next ← next_transition_seq (write_id write) (write_generation write);
     _ ← insert_cron_event (write_id write, write_generation write, next) (event_row write);
     _ ← match outcome (write_transition write) with
         | Some o => _ ← update_cron (live_row (write_id write) (write_generation write))
                           (transition_row (write_at write) o (failure_columns (write_transition write)).1);
                     mret tt
         | None => mret tt
         end;
     sequence ← (if bool_decide (0 <= next) then mret next
                 else fail (internal EVENTS "negative transition sequence"));
     let key := mkCronNoticeKey (write_id write) (write_generation write) sequence in
     let event := if repeated_failure (failure_columns (write_transition write)).2 prior then None
                  else lifecycle_event (write_transition write) in
     notices ← lift (notice_intents key r event);
     mails ← mail_intents key r 0 (write_outputs write);
     _ ← st_iter persist_intent (notices ++ mails);
     mret (Commit_Applied (notices ++ mails))) w.
Proof.
  intros Hi Hid Hr Hg Ha. unfold commit_in. cbv zeta. unfold stored_id, i64_try_from.
  rewrite bool_decide_eq_true_2 by lia. step. run run_get_db.
  rewrite (select_one (live_row (write_id write) (write_generation write)) (write_id write)) by (by intros ?? (-> & _)).
  rewrite Hr, decide_True by done. cbn [hd_error]. cbv beta iota. unfold event_row.
  by destruct (failure_columns (write_transition write)) as [kind failure].
Qed.

Lemma next_seq_run id g w :
  last_seq (db w) id g < i64_max -> next_transition_seq id g w = (Ok (last_seq (db w) id g + 1), w).
Proof.
  intros Hr. unfold next_transition_seq. run run_get_db. fold (last_seq (db w) id g).
  unfold i64_try_from. by rewrite bool_decide_eq_true_2 by lia.
Qed.

(** A commit that can record its event goes on with its deliveries. *)
Lemma commit_in_recorded write r w :
  cron_inv (cron (db w)) ->
  cron_schedule (cron (db w)) !! write_id write = Some r ->
  c_generation r = write_generation write -> c_active r = 1 ->
  write_transition write <> Transition_SkippedInFlight ->
  (forall s ev, cron_transition_event (cron (db w)) !! (write_id write, write_generation write, s) = Some ev ->
     ce_transition_at ev <> stamp (write_at write)) ->
  (forall f ev, write_transition write = Transition_Failure f ->
     latest (db w) (write_id write) (write_generation write) = Some ev -> ce_transition_kind ev = "failure") ->
  last_seq (db w) (write_id write) (write_generation write) < i64_max ->
  commit_in write w = deliver write r w (recorded write r w).
Proof.
  intros Hi Hr Hg Ha Hk Hs Hp Hroom. pose proof (inv_schedules _ Hi) as Hok.
  pose proof (so_id _ Hok _ _ Hr) as Hid. pose proof (so_sequence _ Hok) as Hseq.
  pose proof (last_seq_nonneg (db w) (write_id write) (write_generation write) Hi) as Hnn.
  pose proof (so_check _ Hok _ _ Hr) as Hchk. apply cron_row_checked in Hchk as (Hg1 & _).
  rewrite (commit_in_live write r) by (done || lia).
  erewrite run_bind by (by apply prior_query_run). erewrite run_bind by (by apply next_seq_run).
  erewrite run_bind.
  2:{ apply insert_event_run; [|apply event_row_check; [done|lia..]|].
      - apply eq_None_not_Some. intros Hsome%last_seq_ub. lia.
      - intros s' ev' Hev'. unfold event_row. destruct (failure_columns _). by eapply Hs. }
  erewrite run_bind by (apply outcome_update_run; [by eapply schedules_ok_same, Hok|done..]).
  rewrite bool_decide_eq_true_2 by lia. by step.
Qed.

Lemma commit_in_run write r names w :
  cron_inv (cron (db w)) -> commit_ready write r names w ->
  commit_in write w
  = (Ok (Commit_Applied (commit_intents write names w)),
     mkWorld (set_cron (committed_tables write r names w) (db w)) (ticks w + length (write_outputs write))).
Proof.
  intros Hi [Hr Hg Ha Hn Hk Hs Hp Ho Hroom]. pose proof (inv_schedules _ Hi) as Hok.
  pose proof (so_id _ Hok _ _ Hr) as Hid. pose proof (so_sequence _ Hok) as Hseq.
  rewrite (commit_in_recorded write r) by done. unfold deliver.
  erewrite run_bind by (apply run_lift, notice_run; intros He; apply Hn; by left).
  erewrite run_bind by (apply mails_run; [intros He; apply Hn; by right|lia]). cbn [ticks db recorded].
  fold (commit_intents write names w).
  erewrite run_bind; [reflexivity|]. rewrite persist_all; [done|by apply commit_storable; [|lia|]| |apply commit_pairs].
  intros i Hin. exact (new_event_no_clash write names w i Hi Hin).
Qed.

(** ** Refused commits *)

(** Why a commit is refused: its numbers do not fit, the latest event of its
    generation hides the prior failure, another event has its time, or its
    deliveries cannot be written. *)
Inductive commit_refusal (write : CronTransitionWrite) w : Prop :=
| refuse_id : i64_max < write_id write -> commit_refusal write w
| refuse_prior f ev :
    write_transition write = Transition_Failure f ->
    latest (db w) (write_id write) (write_generation write) = Some ev ->
    ce_transition_kind ev <> "failure" -> commit_refusal write w
| refuse_room : i64_max <= last_seq (db w) (write_id write) (write_generation write) -> commit_refusal write w
| refuse_stamp s ev :
    cron_transition_event (cron (db w)) !! (write_id write, write_generation write, s) = Some ev ->
    ce_transition_at ev = stamp (write_at write) -> commit_refusal write w
| refuse_names r :
    cron_schedule (cron (db w)) !! write_id write = Some r -> delivers write w ->
    (forall names, delivery_names r <> Ok names) -> commit_refusal write w
| refuse_outputs : 65536 < Z.of_nat (length (write_outputs write)) -> commit_refusal write w.

Definition fails {A} (c : M A) w : Prop := exists e w', c w = (Err e, w').

Lemma fails_bind {A B} (c : M A) (f : A -> M B) w : fails c w -> fails (c ≫= f) w.
Proof. intros (e & w' & He). exists e, w'. by apply run_bind_err. Qed.

Lemma fails_after {A B} (c : M A) (f : A -> M B) w a w1 : c w = (Ok a, w1) -> fails (f a) w1 -> fails (c ≫= f) w.
Proof. intros Hc (e & w' & He). exists e, w'. by rewrite (run_bind _ _ _ _ _ Hc). Qed.

Lemma names_err r : (forall names, delivery_names r <> Ok names) -> exists e, delivery_names r = Err e.
Proof.
  intros Hn. destruct (delivery_names r) as [names|e|] eqn:Hd; [by destruct (Hn names)|eauto|].
  exfalso. revert Hd. unfold delivery_names, map_message, team_name_from_str, agent_name_from_str, parse_segment,
    validate_path_segment, cron_name_parse, mbind, outcome_mbind, outcome_bind.
  repeat (case_match; simplify_eq; try done).
Qed.

Lemma mails_fail_names key r outputs w :
  outputs <> [] -> (forall names, delivery_names r <> Ok names) -> fails (mail_intents key r 0 outputs) w.
Proof.
  intros Hne [e He]%names_err. destruct outputs as [|o outputs]; [done|]. simpl.
  eapply fails_after; [reflexivity|]. eapply fails_after; [reflexivity|]. apply fails_bind.
  rewrite He. by eexists _, _.
Qed.

Lemma mails_fail_many key r names outputs index w :
  delivery_names r = Ok names -> index <= 65536 -> 65536 < index + Z.of_nat (length outputs) ->
  fails (mail_intents key r index outputs) w.
Proof.
  intros Hn. revert index w. induction outputs as [|o outputs IH]; intros index w Hi Hl; simpl in Hl; [lia|].
  simpl. destruct (decide (index <= 65535)) as [Hle|Hgt].
  - rewrite bool_decide_eq_true_2 by done. eapply fails_after; [reflexivity|].
    eapply fails_after; [reflexivity|]. eapply fails_after; [rewrite Hn; reflexivity|].
    destruct names as [[??]?]. apply fails_bind, IH; lia.
  - rewrite bool_decide_eq_false_2 by done. apply fails_bind. by eexists _, _.
Qed.

(** The deliveries fail when their names cannot be written or they are too many. *)
Lemma deliver_fails write r w w1 :
  (delivers write w /\ forall names, delivery_names r <> Ok names)
  \/ (65536 < Z.of_nat (length (write_outputs write))) ->
  fails (deliver write r w) w1.
Proof.
  intros Hf. unfold deliver.
  assert (Hnames : (exists names, delivery_names r = Ok names) \/ (forall names, delivery_names r <> Ok names)).
  { destruct (delivery_names r); [left; eauto|by right..]. }
  destruct Hnames as [[names Hn]|Hn].
  - destruct Hf as [[_ Hno]|Hlen]; [by apply Hno in Hn|].
    eapply fails_after; [apply run_lift, notice_run; intros _; exact Hn|].
    apply fails_bind. eapply mails_fail_many; [exact Hn|lia..].
  - assert (Hd : delivers write w).
    { destruct Hf as [[Hd _]|Hlen]; [done|]. right. intros Hnil. rewrite Hnil in Hlen. simpl in Hlen. lia. }
    destruct (commit_event write w) as [ev|] eqn:Hev.
    + apply fails_bind. unfold notice_intents. destruct (names_err r Hn) as [e He]. rewrite He. by eexists _, _.
    + eapply fails_after; [reflexivity|]. apply fails_bind, mails_fail_names; [|done].
      destruct Hd as [Hd|Hd]; [congruence|done].
Qed.

Lemma insert_event_fails id g s ev s' ev' w :
  cron_transition_event (cron (db w)) !! (id, g, s') = Some ev' ->
  ce_transition_at ev' = ce_transition_at ev -> fails (insert_cron_event (id, g, s) ev) w.
Proof.
  intros Hev' Hat. unfold insert_cron_event. eapply fails_after; [reflexivity|].
  assert (cron_event_no_clash (id, g, s) ev (cron_transition_event (cron (db w))) = false) as ->.
  { apply bool_decide_eq_false. intros Hall. destruct (Hall _ _ Hev') as [Hne|Hne]; [by apply Hne|done]. }
  rewrite andb_false_r. by eexists _, _.
Qed.

(** A transition of a schedule that is not live is stale. *)
Lemma commit_in_stale write w :
  write_id write <= i64_max -> ~ cron_live (cron (db w)) (write_id write) (write_generation write) ->
  commit_in write w = (Ok Commit_StaleGeneration, w).
Proof.
  intros Hid Hlive. unfold commit_in. cbv zeta. unfold stored_id, i64_try_from.
  rewrite bool_decide_eq_true_2 by lia. step. run run_get_db.
  rewrite (select_one (live_row (write_id write) (write_generation write)) (write_id write)) by (by intros ?? (-> & _)).
  destruct (cron_schedule (cron (db w)) !! write_id write) as [r|] eqn:Hr; [|done].
  rewrite decide_False; [done|]. intros (_ & Hg & Ha). apply Hlive. by exists r.
Qed.

(** A commit of a live schedule records its event, or is refused before. *)
Lemma commit_in_records write r w :
  cron_inv (cron (db w)) -> write_transition write <> Transition_SkippedInFlight ->
  write_id write <= i64_max -> cron_schedule (cron (db w)) !! write_id write = Some r ->
  c_generation r = write_generation write -> c_active r = 1 ->
  ((forall f ev, write_transition write = Transition_Failure f ->
      latest (db w) (write_id write) (write_generation write) = Some ev -> ce_transition_kind ev = "failure")
   /\ last_seq (db w) (write_id write) (write_generation write) < i64_max
   /\ forall s ev, cron_transition_event (cron (db w)) !! (write_id write, write_generation write, s) = Some ev ->
        ce_transition_at ev <> stamp (write_at write))
  \/ (fails (commit_in write) w /\ commit_refusal write w).
Proof.
  intros Hi Hk Hid Hr Hg Ha. pose proof (commit_in_live write r w Hi Hid Hr Hg Ha) as Hrun.
  assert (Hp : (forall f ev, write_transition write = Transition_Failure f ->
      latest (db w) (write_id write) (write_generation write) = Some ev -> ce_transition_kind ev = "failure")
    \/ exists f ev, write_transition write = Transition_Failure f
      /\ latest (db w) (write_id write) (write_generation write) = Some ev /\ ce_transition_kind ev <> "failure").
  { destruct (write_transition write) as [?| |f|?|]; try (left; by intros).
    destruct (latest _ _ _) as [ev|]; [|left; by intros].
    destruct (decide (ce_transition_kind ev = "failure")); [left; by intros ?? _ [= <-]|right; eauto]. }
  destruct Hp as [Hprior|(f & ev & Hf & Hl & Hne)].
  2:{ right. split; [|by eapply refuse_prior]. unfold fails. rewrite Hrun, Hf. simpl.
      eexists _, _. apply run_bind_err. by eapply prior_failure_err. }
  destruct (decide (last_seq (db w) (write_id write) (write_generation write) < i64_max)) as [Hroom|Hroom].
  2:{ right. split; [|apply refuse_room; lia]. unfold fails. rewrite Hrun.
      eapply fails_after; [by apply prior_query_run|]. apply fails_bind. unfold next_transition_seq.
      eapply fails_after; [reflexivity|]. fold (last_seq (db w) (write_id write) (write_generation write)).
      unfold i64_try_from. rewrite bool_decide_eq_false_2 by lia. by eexists _, _. }
  destruct (decide (map_Forall (fun k ev => k.1 <> (write_id write, write_generation write)
      \/ ce_transition_at ev <> stamp (write_at write)) (cron_transition_event (cron (db w))))) as [Hstamp|Hstamp].
  { left. split_and!; [done..|]. intros s ev Hev. by destruct (Hstamp _ _ Hev). }
  right. apply map_not_Forall in Hstamp as ([[id' g'] s'] & ev & Hev & Hno); [|apply _].
  apply Decidable.not_or in Hno as [Hkey Hat]. apply dec_stable in Hkey, Hat. injection Hkey as -> ->.
  split; [|by eapply refuse_stamp]. unfold fails. rewrite Hrun.
  eapply fails_after; [by apply prior_query_run|]. eapply fails_after; [by apply next_seq_run|].
  apply fails_bind. eapply insert_event_fails; [exact Hev|]. unfold event_row. by destruct (failure_columns _).
Qed.

(** How a commit ends. *)
Lemma commit_in_cases write w :
  cron_inv (cron (db w)) -> write_transition write <> Transition_SkippedInFlight ->
  (~ cron_live (cron (db w)) (write_id write) (write_generation write)
     /\ commit_in write w = (Ok Commit_StaleGeneration, w))
  \/ (exists r names, commit_ready write r names w)
  \/ (fails (commit_in write) w /\ commit_refusal write w).
Proof.
  intros Hi Hk. destruct (decide (write_id write <= i64_max)) as [Hid|Hid].
  2:{ right; right. split; [|apply refuse_id; lia]. unfold commit_in, stored_id, i64_try_from.
      rewrite bool_decide_eq_false_2 by lia. apply fails_bind. by eexists _, _. }
  destruct (decide (cron_live (cron (db w)) (write_id write) (write_generation write))) as [(r & Hr & Hg & Ha)|Hlive].
  2:{ left. split; [done|]. by apply commit_in_stale. }
  right. destruct (commit_in_records write r w Hi Hk Hid Hr Hg Ha) as [(Hprior & Hroom & Hstamp)|Hf]; [|by right].
  assert (Hrec : commit_in write w = deliver write r w (recorded write r w)) by (by apply commit_in_recorded).
  destruct (decide (Z.of_nat (length (write_outputs write)) <= 65536)) as [Ho|Ho].
  2:{ right. split; [|apply refuse_outputs; lia]. unfold fails. rewrite Hrec. apply deliver_fails. right. lia. }
  destruct (delivery_names r) as [names|e|] eqn:Hn; [left; by exists r, names| |].
  - destruct (decide (commit_event write w = None /\ write_outputs write = [])) as [[Hce Hoe]|Hd].
    { left. exists r, ("", "", ""). constructor; try done. by intros [?|?]. }
    right. assert (Hdel : delivers write w).
    { destruct (decide (write_outputs write = [])); [left|by right]. intros Hce. by apply Hd. }
    assert (Hno : forall names, delivery_names r <> Ok names) by (intros names; congruence).
    split; [|by eapply refuse_names]. unfold fails. rewrite Hrec. apply deliver_fails. by left.
  - exfalso. destruct (names_err r) as [e He]; [intros names; congruence|congruence].
Qed.

(** ** Keeping the invariant *)

Lemma pairs_NoDup (l : list CronDeliveryIntent) :
  ForallOrdPairs (fun a b => ~ cron_intent_clash (intent_row_key a) (intent_row_key b)) l ->
  NoDup (intent_row_key <$> l).
Proof.
  induction 1 as [|a l Ha _ IH]; simpl; constructor; [|done].
  intros (b & Hk & Hb)%list_elem_of_fmap. rewrite Forall_forall in Ha. apply (Ha b Hb). rewrite <- Hk.
  destruct (intent_row_key a) as [[[[??]?]?]?]. simpl. split_and!; [done..|by right].
Qed.

(** A row of the new table is an old row or the row of a new delivery. *)
Lemma add_intents_cases write names w k row :
  add_intents (commit_intents write names w) (cron_delivery_intent (cron (db w))) !! k = Some row ->
  (exists i, i ∈ commit_intents write names w /\ intent_row_key i = k /\ row = fresh_row i)
  \/ cron_delivery_intent (cron (db w)) !! k = Some row.
Proof.
  rewrite add_intents_lookup by apply pairs_NoDup, commit_pairs.
  destruct (list_find _ _) as [[n i]|] eqn:Hf; [|by right]. intros [= <-]. left. exists i.
  apply list_find_Some in Hf as (Hi & Hk & _). split_and!; [|done|done]. by eapply list_elem_of_lookup_2.
Qed.

Lemma cron_inv_committed write r names w :
  cron_inv (cron (db w)) -> commit_ready write r names w -> cron_inv (committed_tables write r names w).
Proof.
  intros Hi [Hr Hg Ha Hn Hk Hs Hp Ho Hroom]. pose proof (inv_schedules _ Hi) as Hok.
  pose proof (last_seq_nonneg (db w) (write_id write) (write_generation write) Hi) as Hnn.
  pose proof (so_check _ Hok _ _ Hr) as Hchk. pose proof (proj1 (cron_row_checked r) Hchk) as (Hg1 & _).
  assert (Hrow : keeps_row (committed_row write) r /\ c_generation (committed_row write r) = c_generation r).
  { unfold committed_row. destruct (outcome (write_transition write)) as [o|]; [|by split].
    split; [by apply transition_keeps|apply transition_generation]. }
  destruct Hrow as [[Hc' Huk] Hgen]. constructor; simpl.
  - eapply schedules_ok_same; [| |apply (schedules_ok_update _ _ _ (committed_row write r) Hok Hr); [done| |done]]; [done..|].
    rewrite Hgen. by eapply so_generation.
  - intros id g s ev. rewrite lookup_insert_Some. intros [[[= <- <- <-] <-]|[_ Hev]].
    + split; [apply event_row_check; [done|lia..]|]. exists (committed_row write r).
      rewrite lookup_insert_eq. split; [done|]. lia.
    + apply (inv_event _ Hi) in Hev as [Hc (r' & Hr' & Hle)]. split; [done|].
      destruct (decide (id = write_id write)) as [->|Hne].
      * exists (committed_row write r). rewrite lookup_insert_eq. split; [done|].
        assert (r' = r) as -> by congruence. lia.
      * exists r'. by rewrite lookup_insert_ne.
  - intros id g s s' Hsome Hle. rewrite lookup_insert_is_Some'. rewrite lookup_insert_is_Some' in Hsome.
    destruct (decide ((id, g) = (write_id write, write_generation write))) as [[= -> ->]|Hne].
    + destruct (decide (s' = last_seq (db w) (write_id write) (write_generation write) + 1)) as [->|Hns]; [by left|right].
      apply event_iff; [done|]. destruct Hsome as [[= <-]|Hsome%event_iff]; [lia|lia|done].
    + right. destruct Hsome as [[= <- <- <-]|Hsome]; [done|]. by eapply (inv_numbered _ Hi).
  - intros id g s s' ev ev'. rewrite !lookup_insert_Some.
    assert (Hat : ce_transition_at (event_row write) = stamp (write_at write))
      by (unfold event_row; by destruct (failure_columns _)).
    intros [[[= <- <- <-] <-]|[_ Hev]] [[[= <-] <-]|[_ Hev']]; [done| | |by eapply (inv_stamps _ Hi)].
    + rewrite Hat. intros Heq. exfalso. by eapply Hs.
    + simplify_eq. rewrite Hat. intros Heq. exfalso. by eapply Hs.
  - intros k row [(i & Hin & <- & ->)|Hrow]%add_intents_cases.
    + pose proof (commit_intent_keys write names w i Hin) as (o & kind & -> & Hkind). split.
      * unfold cron_intent_check, fresh_row. rewrite bool_decide_eq_true_2 by lia.
        by destruct Hkind as [[-> _]|[-> _]].
      * exists (event_row write). unfold committed_tables. cbn [cron_transition_event]. rewrite lookup_insert_eq. split; [done|].
        destruct Hkind as [(-> & -> & e & He)|(-> & n & -> & Hn')]; [left|right; split; [done|exists n; split; [done|lia]]].
        split_and!; [done..|]. revert He. unfold commit_event, event_row.
        destruct (write_transition write); simpl; try done; auto.
    + apply (inv_intent _ Hi) in Hrow as [Hc Hkey]. split; [done|].
      destruct k as [[[[id g] s] o] kind]. destruct Hkey as (ev & Hev & Hkind). exists ev. split; [|done].
      unfold committed_tables. cbn [cron_transition_event]. rewrite lookup_insert_ne; [done|]. intros [= <- <- <-].
      assert (Hb : is_Some (cron_transition_event (cron (db w)) !! (write_id write, write_generation write,
        last_seq (db w) (write_id write) (write_generation write) + 1))) by eauto.
      apply last_seq_ub in Hb. lia.
Qed.

(** Operations on schedules: no row disappears and no generation goes back. *)
Lemma cron_inv_schedule c c' :
  cron_inv c -> schedules_ok c' ->
  cron_transition_event c' = cron_transition_event c -> cron_delivery_intent c' = cron_delivery_intent c ->
  (forall id r, cron_schedule c !! id = Some r ->
     exists r', cron_schedule c' !! id = Some r' /\ c_generation r <= c_generation r') ->
  cron_inv c'.
Proof.
  intros [Ho He Hnum Hst Hin] Ho' Hev Hint Hrows. constructor; rewrite ?Hev, ?Hint; [done| |done|done|].
  - intros id g s ev Hl. destruct (He id g s ev Hl) as [Hc (r & Hr & Hle)]. split; [done|].
    destruct (Hrows id r Hr) as (r' & Hr' & Hle'). exists r'. split; [done|lia].
  - intros k row Hl. apply Hin in Hl as [Hc Hk]. split; [done|].
    destruct k as [[[[??]?]?]?]. unfold intent_key_ok in *. by rewrite Hev.
Qed.
End Commit.
