(* ===== verification/CronDelivery.v ===== *)
(** * Facts about cron deliveries

    A stored delivery reads back as the intent that was committed, so the
    pending query is total; a receipt settles a delivery at most once. *)

From S2P Require Import Prelude ErrorCodes Types Address TaskState CronTypes Database Transaction.
From S2P Require Import CronStore CronTransition.
From stdpp Require Import base gmap strings list numbers sorting pretty.
From Stdlib Require Import Ascii.
Local Open Scope Z_scope.
Local Open Scope string_scope.
Local Open Scope list_scope.

(** ** Texts that were parsed parse again *)

Lemma replace_line_breaks_idem s : replace_line_breaks (replace_line_breaks s) = replace_line_breaks s.
Proof.
  induction s as [|c s IH]; [done|]. simpl. rewrite IH. f_equal.
  destruct (Nat.eqb (Ascii.nat_of_ascii c) 13 || Nat.eqb (Ascii.nat_of_ascii c) 10) eqn:Hc; [done|]. by rewrite Hc.
Qed.

Lemma diagnostic_reparse v d : cron_diagnostic_parse v = Ok d -> cron_diagnostic_parse d = Ok d.
Proof.
  unfold cron_diagnostic_parse. destruct (_ || _) eqn:Hb; [done|]. intros [= <-].
  rewrite replace_line_breaks_idem. by rewrite Hb.
Qed.

Lemma cron_name_reparse v n : cron_name_parse v = Ok n -> cron_name_parse n = Ok n.
Proof. unfold cron_name_parse. destruct (_ || _) eqn:Hb; [done|]. intros [= <-]. by rewrite Hb. Qed.

Lemma segment_reparse kind v s : parse_segment kind v = Ok s -> parse_segment kind s = Ok s.
Proof. intros H%parse_segment_inv. by apply parse_segment_ok. Qed.

(** ** Normalizing white space twice *)

(** No character of the run [p] starts white space when [rest] follows. *)
Definition clean (p rest : list Ascii.ascii) : Prop :=
  forall p1 p2, p = p1 ++ p2 -> p2 <> [] -> strip_one white_space (p2 ++ rest) = None.

Lemma clean_nil rest : clean [] rest.
Proof. intros p1 p2 Hp Hne. symmetry in Hp. by apply app_nil in Hp as [_ ->]. Qed.

Lemma strip_one_none ps l : strip_one ps l = None <-> Forall (fun p => strip_pattern p l = None) ps.
Proof.
  induction ps as [|p ps IH]; [by split|]. simpl. rewrite Forall_cons, <- IH.
  destruct (strip_pattern p l); naive_solver.
Qed.

(** A separator is a space: it can only start a pattern. *)
Definition separated (rest : list Ascii.ascii) : Prop := rest = [] \/ exists r, rest = " "%char :: r.

Lemma strip_pattern_separated n l l' rest :
  32%nat ∉ n -> separated rest -> strip_pattern n (l ++ rest) = Some l' -> is_Some (strip_pattern n l).
Proof.
  revert l. induction n as [|b n IH]; intros l Hb Hr; simpl; [by eauto|].
  apply not_elem_of_cons in Hb as [Hne Hb]. destruct l as [|c l]; cbn [strip_pattern app].
  - destruct Hr as [->|[r ->]]; [done|]. cbn [strip_pattern].
    destruct (Nat.eqb_spec b (nat_of_ascii " ")) as [->|_]; [by destruct Hne|done].
  - destruct (Nat.eqb _ _); [by apply IH|done].
Qed.

Lemma white_space_tails : Forall (fun p => exists b n, p = b :: n /\ 32%nat ∉ n) white_space.
Proof.
  apply (Forall_impl (fun p => match p with b :: n => bool_decide (32%nat ∉ n) = true | [] => False end)).
  - by repeat constructor.
  - intros [|b n] H; [done|]. exists b, n. split; [done|]. by apply bool_decide_eq_true in H.
Qed.

(** What follows a run does not matter, as long as it is separated. *)
Lemma clean_separated p rest rest' : clean p rest -> separated rest' -> clean p rest'.
Proof.
  intros Hc Hr p1 p2 Hp Hne. specialize (Hc p1 p2 Hp Hne). apply strip_one_none. apply strip_one_none in Hc.
  pose proof white_space_tails as Ht. rewrite Forall_forall in Hc, Ht |- *. intros n Hn.
  destruct (strip_pattern n (p2 ++ rest')) as [l'|] eqn:Hs; [exfalso|done].
  destruct (Ht n Hn) as (b & n' & -> & Hb). specialize (Hc _ Hn).
  destruct p2 as [|c p2]; [done|]. simpl in Hs, Hc. destruct (Nat.eqb b (Ascii.nat_of_ascii c)); [|done].
  destruct (strip_pattern_separated _ _ _ _ Hb Hr Hs) as [l2 Hl2].
  by rewrite (strip_pattern_app _ _ _ rest Hl2) in Hc.
Qed.

(** Reading through a clean run. *)
Lemma runs_clean p rest fuel run :
  clean p rest ->
  whitespace_runs (length p + fuel) run (p ++ rest) = whitespace_runs fuel (reverse p ++ run) rest.
Proof.
  revert run. induction p as [|c p IH]; intros run Hc; [done|].
  change (length (c :: p) + fuel)%nat with (S (length p + fuel)). cbn [whitespace_runs].
  rewrite (Hc [] (c :: p)) by done. cbn [app]. rewrite IH.
  - by rewrite reverse_cons, <- app_assoc.
  - intros p1 p2 -> Hne. by apply (Hc (c :: p1) p2).
Qed.

Lemma clean_snoc p c rest : clean p (c :: rest) -> strip_one white_space (c :: rest) = None -> clean (p ++ [c]) rest.
Proof.
  intros Hc Hs p1 p2 Hp Hne. destruct p2 as [|x p2'] using rev_ind; [done|]. clear IHp2'.
  rewrite app_assoc in Hp. apply app_inj_tail in Hp as [-> <-].
  rewrite <- app_assoc. simpl. destruct p2' as [|y p2']; [done|]. by apply (Hc p1 (y :: p2')).
Qed.

(** The pieces of a text are clean runs. *)
Lemma runs_pieces fuel run l :
  (length l < fuel)%nat -> clean (reverse run) l ->
  Forall (fun p => p <> [] /\ clean p []) (whitespace_runs fuel run l).
Proof.
  revert run l. induction fuel as [|fuel IH]; intros run l Hlen Hc; [lia|].
  assert (Hfin : Forall (fun p => p <> [] /\ clean p []) (match run with [] => [] | _ :: _ => [reverse run] end)).
  { destruct run as [|c run]; repeat constructor.
    - intros Heq. apply (f_equal length) in Heq. rewrite length_reverse in Heq. done.
    - eapply clean_separated; [exact Hc|by left]. }
  cbn [whitespace_runs]. destruct (strip_one white_space l) as [l'|] eqn:Hs.
  - apply Forall_app. split; [done|]. apply IH; [|apply clean_nil].
    enough (length l' < length l)%nat by lia. clear -Hs. revert Hs.
    pose proof white_space_tails as Ht. induction Ht as [|n ps (b & n' & -> & _) _ IHp]; simpl; [done|].
    destruct l as [|c l]; [exact IHp|]. destruct (Nat.eqb b (Ascii.nat_of_ascii c)); [|exact IHp].
    destruct (strip_pattern n' l) as [l1|] eqn:Hp; [|exact IHp]. intros [= <-].
    clear IHp. revert l Hp. induction n' as [|b' n' IHn]; intros l; simpl; [intros [= ->]; lia|].
    destruct l as [|c' l]; [done|]. destruct (Nat.eqb _ _); [|done]. intros Hl%IHn. simpl in *. lia.
  - destruct l as [|c l]; [done|]. apply IH; [simpl in Hlen; lia|]. rewrite reverse_cons. by apply clean_snoc.
Qed.

(** Pieces joined by a space. *)
Fixpoint join (pieces : list (list Ascii.ascii)) : list Ascii.ascii :=
  match pieces with
  | [] => []
  | [p] => p
  | p :: rest => p ++ " "%char :: join rest
  end.

Lemma runs_join pieces fuel :
  Forall (fun p => p <> [] /\ clean p []) pieces ->
  (length (join pieces) < fuel)%nat -> whitespace_runs fuel [] (join pieces) = pieces.
Proof.
  intros Hp. revert fuel. induction Hp as [|p pieces [Hne Hc] Hp IH]; intros fuel Hlen.
  { destruct fuel; [lia|]. done. }
  assert (Hrev : forall r, match reverse p ++ [] with [] => [] | _ :: _ => [reverse (reverse p ++ [])] end ++ r = p :: r).
  { intros r. rewrite app_nil_r. destruct (reverse p) as [|c q] eqn:Hq.
    - exfalso. apply Hne. by rewrite <- (reverse_involutive p), Hq.
    - by rewrite <- Hq, reverse_involutive. }
  destruct pieces as [|p' pieces].
  - change (join [p]) with p in *. rewrite <- (app_nil_r p) at 1.
    replace fuel with (length p + (fuel - length p))%nat by lia. rewrite runs_clean by done.
    destruct (fuel - length p)%nat as [|f] eqn:Hf; [lia|]. specialize (Hrev []). rewrite app_nil_r in Hrev. exact Hrev.
  - change (join (p :: p' :: pieces)) with (p ++ " "%char :: join (p' :: pieces)) in *.
    rewrite length_app, length_cons in Hlen.
    replace fuel with (length p + (fuel - length p))%nat by lia.
    rewrite runs_clean by (eapply clean_separated; [exact Hc|right; eauto]).
    destruct (fuel - length p)%nat as [|f] eqn:Hf; [lia|]. cbn [whitespace_runs].
    assert (strip_one white_space (" "%char :: join (p' :: pieces)) = Some (join (p' :: pieces))) as -> by reflexivity.
    rewrite IH by lia. apply Hrev.
Qed.

Lemma list_ascii_app (a b : string) :
  String.list_ascii_of_string (a +:+ b) = String.list_ascii_of_string a ++ String.list_ascii_of_string b.
Proof. induction a as [|c a IH]; [done|]. simpl. by rewrite IH. Qed.

Lemma concat_join pieces :
  String.list_ascii_of_string (String.concat " " (String.string_of_list_ascii <$> pieces)) = join pieces.
Proof.
  induction pieces as [|p [|p' pieces] IH]; [done|apply String.list_ascii_of_string_of_list_ascii|].
  change (String.list_ascii_of_string (String.string_of_list_ascii p
    +:+ " " +:+ String.concat " " (String.string_of_list_ascii <$> (p' :: pieces))) = p ++ " "%char :: join (p' :: pieces)).
  by rewrite !list_ascii_app, IH, String.list_ascii_of_string_of_list_ascii.
Qed.

Lemma split_concat v :
  split_whitespace (String.concat " " (split_whitespace v)) = split_whitespace v.
Proof.
  unfold split_whitespace. cbv zeta. rewrite !concat_join. f_equal.
  apply runs_join; [|lia]. apply runs_pieces; [lia|apply clean_nil].
Qed.

Lemma retry_cause_reparse v c : delivery_retry_cause_parse v = Ok c -> delivery_retry_cause_parse c = Ok c.
Proof.
  unfold delivery_retry_cause_parse. cbv zeta. destruct (_ || _) eqn:Hb; [done|]. intros [= <-].
  rewrite split_concat. by rewrite Hb.
Qed.

(** ** Well-typed intents *)

(** The values their types allow: parsed texts and a 128-bit message id. *)
Definition event_ok (e : CronLifecycleEvent) : Prop :=
  match e with
  | LifecycleEvent_Error failure => cron_diagnostic_parse (failure_detail failure) = Ok (failure_detail failure)
  | LifecycleEvent_Stopped m => cron_diagnostic_parse m = Ok m
  end.

Definition names_ok (names : TeamName * AgentName * CronName) : Prop :=
  segment_ok names.1.1 /\ segment_ok names.1.2 /\ cron_name_parse names.2 = Ok names.2.

Definition intent_ok (i : CronDeliveryIntent) : Prop :=
  match i with
  | DeliveryIntent_Lifecycle i =>
    names_ok (intent_team i, intent_recipient i, intent_name i) /\ event_ok (intent_event i)
  | DeliveryIntent_ModuleMail i =>
    names_ok (mail_team i, mail_recipient i, mail_name i) /\ (mail_message_id i < 2 ^ 128)%N
    /\ exists id g s o, mail_key i = DeliveryKey_ModuleMail id g s o
  end.

Definition transition_ok (t : CronRunTransition) : Prop :=
  match t with
  | Transition_Failure failure => cron_diagnostic_parse (failure_detail failure) = Ok (failure_detail failure)
  | Transition_Stopped reason => cron_diagnostic_parse reason = Ok reason
  | _ => True
  end.

(** The key of an intent, as the deliverer names it. *)
Definition delivery_key (i : CronDeliveryIntent) : CronDeliveryKey :=
  match i with
  | DeliveryIntent_Lifecycle i => DeliveryKey_Lifecycle (intent_key i)
  | DeliveryIntent_ModuleMail i => mail_key i
  end.

Lemma delivery_names_ok r names : delivery_names r = Ok names -> names_ok names.
Proof.
  unfold delivery_names, map_message, team_name_from_str, agent_name_from_str.
  destruct (parse_segment "team" (c_team r)) as [team|?|] eqn:Ht; [|done..]. simpl.
  destruct (parse_segment "agent" (c_created_by r)) as [agent|?|] eqn:Ha; [|done..]. simpl.
  destruct (cron_name_parse (c_name r)) as [name|?|] eqn:Hn; [|done..]. simpl. intros [= <-].
  split_and!; simpl; [by eapply parse_segment_inv|by eapply parse_segment_inv|by eapply cron_name_reparse].
Qed.

Section Delivery.
Context {rt : Runtime} {crt : CronRuntime} {crtok : CronRuntimeOk rt crt}.
Implicit Types w : World.

Lemma decode_stored_event e :
  event_ok e ->
  decode_event (match e with
                | LifecycleEvent_Error failure =>
                  StoredEvent_Error (failure_kind failure) (code_display <$> failure_code failure) (failure_detail failure)
                | LifecycleEvent_Stopped m => StoredEvent_Stopped m
                end) = Ok e.
Proof.
  intros He. destruct e as [[kind code detail]|m]; simpl in He |- *; [|by rewrite He].
  assert (option_traverse code_from_str (code_display <$> code) = Ok code) as ->.
  { destruct code as [c|]; [|done]. simpl. unfold code_from_str, from_str.
    pose proof (parse_known_as_str c) as Hp. rewrite as_str_display in Hp. simpl in Hp. by rewrite Hp. }
  simpl. by rewrite He.
Qed.

(** A stored payload reads back under its key. *)
Lemma decode_encoded i :
  intent_ok i -> decode_intent (delivery_key i) (encode_intent i) = Ok i.
Proof.
  unfold decode_intent, encode_intent. rewrite intent_parse. simpl map_internal. cbn [mbind outcome_mbind outcome_bind].
  unfold team_name_from_str, agent_name_from_str, map_message.
  destruct i as [[key team recipient name event]|[key mid team recipient name output]]; simpl.
  - intros [(Ht & Ha & Hn) He]. simpl in *. rewrite decode_stored_event by done. simpl.
    rewrite !parse_segment_ok by done. simpl. by rewrite Hn.
  - intros [(Ht & Ha & Hn) [Hm (id & g & s & o & ->)]]. simpl in *. rewrite ulid_parse by done. simpl.
    rewrite !parse_segment_ok by done. simpl. by rewrite Hn.
Qed.

(** ** Settling *)

Definition key_row (key : CronDeliveryKey) : CronIntentKey :=
  match key with
  | DeliveryKey_Lifecycle key =>
    (notice_schedule_id key, notice_generation key, notice_transition_seq key, None, "lifecycle")
  | DeliveryKey_ModuleMail id g s o => (id, g, s, Some o, "module_mail")
  end.

Lemma key_columns_row key :
  key_columns key = (key_row key).1.
Proof. by destruct key. Qed.

(** The columns but the kind name at most one row. *)
Lemma settles_key c key k row :
  cron_inv c -> cron_delivery_intent c !! k = Some row ->
  (let '(id, g, s, o) := key_columns key in settles id g s o k row) <-> k = key_row key /\ ci_state row = "pending".
Proof.
  intros Hi Hl. apply (inv_intent _ Hi) in Hl as [_ Hk]. destruct k as [[[[id g] s] o] kind].
  destruct Hk as (ev & _ & Hkind). destruct key as [nk|id' g' s' o']; simpl; unfold settles.
  - destruct Hkind as [(-> & -> & _)|(-> & n & -> & _)]; naive_solver.
  - destruct Hkind as [(-> & -> & _)|(-> & n & -> & _)]; naive_solver.
Qed.

Lemma settled_check key receipt row k :
  cron_intent_check k row = true -> k = key_row key -> cron_intent_check k (settled_row receipt row) = true.
Proof.
  intros Hc ->. revert Hc. unfold cron_intent_check. destruct (key_row key) as [[[[??]?]?]?].
  rewrite !andb_true_iff. intros [[[H1 H2] _] _]. rewrite H1, H2. by destruct receipt.
Qed.

(** A receipt settles the row of its key, if that is pending, and nothing else. *)
Lemma settle_run key receipt w :
  cron_inv (cron (db w)) ->
  (let '(id, g, s, o) := key_columns key in settle id g s o receipt) w
  = match cron_delivery_intent (cron (db w)) !! key_row key with
    | Some row =>
      if decide (ci_state row = "pending")
      then (Ok 1, mkWorld (with_intents (<[key_row key := settled_row receipt row]>
                             (cron_delivery_intent (cron (db w)))) (db w)) (ticks w))
      else (Ok 0, w)
    | None => (Ok 0, w)
    end.
Proof.
  intros Hi. pose proof (fun k row => settles_key (cron (db w)) key k row Hi) as Hset.
  destruct (key_columns key) as [[[id g] s] o]. unfold settle. run run_get_db.
  set (t := cron_delivery_intent (cron (db w))) in *.
  assert (Hch : filter (fun kr : CronIntentKey * CronIntentSqlRow => settles id g s o kr.1 kr.2) t
    = match t !! key_row key with
      | Some row => if decide (ci_state row = "pending") then {[ key_row key := row ]} else ∅
      | None => ∅
      end).
  { apply map_eq. intros k. apply option_eq. intros row. rewrite map_lookup_filter_Some. simpl. split.
    - intros [Hl Hs]. apply (Hset k row Hl) in Hs as [-> Hp]. rewrite Hl, decide_True by done.
      by rewrite lookup_singleton_eq.
    - destruct (t !! key_row key) as [row'|] eqn:Hk; [|done].
      destruct (decide (ci_state row' = "pending")) as [Hp|]; [|done].
      rewrite lookup_singleton_Some. intros [<- <-]. split; [done|]. by apply (Hset _ _ Hk). }
  rewrite Hch. destruct (t !! key_row key) as [row|] eqn:Hk; [destruct (decide (ci_state row = "pending")) as [Hp|Hp]|].
  - rewrite bool_decide_eq_true_2.
    2:{ apply map_Forall_singleton. eapply settled_check; [|done]. by apply (inv_intent _ Hi) in Hk as [Hc _]. }
    step. rewrite map_size_singleton, map_fmap_singleton, <- insert_union_singleton_l. done.
  - rewrite bool_decide_eq_true_2 by apply map_Forall_empty. step.
    rewrite map_size_empty, fmap_empty, map_empty_union. destruct w as [d n]. destruct d as [????????? []]. done.
  - rewrite bool_decide_eq_true_2 by apply map_Forall_empty. step.
    rewrite map_size_empty, fmap_empty, map_empty_union. destruct w as [d n]. destruct d as [????????? []]. done.
Qed.

(** The key's numbers fit SQLite. *)
Definition key_storable (key : CronDeliveryKey) : Prop :=
  let '(id, _, s, _) := key_columns key in id <= i64_max /\ s <= i64_max.

Lemma mark_delivered_cases key receipt w :
  cron_inv (cron (db w)) -> key_storable key ->
  match mark_delivered key receipt w with
  | (Ok settled, w') =>
    if settled : bool
    then exists row, cron_delivery_intent (cron (db w)) !! key_row key = Some row /\ ci_state row = "pending"
         /\ db w' = with_intents (<[key_row key := settled_row receipt row]> (cron_delivery_intent (cron (db w)))) (db w)
    else db w' = db w /\ forall row, cron_delivery_intent (cron (db w)) !! key_row key = Some row ->
         ci_state row <> "pending"
  | (Err _, w') => db w' = db w /\ exists n fault, control_fault n = Some fault
  | (Panic, _) => False
  end.
Proof.
  intros Hi Hst. unfold mark_delivered.
  destruct (with_transaction_cases (mark_delivered_in key receipt) w) as [(e & w' & -> & Hd & Hf)|Hc]; [done|].
  pose proof (settle_run key receipt (tick w) Hi) as Hrun. unfold mark_delivered_in in Hc at 1. unfold key_storable in Hst.
  destruct (key_columns key) as [[[id g] s] o]. unfold stored_id, stored_seq, i64_try_from in Hc.
  rewrite !bool_decide_eq_true_2 in Hc by lia. revert Hc. step. step. cbn [db tick] in Hrun.
  destruct (cron_delivery_intent (cron (db w)) !! key_row key) as [row|] eqn:Hk;
    [destruct (decide (ci_state row = "pending")) as [Hp|Hp]|]; rewrite (run_bind _ _ _ _ _ Hrun); simpl; intros ->; simpl.
  - by exists row.
  - split; [done|]. by intros ? [= <-].
  - done.
Qed.

(** Settling keeps the invariant. *)
Lemma cron_inv_settled key receipt row w :
  cron_inv (cron (db w)) -> cron_delivery_intent (cron (db w)) !! key_row key = Some row ->
  cron_inv (put_intents (<[key_row key := settled_row receipt row]> (cron_delivery_intent (cron (db w)))) (cron (db w))).
Proof.
  intros [Ho He Hnum Hst Hin] Hk. constructor; simpl; [|done..|].
  - by eapply schedules_ok_same, Ho.
  - intros k row'. rewrite lookup_insert_Some. intros [[<- <-]|[_ Hl]]; [|by apply Hin].
    apply Hin in Hk as [Hc Hkey]. split; [by eapply settled_check|done].
Qed.
(** ** Payloads *)

(** Every row holds the text of a well-typed intent with its key, and a retry
    cause that parses. *)
Definition payload_ok (k : CronIntentKey) (row : CronIntentSqlRow) : Prop :=
  (exists i, intent_ok i /\ intent_row_key i = k /\ ci_payload row = encode_intent i)
  /\ forall cause, ci_retry_cause row = Some cause -> delivery_retry_cause_parse cause = Ok cause.

Definition payloads_ok (c : CronTables) : Prop :=
  forall k row, cron_delivery_intent c !! k = Some row -> payload_ok k row.

Lemma intent_row_key_key i : intent_ok i -> intent_row_key i = key_row (delivery_key i).
Proof. destruct i as [i|i]; [done|]. intros (_ & _ & id & g & s & o & Hk). simpl. by rewrite Hk. Qed.

(** The key columns of a stored delivery are read back. *)
Lemma pending_key_run c i row :
  cron_inv c -> intent_ok i -> cron_delivery_intent c !! intent_row_key i = Some row ->
  pending_key (intent_row_key i) = Ok (delivery_key i).
Proof.
  intros Hi Hok Hl. apply (inv_intent _ Hi) in Hl as [_ Hkey].
  rewrite intent_row_key_key in * by done. destruct (delivery_key i) as [[id g s]|id g s o]; simpl in *.
  all: destruct Hkey as (ev & Hev & Hkind); pose proof (inv_event _ Hi _ _ _ _ Hev) as [Hc (r & Hr & Hg)];
    apply event_checked in Hc as (Hg1 & Hs1 & _);
    pose proof (so_id _ (inv_schedules _ Hi) _ _ Hr); pose proof (so_generation _ (inv_schedules _ Hi) _ _ Hr);
    unfold u32_try_from, cron_generation_new;
    rewrite (bool_decide_eq_true_2 (0 <= id)) by lia; simpl;
    rewrite (bool_decide_eq_true_2 (0 <= g <= u32_max)) by lia; simpl;
    destruct (Z.eqb_spec g 0); [lia|]; simpl; rewrite (bool_decide_eq_true_2 (0 <= s)) by lia; simpl.
  { done. }
  destruct Hkind as [([=] & _)|(_ & idx & [= <-] & Hidx)]. by rewrite bool_decide_eq_true_2.
Qed.

(** What a row is listed as. *)
Definition lists_as (kr : CronIntentKey * CronIntentSqlRow) (p : PendingCronDelivery) : Prop :=
  intent_ok (pending_intent p)
  /\ intent_row_key (pending_intent p) = kr.1 /\ ci_payload kr.2 = encode_intent (pending_intent p)
  /\ ((ci_state kr.2 = "pending" /\ p = Pending_ReadyToSend (pending_intent p))
      \/ (ci_state kr.2 = "unknown" /\ exists cause, ci_retry_cause kr.2 = Some cause
          /\ p = Pending_ReconciliationRequired (pending_intent p) cause)).

Lemma decode_pending_run c k row :
  cron_inv c -> payloads_ok c -> cron_delivery_intent c !! k = Some row -> undelivered row ->
  exists p, decode_pending (k, row) = Ok p /\ lists_as (k, row) p.
Proof.
  intros Hi Hp Hl Hu. destruct (Hp k row Hl) as [(i & Hok & <- & Hpay) Hcause].
  unfold decode_pending. simpl. rewrite (pending_key_run c i row) by done. cbn [mbind outcome_mbind outcome_bind].
  rewrite Hpay, decode_encoded by done. cbn [mbind outcome_mbind outcome_bind].
  apply (inv_intent _ Hi) in Hl as [Hc _]. unfold lists_as. destruct Hu as [Hs|Hs]; rewrite Hs.
  - simpl. eexists. split; [done|]. simpl. split_and!; [done..|]. by left.
  - assert (Hr : is_Some (ci_retry_cause row)).
    { unfold cron_intent_check in Hc. destruct (intent_row_key i) as [[[[??]?]?]?].
      apply andb_true_iff in Hc as [_ Hc]. apply eqb_bool_decide in Hc. by apply Hc. }
    destruct Hr as [cause Hr]. rewrite Hr. simpl. rewrite (Hcause cause Hr). simpl.
    eexists. split; [done|]. simpl. split_and!; [done..|]. right. eauto.
Qed.

Lemma elem_of_take_in {A} (x : A) n l : x ∈ take n l -> x ∈ l.
Proof. intros H. rewrite <- (take_drop n l). apply elem_of_app. by left. Qed.

Lemma elem_of_pending_rows d k row limit :
  (k, row) ∈ pending_rows d limit -> cron_delivery_intent (cron d) !! k = Some row /\ undelivered row.
Proof.
  unfold pending_rows. intros Hin%elem_of_take_in.
  rewrite merge_sort_Permutation, elem_of_map_to_list, map_lookup_filter_Some in Hin. done.
Qed.

(** The pending query never fails. *)
Lemma pending_run limit w :
  cron_inv (cron (db w)) -> payloads_ok (cron (db w)) ->
  exists l, pending limit w = (Ok l, w) /\ Forall2 lists_as (pending_rows (db w) limit) l.
Proof.
  intros Hi Hp. unfold pending.
  assert (Hall : forall rows, (forall kr, kr ∈ rows -> kr ∈ pending_rows (db w) limit) ->
    exists l, collect (decode_pending <$> rows) = Ok l /\ Forall2 lists_as rows l).
  { induction rows as [|[k row] rows IH]; intros Hsub; [by exists []|].
    destruct (elem_of_pending_rows (db w) k row limit) as [Hl Hu]; [apply Hsub; by left|].
    destruct (decode_pending_run (cron (db w)) k row Hi Hp Hl Hu) as (p & Hd & Hlist).
    destruct IH as (l & Hc & Hf); [intros kr Hin; apply Hsub; by right|].
    exists (p :: l). rewrite fmap_cons. cbn [collect]. rewrite Hd. cbn [outcome_bind]. rewrite Hc.
    split; [done|by constructor]. }
  destruct (Hall (pending_rows (db w) limit)) as (l & Hc & Hf); [done|]. exists l. split; [|done].
  run run_get_db. unfold lift, st_lift. by rewrite Hc.
Qed.

(** A key and a payload determine the intent. *)
Lemma encode_intent_inj i j :
  intent_ok i -> intent_ok j -> intent_row_key i = intent_row_key j -> encode_intent i = encode_intent j -> i = j.
Proof.
  intros Hi Hj Hk He. assert (Hd : delivery_key i = delivery_key j).
  { rewrite !intent_row_key_key in Hk by done.
    destruct (delivery_key i) as [[]|], (delivery_key j) as [[]|]; simpl in Hk; naive_solver. }
  apply decode_encoded in Hi, Hj. rewrite Hd, He in Hi. congruence.
Qed.

(** Every undelivered row is listed when the limit admits them all. *)
Lemma pending_rows_all d limit k row :
  Z.of_nat (size (cron_delivery_intent (cron d))) <= limit <= i64_max ->
  cron_delivery_intent (cron d) !! k = Some row -> undelivered row -> (k, row) ∈ pending_rows d limit.
Proof.
  intros Hlim Hl Hu. unfold pending_rows, i64_try_from. rewrite bool_decide_eq_true_2 by lia. simpl.
  rewrite take_ge.
  - rewrite merge_sort_Permutation, elem_of_map_to_list, map_lookup_filter_Some. done.
  - rewrite merge_sort_Permutation. rewrite length_map_to_list.
    pose proof (map_size_filter (fun kr : CronIntentKey * CronIntentSqlRow => undelivered kr.2)
      (cron_delivery_intent (cron d))). lia.
Qed.

(** ** Payloads stay readable *)

Definition receipt_ok (receipt : DeliveryReceipt) : Prop :=
  match receipt with
  | Receipt_Unknown cause => delivery_retry_cause_parse cause = Ok cause
  | _ => True
  end.

Lemma commit_event_ok write w e : transition_ok (write_transition write) -> commit_event write w = Some e -> event_ok e.
Proof.
  unfold commit_event. destruct (repeated_failure _ _); [done|].
  destruct (write_transition write); simpl; intros Ht He; try done; by injection He as <-.
Qed.

Lemma mails_ok key names clock index outputs i :
  names_ok names -> i ∈ mails_of key names clock index outputs -> intent_ok i.
Proof.
  intros Hn. revert clock index. induction outputs as [|o outputs IH]; intros clock index; simpl.
  { by intros ?%elem_of_nil. }
  intros [->|Hin]%elem_of_cons; [|by eapply IH]. destruct names as [[??]?].
  split_and!; [done|apply ulid_range|]. simpl. eauto.
Qed.

Lemma commit_intents_ok write r names w i :
  commit_ready write r names w -> transition_ok (write_transition write) ->
  i ∈ commit_intents write names w -> intent_ok i.
Proof.
  intros Hr Ht Hin. assert (Hn : names_ok names).
  { apply (delivery_names_ok r), (ready_names _ _ _ _ Hr). unfold commit_intents in Hin.
    apply elem_of_app in Hin as [Hin|Hin].
    - left. unfold notice_of in Hin. destruct (commit_event write w); [done|by apply elem_of_nil in Hin].
    - right. intros Hnil. rewrite Hnil in Hin. by apply elem_of_nil in Hin. }
  unfold commit_intents in Hin. apply elem_of_app in Hin as [Hin|Hin]; [|by eapply mails_ok].
  unfold notice_of in Hin. destruct (commit_event write w) as [e|] eqn:He; [|by apply elem_of_nil in Hin].
  apply list_elem_of_singleton in Hin as ->. destruct names as [[??]?]. split; [done|]. by eapply commit_event_ok.
Qed.

Lemma payloads_committed write r names w :
  commit_ready write r names w -> transition_ok (write_transition write) -> payloads_ok (cron (db w)) ->
  payloads_ok (committed_tables write r names w).
Proof.
  intros Hr Ht Hp k row [(i & Hin & <- & ->)|Hrow]%add_intents_cases; [|by apply Hp].
  split; [|done]. exists i. split_and!; [by eapply commit_intents_ok|done|done].
Qed.

Lemma payloads_settled key receipt row w :
  payloads_ok (cron (db w)) -> receipt_ok receipt -> cron_delivery_intent (cron (db w)) !! key_row key = Some row ->
  payloads_ok (put_intents (<[key_row key := settled_row receipt row]> (cron_delivery_intent (cron (db w)))) (cron (db w))).
Proof.
  intros Hp Hr Hl k row'. simpl. rewrite lookup_insert_Some. intros [[<- <-]|[_ Hk]]; [|by apply Hp].
  destruct (Hp _ _ Hl) as [Hi _]. split; [by destruct receipt|].
  destruct receipt; simpl; try done. by intros ? [= <-].
Qed.
End Delivery.
