(* ===== verification/CronTiming.v ===== *)
(** * When a cron schedule runs

    Models the parts of [crates/atm-cron/src] that compute times: the expression
    reader [expr.rs], the jitter of [jitter.rs], the sleep of [clock.rs], the
    occurrence [next_time] and the reload backoff of [worker.rs].  The [cron]
    crate, which reads expressions and lists their occurrences, is a parameter
    ([CronExpr]), as is the random source.  A [DateTime] is its nanoseconds
    since 1970. *)

From S2P Require Import Prelude ErrorCodes Types Address TaskState CronTypes.
From stdpp Require Import base gmap strings list numbers.
Local Open Scope Z_scope.
Local Open Scope string_scope.
Local Open Scope list_scope.

(** ** Times *)

Definition second : Z := 1000000000.

(** [DateTime::<Utc>::MIN_UTC] and [MAX_UTC]. *)
Definition datetime_min : IsoTimestamp := -8334601228800 * second.
Definition datetime_max : IsoTimestamp := 8210266876800 * second - 1.

(** [checked_add_signed] and [checked_sub_signed]. *)
Definition datetime_checked (t : Z) : option IsoTimestamp :=
  if bool_decide (datetime_min <= t <= datetime_max) then Some t else None.

(** [Duration::seconds] panics past [i64::MAX] milliseconds. *)
Definition duration_seconds (secs : Z) : Outcome AtmError Z :=
  if bool_decide (- (i64_max / 1000) <= secs <= i64_max / 1000) then Ok (secs * second) else Panic.

(** ** Expressions *)

(** The [cron] crate: the reader and the items of [Schedule::after], in order. *)
Class CronExpr : Type := mkCronExpr {
  Schedule : Type;
  schedule_from_str : string -> string + Schedule;
  occurrence : Schedule -> IsoTimestamp -> nat -> option IsoTimestamp
}.

(** [after(&t)] lists later times, each later than the one before. *)
Class CronExprOk (ce : CronExpr) : Prop := {
  occurrence_later : forall s t u, occurrence s t 0 = Some u -> t < u;
  occurrence_grows : forall s t u v, occurrence s t 0 = Some u -> occurrence s t 1 = Some v -> u < v
}.

Definition cron_expr_invalid (detail : string) : AtmError :=
  atm_error_new CronExprInvalid ("CRON.EXPR_INVALID: " +:+ detail).

Section Timing.
Context {ce : CronExpr}.

Definition parse_syntax (expression : string) : Outcome AtmError Schedule :=
  let trimmed := trim expression in
  if negb (String.prefix "@" trimmed) && Nat.eqb (length (split_whitespace trimmed)) 5
  then Err (cron_expr_invalid
    "five-field expressions are not accepted; use 6 or 7 fields, seconds first, or @hourly..@yearly")
  else
    match schedule_from_str trimmed with
    | inl error => Err (cron_expr_invalid error)
    | inr schedule => Ok schedule
    end.

(** [expr::parse]. *)
Definition expr_parse (expression : string) (now : IsoTimestamp) : Outcome AtmError Schedule :=
  schedule ← parse_syntax expression;
  match occurrence schedule now 0 with
  | None => Err (cron_expr_invalid "expression has no future occurrence")
  | Some _ => Ok schedule
  end.

(** [tick::stop_due]. *)
Definition stop_due (stop : StopCondition) (now : IsoTimestamp) : bool :=
  match stop with
  | StopCondition_Until at_ => bool_decide (at_ <= now)
  | StopCondition_Hook => false
  end.

(** [worker::next_time]. *)
Definition next_time (schedule : CronSchedule) (now : IsoTimestamp)
    : Outcome AtmError (option IsoTimestamp) :=
  jitter ← duration_seconds (sched_jitter_s schedule);
  match datetime_checked (now - jitter) with
  | None => Ok None
  | Some base =>
    parsed ← parse_syntax (sched_cron_expr schedule);
    Ok (occurrence parsed base 0 ≫= fun next => datetime_checked (next + jitter))
  end.

(** ** Jitter *)

(** [SystemJitter::below]: [draws] are the values of the random source, in
    order; [None] when all of them are rejected. *)
Fixpoint below_loop (threshold upper : Z) (draws : list Z) : option Z :=
  match draws with
  | [] => None
  | value :: rest =>
    if bool_decide (threshold <= value) then Some (value mod upper) else below_loop threshold upper rest
  end.

(** [upper.wrapping_neg() % upper] on [u32]. *)
Definition below_threshold (upper : Z) : Z := ((- upper) mod 2 ^ 32) mod upper.

Definition system_below (upper : Z) (draws : list Z) : Outcome AtmError (option Z) :=
  if bool_decide (0 < upper) then Ok (below_loop (below_threshold upper) upper draws) else Panic.

(** [JitterSource]: the answer of the n-th reading. *)
Class JitterSource : Type := below : nat -> Z -> Z.
Class JitterSourceOk (js : JitterSource) : Prop :=
  below_range : forall n upper, 0 < upper -> 0 <= below n upper < upper.

(** The offsets [jitter::assign] chooses from: half the gap between the next two
    occurrences, between one second and half an hour. *)
Definition jitter_upper (schedule : Schedule) (now : IsoTimestamp) : Z :=
  match occurrence schedule now 0, occurrence schedule now 1 with
  | Some first, Some next => Z.max 1 (Z.min 1800 (Z.quot (Z.quot (next - first) second) 2))
  | _, _ => 1
  end.

Definition free_offsets (upper : Z) (held : list Z) : list Z :=
  filter (fun offset => offset ∉ held) (seqZ 0 upper).

Definition jitter_assign {js : JitterSource} (schedule : Schedule) (now : IsoTimestamp)
    (held : list Z) (reading : nat) : Outcome AtmError Z :=
  let upper := jitter_upper schedule now in
  match free_offsets upper held with
  | [] => Ok (below reading upper)
  | free =>
    match free !! Z.to_nat (below reading (Z.of_nat (length free))) with
    | Some offset => Ok offset
    | None => Panic
    end
  end.

(** ** Sleeping *)

Definition MAX_SLEEP_SLICE : Z := 30 * second.

Definition system_sleep_step (now target : IsoTimestamp) : Z :=
  Z.min (Z.max 0 (target - now)) MAX_SLEEP_SLICE.

(** [SystemClock::sleep_until]: [wake t d] is the time the clock shows after
    [tokio::time::sleep(d)] at [t]; the result is the time it returns at. *)
Fixpoint sleep_until (fuel : nat) (wake : IsoTimestamp -> Z -> IsoTimestamp) (now target : IsoTimestamp)
    : option IsoTimestamp :=
  match fuel with
  | O => None
  | S fuel' =>
    let duration := system_sleep_step now target in
    if bool_decide (duration = 0) then Some now
    else sleep_until fuel' wake (wake now duration) target
  end.

(** ** Retrying a reload *)

Definition RELOAD_RETRY_MAX_SECS : Z := 60.

Record ReloadRetry : Set := mkReloadRetry {
  retry_failures : Z;
  retry_due : option IsoTimestamp
}.

Definition no_retry : ReloadRetry := mkReloadRetry 0 None.

(** [1i64.checked_shl]: fails from 64 on; the top bit is the sign. *)
Definition i64_checked_shl_one (bits : Z) : option Z :=
  if bool_decide (bits < 64)
  then Some (if bool_decide (bits = 63) then - 2 ^ 63 else Z.shiftl 1 bits)
  else None.

(** [ReloadRetry::delay]. *)
Definition retry_delay (failures : Z) : Outcome AtmError Z :=
  duration_seconds
    (Z.min (default RELOAD_RETRY_MAX_SECS (i64_checked_shl_one failures)) RELOAD_RETRY_MAX_SECS).

(** [ReloadRetry::failed]: adding past the last date panics. *)
Definition retry_failed (retry : ReloadRetry) (now : IsoTimestamp) : Outcome AtmError ReloadRetry :=
  delay ← retry_delay (retry_failures retry);
  match datetime_checked (now + delay) with
  | None => Panic
  | Some due => Ok (mkReloadRetry (u32_saturating_add (retry_failures retry) 1) (Some due))
  end.

Definition retry_is_due (retry : ReloadRetry) (now : IsoTimestamp) : bool :=
  match retry_due retry with Some due => bool_decide (due <= now) | None => false end.
End Timing.

#[global] Arguments next_time : simpl never.
#[global] Arguments parse_syntax : simpl never.
#[global] Arguments datetime_checked : simpl never.
#[global] Arguments duration_seconds : simpl never.
#[global] Arguments retry_failed : simpl never.
