(* ===== verification/CronTimingProps.v ===== *)
(** * What the cron timing promises

    Jitter is in range, uniform and spread over the free offsets; an occurrence
    is in the future; sleeping ends; the reload backoff doubles, and where it
    breaks. *)

From S2P Require Import Prelude ErrorCodes Types Address TaskState CronTypes CronTiming.
From stdpp Require Import base gmap strings numbers list sorting.
Local Open Scope Z_scope.
Local Open Scope string_scope.
Local Open Scope list_scope.

(** [lia] with division and remainder. *)
Ltac div_lia := Z.div_mod_to_equations; lia.

(** ** Rejection sampling *)

Definition is_u32 (value : Z) : Prop := 0 <= value < 2 ^ 32.

Lemma below_threshold_mod upper : 0 < upper < 2 ^ 32 -> below_threshold upper = 2 ^ 32 mod upper.
Proof.
  intros Hu. unfold below_threshold.
  assert ((- upper) mod 2 ^ 32 = 2 ^ 32 - upper) as ->.
  { symmetry. apply (Z.mod_unique _ _ (-1)); [left|]; lia. }
  rewrite <- (Z_mod_plus_full (2 ^ 32 - upper) 1 upper). f_equal. lia.
Qed.

Lemma below_loop_accepts threshold upper draws :
  (exists v, below_loop threshold upper draws = Some v) <-> Exists (fun d => threshold <= d) draws.
Proof.
  induction draws as [|d draws IH]; simpl.
  - rewrite Exists_nil. split; [by intros [v Hv]|done].
  - rewrite Exists_cons. case_bool_decide as Hd; [by split; [left|eauto]|]. rewrite IH. split; [by right|by intros [?|?]].
Qed.

Lemma below_loop_range threshold upper draws v :
  0 < upper -> below_loop threshold upper draws = Some v -> 0 <= v < upper.
Proof.
  intros Hu. induction draws as [|d draws IH]; simpl; [done|].
  case_bool_decide; [|by auto]. intros [= <-]. by apply Z.mod_pos_bound.
Qed.

(** The draws that give [v] start at the first accepted one and recur every
    [upper]. *)
Lemma accepted_draws upper v d :
  0 < upper -> 0 <= v < upper -> is_u32 d ->
  let t := 2 ^ 32 mod upper in
  (t <= d /\ d mod upper = v)
  <-> exists k, 0 <= k < 2 ^ 32 / upper /\ d = t + (v - t) mod upper + k * upper.
Proof.
  intros Hu Hv [Hd0 Hd] t. pose proof (Z.div_mod (2 ^ 32) upper ltac:(lia)) as Hdm. fold t in Hdm.
  pose proof (Z.mod_pos_bound (2 ^ 32) upper Hu) as Ht. fold t in Ht.
  pose proof (Z.mod_pos_bound (v - t) upper Hu) as Hr.
  pose proof (Z.div_mod (v - t) upper ltac:(lia)) as Hvm.
  set (q := 2 ^ 32 / upper) in *. set (r := (v - t) mod upper) in *. set (p := (v - t) / upper) in *. split.
  - intros [Htd Hm]. pose proof (Z.div_mod d upper ltac:(lia)) as Hdd. rewrite Hm in Hdd.
    set (e := d / upper) in *. exists (e + p).
    assert (d = t + r + (e + p) * upper) as Heq by lia. split; [|exact Heq]. split; [|nia].
    assert (0 <= r + (e + p) * upper) by lia. nia.
  - intros (k & Hk & ->). split; [nia|].
    replace (t + r + k * upper) with (v + (k - p) * upper) by lia. rewrite Z_mod_plus_full. by apply Z.mod_small.
Qed.

(** The random jitter is below its bound, it is found as soon as one drawn value is
    accepted, and it is unbiased: every answer below [upper] is given by exactly
    [2 ^ 32 / upper] of the values a draw can have. *)
Theorem jitter_below_uniform upper :
  0 < upper < 2 ^ 32 ->
  let t := below_threshold upper in
  (forall draws v, system_below upper draws = Ok (Some v) -> 0 <= v < upper)
  /\ (forall draws, (exists v, system_below upper draws = Ok (Some v)) <-> Exists (fun d => t <= d) draws)
  /\ (forall v d, 0 <= v < upper -> is_u32 d ->
        system_below upper [d] = Ok (Some v)
        <-> exists k, 0 <= k < 2 ^ 32 / upper /\ d = t + (v - t) mod upper + k * upper).
Proof.
  intros Hu t. unfold system_below. rewrite bool_decide_eq_true_2 by lia. split_and!.
  - intros draws v [= Hv]. eapply below_loop_range; [|exact Hv]. lia.
  - intros draws. rewrite <- (below_loop_accepts t upper).
    split; intros [v Hv]; exists v; [by injection Hv|by rewrite <- Hv].
  - intros v d Hv Hd. unfold t. rewrite below_threshold_mod by done.
    rewrite <- (accepted_draws upper v d) by (done || lia). simpl. case_bool_decide as Hb.
    + split; [intros [= <-]; done|by intros [_ ->]].
    + split; [done|lia].
Qed.

Lemma jitter_below_uniform_witness :
  system_below 6 [1; 2; 11] = Ok (Some 5) /\ 0 <= 5 < 6 /\ system_below 6 [2 ^ 32 - 1] = Ok (Some 3).
Proof.
  destruct (jitter_below_uniform 6 ltac:(lia)) as (Hrange & _ & Huniform).
  split; [vm_compute; reflexivity|]. split; [apply (Hrange [1; 2; 11]); vm_compute; reflexivity|].
  apply (Huniform 3 (2 ^ 32 - 1) ltac:(lia) ltac:(unfold is_u32; lia)).
  exists 715827881. vm_compute. repeat split; discriminate.
Defined.

(** ** Assigning jitter *)

Section Timing.
Context {ce : CronExpr}.

Lemma jitter_upper_range schedule now : 1 <= jitter_upper schedule now <= 1800.
Proof. unfold jitter_upper. repeat case_match; lia. Qed.

Lemma elem_of_free_offsets upper held o : o ∈ free_offsets upper held <-> 0 <= o < upper /\ o ∉ held.
Proof. unfold free_offsets. rewrite list_elem_of_filter, elem_of_seqZ. rewrite Z.add_0_l. tauto. Qed.

Lemma jitter_assign_range {js : JitterSource} schedule now held reading :
  JitterSourceOk js ->
  exists o, jitter_assign schedule now held reading = Ok o /\ 0 <= o < jitter_upper schedule now
    /\ (o ∈ held -> forall o', 0 <= o' < jitter_upper schedule now -> o' ∈ held).
Proof.
  intros Hjs. pose proof (jitter_upper_range schedule now) as Hu. unfold jitter_assign.
  destruct (free_offsets (jitter_upper schedule now) held) as [|f fs] eqn:Hfree.
  - eexists. split; [done|]. split; [apply below_range; lia|]. intros _ o' Ho'.
    destruct (decide (o' ∈ held)) as [|Hn]; [done|].
    pose proof (proj2 (elem_of_free_offsets _ held o') (conj Ho' Hn)) as Hin. rewrite Hfree in Hin.
    by apply elem_of_nil in Hin.
  - pose proof (below_range reading (Z.of_nat (length (f :: fs))) ltac:(simpl; lia)) as Hb.
    destruct (lookup_lt_is_Some_2 (f :: fs) (Z.to_nat (below reading (Z.of_nat (length (f :: fs))))) ltac:(lia)) as [o Ho].
    rewrite Ho. exists o. apply list_elem_of_lookup_2 in Ho. rewrite <- Hfree in Ho.
    apply elem_of_free_offsets in Ho as [Ho Hn]. split_and!; [done|lia..|done].
Qed.

Lemma jitter_half_gap schedule now o first next :
  0 <= o < jitter_upper schedule now ->
  occurrence schedule now 0 = Some first -> occurrence schedule now 1 = Some next -> first < next ->
  o * 2 * second <= next - first.
Proof.
  intros Hr Hf Hn Hlt. unfold jitter_upper in Hr. rewrite Hf, Hn in Hr. unfold second in *.
  rewrite !Z.quot_div_nonneg in Hr by (try apply Z.quot_pos; lia). Z.div_mod_to_equations. lia.
Qed.

(** ** Occurrences *)

Lemma duration_seconds_inv s d : duration_seconds s = Ok d -> d = s * second.
Proof. unfold duration_seconds. case_bool_decide; [|done]. by intros [= <-]. Qed.

Lemma datetime_checked_inv t u : datetime_checked t = Some u -> u = t.
Proof. unfold datetime_checked. case_bool_decide; [|done]. by intros [= <-]. Qed.

(** A computed occurrence is later than now. *)
Lemma next_time_later {ceok : CronExprOk ce} schedule now next :
  next_time schedule now = Ok (Some next) -> now < next.
Proof.
  unfold next_time. destruct (duration_seconds _) as [jitter|e|]; [|done..]. simpl.
  destruct (datetime_checked (now - jitter)) as [base|] eqn:Hb; [|done].
  apply datetime_checked_inv in Hb as ->.
  destruct (parse_syntax _) as [parsed|e|]; [|done..]. simpl. intros [= H].
  destruct (occurrence parsed (now - jitter) 0) as [u|] eqn:Hu; [|done]. simpl in H.
  apply datetime_checked_inv in H as ->. apply occurrence_later in Hu. lia.
Qed.

(** The seconds of jitter are a [u32], so the computation never panics. *)
Lemma next_time_no_panic schedule now :
  0 <= sched_jitter_s schedule <= u32_max -> next_time schedule now <> Panic.
Proof.
  intros Hj. unfold next_time, duration_seconds. rewrite bool_decide_eq_true_2.
  2:{ unfold u32_max in Hj. unfold i64_max. change (9223372036854775807 / 1000) with 9223372036854775. lia. }
  simpl. destruct (datetime_checked _); [|done]. unfold parse_syntax. by repeat case_match.
Qed.
End Timing.

(** ** Sleeping *)

Lemma sleep_step_zero now target : system_sleep_step now target = 0 <-> target <= now.
Proof. unfold system_sleep_step, MAX_SLEEP_SLICE, second. lia. Qed.

(** The sleep of the system clock ends, at the target or after it, within one round
    per half minute left and one more, whatever the clock shows after each
    slice, as long as a slice takes the time it was given. *)
Theorem sleep_until_wakes wake now target fuel :
  (forall t d, 0 <= d -> t + d <= wake t d) ->
  0 < Z.of_nat fuel -> target - now <= (Z.of_nat fuel - 1) * MAX_SLEEP_SLICE ->
  exists t, sleep_until fuel wake now target = Some t /\ target <= t /\ now <= t
    /\ (target <= now -> t = now).
Proof.
  intros Hwake. revert now. unfold MAX_SLEEP_SLICE, second. induction fuel as [|fuel IH]; intros now H0 Hf; [lia|]. simpl.
  case_bool_decide as Hz.
  { apply sleep_step_zero in Hz. exists now. split_and!; [done|lia..|done]. }
  assert (now < target) as Hlt by (destruct (decide (target <= now)) as [Hle|]; [by apply sleep_step_zero in Hle|lia]).
  pose proof (Hwake now (system_sleep_step now target)) as Hw.
  unfold system_sleep_step, MAX_SLEEP_SLICE, second in *. specialize (Hw ltac:(lia)).
  destruct (IH (wake now (Z.min (Z.max 0 (target - now)) (30 * 1000000000)))) as (t & Ht & Hle & Hge & _); [lia..|].
  exists t. split_and!; [exact Ht|lia..].
Qed.

Lemma sleep_until_wakes_witness :
  exists t, sleep_until 4 (fun t d => t + d + 5) 0 (70 * second) = Some t /\ 70 * second <= t.
Proof.
  destruct (sleep_until_wakes (fun t d => t + d + 5) 0 (70 * second) 4 ltac:(intros t d Hd; cbv beta; lia)
    ltac:(reflexivity) ltac:(vm_compute; discriminate)) as (t & Ht & Hle & _). exists t. split; [exact Ht|exact Hle].
Defined.

(** ** Reloading *)

(** Consecutive failed reloads, at these times. *)
Definition failed_at (times : list IsoTimestamp) : Outcome AtmError ReloadRetry :=
  foldl (fun retry now => retry ≫= fun retry => retry_failed retry now) (Ok no_retry) times.

(** Times with a minute to the last date. *)
Definition clock_range (t : IsoTimestamp) : Prop := datetime_min <= t <= datetime_max - 60 * second.

Definition backoff (n : Z) : Z := Z.min (2 ^ n) 60 * second.

Lemma backoff_range n : 0 <= n -> second <= backoff n <= 60 * second.
Proof. intros Hn. unfold backoff, second. pose proof (Z.pow_pos_nonneg 2 n ltac:(lia) Hn). lia. Qed.

Lemma retry_delay_backoff n : 0 <= n < 63 -> retry_delay n = Ok (backoff n).
Proof.
  intros Hn. unfold retry_delay, i64_checked_shl_one. rewrite bool_decide_eq_true_2, bool_decide_eq_false_2 by lia.
  simpl. rewrite Z.shiftl_1_l. pose proof (backoff_range n ltac:(lia)) as Hb.
  unfold duration_seconds, backoff, RELOAD_RETRY_MAX_SECS, second in *. rewrite bool_decide_eq_true_2; [done|].
  change (i64_max / 1000) with 9223372036854775. lia.
Qed.

Lemma retry_failed_run n now due :
  0 <= n < 63 -> clock_range now ->
  retry_failed (mkReloadRetry n due) now = Ok (mkReloadRetry (n + 1) (Some (now + backoff n))).
Proof.
  intros Hn Hc. unfold retry_failed. simpl. rewrite retry_delay_backoff by done. simpl.
  pose proof (backoff_range n ltac:(lia)) as Hb. unfold datetime_checked, clock_range, second in *.
  rewrite bool_decide_eq_true_2 by lia. unfold u32_saturating_add, u32_max. by rewrite Z.min_l by lia.
Qed.

Lemma failed_at_count times :
  Forall clock_range times -> (length times <= 63)%nat ->
  exists due, failed_at times = Ok (mkReloadRetry (Z.of_nat (length times)) due).
Proof.
  induction times as [|now times IH] using rev_ind; [by exists None|].
  rewrite Forall_app, length_app. simpl. intros [Ht Hn] Hlen.
  destruct IH as [due Hdue]; [done|lia|]. unfold failed_at in *. rewrite foldl_app, Hdue. simpl.
  apply Forall_cons_1 in Hn as [Hn _]. eexists.
  rewrite (retry_failed_run (Z.of_nat (length times)) now due ltac:(lia) Hn), Nat2Z.inj_add. reflexivity.
Qed.

(** C36: the n-th consecutive failure to reload is retried after 1, 2, 4, ... seconds, at
    most a minute; but the 64th panics, and with it the worker: the delay of 63
    failures shifts a bit into the sign, and a negative duration of that size
    cannot be built. *)
Theorem reload_backoff_panics times now :
  Forall clock_range times -> clock_range now ->
  ((length times < 63)%nat ->
     failed_at (times ++ [now])
     = Ok (mkReloadRetry (Z.of_nat (length times) + 1) (Some (now + backoff (Z.of_nat (length times))))))
  /\ (length times = 63%nat -> failed_at (times ++ [now]) = Panic).
Proof.
  intros Ht Hn. unfold failed_at. rewrite foldl_app. split; intros Hlen.
  - destruct (failed_at_count times Ht ltac:(lia)) as [due Hdue]. unfold failed_at in Hdue. rewrite Hdue. simpl.
    apply retry_failed_run; [lia|done].
  - destruct (failed_at_count times Ht ltac:(lia)) as [due Hdue]. unfold failed_at in Hdue. rewrite Hdue, Hlen.
    vm_compute. reflexivity.
Qed.

Lemma reload_backoff_panics_witness :
  failed_at [0; second; 3 * second] = Ok (mkReloadRetry 3 (Some (7 * second)))
  /\ failed_at (replicate 63 0 ++ [0]) = Panic.
Proof.
  split.
  - apply (reload_backoff_panics [0; second] (3 * second));
      [repeat (apply Forall_cons_2; [split; vm_compute; discriminate|]); apply Forall_nil_2|split; vm_compute; discriminate|simpl; lia].
  - apply (reload_backoff_panics (replicate 63 0) 0);
      [apply Forall_replicate; split; vm_compute; discriminate|split; vm_compute; discriminate|reflexivity].
Defined.

(** ** Witnesses on a concrete expression reader *)

(** Every expression runs each minute. *)
#[export] Instance minutely : CronExpr :=
  {| Schedule := unit;
     schedule_from_str _ := inr tt;
     occurrence _ t n := Some ((t / (60 * second) + 1 + Z.of_nat n) * (60 * second)) |}.

#[export] Instance minutely_ok : CronExprOk minutely.
Proof.
  constructor; simpl.
  - intros _ t u [= <-]. unfold second. div_lia.
  - intros _ t u v [= <-] [= <-]. unfold second. lia.
Qed.

#[export] Instance first_offset : JitterSource := fun _ _ => 0.
#[export] Instance first_offset_ok : JitterSourceOk first_offset.
Proof. intros n upper Hu. unfold below, first_offset. lia. Qed.
