(* ===== verification/CronEngine.v ===== *)
(** * Running a cron schedule

    Models [crates/atm-cron/src/engine.rs] and [tick.rs]: one run of a schedule,
    from its stop check to the transition it commits and the deliveries it
    attempts, and the untyped path without the engine; with the request types of
    [crates/atm-core/src/hook] and the permit of [boundary/cron_run_permit.rs].

    The boundary traits the code is given as [Arc<dyn ..>] are parameters
    ([CronPorts]); each call is recorded in the trace.  A store call runs as a
    blocking task: other tasks may use the database first ([others]), and a
    panic inside it becomes an error.  Logging is not modelled. *)

From S2P Require Import Prelude ErrorCodes Types Address TaskState CronTypes Database Transaction.
From S2P Require Import CronStore CronTransition CronTiming.
From stdpp Require Import base gmap strings list numbers pretty.
Local Open Scope Z_scope.
Local Open Scope string_scope.
Local Open Scope list_scope.

(** ** Requests and replies *)

Definition CRON_TICK : string := "cron.tick".
Definition CRON_STOP : string := "cron.stop".

Record HookTarget : Set := mkHookTarget {
  target_team : TeamName;
  target_phase : PhaseId;
  target_module_path : string;
  target_cwd : string;
  target_timeout_ms : Z;
  target_custom : list (string * Value)
}.

(** [HookTarget::from(&CronSchedule)]. *)
Definition hook_target (row : CronSchedule) : HookTarget :=
  mkHookTarget (sched_team row) (sched_phase row) (sched_module_path row) (sched_cwd row)
    (sched_timeout_ms row) (sched_custom row).

Record HookCaller : Set := mkHookCaller {
  caller_identity : AgentName;
  caller_team : TeamName;
  caller_host : option HostName
}.

Record HookRequest : Set := mkHookRequest {
  request_schema_version : string;
  request_hook : string;
  request_team : TeamName;
  request_phase : PhaseId;
  request_caller : HookCaller;
  request_body : Value;
  request_custom : list (string * Value)
}.

Definition HOOK_SCHEMA_VERSION : string := "1.0.0".

Definition for_cron (target : HookTarget) (caller : HookCaller) (hook : string) (args : list string)
    : HookRequest :=
  {| request_schema_version := HOOK_SCHEMA_VERSION;
     request_hook := hook;
     request_team := target_team target;
     request_phase := target_phase target;
     request_caller := caller;
     request_body := Value_Object [("args", Value_Array (Value_String <$> args));
                                   ("created_by", Value_String (caller_identity caller))];
     request_custom := target_custom target |}.

Inductive HookActionCommand : Set :=
| HookAction_Send | HookAction_Ack
| HookAction_TaskAssign | HookAction_TaskStart | HookAction_TaskClose | HookAction_TaskMove
| HookAction_TaskList | HookAction_TaskEvents | HookAction_TaskHistory
| HookAction_Read | HookAction_Peek | HookAction_Clear | HookAction_Search | HookAction_Doctor.

Record HookAction : Set := mkHookAction {
  action_command : HookActionCommand;
  action_run_as : option AgentName;
  action_request : Value
}.

Inductive HookReply : Set :=
| HookReply_Handled (actions : list HookAction)
| HookReply_PassThrough
| HookReply_NotApplicable
| HookReply_Refused (message : string).

Record StopReply : Set := mkStopReply {
  stop_reply_stop : bool;
  stop_reply_reason : option string
}.

Inductive CronTickReply : Set :=
| TickReply_PassThrough (output : list CronModuleOutput)
| TickReply_Handled (actions : list HookAction) (output : list CronModuleOutput)
| TickReply_NotApplicable
| TickReply_Refused (message : CronDiagnosticDetail).

Record CronStopReply : Set := mkCronStopReply {
  stop_stop : bool;
  stop_reason : option CronDiagnosticDetail;
  stop_output : list CronModuleOutput
}.

Definition CRON_OUTPUT_MAX_ITEMS : Z := 32.

(** [CronStopReply::new]. *)
Definition cron_stop_reply_new (stop : bool) (reason : option CronDiagnosticDetail)
    (output : list CronModuleOutput) : Outcome AtmError CronStopReply :=
  if negb (Bool.eqb stop (bool_decide (is_Some reason)))
  then Err (hook_malformed "cron stop reason is required exactly when stop is true")
  else if (CRON_OUTPUT_MAX_ITEMS <? Z.of_nat (length output))%Z
  then Err (hook_malformed ("cron output must contain at most " +:+ pretty CRON_OUTPUT_MAX_ITEMS +:+ " entries"))
  else Ok (mkCronStopReply stop reason output).

Record CronRunPermit : Set := mkCronRunPermit {
  permit_schedule_id : CronScheduleId;
  permit_generation : CronGeneration
}.

(** [CronRunPermit::from_issuer(&SchedulePermitIssuer::for_schedule(schedule))]. *)
Definition permit_for_schedule (schedule : CronSchedule) : CronRunPermit :=
  mkCronRunPermit (sched_id schedule) (sched_generation schedule).

Record DispatchSpec : Set := mkDispatchSpec {
  dispatch_hook : string;
  dispatch_team : TeamName;
  dispatch_phase : PhaseId;
  dispatch_default_as : AgentName;
  dispatch_deadline : option Z;
  dispatch_dry_run : bool
}.

(** ** Outcomes of a run *)

Inductive CronRunOutcome : Set :=
| Run_Ok
| Run_Refused (message : string)
| Run_Actions (count : Z)
| Run_SkippedInFlight
| Run_Exit (message : string)
| Run_Timeout
| Run_Malformed
| Run_ActionErr (code : AtmErrorCode)
| Run_Stopped (reason : string)
| Run_StopCheckFailed (code : AtmErrorCode).

#[export] Instance CronRunOutcome_eq_dec : EqDecision CronRunOutcome.
Proof. solve_decision. Defined.

(** [CronRunOutcome::as_str]. *)
Definition run_outcome_as_str (o : CronRunOutcome) : string :=
  match o with
  | Run_Ok => "ok"
  | Run_Refused m => "refused: " +:+ m
  | Run_Actions count => "actions: " +:+ pretty count
  | Run_SkippedInFlight => "skipped_in_flight"
  | Run_Exit m => if String.eqb m "" then "exit" else "exit: " +:+ m
  | Run_Timeout => "timeout"
  | Run_Malformed => "malformed"
  | Run_ActionErr c => "action_err: " +:+ code_display c
  | Run_Stopped reason => stopped_outcome reason
  | Run_StopCheckFailed c => "stop_check_failed: " +:+ code_display c
  end.

(** [engine::diagnostic], on the fixed texts of the code. *)
Definition diagnostic (value : string) : Outcome AtmError CronDiagnosticDetail :=
  match cron_diagnostic_parse value with Ok d => Ok d | _ => Panic end.

(** [engine::failure]. *)
Definition failure_transition (kind : CronFailureKind) (c : option AtmErrorCode) (detail : string)
    : Outcome AtmError CronRunTransition :=
  d ← diagnostic detail; Ok (Transition_Failure (mkCronFailure kind c d)).

Definition runner_failure (error : AtmError) : Outcome AtmError CronRunTransition :=
  let kind :=
    match code error with
    | HookTimeout => FailureKind_Timeout
    | HookMalformed => FailureKind_MalformedReply
    | _ => FailureKind_RunnerExit
    end in
  failure_transition kind (Some (code error)) "cron hook runner failed".

Definition outcome_for (t : CronRunTransition) : CronRunOutcome :=
  match t with
  | Transition_Success CronSuccess_Ok => Run_Ok
  | Transition_Success (CronSuccess_Actions count) => Run_Actions count
  | Transition_StopCheckContinues => Run_Ok
  | Transition_Stopped reason => Run_Stopped reason
  | Transition_SkippedInFlight => Run_SkippedInFlight
  | Transition_Failure f =>
    match failure_kind f with
    | FailureKind_Timeout => Run_Timeout
    | FailureKind_MalformedReply => Run_Malformed
    | FailureKind_ActionFailed => Run_ActionErr (default InternalError (failure_code f))
    | FailureKind_StopCheckFailed => Run_StopCheckFailed (default InternalError (failure_code f))
    | FailureKind_Refused => Run_Refused (failure_detail f)
    | FailureKind_RunnerExit => Run_Exit (failure_detail f)
    end
  end.

(** [tick::failure_for_record]. *)
Definition failure_for_record (kind : CronFailureKind) (c : option AtmErrorCode)
    : Outcome AtmError CronRunTransition :=
  failure_transition kind c "cron run failed".

Definition transition_for_record (o : CronRunOutcome) : Outcome AtmError CronRunTransition :=
  match o with
  | Run_Ok => Ok (Transition_Success CronSuccess_Ok)
  | Run_Actions count => Ok (Transition_Success (CronSuccess_Actions count))
  | Run_SkippedInFlight => Ok Transition_SkippedInFlight
  | Run_Stopped reason => d ← diagnostic reason; Ok (Transition_Stopped d)
  | Run_Refused m => failure_transition FailureKind_Refused None m
  | Run_Timeout => failure_for_record FailureKind_Timeout None
  | Run_Malformed => failure_for_record FailureKind_MalformedReply None
  | Run_Exit _ => failure_for_record FailureKind_RunnerExit None
  | Run_ActionErr c => failure_for_record FailureKind_ActionFailed (Some c)
  | Run_StopCheckFailed c => failure_for_record FailureKind_StopCheckFailed (Some c)
  end.

(** [tick::runner_error]. *)
Definition runner_error (error : AtmError) : CronRunOutcome :=
  match code error with
  | HookTimeout => Run_Timeout
  | HookMalformed => Run_Malformed
  | _ => Run_Exit ""
  end.

(** ** The state and the ports *)

(** What the code asked of its ports, with the answers that decide what follows. *)
Inductive Effect : Set :=
| Effect_StopCheck (request : HookRequest) (deadline : Z)
| Effect_Run (request : HookRequest) (deadline : Z)
| Effect_Dispatch (spec : DispatchSpec) (permit : CronRunPermit) (actions : list HookAction)
| Effect_Lifecycle (intent : CronNoticeIntent) (receipt : option DeliveryReceipt)
| Effect_ModuleMail (intent : CronModuleMailIntent) (permit : CronRunPermit)
    (receipt : option DeliveryReceipt).

(** [AtmCron]: the database, the calls made so far, the [stopped] flag and the
    reload counter. *)
Record CronState : Type := mkCronState {
  world : World;
  trace : list Effect;
  cron_stopped : bool;
  cron_reload : Z
}.

Definition set_world (w : World) (s : CronState) : CronState :=
  mkCronState w (trace s) (cron_stopped s) (cron_reload s).
Definition emit (e : Effect) (s : CronState) : CronState :=
  mkCronState (world s) (trace s ++ [e]) (cron_stopped s) (cron_reload s).

Definition C (A : Type) : Type := ST CronState AtmError A.

#[export] Instance C_ret : MRet C := st_ret CronState AtmError.
#[export] Instance C_bind : MBind C := st_mbind CronState AtmError.

Class CronPorts : Type := mkCronPorts {
  clock_at : nat -> IsoTimestamp;              (* Clock::now *)
  monotonic_at : nat -> Z;                     (* Clock::monotonic_now, in nanoseconds *)
  cron_host : option HostName;
  typed_execution : bool;                      (* with_typed_execution was called *)
  join_error : nat -> string;                  (* the text of a JoinError *)
  others : CronState -> CronState;             (* what other tasks do at an await *)
  run_cron : HookTarget -> HookRequest -> Z -> M CronTickReply;    (* CronHookRunner *)
  stop_cron : HookTarget -> HookRequest -> Z -> M CronStopReply;
  lifecycle_deliver : CronNoticeIntent -> M DeliveryReceipt;       (* CronLifecycleNudger *)
  module_mail_deliver : CronModuleMailIntent -> CronRunPermit -> M DeliveryReceipt;
      (* CronModuleMailDelivery *)
  dispatch_cron_actions : DispatchSpec -> CronRunPermit -> list HookAction -> M unit;
      (* HookActionDispatcher *)
  hook_run : HookTarget -> HookRequest -> Z -> M HookReply;        (* HookRunner *)
  hook_stop : HookTarget -> HookRequest -> Z -> M StopReply
}.

Definition c_fail {A} (e : AtmError) : C A := st_fail e.
Definition c_lift {A} (o : Outcome AtmError A) : C A := st_lift o.

(** A [Result] the caller matches on. *)
Definition attempt {A} (c : C A) : C (Outcome AtmError A) :=
  fun s => match c s with
           | (Panic, s') => (Panic, s')
           | (o, s') => (Ok o, s')
           end.

Section Engine.
Context {rt : Runtime} {crt : CronRuntime} {ports : CronPorts}.

(** [Clock::now]. *)
Definition clock_now : C IsoTimestamp :=
  fun s => (Ok (clock_at (ticks (world s))), set_world (tick (world s)) s).

(** [spawn_blocking(..).await] with its [map_err]. *)
Definition store_task {A} (context : string) (c : M A) : C A :=
  fun s =>
    let s := others s in
    match c (world s) with
    | (Panic, w) =>
      (Err (with_cause (atm_error_new InternalError context) (join_error (ticks w))), set_world w s)
    | (o, w) => (o, set_world w s)
    end.

(** [scheduler::store_call]. *)
Definition store_call {A} (c : M A) : C A := store_task "cron store task failed" c.

(** A call of an asynchronous port. *)
Definition port_call {A} (effect : Outcome AtmError A -> Effect) (c : M A) : C A :=
  fun s => let s := others s in
           let '(o, w) := c (world s) in
           (o, emit (effect o) (set_world w s)).

(** ** Requests *)

(** [tick::request], [engine::request]. *)
Definition cron_request (schedule : CronSchedule) (target : HookTarget) (hook : string) : HookRequest :=
  for_cron target (mkHookCaller (sched_created_by schedule) (sched_team schedule) cron_host) hook
    (sched_args schedule).

Definition HOOK_ACTION_RESERVE_MS : Z := 500.

(** [deadline_budget], in nanoseconds. *)
Definition deadline_budget (timeout_ms : Z) : Z := (timeout_ms + HOOK_ACTION_RESERVE_MS) * 1000000.

(** [tick::deadline], [engine::deadline]. *)
Definition cron_deadline (schedule : CronSchedule) : C Z :=
  fun s => (Ok (monotonic_at (ticks (world s)) + deadline_budget (sched_timeout_ms schedule)),
            set_world (tick (world s)) s).

(** [CronEngine::stop]. *)
Definition engine_stop (schedule : CronSchedule) (target : HookTarget) : C CronStopReply :=
  let request := cron_request schedule target CRON_STOP in
  deadline ← cron_deadline schedule;
  port_call (fun _ => Effect_StopCheck request deadline) (stop_cron target request deadline).

Definition dispatch_spec (schedule : CronSchedule) : DispatchSpec :=
  {| dispatch_hook := CRON_TICK;
     dispatch_team := sched_team schedule;
     dispatch_phase := sched_phase schedule;
     dispatch_default_as := sched_created_by schedule;
     dispatch_deadline := None;
     dispatch_dry_run := false |}.

Definition dispatch (schedule : CronSchedule) (actions : list HookAction) : C unit :=
  let permit := permit_for_schedule schedule in
  port_call (fun _ => Effect_Dispatch (dispatch_spec schedule) permit actions)
    (dispatch_cron_actions (dispatch_spec schedule) permit actions).

(** ** Deliveries *)

(** The intents of one schedule generation that are safe to send. *)
Definition ready_for (schedule : CronSchedule) (p : PendingCronDelivery) : option CronDeliveryIntent :=
  match p with
  | Pending_ReadyToSend (DeliveryIntent_Lifecycle notice) =>
    if bool_decide (notice_schedule_id (intent_key notice) = sched_id schedule
                    /\ notice_generation (intent_key notice) = sched_generation schedule)
    then Some (DeliveryIntent_Lifecycle notice) else None
  | Pending_ReadyToSend (DeliveryIntent_ModuleMail mail) =>
    match mail_key mail with
    | DeliveryKey_ModuleMail id generation _ _ =>
      if bool_decide (id = sched_id schedule /\ generation = sched_generation schedule)
      then Some (DeliveryIntent_ModuleMail mail) else None
    | DeliveryKey_Lifecycle _ => None
    end
  | Pending_ReconciliationRequired _ _ => None
  end.

Definition PENDING_LIMIT : Z := 128.

Definition pending_intents (schedule : CronSchedule) : C (list CronDeliveryIntent) :=
  pending ← store_task "cron pending delivery task failed" (pending PENDING_LIMIT);
  mret (omap (ready_for schedule) pending).

Definition receipt_of (o : Outcome AtmError DeliveryReceipt) : option DeliveryReceipt :=
  match o with Ok r => Some r | _ => None end.

Definition deliver_intent (schedule : CronSchedule) (intent : CronDeliveryIntent)
    : C (option (CronDeliveryKey * DeliveryReceipt)) :=
  match intent with
  | DeliveryIntent_Lifecycle i =>
    receipt ← attempt (port_call (fun o => Effect_Lifecycle i (receipt_of o)) (lifecycle_deliver i));
    mret ((fun r => (DeliveryKey_Lifecycle (intent_key i), r)) <$> receipt_of receipt)
  | DeliveryIntent_ModuleMail i =>
    match mail_key i with
    | DeliveryKey_Lifecycle _ => mret None
    | DeliveryKey_ModuleMail id generation _ _ =>
      if bool_decide (id <> sched_id schedule \/ generation <> sched_generation schedule)
      then mret None
      else
        let permit := permit_for_schedule schedule in
        receipt ← attempt (port_call (fun o => Effect_ModuleMail i permit (receipt_of o))
                             (module_mail_deliver i permit));
        mret ((fun r => (mail_key i, r)) <$> receipt_of receipt)
    end
  end.

Definition mark_intent_delivered (key : CronDeliveryKey) (receipt : DeliveryReceipt) : C unit :=
  _ ← attempt (store_task "cron delivery receipt task failed" (mark_delivered key receipt));
  mret tt.

(** The body of the loop of [commit]. *)
Definition deliver_and_mark (schedule : CronSchedule) (intent : CronDeliveryIntent) : C unit :=
  delivered ← deliver_intent schedule intent;
  match delivered with
  | Some (key, receipt) => mark_intent_delivered key receipt
  | None => mret tt
  end.

(** [CronEngine::commit]: whether the transition was applied. *)
Definition engine_commit (schedule : CronSchedule) (transition : CronRunTransition)
    (outputs : list CronModuleOutput) : C bool :=
  intents ← pending_intents schedule;
  at_ ← clock_now;
  let write := mkCronTransitionWrite (sched_id schedule) (sched_generation schedule) at_ transition outputs in
  result ← store_task "cron transition task failed" (commit write);
  match result with
  | Commit_StaleGeneration => mret false
  | Commit_Applied committed =>
    _ ← st_iter (deliver_and_mark schedule) (intents ++ committed);
    mret true
  end.

(** [CronEngine::record]. *)
Definition engine_record (schedule : CronSchedule) (transition : CronRunTransition) : C bool :=
  applied ← attempt (engine_commit schedule transition []);
  mret (match applied with Ok b => b | _ => false end).

(** ** One run *)

(** [Execution]: the transition and its outputs. *)
Abbreviation Execution := (CronRunTransition * list CronModuleOutput)%type (only parsing).

Definition dispatch_handled_actions (schedule : CronSchedule) (actions : list HookAction)
    (output : list CronModuleOutput) : C Execution :=
  let count := Z.of_nat (length actions) in
  match actions with
  | [] => mret (Transition_Success (CronSuccess_Actions count), output)
  | _ :: _ =>
    result ← attempt (dispatch schedule actions);
    transition ← c_lift
      (match result with
       | Err error => failure_transition FailureKind_ActionFailed (Some (code error)) "cron action admission failed"
       | _ => Ok (Transition_Success (CronSuccess_Actions count))
       end);
    mret (transition, output)
  end.

Definition execution_for_reply (schedule : CronSchedule) (reply : Outcome AtmError CronTickReply)
    : C Execution :=
  match reply with
  | Err error => transition ← c_lift (runner_failure error); mret (transition, [])
  | Ok (TickReply_PassThrough output) => mret (Transition_Success CronSuccess_Ok, output)
  | Ok TickReply_NotApplicable => mret (Transition_Success CronSuccess_Ok, [])
  | Ok (TickReply_Refused m) =>
    mret (Transition_Failure (mkCronFailure FailureKind_Refused None m), [])
  | Ok (TickReply_Handled actions output) => dispatch_handled_actions schedule actions output
  | Panic => st_panic
  end.

(** [CronEngine::tick]. *)
Definition engine_tick (schedule : CronSchedule) (target : HookTarget) : C Execution :=
  let request := cron_request schedule target CRON_TICK in
  deadline ← cron_deadline schedule;
  reply ← attempt (port_call (fun _ => Effect_Run request deadline) (run_cron target request deadline));
  execution_for_reply schedule reply.

(** Commit the execution and return its outcome; an error is only logged. *)
Definition finish_execution (schedule : CronSchedule) (execution : Execution) : C CronRunOutcome :=
  _ ← attempt (engine_commit schedule execution.1 execution.2);
  mret (outcome_for execution.1).

(** [CronEngine::run_one]. *)
Definition engine_run_one (schedule : CronSchedule) : C CronRunOutcome :=
  started ← clock_now;
  let target := hook_target schedule in
  if stop_due (sched_stop schedule) started
  then
    reason ← c_lift (diagnostic "until reached");
    finish_execution schedule (Transition_Stopped reason, [])
  else
    match sched_stop schedule with
    | StopCondition_Until _ =>
      execution ← engine_tick schedule target;
      finish_execution schedule execution
    | StopCondition_Hook =>
      stop ← attempt (engine_stop schedule target);
      match stop with
      | Ok stop =>
        if stop_stop stop
        then
          reason ← c_lift (match stop_reason stop with Some r => Ok r | None => Panic end);
          finish_execution schedule (Transition_Stopped reason, stop_output stop)
        else
          applied ← attempt (engine_commit schedule Transition_StopCheckContinues (stop_output stop));
          if (match applied with Ok b => b | _ => false end)
          then
            execution ← engine_tick schedule target;
            finish_execution schedule execution
          else mret Run_SkippedInFlight
      | Err error =>
        transition ← c_lift (failure_transition FailureKind_StopCheckFailed (Some (code error)) "cron stop check failed");
        finish_execution schedule (transition, [])
      | Panic => st_panic
      end
    end.

(** ** [tick.rs] *)

(** [tick::record]. *)
Definition tick_record (schedule : CronSchedule) (o : CronRunOutcome) : C unit :=
  if typed_execution
  then
    transition ← c_lift (transition_for_record o);
    _ ← engine_record schedule transition;
    mret tt
  else
    at_ ← clock_now;
    _ ← attempt (store_call
          (match o with
           | Run_Stopped reason => record_stop (sched_id schedule) (sched_generation schedule) at_ reason
           | _ => record_run (sched_id schedule) (sched_generation schedule) at_ (run_outcome_as_str o)
           end));
    mret tt.

Definition reply_outcome (schedule : CronSchedule) (reply : HookReply) : C CronRunOutcome :=
  match reply with
  | HookReply_Refused m => mret (Run_Refused m)
  | HookReply_PassThrough | HookReply_NotApplicable => mret Run_Ok
  | HookReply_Handled actions =>
    result ← attempt (dispatch schedule actions);
    mret (match result with
          | Err error => Run_ActionErr (code error)
          | _ => Run_Actions (Z.of_nat (length actions))
          end)
  end.

Definition untyped_tick (schedule : CronSchedule) (target : HookTarget) : C CronRunOutcome :=
  deadline ← cron_deadline schedule;
  let request := cron_request schedule target CRON_TICK in
  reply ← attempt (port_call (fun _ => Effect_Run request deadline) (hook_run target request deadline));
  o ← match reply with
      | Err error => mret (runner_error error)
      | Ok reply => reply_outcome schedule reply
      | Panic => st_panic
      end;
  _ ← tick_record schedule o;
  mret o.

(** [tick::run_one]. *)
Definition run_one (schedule : CronSchedule) : C CronRunOutcome :=
  if typed_execution then engine_run_one schedule
  else
    started ← clock_now;
    let target := hook_target schedule in
    if stop_due (sched_stop schedule) started
    then _ ← tick_record schedule (Run_Stopped "until reached"); mret (Run_Stopped "until reached")
    else
      match sched_stop schedule with
      | StopCondition_Until _ => untyped_tick schedule target
      | StopCondition_Hook =>
        let request := cron_request schedule target CRON_STOP in
        deadline ← cron_deadline schedule;
        result ← attempt (port_call (fun _ => Effect_StopCheck request deadline) (hook_stop target request deadline));
        check ← c_lift (match result with
                | Ok reply => Ok (if stop_reply_stop reply then Run_Stopped (default "" (stop_reply_reason reply)) else Run_Ok)
                | Err error => Ok (Run_StopCheckFailed (code error))
                | Panic => Panic
                end);
        if bool_decide (check = Run_Ok)
        then untyped_tick schedule target
        else _ ← tick_record schedule check; mret check
      end.
End Engine.
