(* ===== verification/CronScheduler.v ===== *)
(** * The cron scheduler service

    Models the [CronScheduler] of [crates/atm-cron/src/scheduler.rs]: starting a
    schedule (expression, stop time, jitter, store), ending and listing, and the
    reload signal to the worker. *)

From S2P Require Import Prelude ErrorCodes Types Address TaskState CronTypes Database Transaction.
From S2P Require Import CronStore CronTransition CronTiming CronEngine.
From stdpp Require Import base gmap strings list numbers pretty.
Local Open Scope Z_scope.
Local Open Scope string_scope.
Local Open Scope list_scope.

Record CronStartSpec : Set := mkCronStartSpec {
  spec_team : TeamName;
  spec_phase : PhaseId;
  spec_name : CronName;
  spec_cron_expr : string;
  spec_module_path : string;
  spec_cwd : string;
  spec_args : list string;
  spec_timeout_ms : Z;
  spec_custom : list (string * Value);
  spec_stop : StopCondition;
  spec_created_by : AgentName
}.

Section Scheduler.
Context {rt : Runtime} {crt : CronRuntime} {ports : CronPorts} {ce : CronExpr} {js : JitterSource}.

(** [check_running]. *)
Definition check_running : C unit :=
  fun s => if cron_stopped s then (Err (daemon_unavailable "cron worker stopped"), s) else (Ok tt, s).

(** [start_lock.lock().await]. *)
Definition lock_start : C unit := fun s => (Ok tt, others s).

(** [AtmCron::bump]: [wrapping_add] on [u64]. *)
Definition bump : C unit :=
  fun s => (Ok tt, mkCronState (world s) (trace s) (cron_stopped s) ((cron_reload s + 1) mod 2 ^ 64)).

(** The jitters of the other active schedules with the same expression. *)
Definition held_jitters (spec : CronStartSpec) (rows : list CronSchedule) : list Z :=
  sched_jitter_s <$>
    filter (fun row => sched_cron_expr row = spec_cron_expr spec
              /\ ~ (sched_team row = spec_team spec /\ sched_phase row = spec_phase spec
                    /\ sched_name row = spec_name spec)) rows.

(** [jitter::assign], at the next reading of its source. *)
Definition draw_jitter (schedule : Schedule) (now : IsoTimestamp) (held : list Z) : C Z :=
  fun s => (jitter_assign schedule now held (ticks (world s)), set_world (tick (world s)) s).

Definition new_schedule (spec : CronStartSpec) (jitter_s : Z) (now : IsoTimestamp) : NewCronSchedule :=
  {| new_team := spec_team spec;
     new_phase := spec_phase spec;
     new_name := spec_name spec;
     new_cron_expr := spec_cron_expr spec;
     new_module_path := spec_module_path spec;
     new_cwd := spec_cwd spec;
     new_args := spec_args spec;
     new_timeout_ms := spec_timeout_ms spec;
     new_jitter_s := jitter_s;
     new_custom := spec_custom spec;
     new_stop := spec_stop spec;
     new_created_by := spec_created_by spec;
     new_created_at := now |}.

(** [AtmCron::start]. *)
Definition scheduler_start (spec : CronStartSpec) : C CronSchedule :=
  _ ← check_running;
  _ ← lock_start;
  _ ← check_running;
  now ← clock_now;
  parsed ← c_lift (expr_parse (spec_cron_expr spec) now);
  if stop_due (spec_stop spec) now
  then c_fail (cron_expr_invalid "until is not in the future")
  else
    rows ← store_call active_all;
    jitter_s ← draw_jitter parsed now (held_jitters spec rows);
    row ← store_call (cron_start (new_schedule spec jitter_s now));
    _ ← bump;
    mret row.

(** [AtmCron::end]. *)
Definition scheduler_end (team : TeamName) (phase : PhaseId) (name : option CronName)
    : C (list CronSchedule) :=
  _ ← check_running;
  now ← clock_now;
  rows ← store_call (cron_end team phase name now);
  _ ← bump;
  mret rows.

(** [AtmCron::list]. *)
Definition scheduler_list (team : option TeamName) (phase : option PhaseId) : C (list CronSchedule) :=
  _ ← check_running;
  store_call (cron_list team phase).
End Scheduler.
