(* ===== verification/HookReply.v ===== *)
(** * Replies of hook modules

    Models [crates/atm-core/src/hook/reply.rs]: what a module may print on its
    standard output.  The reader of JSON text is a parameter ([HookJson]): it
    yields the tree of the text in order, with repeated members kept and an
    error in the place where reading stops.  What the code makes of that tree
    (the strict reader, the objects of [serde_json], the replies) is modelled;
    so are the limits on a start request of [hook/routes.rs]. *)

From S2P Require Import Prelude ErrorCodes Types Address TaskState CronTypes Database CronStore.
From S2P Require Import CronTransition CronTiming CronEngine CronScheduler.
From stdpp Require Import base gmap strings list numbers pretty.
Local Open Scope Z_scope.
Local Open Scope string_scope.
Local Open Scope list_scope.

(** ** JSON text *)

(** The tree of a JSON text; [rest] and [Raw_Error] are where it ends early. *)
Inductive Raw : Set :=
| Raw_Null
| Raw_Bool (b : bool)
| Raw_Number (n : Number)
| Raw_String (s : string)
| Raw_Array (items : list Raw) (rest : option string)
| Raw_Object (members : list (string * Raw)) (rest : option string)
| Raw_Error (error : string).

(** [serde_json] and the readers that [serde] derives, with their texts. *)
Class HookJson : Type := mkHookJson {
  read_json : string -> Raw;                  (* Deserializer::from_slice *)
  end_error : string -> option string;        (* Deserializer::end *)
  custom_text : string -> string -> string;   (* serde::de::Error::custom, at its position *)
  actions_text : Value -> string;             (* a value that is no Vec<HookAction> *)
  stop_text : Value -> string                 (* a value that is no StopReply *)
}.

(** [Map::insert]: members are kept in the order of their keys. *)
Fixpoint object_insert (key : string) (value : Value) (members : list (string * Value))
    : list (string * Value) :=
  match members with
  | [] => [(key, value)]
  | (k, v) :: rest =>
    match String.compare key k with
    | Lt => (key, value) :: members
    | Eq => (key, value) :: rest
    | Gt => (k, v) :: object_insert key value rest
    end
  end.

Definition contains_key (key : string) (members : list (string * Value)) : bool :=
  bool_decide (is_Some (object_get key members)).

Definition value_as_str (v : Value) : option string :=
  match v with Value_String s => Some s | _ => None end.
Definition value_as_bool (v : Value) : option bool :=
  match v with Value_Bool b => Some b | _ => None end.

Section Values.
Context (custom : string -> string).

(** The end of an array or object. *)
Definition raw_end (rest : option string) (value : Value) : Outcome string Value :=
  match rest with Some error => Err error | None => Ok value end.

(** [StrictVisitor]: a member that is repeated is an error. *)
Fixpoint strict_value (raw : Raw) : Outcome string Value :=
  match raw with
  | Raw_Null => Ok Value_Null
  | Raw_Bool b => Ok (Value_Bool b)
  | Raw_Number n => Ok (Value_Number n)
  | Raw_String s => Ok (Value_String s)
  | Raw_Array items rest =>
    values ← collect (map strict_value items);
    raw_end rest (Value_Array values)
  | Raw_Object members rest =>
    (fix visit_map (members : list (string * Raw)) (values : list (string * Value)) :=
       match members with
       | [] => raw_end rest (Value_Object values)
       | (key, value) :: members' =>
         if contains_key key values
         then Err (custom ("duplicate object key `" +:+ key +:+ "`"))
         else value ← strict_value value; visit_map members' (object_insert key value values)
       end) members []
  | Raw_Error error => Err error
  end.

(** [Value::deserialize]: the last of repeated members counts. *)
Fixpoint loose_value (raw : Raw) : Outcome string Value :=
  match raw with
  | Raw_Null => Ok Value_Null
  | Raw_Bool b => Ok (Value_Bool b)
  | Raw_Number n => Ok (Value_Number n)
  | Raw_String s => Ok (Value_String s)
  | Raw_Array items rest =>
    values ← collect (map loose_value items);
    raw_end rest (Value_Array values)
  | Raw_Object members rest =>
    (fix visit_map (members : list (string * Raw)) (values : list (string * Value)) :=
       match members with
       | [] => raw_end rest (Value_Object values)
       | (key, value) :: members' =>
         value ← loose_value value; visit_map members' (object_insert key value values)
       end) members []
  | Raw_Error error => Err error
  end.
End Values.

(** ** Actions *)

Definition HookActionCommand_as_str (c : HookActionCommand) : string :=
  match c with
  | HookAction_Send => "send"
  | HookAction_Ack => "ack"
  | HookAction_TaskAssign => "task.assign"
  | HookAction_TaskStart => "task.start"
  | HookAction_TaskClose => "task.close"
  | HookAction_TaskMove => "task.move"
  | HookAction_TaskList => "task.list"
  | HookAction_TaskEvents => "task.events"
  | HookAction_TaskHistory => "task.history"
  | HookAction_Read => "read"
  | HookAction_Peek => "peek"
  | HookAction_Clear => "clear"
  | HookAction_Search => "search"
  | HookAction_Doctor => "doctor"
  end.

Definition HookActionCommand_ALL : list HookActionCommand :=
  [HookAction_Send; HookAction_Ack; HookAction_TaskAssign; HookAction_TaskStart; HookAction_TaskClose;
   HookAction_TaskMove; HookAction_TaskList; HookAction_TaskEvents; HookAction_TaskHistory;
   HookAction_Read; HookAction_Peek; HookAction_Clear; HookAction_Search; HookAction_Doctor].

(** [HookActionCommand::try_from]. *)
Definition hook_action_command_try_from (value : string) : Outcome AtmError HookActionCommand :=
  match find (fun command => String.eqb (HookActionCommand_as_str command) value) HookActionCommand_ALL with
  | Some command => Ok command
  | None => Err (hook_malformed ("command " +:+ value +:+ " is not an allowed hook action"))
  end.

(** The derived readers of a field: [None] is an error of [serde]. *)
Definition read_command (v : Value) : option HookActionCommand :=
  match v with
  | Value_String s => match hook_action_command_try_from s with Ok c => Some c | _ => None end
  | _ => None
  end.

Definition read_run_as (v : Value) : option (option AgentName) :=
  match v with
  | Value_Null => Some None
  | Value_String s => match agent_name_from_str s with Ok a => Some (Some a) | _ => None end
  | _ => None
  end.

(** The derived reader of [HookAction], with [deny_unknown_fields]; a struct may
    also be given as the array of its fields. *)
Definition read_action (v : Value) : option HookAction :=
  match v with
  | Value_Object members =>
    if forallb (fun member => bool_decide (member.1 ∈ ["command"; "as"; "request"])) members
    then
      command ← object_get "command" members ≫= read_command;
      run_as ← match object_get "as" members with Some v => read_run_as v | None => Some None end;
      request ← object_get "request" members;
      Some (mkHookAction command run_as request)
    else None
  | Value_Array [command; run_as; request] =>
    command ← read_command command;
    run_as ← read_run_as run_as;
    Some (mkHookAction command run_as request)
  | _ => None
  end.

Definition read_actions (v : Value) : option (list HookAction) :=
  match v with Value_Array items => mapM read_action items | _ => None end.

Definition HOOK_ACTIONS_MAX : Z := 32.

(** The test on the number of actions. *)
Definition actions_in_range (actions : list HookAction) : bool :=
  bool_decide (1 <= Z.of_nat (length actions) <= HOOK_ACTIONS_MAX).

(** ** Cron replies *)

Definition required_string (object : list (string * Value)) (key : string) : Outcome AtmError string :=
  match object_get key object ≫= value_as_str with
  | Some value => if String.eqb value "" then Err (hook_malformed ("cron reply requires non-empty " +:+ key)) else Ok value
  | None => Err (hook_malformed ("cron reply requires non-empty " +:+ key))
  end.

Definition keys_are (object : list (string * Value)) (allowed : list string) : bool :=
  forallb (fun member => bool_decide (member.1 ∈ allowed)) object.

(** The closure of [parse_cron_output]. *)
Definition parse_output_item (item : Value) : Outcome AtmError CronModuleOutput :=
  match item with
  | Value_Object item =>
    if negb (Nat.eqb (length item) 2) || negb (contains_key "kind" item) || negb (contains_key "body" item)
    then Err (hook_malformed "cron-output entries require exactly kind and body")
    else
      match object_get "body" item ≫= value_as_str with
      | None => Err (hook_malformed "cron-output body must be a string")
      | Some body =>
        body ← cron_output_body_parse body;
        let kind := default "" (object_get "kind" item ≫= value_as_str) in
        if String.eqb kind "message" then Ok (CronModuleOutput_Message body)
        else if String.eqb kind "error" then Ok (CronModuleOutput_Error body)
        else Err (hook_malformed "cron-output kind must be message or error")
      end
  | _ => Err (hook_malformed "cron-output entries must be objects")
  end.

Definition parse_cron_output (value : option Value) : Outcome AtmError (list CronModuleOutput) :=
  match value with
  | None => Ok []
  | Some (Value_Array values) =>
    if (CRON_OUTPUT_MAX_ITEMS <? Z.of_nat (length values))%Z
    then Err (hook_malformed ("cron-output must contain at most " +:+ pretty CRON_OUTPUT_MAX_ITEMS +:+ " entries"))
    else collect (parse_output_item <$> values)
  | Some _ => Err (hook_malformed "cron-output must be an array")
  end.

Section Replies.
Context {hj : HookJson}.

Definition strict_object (stdout context : string) : Outcome AtmError (list (string * Value)) :=
  match strict_value (custom_text stdout) (read_json stdout) with
  | Err error => Err (hook_malformed (context +:+ " JSON: " +:+ error))
  | Panic => Panic
  | Ok value =>
    match end_error stdout with
    | Some error => Err (hook_malformed (context +:+ " must contain one JSON object: " +:+ error))
    | None =>
      match value with
      | Value_Object object => Ok object
      | _ => Err (hook_malformed (context +:+ " must be one JSON object"))
      end
    end
  end.

Definition tick_reply_mismatch : AtmError :=
  hook_malformed "cron tick reply keys and result must match pass-through, handled, not-applicable or refused exactly".

Definition parse_handled (object : list (string * Value)) (output : list CronModuleOutput)
    : Outcome AtmError CronTickReply :=
  match object_get "atm-action" object with
  | None => Err (hook_malformed "handled cron reply requires atm-action")
  | Some value =>
    match read_actions value with
    | None => Err (hook_malformed ("cron atm-action: " +:+ actions_text value))
    | Some actions =>
      if actions_in_range actions then Ok (TickReply_Handled actions output)
      else Err (hook_malformed ("cron atm-action must contain 1..=" +:+ pretty HOOK_ACTIONS_MAX +:+ " actions"))
    end
  end.

Definition parse_cron_tick_reply (stdout : string) : Outcome AtmError CronTickReply :=
  object ← strict_object stdout "cron tick reply";
  result ← required_string object "result";
  output ← parse_cron_output (object_get "cron-output" object);
  if String.eqb result "pass-through" && keys_are object ["result"; "cron-output"]
  then Ok (TickReply_PassThrough output)
  else if String.eqb result "handled" && keys_are object ["result"; "atm-action"; "cron-output"]
  then parse_handled object output
  else if String.eqb result "not-applicable" && Nat.eqb (length object) 1
  then Ok TickReply_NotApplicable
  else if String.eqb result "refused" && keys_are object ["result"; "message"]
  then
    text ← required_string object "message";
    text ← cron_diagnostic_parse text;
    Ok (TickReply_Refused text)
  else Err tick_reply_mismatch.

(** The [reason] of a stop reply. *)
Definition parse_stop_reason (object : list (string * Value)) : Outcome AtmError (option CronDiagnosticDetail) :=
  match object_get "reason" object with
  | None => Ok None
  | Some value =>
    match value_as_str value with
    | None => Err (hook_malformed "cron stop reason must be a string")
    | Some text => d ← cron_diagnostic_parse text; Ok (Some d)
    end
  end.

Definition parse_cron_stop_reply (stdout : string) : Outcome AtmError CronStopReply :=
  object ← strict_object stdout "cron stop reply";
  match object_get "stop" object ≫= value_as_bool with
  | None => Err (hook_malformed "cron stop reply requires boolean stop")
  | Some stop =>
    reason ← parse_stop_reason object;
    if negb (keys_are object ["stop"; "reason"; "cron-output"])
    then Err (hook_malformed "cron stop reply permits only stop, reason and cron-output")
    else
      output ← parse_cron_output (object_get "cron-output" object);
      cron_stop_reply_new stop reason output
  end.

(** ** Replies of task hooks *)

(** [serde_json::from_slice]. *)
Definition from_slice (stdout : string) : Outcome string Value :=
  value ← loose_value (read_json stdout);
  match end_error stdout with Some error => Err error | None => Ok value end.

Definition hook_reply_mismatch : AtmError :=
  hook_malformed "reply keys and result must match handled, pass-through, not-applicable or refused exactly".

(** [HookReply::parse]. *)
Definition hook_reply_parse (stdout : string) : Outcome AtmError HookReply :=
  match from_slice stdout with
  | Err error => Err (hook_malformed ("reply JSON: " +:+ error))
  | Panic => Panic
  | Ok (Value_Object object) =>
    match object_get "result" object ≫= value_as_str with
    | None => Err hook_reply_mismatch
    | Some result =>
      if String.eqb result "handled" && Nat.eqb (length object) 2 && contains_key "atm-action" object
      then
        match object_get "atm-action" object with
        | None => Panic
        | Some value =>
          match read_actions value with
          | None => Err (hook_malformed ("atm-action: " +:+ actions_text value))
          | Some actions =>
            if actions_in_range actions then Ok (HookReply_Handled actions)
            else Err (hook_malformed ("atm-action must contain 1..=" +:+ pretty HOOK_ACTIONS_MAX +:+ " actions"))
          end
        end
      else if String.eqb result "pass-through" && Nat.eqb (length object) 1 then Ok HookReply_PassThrough
      else if String.eqb result "not-applicable" && Nat.eqb (length object) 1 then Ok HookReply_NotApplicable
      else if String.eqb result "refused" && Nat.eqb (length object) 2
      then
        match object_get "message" object ≫= value_as_str with
        | Some m =>
          if String.eqb m "" then Err (hook_malformed "refused reply requires a non-empty message")
          else Ok (HookReply_Refused m)
        | None => Err (hook_malformed "refused reply requires a non-empty message")
        end
      else Err hook_reply_mismatch
    end
  | Ok _ => Err (hook_malformed "reply must be one JSON object with a result")
  end.

Definition read_reason (v : Value) : option (option string) :=
  match v with
  | Value_Null => Some None
  | Value_String s => Some (Some s)
  | _ => None
  end.

(** The derived reader of [StopReply], an object or the array of the fields. *)
Definition read_stop_reply (v : Value) : option StopReply :=
  match v with
  | Value_Object members =>
    if forallb (fun member => bool_decide (member.1 ∈ ["stop"; "reason"])) members
    then
      stop ← object_get "stop" members ≫= value_as_bool;
      reason ← match object_get "reason" members with Some v => read_reason v | None => Some None end;
      Some (mkStopReply stop reason)
    else None
  | Value_Array [stop] => stop ← value_as_bool stop; Some (mkStopReply stop None)
  | Value_Array [stop; reason] =>
    stop ← value_as_bool stop; reason ← read_reason reason; Some (mkStopReply stop reason)
  | _ => None
  end.

(** [StopReply::parse]. *)
Definition stop_reply_parse (stdout : string) : Outcome AtmError StopReply :=
  match from_slice stdout with
  | Err error => Err (hook_malformed ("stop reply JSON: " +:+ error))
  | Panic => Panic
  | Ok value =>
    match read_stop_reply value with
    | None => Err (hook_malformed ("stop reply: " +:+ stop_text value))
    | Some reply =>
      let reasoned := match stop_reply_reason reply with Some r => negb (String.eqb r "") | None => false end in
      let alone := match value with Value_Object object => Nat.eqb (length object) 1 | _ => false end in
      if (stop_reply_stop reply && reasoned) || (negb (stop_reply_stop reply) && alone)
      then Ok reply
      else Err (hook_malformed "stop reply must be exactly {stop:true,reason:<non-empty string>} or {stop:false}")
    end
  end.
End Replies.

(** ** Start requests *)

Definition HOOK_CUSTOM_MAX_BYTES : Z := 65536.
Definition HOOK_PATH_MAX_BYTES : Z := 4096.
Definition CRON_ARGS_MAX : Z := 32.
Definition CRON_ARGS_MAX_BYTES : Z := 4096.

Record CronStartRequest : Set := mkCronStartRequest {
  start_caller_identity : AgentName;
  start_caller_team : TeamName;
  start_phase : PhaseId;
  start_name : string;
  start_cron_expr : string;
  start_module_path : string;
  start_cwd : string;
  start_args : list string;
  start_timeout_ms : Z;
  start_stop : StopCondition;
  start_custom : Value
}.

Section Start.
Context {rt : Runtime} {crt : CronRuntime}.

Definition custom_object (value : Value) : Outcome AtmError (list (string * Value)) :=
  let text := "custom must be an object of at most " +:+ pretty HOOK_CUSTOM_MAX_BYTES +:+ " serialized bytes" in
  match value with
  | Value_Object object =>
    if (HOOK_CUSTOM_MAX_BYTES <? str_len (object_to_string object))%Z then Err (hook_module_invalid text) else Ok object
  | _ => Err (hook_module_invalid text)
  end.

Definition custom_or_empty (custom : Value) : Value :=
  if value_is_null custom then Value_Object [] else custom.

Definition path_limit (path field : string) : Outcome AtmError unit :=
  if (HOOK_PATH_MAX_BYTES <? str_len path)%Z
  then Err (hook_module_invalid (field +:+ " must be at most " +:+ pretty HOOK_PATH_MAX_BYTES +:+ " bytes"))
  else Ok tt.

Definition args_bytes (args : list string) : Z := foldr (fun a n => str_len a + n) 0 args.

(** [CronStartRequest::into_spec]. *)
Definition into_spec (r : CronStartRequest) : Outcome AtmError CronStartSpec :=
  custom ← custom_object (custom_or_empty (start_custom r));
  _ ← path_limit (start_module_path r) "module_path";
  _ ← path_limit (start_cwd r) "cwd";
  name ← cron_name_parse (start_name r);
  if (CRON_ARGS_MAX <? Z.of_nat (length (start_args r)))%Z
  then Err (hook_module_invalid ("args must contain at most " +:+ pretty CRON_ARGS_MAX +:+ " items"))
  else if (CRON_ARGS_MAX_BYTES <? args_bytes (start_args r))%Z
  then Err (hook_module_invalid ("args must contain at most " +:+ pretty CRON_ARGS_MAX_BYTES +:+ " total bytes"))
  else
    Ok {| spec_team := start_caller_team r;
          spec_phase := start_phase r;
          spec_name := name;
          spec_cron_expr := start_cron_expr r;
          spec_module_path := start_module_path r;
          spec_cwd := start_cwd r;
          spec_args := start_args r;
          spec_timeout_ms := start_timeout_ms r;
          spec_custom := custom;
          spec_stop := start_stop r;
          spec_created_by := start_caller_identity r |}.
End Start.
