(* ===== verification/CronWorker.v ===== *)
(** * The cron worker

    Models [crates/atm-cron/src/worker.rs]: the slots of the active schedules,
    the plan of what is due, the merge of a reload, the end of a run and one
    round of the loop.  A spawned run is a number in [worker_running]: it is
    added when the task is spawned and removed when the task ends or is aborted;
    what the run itself does to the database happens among the steps of other
    tasks. *)

From S2P Require Import Prelude ErrorCodes Types Address TaskState CronTypes Database Transaction.
From S2P Require Import CronStore CronTransition CronTiming CronEngine.
From stdpp Require Import base gmap strings list numbers pretty.
Local Open Scope Z_scope.
Local Open Scope string_scope.
Local Open Scope list_scope.

(** ** Planning *)

Record Slot : Set := mkSlot {
  slot_schedule : CronSchedule;
  slot_next : option IsoTimestamp;
  slot_in_flight : option nat
}.

Definition slot_id (slot : Slot) : CronScheduleId := sched_id (slot_schedule slot).

Record SlotView : Set := mkSlotView {
  view_schedule : CronSchedule;
  view_next : option IsoTimestamp;
  view_in_flight : bool
}.

Record Step : Set := mkStep {
  step_run : list CronScheduleId;
  step_skip_in_flight : list CronScheduleId;
  step_stop_until : list CronScheduleId;
  step_invalid_next : list CronScheduleId;
  step_wake : option IsoTimestamp
}.

Definition empty_step : Step := mkStep [] [] [] [] None.

(** [old.min(wake)] where both are present. *)
Definition earliest (a b : option IsoTimestamp) : option IsoTimestamp :=
  match a, b with
  | Some a, Some b => Some (Z.min a b)
  | Some a, None => Some a
  | None, b => b
  end.

Section Plan.
Context {ce : CronExpr}.

Definition is_due (next : option IsoTimestamp) (now : IsoTimestamp) : bool :=
  match next with Some next => bool_decide (next <= now) | None => false end.

(** The next occurrence a slot waits for once this step is applied, and whether
    it cannot be computed. *)
Definition planned_next (slot : SlotView) (now : IsoTimestamp) : Outcome AtmError (option IsoTimestamp * bool) :=
  if is_due (view_next slot) now
  then
    match next_time (view_schedule slot) now with
    | Ok next => Ok (next, false)
    | Err _ => Ok (None, true)
    | Panic => Panic
    end
  else Ok (view_next slot, false).

(** When a slot needs attention. *)
Definition slot_wake (stop : StopCondition) (next : option IsoTimestamp) : option IsoTimestamp :=
  match stop with
  | StopCondition_Until at_ => earliest (Some at_) next
  | StopCondition_Hook => next
  end.

(** The body of the loop of [plan_step]. *)
Definition plan_slot (step : Step) (slot : SlotView) (now : IsoTimestamp) : Outcome AtmError Step :=
  let id := sched_id (view_schedule slot) in
  if stop_due (sched_stop (view_schedule slot)) now
  then Ok (mkStep (step_run step) (step_skip_in_flight step) (step_stop_until step ++ [id])
             (step_invalid_next step) (step_wake step))
  else
    let due := is_due (view_next slot) now in
    '(next, invalid) ← planned_next slot now;
    Ok (mkStep
          (step_run step ++ (if due && negb (view_in_flight slot) then [id] else []))
          (step_skip_in_flight step ++ (if due && view_in_flight slot then [id] else []))
          (step_stop_until step)
          (step_invalid_next step ++ (if (invalid : bool) then [id] else []))
          (earliest (step_wake step) (slot_wake (sched_stop (view_schedule slot)) next))).

Definition plan_step (slots : list SlotView) (now : IsoTimestamp) : Outcome AtmError Step :=
  foldl (fun step slot => step ≫= fun step => plan_slot step slot now) (Ok empty_step) slots.

Definition slot_view (slot : Slot) : SlotView :=
  mkSlotView (slot_schedule slot) (slot_next slot) (bool_decide (is_Some (slot_in_flight slot))).

Definition step_for (slots : list Slot) (now : IsoTimestamp) : Outcome AtmError Step :=
  plan_step (slot_view <$> slots) now.
End Plan.

#[export] Instance Number_eq_dec : EqDecision Number.
Proof. solve_decision. Defined.

(** JSON values are compared member by member, floats by their text. *)
#[export] Instance Value_eq_dec : EqDecision Value.
Proof.
  unfold EqDecision, RelDecision. fix go 1. intros a b.
  destruct a as [|x|n|s|l|m], b as [|x'|n'|s'|l'|m']; try (right; discriminate).
  - left; reflexivity.
  - destruct (decide (x = x')); [left|right]; congruence.
  - destruct (decide (n = n')); [left|right]; congruence.
  - destruct (decide (s = s')); [left|right]; congruence.
  - assert (D : Decision (l = l')).
    { revert l'. induction l as [|v l IH]; intros [|v' l']; [left; reflexivity|right; discriminate..|].
      destruct (go v v') as [E|E]; [|right; congruence]. destruct (IH l'); [left|right]; congruence. }
    destruct D; [left|right]; congruence.
  - assert (D : Decision (m = m')).
    { revert m'. induction m as [|[k v] m IH]; intros [|[k' v'] m']; [left; reflexivity|right; discriminate..|].
      destruct (decide (k = k')) as [K|K]; [|right; congruence].
      destruct (go v v') as [E|E]; [|right; congruence]. destruct (IH m'); [left|right]; congruence. }
    destruct D; [left|right]; congruence.
Defined.

(** [worker::unchanged]. *)
Definition unchanged (left right : CronSchedule) : Prop :=
  sched_id left = sched_id right /\ sched_generation left = sched_generation right
  /\ sched_created_at left = sched_created_at right /\ sched_cron_expr left = sched_cron_expr right
  /\ sched_jitter_s left = sched_jitter_s right /\ sched_stop left = sched_stop right
  /\ sched_module_path left = sched_module_path right /\ sched_cwd left = sched_cwd right
  /\ sched_args left = sched_args right /\ sched_timeout_ms left = sched_timeout_ms right
  /\ sched_custom left = sched_custom right.

#[export] Instance unchanged_dec left right : Decision (unchanged left right).
Proof. unfold unchanged. apply _. Defined.

(** ** The worker *)

Record Worker : Type := mkWorker {
  worker_slots : list Slot;
  worker_retry : ReloadRetry;
  worker_running : list nat;
  worker_spawned : nat;
  worker_cron : CronState
}.

Definition W (A : Type) : Type := ST Worker AtmError A.

#[export] Instance W_ret : MRet W := st_ret Worker AtmError.
#[export] Instance W_bind : MBind W := st_mbind Worker AtmError.

Definition set_slots (slots : list Slot) (k : Worker) : Worker :=
  mkWorker slots (worker_retry k) (worker_running k) (worker_spawned k) (worker_cron k).
Definition set_retry (retry : ReloadRetry) (k : Worker) : Worker :=
  mkWorker (worker_slots k) retry (worker_running k) (worker_spawned k) (worker_cron k).
Definition set_running (running : list nat) (k : Worker) : Worker :=
  mkWorker (worker_slots k) (worker_retry k) running (worker_spawned k) (worker_cron k).
Definition set_cron_state (s : CronState) (k : Worker) : Worker :=
  mkWorker (worker_slots k) (worker_retry k) (worker_running k) (worker_spawned k) s.

Definition get_slots : W (list Slot) := fun k => (Ok (worker_slots k), k).
Definition put_slots (slots : list Slot) : W unit := fun k => (Ok tt, set_slots slots k).
Definition w_lift {A} (o : Outcome AtmError A) : W A := st_lift o.

(** A computation on the scheduler's state. *)
Definition on_cron {A} (c : C A) : W A :=
  fun k => let '(o, s) := c (worker_cron k) in (o, set_cron_state s k).

(** The end of a task: its [Running] guard is dropped. *)
Definition end_run (run : nat) : W unit :=
  fun k => (Ok tt, set_running (filter (fun r => r <> run) (worker_running k)) k).

(** [handle.abort()], also when a slot is dropped. *)
Definition abort_run (handle : option nat) : W unit :=
  match handle with Some run => end_run run | None => mret tt end.

(** [tokio::spawn] of a tracked run. *)
Definition spawn_run : W nat :=
  fun k => (Ok (worker_spawned k),
            mkWorker (worker_slots k) (worker_retry k) (worker_running k ++ [worker_spawned k])
              (S (worker_spawned k)) (worker_cron k)).

Section Worker.
Context {rt : Runtime} {crt : CronRuntime} {ports : CronPorts} {ce : CronExpr}.

Definition worker_now : W IsoTimestamp := on_cron clock_now.

Definition stop_exhausted (schedule : CronSchedule) : W unit :=
  on_cron (tick_record schedule (Run_Stopped "no future occurrence")).

(** *** Reloading *)

(** The loop of [merge] over the active rows: the slots so far and what is left
    of the previous ones. *)
Fixpoint merge_rows (rows : list CronSchedule) (previous slots : list Slot) : W (list Slot * list Slot) :=
  match rows with
  | [] => mret (slots, previous)
  | schedule :: rest =>
    match list_find (fun slot => unchanged (slot_schedule slot) schedule) previous with
    | Some (index, slot) => merge_rows rest (delete index previous) (slots ++ [slot])
    | None =>
      now ← worker_now;
      next ← w_lift (match next_time schedule now with Err _ => Ok (inl tt) | Ok next => Ok (inr next) | Panic => Panic end);
      match next with
      | inr (Some next) => merge_rows rest previous (slots ++ [mkSlot schedule (Some next) None])
      | inr None => _ ← stop_exhausted schedule; merge_rows rest previous slots
      | inl tt => merge_rows rest previous slots
      end
    end
  end.

Definition worker_merge (rows : list CronSchedule) : W unit :=
  previous ← get_slots;
  '(slots, removed) ← merge_rows (filter (fun row => sched_active row = true) rows) previous [];
  _ ← put_slots slots;
  st_iter (fun slot => abort_run (slot_in_flight slot)) removed.

Definition put_retry (retry : ReloadRetry) : W unit := fun k => (Ok tt, set_retry retry k).

Definition reload_slots : W unit :=
  rows ← on_cron (attempt (store_call active_all));
  match rows with
  | Ok rows => _ ← worker_merge rows; put_retry no_retry
  | _ =>
    now ← worker_now;
    retry ← (fun k => (retry_failed (worker_retry k) now, k));
    put_retry retry
  end.

(** *** The end of a run *)

(** [Result<CronRunOutcome, JoinError>]; a panic with its text, if it has one. *)
Inductive JoinResult : Set :=
| Joined (o : CronRunOutcome)
| JoinPanicked (message : option string)
| JoinCancelled.

(** Whether the schedule has stopped. *)
Definition complete (schedule : CronSchedule) (result : JoinResult) : W bool :=
  match result with
  | Joined (Run_Stopped _) => mret true
  | Joined _ => mret false
  | JoinPanicked m =>
    let m := default "non-string panic" m in
    _ ← on_cron (tick_record schedule (Run_Exit ("hook runner panicked: " +:+ m)));
    mret false
  | JoinCancelled => mret false
  end.

Definition with_next (next : option IsoTimestamp) (slot : Slot) : Slot :=
  mkSlot (slot_schedule slot) next (slot_in_flight slot).
Definition with_in_flight (handle : option nat) (slot : Slot) : Slot :=
  mkSlot (slot_schedule slot) (slot_next slot) handle.

(** [slots.remove(index)]. *)
Definition remove_slot (index : nat) : W unit :=
  slots ← get_slots; put_slots (delete index slots).

Definition finish_run (index : nat) (result : JoinResult) : W unit :=
  slots ← get_slots;
  slot ← w_lift (match slots !! index with Some slot => Ok slot | None => Panic end);
  _ ← abort_run (slot_in_flight slot);
  _ ← put_slots (alter (with_in_flight None) index slots);
  stopped ← complete (slot_schedule slot) result;
  if (stopped : bool) then remove_slot index
  else
    now ← worker_now;
    match next_time (slot_schedule slot) now with
    | Ok (Some next) => slots ← get_slots; put_slots (alter (with_next (Some next)) index slots)
    | Ok None => _ ← remove_slot index; stop_exhausted (slot_schedule slot)
    | Err _ => remove_slot index
    | Panic => st_panic
    end.

(** *** Applying a step *)

(** Slots whose next occurrence cannot be computed are dropped. *)
Definition drop_invalid (invalid : list CronScheduleId) : W unit :=
  slots ← get_slots;
  _ ← put_slots (filter (fun slot => slot_id slot ∉ invalid) slots);
  st_iter (fun slot => abort_run (slot_in_flight slot)) (filter (fun slot => slot_id slot ∈ invalid) slots).

(** One schedule whose stop time is reached. *)
Definition stop_at_until (id : CronScheduleId) : W unit :=
  slots ← get_slots;
  match list_find (fun slot => slot_id slot = id) slots with
  | None => mret tt
  | Some (index, slot) =>
    _ ← put_slots (delete index slots);
    _ ← abort_run (slot_in_flight slot);
    on_cron (tick_record (slot_schedule slot) (Run_Stopped "until reached"))
  end.

(** The new version of one slot, and whether it is exhausted. *)
Definition apply_slot (step : Step) (now : IsoTimestamp) (slot : Slot) : W (Slot * bool) :=
  if bool_decide (slot_id slot ∈ step_skip_in_flight step)
  then
    match next_time (slot_schedule slot) now with
    | Ok (Some next) => mret (with_next (Some next) slot, false)
    | Ok None => mret (slot, true)
    | Err _ => mret (slot, false)
    | Panic => st_panic
    end
  else if bool_decide (slot_id slot ∈ step_run step)
  then
    run ← spawn_run;
    let slot := with_in_flight (Some run) slot in
    match next_time (slot_schedule slot) now with
    | Ok next => mret (with_next next slot, false)
    | Err _ => mret (slot, false)
    | Panic => st_panic
    end
  else mret (slot, false).

(** The slots with their marks of exhaustion. *)
Fixpoint apply_slots (step : Step) (now : IsoTimestamp) (slots : list Slot) : W (list (Slot * bool)) :=
  match slots with
  | [] => mret []
  | slot :: rest =>
    applied ← apply_slot step now slot;
    rest ← apply_slots step now rest;
    mret (applied :: rest)
  end.

(** Exhausted slots leave, the last first. *)
Definition stop_and_drop (slot : Slot) : W unit :=
  _ ← stop_exhausted (slot_schedule slot);
  abort_run (slot_in_flight slot).

Definition apply_step : W unit :=
  now ← worker_now;
  slots ← get_slots;
  step ← w_lift (step_for slots now);
  _ ← drop_invalid (step_invalid_next step);
  _ ← st_iter stop_at_until (step_stop_until step);
  slots ← get_slots;
  applied ← apply_slots step now slots;
  _ ← put_slots (fst <$> filter (fun p => p.2 = false) applied);
  st_iter stop_and_drop (reverse (fst <$> filter (fun p => p.2 = true) applied)).

(** *** The loop *)

Inductive WorkerEvent : Set :=
| Event_Reload
| Event_ReloadClosed
| Event_Wake
| Event_Finished (index : nat) (result : JoinResult)
| Event_Shutdown.

Definition has_work (step : Step) : bool :=
  negb (bool_decide (step_run step = []) && bool_decide (step_stop_until step = [])
        && bool_decide (step_skip_in_flight step = [])).

(** The time a round of the loop sleeps until. *)
Definition loop_wake (k : Worker) (now : IsoTimestamp) : Outcome AtmError IsoTimestamp :=
  step ← step_for (worker_slots k) now;
  let wake := if has_work step then now else default datetime_max (step_wake step) in
  Ok (match retry_due (worker_retry k) with Some retry => Z.min wake retry | None => wake end).

(** One round, by the event that ends its wait: whether the loop goes on. *)
Definition worker_round (event : WorkerEvent) : W bool :=
  match event with
  | Event_Reload => _ ← reload_slots; mret true
  | Event_ReloadClosed | Event_Shutdown => mret false
  | Event_Wake =>
    now ← worker_now;
    due ← (fun k => (Ok (retry_is_due (worker_retry k) now), k));
    _ ← (if (due : bool) then reload_slots else mret tt);
    _ ← apply_step;
    mret true
  | Event_Finished index result => _ ← finish_run index result; mret true
  end.

(** [drain_runs]: the results of the runs still in flight, in order. *)
Fixpoint drain_runs (slots : list Slot) (results : list JoinResult) : W unit :=
  match slots, results with
  | slot :: rest, result :: results' =>
    match slot_in_flight slot with
    | Some run => _ ← end_run run; _ ← complete (slot_schedule slot) result; drain_runs rest results'
    | None => drain_runs rest results
    end
  | _, _ => mret tt
  end.

(** The worker before its loop: the first rows are merged into no slots. *)
Definition worker_start (rows : list CronSchedule) (s : CronState) : Outcome AtmError unit * Worker :=
  worker_merge rows (mkWorker [] no_retry [] 0 s).
End Worker.
