(* ===== verification/MemberMutation.v ===== *)
(** * Adding, updating and removing members

    Models the local backends of [crates/atm-core/src/delivery_channel.rs] and the
    member mutations of [crates/atm-core/src/team_admin/member_mutation.rs], over
    the write-through roster: the parsers of a request, the metadata a mutation
    writes, the checks before it, and the replacement of the team's roster.

    [HomeFs] is the file system that holds the inbox files. *)

From S2P Require Import Prelude ErrorCodes Types Address TaskState Database Transaction.
From S2P Require Import Selection Roster RosterMirror HookReply.
From stdpp Require Import base gmap strings list numbers.
From Stdlib Require Import Ascii.
Local Open Scope Z_scope.
Local Open Scope string_scope.
Local Open Scope list_scope.

(** ** Local backends *)

Abbreviation HerdrSession := string (only parsing).
Abbreviation HerdrAgentName := string (only parsing).
Abbreviation PaneId := string (only parsing).

(** [char::is_control] or [char::is_whitespace] at the start of a text. *)
Definition control_or_space (l : list ascii) : bool :=
  match l with
  | [] => false
  | c :: rest =>
    let n := nat_of_ascii c in
    Nat.ltb n 32 || Nat.eqb n 127
    || (Nat.eqb n 194
        && match rest with
           | c' :: _ => byte_between 128 159 (nat_of_ascii c')
           | [] => false
           end)
    || bool_decide (is_Some (strip_one white_space l))
  end.

Fixpoint any_control_or_space (l : list ascii) : bool :=
  match l with
  | [] => false
  | _ :: rest => control_or_space l || any_control_or_space rest
  end.

(** [HerdrSession::new]. *)
Definition herdr_session_new (value : string) : Outcome AtmError HerdrSession :=
  if String.eqb (trim value) "" then Err (validation "herdr session identifier must not be blank")
  else if any_control_or_space (String.list_ascii_of_string value)
  then Err (validation
              "herdr session identifier must not contain whitespace or control characters")
  else Ok value.

Definition ascii_lowercase (c : ascii) : bool := byte_between 97 122 (nat_of_ascii c).
Definition ascii_digit (c : ascii) : bool := byte_between 48 57 (nat_of_ascii c).

(** [HerdrAgentName::new]. *)
Definition herdr_agent_name_new (value : string) : Outcome AtmError HerdrAgentName :=
  let valid :=
    Nat.leb 1 (String.length value) && Nat.leb (String.length value) 32
    && match value with String c _ => ascii_lowercase c | EmptyString => false end
    && all_chars (fun c => ascii_lowercase c || ascii_digit c
                           || Ascii.eqb c "_" || Ascii.eqb c "-") value in
  if valid then Ok value
  else Err (validation "Herdr agent name must match ^[a-z][a-z0-9_-]{0,31}$").

Definition resolve_herdr_agent_target (member : AgentName)
    (configured_alias : option HerdrAgentName) : option HerdrAgentName :=
  match configured_alias with
  | Some alias => Some alias
  | None => match herdr_agent_name_new member with Ok agent => Some agent | _ => None end
  end.

Inductive LocalMessageReceivedBackend : Set :=
| Backend_Tmux (pane_id : PaneId)
| Backend_Herdr (session : option HerdrSession) (agent : option HerdrAgentName).

(** [metadata.get(key).and_then(Value::as_str)]. *)
Definition metadata_str (metadata : list (string * Value)) (key : string) : option string :=
  match object_get key metadata with Some (Value_String s) => Some s | _ => None end.

(** [Result::ok]. *)
Definition outcome_ok {A} (o : Outcome AtmError A) : option A :=
  match o with Ok a => Some a | _ => None end.

Definition local_message_received_backend (member : RosterMember)
    : option LocalMessageReceivedBackend :=
  match rm_recipient_pane_id member with
  | Some pane_id => Some (Backend_Tmux pane_id)
  | None =>
    if bool_decide (metadata_str (rm_metadata_json member) "backendType" = Some "herdr") then
      Some (Backend_Herdr
              (metadata_str (rm_metadata_json member) "herdrSession"
                 ≫= fun raw => outcome_ok (herdr_session_new raw))
              (metadata_str (rm_metadata_json member) "alias"
                 ≫= fun raw => outcome_ok (herdr_agent_name_new raw)))
    else None
  end.

(** ** Requests *)

Record BackendOptions : Set := mkBackendOptions {
  bo_backend : option string;
  bo_target : option string;
  bo_session : option string;
  bo_alias : option string;
  bo_clear_alias : bool
}.

Record AddMemberRequest : Set := mkAddMemberRequest {
  add_atm_home_dir : string;
  add_team : TeamName;
  add_member_name : AgentName;
  add_agent_type : AgentType;
  add_model : string;
  add_member_home_dir : string;
  add_tmux_pane_id : option PaneId;
  add_local_backend : option LocalMessageReceivedBackend;
  add_alias : option string;
  add_backend_warning : option string;
  add_host : option string
}.

Record AddMemberOutcome : Set := mkAddMemberOutcome {
  ao_team : TeamName;
  ao_member : AgentName;
  ao_created_inbox : bool;
  ao_warnings : list string
}.

Record UpdateMemberRequest : Set := mkUpdateMemberRequest {
  upd_caller_identity : AgentName;
  upd_caller_team : TeamName;
  upd_team : TeamName;
  upd_member : AgentName;
  upd_home_dir : option string;
  upd_workspace_root : option string;
  upd_harness : option RosterHarness;
  upd_agent_type : option AgentType;
  upd_model : option string;
  upd_tmux_pane_id : option PaneId;
  upd_local_backend : option LocalMessageReceivedBackend;
  upd_alias : option (option string);
  upd_backend_warning : option string;
  upd_host : option string;
  upd_max_tasks : option Z
}.

Record RemoveMemberRequest : Set := mkRemoveMemberRequest {
  rem_caller_identity : AgentName;
  rem_caller_team : TeamName;
  rem_team : TeamName;
  rem_member : AgentName
}.

Inductive TmuxTargetShape : Set := Shape_Strict | Shape_NonStandard.

(** [PaneId::from_cli]. *)
Definition pane_id_from_cli (value : string) : Outcome AtmError PaneId :=
  let trimmed := trim value in
  if String.eqb trimmed "" then Err (validation "pane id must not be blank")
  else
    let keep := match trimmed with String c _ => Ascii.eqb c "%" | EmptyString => false end
                || contains ":" trimmed in
    pane_id_new (if keep then trimmed else "%" +:+ trimmed).

Definition normalize_tmux_pane_id (pane_id : option string)
    : Outcome AtmError (option (PaneId * TmuxTargetShape)) :=
  match trim <$> pane_id with
  | None => Ok None
  | Some raw =>
    let strict :=
      String.eqb raw ""
      || match raw with
         | String c rest => Ascii.eqb c "%" && negb (String.eqb rest "") && all_chars ascii_digit rest
         | EmptyString => false
         end
      || all_chars ascii_digit raw in
    pane ← pane_id_from_cli raw;
    Ok (Some (pane, if strict then Shape_Strict else Shape_NonStandard))
  end.

Definition parse_agent_type (value : string) : Outcome AtmError AgentType :=
  if Nat.ltb 256 (String.length value)
  then Err (validation "agent_type must be at most 256 bytes")
  else Ok (agent_type_from value).

Definition parse_roster_harness (value : string) : Outcome AtmError RosterHarness :=
  if Nat.ltb 256 (String.length value)
  then Err (validation "harness must be at most 256 bytes")
  else if String.eqb value "claude-code" then Ok ClaudeCode
  else if String.eqb value "codex-cli" then Ok CodexCli
  else if String.eqb value "gemini-cli" then Ok GeminiCli
  else if String.eqb value "opencode" then Ok Opencode
  else if String.eqb value "hermes" then Ok Hermes
  else if String.eqb value "python-graft" then Ok PythonGraft
  else Err (validation
    "harness must be one of: claude-code, codex-cli, gemini-cli, opencode, hermes, python-graft").

Definition parse_backend (member : AgentName) (backend target session alias : option string)
    : Outcome AtmError (option LocalMessageReceivedBackend) :=
  match backend with
  | None =>
    if bool_decide (is_Some session \/ is_Some target)
    then Err (validation "--target and --session require an explicit --backend")
    else Ok None
  | Some name =>
    if String.eqb name "tmux" then
      if bool_decide (is_Some session)
      then Err (validation "--session requires --backend herdr")
      else
        normalized ← normalize_tmux_pane_id target;
        match normalized with
        | None => Err (validation "--backend tmux requires --target")
        | Some (pane, _) => Ok (Some (Backend_Tmux pane))
        end
    else if String.eqb name "herdr" then
      if bool_decide (is_Some target)
      then Err (validation "--backend herdr does not accept --target")
      else
        _ ← match alias with
            | None => herdr_agent_name_new member
            | Some _ => Ok ""
            end;
        session ← option_traverse (fun value =>
                    _ ← validate_path_segment value "herdr session";
                    herdr_session_new value) session;
        agent ← option_traverse herdr_agent_name_new alias;
        Ok (Some (Backend_Herdr session agent))
    else Err (validation ("unsupported local backend '" +:+ name +:+ "'; expected tmux or herdr"))
  end.

Definition reserved_sender_name : AtmError :=
  atm_error_new MessageValidationFailed "atm-daemon is a reserved sender name".

Definition parse_alias (alias : option string) (clear_alias : bool)
    : Outcome AtmError (option (option string)) :=
  let blank := match alias with Some value => String.eqb (trim value) "" | None => false end in
  if clear_alias && bool_decide (is_Some alias) && negb blank
  then Err (validation "--alias and --clear-alias cannot be combined")
  else if clear_alias || blank then Ok (Some None)
  else
    match alias with
    | None => Ok None
    | Some a =>
      _ ← validate_path_segment a "alias";
      if String.eqb a DAEMON_ACTOR_NAME then Err reserved_sender_name else Ok (Some (Some a))
    end.

Definition nonstandard_tmux_warning (member : AgentName) (backend target : option string)
    : Outcome AtmError (option string) :=
  if bool_decide (backend = Some "tmux") then
    normalized ← normalize_tmux_pane_id target;
    match normalized with
    | Some (pane, Shape_NonStandard) =>
      Ok (Some ("member " +:+ member +:+ " uses backend tmux with non-standard target '" +:+ pane
        +:+ "'; verify --backend (herdr|tmux) for every member in the team; mixed-backend rosters require an explicit correct backend"))
    | _ => Ok None
    end
  else Ok None.

Definition tmux_pane (backend : option LocalMessageReceivedBackend) : option PaneId :=
  match backend with Some (Backend_Tmux pane) => Some pane | _ => None end.

(** [AddMemberRequest::new_with_backend]. *)
Definition add_member_request (atm_home_dir team member agent_type model member_home_dir : string)
    (options : BackendOptions) : Outcome AtmError AddMemberRequest :=
  member_name ← agent_name_from_str member;
  alias ← parse_alias (bo_alias options) (bo_clear_alias options);
  let alias := mjoin alias in
  local_backend ← parse_backend member_name (bo_backend options) (bo_target options)
                    (bo_session options) alias;
  backend_warning ← nonstandard_tmux_warning member_name (bo_backend options) (bo_target options);
  team_name ← team_name_from_str team;
  agent_type ← parse_agent_type agent_type;
  model ← model_name_new model;
  Ok (mkAddMemberRequest atm_home_dir team_name member_name agent_type model member_home_dir
        (tmux_pane local_backend) local_backend alias backend_warning None).

(** [UpdateMemberRequest::new_with_backend]. *)
Definition update_member_request (caller_identity : AgentName) (caller_team : TeamName)
    (team member : string) (home_dir workspace_root harness agent_type model : option string)
    (options : BackendOptions) : Outcome AtmError UpdateMemberRequest :=
  member_name ← agent_name_from_str member;
  alias ← parse_alias (bo_alias options) (bo_clear_alias options);
  local_backend ← parse_backend member_name (bo_backend options) (bo_target options)
                    (bo_session options) (mjoin alias);
  backend_warning ← nonstandard_tmux_warning member_name (bo_backend options) (bo_target options);
  team_name ← team_name_from_str team;
  harness ← option_traverse parse_roster_harness harness;
  agent_type ← option_traverse parse_agent_type agent_type;
  model ← option_traverse model_name_new model;
  Ok (mkUpdateMemberRequest caller_identity caller_team team_name member_name home_dir
        workspace_root harness agent_type model (tmux_pane local_backend) local_backend alias
        backend_warning None None).

(** [RemoveMemberRequest::new]. *)
Definition remove_member_request (caller_identity : AgentName) (caller_team : TeamName)
    (team member : string) : Outcome AtmError RemoveMemberRequest :=
  team_name ← team_name_from_str team;
  member_name ← agent_name_from_str member;
  Ok (mkRemoveMemberRequest caller_identity caller_team team_name member_name).

(** ** Metadata *)

Fixpoint object_remove (key : string) (members : list (string * Value))
    : list (string * Value) :=
  match members with
  | [] => []
  | (k, v) :: rest => if String.eqb key k then rest else (k, v) :: object_remove key rest
  end.

(** [if let Some(..) { metadata.insert(..) }]. *)
Definition insert_some {A} (key : string) (value : A -> Value) (o : option A)
    (metadata : list (string * Value)) : list (string * Value) :=
  match o with Some a => object_insert key (value a) metadata | None => metadata end.

Definition with_tmux_backend (metadata : list (string * Value)) : list (string * Value) :=
  object_insert "isActive" (Value_Bool true)
    (object_insert "backendType" (Value_String "tmux") metadata).

(** [build_member_add_roster_record] at the reading [now] of the clock. *)
Definition build_member_add_roster_record (request : AddMemberRequest) (now : IsoTimestamp)
    : RosterMember :=
  let extra :=
    match add_local_backend request with
    | Some (Backend_Tmux _) => with_tmux_backend []
    | Some (Backend_Herdr session _) =>
      insert_some "herdrSession" Value_String session
        (object_insert "backendType" (Value_String "herdr") [])
    | None =>
      if bool_decide (is_Some (add_tmux_pane_id request)) then with_tmux_backend [] else []
    end in
  let extra :=
    object_insert "agentId"
      (Value_String (add_member_name request +:+ "@" +:+ add_team request)) extra in
  let extra := insert_some "alias" Value_String (add_alias request) extra in
  let extra :=
    object_insert "joinedAt" (Value_Number (PosInt (Z.to_N (now / 1000000)))) extra in
  let extra := object_insert "home_dir" (Value_String (add_member_home_dir request)) extra in
  let extra := insert_some "host" Value_String (add_host request) extra in
  mkRosterMember (add_team request) (add_member_name request) Permanent ClaudeCode
    (add_agent_type request) (add_model request) (add_tmux_pane_id request) extra.

Definition set_metadata (metadata : list (string * Value)) (m : RosterMember) : RosterMember :=
  mkRosterMember (rm_team_name m) (rm_agent_name m) (rm_member_kind m) (rm_harness m)
    (rm_agent_type m) (rm_model m) (rm_recipient_pane_id m) metadata.
Definition set_pane (pane : option PaneId) (m : RosterMember) : RosterMember :=
  mkRosterMember (rm_team_name m) (rm_agent_name m) (rm_member_kind m) (rm_harness m)
    (rm_agent_type m) (rm_model m) pane (rm_metadata_json m).

Definition to_tmux (pane : PaneId) (m : RosterMember) : RosterMember :=
  set_pane (Some pane)
    (set_metadata (object_remove "herdrSession" (with_tmux_backend (rm_metadata_json m))) m).

Definition update_member_local_backend (request : UpdateMemberRequest) (m : RosterMember)
    : RosterMember :=
  match upd_local_backend request with
  | Some (Backend_Tmux pane) => to_tmux pane m
  | Some (Backend_Herdr session _) =>
    let metadata :=
      object_remove "isActive"
        (object_insert "backendType" (Value_String "herdr") (rm_metadata_json m)) in
    set_pane None
      (set_metadata
         match session with
         | Some s => object_insert "herdrSession" (Value_String s) metadata
         | None => object_remove "herdrSession" metadata
         end m)
  | None =>
    match upd_tmux_pane_id request with
    | Some pane => to_tmux pane m
    | None => m
    end
  end.

Definition apply_member_metadata_update (request : UpdateMemberRequest) (m : RosterMember)
    : RosterMember :=
  let metadata := rm_metadata_json m in
  let metadata := insert_some "home_dir" Value_String (upd_home_dir request) metadata in
  let metadata := insert_some "workspace_root" Value_String (upd_workspace_root request) metadata in
  let metadata := insert_some "host" Value_String (upd_host request) metadata in
  let metadata :=
    match upd_alias request with
    | Some (Some alias) => object_insert "alias" (Value_String alias) metadata
    | Some None => object_remove "alias" metadata
    | None => metadata
    end in
  let metadata :=
    insert_some MAX_TASKS_METADATA_KEY max_tasks_to_metadata_value (upd_max_tasks request)
      metadata in
  update_member_local_backend request
    (mkRosterMember (rm_team_name m) (rm_agent_name m) (rm_member_kind m)
       (default (rm_harness m) (upd_harness request))
       (default (rm_agent_type m) (upd_agent_type request))
       (default (rm_model m) (upd_model request)) (rm_recipient_pane_id m) metadata).

(** ** Mutations *)

Class HomeFs : Type := mkHomeFs {
  inbox_file : string -> TeamName -> AgentName -> string;  (* the path of an inbox *)
  create_failure : string -> option AtmError  (* why a file cannot be created, if so *)
}.

(** The roster beside the inbox files that exist. *)
Record AdminWorld : Type := mkAdminWorld {
  aw_roster : RosterWorld;
  aw_inboxes : gset string
}.

Definition Admin (A : Type) : Type := ST AdminWorld AtmError A.

#[export] Instance Admin_ret : MRet Admin := st_ret AdminWorld AtmError.
#[export] Instance Admin_bind : MBind Admin := st_mbind AdminWorld AtmError.

Definition on_roster_store {A} (c : R A) : Admin A :=
  fun aw => let '(o, rw) := c (aw_roster aw) in (o, mkAdminWorld rw (aw_inboxes aw)).
Definition admin_lift {A} (o : Outcome AtmError A) : Admin A := fun aw => (o, aw).

Definition member_already_exists (member team : string) : AtmError :=
  atm_error_new MemberAlreadyExists
    ("member '" +:+ member +:+ "' already exists in team '" +:+ team +:+ "'").
Definition member_not_found (member team : string) : AtmError :=
  atm_error_new MemberNotFound
    ("member '" +:+ member +:+ "' was not found in team '" +:+ team +:+ "'").

Section Mutations.
Context {rt : Runtime} {tx : RosterText} {fs : HomeFs}.

(** [boundary::RosterStore] over the write-through store. *)
Definition admin_load_roster (team : TeamName) : Admin (list RosterMember) :=
  snapshot ← on_roster_store (WriteThrough.view_load_roster team);
  mret (rs_members snapshot).
Definition admin_replace_roster (team : TeamName) (members : list RosterMember) : Admin unit :=
  on_roster_store (WriteThrough.view_save_roster (mkRosterSnapshot team members None)).
Definition query_membership (team : TeamName) (member : AgentName)
    : Admin (option RosterMember) :=
  members ← admin_load_roster team;
  mret (List.find (fun m => String.eqb (rm_agent_name m) member) members).

Definition inbox_path_from_home (home_dir : string) (team : TeamName) (agent : AgentName)
    : Outcome AtmError string :=
  _ ← validate_path_segment agent "agent";
  _ ← validate_path_segment team "team";
  Ok (inbox_file home_dir team agent).

Definition ensure_inbox_exists (path : string) : Admin bool :=
  fun aw =>
    if bool_decide (path ∈ aw_inboxes aw) then (Ok false, aw)
    else
      match create_failure path with
      | Some e => (Err e, aw)
      | None => (Ok true, mkAdminWorld (aw_roster aw) ({[ path ]} ∪ aw_inboxes aw))
      end.

Definition ensure_member_name_available (member : AgentName) : Outcome AtmError unit :=
  if String.eqb member DAEMON_ACTOR_NAME then Err reserved_sender_name else Ok tt.

Definition is_member (roster : list RosterMember) (member : AgentName) : bool :=
  existsb (fun m => String.eqb (rm_agent_name m) member) roster.

Definition ensure_member_absent (roster : list RosterMember) (team : TeamName)
    (member : AgentName) : Outcome AtmError unit :=
  _ ← ensure_member_name_available member;
  if is_member roster member then Err (member_already_exists member team) else Ok tt.

Definition ensure_member_present (roster : list RosterMember) (team : TeamName)
    (member : AgentName) : Outcome AtmError unit :=
  if is_member roster member then Ok tt else Err (member_not_found member team).

Definition preflight_roster_unique_names (proposed_member : RosterMember)
    (proposed_roster : list RosterMember) : Admin unit :=
  persisted_names ← on_roster_store WriteThrough.unique_names;
  let proposed_names := from_member <$> proposed_roster in
  let written_names := roster_write_delta persisted_names proposed_names in
  match written_names with
  | [] => mret tt
  | _ :: _ =>
    let names :=
      List.filter (fun n => negb (String.eqb (un_team_name n) (rm_team_name proposed_member)))
        persisted_names ++ proposed_names in
    match written_collisions written_names names with
    | [] => mret tt
    | collisions => admin_lift (Err (roster_unique_name_collision_error collisions))
    end
  end.

(** [Utc::now]. *)
Definition admin_now : Admin IsoTimestamp := on_roster_store (durable now).

Definition add_member_with_roster_store (request : AddMemberRequest) : Admin AddMemberOutcome :=
  existing_roster ← admin_load_roster (add_team request);
  _ ← admin_lift (ensure_member_absent existing_roster (add_team request)
                    (add_member_name request));
  inbox_path ← admin_lift (inbox_path_from_home (add_atm_home_dir request) (add_team request)
                             (add_member_name request));
  created_inbox ← ensure_inbox_exists inbox_path;
  at_ ← admin_now;
  let proposed_member := build_member_add_roster_record request at_ in
  let proposed_roster := existing_roster ++ [proposed_member] in
  _ ← preflight_roster_unique_names proposed_member proposed_roster;
  _ ← admin_replace_roster (add_team request) proposed_roster;
  mret (mkAddMemberOutcome (add_team request) (add_member_name request) created_inbox
          (option_list (add_backend_warning request))).

Definition validate_member_mutation_caller (caller_identity : AgentName)
    (caller_team target_team : TeamName) (action : string) : Admin unit :=
  if String.eqb caller_team target_team then
    caller_entry ← query_membership target_team caller_identity;
    match caller_entry with
    | Some _ => mret tt
    | None => admin_lift (Err (member_not_found caller_identity target_team))
    end
  else
    admin_lift (Err (validation ("caller team '" +:+ caller_team +:+ "' does not match " +:+ action
                                 +:+ " target team '" +:+ target_team +:+ "'"))).

Definition validate_effective_herdr_agent_name (member : RosterMember)
    (request : UpdateMemberRequest) : Outcome AtmError unit :=
  let requested_herdr :=
    match upd_local_backend request with Some (Backend_Herdr _ _) => true | _ => false end in
  let retained_herdr :=
    match upd_local_backend request with Some _ => false | None => true end
    && bool_decide (metadata_str (rm_metadata_json member) "backendType" = Some "herdr") in
  if requested_herdr || retained_herdr then
    let alias :=
      match mjoin (upd_alias request) with
      | Some alias => Some alias
      | None => metadata_str (rm_metadata_json member) "alias"
      end in
    _ ← herdr_agent_name_new (default (rm_agent_name member) alias);
    Ok tt
  else Ok tt.

(** [Iterator::position] of the member, and the roster with it replaced. *)
Fixpoint replace_member (member : AgentName) (f : RosterMember -> RosterMember)
    (roster : list RosterMember) : list RosterMember :=
  match roster with
  | [] => []
  | m :: rest =>
    if String.eqb (rm_agent_name m) member then f m :: rest
    else m :: replace_member member f rest
  end.

Definition canonicalize_member_mutation_aliases (request : UpdateMemberRequest)
    (roster : list RosterMember) : AgentName * AgentName :=
  (resolve_roster_alias (upd_caller_identity request) (upd_caller_team request) roster,
   resolve_roster_alias (upd_member request) (upd_team request) roster).

Definition update_member_with_roster_store (request : UpdateMemberRequest) : Admin AgentName :=
  existing_roster ← admin_load_roster (upd_team request);
  let '(caller_identity, member_name) :=
    canonicalize_member_mutation_aliases request existing_roster in
  _ ← validate_member_mutation_caller caller_identity (upd_caller_team request) (upd_team request)
        "update-member";
  _ ← admin_lift (ensure_member_name_available member_name);
  match List.find (fun m => String.eqb (rm_agent_name m) member_name) existing_roster with
  | None => admin_lift (Err (member_not_found member_name (upd_team request)))
  | Some member =>
    _ ← admin_lift (validate_effective_herdr_agent_name member request);
    let proposed_member := apply_member_metadata_update request member in
    let proposed_roster :=
      replace_member member_name (apply_member_metadata_update request) existing_roster in
    _ ← preflight_roster_unique_names proposed_member proposed_roster;
    _ ← admin_replace_roster (upd_team request) proposed_roster;
    mret member_name
  end.

Definition remove_member_with_roster_store (request : RemoveMemberRequest) : Admin AgentName :=
  existing_roster ← admin_load_roster (rem_team request);
  let caller_identity :=
    resolve_roster_alias (rem_caller_identity request) (rem_caller_team request)
      existing_roster in
  let member := resolve_roster_alias (rem_member request) (rem_team request) existing_roster in
  _ ← validate_member_mutation_caller caller_identity (rem_caller_team request)
        (rem_team request) "remove-member";
  _ ← admin_lift (ensure_member_present existing_roster (rem_team request) member);
  _ ← admin_replace_roster (rem_team request)
        (List.filter (fun m => negb (String.eqb (rm_agent_name m) member)) existing_roster);
  mret member.

End Mutations.

(** * Facts about member mutations

    Members of a view are values of their types, the names in memory and in the
    database are the names of those members, and what each step of a mutation
    does. *)

From S2P Require Import Threading Selection Roster.
From S2P Require Import RosterMirror.
From stdpp Require Import base gmap strings numbers sorting pretty list.
Local Close Scope Z_scope.

(** ** Trimming twice *)

Lemma strip_one_app ps l k : strip_one ps (l ++ k) = None -> strip_one ps l = None.
Proof.
  induction ps as [|p ps IH]; [done|]. cbn. destruct (strip_pattern p l) as [r|] eqn:E.
  - by rewrite (strip_pattern_app _ _ _ k E).
  - destruct (strip_pattern p (l ++ k)); [done|]. apply IH.
Qed.

Lemma strip_pattern_suffix p l r :
  strip_pattern p l = Some r -> exists k, l = k ++ r /\ length k = length p.
Proof.
  revert l. induction p as [|n p IH]; intros l; [intros [= <-]; by exists []|].
  destruct l as [|c l]; [done|]. cbn. destruct (Nat.eqb _ _); [|done].
  intros (k & -> & Hk)%IH. exists (c :: k). cbn. by rewrite Hk.
Qed.

Lemma strip_one_suffix ps l r :
  Forall (fun p => p <> []) ps -> strip_one ps l = Some r -> exists k, k <> [] /\ l = k ++ r.
Proof.
  induction 1 as [|p ps Hp _ IH]; [done|]. cbn. destruct (strip_pattern p l) as [r'|] eqn:E; [|done].
  intros [= <-]. apply strip_pattern_suffix in E as (k & -> & Hk). exists k. split; [|done].
  intros ->. by destruct p.
Qed.

Lemma strip_all_ends fuel ps l :
  Forall (fun p => p <> []) ps -> length l <= fuel ->
  strip_one ps (strip_all fuel ps l) = None /\ exists k, l = k ++ strip_all fuel ps l.
Proof.
  intros Hps. revert l. induction fuel as [|fuel IH]; intros l Hl; cbn.
  - destruct l; [|cbn in Hl; lia]. split; [|by exists []].
    clear Hl. induction Hps as [|p ps Hp _ IH]; [done|]. cbn. by destruct p.
  - destruct (strip_one ps l) as [r|] eqn:E; [|split; [done|by exists []]].
    destruct (strip_one_suffix _ _ _ Hps E) as (k & Hk & ->).
    destruct (IH r) as [Hn [k' Hk']].
    { rewrite length_app in Hl. destruct k; [done|]. cbn in Hl. lia. }
    split; [done|]. exists (k ++ k'). by rewrite <- app_assoc, <- Hk'.
Qed.

Lemma strip_all_done fuel ps l : strip_one ps l = None -> strip_all fuel ps l = l.
Proof. destruct fuel; [done|]. cbn. by intros ->. Qed.

Lemma white_space_patterns : Forall (fun p => p <> []) white_space.
Proof. unfold white_space. repeat (constructor; [done|]). constructor. Qed.

Lemma trim_trim s : trim (trim s) = trim s.
Proof.
  unfold trim. rewrite String.list_ascii_of_string_of_list_ascii.
  set (a := trim_start (String.list_ascii_of_string s)).
  assert (strip_one white_space a = None) as Ha
    by (apply strip_all_ends; [apply white_space_patterns|done]).
  assert (Forall (fun p : list nat => p <> []) (reverse <$> white_space)) as Hrev.
  { apply Forall_fmap. eapply Forall_impl; [apply white_space_patterns|].
    intros p Hp H. cbn in H. apply Hp. by rewrite <- (reverse_involutive p), H. }
  destruct (strip_all_ends (length a) _ (reverse a) Hrev) as [He [k Hk]]; [by rewrite length_reverse|].
  assert (a = trim_end a ++ reverse k) as Hpre.
  { unfold trim_end. rewrite <- reverse_app, <- Hk. by rewrite reverse_involutive. }
  f_equal. unfold trim_start at 1. rewrite strip_all_done.
  - unfold trim_end at 1. rewrite strip_all_done; [apply reverse_involutive|].
    unfold trim_end. by rewrite reverse_involutive.
  - rewrite Hpre in Ha. by eapply strip_one_app.
Qed.

Lemma pane_id_new_again p q : pane_id_new p = Ok q -> pane_id_new q = Ok q.
Proof.
  unfold pane_id_new. destruct (String.eqb (trim p) "") eqn:E1; [done|].
  destruct (Nat.ltb 256 (String.length (trim p))) eqn:E2; [done|]. intros [= <-].
  by rewrite trim_trim, E1, E2.
Qed.

Lemma agent_type_from_again s : agent_type_from (agent_type_as_str (agent_type_from s)) = agent_type_from s.
Proof.
  unfold agent_type_from.
  destruct (String.eqb s "general-purpose") eqn:E1; [done|].
  destruct (String.eqb s "plan") eqn:E2; [done|].
  destruct (String.eqb s "lead") eqn:E3; [done|].
  destruct (String.eqb s "qa") eqn:E4; [done|].
  destruct (String.eqb s "worker") eqn:E5; [done|]. cbn [agent_type_as_str].
  by rewrite E1, E2, E3, E4, E5.
Qed.

(** ** Members of a view *)

Section Members.
Context {rt : Runtime} {tx : RosterText} {txok : RosterTextOk rt tx}.

(** What a row that reads as a member says. *)
Lemma build_inv team a row m :
  build_roster_member team a row = Ok m ->
  rm_team_name m = team /\ agent_name_from_str a = Ok (rm_agent_name m)
  /\ json_from_str (r_metadata_json row) = Some (Value_Object (rm_metadata_json m))
  /\ (segment_ok team -> member_ok m).
Proof.
  unfold build_roster_member. destruct (agent_name_from_str a) as [agent|e|] eqn:Ha; cbn; [|done..].
  destruct (json_from_str (r_metadata_json row)) as [[]|] eqn:Hj; cbn; try done.
  destruct (if String.eqb (r_model row) "" then _ else _) as [model|e|] eqn:Hm; cbn; [|done..].
  destruct (option_traverse _ (r_recipient_pane_id row)) as [pane|e|] eqn:Hp; cbn; [|done..].
  destruct (parse_member_kind _) as [kind|e|]; cbn; [|done..].
  destruct (parse_harness _) as [harness|e|]; cbn; [|done..]. intros [= <-].
  split; [done|]. split; [done|]. split; [done|]. intros Ht. constructor; cbn.
  - done.
  - by eapply parse_segment_inv.
  - apply agent_type_from_again.
  - destruct (String.eqb_spec (r_model row) "") as [E|E]; [by injection Hm as <-|].
    unfold model_name_new in *. destruct (Nat.ltb 256 _) eqn:El; [done|]. injection Hm as <-. by rewrite El.
  - intros p ->. destruct (r_recipient_pane_id row) as [q|]; cbn in Hp; [|done].
    destruct (pane_id_new q) as [q'|e|] eqn:Eq; cbn in Hp; [|done..]. injection Hp as <-.
    by eapply pane_id_new_again.
  - by exists (r_metadata_json row).
Qed.

Lemma view_member rw team m :
  view_ok rw -> m ∈ Mirror.load_team_roster (rw_mirror rw) team ->
  exists row, team_roster (db (rw_world rw)) !! (team, rm_agent_name m) = Some row
    /\ build_roster_member team (rm_agent_name m) row = Ok m
    /\ rm_team_name m = team /\ member_ok m.
Proof.
  intros [Hk Hm] Hin. destruct (Hm team) as (ms & [Hf _] & Hl & _). rewrite Hl in Hin.
  apply list_elem_of_lookup in Hin as [i Hi].
  destruct (Forall2_lookup_r _ _ _ _ _ Hf Hi) as ([[t a] row] & Hr & Hb). cbn in Hb.
  apply list_elem_of_lookup_2, elem_of_rows_of in Hr as [-> Hr].
  destruct (Hk _ _ _ Hr) as [Ht Ha]. apply build_inv in Hb as H. destruct H as (Hteam & Hagent & _ & Hok).
  unfold agent_name_from_str in Hagent. rewrite (parse_segment_ok _ _ Ha) in Hagent. simplify_eq.
  exists row. split; [done|]. split; [done|]. split; [done|]. auto.
Qed.

Lemma view_row rw team a row :
  view_ok rw -> team_roster (db (rw_world rw)) !! (team, a) = Some row ->
  exists m, m ∈ Mirror.load_team_roster (rw_mirror rw) team
    /\ build_roster_member team a row = Ok m /\ rm_agent_name m = a.
Proof.
  intros [Hk Hm] Hr. destruct (Hm team) as (ms & [Hf _] & Hl & _).
  assert (((team, a), row) ∈ rows_of team (db (rw_world rw))) as Hin by by apply elem_of_rows_of.
  apply list_elem_of_lookup in Hin as [i Hi].
  destruct (Forall2_lookup_l _ _ _ _ _ Hf Hi) as (m & Hmi & Hb). cbn in Hb. exists m.
  rewrite Hl. split; [by eapply list_elem_of_lookup_2|]. split; [done|].
  apply build_inv in Hb as (_ & Hagent & _). destruct (Hk _ _ _ Hr) as [_ Ha].
  unfold agent_name_from_str in Hagent. rewrite (parse_segment_ok _ _ Ha) in Hagent. by simplify_eq.
Qed.

(** A team and a name have one member. *)
Lemma view_member_unique rw team m m' :
  view_ok rw -> m ∈ Mirror.load_team_roster (rw_mirror rw) team ->
  m' ∈ Mirror.load_team_roster (rw_mirror rw) team -> rm_agent_name m = rm_agent_name m' -> m = m'.
Proof.
  intros Hv Hm Hm' E. destruct (view_member _ _ _ Hv Hm) as (row & Hr & Hb & _).
  destruct (view_member _ _ _ Hv Hm') as (row' & Hr' & Hb' & _). rewrite <- E in Hr', Hb'. congruence.
Qed.

Lemma view_NoDup rw team :
  view_ok rw -> NoDup (rm_agent_name <$> Mirror.load_team_roster (rw_mirror rw) team).
Proof.
  intros [Hk Hm]. destruct (Hm team) as (ms & Hh & Hl & _). rewrite Hl. by eapply holds_NoDup.
Qed.

(** ** Known names *)

(** [names] are the effective names of the members in memory. *)
Definition knows (state : RosterRuntimeState) (names : list RosterUniqueName) : Prop :=
  forall p, p ∈ names <-> exists team m, m ∈ Mirror.load_team_roster state team /\ p = from_member m.

Definition ram_names (state : RosterRuntimeState) : list RosterUniqueName :=
  concat ((fun t => from_member <$> Mirror.load_team_roster state t) <$> Mirror.team_names state).

Lemma unique_names_of_run teams rw :
  WriteThrough.unique_names_of teams rw
  = (Ok (concat ((fun t => from_member <$> Mirror.load_team_roster (rw_mirror rw) t) <$> teams)), rw).
Proof.
  induction teams as [|t ts IH]; [done|].
  change (WriteThrough.unique_names_of (t :: ts) rw)
    with (match WriteThrough.unique_names_of ts rw with
          | (Ok names, rw') =>
            (Ok ((from_member <$> Mirror.load_team_roster (rw_mirror rw) t) ++ names) : Outcome AtmError _, rw')
          | (Err e, rw') => (Err e, rw')
          | (Panic, rw') => (Panic, rw')
          end).
  by rewrite IH.
Qed.

Lemma unique_names_run rw : WriteThrough.unique_names rw = (Ok (ram_names (rw_mirror rw)), rw).
Proof.
  change (WriteThrough.unique_names rw)
    with (WriteThrough.unique_names_of (Mirror.team_names (rw_mirror rw)) rw).
  apply unique_names_of_run.
Qed.

Lemma ram_knows state : knows state (ram_names state).
Proof.
  intros p. unfold ram_names. rewrite list_elem_of_In, in_concat. split.
  - intros (l & Hl & Hp). apply list_elem_of_In, list_elem_of_fmap in Hl as (t & -> & _).
    apply list_elem_of_In, list_elem_of_fmap in Hp as (m & -> & Hm). eauto.
  - intros (t & m & Hm & ->). exists (from_member <$> Mirror.load_team_roster state t).
    split; [|by apply list_elem_of_In, list_elem_of_fmap_2]. apply list_elem_of_In, list_elem_of_fmap.
    exists t. split; [done|].
    unfold Mirror.team_names. rewrite (sort_by_perm String.compare). unfold Mirror.load_team_roster in Hm.
    destruct (state !! t) as [record|] eqn:E; [|by apply not_elem_of_nil in Hm].
    apply list_elem_of_fmap. exists (t, record). split; [done|]. by apply elem_of_map_to_list.
Qed.

Definition aliases_clean (state : RosterRuntimeState) : Prop :=
  forall team m, m ∈ Mirror.load_team_roster state team -> alias_clean m.

Lemma read_member_name rw team m row :
  view_ok rw -> team_roster (db (rw_world rw)) !! (team, rm_agent_name m) = Some row ->
  build_roster_member team (rm_agent_name m) row = Ok m -> alias_clean m ->
  read_unique_name ((team, rm_agent_name m), row) = Ok (from_member m).
Proof.
  intros [Hk _] Hr Hb Hc. destruct (Hk _ _ _ Hr) as [Ht Ha].
  apply build_inv in Hb as (Hteam & _ & Hj & _). unfold read_unique_name, sql_alias. rewrite Hj.
  cbn [value_get]. unfold team_name_from_str, agent_name_from_str.
  rewrite (parse_segment_ok _ _ Ht), (parse_segment_ok _ _ Ha).
  unfold from_member, entry_alias. unfold alias_clean in Hc. rewrite Hteam.
  destruct (object_get "alias" (rm_metadata_json m)) as [[]|]; try done. unfold sql_unique_name. by rewrite Hc.
Qed.

Lemma sql_knows rw w :
  view_ok rw -> aliases_clean (rw_mirror rw) -> db w = db (rw_world rw) ->
  exists names, load_unique_names w = (Ok names, w) /\ knows (rw_mirror rw) names.
Proof.
  intros Hv Hc Hdb.
  assert (forall k r, team_roster (db w) !! k = Some r -> exists m, m ∈ Mirror.load_team_roster (rw_mirror rw) k.1
    /\ rm_agent_name m = k.2 /\ read_unique_name (k, r) = Ok (from_member m)) as Hread.
  { intros [t a] r Hr. rewrite Hdb in Hr. destruct (view_row _ _ _ _ Hv Hr) as (m & Hm & Hb & <-).
    exists m. split; [done|]. split; [done|]. eapply read_member_name; eauto. }
  assert (exists names, Forall2 (fun row p => read_unique_name row = Ok p) (roster_rows (db w)) names) as [names Hf].
  { assert (Forall (fun row => exists p, read_unique_name row = Ok p) (roster_rows (db w))) as Ha.
    { apply Forall_forall. intros [k r] Hr. apply elem_of_roster_rows, Hread in Hr as (m & _ & _ & ?). eauto. }
    clear -Ha. induction Ha as [|row rows [p Hp] _ [ps IH]]; [by exists []|]. exists (p :: ps). by constructor. }
  apply load_unique_names_iff in Hf as Hl. exists names. split; [done|]. intros p.
  rewrite (elem_of_loaded_names w names p Hl). split.
  - intros (k & r & Hr & Hp). destruct (Hread k r Hr) as (m & Hm & _ & Hm'). exists k.1, m. split; [done|congruence].
  - intros (team & m & Hm & ->). destruct (view_member _ _ _ Hv Hm) as (row & Hr & Hb & _).
    exists (team, rm_agent_name m), row. rewrite Hdb. split; [done|]. eapply read_member_name; eauto.
Qed.

(** ** One more member *)

Section Adding.
Context (rw : RosterWorld) (Hv : view_ok rw) (new : RosterMember).
Let state := rw_mirror rw.
Let team := rm_team_name new.
Let existing := Mirror.load_team_roster state team.
Context (Habsent : rm_agent_name new ∉ rm_agent_name <$> existing).

(** Another member has the effective name of the new one. *)
Definition name_taken : Prop :=
  exists t m, m ∈ Mirror.load_team_roster state t
    /\ un_unique_name (from_member m) = un_unique_name (from_member new).

Lemma delta_of_add names p :
  knows state names ->
  p ∈ roster_write_delta names (from_member <$> existing ++ [new]) <-> p = from_member new.
Proof.
  intros Hk. unfold roster_write_delta. rewrite list_filter_elem, list_elem_of_fmap. split.
  - intros [(m & -> & [Hm| ->%list_elem_of_singleton]%elem_of_app) Hd]; [|done].
    destruct (view_member _ _ _ Hv Hm) as (_ & _ & _ & Hteam & _).
    destruct (List.find _ names) as [q|] eqn:F.
    + apply find_some in F as [Hq [Et%String.eqb_eq Ea%String.eqb_eq]%andb_true_iff].
      apply list_elem_of_In, Hk in Hq as (t & m' & Hm' & ->). cbn in Et, Ea.
      destruct (view_member _ _ _ Hv Hm') as (_ & _ & _ & Hteam' & _).
      assert (t = team) as -> by congruence.
      rewrite (view_member_unique rw team m' m Hv Hm' Hm Ea) in Hd. by rewrite String.eqb_refl in Hd.
    + assert (from_member m ∈ names) as Hin by (apply Hk; exists team, m; done).
      apply list_elem_of_In in Hin. eapply find_none in F; [|exact Hin]. by rewrite !String.eqb_refl in F.
  - intros ->. split; [exists new; split; [done|set_solver]|].
    destruct (List.find _ names) as [q|] eqn:F; [|done].
    apply find_some in F as [Hq [Et%String.eqb_eq Ea%String.eqb_eq]%andb_true_iff].
    apply list_elem_of_In, Hk in Hq as (t & m' & Hm' & ->). cbn in Et, Ea.
    destruct (view_member _ _ _ Hv Hm') as (_ & _ & _ & Hteam' & _).
    assert (t = team) as -> by (unfold team; congruence). destruct Habsent. rewrite <- Ea. by apply list_elem_of_fmap_2.
Qed.

Lemma collides_add names :
  knows state names ->
  collides (retained_names team names ++ (from_member <$> existing ++ [new])) (from_member new)
  <-> name_taken.
Proof.
  intros Hk. rewrite fmap_app, app_assoc. cbn [fmap list_fmap].
  set (others := retained_names team names ++ (from_member <$> existing)).
  assert (forall p, p ∈ others <-> exists t m, m ∈ Mirror.load_team_roster state t /\ p = from_member m) as Ho.
  { intros p. unfold others, retained_names. rewrite elem_of_app, list_filter_elem, list_elem_of_fmap, (Hk p). split.
    - intros [[H _]|(m & -> & Hm)]; [done|]. by exists team, m.
    - intros (t & m & Hm & ->). destruct (view_member _ _ _ Hv Hm) as (_ & _ & _ & Hteam & _).
      destruct (decide (t = team)) as [->|Hne]; [right; by exists m|left]. split; [eauto|].
      apply negb_true_iff, String.eqb_neq. cbn. congruence. }
  unfold collides, name_taken. rewrite List.filter_app, length_app. cbn [List.filter].
  rewrite same_name_refl. cbn [length].
  destruct (List.filter (same_name (from_member new)) others) as [|p l] eqn:E; cbn [length].
  - split; [lia|]. intros (t & m & Hm & En). exfalso.
    assert (from_member m ∈ List.filter (same_name (from_member new)) others) as Hin.
    { apply list_filter_elem. split; [apply Ho; eauto|by apply same_name_iff]. }
    rewrite E in Hin. by apply not_elem_of_nil in Hin.
  - split; [|lia]. intros _. assert (p ∈ List.filter (same_name (from_member new)) others) as Hin by (rewrite E; by left).
    apply list_filter_elem in Hin as [(t & m & Hm & ->)%Ho En%same_name_iff]. by exists t, m.
Qed.

Lemma written_add_nil names :
  knows state names ->
  written_collisions (roster_write_delta names (from_member <$> existing ++ [new]))
    (retained_names team names ++ (from_member <$> existing ++ [new])) = [] <-> ~ name_taken.
Proof.
  intros Hk. rewrite written_collisions_nil.
  - rewrite <- (collides_add names Hk). split.
    + intros H. apply H. by apply delta_of_add.
    + intros H p ->%(delta_of_add names p Hk). done.
  - intros p Hp%elem_of_write_delta. apply elem_of_app. by right.
Qed.

Lemma new_NoDup : NoDup (rm_agent_name <$> existing ++ [new]).
Proof.
  rewrite fmap_app. apply NoDup_app. split; [by apply view_NoDup|]. split; [|apply NoDup_singleton].
  intros a Ha ->%list_elem_of_singleton. done.
Qed.

Lemma admissible_add names :
  knows state names ->
  admissible names (mkRosterSnapshot team (existing ++ [new]) None) <-> ~ name_taken.
Proof.
  intros Hk. unfold admissible. cbn [rs_members rs_team_name]. rewrite <- (collides_add names Hk). split.
  - intros [_ H]. apply H. by apply delta_of_add.
  - intros H. split; [|intros p ->%(delta_of_add names p Hk); done].
    apply (NoDup_fmap_1 snd). rewrite <- !list_fmap_compose. exact new_NoDup.
Qed.

Lemma preflight_run aw :
  aw_roster aw = rw ->
  (preflight_roster_unique_names new (existing ++ [new]) aw = (Ok tt, aw)
   \/ exists e, preflight_roster_unique_names new (existing ++ [new]) aw = (Err e, aw))
  /\ (preflight_roster_unique_names new (existing ++ [new]) aw = (Ok tt, aw) <-> ~ name_taken).
Proof.
  intros Haw. unfold preflight_roster_unique_names, mbind, Admin_bind, st_mbind, st_bind, on_roster_store.
  rewrite Haw, unique_names_run. fold state. cbn [rw_mirror].
  assert (mkAdminWorld rw (aw_inboxes aw) = aw) as -> by (subst rw; by destruct aw).
  pose proof (ram_knows state) as Hk. pose proof (written_add_nil _ Hk) as Hw.
  pose proof (delta_of_add _ (from_member new) Hk) as Hd.
  unfold retained_names, team in Hw.
  destruct (roster_write_delta (ram_names state) (from_member <$> existing ++ [new])) as [|x l].
  { assert (from_member new ∈ ([] : list RosterUniqueName)) as Hn by by apply Hd.
    by apply not_elem_of_nil in Hn. }
  rewrite <- Hw. destruct (written_collisions (x :: l) _) as [|c cs]; [by split; [left|]|].
  split; [right; by eexists|]. by split.
Qed.
End Adding.
End Members.
