(* ===== verification/RosterDemo.v ===== *)
(** * Concrete rosters

    Team [alpha] has [alice], whose alias is [ops], and [Bob], a Herdr member under
    the alias [bobby]; team [beta] has [carol].  [dave] is added to [alpha]. *)

From S2P Require Import Prelude ErrorCodes Types Address TaskState CronTypes Database Transaction.
From S2P Require Import Threading Selection Roster RosterMirror.
From S2P Require Import RosterMirror HookReply CronWorker MemberMutation.
From stdpp Require Import base gmap strings numbers sorting pretty list.
Local Open Scope string_scope.
Local Open Scope list_scope.

Definition dave_request : AddMemberRequest :=
  mkAddMemberRequest "/home" "alpha" "dave" AgentType_Worker "" "/home/dave" None None None None
    None.

(** The maps that have a text. *)
Definition demo_texts : list (string * list (string * Value)) :=
  [("{}", []);
   ("ops", [("alias", Value_String "ops")]);
   ("bobby", [("alias", Value_String "bobby"); ("backendType", Value_String "herdr")]);
   ("herdr", [("backendType", Value_String "herdr")]);
   ("dave", rm_metadata_json (build_member_add_roster_record dave_request 0))].

#[export] Instance roster_rt : Runtime :=
  {| now_at n := 0%Z;
     ulid_at n := N.of_nat n;
     ulid_datetime id := 0%Z;
     ulid_to_string id := "";
     json_from_str s := Value_Object <$> object_get s demo_texts;
     envelope_json_len _ := 200%Z;
     envelope_from_clashing _ := None;
     number_to_string _ := "0";
     timestamp_to_string t := pretty t;
     sqlite_display _ := "constraint failed";
     database_path := "atm.db";
     scan keys := keys;
     control_fault n := None |}.

#[export] Instance roster_text : RosterText :=
  {| metadata_to_string m :=
       match List.find (fun p => bool_decide (p.2 = m)) demo_texts with
       | Some (text, _) => text
       | None => ""
       end;
     metadata_cause text := "invalid type";
     json_extract_text v := "" |}.

#[export] Instance roster_text_ok : RosterTextOk roster_rt roster_text.
Proof.
  constructor. intros text m H. cbn [json_from_str roster_rt] in H.
  destruct (object_get text demo_texts) as [m'|] eqn:E; [|done]. cbn in H. injection H as ->.
  assert (exists text', (text', m) ∈ demo_texts) as [text' Hin].
  { clear -E. revert E. generalize demo_texts. induction l as [|[k v] l IH]; [done|]. cbn.
    destruct (String.eqb_spec text k) as [->|]; [intros [= ->]; exists k; by left|].
    intros (t & Ht)%IH. exists t. by right. }
  repeat (apply elem_of_cons in Hin as [Hin|Hin]; [injection Hin as -> ->; vm_compute; reflexivity|]).
  by apply not_elem_of_nil in Hin.
Qed.

#[export] Instance demo_fs : HomeFs :=
  {| inbox_file home team agent := home +:+ "/" +:+ team +:+ "/" +:+ agent;
     create_failure _ := None |}.

Definition demo_row (metadata : string) : RosterSqlRow :=
  mkRosterSqlRow "permanent" "claude-code" "worker" "" metadata None None 0%Z.

Definition roster_db : Db :=
  mkDb ∅ [] [] ∅ ∅ ∅ ∅ ∅
    {[ ("alpha", "alice") := demo_row "ops"; ("alpha", "Bob") := demo_row "bobby";
       ("beta", "carol") := demo_row "{}" ]}
    (mkCronTables ∅ 0 ∅ ∅).

Definition roster_world : World := mkWorld roster_db 0.

Definition demo_view : RosterWorld :=
  match WriteThrough.build_write_through_roster roster_world with
  | Ok rw => rw
  | _ => mkRosterWorld roster_world ∅
  end.

Definition demo_admin : AdminWorld := mkAdminWorld demo_view ∅.

#[export] Instance segment_ok_dec s : Decision (segment_ok s).
Proof. unfold segment_ok. apply _. Defined.

Lemma keys_ok_check d :
  bool_decide (map_Forall (fun k (_ : RosterSqlRow) => segment_ok k.1 /\ segment_ok k.2) (team_roster d)) = true ->
  keys_ok d.
Proof. intros H%bool_decide_eq_true t a r Hr. exact (H (t, a) r Hr). Qed.

Lemma demo_keys : keys_ok (db roster_world).
Proof. apply keys_ok_check. vm_compute. reflexivity. Qed.

Lemma demo_built : WriteThrough.build_write_through_roster roster_world = Ok demo_view.
Proof. unfold demo_view. destruct (WriteThrough.build_write_through_roster _) eqn:E; [done|exfalso..];
  vm_compute in E; discriminate. Qed.

Lemma demo_view_ok : view_ok demo_view.
Proof. exact (built_view_ok _ _ demo_keys demo_built). Qed.

Definition dave : RosterMember := build_member_add_roster_record dave_request 0.

(** A member whose fields are checked by evaluation. *)
Lemma member_ok_check m :
  segment_ok (rm_team_name m) -> segment_ok (rm_agent_name m) ->
  agent_type_from (agent_type_as_str (rm_agent_type m)) = rm_agent_type m ->
  model_name_new (rm_model m) = Ok (rm_model m) -> rm_recipient_pane_id m = None ->
  (exists text, json_from_str text = Some (Value_Object (rm_metadata_json m))) -> member_ok m.
Proof. intros Ht Ha Hy Hm Hp Hj. constructor; [done..| |done]. intros p E. congruence. Qed.

Lemma dave_ok : member_ok dave.
Proof.
  apply member_ok_check; [by apply (bool_decide_eq_true_1 (segment_ok _))|by apply (bool_decide_eq_true_1 (segment_ok _))|reflexivity|reflexivity|reflexivity|].
  by exists "dave".
Qed.

Definition erin : RosterMember :=
  mkRosterMember "beta" "erin" Permanent CodexCli AgentType_Lead "" None [].

Lemma erin_ok : member_ok erin.
Proof.
  apply member_ok_check; [by apply (bool_decide_eq_true_1 (segment_ok _))|by apply (bool_decide_eq_true_1 (segment_ok _))|reflexivity|reflexivity|reflexivity|].
  by exists "{}".
Qed.

Definition bob : RosterMember :=
  mkRosterMember "alpha" "Bob" Permanent ClaudeCode AgentType_Worker "" None
    [("alias", Value_String "bobby"); ("backendType", Value_String "herdr")].
