(* ===== verification/RosterProps.v ===== *)
(** * Properties of team rosters and their mirror *)

From S2P Require Import Prelude ErrorCodes Types Database Transaction Address Threading Selection.
From S2P Require Import Selection Roster RosterMirror RosterDemo.
From stdpp Require Import base gmap strings numbers sorting pretty list.

Section Claims.
Context {rt : Runtime} {tx : RosterText} {txok : RosterTextOk rt tx}.

(** C6: The write-through roster refines the durable store.  After any sequence
    of saves (accepted or refused), observations, wake flags and reloads on a view
    built from a store with valid names, loading a team from memory gives the
    members the database holds, up to order, and the teams in memory are the teams
    of the database. *)
Theorem write_through_mirrors_store w rw0 ops :
  keys_ok (db w) -> WriteThrough.build_write_through_roster w = Ok rw0 ->
  Forall roster_op_ok ops ->
  let rw := run_roster_ops ops rw0 in
  (forall team, exists stored cached,
     Roster.load_roster team (rw_world rw) = (Ok (mkRosterSnapshot team stored None), rw_world rw)
     /\ WriteThrough.view_load_roster team rw = (Ok (mkRosterSnapshot team cached None), rw)
     /\ cached ≡ₚ stored)
  /\ exists teams cached_teams,
       Roster.list_teams (rw_world rw) = (Ok teams, rw_world rw)
       /\ WriteThrough.view_list_teams rw = (Ok cached_teams, rw)
       /\ cached_teams ≡ₚ teams.
Proof.
  intros Hk Hb Hops rw. destruct (view_ops ops rw0 Hops (built_view_ok _ _ Hk Hb)) as [Hk' Hm].
  fold rw in Hk', Hm. split.
  - intros team. destruct (Hm team) as (ms & Hh & Hl & _). exists ms, (Mirror.load_team_roster (rw_mirror rw) team).
    split; [by apply load_roster_holds|]. done.
  - exists (stored_teams (db (rw_world rw))), (Mirror.team_names (rw_mirror rw)).
    split; [by apply list_teams_run|]. split; [done|]. unfold Mirror.team_names.
    rewrite sort_by_perm. apply NoDup_Permutation.
    + apply NoDup_fst_map_to_list.
    + apply NoDup_remove_dups.
    + intros t. rewrite elem_of_stored_teams. destruct (Hm t) as (ms & Hh & _ & Hn & _). split.
      * intros ([t' record] & -> & Hr%elem_of_map_to_list)%list_elem_of_fmap. cbn in *.
        destruct Hh as [Hf _]. destruct (rows_of t' (db (rw_world rw))) as [|[[t a] r] rows] eqn:E.
        { apply Forall2_nil_inv_l in Hf as ->. rewrite (proj2 Hn eq_refl) in Hr. done. }
        exists a, r. assert (((t, a), r) ∈ rows_of t' (db (rw_world rw))) as [-> ?]%elem_of_rows_of
          by (rewrite E; by left). done.
      * intros (a & r & Hr). destruct (rw_mirror rw !! t) as [record|] eqn:E.
        { apply list_elem_of_fmap. exists (t, record). split; [done|]. by apply elem_of_map_to_list. }
        { pose proof (proj1 Hn eq_refl) as Hnil. by rewrite (proj1 (holds_nil _ _ _ Hh) Hnil) in Hr. }
Qed.

(** C12: A save keeps effective names unique.  In a store whose members all have
    different effective names (the alias, or the name without one), a save that is
    accepted leaves a store in which they all have different effective names, over
    all teams, when SQLite and the code read the new aliases alike. *)
Theorem saved_names_stay_unique w w' roster names :
  keys_ok (db w) -> load_unique_names w = (Ok names, w) -> NoDup (un_unique_name <$> names) ->
  Forall member_ok (rs_members roster) -> Forall alias_clean (rs_members roster) ->
  Roster.save_roster roster w = (Ok tt, w') ->
  exists names', load_unique_names w' = (Ok names', w') /\ NoDup (un_unique_name <$> names').
Proof.
  intros Hk Hl Hu Hok Hc Hs. apply save_roster_ok in Hs as (_ & (names1 & Hl1 & Hadm) & Ht & Hn & Hdb).
  rewrite Hl1 in Hl. injection Hl as ->.
  destruct (saved_names w w' roster names Hk Hl1 Ht Hn Hok Hc Hdb) as (names' & Hl' & Hp).
  exists names'. split; [done|]. destruct Hadm as [Hkeys Hw].
  set (all := retained_names (rs_team_name roster) names ++ (from_member <$> rs_members roster)) in *.
  rewrite Hp. eapply names_stay_unique; [| |intros p Hp'|exact Hw].
  - rewrite <- Hp. apply (NoDup_fmap_1 unique_key).
    assert (keys_ok (db w')) as Hk' by (rewrite Hdb; by apply saved_keys_ok).
    rewrite (loaded_names_keys _ _ Hk' Hl'). apply NoDup_roster_keys.
  - exact Hu.
  - apply elem_of_app in Hp' as [[Hp' _]%list_filter_elem|Hp']; [by right|].
    destruct (decide (p ∈ roster_write_delta names (from_member <$> rs_members roster))); [by left|right].
    by eapply unwritten_persisted.
Qed.

(** A save is all or nothing, and exact.  When no control statement fails, a
    roster is accepted exactly when it has at most 4096 members, all of its team,
    none twice, and no effective name that it adds or changes collides with another
    one; accepted, the team's rows are its members and the other teams keep theirs;
    refused, the database is as before. *)
Theorem save_roster_exact w roster names :
  load_unique_names w = (Ok names, w) ->
  control_fault (S (ticks w)) = None -> control_fault (S (S (ticks w))) = None ->
  let accepted :=
    length (rs_members roster) <= MAX_CANONICAL_ROSTER_MEMBERS
    /\ Forall (fun m => rm_team_name m = rs_team_name roster) (rs_members roster)
    /\ NoDup (rm_agent_name <$> rs_members roster)
    /\ forall p, p ∈ roster_write_delta names (from_member <$> rs_members roster) ->
         ~ collides (retained_names (rs_team_name roster) names
                     ++ (from_member <$> rs_members roster)) p in
  let '(result, w') := Roster.save_roster roster w in
  (result = Ok tt <-> accepted)
  /\ (result = Ok tt ->
      forall t a, team_roster (db w') !! (t, a)
        = if bool_decide (t = rs_team_name roster)
          then roster_row (now_at (ticks w))
               <$> List.find (fun m => String.eqb (rm_agent_name m) a) (rs_members roster)
          else team_roster (db w) !! (t, a))
  /\ (result <> Ok tt -> db w' = db w).
Proof.
  intros Hl Hf1 Hf2 accepted. destruct (Roster.save_roster roster w) as [result w'] eqn:Hs.
  assert (unique_key <$> (from_member <$> rs_members roster)
          = (fun m => (rm_team_name m, rm_agent_name m)) <$> rs_members roster) as Hkeys
    by (rewrite <- list_fmap_compose; done).
  split; [split|split].
  - intros ->. apply save_roster_ok in Hs as (Hlen & (names1 & Hl1 & Hadm) & Ht & Hn & Hdb).
    rewrite Hl1 in Hl. injection Hl as ->. unfold accepted. by destruct Hadm.
  - intros (Hlen & Ht & Hn & Hw).
    destruct (save_roster_runs roster w names Hlen Hl) as [w1 H1]; [split; [|done]|done..|congruence].
    rewrite Hkeys. apply (NoDup_fmap_1 snd). by rewrite <- list_fmap_compose.
  - intros -> t a. apply save_roster_ok in Hs as (_ & _ & _ & Hn & Hdb). rewrite Hdb.
    by apply replaced_lookup.
  - intros Hne. by eapply save_roster_fails.
Qed.
End Claims.

(** A save that is accepted, one that is refused, an observation and a reload. *)
Definition demo_ops : list RosterOp :=
  [Op_SaveRoster (mkRosterSnapshot "beta" [erin] None);
   Op_SaveRoster (mkRosterSnapshot "alpha" [dave; dave] None);
   Op_Observe "beta" [observed "erin" State_Idle Source_HerdrPoll 5 None];
   Op_WakePending "beta" "erin" true; Op_Reload].

Lemma write_through_mirrors_store_witness :
  Roster.load_roster "beta" (rw_world (run_roster_ops demo_ops demo_view))
    = (Ok (mkRosterSnapshot "beta" [erin] None), rw_world (run_roster_ops demo_ops demo_view))
  /\ exists cached, WriteThrough.view_load_roster "beta" (run_roster_ops demo_ops demo_view)
         = (Ok (mkRosterSnapshot "beta" cached None), run_roster_ops demo_ops demo_view)
       /\ cached ≡ₚ [erin].
Proof.
  assert (Forall roster_op_ok demo_ops) as Hops.
  { repeat constructor; cbn; repeat constructor; first [apply erin_ok|apply dave_ok]. }
  assert (exists w, Roster.load_roster "beta" (rw_world (run_roster_ops demo_ops demo_view))
    = (Ok (mkRosterSnapshot "beta" [erin] None), w)) as [w Hw].
  { exists (Roster.load_roster "beta" (rw_world (run_roster_ops demo_ops demo_view))).2.
    rewrite (surjective_pairing (Roster.load_roster "beta" _)) at 1. f_equal; vm_compute; reflexivity. }
  destruct (write_through_mirrors_store roster_world demo_view demo_ops demo_keys demo_built Hops)
    as [Hteam _]. revert Hw Hteam. generalize (run_roster_ops demo_ops demo_view). intros rw Hw Hteam.
  destruct (Hteam "beta") as (stored & cached & Hs & Hc & Hp). rewrite Hw in Hs. injection Hs as <- ->.
  split; [exact Hw|]. exists cached. split; [exact Hc|exact Hp].
Defined.

(** The names of the rosters. *)
Definition demo_names : list RosterUniqueName :=
  [mkRosterUniqueName "alpha" "Bob" "bobby"; mkRosterUniqueName "alpha" "alice" "ops";
   mkRosterUniqueName "beta" "carol" "carol"].

Lemma demo_names_loaded : load_unique_names roster_world = (Ok demo_names, roster_world).
Proof.
  destruct (load_unique_names_run roster_world _ eq_refl) as [r Hr]. rewrite Hr. f_equal.
  assert ((load_unique_names roster_world).1 = Ok demo_names) as E by (vm_compute; reflexivity).
  by rewrite Hr in E.
Qed.

Definition erin_roster : RosterSnapshot := mkRosterSnapshot "beta" [erin] None.

Lemma erin_saved : Roster.save_roster erin_roster roster_world
  = (Ok tt, (Roster.save_roster erin_roster roster_world).2).
Proof.
  rewrite (surjective_pairing (Roster.save_roster erin_roster roster_world)) at 1. f_equal;
    vm_compute; reflexivity.
Qed.

Lemma saved_names_stay_unique_witness :
  exists names', load_unique_names (Roster.save_roster erin_roster roster_world).2
      = (Ok names', (Roster.save_roster erin_roster roster_world).2)
    /\ NoDup (un_unique_name <$> names').
Proof.
  apply (saved_names_stay_unique roster_world _ erin_roster demo_names demo_keys demo_names_loaded).
  - apply (bool_decide_eq_true_1 (NoDup _)). vm_compute. reflexivity.
  - constructor; [apply erin_ok|constructor].
  - constructor; [done|constructor].
  - exact erin_saved.
Defined.

(** [carol] may not take the alias of [alice]. *)
Definition clashing_roster : RosterSnapshot :=
  mkRosterSnapshot "beta"
    [mkRosterMember "beta" "carol" Permanent ClaudeCode AgentType_Worker "" None
       [("alias", Value_String "ops")]] None.

Lemma save_roster_exact_witness :
  (Roster.save_roster clashing_roster roster_world).1 <> Ok tt
  /\ db (Roster.save_roster clashing_roster roster_world).2 = db roster_world.
Proof.
  pose proof (save_roster_exact roster_world clashing_roster demo_names demo_names_loaded eq_refl eq_refl)
    as H. destruct (Roster.save_roster clashing_roster roster_world) as [result w'] eqn:E.
  assert (result <> Ok tt) as Hne.
  { assert ((Roster.save_roster clashing_roster roster_world).1 <> Ok tt) as Hv by (vm_compute; discriminate).
    by rewrite E in Hv. }
  split; [done|]. by apply H.
Defined.

(** The state the mirror has of a member is its history.  Of a member whose
    state was never observed, after any batch of updates: the state is the last one
    an update of this member carried ([Unknown] without one), the revision counts
    the updates that carried one, up to the largest [u64], and [state_changed_at] is
    the time of the update that last changed the state, which no update after it
    changed again. *)
Theorem observed_state_history (state : RosterRuntimeState) team record a history :
  state !! team = Some record -> has_member record a = true ->
  ephemeral record !! a = Some ephemeral_default ->
  let mine := updates_of a history in
  exists s, Mirror.ephemeral_state (Mirror.apply_runtime_observations state team history).2 team a = Some s
    /\ obs_state (eph_runtime s) = default State_Unknown (last_state mine)
    /\ obs_revision (eph_runtime s) = Z.min u64_max (Z.of_nat (length (omap up_state mine)))
    /\ forall at_, obs_state_changed_at (eph_runtime s) = Some at_ <->
         exists u, last_change mine u /\ up_observed_at u = at_.
Proof.
  intros Hr Ha Hs mine.
  exists (mkEphemeralState (observe_history mine observation_default) false). split.
  - unfold Mirror.apply_runtime_observations. destruct history as [|u us].
    + cbn [snd]. unfold Mirror.ephemeral_state. by rewrite Hr, Hs.
    + rewrite Hr. pose proof (observe_all_member record (u :: us) (ephemeral record) a _ Ha Hs) as H.
      destruct (Mirror.observe_all record (u :: us) (ephemeral record)) as [os ss].
      cbn [snd] in *. unfold Mirror.ephemeral_state. rewrite lookup_insert_eq. exact H.
  - cbn [eph_runtime]. split; [apply history_state|]. split; [apply history_revision|].
    intros at_. apply history_changed_at.
Qed.

Definition carol_history : list RosterRuntimeObservationUpdate :=
  [observed "carol" State_Idle Source_HerdrPoll 10 None;
   observed "carol" State_Idle Source_Heartbeat 20 None;
   unavailable "carol" Source_HerdrPoll 30].

Lemma observed_state_history_witness :
  exists s, Mirror.ephemeral_state
      (Mirror.apply_runtime_observations (rw_mirror demo_view) "beta" carol_history).2 "beta" "carol" = Some s
    /\ obs_state (eph_runtime s) = State_Idle /\ obs_revision (eph_runtime s) = 2%Z
    /\ obs_state_changed_at (eph_runtime s) = Some 10%Z.
Proof.
  destruct (rw_mirror demo_view !! "beta") as [record|] eqn:Hr; [|exfalso; vm_compute in Hr; discriminate].
  assert (Some record = Some (from_durable [mkRosterMember "beta" "carol" Permanent ClaudeCode AgentType_Worker "" None []])) as Hrec
    by (rewrite <- Hr; vm_compute; reflexivity).
  injection Hrec as ->.
  destruct (observed_state_history (rw_mirror demo_view) "beta" _ "carol" carol_history Hr) as (s & Hs & H1 & H2 & H3);
    [reflexivity|vm_compute; reflexivity|].
  exists s. split; [exact Hs|]. split; [exact H1|]. split; [exact H2|]. apply H3.
  exists (observed "carol" State_Idle Source_HerdrPoll 10 None). split; [|done].
  exists [], (tail carol_history), State_Idle. split; [reflexivity|]. split; [done|]. split; [done|].
  constructor; [by right|]. constructor; [by left|constructor].
Defined.
