(* ===== verification/MemberProps.v ===== *)
(** * Properties of member mutations *)

From S2P Require Import Prelude ErrorCodes Types Address TaskState Database Transaction.
From S2P Require Import Threading Selection Roster RosterMirror.
From S2P Require Import RosterMirror HookReply MemberMutation RosterDemo.
From stdpp Require Import base gmap strings numbers sorting pretty list.

Section Runs.
Context {rt : Runtime} {tx : RosterText} {fs : HomeFs}.

Lemma run_admin_load team aw :
  admin_load_roster team aw = (Ok (Mirror.load_team_roster (rw_mirror (aw_roster aw)) team), aw).
Proof. destruct aw as [[] ?]. done. Qed.

Lemma run_admin_bind {A B} (c : Admin A) (f : A -> Admin B) aw a aw' :
  c aw = (Ok a, aw') -> (c ≫= f) aw = f a aw'.
Proof. intros H. unfold mbind, Admin_bind, st_mbind, st_bind. by rewrite H. Qed.

Lemma run_admin_bind_err {A B} (c : Admin A) (f : A -> Admin B) aw e aw' :
  c aw = (Err e, aw') -> (c ≫= f) aw = (Err e, aw').
Proof. intros H. unfold mbind, Admin_bind, st_mbind, st_bind. by rewrite H. Qed.

Lemma run_admin_ok_inv {A B} (c : Admin A) (f : A -> Admin B) aw b aw' :
  (c ≫= f) aw = (Ok b, aw') -> exists a aw1, c aw = (Ok a, aw1) /\ f a aw1 = (Ok b, aw').
Proof.
  unfold mbind, Admin_bind, st_mbind, st_bind. destruct (c aw) as [[a|e|] aw1]; [|done..]. eauto.
Qed.

(** A replaced roster is what the database and the memory hold afterwards. *)
Lemma replace_ok team members aw aw' :
  admin_replace_roster team members aw = (Ok tt, aw') ->
  let roster := mkRosterSnapshot team members None in
  let w := rw_world (aw_roster aw) in
  Roster.save_roster roster w = (Ok tt, rw_world (aw_roster aw'))
  /\ rw_mirror (aw_roster aw') = Mirror.replace_roster (rw_mirror (aw_roster aw)) team members
  /\ aw_inboxes aw' = aw_inboxes aw.
Proof.
  unfold admin_replace_roster, on_roster_store, WriteThrough.view_save_roster, mbind, R_bind, st_mbind, st_bind,
    durable, get_mirror, put_mirror. cbv zeta.
  destruct (Roster.save_roster _ (rw_world (aw_roster aw))) as [[[]|e|] w'] eqn:Hs; [|done..].
  intros [= <-]. done.
Qed.

Lemma replace_runs team members aw w' :
  Roster.save_roster (mkRosterSnapshot team members None) (rw_world (aw_roster aw)) = (Ok tt, w') ->
  exists aw', admin_replace_roster team members aw = (Ok tt, aw').
Proof.
  intros Hs. unfold admin_replace_roster, on_roster_store, WriteThrough.view_save_roster, mbind, R_bind, st_mbind,
    st_bind, durable, get_mirror, put_mirror. rewrite Hs. by eexists.
Qed.

Lemma replace_view team members aw r aw' :
  admin_replace_roster team members aw = (r, aw') ->
  (WriteThrough.view_save_roster (mkRosterSnapshot team members None) (aw_roster aw)).2 = aw_roster aw'.
Proof.
  unfold admin_replace_roster, on_roster_store. destruct (WriteThrough.view_save_roster _ _). by intros [= <- <-].
Qed.

Lemma replace_state team members aw r aw' :
  admin_replace_roster team members aw = (r, aw') -> r <> Ok tt ->
  db (rw_world (aw_roster aw')) = db (rw_world (aw_roster aw))
  /\ rw_mirror (aw_roster aw') = rw_mirror (aw_roster aw).
Proof.
  unfold admin_replace_roster, on_roster_store, WriteThrough.view_save_roster, mbind, R_bind, st_mbind, st_bind,
    durable, get_mirror, put_mirror. cbv zeta.
  destruct (Roster.save_roster _ (rw_world (aw_roster aw))) as [o w'] eqn:Hs. intros H Hr.
  assert (o <> Ok tt) as Ho by (destruct o as [[]|e|]; [injection H as <- <-; done|done..]).
  pose proof (save_roster_fails _ _ _ _ Hs Ho) as Hdb.
  destruct o as [[]|e|]; injection H as <- <-; done.
Qed.

Lemma load_replaced (state : RosterRuntimeState) team members t :
  Mirror.load_team_roster (Mirror.replace_roster state team members) t
  = if bool_decide (t = team) then members else Mirror.load_team_roster state t.
Proof.
  unfold Mirror.load_team_roster, Mirror.replace_roster. destruct members as [|m ms]; case_bool_decide; subst.
  - by rewrite lookup_delete_eq.
  - by rewrite lookup_delete_ne.
  - by rewrite lookup_insert_eq.
  - by rewrite lookup_insert_ne.
Qed.

Lemma is_member_iff roster a : is_member roster a = true <-> a ∈ rm_agent_name <$> roster.
Proof.
  unfold is_member. rewrite existsb_exists, list_elem_of_fmap. split.
  - intros (m & Hm%list_elem_of_In & <-%String.eqb_eq). eauto.
  - intros (m & -> & Hm). exists m. split; [by apply list_elem_of_In|apply String.eqb_refl].
Qed.

Lemma member_absent_iff roster team member :
  ensure_member_absent roster team member = Ok tt
  <-> member <> DAEMON_ACTOR_NAME /\ member ∉ rm_agent_name <$> roster.
Proof.
  unfold ensure_member_absent, ensure_member_name_available.
  destruct (String.eqb_spec member DAEMON_ACTOR_NAME) as [->|Hd]; [by split; [|intros []]|]. cbn.
  rewrite <- is_member_iff. destruct (is_member roster member); [|done]. split; [done|]. by intros [_ []].
Qed.

Lemma member_absent_cases roster team member :
  ensure_member_absent roster team member = Ok tt
  \/ exists e, ensure_member_absent roster team member = Err e.
Proof.
  unfold ensure_member_absent, ensure_member_name_available.
  destruct (String.eqb _ _); [by right; eexists|]. cbn. destruct (is_member _ _); [by right; eexists|by left].
Qed.

Lemma caller_is_member caller caller_team team action aw aw' :
  validate_member_mutation_caller caller caller_team team action aw = (Ok tt, aw') ->
  caller_team = team
  /\ caller ∈ (rm_agent_name <$> Mirror.load_team_roster (rw_mirror (aw_roster aw)) team) /\ aw' = aw.
Proof.
  unfold validate_member_mutation_caller. destruct (String.eqb_spec caller_team team) as [->|]; [|done].
  intros H. apply run_admin_ok_inv in H as (entry & aw1 & Hq & H). unfold query_membership in Hq.
  rewrite (run_admin_bind _ _ _ _ _ (run_admin_load team aw)) in Hq. injection Hq as <- <-.
  destruct (List.find _ _) as [m|] eqn:F; [|done]. injection H as <-. split; [done|]. split; [|done].
  apply find_some in F as [Hin E%String.eqb_eq]. rewrite <- E. apply list_elem_of_fmap_2. by apply list_elem_of_In.
Qed.

Lemma preflight_keeps m roster aw r aw' :
  preflight_roster_unique_names m roster aw = (r, aw') -> aw' = aw.
Proof.
  unfold preflight_roster_unique_names, mbind, Admin_bind, st_mbind, st_bind, on_roster_store.
  rewrite unique_names_run. destruct aw as [rw boxes]. cbn [aw_roster aw_inboxes].
  destruct (roster_write_delta _ _); [by intros [= _ <-]|].
  destruct (written_collisions _ _); by intros [= _ <-].
Qed.

Lemma object_get_removed key (members : list (string * Value)) :
  NoDup members.*1 -> object_get key (object_remove key members) = None.
Proof.
  induction members as [|[k v] l IH]; [done|]. rewrite fmap_cons. intros [Hnin Hn]%NoDup_cons. cbn.
  destruct (String.eqb_spec key k) as [->|Hne].
  - clear IH. induction l as [|[k' v'] l IH]; [done|]. cbn in *.
    destruct (String.eqb_spec k k') as [->|]; [set_solver|]. apply IH; [set_solver|by apply NoDup_cons in Hn as [_ ?]].
  - cbn. destruct (String.eqb_spec key k); [done|]. by apply IH.
Qed.

Lemma object_get_removed_ne key key' (members : list (string * Value)) :
  key <> key' -> object_get key (object_remove key' members) = object_get key members.
Proof.
  intros Hne. induction members as [|[k v] l IH]; [done|]. cbn.
  destruct (String.eqb_spec key' k) as [->|]; cbn.
  - by destruct (String.eqb_spec key k).
  - destruct (String.eqb key k); [done|]. apply IH.
Qed.

(** The part of an addition after the checks on the name. *)
Lemma add_member_unfold request aw b aw1 :
  let state := rw_mirror (aw_roster aw) in
  let existing := Mirror.load_team_roster state (add_team request) in
  let new := build_member_add_roster_record request (now_at (ticks (rw_world (aw_roster aw)))) in
  ensure_member_absent existing (add_team request) (add_member_name request) = Ok tt ->
  segment_ok (add_team request) -> segment_ok (add_member_name request) ->
  ensure_inbox_exists (inbox_file (add_atm_home_dir request) (add_team request)
                         (add_member_name request)) aw = (Ok b, aw1) ->
  aw_roster aw1 = aw_roster aw ->
  exists aw2, aw_roster aw2 = mkRosterWorld (tick (rw_world (aw_roster aw))) state
    /\ add_member_with_roster_store request aw
       = (preflight_roster_unique_names new (existing ++ [new]) ≫= (fun _ =>
          admin_replace_roster (add_team request) (existing ++ [new]) ≫= (fun _ =>
          mret (mkAddMemberOutcome (add_team request) (add_member_name request) b
                  (option_list (add_backend_warning request)))))) aw2.
Proof.
  intros state existing new Habs Ht Ha Hbox Hsame.
  exists (mkAdminWorld (mkRosterWorld (tick (rw_world (aw_roster aw))) state) (aw_inboxes aw1)). split; [done|].
  unfold add_member_with_roster_store.
  rewrite (run_admin_bind _ _ _ _ _ (run_admin_load (add_team request) aw)). fold state existing.
  rewrite (run_admin_bind _ _ aw tt aw) by (unfold admin_lift; by rewrite Habs).
  rewrite (run_admin_bind _ _ aw (inbox_file (add_atm_home_dir request) (add_team request) (add_member_name request)) aw).
  2:{ unfold admin_lift, inbox_path_from_home.
      rewrite (proj2 (validate_path_segment_ok _ _) Ha). cbn [mbind outcome_mbind outcome_bind].
      by rewrite (proj2 (validate_path_segment_ok _ _) Ht). }
  rewrite (run_admin_bind _ _ _ _ _ Hbox).
  rewrite (run_admin_bind admin_now _ aw1 (now_at (ticks (rw_world (aw_roster aw))))
             (mkAdminWorld (mkRosterWorld (tick (rw_world (aw_roster aw))) state) (aw_inboxes aw1))); [done|].
  unfold admin_now, on_roster_store. rewrite Hsame. done.
Qed.
End Runs.

Section Claims.
Context {rt : Runtime} {tx : RosterText} {txok : RosterTextOk rt tx} {fs : HomeFs}.

(** Writing a roster with one new member whose names are free only meets the cap. *)
Lemma add_replaces rw : view_ok rw -> aliases_clean (rw_mirror rw) -> forall new,
  member_ok new -> (forall n, control_fault n = None) ->
  let existing := Mirror.load_team_roster (rw_mirror rw) (rm_team_name new) in
  rm_agent_name new ∉ rm_agent_name <$> existing -> ~ name_taken rw new ->
  forall aw r aw', aw_roster aw = rw ->
  admin_replace_roster (rm_team_name new) (existing ++ [new]) aw = (r, aw') ->
  r = Ok tt <-> length (existing ++ [new]) <= MAX_CANONICAL_ROSTER_MEMBERS.
Proof.
  intros Hv Hclean new Hok Hcf existing Hnin Hfree aw r aw' Haw Hrep. split.
  - intros ->. apply replace_ok in Hrep as (Hs & _). by apply save_roster_ok in Hs as (Hlen & _).
  - intros Hlen. destruct (sql_knows rw (rw_world rw) Hv Hclean eq_refl) as (names & Hl & Hk).
    destruct (save_roster_runs (mkRosterSnapshot (rm_team_name new) (existing ++ [new]) None)
                (rw_world rw) names Hlen Hl) as [w' Hs].
    + by apply (admissible_add rw Hv new Hnin).
    + apply Forall_app. split; [|by constructor]. apply Forall_forall. intros m Hm.
      by destruct (view_member _ _ _ Hv Hm) as (_ & _ & _ & Hteam & _).
    + by apply (new_NoDup rw Hv new).
    + done.
    + done.
    + destruct (replace_runs (rm_team_name new) (existing ++ [new]) aw w') as [aw4 Haw4];
        [by rewrite Haw|]. rewrite Haw4 in Hrep. by injection Hrep as <- _.
Qed.

(** What writing it leaves: the team with its new member when the cap allows it,
    and the rosters as they were when not. *)
Lemma replaces_exactly rw : view_ok rw -> aliases_clean (rw_mirror rw) -> forall new,
  member_ok new -> (forall n, control_fault n = None) ->
  let existing := Mirror.load_team_roster (rw_mirror rw) (rm_team_name new) in
  rm_agent_name new ∉ rm_agent_name <$> existing -> ~ name_taken rw new ->
  forall aw r aw', aw_roster aw = rw ->
  admin_replace_roster (rm_team_name new) (existing ++ [new]) aw = (r, aw') ->
  (r = Ok tt <-> length existing < MAX_CANONICAL_ROSTER_MEMBERS)
  /\ view_ok (aw_roster aw')
  /\ forall t, Mirror.load_team_roster (rw_mirror (aw_roster aw')) t
       = match r with
         | Ok _ => if bool_decide (t = rm_team_name new) then existing ++ [new]
                   else Mirror.load_team_roster (rw_mirror rw) t
         | _ => Mirror.load_team_roster (rw_mirror rw) t
         end.
Proof.
  intros Hv Hclean new Hok Hcf existing Hnin Hfree aw r aw' Haw Hrep. split.
  { rewrite (add_replaces rw Hv Hclean new Hok Hcf Hnin Hfree aw r aw' Haw Hrep), length_app.
    fold existing. cbn [length]. lia. }
  assert (r = Ok tt \/ r <> Ok tt) as [->|Hne] by (destruct r as [[]|e|]; [by left|by right..]).
  - pose proof (replace_ok _ _ _ _ Hrep) as (_ & Hmir & _). split.
    + pose proof (replace_view _ _ _ _ _ Hrep) as Hview. rewrite Haw in Hview.
      set (roster := mkRosterSnapshot _ _ _) in Hview.
      assert ((WriteThrough.view_save_roster roster rw).2 = aw_roster aw') as <- by (by rewrite Hview).
      apply view_saved; [|done]. cbn [rs_members roster]. apply Forall_app. split; [|by constructor].
      apply Forall_forall. intros m Hm. by destruct (view_member _ _ _ Hv Hm) as (_ & _ & _ & _ & ?).
    + intros t. rewrite Hmir, Haw. apply load_replaced.
  - destruct (replace_state _ _ _ _ _ Hrep Hne) as [Hdb Hmir]. rewrite Haw in Hdb, Hmir.
    split; [by unfold view_ok; rewrite Hdb, Hmir|]. intros t. rewrite Hmir. by destruct r as [[]|e|].
Qed.

(** C22: Adding a member is exact.  On a view that mirrors its store, when no
    statement or file fails, a member is added exactly when its name is not
    reserved and not on the team, the team is below the cap, and its effective name
    (its alias, or its name) is not the effective name of any member of any team;
    then the team has it as one more member, the other teams are unchanged and
    memory and database still agree; otherwise the rosters are as before. *)
Theorem add_member_exact request aw :
  (forall n, control_fault n = None) -> (forall path, create_failure path = None) ->
  view_ok (aw_roster aw) -> aliases_clean (rw_mirror (aw_roster aw)) ->
  let state := rw_mirror (aw_roster aw) in
  let existing := Mirror.load_team_roster state (add_team request) in
  let new := build_member_add_roster_record request (now_at (ticks (rw_world (aw_roster aw)))) in
  member_ok new ->
  let '(result, aw') := add_member_with_roster_store request aw in
  ((exists outcome, result = Ok outcome) <->
    (add_member_name request <> DAEMON_ACTOR_NAME
     /\ (add_member_name request ∉ rm_agent_name <$> existing)
     /\ length existing < MAX_CANONICAL_ROSTER_MEMBERS
     /\ forall t m, m ∈ Mirror.load_team_roster state t ->
          un_unique_name (from_member m) <> un_unique_name (from_member new)))
  /\ view_ok (aw_roster aw')
  /\ forall t, Mirror.load_team_roster (rw_mirror (aw_roster aw')) t
       = match result with
         | Ok _ => if bool_decide (t = add_team request) then existing ++ [new]
                   else Mirror.load_team_roster state t
         | _ => Mirror.load_team_roster state t
         end.
Proof.
  intros Hcf Hcr Hv Hclean state existing new Hok.
  destruct (member_absent_cases existing (add_team request) (add_member_name request)) as [Habs|[e Habs]].
  2:{ unfold add_member_with_roster_store.
      rewrite (run_admin_bind _ _ _ _ _ (run_admin_load (add_team request) aw)). fold state existing.
      rewrite (run_admin_bind_err _ _ aw e aw) by (unfold admin_lift; by rewrite Habs).
      split; [|done]. split; [by intros [? ?]|]. intros (Hd & Hin & _). exfalso.
      by rewrite (proj2 (member_absent_iff existing (add_team request) _) (conj Hd Hin)) in Habs. }
  pose proof (proj1 (member_absent_iff _ _ _) Habs) as [Hd Hnin].
  set (path := inbox_file (add_atm_home_dir request) (add_team request) (add_member_name request)).
  assert (exists b aw1, ensure_inbox_exists path aw = (Ok b, aw1) /\ aw_roster aw1 = aw_roster aw) as (b & aw1 & Hbox & Hsame).
  { unfold ensure_inbox_exists. rewrite Hcr. case_bool_decide; eauto. }
  destruct (add_member_unfold request aw b aw1 Habs (mo_team _ Hok) (mo_agent _ Hok) Hbox Hsame)
    as (aw2 & Haw2 & ->). fold state existing new.
  set (rw2 := mkRosterWorld (tick (rw_world (aw_roster aw))) state) in *.
  assert (view_ok rw2) as Hv2 by exact Hv.
  destruct (preflight_run rw2 Hv2 new Hnin aw2 Haw2) as [Hpre Hiff].
  assert ((forall t m, m ∈ Mirror.load_team_roster state t ->
          un_unique_name (from_member m) <> un_unique_name (from_member new)) <-> ~ name_taken rw2 new) as Htaken.
  { unfold name_taken. cbn [rw_mirror rw2]. split.
    - intros H (t & m & Hm & E). by apply (H t m).
    - intros H t m Hm E. apply H. eauto. }
  change (Mirror.load_team_roster (rw_mirror rw2) (rm_team_name new)) with existing in Hpre, Hiff.
  destruct Hpre as [Hpre|[e Hpre]].
  2:{ rewrite (run_admin_bind_err _ _ _ _ _ Hpre). split; [|split; [by rewrite Haw2|by rewrite Haw2]].
      split; [by intros [? ?]|]. intros (_ & _ & _ & Hfree). apply Htaken, Hiff in Hfree. congruence. }
  rewrite (run_admin_bind _ _ _ _ _ Hpre). pose proof (proj1 Hiff Hpre) as Hfree.
  destruct (admin_replace_roster (add_team request) (existing ++ [new]) aw2) as [r aw3] eqn:Hrep.
  destruct (replaces_exactly rw2 Hv2 Hclean new Hok Hcf Hnin Hfree aw2 r aw3 Haw2 Hrep) as (Hr & Hv3 & Hload).
  change (Mirror.load_team_roster (rw_mirror rw2) (rm_team_name new)) with existing in Hr, Hload.
  unfold mbind, Admin_bind, st_mbind, st_bind. rewrite Hrep.
  destruct r as [[]|e|]; (split; [|split; [exact Hv3|exact Hload]]).
  - split; [|by eexists]. intros _. split; [done|]. split; [done|]. split; [by apply Hr|by apply Htaken].
  - split; [by intros [? ?]|]. by intros (_ & _ & ?%Hr & _).
  - split; [by intros [? ?]|]. by intros (_ & _ & ?%Hr & _).
Qed.

(** Only members of the team change it.  An update or a removal that succeeds
    was asked for by a member of the team, under its name or its alias, for the
    caller's own team; it names a member of the team; the other members of the team
    stay as they were and the other teams are untouched; a removed member is gone. *)
Theorem member_mutations_by_members :
  (forall request aw name aw',
     update_member_with_roster_store request aw = (Ok name, aw') ->
     let existing := Mirror.load_team_roster (rw_mirror (aw_roster aw)) (upd_team request) in
     upd_caller_team request = upd_team request
     /\ resolve_roster_alias (upd_caller_identity request) (upd_team request) existing
        ∈ (rm_agent_name <$> existing)
     /\ name = resolve_roster_alias (upd_member request) (upd_team request) existing
     /\ name ∈ (rm_agent_name <$> existing) /\ name <> DAEMON_ACTOR_NAME
     /\ forall t, Mirror.load_team_roster (rw_mirror (aw_roster aw')) t
          = if bool_decide (t = upd_team request)
            then replace_member name (apply_member_metadata_update request) existing
            else Mirror.load_team_roster (rw_mirror (aw_roster aw)) t)
  /\ (forall request aw name aw',
     remove_member_with_roster_store request aw = (Ok name, aw') ->
     let existing := Mirror.load_team_roster (rw_mirror (aw_roster aw)) (rem_team request) in
     rem_caller_team request = rem_team request
     /\ resolve_roster_alias (rem_caller_identity request) (rem_team request) existing
        ∈ (rm_agent_name <$> existing)
     /\ name = resolve_roster_alias (rem_member request) (rem_team request) existing
     /\ name ∈ (rm_agent_name <$> existing)
     /\ forall t, Mirror.load_team_roster (rw_mirror (aw_roster aw')) t
          = if bool_decide (t = rem_team request)
            then List.filter (fun m => negb (String.eqb (rm_agent_name m) name)) existing
            else Mirror.load_team_roster (rw_mirror (aw_roster aw)) t).
Proof.
  split; intros request aw name aw' H existing.
  - unfold update_member_with_roster_store in H.
    rewrite (run_admin_bind _ _ _ _ _ (run_admin_load (upd_team request) aw)) in H.
    fold existing in H. cbn [canonicalize_member_mutation_aliases] in H.
    apply run_admin_ok_inv in H as ([] & aw1 & Hc & H).
    apply caller_is_member in Hc as (Hteam & Hcaller & ->). fold existing in Hcaller.
    apply run_admin_ok_inv in H as ([] & aw1 & [= Hname <-] & H).
    set (member := resolve_roster_alias (upd_member request) (upd_team request) existing) in *.
    destruct (List.find _ existing) as [m|] eqn:F; [|done].
    apply run_admin_ok_inv in H as ([] & aw1 & [= _ <-] & H).
    apply run_admin_ok_inv in H as ([] & aw1 & Hp & H). apply preflight_keeps in Hp as ->.
    apply run_admin_ok_inv in H as ([] & aw2 & Hr & [= <- <-]).
    apply replace_ok in Hr as (_ & Hmir & _).
    split; [done|]. split; [by rewrite <- Hteam|]. split; [done|]. split; [|split].
    + apply find_some in F as [Hin E%String.eqb_eq]. rewrite <- E. apply list_elem_of_fmap_2. by apply list_elem_of_In.
    + unfold ensure_member_name_available in Hname. by destruct (String.eqb_spec member DAEMON_ACTOR_NAME).
    + intros t. rewrite Hmir. apply load_replaced.
  - unfold remove_member_with_roster_store in H.
    rewrite (run_admin_bind _ _ _ _ _ (run_admin_load (rem_team request) aw)) in H. fold existing in H. cbv zeta in H.
    apply run_admin_ok_inv in H as ([] & aw1 & Hc & H).
    apply caller_is_member in Hc as (Hteam & Hcaller & ->). fold existing in Hcaller.
    apply run_admin_ok_inv in H as ([] & aw1 & [= Hname <-] & H).
    set (member := resolve_roster_alias (rem_member request) (rem_team request) existing) in *.
    apply run_admin_ok_inv in H as ([] & aw2 & Hr & [= <- <-]).
    apply replace_ok in Hr as (_ & Hmir & _).
    split; [done|]. split; [by rewrite <- Hteam|]. split; [done|]. split.
    + apply is_member_iff. unfold ensure_member_present in Hname. by destruct (is_member existing member).
    + intros t. rewrite Hmir. apply load_replaced.
Qed.

(** C32: A stale view drops members.  An addition writes back the roster its own
    process has in memory: a member that another process has added to the team in
    the database since, and that the memory does not know, is deleted by an addition
    that succeeds. *)
Theorem stale_view_drops_members request aw outcome aw' a row :
  add_member_with_roster_store request aw = (Ok outcome, aw') ->
  team_roster (db (rw_world (aw_roster aw))) !! (add_team request, a) = Some row ->
  a ∉ rm_agent_name <$> Mirror.load_team_roster (rw_mirror (aw_roster aw)) (add_team request) ->
  a <> add_member_name request ->
  team_roster (db (rw_world (aw_roster aw'))) !! (add_team request, a) = None.
Proof.
  intros H Hrow Hstale Hne. unfold add_member_with_roster_store in H.
  rewrite (run_admin_bind _ _ _ _ _ (run_admin_load (add_team request) aw)) in H.
  apply run_admin_ok_inv in H as ([] & aw1 & [= _ <-] & H).
  apply run_admin_ok_inv in H as (path & aw1 & [= _ <-] & H).
  apply run_admin_ok_inv in H as (created & aw1 & _ & H).
  apply run_admin_ok_inv in H as (at_ & aw2 & _ & H). cbv zeta in H.
  apply run_admin_ok_inv in H as ([] & aw3 & _ & H).
  apply run_admin_ok_inv in H as ([] & aw4 & Hr & [= _ <-]).
  apply replace_ok in Hr as (Hs & _ & _). apply save_roster_ok in Hs as (_ & _ & _ & Hn & Hdb).
  rewrite Hdb. cbn [set_team_roster team_roster]. rewrite (replaced_lookup _ _ _ _ _ _ Hn). cbn [rs_team_name].
  rewrite bool_decide_eq_true_2 by done. destruct (List.find _ _) as [m|] eqn:F; [|done].
  apply (find_member _ _ _ Hn) in F as [Hin Ha]. cbn [rs_members] in Hin.
  apply elem_of_app in Hin as [Hin| ->%list_elem_of_singleton].
  - destruct Hstale. rewrite <- Ha. by apply list_elem_of_fmap_2.
  - cbn in Ha. congruence.
Qed.

(** The name under which Herdr knows a member, if any. *)
Definition herdr_target (m : RosterMember) : option HerdrAgentName :=
  match local_message_received_backend m with
  | Some (Backend_Herdr _ agent) => resolve_herdr_agent_target (rm_agent_name m) agent
  | _ => None
  end.

(** The request that only clears the alias. *)
Definition clear_alias_request (caller : AgentName) (team : TeamName) (member : AgentName)
    : UpdateMemberRequest :=
  mkUpdateMemberRequest caller team team member None None None None None None None (Some None)
    None None None.

(** C31: Clearing an alias can lose the Herdr target.  For a Herdr member whose
    own name is no Herdr name and whose alias is, an update that clears the alias
    passes the check of the effective Herdr name, because the check falls back to
    the alias that is being cleared; afterwards Herdr has no name for the member. *)
Theorem clearing_alias_loses_herdr_target caller team m alias :
  rm_recipient_pane_id m = None ->
  object_get "backendType" (rm_metadata_json m) = Some (Value_String "herdr") ->
  object_get "alias" (rm_metadata_json m) = Some (Value_String alias) ->
  NoDup (rm_metadata_json m).*1 ->
  herdr_agent_name_new alias = Ok alias ->
  (forall a, herdr_agent_name_new (rm_agent_name m) <> Ok a) ->
  let request := clear_alias_request caller team (rm_agent_name m) in
  validate_effective_herdr_agent_name m request = Ok tt
  /\ herdr_target m = Some alias
  /\ herdr_target (apply_member_metadata_update request m) = None.
Proof.
  intros Hp Hb Ha Hn Hok Hbad request.
  assert (metadata_str (rm_metadata_json m) "backendType" = Some "herdr") as Hb'
    by (unfold metadata_str; by rewrite Hb).
  assert (metadata_str (rm_metadata_json m) "alias" = Some alias) as Ha'
    by (unfold metadata_str; by rewrite Ha).
  split; [|split].
  - unfold validate_effective_herdr_agent_name. cbn [upd_local_backend request clear_alias_request upd_alias mjoin].
    rewrite Hb', Ha'. cbn. by rewrite Hok.
  - unfold herdr_target, local_message_received_backend. rewrite Hp, Hb', Ha'. cbn [mbind option_bind].
    rewrite bool_decide_eq_true_2 by done. by rewrite Hok.
  - unfold herdr_target. cbn [apply_member_metadata_update update_member_local_backend request clear_alias_request
      upd_local_backend upd_tmux_pane_id upd_home_dir upd_workspace_root upd_host upd_alias upd_max_tasks insert_some].
    unfold local_message_received_backend. cbn [rm_recipient_pane_id rm_metadata_json rm_agent_name]. rewrite Hp.
    unfold metadata_str. rewrite object_get_removed_ne by done. rewrite Hb.
    rewrite bool_decide_eq_true_2 by done. rewrite (object_get_removed "alias") by done. cbn [mbind option_bind].
    unfold resolve_herdr_agent_target. destruct (herdr_agent_name_new (rm_agent_name m)) as [x|e|] eqn:E; [|done..].
    by destruct (Hbad x).
Qed.
End Claims.

(** ** On the concrete rosters *)

Lemma demo_clean : aliases_clean (rw_mirror demo_view).
Proof.
  intros team m Hm. destruct (view_member _ _ _ demo_view_ok Hm) as (row & Hr & Hb & _).
  apply build_inv in Hb as (_ & _ & Hj & _).
  assert (row = demo_row "ops" \/ row = demo_row "bobby" \/ row = demo_row "{}") as Hrow.
  { change (db (rw_world demo_view)) with roster_db in Hr. cbn [roster_db team_roster] in Hr.
    apply lookup_insert_Some in Hr as [[_ <-]|[_ Hr]]; [auto|].
    apply lookup_insert_Some in Hr as [[_ <-]|[_ Hr]]; [auto|].
    apply lookup_singleton_Some in Hr as [_ <-]. auto. }
  unfold alias_clean. clear Hm Hr. destruct Hrow as [->|[-> | ->]]; cbn in Hj; injection Hj as <-; done.
Qed.

Lemma add_member_exact_witness :
  (exists outcome, (add_member_with_roster_store dave_request demo_admin).1 = Ok outcome)
  /\ Mirror.load_team_roster
       (rw_mirror (aw_roster (add_member_with_roster_store dave_request demo_admin).2)) "alpha"
     = Mirror.load_team_roster (rw_mirror demo_view) "alpha" ++ [dave].
Proof.
  pose proof (add_member_exact dave_request demo_admin (fun _ => eq_refl) (fun _ => eq_refl) demo_view_ok
    demo_clean dave_ok) as H.
  assert (exists outcome, (add_member_with_roster_store dave_request demo_admin).1 = Ok outcome) as Hok.
  { exists (mkAddMemberOutcome "alpha" "dave" true []). vm_compute. reflexivity. }
  revert H Hok. destruct (add_member_with_roster_store dave_request demo_admin) as [result aw'].
  cbn [fst snd]. intros (_ & _ & Hload) Hok. split; [exact Hok|]. destruct Hok as [outcome ->].
  rewrite (Hload "alpha"). reflexivity.
Defined.

Definition remove_bob : RemoveMemberRequest := mkRemoveMemberRequest "ops" "alpha" "alpha" "bobby".

Lemma member_mutations_by_members_witness :
  exists aw', remove_member_with_roster_store remove_bob demo_admin = (Ok "Bob", aw')
    /\ forall t, Mirror.load_team_roster (rw_mirror (aw_roster aw')) t
         = if bool_decide (t = "alpha")
           then List.filter (fun m => negb (String.eqb (rm_agent_name m) "Bob"))
                  (Mirror.load_team_roster (rw_mirror demo_view) "alpha")
           else Mirror.load_team_roster (rw_mirror demo_view) t.
Proof.
  assert ((remove_member_with_roster_store remove_bob demo_admin).1 = Ok "Bob") as H1 by (vm_compute; reflexivity).
  destruct (remove_member_with_roster_store remove_bob demo_admin) as [r aw'] eqn:E. cbn [fst] in H1. subst r.
  exists aw'. split; [reflexivity|].
  exact (proj2 (proj2 (proj2 (proj2 (proj2 member_mutations_by_members remove_bob demo_admin "Bob" aw' E))))).
Defined.

(** [erin] joins [beta] in another process; this one still has the old roster. *)
Definition stale_admin : AdminWorld :=
  mkAdminWorld
    (mkRosterWorld
       (mkWorld (set_team_roster (<[("alpha", "erin") := demo_row "{}"]> (team_roster roster_db)) roster_db) 0)
       (rw_mirror demo_view)) ∅.

Lemma stale_view_drops_members_witness :
  team_roster (db (rw_world (aw_roster (add_member_with_roster_store dave_request stale_admin).2)))
    !! ("alpha", "erin") = None.
Proof.
  assert ((add_member_with_roster_store dave_request stale_admin).1
          = Ok (mkAddMemberOutcome "alpha" "dave" true [])) as H1 by (vm_compute; reflexivity).
  destruct (add_member_with_roster_store dave_request stale_admin) as [r aw'] eqn:E. cbn [fst snd] in *. subst r.
  apply (stale_view_drops_members dave_request stale_admin _ aw' "erin" (demo_row "{}") E).
  - vm_compute. reflexivity.
  - apply (bool_decide_eq_true_1 (_ ∉ _)). vm_compute. reflexivity.
  - discriminate.
Defined.

Lemma clearing_alias_loses_herdr_target_witness :
  herdr_target bob = Some "bobby"
  /\ herdr_target (apply_member_metadata_update (clear_alias_request "alice" "alpha" "Bob") bob) = None.
Proof.
  destruct (clearing_alias_loses_herdr_target "alice" "alpha" bob "bobby") as (_ & H1 & H2);
    [reflexivity..| | | |].
  - apply (bool_decide_eq_true_1 (NoDup _)). vm_compute. reflexivity.
  - reflexivity.
  - intros a H. discriminate H.
  - split; [exact H1|exact H2].
Defined.
