(* ===== verification/NudgeTemplate.v ===== *)
(** * Nudge templates

    Models the texts that wake an agent: the override rows of
    [crates/atm-storage/src/contract.rs] with the parser of template kinds in [validation.rs],
    the post-send event and its template kind of
    [crates/atm-core/src/boundary/mod.rs], the default templates and the renderer
    of [crates/atm-core/src/send/nudge_template.rs], the store of overrides of
    [crates/atm-storage-rusqlite/src/nudge_template_override_store.rs], and the
    commands on them of [crates/atm-core/src/team_admin.rs].

    A [BTreeMap] of values is the list of its entries.  The renderer recurs on the
    length of the text it has left. *)

From S2P Require Import Prelude ErrorCodes Types Address TaskState CronTypes Database Selection Roster.
From S2P Require Import MemberMutation.
From Equations Require Import Equations.
From stdpp Require Import base gmap strings list numbers pretty.
From Stdlib Require Import Ascii.

(** ** Kinds and overrides *)

Definition RETIRED_TEMPLATE_KINDS : list string :=
  ["task"; "acknowledge_task"; "delivery_task"; "delivery_task_ack"].

Definition parse_built_in_template_kind (value : string)
    : Outcome AtmError BuiltInNudgeTemplateKind :=
  match match_str value
    [ ("delivery", Kind_Delivery); ("delivery_ack", Kind_DeliveryAck);
      ("queue", Kind_Queue); ("queue_ack", Kind_QueueAck);
      ("acknowledge", Kind_Acknowledge); ("task_queued", Kind_TaskQueued);
      ("task_ready", Kind_TaskReady); ("task_reminder", Kind_TaskReminder);
      ("task_started", Kind_TaskStarted); ("task_complete", Kind_TaskComplete);
      ("task_closed", Kind_TaskClosed); ("cron", Kind_Cron) ] with
  | Some kind => Ok kind
  | None =>
    if mem_string value RETIRED_TEMPLATE_KINDS
    then Err (validation ("template kind `" +:+ value +:+ "` was retired; use one of task_queued, task_ready, task_reminder, task_started, task_complete, task_closed"))
    else Err (validation ("unsupported built-in nudge template kind `" +:+ value +:+ "`"))
  end.

Inductive TeamNudgeTemplateOverrideMode : Set :=
| Mode_Override (template_body : string)
| Mode_Disabled.

Record TeamNudgeTemplateOverrideRow : Set := mkOverrideRow {
  or_team_name : TeamName;
  or_kind : BuiltInNudgeTemplateKind;
  or_mode : TeamNudgeTemplateOverrideMode;
  or_updated_at : IsoTimestamp
}.

Definition template_body (row : TeamNudgeTemplateOverrideRow) : option string :=
  match or_mode row with Mode_Override body => Some body | Mode_Disabled => None end.

(** ** Events *)

Inductive NudgeKind : Set := Nudge_Steer | Nudge_Queue.

#[export] Instance NudgeKind_eq_dec : EqDecision NudgeKind.
Proof. solve_decision. Defined.

Inductive TaskClosedOutcome : Set := Closed_Cancelled | Closed_Reassigned.

Inductive TaskTransition : Set :=
| Transition_Queued (position : Z)
| Transition_Ready
| Transition_Reminder (attempt : Z)
| Transition_Started
| Transition_Complete (outcome : TaskCloseOutcome)
| Transition_Closed (outcome : TaskClosedOutcome).

Record PostSendHookEvent : Set := mkPostSendHookEvent {
  pse_sender : AgentName;
  pse_sender_chat_id : option ChatId;
  pse_sender_team : TeamName;
  pse_sender_host : option HostName;
  pse_recipient : AgentName;
  pse_recipient_team : TeamName;
  pse_message_id : AtmMessageId;
  pse_description : string;
  pse_requires_ack : bool;
  pse_is_ack : bool;
  pse_task_id : option TaskId;
  pse_task_transition : option TaskTransition;
  pse_recipient_pane_id : option string
}.

(** [AgentAddress::new] refuses a host without a team only: the [expect] of the
    source cannot fail. *)
Definition source_address (event : PostSendHookEvent) : AgentAddress :=
  mkAgentAddress (pse_sender event) (pse_sender_chat_id event) (Some (pse_sender_team event))
    (pse_sender_host event).

Definition built_in_nudge_template_kind_from_post_send_event (event : PostSendHookEvent)
    (delivery_kind : NudgeKind) : BuiltInNudgeTemplateKind :=
  if pse_is_ack event then Kind_Acknowledge
  else match pse_task_transition event with
       | Some (Transition_Queued _) => Kind_TaskQueued
       | Some Transition_Ready => Kind_TaskReady
       | Some (Transition_Reminder _) => Kind_TaskReminder
       | Some Transition_Started => Kind_TaskStarted
       | Some (Transition_Complete _) => Kind_TaskComplete
       | Some (Transition_Closed _) => Kind_TaskClosed
       | None =>
         match pse_requires_ack event, delivery_kind with
         | false, Nudge_Steer => Kind_Delivery
         | true, Nudge_Steer => Kind_DeliveryAck
         | false, Nudge_Queue => Kind_Queue
         | true, Nudge_Queue => Kind_QueueAck
         end
       end.

Record ResolvedBuiltInNudgeTemplate : Set := mkResolvedTemplate {
  rt_kind : BuiltInNudgeTemplateKind;
  rt_body : option string
}.

(** ** Default templates *)

(** The attribute quotes of a template, written as apostrophes below. *)
Fixpoint quoted (s : string) : string :=
  match s with
  | "" => ""
  | String c rest => String (if Ascii.eqb c "'" then "034"%char else c) (quoted rest)
  end.

Definition default_template (kind : BuiltInNudgeTemplateKind) : string :=
  quoted match kind with
  | Kind_Delivery => "<atm from='{{from}}' message-id='{{message_id}}'>
  <action>atm read --message-id {{message_id}}</action>
  <description>{{description}}</description>
  <action>execute the assigned task</action>
  <when idle='immediate' busy='after-current-task'/>
  <console announce='concise' pause='false'/>
</atm>"
  | Kind_DeliveryAck => "<atm from='{{from}}' message-id='{{message_id}}'>
  <action>atm read --message-id {{message_id}}</action>
  <action>ack the message</action>
  <description>{{description}}</description>
  <action>execute the assigned task</action>
  <when idle='immediate' busy='after-current-task'/>
  <console announce='concise' pause='false'/>
</atm>"
  | Kind_Queue => "<atm from='{{from}}' message-id='{{message_id}}'>
  <action>atm read --message-id {{message_id}}</action>
  <description>{{description}}</description>
  <action>execute the assigned task</action>
  <console announce='concise' pause='false'/>
</atm>"
  | Kind_QueueAck => "<atm from='{{from}}' message-id='{{message_id}}'>
  <action>atm read --message-id {{message_id}}</action>
  <action>ack the message</action>
  <description>{{description}}</description>
  <action>execute the assigned task</action>
  <console announce='concise' pause='false'/>
</atm>"
  | Kind_Acknowledge => "<atm kind='ack' from='{{from}}' message-id='{{message_id}}'/>"
  | Kind_TaskQueued =>
    "<atm task='{{task_id}}' queued='{{position}}' message='{{message_id}}' from='{{from}}'/>"
  | Kind_TaskReady =>
    "<atm task='{{task_id}}' open='{{open_tasks}}' ready message='{{message_id}}' from='{{from}}'>
  <action>atm read --message-id {{message_id}}</action>
  <action>atm task start {{task_id}}</action>
  <action>execute the assigned task</action>
  <console announce='concise' pause='false'/>
</atm>"
  | Kind_TaskReminder =>
    "<atm task='{{task_id}}' open='{{open_tasks}}' reminder='{{attempt}}' message='{{message_id}}' from='{{from}}'>
  <action>atm read --message-id {{message_id}}</action>
  <action>atm task start {{task_id}}</action>
  <action>execute the assigned task</action>
  <console announce='concise' pause='false'/>
</atm>"
  | Kind_TaskStarted =>
    "<atm task='{{task_id}}' started agent='{{assignee}}' message='{{message_id}}'/>"
  | Kind_TaskComplete =>
    "<atm task='{{task_id}}' complete agent='{{assignee}}' outcome='{{outcome}}' message='{{message_id}}'/>"
  | Kind_TaskClosed =>
    "<atm task='{{task_id}}' closed by='{{from}}' outcome='{{outcome}}' message='{{message_id}}'/>"
  | Kind_Cron => "<atm cron name='{{name}}' event='{{event}}' {{detail_attribute}}>"
  end.

Definition resolve_template (override_row : option TeamNudgeTemplateOverrideRow)
    (kind : BuiltInNudgeTemplateKind) : ResolvedBuiltInNudgeTemplate :=
  mkResolvedTemplate kind
    match override_row with
    | Some row => template_body row
    | None => Some (default_template kind)
    end.

(** ** Rendering *)

(** [str::contains]. *)
Definition contains_text (pattern s : string) : bool := bool_decide (is_Some (split_once pattern s)).

Lemma after_shorter pattern s before after :
  pattern <> "" -> split_once pattern s = Some (before, after) ->
  (String.length after < String.length s)%nat.
Proof.
  intros Hp. revert before after. induction s as [|c s IH]; intros before after.
  - cbn. destruct pattern; [done|]. done.
  - cbn [split_once]. destruct (String.prefix pattern (String c s)) eqn:E.
    + intros [= <- <-]. destruct pattern as [|d p]; [done|].
      assert (forall n m t, (String.length (String.substring n m t) <= m)%nat) as Hsub.
      { clear. induction n as [|n IH]; intros m t.
        - revert t. induction m as [|m IHm]; intros [|c t]; cbn; try lia. specialize (IHm t). lia.
        - destruct t; cbn; [lia|apply IH]. }
      apply (Nat.le_lt_trans _ _ _ (Hsub _ _ _)). cbn [String.length]. lia.
    + destruct (split_once pattern s) as [[b a]|] eqn:Es; [|done]. intros [= <- <-].
      specialize (IH _ _ eq_refl). cbn. lia.
Qed.

Definition inspect {A} (a : A) : { b : A | a = b } := exist _ a eq_refl.

(** The loop over the placeholders that are left. *)
Equations? render_loop (values : list (string * string)) (rest : string) : Outcome AtmError string
  by wf (String.length rest) lt :=
render_loop values rest with inspect (split_once "{{" rest) := {
  | exist _ None _ => Ok rest
  | exist _ (Some (before, after_start)) He with inspect (split_once "}}" after_start) := {
    | exist _ None _ => Err (validation "unterminated built-in nudge placeholder")
    | exist _ (Some (name, rest')) He' =>
      match object_get (trim name) values with
      | None => Err (validation ("unsupported built-in nudge placeholder `{{" +:+ trim name
                                 +:+ "}}`"))
      | Some value =>
        output ← render_loop values rest';
        Ok (before +:+ value +:+ output)
      end } }.
Proof.
  apply after_shorter in He; [|done]. apply after_shorter in He'; [|done]. lia.
Defined.

Definition render_template (template : string) (values : list (string * string))
    : Outcome AtmError string :=
  if contains_text "{%" template || contains_text "%}" template
  then Err (validation "built-in nudge templates do not support Jinja or conditional blocks")
  else render_loop values template.

Definition qualified_sender_identity (event : PostSendHookEvent) : string :=
  agent_address_to_string (source_address event).

Definition closed_outcome_text (outcome : TaskClosedOutcome) : string :=
  match outcome with Closed_Cancelled => "cancelled" | Closed_Reassigned => "reassigned" end.

Section Values.
Context {rt : Runtime}.

Definition render_values (event : PostSendHookEvent) (open_tasks : list TaskId)
    : list (string * string) :=
  let '(position, attempt, outcome) :=
    match pse_task_transition event with
    | Some (Transition_Queued position) => (pretty position, "", "")
    | Some (Transition_Reminder attempt) => ("", pretty attempt, "")
    | Some (Transition_Complete outcome) => ("", "", TaskCloseOutcome_as_str outcome)
    | Some (Transition_Closed outcome) => ("", "", closed_outcome_text outcome)
    | _ => ("", "", "")
    end in
  let sender :=
    if bool_decide (pse_sender_team event = pse_recipient_team event)
       && bool_decide (pse_sender_host event = None)
    then pse_sender event else qualified_sender_identity event in
  [ ("from", sender); ("team", pse_recipient_team event);
    ("message_id", ulid_to_string (pse_message_id event));
    ("description", pse_description event); ("task_id", default "" (pse_task_id event));
    ("open_tasks", Roster.join " " open_tasks); ("position", position); ("attempt", attempt);
    ("assignee", sender); ("outcome", outcome); ("by", sender) ].

Definition render_resolved_built_in_nudge (event : PostSendHookEvent)
    (template : ResolvedBuiltInNudgeTemplate) : Outcome AtmError (option string) :=
  match rt_body template with
  | None => Ok None
  | Some body => text ← render_template body (render_values event []); Ok (Some text)
  end.

Definition render_built_in_nudge (event : PostSendHookEvent) (template_body : string)
    (open_tasks : list TaskId) : Outcome AtmError string :=
  render_template template_body (render_values event open_tasks).
End Values.

(** [escape_xml_attribute], over the UTF-8 bytes of the text: a C1 control is the
    byte 194 and one of 128 to 159. *)
Fixpoint escape_xml_bytes (l : list ascii) : string :=
  match l with
  | [] => ""
  | c :: rest =>
    let n := nat_of_ascii c in
    if Nat.eqb n 38 then "&amp;" +:+ escape_xml_bytes rest
    else if Nat.eqb n 60 then "&lt;" +:+ escape_xml_bytes rest
    else if Nat.eqb n 62 then "&gt;" +:+ escape_xml_bytes rest
    else if Nat.eqb n 34 then "&quot;" +:+ escape_xml_bytes rest
    else if Nat.eqb n 39 then "&apos;" +:+ escape_xml_bytes rest
    else if Nat.ltb n 32 || Nat.eqb n 127 then String " " (escape_xml_bytes rest)
    else
      match rest with
      | c' :: rest' =>
        if Nat.eqb n 194 && byte_between 128 159 (nat_of_ascii c')
        then String " " (escape_xml_bytes rest')
        else String c (escape_xml_bytes rest)
      | [] => String c ""
      end
  end.

Definition escape_xml_attribute (value : string) : string :=
  escape_xml_bytes (String.list_ascii_of_string value).

Definition cron_values (name event detail_attribute : string) : list (string * string) :=
  [ ("name", name); ("event", event); ("detail_attribute", detail_attribute) ].

(** The event of a cron notice and the attribute that details it. *)
Definition lifecycle_detail (event : CronLifecycleEvent) : string * string :=
  match event with
  | LifecycleEvent_Stopped message =>
    ("stopped", quoted "message='" +:+ escape_xml_attribute message +:+ quoted "'")
  | LifecycleEvent_Error failure =>
    ("error", quoted "error='" +:+ escape_xml_attribute (failure_detail failure) +:+ quoted "'")
  end.

Definition render_cron_lifecycle_nudge (template : ResolvedBuiltInNudgeTemplate)
    (name : string) (event : CronLifecycleEvent) : Outcome AtmError (option string) :=
  if bool_decide (rt_kind template = Kind_Cron) then
    match rt_body template with
    | None => Ok None
    | Some body =>
      let '(event, detail_attribute) := lifecycle_detail event in
      text ← render_template body (cron_values (escape_xml_attribute name) event detail_attribute);
      Ok (Some text)
    end
  else Err (validation "cron lifecycle rendering requires the cron template kind").

(** ** Checking an override before it is stored *)

Definition validate_built_in_nudge_template_body (body : string) : Outcome AtmError unit :=
  _ ← render_template body
        [ ("from", ""); ("team", ""); ("message_id", ""); ("description", ""); ("task_id", "");
          ("open_tasks", ""); ("position", ""); ("attempt", ""); ("assignee", ""); ("outcome", "");
          ("by", "") ];
  Ok tt.

Definition validate_cron_nudge_template_body (body : string) : Outcome AtmError unit :=
  _ ← render_template body (cron_values "" "" ""); Ok tt.

(** ** The store of overrides *)

(** One row of [team_nudge_template_overrides]. *)
Record OverrideSqlRow : Set := mkOverrideSqlRow {
  o_mode : string;
  o_template_body : string;
  o_updated_at : IsoTimestamp
}.

(** The table, by team and by the text of the kind. *)
Abbreviation OverrideTable := (gmap (TeamName * string) OverrideSqlRow).

Definition empty_nudge_template_body : AtmError :=
  atm_error_new EmptyNudgeTemplateBody "built-in nudge template body must be non-empty".

Definition override_row_check (row : OverrideSqlRow) : bool :=
  mem_string (o_mode row) ["override"; "disabled"].

Definition normalize_loaded_override_mode (mode body : string)
    : Outcome AtmError TeamNudgeTemplateOverrideMode :=
  if String.eqb mode "override" then
    if String.eqb (trim body) "" then Ok Mode_Disabled else Ok (Mode_Override body)
  else if String.eqb mode "disabled" then Ok Mode_Disabled
  else Err (validation ("failed to parse team_nudge_template_overrides.mode `" +:+ mode +:+ "`")).

Definition load_template_override (table : OverrideTable) (team : TeamName)
    (kind : BuiltInNudgeTemplateKind) : Outcome AtmError (option TeamNudgeTemplateOverrideRow) :=
  match table !! (team, BuiltInNudgeTemplateKind_as_str kind) with
  | None => Ok None
  | Some row =>
    mode ← normalize_loaded_override_mode (o_mode row) (o_template_body row);
    Ok (Some (mkOverrideRow team kind mode (o_updated_at row)))
  end.

(** The rows of a team, ordered by the text of their kind. *)
Definition team_overrides (table : OverrideTable) (team : TeamName)
    : list ((TeamName * string) * OverrideSqlRow) :=
  sort_by (fun a b => String.compare a.1.2 b.1.2)
    (List.filter (fun e : (TeamName * string) * OverrideSqlRow => String.eqb e.1.1 team)
       (map_to_list table)).

(** A kind this build no longer knows is passed over. *)
Fixpoint parse_overrides (team : TeamName) (rows : list ((TeamName * string) * OverrideSqlRow))
    : Outcome AtmError (list TeamNudgeTemplateOverrideRow) :=
  match rows with
  | [] => Ok []
  | (key, row) :: rest =>
    match parse_built_in_template_kind key.2 with
    | Ok kind =>
      mode ← normalize_loaded_override_mode (o_mode row) (o_template_body row);
      overrides ← parse_overrides team rest;
      Ok (mkOverrideRow team kind mode (o_updated_at row) :: overrides)
    | _ => parse_overrides team rest
    end
  end.

Definition list_template_overrides (table : OverrideTable) (team : TeamName)
    : Outcome AtmError (list TeamNudgeTemplateOverrideRow) :=
  parse_overrides team (team_overrides table team).

Record StaleNudgeTemplateOverrideKind : Set := mkStaleKind {
  stale_kind : string;
  stale_updated_at : IsoTimestamp
}.

Definition unknown_kind (kind : string) : bool :=
  match parse_built_in_template_kind kind with Err _ => true | _ => false end.

Definition list_stale_template_override_kinds (table : OverrideTable) (team : TeamName)
    : list StaleNudgeTemplateOverrideKind :=
  (fun e => mkStaleKind e.1.2 (o_updated_at e.2))
    <$> List.filter (fun e : (TeamName * string) * OverrideSqlRow => unknown_kind e.1.2)
          (team_overrides table team).

Definition save_template_override (table : OverrideTable) (updated_at : IsoTimestamp)
    (team : TeamName) (kind : BuiltInNudgeTemplateKind) (body : string)
    : Outcome AtmError (TeamNudgeTemplateOverrideRow * OverrideTable) :=
  if String.eqb (trim body) "" then Err empty_nudge_template_body
  else Ok (mkOverrideRow team kind (Mode_Override body) updated_at,
           <[(team, BuiltInNudgeTemplateKind_as_str kind) := mkOverrideSqlRow "override" body updated_at]> table).

Definition disable_template_override (table : OverrideTable) (updated_at : IsoTimestamp)
    (team : TeamName) (kind : BuiltInNudgeTemplateKind)
    : Outcome AtmError (TeamNudgeTemplateOverrideRow * OverrideTable) :=
  Ok (mkOverrideRow team kind Mode_Disabled updated_at,
      <[(team, BuiltInNudgeTemplateKind_as_str kind) := mkOverrideSqlRow "disabled" "" updated_at]> table).

Definition clear_template_override (table : OverrideTable) (team : TeamName) (kind : string)
    : bool * OverrideTable :=
  (bool_decide (is_Some (table !! (team, kind))), delete (team, kind) table).

(** ** Commands *)

Definition validate_nudge_template_override_team (caller_team team : TeamName)
    : Outcome AtmError unit :=
  if String.eqb caller_team team then Ok tt
  else Err (validation ("caller team '" +:+ caller_team
              +:+ "' does not match nudge-template target team '" +:+ team +:+ "'")).

Definition validate_nudge_template_body (body : string) : Outcome AtmError unit :=
  if String.eqb (trim body) "" then Err empty_nudge_template_body else Ok tt.

Definition set_nudge_template_override_with_store (table : OverrideTable)
    (updated_at : IsoTimestamp) (caller_team team : TeamName) (kind : BuiltInNudgeTemplateKind)
    (body : string) : Outcome AtmError (TeamNudgeTemplateOverrideRow * OverrideTable) :=
  _ ← validate_nudge_template_override_team caller_team team;
  _ ← validate_nudge_template_body body;
  _ ← (if bool_decide (kind = Kind_Cron) then validate_cron_nudge_template_body body
       else validate_built_in_nudge_template_body body);
  save_template_override table updated_at team kind body.

Definition disable_nudge_template_override_with_store (table : OverrideTable)
    (updated_at : IsoTimestamp) (caller_team team : TeamName) (kind : BuiltInNudgeTemplateKind)
    : Outcome AtmError (TeamNudgeTemplateOverrideRow * OverrideTable) :=
  _ ← validate_nudge_template_override_team caller_team team;
  disable_template_override table updated_at team kind.

Definition clear_nudge_template_override_with_store (table : OverrideTable)
    (caller_team team : TeamName) (kind : string) : Outcome AtmError (bool * OverrideTable) :=
  _ ← validate_nudge_template_override_team caller_team team;
  Ok (clear_template_override table team kind).
