(* ===== verification/CronPlanSpec.v ===== *)
(** * The plan of the cron worker, in closed form

    [plan_step] sorts every slot into one class: stopped, run, skipped or left
    alone; the wake time is the earliest time any slot needs attention. *)

From S2P Require Import Prelude ErrorCodes Types Address TaskState CronTypes Database.
From S2P Require Import CronStore CronTiming CronTimingProps CronEngine CronWorker.
From stdpp Require Import base gmap strings numbers list sorting.
Local Open Scope Z_scope.
Local Open Scope string_scope.
Local Open Scope list_scope.

(** ** Earliest times *)

Lemma earliest_none_r a : earliest a None = a.
Proof. by destruct a. Qed.

Lemma earliest_assoc a b c : earliest a (earliest b c) = earliest (earliest a b) c.
Proof. destruct a, b, c; simpl; f_equal; lia. Qed.

(** [t] comes before the time, if there is one. *)
Definition before (t : IsoTimestamp) (o : option IsoTimestamp) : Prop :=
  match o with Some u => t < u | None => True end.

Lemma before_earliest t a b : before t (earliest a b) <-> before t a /\ before t b.
Proof. destruct a, b; simpl; lia. Qed.

Lemma earliest_is a b t : earliest a b = Some t -> a = Some t \/ b = Some t.
Proof.
  destruct a as [a|], b as [b|]; simpl; [|tauto..]. intros [= <-].
  destruct (Z.min_spec a b) as [[_ ->]|[_ ->]]; auto.
Qed.

Definition earliest_all (l : list (option IsoTimestamp)) : option IsoTimestamp := foldr earliest None l.

Lemma before_all t l : before t (earliest_all l) <-> Forall (before t) l.
Proof.
  induction l as [|a l IH]; [by split|]. change (earliest_all (a :: l)) with (earliest a (earliest_all l)).
  rewrite before_earliest, IH. by rewrite Forall_cons_iff.
Qed.

Lemma earliest_all_in l t : earliest_all l = Some t -> Some t ∈ l.
Proof.
  induction l as [|a l IH]; simpl; [done|]. intros [->|H]%earliest_is; [left|right; auto].
Qed.

(** ** Classes of slots *)

Section Plan.
Context {ce : CronExpr}.

Definition slot_stops (now : IsoTimestamp) (slot : Slot) : bool :=
  stop_due (sched_stop (slot_schedule slot)) now.
Definition slot_due (now : IsoTimestamp) (slot : Slot) : bool :=
  negb (slot_stops now slot) && is_due (slot_next slot) now.
Definition slot_busy (slot : Slot) : bool := bool_decide (is_Some (slot_in_flight slot)).
Definition slot_runs (now : IsoTimestamp) (slot : Slot) : bool := slot_due now slot && negb (slot_busy slot).
Definition slot_skips (now : IsoTimestamp) (slot : Slot) : bool := slot_due now slot && slot_busy slot.

Definition slot_invalid (now : IsoTimestamp) (slot : Slot) : bool :=
  slot_due now slot && (match next_time (slot_schedule slot) now with Err _ => true | _ => false end).

(** The next occurrence once the step is applied. *)
Definition slot_planned (now : IsoTimestamp) (slot : Slot) : option IsoTimestamp :=
  if is_due (slot_next slot) now
  then match next_time (slot_schedule slot) now with Ok next => next | _ => None end
  else slot_next slot.

Definition slot_attention (now : IsoTimestamp) (slot : Slot) : option IsoTimestamp :=
  if slot_stops now slot then None
  else slot_wake (sched_stop (slot_schedule slot)) (slot_planned now slot).

Definition ids_of (P : Slot -> bool) (slots : list Slot) : list CronScheduleId :=
  slot_id <$> filter (fun slot => P slot = true) slots.

Definition planned_step (now : IsoTimestamp) (slots : list Slot) : Step :=
  mkStep (ids_of (slot_runs now) slots) (ids_of (slot_skips now) slots) (ids_of (slot_stops now) slots)
    (ids_of (slot_invalid now) slots) (earliest_all (slot_attention now <$> slots)).

(** The jitter of a schedule is a [u32]. *)
Definition jitter_ok (schedule : CronSchedule) : Prop := 0 <= sched_jitter_s schedule <= u32_max.

Definition step_app (a b : Step) : Step :=
  mkStep (step_run a ++ step_run b) (step_skip_in_flight a ++ step_skip_in_flight b)
    (step_stop_until a ++ step_stop_until b) (step_invalid_next a ++ step_invalid_next b)
    (earliest (step_wake a) (step_wake b)).

Lemma step_app_nil a : step_app a empty_step = a.
Proof. destruct a. unfold step_app. simpl. by rewrite !app_nil_r, earliest_none_r. Qed.

Lemma step_app_assoc a b c : step_app a (step_app b c) = step_app (step_app a b) c.
Proof. unfold step_app. simpl. by rewrite !app_assoc, earliest_assoc. Qed.

Lemma ids_of_cons P slot slots :
  ids_of P (slot :: slots) = (if P slot then [slot_id slot] else []) ++ ids_of P slots.
Proof.
  unfold ids_of. destruct (P slot) eqn:HP; [by rewrite filter_cons_True|by rewrite filter_cons_False by congruence].
Qed.

Lemma elem_of_ids_of P slots id : id ∈ ids_of P slots <-> exists slot, slot ∈ slots /\ slot_id slot = id /\ P slot = true.
Proof.
  unfold ids_of. rewrite list_elem_of_fmap. split.
  - intros (slot & -> & [HP Hs]%list_elem_of_filter). by exists slot.
  - intros (slot & Hs & <- & HP). exists slot. by rewrite list_elem_of_filter.
Qed.

Lemma planned_cons now slot slots :
  planned_step now (slot :: slots) = step_app (planned_step now [slot]) (planned_step now slots).
Proof.
  unfold planned_step, step_app. cbn [step_run step_skip_in_flight step_stop_until step_invalid_next step_wake].
  rewrite !(ids_of_cons _ slot slots), !(ids_of_cons _ slot []). unfold ids_of. simpl.
  by rewrite !app_nil_r, earliest_none_r.
Qed.

Lemma plan_slot_run now step slot :
  jitter_ok (slot_schedule slot) ->
  plan_slot step (slot_view slot) now = Ok (step_app step (planned_step now [slot])).
Proof.
  intros Hj. pose proof (next_time_no_panic (slot_schedule slot) now Hj) as Hn.
  unfold plan_slot, planned_next, step_app, planned_step, slot_view.
  cbn [view_schedule view_next view_in_flight step_run step_skip_in_flight step_stop_until step_invalid_next
       step_wake earliest_all fmap list_fmap foldr].
  rewrite earliest_none_r, !ids_of_cons. unfold slot_attention, slot_runs, slot_skips, slot_invalid, slot_due,
    slot_planned, slot_busy, slot_stops, ids_of, slot_id. cbn [filter list_filter fmap list_fmap].
  revert Hn. generalize (next_time (slot_schedule slot) now), (stop_due (sched_stop (slot_schedule slot)) now),
    (is_due (slot_next slot) now), (slot_wake (sched_stop (slot_schedule slot))), (bool_decide (is_Some (slot_in_flight slot))).
  intros next stops due wake busy Hn.
  destruct stops; simpl; [by rewrite !app_nil_r, earliest_none_r|].
  destruct due; simpl; [|by rewrite !app_nil_r].
  destruct next as [next|e|]; [..|done]; simpl; by rewrite ?app_nil_r.
Qed.

Lemma plan_fold now slots step :
  Forall (fun slot => jitter_ok (slot_schedule slot)) slots ->
  foldl (fun step slot => step ≫= fun step => plan_slot step slot now) (Ok step) (slot_view <$> slots)
  = Ok (step_app step (planned_step now slots)).
Proof.
  revert step. induction slots as [|slot slots IH]; intros step; simpl.
  - intros _. f_equal. unfold planned_step, ids_of. simpl. by rewrite step_app_nil.
  - intros [Hj Hs]%Forall_cons_iff. rewrite plan_slot_run by done. rewrite IH by done.
    by rewrite (planned_cons now slot slots), step_app_assoc.
Qed.

(** The plan classifies every slot. *)
Lemma step_for_run now slots :
  Forall (fun slot => jitter_ok (slot_schedule slot)) slots ->
  step_for slots now = Ok (planned_step now slots).
Proof. intros Hj. unfold step_for, plan_step. by rewrite plan_fold by done. Qed.

(** ** Work *)

Definition slot_idle (now : IsoTimestamp) (slot : Slot) : Prop :=
  slot_stops now slot = false /\ is_due (slot_next slot) now = false.

Lemma ids_of_nil P slots : ids_of P slots = [] <-> Forall (fun slot => P slot = false) slots.
Proof.
  induction slots as [|slot slots IH]; [by split|]. rewrite ids_of_cons, Forall_cons_iff.
  destruct (P slot); simpl; [by split; [|intros [[=] _]]|]. rewrite IH. tauto.
Qed.

(** There is no work exactly when no slot stops and none is due. *)
Lemma no_work now slots :
  has_work (planned_step now slots) = false <-> Forall (slot_idle now) slots.
Proof.
  unfold has_work, planned_step. cbn [step_run step_skip_in_flight step_stop_until].
  rewrite negb_false_iff, !andb_true_iff, !bool_decide_eq_true, !ids_of_nil, !Forall_forall.
  unfold slot_idle, slot_runs, slot_skips, slot_due. split.
  - intros [[Hr Hs] Hk] slot Hin. specialize (Hr slot Hin). specialize (Hs slot Hin). specialize (Hk slot Hin).
    rewrite Hs in *. split; [done|]. destruct (is_due _ now); [|done]. by destruct (slot_busy slot).
  - intros H. split_and!; intros slot Hin; destruct (H slot Hin) as [Hs Hd]; by rewrite ?Hs, ?Hd.
Qed.

(** A slot that needs nothing now next needs attention at its own time. *)
Lemma idle_attention now slot :
  slot_idle now slot ->
  slot_attention now slot = slot_wake (sched_stop (slot_schedule slot)) (slot_next slot).
Proof. intros [Hs Hd]. unfold slot_attention, slot_planned. by rewrite Hs, Hd. Qed.

Lemma idle_iff_before now slot :
  slot_idle now slot <-> before now (slot_wake (sched_stop (slot_schedule slot)) (slot_next slot)).
Proof.
  unfold slot_idle, slot_stops, stop_due, is_due, slot_wake.
  destruct (sched_stop _) as [at_|], (slot_next slot) as [next|]; simpl; rewrite ?bool_decide_eq_false; lia || tauto.
Qed.
End Plan.
