(* ===== verification/CronWorkerSpec.v ===== *)
(** * The cron worker keeps its slots

    The invariant of the worker: one slot per schedule, the running tasks are
    exactly the runs its slots hold, and an idle slot has a next occurrence; and
    what reloading, finishing and applying a step do to the slots. *)

From S2P Require Import Prelude ErrorCodes Types Address TaskState CronTypes Database Transaction.
From S2P Require Import CronStore CronTransition CronTiming CronTimingProps CronEngine CronWorker CronPlanSpec.
From stdpp Require Import base gmap strings numbers list sorting.
Local Open Scope Z_scope.
Local Open Scope string_scope.
Local Open Scope list_scope.

(** ** Computations that return *)

Definition returns {S E A} (c : ST S E A) : Prop := forall s, (c s).1 <> Panic.
Definition total {S E A} (c : ST S E A) : Prop := forall s, exists a s', c s = (Ok a, s').

(** The deliveries return, with a receipt or an error. *)
Class PortsReturn (ports : CronPorts) : Prop := {
  lifecycle_returns : forall i, returns (lifecycle_deliver i);
  mail_returns : forall i p, returns (module_mail_deliver i p)
}.

Section Returns.
Context {rt : Runtime} {crt : CronRuntime} {ports : CronPorts}.

Lemma returns_ret {A} (a : A) : returns (mret a : C A).
Proof. done. Qed.

Lemma returns_bind {A B} (c : C A) (f : A -> C B) :
  returns c -> (forall a, returns (f a)) -> returns (c ≫= f).
Proof.
  intros Hc Hf s. unfold mbind, C_bind, st_mbind, st_bind. specialize (Hc s).
  destruct (c s) as [[a|e|] s']; [apply Hf|done|done].
Qed.

Lemma returns_lift {A} (o : Outcome AtmError A) : o <> Panic -> returns (c_lift o).
Proof. by intros Ho s. Qed.

Lemma returns_clock : returns clock_now.
Proof. done. Qed.

Lemma returns_store {A} context (c : M A) : returns (store_task context c).
Proof. intros s. unfold store_task. by destruct (c _) as [[a|e|] w]. Qed.

Lemma returns_port {A} effect (c : M A) : returns c -> returns (port_call effect c).
Proof.
  intros Hc s. unfold port_call. specialize (Hc (world (others s))). by destruct (c _) as [[a|e|] w].
Qed.

Lemma returns_attempt {A} (c : C A) : returns c -> returns (attempt c).
Proof. intros Hc s. unfold attempt. specialize (Hc s). by destruct (c s) as [[a|e|] s']. Qed.

Lemma returns_iter {A} (f : A -> C unit) l : (forall a, returns (f a)) -> returns (st_iter f l).
Proof.
  intros Hf. induction l as [|a l IH]; [done|]. simpl. apply returns_bind; [apply Hf|done].
Qed.

Lemma total_attempt {A} (c : C A) : returns c -> total (attempt c).
Proof.
  intros Hc s. unfold attempt. specialize (Hc s). destruct (c s) as [[a|e|] s']; [by eauto..|done].
Qed.

Lemma total_bind {A B} (c : C A) (f : A -> C B) : total c -> (forall a, total (f a)) -> total (c ≫= f).
Proof.
  intros Hc Hf s. destruct (Hc s) as (a & s' & Ha). destruct (Hf a s') as (b & s'' & Hb).
  exists b, s''. unfold mbind, C_bind, st_mbind, st_bind. by rewrite Ha.
Qed.

Lemma total_ret {A} (a : A) : total (mret a : C A).
Proof. intros s. by exists a, s. Qed.

Lemma total_lift {A} (o : Outcome AtmError A) a : o = Ok a -> total (c_lift o).
Proof. intros -> s. by exists a, s. Qed.
End Returns.

#[export] Hint Resolve returns_ret returns_bind returns_lift returns_clock returns_store returns_port
  returns_attempt returns_iter total_attempt total_bind total_ret : atm.

Section Record.
Context {rt : Runtime} {crt : CronRuntime} {ports : CronPorts} {pok : PortsReturn ports}.

Lemma returns_deliver schedule i : returns (deliver_and_mark schedule i).
Proof.
  unfold deliver_and_mark. apply returns_bind.
  - unfold deliver_intent. destruct i as [i|i].
    + apply returns_bind; [|by auto with atm]. apply returns_attempt, returns_port, lifecycle_returns.
    + destruct (mail_key i); [by auto with atm|]. destruct (bool_decide _); [by auto with atm|].
      apply returns_bind; [|by auto with atm]. apply returns_attempt, returns_port, mail_returns.
  - intros [[key receipt]|]; [|by auto with atm]. unfold mark_intent_delivered.
    apply returns_bind; by auto with atm.
Qed.

Lemma returns_engine_commit schedule t outputs : returns (engine_commit schedule t outputs).
Proof.
  unfold engine_commit, pending_intents. apply returns_bind; [by auto with atm|intros intents].
  apply returns_bind; [by auto with atm|intros at_].
  apply returns_bind; [by auto with atm|intros [committed|]]; [|by auto with atm].
  apply returns_bind; [|by auto with atm]. apply returns_iter, returns_deliver.
Qed.

(** Outcomes that have a transition. *)
Definition recordable (o : CronRunOutcome) : Prop := exists t, transition_for_record o = Ok t.

(** Recording an outcome always comes back: errors are only logged. *)
Lemma tick_record_total schedule o : recordable o -> total (tick_record schedule o).
Proof.
  intros [t Ht]. unfold tick_record. destruct typed_execution.
  - apply total_bind; [by eapply total_lift|]. intros t'. unfold engine_record.
    apply total_bind; [|by auto with atm]. apply total_bind; [|by auto with atm].
    apply total_attempt, returns_engine_commit.
  - apply total_bind; [intros s; by eexists _, _|]. intros at_.
    apply total_bind; [|by auto with atm]. apply total_attempt, returns_store.
Qed.

Lemma recordable_stopped reason : (exists d, diagnostic reason = Ok d) -> recordable (Run_Stopped reason).
Proof. intros [d Hd]. exists (Transition_Stopped d). unfold recordable. simpl. by rewrite Hd. Qed.

Lemma recordable_exit m : recordable (Run_Exit m).
Proof. by eexists. Qed.

Lemma recordable_exhausted : recordable (Run_Stopped "no future occurrence").
Proof. apply recordable_stopped. by eexists. Qed.

Lemma recordable_until : recordable (Run_Stopped "until reached").
Proof. apply recordable_stopped. by eexists. Qed.

(** On the worker: only the scheduler's state changes. *)
Lemma on_cron_run {A} (c : C A) k : total c -> exists a s, on_cron c k = (Ok a, set_cron_state s k).
Proof.
  intros Hc. unfold on_cron. destruct (Hc (worker_cron k)) as (a & s & ->). eauto.
Qed.

Lemma record_run_worker schedule o k :
  recordable o -> exists s, on_cron (tick_record schedule o) k = (Ok tt, set_cron_state s k).
Proof.
  intros Ho. destruct (on_cron_run _ k (tick_record_total schedule o Ho)) as ([] & s & Hs). eauto.
Qed.
End Record.

(** ** The invariant *)

Definition handles (slots : list Slot) : list nat := omap slot_in_flight slots.

Definition slot_ok (slot : Slot) : Prop :=
  jitter_ok (slot_schedule slot) /\ (slot_in_flight slot = None -> is_Some (slot_next slot)).

Record worker_ok (k : Worker) : Prop := mkWorkerOk {
  ok_ids : NoDup (slot_id <$> worker_slots k);
  ok_runs : worker_running k ≡ₚ handles (worker_slots k);
  ok_nodup : NoDup (worker_running k);
  ok_spawned : Forall (fun run => run < worker_spawned k)%nat (worker_running k);
  ok_slots : Forall slot_ok (worker_slots k)
}.

Lemma worker_ok_cron k s : worker_ok (set_cron_state s k) <-> worker_ok k.
Proof. split; intros [????]; by constructor. Qed.

Lemma jitter_slots slots : Forall slot_ok slots -> Forall (fun slot => jitter_ok (slot_schedule slot)) slots.
Proof. intros H. eapply Forall_impl; [exact H|]. by intros slot []. Qed.

(** *** Aborting *)

Lemma abort_run_run handle k :
  abort_run handle k = (Ok tt, set_running (filter (fun r => Some r <> handle) (worker_running k)) k).
Proof.
  destruct handle as [run|]; simpl; unfold end_run, mret, W_ret, st_ret.
  - do 3 f_equal. apply list_filter_iff. intros r. split; congruence.
  - f_equal. destruct k as [slots retry running spawned s]. unfold set_running. simpl. f_equal.
    induction running as [|r running IH]; [done|]. rewrite filter_cons_True by done. by f_equal.
Qed.

Lemma abort_all_run slots k :
  st_iter (fun slot => abort_run (slot_in_flight slot)) slots k
  = (Ok tt, set_running (filter (fun r => r ∉ handles slots) (worker_running k)) k).
Proof.
  revert k. induction slots as [|slot slots IH]; intros k.
  - simpl. unfold mret, W_ret, st_ret. f_equal. destruct k as [slots retry running spawned s].
    unfold set_running. simpl. f_equal. induction running as [|r running IH']; [done|].
    rewrite filter_cons_True by (unfold handles; simpl; apply not_elem_of_nil). by f_equal.
  - cbn [st_iter]. unfold mbind, st_mbind, st_bind. rewrite abort_run_run, IH. f_equal.
    unfold set_running. simpl. f_equal. rewrite list_filter_filter. apply list_filter_iff.
    intros r. unfold handles. simpl. destruct (slot_in_flight slot) as [run|]; [rewrite elem_of_cons|].
    + split; [intros [Hr Hh] [->|Hr']; [by apply Hh|by apply Hr]|].
      intros H. split; [intros Hr; apply H; by right|]. intros [= ->]. apply H. by left.
    + split; [tauto|]. intros H. by split.
Qed.

Lemma filter_all_in (P : nat -> Prop) `{!forall x, Decision (P x)} l : Forall P l -> filter P l = l.
Proof. induction 1 as [|x l Hx _ IH]; [done|]. rewrite filter_cons_True by done. by rewrite IH. Qed.

Lemma filter_none_in (P : nat -> Prop) `{!forall x, Decision (P x)} l : Forall (fun x => ~ P x) l -> filter P l = [].
Proof. induction 1 as [|x l Hx _ IH]; [done|]. by rewrite filter_cons_False. Qed.

(** Without the runs of [b], those of [a] are left. *)
Lemma filter_perm_left (l : list nat) a b :
  l ≡ₚ a ++ b -> NoDup l -> filter (fun r => r ∉ b) l ≡ₚ a.
Proof.
  intros Hl Hn. rewrite Hl in Hn. apply NoDup_app in Hn as (_ & Hd & _). rewrite Hl, filter_app.
  rewrite filter_all_in by (apply Forall_forall; exact Hd).
  rewrite filter_none_in by (apply Forall_forall; tauto). by rewrite app_nil_r.
Qed.

Lemma filter_handle slot (l : list nat) :
  filter (fun r => Some r <> slot_in_flight slot) l = filter (fun r => r ∉ handles [slot]) l.
Proof.
  apply list_filter_iff. intros r. unfold handles. simpl.
  destruct (slot_in_flight slot) as [run|]; simpl; [rewrite list_elem_of_singleton; split; congruence|].
  split; [intros _; apply not_elem_of_nil|done].
Qed.

Lemma handles_app a b : handles (a ++ b) = handles a ++ handles b.
Proof. apply omap_app. Qed.

#[export] Instance handles_perm : Proper ((≡ₚ) ==> (≡ₚ)) handles.
Proof. intros a b H. unfold handles. by rewrite H. Qed.

(** Some slots leave and their runs are aborted: what is left is well formed. *)
Lemma removed_ok k kept removed :
  worker_ok k -> worker_slots k ≡ₚ kept ++ removed -> 
  worker_ok (set_running (filter (fun r => r ∉ handles removed) (worker_running k)) (set_slots kept k)).
Proof.
  intros [Hids Hruns Hnd Hsp Hok] Hp. assert (Hruns' := Hruns). rewrite Hp, handles_app in Hruns'.
  rewrite Hp, fmap_app in Hids. apply NoDup_app in Hids as (Hids & _ & _).
  rewrite Hp, Forall_app in Hok. destruct Hok as [Hok _]. constructor; simpl; [done| | | |done].
  - by apply filter_perm_left.
  - by apply NoDup_filter.
  - by apply Forall_filter_of.
Qed.

(** Running a sequence on the worker. *)
Lemma w_run_bind {A B} (c : W A) (f : A -> W B) k a k' :
  c k = (Ok a, k') -> (c ≫= f) k = f a k'.
Proof. intros H. unfold mbind, W_bind, st_mbind, st_bind. by rewrite H. Qed.

(** ** Reloading *)

Section Merge.
Context {rt : Runtime} {crt : CronRuntime} {ports : CronPorts} {ce : CronExpr} {pok : PortsReturn ports}.

(** What the loop of [merge] does: [merged rows previous slots left]. *)
Inductive merged : list CronSchedule -> list Slot -> list Slot -> list Slot -> Prop :=
| merged_nil previous : merged [] previous [] previous
| merged_keep row rows before slot after slots left :
    unchanged (slot_schedule slot) row ->
    Forall (fun slot => ~ unchanged (slot_schedule slot) row) before ->
    merged rows (before ++ after) slots left ->
    merged (row :: rows) (before ++ slot :: after) (slot :: slots) left
| merged_new row rows previous next slots left :
    Forall (fun slot => ~ unchanged (slot_schedule slot) row) previous ->
    (exists now, next_time row now = Ok (Some next)) ->
    merged rows previous slots left ->
    merged (row :: rows) previous (mkSlot row (Some next) None :: slots) left
| merged_drop row rows previous slots left :
    Forall (fun slot => ~ unchanged (slot_schedule slot) row) previous ->
    (exists now, forall next, next_time row now <> Ok (Some next)) ->
    merged rows previous slots left ->
    merged (row :: rows) previous slots left.

Lemma merge_rows_run rows previous slots k :
  Forall jitter_ok rows ->
  exists added left s, merge_rows rows previous slots k = (Ok (slots ++ added, left), set_cron_state s k)
    /\ merged rows previous added left.
Proof.
  intros Hj. revert previous slots k. induction Hj as [|row rows Hrow Hj IH]; intros previous slots k.
  { exists [], previous, (worker_cron k). split; [|constructor]. simpl. rewrite app_nil_r. by destruct k. }
  cbn [merge_rows]. destruct (list_find _ previous) as [[index slot]|] eqn:Hfind.
  - apply list_find_Some in Hfind as (Hl & Hu & Hbefore).
    destruct (IH (delete index previous) (slots ++ [slot]) k) as (added & left & s & Hrun & Hm).
    exists (slot :: added), left, s. split; [rewrite Hrun; by rewrite <- app_assoc|].
    pose proof (take_drop_middle _ _ _ Hl) as Hsplit. rewrite <- Hsplit. rewrite delete_take_drop in Hm.
    apply merged_keep; [done| |done]. apply Forall_forall. intros x Hx.
    apply list_elem_of_lookup in Hx as [n Hn]. apply lookup_take_Some in Hn as [Hn Hlt]. by eapply Hbefore.
  - apply list_find_None in Hfind.
    unfold worker_now, on_cron. cbn [clock_now]. erewrite w_run_bind by reflexivity. cbn beta.
    set (now := clock_at _). set (k1 := set_cron_state _ k).
    pose proof (next_time_no_panic row now Hrow) as Hn.
    destruct (next_time row now) as [[next|]|e|] eqn:Hnext; [..|done]; erewrite w_run_bind by reflexivity; cbn beta iota.
    + destruct (IH previous (slots ++ [mkSlot row (Some next) None]) k1) as (added & left & s & Hrun & Hm).
      exists (mkSlot row (Some next) None :: added), left, s. split; [rewrite Hrun; by rewrite <- app_assoc|].
      apply merged_new; eauto.
    + destruct (record_run_worker row (Run_Stopped "no future occurrence") k1 recordable_exhausted) as [s1 Hs1].
      unfold stop_exhausted. erewrite w_run_bind by exact Hs1. cbn beta.
      destruct (IH previous slots (set_cron_state s1 k1)) as (added & left & s & Hrun & Hm).
      exists added, left, s. split; [exact Hrun|]. apply merged_drop; [done| |done]. exists now. by rewrite Hnext.
    + destruct (IH previous slots k1) as (added & left & s & Hrun & Hm).
      exists added, left, s. split; [exact Hrun|]. apply merged_drop; [done| |done]. exists now. by rewrite Hnext.
Qed.

Lemma merged_handles rows previous slots left :
  merged rows previous slots left -> handles previous ≡ₚ handles slots ++ handles left.
Proof.
  induction 1 as [previous|row rows before slot after slots left _ _ _ IH|row rows previous next slots left _ _ _ IH|
    row rows previous slots left _ _ _ IH]; [done| | |done].
  - rewrite <- Permutation_middle. unfold handles in *. simpl. rewrite omap_app in *.
    destruct (slot_in_flight slot); simpl; by rewrite IH.
  - exact IH.
Qed.

(** Each new slot stands for its own row. *)
Lemma merged_ids rows previous slots left :
  merged rows previous slots left -> slot_id <$> slots `sublist_of` sched_id <$> rows.
Proof.
  induction 1 as [previous|row rows before slot after slots left Hu _ _ IH|row rows previous next slots left _ _ _ IH|
    row rows previous slots left _ _ _ IH]; simpl; [done| | |by constructor].
  - unfold slot_id at 1. destruct Hu as [-> _]. by constructor.
  - by constructor.
Qed.

Lemma merged_in rows previous slots left slot :
  merged rows previous slots left -> slot ∈ slots ->
  exists row, row ∈ rows /\ unchanged (slot_schedule slot) row
    /\ (slot ∈ previous \/ (slot = mkSlot row (slot_next slot) None /\ is_Some (slot_next slot))).
Proof.
  induction 1 as [previous|row rows before slot0 after slots left Hu _ _ IH|row rows previous next slots left _ _ _ IH|
    row rows previous slots left _ _ _ IH]; intros Hin; [by apply elem_of_nil in Hin|..].
  - apply elem_of_cons in Hin as [->|Hin]; [exists row; split_and!; [by left|done|left; set_solver]|].
    destruct (IH Hin) as (row' & Hr & Hu' & Hc). exists row'. split_and!; [by right|done|].
    destruct Hc as [Hc|Hc]; [left; set_solver|by right].
  - apply elem_of_cons in Hin as [->|Hin]; [exists row; split_and!; [by left|done|right; by split]|].
    destruct (IH Hin) as (row' & Hr & Hu' & Hc). exists row'. by split_and!; [right| |].
  - destruct (IH Hin) as (row' & Hr & Hu' & Hc). exists row'. by split_and!; [right| |].
Qed.

(** A row that a slot already stands for keeps it, with its time and its run. *)
Lemma merged_kept rows previous slots left row slot :
  merged rows previous slots left -> NoDup (sched_id <$> rows) -> NoDup (slot_id <$> previous) ->
  row ∈ rows -> slot ∈ previous -> unchanged (slot_schedule slot) row -> slot ∈ slots.
Proof.
  induction 1 as [previous|row0 rows before slot0 after slots left Hu0 Hb Hm IH|row0 rows previous next slots left Hp _ Hm IH|
    row0 rows previous slots left Hp _ Hm IH]; intros Hrows Hprev Hrow Hslot Hu; [by apply elem_of_nil in Hrow|..].
  - assert (Hid : slot_id slot = sched_id row) by apply Hu. assert (Hid0 : slot_id slot0 = sched_id row0) by apply Hu0.
    rewrite fmap_app, fmap_cons in Hprev. rewrite fmap_cons in Hrows. apply NoDup_cons in Hrows as [Hnr Hrows].
    apply NoDup_app in Hprev as (Hnb & Hdis & [Hns Hna]%NoDup_cons).
    apply elem_of_cons in Hrow as [->|Hrow].
    + assert (slot = slot0) as ->; [|by left].
      apply elem_of_app in Hslot as [Hslot|Hslot].
      { exfalso. rewrite Forall_forall in Hb. by eapply Hb. }
      apply elem_of_cons in Hslot as [->|Hslot]; [done|]. exfalso. apply Hns. rewrite Hid0, <- Hid.
      by apply (list_elem_of_fmap_2 slot_id).
    + right. apply IH; [done| |done| |done].
      * rewrite fmap_app. apply NoDup_app. split_and!; [done| |done]. intros x Hx1 Hx2. apply (Hdis x Hx1). by right.
      * apply elem_of_app in Hslot as [Hslot|Hslot]; [set_solver|].
        apply elem_of_cons in Hslot as [->|Hslot]; [|set_solver]. exfalso. apply Hnr. rewrite <- Hid0, Hid.
        by apply (list_elem_of_fmap_2 sched_id).
  - rewrite fmap_cons in Hrows. apply NoDup_cons in Hrows as [Hnr Hrows].
    apply elem_of_cons in Hrow as [->|Hrow]; [|right; by apply IH].
    exfalso. rewrite Forall_forall in Hp. by eapply Hp.
  - rewrite fmap_cons in Hrows. apply NoDup_cons in Hrows as [Hnr Hrows].
    apply elem_of_cons in Hrow as [->|Hrow]; [|by apply IH].
    exfalso. rewrite Forall_forall in Hp. by eapply Hp.
Qed.
End Merge.

(** *** The rows of a reload *)

Section Rows.
Context {rt : Runtime} {crt : CronRuntime}.

Lemma decode_cron_fields id r s :
  decode_cron id r = Ok s ->
  sched_id s = id /\ jitter_ok s /\ sched_active s = bool_decide (c_active r = 1).
Proof.
  unfold decode_cron, mbind, outcome_mbind. cbv zeta. intros H.
  repeat match type of H with
  | outcome_bind _ ?o = Ok _ =>
    let E := fresh "E" in destruct o eqn:E; [cbn [outcome_bind] in H|discriminate H..]
  end.
  injection H as <-. simpl. split_and!; [|unfold jitter_ok; simpl|done].
  - destruct (bool_decide (0 <= id)); [by injection E1|discriminate E1].
  - destruct (u32_try_from (c_jitter_s r)) as [j|] eqn:Hj; [|discriminate E5]. injection E5 as <-.
    unfold u32_try_from in Hj. destruct (bool_decide (0 <= c_jitter_s r <= u32_max)) eqn:Hb; [|discriminate Hj].
    injection Hj as <-. by apply bool_decide_eq_true in Hb.
Qed.

(** A query lists each schedule once. *)
Lemma active_all_rows w rows w' :
  active_all w = (Ok rows, w') ->
  NoDup (sched_id <$> rows) /\ Forall jitter_ok rows /\ Forall (fun row => sched_active row = true) rows.
Proof.
  unfold active_all. erewrite run_bind by apply run_get_db. unfold lift, st_lift. intros [= Hl _].
  unfold list_query in Hl. apply read_rows_ok in Hl.
  set (P := cron_listed None None true) in Hl.
  assert (Hp : merge_sort cron_list_le (select_cron P (cron_schedule (cron (db w))))
    ≡ₚ select_cron P (cron_schedule (cron (db w)))) by apply merge_sort_Permutation.
  assert (Hids : sched_id <$> rows = (merge_sort cron_list_le (select_cron P (cron_schedule (cron (db w))))).*1).
  { clear Hp. revert Hl. generalize (merge_sort cron_list_le (select_cron P (cron_schedule (cron (db w))))).
    induction 1 as [|kr s l rows Hd _ IH]; [done|]. rewrite !fmap_cons, IH. f_equal. by apply decode_cron_fields in Hd as [-> _]. }
  split; [|split].
  - rewrite Hids. rewrite Hp. apply select_NoDup.
  - apply Forall_forall. intros s Hs. apply list_elem_of_lookup in Hs as [n Hn].
    destruct (Forall2_lookup_r _ _ _ _ _ Hl Hn) as (kr & _ & Hd). by apply decode_cron_fields in Hd as (_ & Hj & _).
  - apply Forall_forall. intros s Hs. apply list_elem_of_lookup in Hs as [n Hn].
    destruct (Forall2_lookup_r _ _ _ _ _ Hl Hn) as ([id r] & Hkr & Hd). apply decode_cron_fields in Hd as (_ & _ & ->).
    apply list_elem_of_lookup_2 in Hkr. rewrite Hp in Hkr. apply elem_of_select in Hkr as [_ Hc].
    apply bool_decide_eq_true. by destruct Hc as (_ & _ & [|]).
Qed.
End Rows.

Section Reload.
Context {rt : Runtime} {crt : CronRuntime} {ports : CronPorts} {ce : CronExpr} {pok : PortsReturn ports}.

(** The worker after a merge. *)
Definition merged_worker (slots left : list Slot) (s : CronState) (k : Worker) : Worker :=
  set_running (filter (fun r => r ∉ handles left) (worker_running k)) (set_slots slots (set_cron_state s k)).

Lemma merge_run rows k :
  Forall jitter_ok rows ->
  exists slots left s, worker_merge rows k = (Ok tt, merged_worker slots left s k)
    /\ merged (filter (fun row => sched_active row = true) rows) (worker_slots k) slots left.
Proof.
  intros Hj. unfold worker_merge. erewrite w_run_bind by reflexivity. cbn beta.
  destruct (merge_rows_run (filter (fun row => sched_active row = true) rows) (worker_slots k) [] k)
    as (slots & left & s & Hrun & Hm); [by apply Forall_filter_of|].
  exists slots, left, s. split; [|done]. erewrite w_run_bind by exact Hrun. cbn beta iota.
  erewrite w_run_bind by reflexivity. cbn beta. by rewrite abort_all_run.
Qed.

Lemma merged_worker_ok rows k slots left s :
  worker_ok k -> Forall jitter_ok rows -> NoDup (sched_id <$> rows) ->
  merged (filter (fun row => sched_active row = true) rows) (worker_slots k) slots left ->
  worker_ok (merged_worker slots left s k).
Proof.
  intros [Hids Hruns Hnd Hsp Hok] Hj Hrows Hm. constructor; simpl.
  - eapply sublist_NoDup; [|by eapply merged_ids]. eapply sublist_NoDup; [exact Hrows|].
    apply fmap_sublist, sublist_filter.
  - apply filter_perm_left; [|done]. rewrite Hruns. by eapply merged_handles.
  - by apply NoDup_filter.
  - by apply Forall_filter_of.
  - apply Forall_forall. intros slot Hin.
    destruct (merged_in _ _ _ _ _ Hm Hin) as (row & Hrow & Hu & [Hold|[-> Hn]]).
    + rewrite Forall_forall in Hok. by apply Hok.
    + split; [|done]. simpl. apply list_elem_of_filter in Hrow as [_ Hrow]. rewrite Forall_forall in Hj. by apply Hj.
Qed.

(** A reload leaves a well-formed worker, or fails with the backoff. *)
Lemma reload_cases k :
  worker_ok k ->
  (exists rows slots left s, reload_slots k = (Ok tt, set_retry no_retry (merged_worker slots left s k))
     /\ (exists w w', active_all w = (Ok rows, w'))
     /\ merged rows (worker_slots k) slots left
     /\ worker_ok (set_retry no_retry (merged_worker slots left s k)))
  \/ (exists retry now s, reload_slots k = (Ok tt, set_retry retry (set_cron_state s k))
        /\ retry_failed (worker_retry k) now = Ok retry)
  \/ (exists now k', reload_slots k = (Panic, k') /\ retry_failed (worker_retry k) now = Panic).
Proof.
  intros Hok. unfold reload_slots.
  destruct (on_cron_run (attempt (store_call active_all)) k) as (rows & s & Hrun); [apply total_attempt, returns_store|].
  erewrite w_run_bind by exact Hrun. cbn beta.
  assert (Hsrc : forall l, rows = Ok l -> exists w w', active_all w = (Ok l, w')).
  { intros l ->. revert Hrun. unfold on_cron, attempt, store_call, store_task.
    set (w := world (others (worker_cron k))). destruct (active_all w) as [[l'|e|] w'] eqn:Ha; [|done..].
    intros [= -> _]. by exists w, w'. }
  destruct rows as [rows|e|].
  - left. destruct (Hsrc rows eq_refl) as (w & w' & Ha).
    destruct (active_all_rows w rows w' Ha) as (Hnd & Hj & Hact).
    destruct (merge_run rows (set_cron_state s k) Hj) as (slots & left & s' & Hm & Hmerged).
    exists rows, slots, left, s'. erewrite w_run_bind by exact Hm.
    assert (Hfilter : filter (fun row => sched_active row = true) rows = rows).
    { clear -Hact. induction Hact as [|row rows Hr _ IH]; [done|]. rewrite filter_cons_True by done. by rewrite IH. }
    split_and!; [done|by eauto| |].
    + by rewrite Hfilter in Hmerged.
    + destruct (merged_worker_ok rows k slots left s' Hok Hj Hnd Hmerged). by constructor.
  - right. unfold worker_now, on_cron. erewrite w_run_bind by reflexivity. cbn beta.
    unfold mbind, W_bind, st_mbind, st_bind, put_retry. cbn [worker_retry set_cron_state].
    match goal with |- context [retry_failed _ ?now] => set (t := now) end.
    destruct (retry_failed (worker_retry k) t) as [retry|e'|] eqn:Hr; [left; by eexists _, t, _| |right; by eexists t, _].
    exfalso. revert Hr. unfold retry_failed. destruct (retry_delay _) as [d|e''|] eqn:Hd; simpl; [|intros _|done].
    + by destruct (datetime_checked _).
    + revert Hd. unfold retry_delay, duration_seconds. by case_bool_decide.
  - right. revert Hrun. unfold on_cron, attempt. by destruct (store_call _ _) as [[]].
Qed.
End Reload.

(** ** The end of a run *)

Section Finish.
Context {rt : Runtime} {crt : CronRuntime} {ports : CronPorts} {ce : CronExpr} {pok : PortsReturn ports}.

Lemma complete_run schedule result k :
  exists stopped s, complete schedule result k = (Ok stopped, set_cron_state s k)
    /\ (stopped = true <-> exists reason, result = Joined (Run_Stopped reason)).
Proof.
  destruct result as [o|m|].
  - exists (match o with Run_Stopped _ => true | _ => false end), (worker_cron k).
    split; [destruct k; by destruct o|]. destruct o; split; (done || (intros (reason & [=]); done) || by eauto).
  - destruct (record_run_worker schedule (Run_Exit ("hook runner panicked: " +:+ default "non-string panic" m)) k
      (recordable_exit _)) as [s Hs].
    exists false, s. split; [|split; [done|by intros (? & [=])]]. unfold complete. by erewrite w_run_bind by exact Hs.
  - exists false, (worker_cron k). split; [by destruct k|]. split; [done|by intros (? & [=])].
Qed.

(** One slot, whose run has ended, waits for its next occurrence. *)
Lemma waiting_ok k before slot after next s :
  worker_ok k -> worker_slots k = before ++ slot :: after ->
  worker_ok (set_running (filter (fun r => Some r <> slot_in_flight slot) (worker_running k))
    (set_slots (before ++ mkSlot (slot_schedule slot) (Some next) None :: after) (set_cron_state s k))).
Proof.
  intros [Hids Hruns Hnd Hsp Hok] Heq. rewrite Heq in *. constructor; simpl.
  - by rewrite fmap_app in *.
  - rewrite filter_handle.
    apply filter_perm_left; [|done]. rewrite Hruns, !handles_app.
    rewrite <- app_assoc. f_equiv. unfold handles. simpl. destruct (slot_in_flight slot); simpl; [|by rewrite app_nil_r].
    by rewrite Permutation_app_comm.
  - by apply NoDup_filter.
  - by apply Forall_filter_of.
  - rewrite !Forall_app, !Forall_cons in *. destruct Hok as (? & [Hj _] & ?). split_and!; [done| |done].
    split; [exact Hj|]. simpl. eauto.
Qed.

(** A run that ended: its slot leaves, or waits again. *)
Lemma finish_run_ok index slot result k :
  worker_ok k -> worker_slots k !! index = Some slot ->
  exists k', finish_run index result k = (Ok tt, k') /\ worker_ok k' /\ worker_retry k' = worker_retry k
    /\ (worker_slots k' = delete index (worker_slots k)
        \/ exists next now, next_time (slot_schedule slot) now = Ok (Some next)
             /\ worker_slots k' = <[index := mkSlot (slot_schedule slot) (Some next) None]> (worker_slots k)
             /\ forall reason, result <> Joined (Run_Stopped reason)).
Proof.
  intros Hok Hl. pose proof (take_drop_middle _ _ _ Hl) as Hsplit.
  pose proof (length_take_le (worker_slots k) index ltac:(apply lookup_lt_Some in Hl; lia)) as Hlen.
  set (before := take index (worker_slots k)) in *. set (after := drop (S index) (worker_slots k)) in *.
  assert (Hdel : forall x, delete index (before ++ x :: after) = before ++ after)
    by (intros x; rewrite <- Hlen; apply delete_middle).
  assert (Halt : forall f x, alter f index (before ++ x :: after) = before ++ f x :: after).
  { intros f x. rewrite <- Hlen at 1. rewrite <- (Nat.add_0_r (length before)). by rewrite alter_app_r. }
  assert (Hins : forall y x, <[index := y]> (before ++ x :: after) = before ++ y :: after)
    by (intros y x; rewrite <- Hlen; by rewrite insert_app_r_alt, Nat.sub_diag by lia).
  assert (Hleft : forall s, worker_ok (set_running (filter (fun r => Some r <> slot_in_flight slot) (worker_running k))
    (set_slots (before ++ after) (set_cron_state s k)))).
  { intros s. rewrite filter_handle.
    apply (worker_ok_cron (set_running _ (set_slots _ k)) s), (removed_ok k (before ++ after) [slot] Hok).
    rewrite <- Hsplit, <- app_assoc. f_equiv. by rewrite <- Permutation_cons_append. }
  unfold finish_run. erewrite w_run_bind by reflexivity. cbn beta. rewrite Hl.
  erewrite w_run_bind by reflexivity. cbn beta. erewrite w_run_bind by apply abort_run_run. cbn beta.
  erewrite w_run_bind by reflexivity. cbn beta.
  match goal with |- context [(complete _ _ ≫= _) ?k1] => destruct (complete_run (slot_schedule slot) result k1) as (stopped & s & Hc & Hst) end.
  erewrite w_run_bind by exact Hc. cbn beta. rewrite <- Hsplit, Halt in *.
  destruct stopped.
  { eexists. split; [reflexivity|]. simpl. rewrite Hdel. split; [exact (Hleft _)|]. split; [done|by left]. }
  unfold worker_now, on_cron. erewrite w_run_bind by reflexivity. cbn beta.
  match goal with |- context [next_time _ ?now] => set (t := now) end.
  assert (Hj : jitter_ok (slot_schedule slot)).
  { pose proof (ok_slots _ Hok) as Hs. rewrite <- Hsplit, Forall_app, Forall_cons in Hs. apply Hs. }
  pose proof (next_time_no_panic _ t Hj) as Hn.
  destruct (next_time (slot_schedule slot) t) as [[next|]|e|] eqn:Hnext; [..|done].
  - eexists. split; [reflexivity|]. simpl. rewrite Halt.
    split; [exact (waiting_ok k before slot after next _ Hok (eq_sym Hsplit))|]. split; [done|right].
    exists next, t. rewrite Hins. split_and!; [done..|]. intros reason ->. destruct Hst as [_ Hst].
    specialize (Hst ltac:(eauto)). done.
  - erewrite w_run_bind by reflexivity. cbn beta. unfold stop_exhausted.
    match goal with |- context [on_cron _ ?k1] =>
      destruct (record_run_worker (slot_schedule slot) (Run_Stopped "no future occurrence") k1 recordable_exhausted) as [s' Hs'] end.
    rewrite Hs'. eexists. split; [reflexivity|]. simpl. rewrite Hdel. split; [exact (Hleft _)|]. split; [done|by left].
  - eexists. split; [reflexivity|]. simpl. rewrite Hdel. split; [exact (Hleft _)|]. split; [done|by left].
Qed.
End Finish.
