(* ===== verification/CronApplySpec.v ===== *)
(** * Applying a step of the cron worker

    What [apply_step] does to the slots: invalid and stopped ones leave, due
    ones run or are skipped, and nothing that is due is left. *)

From S2P Require Import Prelude ErrorCodes Types Address TaskState CronTypes Database Transaction.
From S2P Require Import CronStore CronTransition CronTiming CronTimingProps CronEngine CronWorker CronPlanSpec.
From S2P Require Import CronWorkerSpec.
From stdpp Require Import base gmap strings numbers list sorting.
Local Open Scope Z_scope.
Local Open Scope string_scope.
Local Open Scope list_scope.

Lemma ids_of_iff P slots slot :
  NoDup (slot_id <$> slots) -> slot ∈ slots -> slot_id slot ∈ ids_of P slots <-> P slot = true.
Proof.
  intros Hnd Hin. rewrite elem_of_ids_of. split; [|by eauto]. intros (slot' & Hin' & Hid & HP).
  assert (slot' = slot) as ->; [|done].
  apply list_elem_of_lookup in Hin as [i Hi], Hin' as [j Hj].
  assert (i = j) as ->; [|congruence]. eapply NoDup_lookup; [exact Hnd| |]; rewrite list_lookup_fmap;
    [by rewrite Hi|by rewrite Hj; simpl; rewrite Hid].
Qed.

Lemma filter_split {A} (P : A -> Prop) `{!forall x, Decision (P x)} (l : list A) :
  l ≡ₚ filter (fun x => ~ P x) l ++ filter P l.
Proof.
  induction l as [|x l IH]; [done|]. destruct (decide (P x)) as [Hx|Hx].
  - rewrite (filter_cons_True P), (filter_cons_False (fun x => ~ P x)) by tauto. by rewrite <- Permutation_middle, <- IH.
  - rewrite (filter_cons_False P), (filter_cons_True (fun x => ~ P x)) by tauto. simpl. by rewrite <- IH.
Qed.

Section Apply.
Context {rt : Runtime} {crt : CronRuntime} {ports : CronPorts} {ce : CronExpr} {pok : PortsReturn ports}.

(** ** Slots that leave *)

Lemma drop_invalid_ok invalid k :
  worker_ok k ->
  exists k', drop_invalid invalid k = (Ok tt, k') /\ worker_ok k' /\ worker_retry k' = worker_retry k
    /\ worker_spawned k' = worker_spawned k
    /\ worker_slots k' = filter (fun slot => slot_id slot ∉ invalid) (worker_slots k).
Proof.
  intros Hok. unfold drop_invalid. erewrite w_run_bind by reflexivity. cbn beta.
  erewrite w_run_bind by reflexivity. cbn beta. rewrite abort_all_run. eexists. split; [reflexivity|].
  split; [|done]. apply (removed_ok k _ (filter (fun slot => slot_id slot ∈ invalid) (worker_slots k)) Hok).
  apply (filter_split (fun slot => slot_id slot ∈ invalid)).
Qed.

Lemma filter_id_none id slots :
  Forall (fun slot => slot_id slot <> id) slots -> filter (fun slot => slot_id slot <> id) slots = slots.
Proof. induction 1 as [|x l Hx _ IH]; [done|]. rewrite filter_cons_True by done. by rewrite IH. Qed.

Lemma stop_at_until_ok id k :
  worker_ok k ->
  exists k', stop_at_until id k = (Ok tt, k') /\ worker_ok k' /\ worker_retry k' = worker_retry k
    /\ worker_spawned k' = worker_spawned k
    /\ worker_slots k' = filter (fun slot => slot_id slot <> id) (worker_slots k).
Proof.
  intros Hok. unfold stop_at_until. erewrite w_run_bind by reflexivity. cbn beta.
  destruct (list_find _ (worker_slots k)) as [[index slot]|] eqn:Hf.
  2:{ apply list_find_None in Hf. exists k. split_and!; [done..|]. by rewrite filter_id_none. }
  apply list_find_Some in Hf as (Hl & Hid & Hbefore).
  pose proof (delete_Permutation _ _ _ Hl) as Hperm.
  erewrite w_run_bind by reflexivity. cbn beta. erewrite w_run_bind by apply abort_run_run. cbn beta.
  match goal with |- context [on_cron _ ?k1] =>
    destruct (record_run_worker (slot_schedule slot) (Run_Stopped "until reached") k1 recordable_until) as [s Hs] end.
  rewrite Hs. eexists. split; [reflexivity|]. split; [|split; [done|split; [done|]]].
  - rewrite worker_ok_cron. simpl.
    rewrite filter_handle.
    apply (removed_ok k (delete index (worker_slots k)) [slot] Hok). etrans; [exact Hperm|].
    apply Permutation_cons_append.
  - simpl. pose proof (take_drop_middle _ _ _ Hl) as Hsplit. rewrite delete_take_drop.
    rewrite <- Hsplit at 3. rewrite filter_app, filter_cons_False by tauto.
    pose proof (ok_ids _ Hok) as Hnd. rewrite <- Hsplit, fmap_app, fmap_cons in Hnd.
    apply NoDup_app in Hnd as (_ & Hdis & [Hna _]%NoDup_cons).
    f_equal; symmetry; apply filter_id_none, Forall_forall; intros x Hx Heq.
    + apply (Hdis id); [rewrite <- Heq; by apply (list_elem_of_fmap_2 slot_id)|]. rewrite <- Hid. by left.
    + apply Hna. rewrite Hid, <- Heq. by apply (list_elem_of_fmap_2 slot_id).
Qed.

Lemma stop_all_ok ids k :
  worker_ok k ->
  exists k', st_iter stop_at_until ids k = (Ok tt, k') /\ worker_ok k' /\ worker_retry k' = worker_retry k
    /\ worker_spawned k' = worker_spawned k
    /\ worker_slots k' = filter (fun slot => slot_id slot ∉ ids) (worker_slots k).
Proof.
  revert k. induction ids as [|id ids IH]; intros k Hok.
  - exists k. split_and!; [done..|]. induction (worker_slots k) as [|x l IHl]; [done|].
    rewrite filter_cons_True by apply not_elem_of_nil. by rewrite <- IHl.
  - cbn [st_iter]. destruct (stop_at_until_ok id k Hok) as (k1 & Hk1 & Hok1 & Hr1 & Hn1 & Hs1).
    destruct (IH k1 Hok1) as (k2 & Hk2 & Hok2 & Hr2 & Hn2 & Hs2). exists k2.
    unfold mbind, st_mbind, st_bind. rewrite Hk1. split_and!; [done..|congruence|congruence|].
    rewrite Hs2, Hs1, list_filter_filter. apply list_filter_iff. intros x. rewrite not_elem_of_cons. tauto.
Qed.

(** ** Slots that run *)

(** [apply_slot] as a function of the next run number. *)
Definition applied_slot (step : Step) (now : IsoTimestamp) (n : nat) (slot : Slot) : Slot * bool * nat :=
  if bool_decide (slot_id slot ∈ step_skip_in_flight step)
  then match next_time (slot_schedule slot) now with
       | Ok (Some next) => (with_next (Some next) slot, false, n)
       | Ok None => (slot, true, n)
       | _ => (slot, false, n)
       end
  else if bool_decide (slot_id slot ∈ step_run step)
  then match next_time (slot_schedule slot) now with
       | Ok next => (with_next next (with_in_flight (Some n) slot), false, S n)
       | _ => (with_in_flight (Some n) slot, false, S n)
       end
  else (slot, false, n).

Fixpoint applied_slots (step : Step) (now : IsoTimestamp) (n : nat) (slots : list Slot) : list (Slot * bool) :=
  match slots with
  | [] => []
  | slot :: rest => let '(slot', out, n') := applied_slot step now n slot in (slot', out) :: applied_slots step now n' rest
  end.

(** The runs started. *)
Definition started_runs (step : Step) (slots : list Slot) : nat :=
  length (filter (fun slot => slot_id slot ∈ step_run step /\ slot_id slot ∉ step_skip_in_flight step) slots).

Definition spawned_worker (n : nat) (k : Worker) : Worker :=
  mkWorker (worker_slots k) (worker_retry k) (worker_running k ++ seq (worker_spawned k) n)
    (worker_spawned k + n)%nat (worker_cron k).

Lemma spawned_zero k : spawned_worker 0 k = k.
Proof. destruct k. unfold spawned_worker. simpl. by rewrite app_nil_r, Nat.add_0_r. Qed.

Lemma spawned_add n m k : spawned_worker n (spawned_worker m k) = spawned_worker (m + n) k.
Proof. unfold spawned_worker. simpl. by rewrite <- app_assoc, <- seq_app, Nat.add_assoc. Qed.

Lemma apply_slot_run step now slot k :
  jitter_ok (slot_schedule slot) ->
  let r := applied_slot step now (worker_spawned k) slot in
  apply_slot step now slot k = (Ok r.1, spawned_worker (started_runs step [slot]) k)
  /\ r.2 = (worker_spawned k + started_runs step [slot])%nat.
Proof.
  intros Hj r. pose proof (next_time_no_panic _ now Hj) as Hn. unfold r, apply_slot, applied_slot, started_runs.
  case_bool_decide as Hskip.
  { rewrite filter_cons_False, filter_nil by tauto. cbn [length]. rewrite Nat.add_0_r, spawned_zero.
    destruct (next_time _ now) as [[next|]|e|]; done. }
  case_bool_decide as Hrun.
  - rewrite filter_cons_True, filter_nil by tauto. cbn [length]. erewrite w_run_bind by reflexivity. cbn beta iota zeta.
    change (slot_schedule (with_in_flight (Some (worker_spawned k)) slot)) with (slot_schedule slot).
    unfold spawned_worker. cbn [seq].
    destruct (next_time _ now) as [next|e|]; [..|done]; rewrite Nat.add_1_r; done.
  - rewrite filter_cons_False, filter_nil by tauto. cbn [length fst snd]. by rewrite Nat.add_0_r, spawned_zero.
Qed.

Lemma started_cons step slot slots :
  started_runs step (slot :: slots) = (started_runs step [slot] + started_runs step slots)%nat.
Proof.
  unfold started_runs. change (slot :: slots) with ([slot] ++ slots). by rewrite filter_app, length_app.
Qed.

Lemma apply_slots_run step now slots k :
  Forall (fun slot => jitter_ok (slot_schedule slot)) slots ->
  apply_slots step now slots k
  = (Ok (applied_slots step now (worker_spawned k) slots), spawned_worker (started_runs step slots) k).
Proof.
  intros Hj. revert k. induction Hj as [|slot slots Hs Hj IH]; intros k.
  { simpl. unfold started_runs. simpl. by rewrite spawned_zero. }
  cbn [apply_slots applied_slots]. destruct (apply_slot_run step now slot k Hs) as [Hrun Hn].
  destruct (applied_slot step now (worker_spawned k) slot) as [[slot' out] n'] eqn:Ha. simpl in Hrun, Hn.
  erewrite w_run_bind by exact Hrun. cbn beta. erewrite w_run_bind by apply IH. cbn beta.
  rewrite spawned_add, (started_cons step slot slots), Hn. reflexivity.
Qed.

(** Every slot that is applied stands for the same schedule. *)
Lemma applied_ids step now n slots : slot_id ∘ fst <$> applied_slots step now n slots = slot_id <$> slots.
Proof.
  revert n. induction slots as [|slot slots IH]; intros n; [done|]. cbn [applied_slots].
  destruct (applied_slot step now n slot) as [[slot' out] n'] eqn:Ha. rewrite !fmap_cons, IH. f_equal.
  revert Ha. unfold applied_slot. repeat case_match; by intros [= <- <- <-].
Qed.

(** The runs of the applied slots: those they had and the new ones. *)
Lemma applied_handles step now n slots :
  Forall (fun slot => slot_id slot ∈ step_run step -> slot_id slot ∉ step_skip_in_flight step ->
            slot_in_flight slot = None) slots ->
  handles (applied_slots step now n slots).*1 ≡ₚ handles slots ++ seq n (started_runs step slots).
Proof.
  intros Hidle. revert n. induction Hidle as [|slot slots Hs _ IH]; intros n; [done|]. cbn [applied_slots].
  assert (H : exists slot' out, applied_slot step now n slot = (slot', out, (n + started_runs step [slot])%nat)
    /\ handles [slot'] ≡ₚ handles [slot] ++ seq n (started_runs step [slot])).
  { unfold applied_slot, started_runs. case_bool_decide as Hskip.
    { rewrite filter_cons_False, filter_nil by tauto. cbn [length]. rewrite Nat.add_0_r.
      repeat case_match; eexists _, _; (split; [reflexivity|]); by rewrite app_nil_r. }
    case_bool_decide as Hrun.
    - rewrite filter_cons_True, filter_nil by tauto. cbn [length]. rewrite Nat.add_1_r.
      unfold handles. cbn [omap list_omap]. rewrite (Hs Hrun Hskip).
      repeat case_match; eexists _, _; (split; [reflexivity|]); done.
    - rewrite filter_cons_False, filter_nil by tauto. cbn [length]. rewrite Nat.add_0_r.
      eexists _, _. split; [reflexivity|]. by rewrite app_nil_r. }
  destruct H as (slot' & out & -> & Hh). rewrite fmap_cons. cbn [fst].
  change (slot' :: ?l) with ([slot'] ++ l). change (slot :: slots) with ([slot] ++ slots) at 1.
  rewrite !handles_app, IH, (started_cons step slot slots), seq_app. cbn [fst]. rewrite Hh. rewrite <- !app_assoc. f_equiv.
  rewrite !app_assoc. f_equiv. apply Permutation_app_comm.
Qed.

Lemma applied_counter step now n slot : (n <= (applied_slot step now n slot).2)%nat.
Proof. unfold applied_slot. repeat case_match; simpl; lia. Qed.

Lemma applied_from step now n slots p :
  p ∈ applied_slots step now n slots ->
  exists m slot, (n <= m)%nat /\ slot ∈ slots /\ p = (applied_slot step now m slot).1.
Proof.
  revert n. induction slots as [|slot slots IH]; intros n; [by intros ?%elem_of_nil|]. cbn [applied_slots].
  pose proof (applied_counter step now n slot) as Hn.
  destruct (applied_slot step now n slot) as [[slot' out] n'] eqn:Ha. intros [->|Hin]%elem_of_cons.
  - exists n, slot. rewrite Ha. by split_and!; [|left|].
  - destruct (IH n' Hin) as (m & slot0 & Hm & Hs & ->). exists m, slot0. simpl in Hn. split_and!; [lia|by right|done].
Qed.

Lemma applied_to step now n slots slot :
  slot ∈ slots -> exists m, (n <= m)%nat /\ (applied_slot step now m slot).1 ∈ applied_slots step now n slots.
Proof.
  revert n. induction slots as [|slot0 slots IH]; intros n; [by intros ?%elem_of_nil|]. cbn [applied_slots].
  pose proof (applied_counter step now n slot0) as Hn.
  destruct (applied_slot step now n slot0) as [[slot' out] n'] eqn:Ha. intros [->|Hin]%elem_of_cons.
  - exists n. rewrite Ha. by split; [|left].
  - destruct (IH n' Hin) as (m & Hm & Hs). exists m. simpl in Hn. split; [lia|by right].
Qed.

(** What applying the plan makes of a slot that neither stops nor is invalid. *)
Definition moved_slot (now : IsoTimestamp) (run : nat) (slot : Slot) : Slot * bool :=
  if slot_due now slot
  then
    match next_time (slot_schedule slot) now with
    | Ok next =>
      if slot_busy slot
      then (if bool_decide (next = None) then (slot, true) else (with_next next slot, false))
      else (with_next next (with_in_flight (Some run) slot), false)
    | _ => (slot, false)
    end
  else (slot, false).

Lemma applied_planned now slots run slot :
  NoDup (slot_id <$> slots) -> slot ∈ slots -> slot_stops now slot = false -> slot_invalid now slot = false ->
  jitter_ok (slot_schedule slot) ->
  (applied_slot (planned_step now slots) now run slot).1 = moved_slot now run slot.
Proof.
  intros Hnd Hin Hstop Hinv Hj. pose proof (next_time_no_panic _ now Hj) as Hn.
  unfold applied_slot, moved_slot, planned_step. cbn [step_skip_in_flight step_run].
  rewrite (bool_decide_ext _ _ (ids_of_iff (slot_skips now) slots slot Hnd Hin)).
  rewrite (bool_decide_ext _ _ (ids_of_iff (slot_runs now) slots slot Hnd Hin)).
  unfold slot_skips, slot_runs, slot_invalid in *. destruct (slot_due now slot); [|done]. cbn [andb negb] in *.
  destruct (next_time (slot_schedule slot) now) as [next|e|]; [|done..].
  by destruct (slot_busy slot), next.
Qed.

(** A slot that was moved needs nothing more at this time. *)
Lemma moved_idle {ceok : CronExprOk ce} now run slot slot' :
  slot_stops now slot = false -> slot_invalid now slot = false -> jitter_ok (slot_schedule slot) ->
  moved_slot now run slot = (slot', false) -> slot_idle now slot'.
Proof.
  intros Hstop Hinv Hj. pose proof (next_time_no_panic _ now Hj) as Hn. unfold moved_slot, slot_invalid in *.
  destruct (slot_due now slot) eqn:Hdue; cbn [andb] in Hinv.
  - assert (Hlater : forall next h, next_time (slot_schedule slot) now = Ok next ->
      slot_idle now (mkSlot (slot_schedule slot) next h)).
    { intros next h Hnext. split; [exact Hstop|]. simpl. destruct next as [next|]; [|done].
      apply next_time_later in Hnext. simpl. apply bool_decide_eq_false. lia. }
    destruct (next_time (slot_schedule slot) now) as [next|e|] eqn:Hnext; [|done..].
    destruct (slot_busy slot); [destruct (bool_decide (next = None)); [done|]|]; intros [= <-]; by apply Hlater.
  - intros [= <-]. split; [done|]. unfold slot_due in Hdue. rewrite Hstop in Hdue. exact Hdue.
Qed.

Lemma moved_ok now run slot :
  slot_ok slot -> slot_stops now slot = false -> slot_invalid now slot = false -> slot_ok (moved_slot now run slot).1.
Proof.
  intros [Hj Hw] Hstop Hinv. unfold moved_slot. destruct (slot_due now slot); [|done].
  destruct (next_time _ now) as [next|e|]; [|done..].
  unfold slot_busy. destruct (slot_in_flight slot) as [h|] eqn:Hh; simpl.
  - case_bool_decide; simpl; split; (done || (simpl; congruence)).
  - split; [done|]. simpl. congruence.
Qed.

Lemma stop_and_drop_run slots k :
  exists s, st_iter stop_and_drop slots k
    = (Ok tt, set_running (filter (fun r => r ∉ handles slots) (worker_running k)) (set_cron_state s k)).
Proof.
  revert k. induction slots as [|slot slots IH]; intros k.
  - exists (worker_cron k). pose proof (abort_all_run [] k) as H. cbn [st_iter] in *. rewrite H. by destruct k.
  - destruct (record_run_worker (slot_schedule slot) (Run_Stopped "no future occurrence") k recordable_exhausted) as [s Hs].
    assert (Hone : stop_and_drop slot k
      = (Ok tt, set_running (filter (fun r => r ∉ handles [slot]) (worker_running k)) (set_cron_state s k))).
    { unfold stop_and_drop, stop_exhausted. erewrite w_run_bind by exact Hs. cbn beta.
      by rewrite abort_run_run, filter_handle. }
    destruct (IH (set_running (filter (fun r => r ∉ handles [slot]) (worker_running k)) (set_cron_state s k))) as [s' Hs'].
    exists s'. cbn [st_iter]. unfold mbind, st_mbind, st_bind. rewrite Hone, Hs'. f_equal.
    unfold set_running, set_cron_state. cbn [worker_slots worker_retry worker_running worker_spawned worker_cron].
    f_equal. rewrite list_filter_filter. apply list_filter_iff. intros r.
    change (slot :: slots) with ([slot] ++ slots). rewrite handles_app, not_elem_of_app. tauto.
Qed.

(** What one application leaves of a slot. *)
Definition step_result (now : IsoTimestamp) (spawned : nat) (slots' : list Slot) (slot : Slot) : Prop :=
  if slot_stops now slot || slot_invalid now slot then slot_id slot ∉ slot_id <$> slots'
  else exists run, (spawned <= run)%nat
       /\ let '(slot', out) := moved_slot now run slot in
          if out then slot_id slot ∉ slot_id <$> slots' else slot' ∈ slots'.

(** The slots that the first two phases leave. *)
Lemma survivors now slots slot :
  NoDup (slot_id <$> slots) ->
  let step := planned_step now slots in
  slot ∈ filter (fun slot => slot_id slot ∉ step_stop_until step)
           (filter (fun slot => slot_id slot ∉ step_invalid_next step) slots)
  <-> slot ∈ slots /\ slot_stops now slot = false /\ slot_invalid now slot = false.
Proof.
  intros Hnd step. rewrite !list_elem_of_filter.
  assert (H : slot ∈ slots -> (slot_id slot ∉ step_stop_until step <-> slot_stops now slot = false)
    /\ (slot_id slot ∉ step_invalid_next step <-> slot_invalid now slot = false)).
  { intros Hin. unfold step, planned_step. cbn [step_stop_until step_invalid_next].
    rewrite !ids_of_iff by done. destruct (slot_stops now slot), (slot_invalid now slot); split; split; congruence. }
  tauto.
Qed.

(** The slots after the loop of runs and skips, before the exhausted leave. *)
Lemma applied_ok now slots k :
  worker_ok k -> NoDup (slot_id <$> slots) ->
  (forall slot, slot ∈ worker_slots k -> slot ∈ slots /\ slot_stops now slot = false /\ slot_invalid now slot = false) ->
  let step := planned_step now slots in
  worker_ok (set_slots (applied_slots step now (worker_spawned k) (worker_slots k)).*1
               (spawned_worker (started_runs step (worker_slots k)) k)).
Proof.
  intros [Hids Hruns Hnd Hsp Hok] Hall Hsub step. constructor; cbn [set_slots spawned_worker worker_slots worker_running worker_spawned].
  - rewrite <- list_fmap_compose, applied_ids. done.
  - rewrite applied_handles, Hruns; [done|]. apply Forall_forall. intros slot Hin Hrun _.
    destruct (Hsub slot Hin) as (Hin' & _ & _). unfold step, planned_step in Hrun. cbn [step_run] in Hrun.
    apply ids_of_iff in Hrun; [|done..]. unfold slot_runs, slot_busy in Hrun. apply andb_true_iff in Hrun as [_ Hb].
    destruct (slot_in_flight slot); [done|done].
  - apply NoDup_app. split_and!; [done| |apply NoDup_seq]. intros r Hr Hr2%elem_of_seq.
    rewrite Forall_forall in Hsp. specialize (Hsp r Hr). lia.
  - apply Forall_app. split.
    + eapply Forall_impl; [exact Hsp|]. simpl. lia.
    + apply Forall_forall. intros r Hr%elem_of_seq. lia.
  - apply Forall_forall. intros slot' Hin. apply list_elem_of_fmap in Hin as (p & -> & Hp).
    apply applied_from in Hp as (m & slot & _ & Hin & ->). destruct (Hsub slot Hin) as (Hin' & Hst & Hinv).
    rewrite Forall_forall in Hok. specialize (Hok slot Hin). unfold step.
    rewrite applied_planned by (done || apply Hok). by apply moved_ok.
Qed.

Lemma same_id {A} (f : A -> Z) (l : list A) x y :
  NoDup (f <$> l) -> x ∈ l -> y ∈ l -> f x = f y -> x = y.
Proof.
  intros Hnd Hx Hy Hf. apply list_elem_of_lookup in Hx as [i Hi], Hy as [j Hj].
  assert (i = j) as ->; [|congruence].
  eapply NoDup_lookup; [exact Hnd| |]; rewrite list_lookup_fmap; [by rewrite Hi|rewrite Hj; simpl; by rewrite Hf].
Qed.

Lemma applied_result {ceok : CronExprOk ce} now slots live n :
  NoDup (slot_id <$> slots) -> Forall slot_ok slots ->
  (forall slot, slot ∈ live <-> slot ∈ slots /\ slot_stops now slot = false /\ slot_invalid now slot = false) ->
  let applied := applied_slots (planned_step now slots) now n live in
  NoDup (slot_id <$> applied.*1) ->
  let kept := (filter (fun p => p.2 = false) applied).*1 in
  Forall (slot_idle now) kept /\ Forall (step_result now n kept) slots.
Proof.
  intros Hnd Hok Hlive applied Hids kept. rewrite Forall_forall in Hok.
  assert (Hmoved : forall m slot, slot ∈ live -> (applied_slot (planned_step now slots) now m slot).1 = moved_slot now m slot).
  { intros m slot Hin. apply Hlive in Hin as (Hin & Hs & Hi). apply applied_planned; [done..|]. by apply Hok. }
  assert (Hkept : forall slot', slot' ∈ kept <-> (slot', false) ∈ applied).
  { intros slot'. unfold kept. rewrite list_elem_of_fmap. split.
    - intros ([x b] & -> & [Hb Hin]%list_elem_of_filter). simpl in Hb. by subst b.
    - intros Hin. exists (slot', false). by rewrite list_elem_of_filter. }
  split; apply Forall_forall.
  - intros slot' Hin%Hkept. apply applied_from in Hin as (m & slot & _ & Hin & Heq). rewrite Hmoved in Heq by done.
    apply Hlive in Hin as (Hin & Hs & Hi). eapply moved_idle; [exact Hs|exact Hi| |by rewrite Heq]. by apply Hok.
  - intros slot Hin. unfold step_result. destruct (slot_stops now slot || slot_invalid now slot) eqn:Hc.
    + intros (slot' & Hid & Hin')%list_elem_of_fmap. apply Hkept in Hin'.
      assert (Hid' : slot_id slot' ∈ slot_id <$> live).
      { rewrite <- (applied_ids (planned_step now slots) now n live). apply list_elem_of_fmap. by exists (slot', false). }
      apply list_elem_of_fmap in Hid' as (slot0 & Hid0 & Hin0). apply Hlive in Hin0 as (Hin0 & Hs & Hi).
      assert (slot = slot0) as <- by (apply (same_id slot_id slots); [done..|congruence]). by rewrite Hs, Hi in Hc.
    + apply orb_false_iff in Hc as [Hs Hi]. assert (Hl : slot ∈ live) by (by apply Hlive).
      destruct (applied_to (planned_step now slots) now n live slot Hl) as (m & Hm & Hin'). exists m. split; [done|].
      fold applied in Hin'. rewrite Hmoved in Hin' by done. destruct (moved_slot now m slot) as [slot' out] eqn:Hmv.
      destruct out; [|by apply Hkept]. intros (slot2 & Hid2 & Hin2)%list_elem_of_fmap. apply Hkept in Hin2.
      assert (Hid' : slot_id slot' = slot_id slot).
      { revert Hmv. unfold moved_slot. repeat case_match; intros Heq; try discriminate Heq; by injection Heq as <-. }
      enough ((slot', true) = (slot2, false)) as Heq by discriminate Heq.
      apply (same_id (slot_id ∘ fst) applied); [by rewrite <- list_fmap_compose in Hids|done..|].
      unfold compose; simpl. congruence.
Qed.

Lemma apply_step_ok {ceok : CronExprOk ce} k :
  worker_ok k ->
  let now := clock_at (ticks (world (worker_cron k))) in
  exists k', apply_step k = (Ok tt, k') /\ worker_ok k' /\ worker_retry k' = worker_retry k
    /\ Forall (slot_idle now) (worker_slots k')
    /\ Forall (step_result now (worker_spawned k) (worker_slots k')) (worker_slots k).
Proof.
  intros Hok now. unfold apply_step, worker_now, on_cron.
  erewrite w_run_bind by reflexivity. cbn beta. fold now.
  set (k0 := set_cron_state _ k). assert (Hok0 : worker_ok k0) by (by apply worker_ok_cron).
  erewrite w_run_bind by reflexivity. cbn beta. change (worker_slots k0) with (worker_slots k).
  rewrite step_for_run by (apply jitter_slots, Hok). erewrite w_run_bind by reflexivity. cbn beta.
  set (step := planned_step now (worker_slots k)).
  destruct (drop_invalid_ok (step_invalid_next step) k0 Hok0) as (k1 & Hk1 & Hok1 & Hr1 & Hn1 & Hs1).
  erewrite w_run_bind by exact Hk1. cbn beta.
  destruct (stop_all_ok (step_stop_until step) k1 Hok1) as (k2 & Hk2 & Hok2 & Hr2 & Hn2 & Hs2).
  erewrite w_run_bind by exact Hk2. cbn beta. rewrite Hs1 in Hs2. change (worker_slots k0) with (worker_slots k) in Hs2.
  erewrite w_run_bind by reflexivity. cbn beta.
  erewrite w_run_bind by apply apply_slots_run, jitter_slots, Hok2. cbn beta.
  erewrite w_run_bind by reflexivity. cbn beta.
  assert (Hsub : forall slot, slot ∈ worker_slots k2 <-> slot ∈ worker_slots k
    /\ slot_stops now slot = false /\ slot_invalid now slot = false).
  { intros slot. rewrite Hs2. apply survivors, Hok. }
  pose proof (applied_ok now (worker_slots k) k2 Hok2 (ok_ids _ Hok) (fun slot => proj1 (Hsub slot))) as Hok3.
  cbv zeta in Hok3. fold step in Hok3. set (applied := applied_slots step now (worker_spawned k2) (worker_slots k2)) in *.
  set (k3 := spawned_worker _ k2) in *.
  set (kept := (filter (fun p => p.2 = false) applied).*1). set (gone := (filter (fun p => p.2 = true) applied).*1).
  assert (Hsplit : applied.*1 ≡ₚ kept ++ reverse gone).
  { unfold kept, gone. rewrite reverse_Permutation, <- fmap_app. apply fmap_Permutation.
    rewrite (filter_split (fun p : Slot * bool => p.2 = true) applied) at 1.
    rewrite (list_filter_iff (fun p : Slot * bool => p.2 <> true) (fun p => p.2 = false)); [done|].
    intros [x []]; simpl; split; congruence. }
  destruct (stop_and_drop_run (reverse gone) (set_slots kept k3)) as [s Hs]. rewrite Hs.
  eexists. split; [reflexivity|]. split.
  { apply (worker_ok_cron (set_running _ (set_slots kept k3)) s).
    exact (removed_ok (set_slots applied.*1 k3) kept (reverse gone) Hok3 Hsplit). }
  split; [exact (eq_trans Hr2 Hr1)|].
  assert (worker_spawned k = worker_spawned k2) as -> by exact (eq_sym (eq_trans Hn2 Hn1)).
  exact (applied_result now (worker_slots k) (worker_slots k2) (worker_spawned k2) (ok_ids _ Hok) (ok_slots _ Hok) Hsub (ok_ids _ Hok3)).
Qed.
End Apply.
