(* ===== verification/TaskCodec.v ===== *)
(** * Column codecs of the task tables

    Models the decoders of [crates/atm-storage-rusqlite/src/task_store.rs]
    ([decode_row], [decode_event_row] and the [parse_*]/[*_name] pairs) and the
    single-row query of [task_sql.rs].  The integer columns are decoded at the
    width the code asks for. *)

From S2P Require Import Prelude ErrorCodes Types TaskState Database.
From stdpp Require Import base gmap strings list numbers.
Local Open Scope Z_scope.
Local Open Scope string_scope.

(** [invalid]: the conversion failure of a bad column text. *)
Definition invalid {A} (value subject : string) : Outcome RusqliteError A :=
  Err (FromSqlConversionFailure ("invalid " +:+ subject +:+ ": " +:+ value)).

Definition parse_table {A} (subject value : string) (arms : list (string * A))
    : Outcome RusqliteError A :=
  match match_str value arms with
  | Some a => Ok a
  | None => invalid value subject
  end.

Definition parse_close_outcome (value : string) : Outcome RusqliteError TaskCloseOutcome :=
  parse_table "task close outcome" value
    [ ("completed", TaskCloseOutcome_Completed);
      ("refused", TaskCloseOutcome_Refused);
      ("cancelled", TaskCloseOutcome_Cancelled) ].

Definition parse_state (value : string) (close_outcome : option string)
    : Outcome RusqliteError TaskState :=
  t ← parse_table "task state" value
    [ ("assigned", TaskStateTag_Assigned);
      ("active", TaskStateTag_Active);
      ("complete", TaskStateTag_Complete) ];
  outcome ← option_traverse parse_close_outcome close_outcome;
  match from_parts t outcome with
  | Ok s => Ok s
  | Err e => invalid (message e) "task state"
  | Panic => Panic
  end.

Definition parse_event (value : string) : Outcome RusqliteError TaskEventKind :=
  parse_table "task event" value
    [ ("assigned", TaskEventKind_Assigned);
      ("acked", TaskEventKind_Acked);
      ("started", TaskEventKind_Started);
      ("completed", TaskEventKind_Completed);
      ("refused", TaskEventKind_Refused);
      ("cancelled", TaskEventKind_Cancelled);
      ("reassigned", TaskEventKind_Reassigned);
      ("reopened", TaskEventKind_Reopened);
      ("rejected", TaskEventKind_Rejected);
      ("reminded", TaskEventKind_Reminded);
      ("lead_notified", TaskEventKind_LeadNotified);
      ("moved", TaskEventKind_Moved);
      ("migrated", TaskEventKind_Migrated);
      ("reminders_reset", TaskEventKind_RemindersReset) ].

Definition parse_outcome (value : string) : Outcome RusqliteError ReminderOutcome :=
  parse_table "reminder outcome" value
    [ ("emitted", ReminderOutcome_Emitted);
      ("unrenderable", ReminderOutcome_Unrenderable);
      ("blocked", ReminderOutcome_Blocked) ].

Definition parse_marker (value : string) : Outcome RusqliteError TaskEventMarker :=
  parse_table "task marker" value
    [ ("resend", TaskEventMarker_Resend);
      ("assignment_missing", TaskEventMarker_AssignmentMissing) ].

Definition parse_prompt_trigger (value : string) : Outcome RusqliteError PromptTrigger :=
  parse_table "prompt trigger" value
    [ ("steer", PromptTrigger_Steer); ("task_pass", PromptTrigger_TaskPass) ].

Definition state_name (value : TaskState) : string :=
  match value with
  | TaskState_Assigned => "assigned"
  | TaskState_Active => "active"
  | TaskState_Complete _ => "complete"
  end.

Definition event_name (value : TaskEventKind) : string :=
  match value with
  | TaskEventKind_Assigned => "assigned"
  | TaskEventKind_Acked => "acked"
  | TaskEventKind_Started => "started"
  | TaskEventKind_Completed => "completed"
  | TaskEventKind_Refused => "refused"
  | TaskEventKind_Cancelled => "cancelled"
  | TaskEventKind_Reassigned => "reassigned"
  | TaskEventKind_Reopened => "reopened"
  | TaskEventKind_Rejected => "rejected"
  | TaskEventKind_Reminded => "reminded"
  | TaskEventKind_LeadNotified => "lead_notified"
  | TaskEventKind_Moved => "moved"
  | TaskEventKind_Migrated => "migrated"
  | TaskEventKind_RemindersReset => "reminders_reset"
  end.

Definition outcome_name (value : ReminderOutcome) : string :=
  match value with
  | ReminderOutcome_Emitted => "emitted"
  | ReminderOutcome_Unrenderable => "unrenderable"
  | ReminderOutcome_Blocked => "blocked"
  end.

(** [task_state_tag_name] of [writer/task_ops.rs]. *)
Definition task_state_tag_name (t : TaskStateTag) : string :=
  match t with
  | TaskStateTag_Assigned => "assigned"
  | TaskStateTag_Active => "active"
  | TaskStateTag_Complete => "complete"
  end.

(** [row.get::<u32>] on an integer column. *)
Definition get_u32 (z : Z) : Outcome RusqliteError Z :=
  match u32_try_from z with
  | Some v => Ok v
  | None => Err (IntegralValueOutOfRange z)
  end.

(** [SqliteTaskStore::decode_row]. *)
Definition decode_row (k : TaskKey) (r : TaskSqlRow) : Outcome RusqliteError TaskRow :=
  position ← option_traverse get_u32 (t_position r);
  reminder_count ← get_u32 (t_reminder_count r);
  lead_notified_count ← get_u32 (t_lead_notified_count r);
  state ← parse_state (t_state r) (t_close_outcome r);
  Ok {| row_team := k.1;
        row_task_id := k.2;
        row_assignee := t_assignee r;
        row_assigner := t_assigner r;
        row_state := state;
        row_position := position ≫= queue_position_new;
        row_assignment_message_id := t_assignment_message_id r;
        row_description := t_description r;
        row_assigned_at := t_assigned_at r;
        row_updated_at := t_updated_at r;
        row_last_reminded_at := t_last_reminded_at r;
        row_reminder_count := reminder_count;
        row_lead_notified_count := lead_notified_count |}.

(** The actor column as a typed actor. *)
Definition decode_actor (actor : AgentName) : TaskActor :=
  if bool_decide (actor = DAEMON_ACTOR_NAME) then TaskActor_Daemon else TaskActor_Member actor.

(** One state column of an event: only a complete state takes the outcome. *)
Definition decode_event_state (close_outcome : option string) (state : string)
    : Outcome RusqliteError TaskState :=
  parse_state state (if bool_decide (state = "complete") then close_outcome else None).

(** [SqliteTaskStore::decode_event_row]. *)
Definition decode_event_row (e : TaskEventSqlRow) : Outcome RusqliteError TaskEventRow :=
  event ← parse_event (e_event e);
  from_state ← option_traverse (decode_event_state (e_close_outcome e)) (e_from_state e);
  to_state ← option_traverse (decode_event_state (e_close_outcome e)) (e_to_state e);
  outcome ← option_traverse parse_outcome (e_outcome e);
  marker ← option_traverse parse_marker (e_marker e);
  Ok {| ev_team := e_team e;
        ev_task_id := e_task_id e;
        ev_assignee := e_assignee e;
        ev_seq := e_seq e;
        ev_at := e_at e;
        ev_event := event;
        ev_from_state := from_state;
        ev_to_state := to_state;
        ev_actor := decode_actor (e_actor e);
        ev_message_id := e_message_id e;
        ev_outcome := outcome;
        ev_marker := marker;
        ev_detail := e_detail e |}.

(** [task_sql::select_task_row]. *)
Definition select_task_row (d : Db) (team : TeamName) (task_id : TaskId)
    : Outcome RusqliteError (option TaskRow) :=
  match tasks d !! (team, task_id) with
  | None => Ok None
  | Some r => row ← decode_row (team, task_id) r; Ok (Some row)
  end.

(** ** Column text and typed values correspond *)

Lemma parse_event_name k : parse_event (event_name k) = Ok k.
Proof. by destruct k. Qed.

Lemma event_name_as_str k : event_name k = TaskEventKind_as_str k.
Proof. by destruct k. Qed.

Lemma parse_outcome_name o : parse_outcome (ReminderOutcome_as_str o) = Ok o.
Proof. by destruct o. Qed.

Lemma parse_marker_name m : parse_marker (TaskEventMarker_as_str m) = Ok m.
Proof. by destruct m. Qed.

Lemma parse_state_name s :
  parse_state (TaskState_as_str s) (TaskCloseOutcome_as_str <$> close_outcome s) = Ok s.
Proof. by destruct s as [| |[]]. Qed.

Lemma state_name_as_str s : state_name s = TaskState_as_str s.
Proof. by destruct s. Qed.

Lemma tag_name_as_str s : task_state_tag_name (tag s) = TaskState_as_str s.
Proof. by destruct s. Qed.

(** The typed state of a row that satisfies the table constraints. *)
Lemma task_row_check_state (r : TaskSqlRow) :
  task_row_check r = true ->
  exists s, parse_state (t_state r) (t_close_outcome r) = Ok s
    /\ t_state r = TaskState_as_str s
    /\ t_close_outcome r = TaskCloseOutcome_as_str <$> close_outcome s
    /\ (is_open s = true <-> t_state r <> "complete")
    /\ (is_open s = true <-> is_Some (t_position r))
    /\ (forall p, t_position r = Some p -> 1 <= p).
Proof.
  unfold task_row_check. rewrite !andb_true_iff. intros [[[[H1 H2] H3] H4] H5].
  apply bool_decide_eq_true_1 in H1, H4, H5.
  assert (Hpos : forall p, t_position r = Some p -> 1 <= p).
  { intros p Hp. rewrite Hp in H3. by apply bool_decide_eq_true_1 in H3. }
  destruct H1 as [Hs|[Hs|Hs]].
  - exists TaskState_Assigned.
    assert (t_close_outcome r = None) as Ho by (apply eq_None_not_Some; rewrite <- H4; by rewrite Hs).
    assert (is_Some (t_position r)) as Hp by (apply not_eq_None_Some; rewrite <- H5; by rewrite Hs).
    rewrite Ho, Hs. split_and!; naive_solver.
  - exists TaskState_Active.
    assert (t_close_outcome r = None) as Ho by (apply eq_None_not_Some; rewrite <- H4; by rewrite Hs).
    assert (is_Some (t_position r)) as Hp by (apply not_eq_None_Some; rewrite <- H5; by rewrite Hs).
    rewrite Ho, Hs. split_and!; naive_solver.
  - destruct (proj1 H4 Hs) as [o Ho]. pose proof (proj1 H5 Hs) as Hp.
    rewrite Ho in H2. apply bool_decide_eq_true_1 in H2. rewrite Ho, Hs, Hp.
    destruct H2 as [->|[->| ->]];
      [exists (TaskState_Complete TaskCloseOutcome_Completed)
      |exists (TaskState_Complete TaskCloseOutcome_Refused)
      |exists (TaskState_Complete TaskCloseOutcome_Cancelled)];
      (split_and!; [done..|naive_solver|split; [done|intros []; done]|naive_solver]).
Qed.
