(* ===== verification/TaskQueue.v ===== *)
(** * The ordered queue of a member's open tasks

    Models the queue primitives of
    [crates/atm-storage-rusqlite/src/writer/task_ops.rs] (row loading, queue
    order, placement, two-phase renumbering, event append) and the rejection
    constructors of [writer/task_rejection.rs]. *)

From S2P Require Import Prelude ErrorCodes Types TaskState Database TaskCodec.
From stdpp Require Import base gmap strings list numbers sorting pretty.
Local Open Scope Z_scope.
Local Open Scope string_scope.
Local Open Scope list_scope.

(** ** Rejections ([task_rejection.rs]) *)
Definition task_not_found (d : string) : AtmError := atm_error_new TaskNotFound d.
Definition task_already_closed (d : string) : AtmError := atm_error_new TaskAlreadyClosed d.
Definition task_already_active (d : string) : AtmError := atm_error_new TaskAlreadyActive d.
Definition task_not_counterparty (d : string) : AtmError := atm_error_new TaskNotCounterparty d.
Definition task_stale_counterparty (d : string) : AtmError := atm_error_new TaskStaleCounterparty d.
Definition task_move_invalid (d : string) : AtmError := atm_error_new TaskMoveInvalid d.
Definition task_max_active_reached (d recovery : string) : AtmError :=
  error_task_max_active_reached d recovery.

Definition is_task_rejection (c : AtmErrorCode) : bool :=
  match c with
  | TaskNotFound | TaskAlreadyActive | TaskAlreadyClosed | TaskNotCounterparty
  | TaskStaleCounterparty | TaskMoveInvalid | TaskMaxActiveReached => true
  | _ => false
  end.

(** ** List operations of the code *)

(** [order.retain(|id| id != task_id)]. *)
Definition retain_ne (task_id : TaskId) (order : list TaskId) : list TaskId :=
  filter (fun id => id <> task_id) order.

(** [order.iter().position(|id| id == task_id)]. *)
Fixpoint position_of (task_id : TaskId) (order : list TaskId) : option nat :=
  match order with
  | [] => None
  | id :: rest =>
    if bool_decide (id = task_id) then Some 0%nat else S <$> position_of task_id rest
  end.

(** [Vec::insert]; [None] is the out-of-range panic. *)
Definition vec_insert {A} (index : nat) (x : A) (l : list A) : option (list A) :=
  if bool_decide (index <= length l)%nat then Some (take index l ++ x :: drop index l) else None.

(** [iter().take_while(p).count()]. *)
Fixpoint take_while_count {A} (p : A -> bool) (l : list A) : nat :=
  match l with
  | [] => 0
  | a :: l' => if p a then S (take_while_count p l') else 0
  end.

(** One event row as the writer builds it, before its sequence number. *)
Record TaskEventDraft : Set := mkTaskEventDraft {
  draft_team : TeamName;
  draft_task_id : TaskId;
  draft_assignee : AgentName;
  draft_at : IsoTimestamp;
  draft_event : TaskEventKind;
  draft_from_state : option TaskStateTag;
  draft_to_state : option TaskStateTag;
  draft_close_outcome : option TaskCloseOutcome;
  draft_actor : AgentName;
  draft_message_id : option AtmMessageId;
  draft_outcome : option ReminderOutcome;
  draft_marker : option TaskEventMarker;
  draft_detail : option string
}.

(** [SET position = ...]. *)
Definition set_position (p : option Z) (r : TaskSqlRow) : TaskSqlRow :=
  mkTaskSqlRow (t_assignee r) (t_assigner r) (t_state r) (t_close_outcome r) p
    (t_assignment_message_id r) (t_description r) (t_assigned_at r) (t_updated_at r)
    (t_last_reminded_at r) (t_reminder_count r) (t_lead_notified_count r).

(** [SET position = position + offset]. *)
Definition shift_position (offset : Z) (r : TaskSqlRow) : TaskSqlRow :=
  set_position ((fun p => p + offset) <$> t_position r) r.

Section Queue.
Context {rt : Runtime}.

Definition load_task_row (team : TeamName) (task_id : TaskId) : M (option TaskRow) :=
  d ← get_db;
  match select_task_row d team task_id with
  | Ok row => mret row
  | Err e => fail (sqlite_error "failed to load task row" e)
  | Panic => st_panic
  end.

Definition queue_order (team : TeamName) (assignee : AgentName) : M (list TaskId) :=
  d ← get_db;
  mret ((fun kr => kr.1.2) <$> open_rows team assignee (tasks d)).

Definition placement_error (task_id other : TaskId) (assignee : AgentName) : AtmError :=
  task_move_invalid
    ("task " +:+ task_id +:+ ": placement target " +:+ other
     +:+ " is not an open queued task of " +:+ assignee).

Definition insert_at_placement (order : list TaskId) (task_id : TaskId)
    (placement : MoveTarget) (team : TeamName) (assignee : AgentName) : M (list TaskId) :=
  index ←
    match placement with
    | MoveTarget_End => mret (length order)
    | MoveTarget_Head =>
      d ← get_db;
      let states :=
        (fun kr => t_state kr.2) <$>
          filter (fun kr => kr.1.2 <> task_id) (open_rows team assignee (tasks d)) in
      mret (take_while_count (fun s => String.eqb s (TaskState_as_str TaskState_Active)) states)
    | MoveTarget_Before other =>
      row ← load_task_row team other;
      let valid :=
        match row with
        | Some r => bool_decide (row_assignee r = assignee)
                    && bool_decide (row_state r = TaskState_Assigned)
        | None => false
        end in
      if valid then ok_or (placement_error task_id other assignee) (position_of other order)
      else fail (placement_error task_id other assignee)
    end;
  match vec_insert index task_id order with
  | Some order' => mret order'
  | None => st_panic
  end.

Fixpoint write_queue_positions_from (team : TeamName) (index : nat) (order : list TaskId)
    : M unit :=
  match order with
  | [] => mret tt
  | task_id :: rest =>
    position ← ok_or (task_move_invalid "task queue too large")
                     (i64_try_from (Z.of_nat index + 1));
    _ ← update_task "failed to renumber task queue" (team, task_id)
                    (set_position (Some position));
    write_queue_positions_from team (S index) rest
  end.

Definition write_queue_positions (team : TeamName) (order : list TaskId) : M unit :=
  write_queue_positions_from team 0 order.

Definition renumber_queue (team : TeamName) (assignee : AgentName) (order : list TaskId)
    : M unit :=
  d ← get_db;
  let maximum := max_position (open_rows team assignee (tasks d)) in
  len ← ok_or (task_move_invalid "task queue too large")
              (i64_try_from (Z.of_nat (length order)));
  offset ← ok_or (task_move_invalid "task queue too large") (i64_checked_add maximum len);
  _ ← update_tasks "failed to offset task queue" (open_of team assignee)
                   (shift_position offset);
  _ ← write_queue_positions team order;
  d' ← get_db;
  let rows := open_rows team assignee (tasks d') in
  if bool_decide (Z.of_nat (length rows) <> max_position rows)
  then fail (task_move_invalid ("task queue for " +:+ assignee +:+ " is not contiguous"))
  else mret tt.

(** The 1-based queue position of [task_id] in [order]. *)
Definition queue_position_of (order : list TaskId) (task_id : TaskId) : M QueuePosition :=
  ok_or (task_move_invalid "task move produced no queue position")
    (index ← position_of task_id order;
     value ← u32_try_from (Z.of_nat index + 1);
     queue_position_new value).

(** [task_event_state]: only a complete tag keeps the close outcome. *)
Definition task_event_state (t : option TaskStateTag) (outcome : option TaskCloseOutcome)
    : Outcome AtmError (option TaskState) :=
  option_traverse
    (fun t => from_parts t (if bool_decide (t = TaskStateTag_Complete) then outcome else None)) t.

Definition append_task_event (draft : TaskEventDraft) : M TaskEventRow :=
  from_state ← lift (task_event_state (draft_from_state draft) (draft_close_outcome draft));
  to_state ← lift (task_event_state (draft_to_state draft) (draft_close_outcome draft));
  d ← get_db;
  let seq := max_seq (draft_team draft) (draft_task_id draft) (task_events d) + 1 in
  _ ← insert_task_event "failed to append task event"
        {| e_team := draft_team draft;
           e_task_id := draft_task_id draft;
           e_assignee := draft_assignee draft;
           e_seq := seq;
           e_at := draft_at draft;
           e_event := TaskEventKind_as_str (draft_event draft);
           e_from_state := task_state_tag_name <$> draft_from_state draft;
           e_to_state := task_state_tag_name <$> draft_to_state draft;
           e_close_outcome := TaskCloseOutcome_as_str <$> draft_close_outcome draft;
           e_actor := draft_actor draft;
           e_message_id := draft_message_id draft;
           e_outcome := ReminderOutcome_as_str <$> draft_outcome draft;
           e_marker := TaskEventMarker_as_str <$> draft_marker draft;
           e_detail := draft_detail draft |};
  mret {| ev_team := draft_team draft;
          ev_task_id := draft_task_id draft;
          ev_assignee := draft_assignee draft;
          ev_seq := seq;
          ev_at := draft_at draft;
          ev_event := draft_event draft;
          ev_from_state := from_state;
          ev_to_state := to_state;
          ev_actor := decode_actor (draft_actor draft);
          ev_message_id := draft_message_id draft;
          ev_outcome := draft_outcome draft;
          ev_marker := draft_marker draft;
          ev_detail := draft_detail draft |}.
End Queue.
