(* ===== verification/QueueFacts.v ===== *)
(** * Facts about the task queue

    The abstraction of the ledger is [is_queue ts team agent q]: the open tasks
    of [agent] are exactly the task ids of the list [q], each stored at its
    1-based index.  [renumber_queue_run] shows that the two-phase renumbering of
    [writer/task_ops.rs] establishes it from any table whose open rows are the
    wanted ids, in whatever order SQLite visits rows, without ever meeting the
    unique index on positions. *)

From S2P Require Import Prelude ErrorCodes Types TaskState Database TaskCodec TaskQueue.
From stdpp Require Import base gmap strings list numbers sorting pretty.
Local Open Scope Z_scope.
Local Open Scope string_scope.
Local Open Scope list_scope.

(** ** Table facts *)

Definition table_ok (ts : gmap TaskKey TaskSqlRow) : Prop :=
  map_Forall (fun _ r => task_row_check r = true) ts.

(** [q] is the queue of [agent]: the open tasks of the member, each stored at
    its 1-based index. *)
Definition is_queue (ts : gmap TaskKey TaskSqlRow) (team : TeamName) (agent : AgentName)
    (q : list TaskId) : Prop :=
  (forall i id, q !! i = Some id -> exists r,
      ts !! (team, id) = Some r /\ open_of team agent (team, id) r
      /\ t_position r = Some (Z.of_nat i + 1))
  /\ (forall id r, ts !! (team, id) = Some r -> open_of team agent (team, id) r ->
        exists i, q !! i = Some id).

Definition queue_inv (ts : gmap TaskKey TaskSqlRow) : Prop :=
  forall team agent, exists q, is_queue ts team agent q.

#[export] Instance queue_le_trans : Transitive queue_le.
Proof.
  intros a b c [H1|[H1 H1']] [H2|[H2 H2']]; unfold queue_le;
    [left; lia|left; lia|left; lia|right; split; [lia|by etrans]].
Qed.

#[export] Instance queue_le_total : Total queue_le.
Proof.
  intros a b. unfold queue_le.
  destruct (Z.lt_trichotomy (position_key a.2) (position_key b.2)) as [?|[?|?]]; [auto| |auto].
  destruct (total String.le a.1.2 b.1.2); auto.
Qed.

Lemma elem_of_open_rows team agent ts k r :
  (k, r) ∈ open_rows team agent ts <-> ts !! k = Some r /\ open_of team agent k r.
Proof.
  unfold open_rows. rewrite (merge_sort_Permutation queue_le).
  rewrite elem_of_map_to_list, map_lookup_filter_Some. done.
Qed.

Lemma open_rows_NoDup_fst team agent ts : NoDup (open_rows team agent ts).*1.
Proof.
  unfold open_rows. rewrite (merge_sort_Permutation queue_le). apply NoDup_fst_map_to_list.
Qed.

Lemma open_rows_sorted team agent ts : StronglySorted queue_le (open_rows team agent ts).
Proof. apply (StronglySorted_merge_sort queue_le _). Qed.

Lemma is_queue_NoDup ts team agent q : is_queue ts team agent q -> NoDup q.
Proof.
  intros [Hq _]. apply NoDup_alt. intros i j id Hi Hj.
  destruct (Hq _ _ Hi) as (r & Hr & _ & Hp), (Hq _ _ Hj) as (r' & Hr' & _ & Hp').
  simplify_eq. lia.
Qed.

(** The rows of a queue, in order. *)
Definition queue_rows (ts : gmap TaskKey TaskSqlRow) (team : TeamName) (q : list TaskId)
    : list (TaskKey * TaskSqlRow) :=
  omap (fun id => r ← ts !! (team, id); Some ((team, id), r)) q.

Lemma queue_rows_ids ts team agent q :
  is_queue ts team agent q -> (fun kr => kr.1.2) <$> queue_rows ts team q = q.
Proof.
  intros [Hq _].
  assert (Forall (fun id => is_Some (ts !! (team, id))) q) as Hall.
  { apply Forall_lookup. intros i id Hi. destruct (Hq _ _ Hi) as (r & Hr & _). eauto. }
  clear Hq. unfold queue_rows. induction Hall as [|id q [r Hr] _ IH]; [done|].
  cbn. rewrite Hr. cbn. f_equal. exact IH.
Qed.

Lemma elem_of_queue_rows ts team q k r :
  (k, r) ∈ queue_rows ts team q <-> k.1 = team /\ k.2 ∈ q /\ ts !! k = Some r.
Proof.
  unfold queue_rows. rewrite list_elem_of_omap. destruct k as [t id]; simpl. split.
  - intros (id' & Hin & Hb). apply bind_Some in Hb as (r' & Hr & Heq). by simplify_eq.
  - intros (-> & Hin & Hr). exists id. split; [done|]. by rewrite Hr.
Qed.

Lemma queue_rows_lookup ts team agent q i id :
  is_queue ts team agent q -> q !! i = Some id ->
  exists r, queue_rows ts team q !! i = Some ((team, id), r) /\ ts !! (team, id) = Some r
            /\ t_position r = Some (Z.of_nat i + 1).
Proof.
  intros Hq Hi. pose proof (queue_rows_ids _ _ _ _ Hq) as Hids.
  rewrite <- Hids in Hi. apply list_lookup_fmap_Some in Hi as ([[t id'] r] & -> & Hr).
  pose proof Hr as Hel. apply list_elem_of_lookup_2, elem_of_queue_rows in Hel as (Ht & _ & Hts).
  simpl in *. subst t. exists r. split_and!; [done..|].
  assert (q !! i = Some id') as Hi'.
  { rewrite <- Hids, list_lookup_fmap, Hr. done. }
  destruct (proj1 Hq _ _ Hi') as (r' & Hr' & _ & Hp). by simplify_eq.
Qed.

Lemma queue_rows_lookup_inv ts team agent q i kr :
  is_queue ts team agent q -> queue_rows ts team q !! i = Some kr ->
  q !! i = Some kr.1.2 /\ t_position kr.2 = Some (Z.of_nat i + 1).
Proof.
  intros Hq Hi. destruct kr as [[t id] r0]; simpl.
  assert (q !! i = Some id) as Hi'.
  { rewrite <- (queue_rows_ids _ _ _ _ Hq) at 1. rewrite list_lookup_fmap, Hi. done. }
  split; [done|]. destruct (queue_rows_lookup _ _ _ _ _ _ Hq Hi') as (r & Hr & _ & Hp).
  by simplify_eq.
Qed.

Lemma queue_rows_sorted ts team agent q :
  is_queue ts team agent q -> StronglySorted queue_le (queue_rows ts team q).
Proof.
  intros Hq. apply StronglySorted_lookup. intros i j x y Hij Hi Hj.
  apply (queue_rows_lookup_inv _ _ _ _ _ _ Hq) in Hi as [_ Hi], Hj as [_ Hj].
  left. unfold position_key. rewrite Hi, Hj. simpl. lia.
Qed.

Lemma open_rows_queue ts team agent q :
  is_queue ts team agent q -> open_rows team agent ts = queue_rows ts team q.
Proof.
  intros Hq. apply (StronglySorted_unique_strong queue_le).
  - intros [k1 r1] [k2 r2] H1 H2 H12 H21.
    apply elem_of_open_rows in H1 as [H1 Ho1].
    apply elem_of_queue_rows in H2 as (Ht2 & Hin2 & H2).
    apply list_elem_of_lookup in Hin2 as [j Hj].
    destruct k1 as [t1 id1], k2 as [t2 id2]. simpl in *. subst t2.
    destruct Ho1 as [Ht1 Ho1]. simpl in Ht1. subst t1.
    destruct (proj2 Hq id1 r1 H1) as [i Hi]; [by split|].
    destruct (proj1 Hq _ _ Hi) as (r1' & Hr1' & _ & Hp1).
    destruct (proj1 Hq _ _ Hj) as (r2' & Hr2' & _ & Hp2).
    simplify_eq. unfold queue_le, position_key in H12, H21. simpl in *.
    rewrite Hp1, Hp2 in H12, H21. simpl in *.
    assert (i = j) as -> by lia. by simplify_eq.
  - apply open_rows_sorted.
  - by apply queue_rows_sorted with agent.
  - apply NoDup_Permutation.
    + eapply NoDup_fmap_1, open_rows_NoDup_fst.
    + apply (NoDup_fmap_1 (fun kr => kr.1.2)). rewrite (queue_rows_ids _ _ _ _ Hq).
      by eapply is_queue_NoDup.
    + intros [[t id] r]. rewrite elem_of_open_rows, elem_of_queue_rows. simpl. split.
      * intros [Hr [Ht Ho]]. simpl in Ht. subst t. split_and!; [done| |done].
        destruct (proj2 Hq id r Hr) as [i Hi]; [by split|]. by eapply list_elem_of_lookup_2.
      * intros (-> & Hin & Hr). apply list_elem_of_lookup in Hin as [i Hi].
        destruct (proj1 Hq _ _ Hi) as (r' & Hr' & Ho & _). by simplify_eq.
Qed.

(** The queue is what [queue_order] reads. *)
Lemma open_rows_ids ts team agent q :
  is_queue ts team agent q -> (fun kr => kr.1.2) <$> open_rows team agent ts = q.
Proof. intros Hq. rewrite (open_rows_queue _ _ _ _ Hq). by eapply queue_rows_ids. Qed.

Lemma max_position_ub rows kr : kr ∈ rows -> position_key kr.2 <= max_position rows.
Proof.
  induction rows as [|kr' rows IH]; [by intros ?%not_elem_of_nil|].
  intros [->|Hin]%elem_of_cons; simpl; [lia|]. specialize (IH Hin). lia.
Qed.

Lemma max_position_nonneg rows : 0 <= max_position rows.
Proof. induction rows as [|kr rows IH]; simpl; lia. Qed.

Lemma max_position_lub rows n :
  0 <= n -> (forall kr, kr ∈ rows -> position_key kr.2 <= n) -> max_position rows <= n.
Proof.
  intros Hn. induction rows as [|kr rows IH]; simpl; intros H; [done|].
  apply Z.max_lub; [apply H; by left|]. apply IH. intros kr' Hin. apply H. by right.
Qed.

Lemma max_position_queue ts team agent q :
  is_queue ts team agent q -> max_position (open_rows team agent ts) = Z.of_nat (length q).
Proof.
  intros Hq. rewrite (open_rows_queue _ _ _ _ Hq). apply Z.le_antisymm.
  - apply max_position_lub; [lia|]. intros kr [i Hi]%list_elem_of_lookup.
    apply (queue_rows_lookup_inv _ _ _ _ _ _ Hq) in Hi as [Hi Hp].
    unfold position_key. rewrite Hp. simpl. apply lookup_lt_Some in Hi. lia.
  - destruct (decide (length q = 0)%nat) as [->|Hne]; [apply max_position_nonneg|].
    destruct (lookup_lt_is_Some_2 q (length q - 1)) as [id Hi]; [lia|].
    destruct (queue_rows_lookup _ _ _ _ _ _ Hq Hi) as (r & Hr & _ & Hp).
    apply list_elem_of_lookup_2, max_position_ub in Hr. unfold position_key in Hr; simpl in Hr.
    rewrite Hp in Hr. simpl in Hr. lia.
Qed.

Lemma is_queue_unique ts team agent q q' :
  is_queue ts team agent q -> is_queue ts team agent q' -> q = q'.
Proof. intros H H'. rewrite <- (open_rows_ids _ _ _ _ H). by apply open_rows_ids. Qed.

(** ** Statements on [tasks] *)

(** What SQLite itself maintains: the row constraints and the unique index. *)
Definition no_clash (ts : gmap TaskKey TaskSqlRow) : Prop :=
  forall k r k' r', ts !! k = Some r -> ts !! k' = Some r' -> ~ position_clash k r k' r'.

Definition sql_ok (ts : gmap TaskKey TaskSqlRow) : Prop := table_ok ts /\ no_clash ts.

Lemma position_clash_sym k r k' r' : position_clash k r k' r' -> position_clash k' r' k r.
Proof.
  unfold position_clash. intros (Hk & Ht & Hs & Hs' & Ha & Hp & He).
  split_and!; try done. by rewrite <- He.
Qed.

Lemma position_clash_irrefl k r r' : ~ position_clash k r k r'.
Proof. by intros [? _]. Qed.

Lemma store_task_row_Some k r ts ts' :
  store_task_row k r ts = Some ts' <->
  ts' = <[k := r]> ts /\ task_row_check r = true
  /\ (forall k' r', ts !! k' = Some r' -> ~ position_clash k r k' r').
Proof.
  unfold store_task_row, position_index_ok.
  destruct (task_row_check r); simpl; [|naive_solver].
  case_bool_decide as Hf; rewrite map_Forall_lookup in Hf; split; try naive_solver.
Qed.

Lemma store_task_row_sql_ok k r ts ts' :
  sql_ok ts -> store_task_row k r ts = Some ts' -> sql_ok ts'.
Proof.
  intros [Ht Hn] (-> & Hc & Hi)%store_task_row_Some. split.
  - by apply map_Forall_insert_2.
  - intros k1 r1 k2 r2 H1 H2 Hcl.
    destruct (decide (k1 = k)) as [->|Hk1], (decide (k2 = k)) as [->|Hk2].
    + by apply position_clash_irrefl in Hcl.
    + rewrite lookup_insert_ne in H2 by done. rewrite lookup_insert_eq in H1.
      injection H1 as <-. exact (Hi _ _ H2 Hcl).
    + rewrite lookup_insert_ne in H1 by done. rewrite lookup_insert_eq in H2.
      injection H2 as <-. exact (Hi _ _ H1 (position_clash_sym _ _ _ _ Hcl)).
    + rewrite lookup_insert_ne in H1, H2 by done. exact (Hn _ _ _ _ H1 H2 Hcl).
Qed.

Lemma update_rows_sql_ok f keys ts ts' :
  sql_ok ts -> update_rows f keys ts = Some ts' -> sql_ok ts'.
Proof.
  revert ts. induction keys as [|k keys IH]; intros ts Hok; simpl; [by intros [= <-]|].
  destruct (ts !! k) as [r|]; [|by apply IH].
  intros (ts1 & Hs & Hu)%bind_Some. eapply IH; [|exact Hu]. by eapply store_task_row_sql_ok.
Qed.

(** An [UPDATE] that collides with no row, old or new, succeeds whatever the row
    order, and its effect is pointwise. *)
Lemma update_rows_ok f keys ts :
  NoDup keys ->
  (forall k r, k ∈ keys -> ts !! k = Some r -> task_row_check (f r) = true) ->
  (forall k r k' r', k ∈ keys -> ts !! k = Some r -> ts !! k' = Some r' ->
     ~ position_clash k (f r) k' r') ->
  (forall k r k' r', k ∈ keys -> k' ∈ keys -> ts !! k = Some r -> ts !! k' = Some r' ->
     ~ position_clash k (f r) k' (f r')) ->
  exists ts', update_rows f keys ts = Some ts'
    /\ forall k, (k ∈ keys -> ts' !! k = f <$> ts !! k) /\ (k ∉ keys -> ts' !! k = ts !! k).
Proof.
  revert ts. induction keys as [|k keys IH]; intros ts Hnd Hc Hold Hnew; simpl.
  { exists ts. split; [done|]. intros k. set_solver. }
  apply NoDup_cons in Hnd as [Hk Hnd].
  destruct (ts !! k) as [r|] eqn:Hr.
  - assert (store_task_row k (f r) ts = Some (<[k := f r]> ts)) as ->.
    { apply store_task_row_Some. split_and!; [done|by apply (Hc k); [left|]|].
      intros k' r'. apply (Hold k r k' r'); [by left|done]. }
    simpl. destruct (IH (<[k := f r]> ts)) as (ts' & Hu & Hts'); [done| | | |].
    + intros k' r' Hk' Hr'. rewrite lookup_insert_ne in Hr' by set_solver.
      apply (Hc k'); [by right|done].
    + intros k1 r1 k2 r2 Hk1 H1 H2. rewrite lookup_insert_ne in H1 by set_solver.
      apply lookup_insert_Some in H2 as [[<- <-]|[Hne H2]].
      * apply (Hnew k1 r1 k r); [by right|by left|done..].
      * apply (Hold k1 r1 k2 r2); [by right|done..].
    + intros k1 r1 k2 r2 Hk1 Hk2 H1 H2. rewrite lookup_insert_ne in H1, H2 by set_solver.
      apply (Hnew k1 r1 k2 r2); [by right|by right|done..].
    + exists ts'. split; [done|]. intros k'. destruct (Hts' k') as [Hin Hout]. split.
      * intros [->|Hk']%elem_of_cons.
        -- rewrite Hout by done. by rewrite lookup_insert_eq, Hr.
        -- rewrite Hin by done. rewrite lookup_insert_ne by set_solver. done.
      * intros [Hne Hk']%not_elem_of_cons. rewrite Hout by done. by rewrite lookup_insert_ne.
  - destruct (IH ts) as (ts' & Hu & Hts'); [done| | | |].
    + intros k' r' Hk'. apply Hc. by right.
    + intros k1 r1 k2 r2 Hk1. apply Hold. by right.
    + intros k1 r1 k2 r2 Hk1 Hk2. apply Hnew; by right.
    + exists ts'. split; [done|]. intros k'. destruct (Hts' k') as [Hin Hout]. split.
      * intros [->|Hk']%elem_of_cons; [|by apply Hin]. rewrite Hout by done. by rewrite Hr.
      * intros [Hne Hk']%not_elem_of_cons. by apply Hout.
Qed.

Lemma elem_of_select_keys (P : TaskKey -> TaskSqlRow -> Prop) `{!forall k r, Decision (P k r)} ts k :
  k ∈ select_keys P ts <-> exists r, ts !! k = Some r /\ P k r.
Proof.
  unfold select_keys. rewrite list_elem_of_fmap. split.
  - intros ([k' r] & -> & Hin). rewrite elem_of_map_to_list, map_lookup_filter_Some in Hin. eauto.
  - intros (r & Hr & HP). exists (k, r). split; [done|].
    by rewrite elem_of_map_to_list, map_lookup_filter_Some.
Qed.

Lemma select_keys_NoDup (P : TaskKey -> TaskSqlRow -> Prop) `{!forall k r, Decision (P k r)} ts :
  NoDup (select_keys P ts).
Proof. apply NoDup_fst_map_to_list. Qed.

(** ** Renumbering *)

(** The table in which [order] is stored at positions [1..n]. *)
Definition renumbered (ts : gmap TaskKey TaskSqlRow) (team : TeamName) (order : list TaskId)
    : gmap TaskKey TaskSqlRow :=
  map_imap (fun k r =>
    Some (if decide (k.1 = team)
          then match position_of k.2 order with
               | Some i => set_position (Some (Z.of_nat i + 1)) r
               | None => r
               end
          else r)) ts.

Lemma position_of_Some id order i :
  position_of id order = Some i -> order !! i = Some id.
Proof.
  revert i. induction order as [|id' order IH]; intros i; simpl; [done|].
  case_bool_decide; [by intros [= <-]; subst|].
  intros (j & Hj & ->)%fmap_Some. simpl. by apply IH.
Qed.

Lemma position_of_None id order : position_of id order = None <-> id ∉ order.
Proof.
  induction order as [|id' order IH]; simpl; [set_solver|].
  case_bool_decide; [set_solver|]. rewrite fmap_None, IH. set_solver.
Qed.

Lemma position_of_lookup id order i :
  NoDup order -> order !! i = Some id -> position_of id order = Some i.
Proof.
  intros Hnd Hi. destruct (position_of id order) as [j|] eqn:Hj.
  - apply position_of_Some in Hj. f_equal. by eapply NoDup_lookup.
  - apply position_of_None in Hj. destruct Hj. by eapply list_elem_of_lookup_2.
Qed.

Lemma position_of_app_l id l1 l2 i :
  position_of id l1 = Some i -> position_of id (l1 ++ l2) = Some i.
Proof.
  revert i. induction l1 as [|id' l1 IH]; intros i; simpl; [done|].
  case_bool_decide; [done|]. intros (j & Hj & ->)%fmap_Some. by rewrite (IH _ Hj).
Qed.

Lemma position_of_app_r id l1 l2 :
  id ∉ l1 -> position_of id (l1 ++ l2) = (fun i => length l1 + i)%nat <$> position_of id l2.
Proof.
  induction l1 as [|id' l1 IH]; simpl; intros Hn; [by destruct (position_of id l2)|].
  rewrite bool_decide_eq_false_2 by set_solver. rewrite IH by set_solver.
  by destruct (position_of id l2).
Qed.

Lemma set_position_set p q r : set_position p (set_position q r) = set_position p r.
Proof. done. Qed.

Lemma set_position_check (i : nat) r :
  task_row_check r = true -> t_state r <> "complete" ->
  task_row_check (set_position (Some (Z.of_nat i + 1)) r) = true.
Proof.
  unfold task_row_check, set_position; simpl. rewrite !andb_true_iff.
  intros [[[[H1 H2] H3] H4] H5] Hs. split_and!; try done.
  - apply bool_decide_eq_true_2. lia.
  - apply bool_decide_eq_true_2. naive_solver.
Qed.

Lemma renumbered_lookup ts team order k :
  renumbered ts team order !! k =
  (fun r => if decide (k.1 = team)
            then match position_of k.2 order with
                 | Some i => set_position (Some (Z.of_nat i + 1)) r
                 | None => r
                 end
            else r) <$> ts !! k.
Proof. unfold renumbered. rewrite map_lookup_imap. by destruct (ts !! k). Qed.

(** [order] lists exactly the open tasks of the member. *)
Definition covers (ts : gmap TaskKey TaskSqlRow) (team : TeamName) (agent : AgentName)
    (order : list TaskId) : Prop :=
  forall id, id ∈ order <-> exists r, ts !! (team, id) = Some r /\ open_of team agent (team, id) r.

Lemma is_queue_covers ts team agent q : is_queue ts team agent q -> covers ts team agent q.
Proof.
  intros [H1 H2] id. rewrite list_elem_of_lookup. split.
  - intros [i Hi]. destruct (H1 _ _ Hi) as (r & Hr & Ho & _). eauto.
  - intros (r & Hr & Ho). eauto.
Qed.

(** Renumbering an order that covers the member's open tasks yields its queue. *)
Lemma renumbered_is_queue ts team agent order :
  NoDup order -> covers ts team agent order ->
  is_queue (renumbered ts team order) team agent order.
Proof.
  intros Hnd Hcov. split.
  - intros i id Hi. destruct (proj1 (Hcov id)) as (r & Hr & Ho);
      [by eapply list_elem_of_lookup_2|].
    exists (set_position (Some (Z.of_nat i + 1)) r).
    rewrite renumbered_lookup, Hr. simpl. rewrite decide_True by done.
    by rewrite (position_of_lookup _ _ _ Hnd Hi).
  - intros id r' Hr' Ho'. rewrite renumbered_lookup in Hr'. apply fmap_Some in Hr' as (r & Hr & ->).
    simpl in Ho'. rewrite decide_True in Ho' by done.
    apply list_elem_of_lookup, Hcov. exists r. split; [done|].
    by destruct (position_of id order).
Qed.

(** It moves no row of another member. *)
Lemma renumbered_other ts team agent order k r :
  covers ts team agent order -> ts !! k = Some r -> ~ open_of team agent k r ->
  renumbered ts team order !! k = Some r.
Proof.
  intros Hcov Hr Hno. rewrite renumbered_lookup, Hr. simpl.
  destruct (decide (k.1 = team)) as [Ht|]; [|done].
  destruct (position_of k.2 order) as [i|] eqn:Hp; [|done].
  apply position_of_Some, list_elem_of_lookup_2, Hcov in Hp as (r' & Hr' & Ho).
  destruct k as [t id]; simpl in *; subst t. by simplify_eq.
Qed.

Lemma open_of_set_position team agent k p r :
  open_of team agent k (set_position p r) <-> open_of team agent k r.
Proof. done. Qed.

Lemma renumbered_row ts team order k r' :
  renumbered ts team order !! k = Some r' ->
  exists r, ts !! k = Some r /\ (r' = r \/ exists i, position_of k.2 order = Some i /\ k.1 = team
      /\ r' = set_position (Some (Z.of_nat i + 1)) r).
Proof.
  rewrite renumbered_lookup. intros (r & Hr & ->)%fmap_Some. exists r. split; [done|].
  destruct (decide (k.1 = team)); [|by left].
  destruct (position_of k.2 order) as [i|]; [right; by exists i|by left].
Qed.

Lemma renumbered_is_queue_other ts team agent order team' agent' q :
  covers ts team agent order -> (team', agent') <> (team, agent) ->
  is_queue ts team' agent' q -> is_queue (renumbered ts team order) team' agent' q.
Proof.
  intros Hcov Hne [H1 H2]. split.
  - intros i id Hi. destruct (H1 _ _ Hi) as (r & Hr & Ho & Hp). exists r. split_and!; [|done..].
    eapply renumbered_other; [done..|]. intros Ho'. apply Hne.
    destruct Ho as (? & <- & ?), Ho' as (? & <- & ?). simpl in *. congruence.
  - intros id r' Hr' Ho'. apply renumbered_row in Hr' as (r & Hr & Hcase).
    apply (H2 id r); [done|]. by destruct Hcase as [->|(i & _ & _ & ->)].
Qed.

(** ** The two phases *)

(** Phase one: every open row of the member moved up by [offset]. *)
Definition shifted (ts : gmap TaskKey TaskSqlRow) (team : TeamName) (agent : AgentName)
    (offset : Z) : gmap TaskKey TaskSqlRow :=
  map_imap (fun k r => Some (if decide (open_of team agent k r)
                             then shift_position offset r else r)) ts.

Lemma shifted_lookup ts team agent offset k :
  shifted ts team agent offset !! k =
  (fun r => if decide (open_of team agent k r) then shift_position offset r else r) <$> ts !! k.
Proof. unfold shifted. rewrite map_lookup_imap. by destruct (ts !! k). Qed.

Lemma table_position ts k r :
  table_ok ts -> ts !! k = Some r -> t_state r <> "complete" ->
  exists p, t_position r = Some p /\ 1 <= p.
Proof.
  intros Hok Hr Hs. destruct (task_row_check_state r (Hok _ _ Hr)) as (s & _ & _ & _ & H1 & H2 & H3).
  destruct (proj1 H2 (proj2 H1 Hs)) as [p Hp]. eauto.
Qed.

Lemma open_position_le_max ts team agent k r p :
  ts !! k = Some r -> open_of team agent k r -> t_position r = Some p ->
  p <= max_position (open_rows team agent ts).
Proof.
  intros Hr Ho Hp. assert ((k, r) ∈ open_rows team agent ts) as Hin by by apply elem_of_open_rows.
  apply max_position_ub in Hin. unfold position_key in Hin. simpl in Hin. by rewrite Hp in Hin.
Qed.

Lemma shift_position_check offset r :
  0 <= offset -> task_row_check r = true -> task_row_check (shift_position offset r) = true.
Proof.
  unfold task_row_check, shift_position, set_position; simpl. rewrite !andb_true_iff.
  intros Ho [[[[H1 H2] H3] H4] H5].
  destruct (t_position r) as [p|]; simpl; [|by split_and!].
  apply bool_decide_eq_true_1 in H3, H5. split_and!; [done|done| |done|];
    apply bool_decide_eq_true_2; [lia|naive_solver].
Qed.

Section Phases.
Context {rt : Runtime} {rtok : RuntimeOk rt}.

Lemma scan_select_keys (P : TaskKey -> TaskSqlRow -> Prop) `{!forall k r, Decision (P k r)} ts k :
  k ∈ scan (select_keys P ts) <-> exists r, ts !! k = Some r /\ P k r.
Proof. rewrite (scan_perm (select_keys P ts)). apply elem_of_select_keys. Qed.

(** Phase one never collides, whatever order SQLite visits the rows in. *)
Lemma shift_rows_ok ts team agent offset :
  sql_ok ts -> max_position (open_rows team agent ts) <= offset ->
  update_rows (shift_position offset) (scan (select_keys (open_of team agent) ts)) ts
  = Some (shifted ts team agent offset).
Proof.
  intros [Hok Hnc] Hmax. pose proof (max_position_nonneg (open_rows team agent ts)) as Hnn.
  destruct (update_rows_ok (shift_position offset) (scan (select_keys (open_of team agent) ts)) ts)
    as (ts' & -> & Hts').
  - rewrite (scan_perm _). apply select_keys_NoDup.
  - intros k r _ Hr. apply shift_position_check; [lia|]. by apply (Hok k).
  - intros k r k' r' Hk Hr Hr' (Hne & Ht & Hs & Hs' & Ha & _ & Hp).
    apply scan_select_keys in Hk as (r0 & Hr0 & Ho).
    assert (r0 = r) as -> by congruence.
    destruct (table_position ts k r) as (p & Hpr & Hp1); [done..|].
    destruct (table_position ts k' r') as (p' & Hpr' & Hp1'); [done..|].
    simpl in *. rewrite Hpr, Hpr' in Hp. simpl in Hp. injection Hp as Hp.
    assert (p' <= offset); [|lia]. etrans; [|exact Hmax].
    apply (open_position_le_max ts team agent k' r'); [done| |done].
    destruct Ho as (? & ? & ?). split_and!; congruence.
  - intros k r k' r' Hk Hk' Hr Hr' (Hne & Ht & Hs & Hs' & Ha & _ & Hp).
    destruct (table_position ts k r) as (p & Hpr & _); [done..|].
    destruct (table_position ts k' r') as (p' & Hpr' & _); [done..|].
    simpl in *. rewrite Hpr, Hpr' in Hp. simpl in Hp. injection Hp as Hp.
    apply (Hnc k r k' r' Hr Hr'). split_and!; [done..| |]; [by eexists|].
    rewrite Hpr, Hpr'. f_equal. lia.
  - f_equal. apply map_eq. intros k. rewrite shifted_lookup.
    destruct (Hts' k) as [Hin Hout]. destruct (ts !! k) as [r|] eqn:Hr; simpl in *.
    + destruct (decide (open_of team agent k r)) as [Ho|Hno].
      * apply Hin. apply scan_select_keys. eauto.
      * apply Hout. rewrite scan_select_keys. intros (r' & ? & ?). by simplify_eq.
    + apply Hout. rewrite scan_select_keys. intros (r' & ? & ?). by simplify_eq.
Qed.

Lemma shift_run context team agent offset w :
  sql_ok (tasks (db w)) -> max_position (open_rows team agent (tasks (db w))) <= offset ->
  update_tasks context (open_of team agent) (shift_position offset) w
  = (Ok tt, with_db (set_tasks (shifted (tasks (db w)) team agent offset)) w).
Proof.
  intros Hok Hmax. unfold update_tasks, mbind, M_bind, st_mbind, st_bind, get_db.
  by rewrite shift_rows_ok.
Qed.

Lemma shifted_sql_ok ts team agent offset :
  sql_ok ts -> max_position (open_rows team agent ts) <= offset ->
  sql_ok (shifted ts team agent offset).
Proof. intros Hok Hmax. eapply update_rows_sql_ok; [done|]. by apply shift_rows_ok. Qed.

(** Phase two: rows outside the written prefix sit above the range. *)
Definition above (ts : gmap TaskKey TaskSqlRow) (team : TeamName) (agent : AgentName)
    (written : list TaskId) (n : Z) : Prop :=
  forall id r p, ts !! (team, id) = Some r -> open_of team agent (team, id) r ->
    t_position r = Some p ->
    (exists i, written !! i = Some id /\ p = Z.of_nat i + 1) \/ n < p.

Lemma update_task_run context k r f w :
  tasks (db w) !! k = Some r -> task_row_check (f r) = true ->
  (forall k' r', tasks (db w) !! k' = Some r' -> ~ position_clash k (f r) k' r') ->
  update_task context k f w = (Ok tt, with_db (set_tasks (<[k := f r]> (tasks (db w)))) w).
Proof.
  intros Hr Hc Hn. unfold update_task, mbind, M_bind, st_mbind, st_bind, get_db. simpl.
  rewrite Hr. rewrite (proj2 (store_task_row_Some k (f r) (tasks (db w)) _)) by done. done.
Qed.

(** Writing the next position of a partly renumbered queue: the row fits, the
    index holds, and the rest is still above. *)
Lemma write_next_position team agent id r written n w :
  sql_ok (tasks (db w)) -> tasks (db w) !! (team, id) = Some r -> open_of team agent (team, id) r ->
  above (tasks (db w)) team agent written n -> Z.of_nat (length written) + 1 <= n ->
  let ts' := <[(team, id) := set_position (Some (Z.of_nat (length written) + 1)) r]> (tasks (db w)) in
  update_task "failed to renumber task queue" (team, id)
    (set_position (Some (Z.of_nat (length written) + 1))) w = (Ok tt, with_db (set_tasks ts') w)
  /\ sql_ok ts' /\ above ts' team agent (written ++ [id]) n.
Proof.
  intros Hok Hr Ho Habove Hn ts'.
  assert (Hrun : update_task "failed to renumber task queue" (team, id)
      (set_position (Some (Z.of_nat (length written) + 1))) w = (Ok tt, with_db (set_tasks ts') w)).
  { apply update_task_run; [done| |].
    - apply set_position_check; [by apply (proj1 Hok (team, id))|apply Ho].
    - intros [t2 id2] r2 Hr2 (Hne & Ht & Hs & Hs2 & Ha & _ & Hp). simpl in *. subst t2.
      destruct (Habove id2 r2 (Z.of_nat (length written) + 1)) as [(i & Hi & Hpi)|Hgt];
        [done|destruct Ho as (_ & <- & _); by split_and!|done| |lia].
      apply lookup_lt_Some in Hi. lia. }
  split_and!; [done| |].
  - unfold update_task, mbind, M_bind, st_mbind, st_bind, get_db in Hrun.
    destruct (update_rows _ [(team, id)] _) as [tsu|] eqn:Hu in Hrun; [|done].
    injection Hrun as Heq. apply (update_rows_sql_ok _ _ _ _ Hok) in Hu. by rewrite <- Heq.
  - intros id2 r2 p Hr2 Ho2 Hp. apply lookup_insert_Some in Hr2 as [[[= <-] <-]|[Hne Hr2]].
    + left. exists (length written). rewrite lookup_app_r, Nat.sub_diag by lia.
      split; [done|]. simpl in Hp. by simplify_eq.
    + destruct (Habove id2 r2 p Hr2 Ho2 Hp) as [(i & Hi & ->)|Hgt]; [|by right].
      left. exists i. split; [|done]. by apply lookup_app_l_Some.
Qed.

Lemma write_positions_run team agent rest : forall written w,
  sql_ok (tasks (db w)) -> NoDup (written ++ rest) ->
  Z.of_nat (length written + length rest) <= i64_max ->
  (forall id, id ∈ rest -> exists r, tasks (db w) !! (team, id) = Some r
                                     /\ open_of team agent (team, id) r) ->
  above (tasks (db w)) team agent written (Z.of_nat (length written + length rest)) ->
  exists ts', write_queue_positions_from team (length written) rest w
              = (Ok tt, with_db (set_tasks ts') w)
    /\ sql_ok ts'
    /\ forall k, ts' !! k =
         (fun r => if decide (k.1 = team)
                   then match position_of k.2 rest with
                        | Some i => set_position (Some (Z.of_nat (length written + i) + 1)) r
                        | None => r
                        end
                   else r) <$> tasks (db w) !! k.
Proof.
  induction rest as [|id rest IH]; intros written w Hok Hnd Hlen Hopen Habove.
  { exists (tasks (db w)). split_and!; [by destruct w as [[] ?]|done|].
    intros k. destruct (tasks (db w) !! k); simpl; [|done]. by destruct (decide _). }
  destruct (Hopen id) as (r & Hr & Ho); [by left|].
  assert (Hnr : id ∉ rest) by (apply NoDup_app in Hnd as (_ & _ & Hnd%NoDup_cons); tauto).
  destruct (write_next_position team agent id r written _ w Hok Hr Ho Habove) as (Hrun & Hok1 & Hab1);
    [simpl; lia|].
  set (ts1 := <[(team, id) := _]> _) in *.
  destruct (IH (written ++ [id]) (with_db (set_tasks ts1) w)) as (ts' & Hw & Hok' & Hts'); simpl.
  - done.
  - by rewrite <- app_assoc.
  - rewrite length_app. simpl in *. lia.
  - intros id2 Hin. destruct (Hopen id2) as (r2 & ? & ?); [by right|].
    exists r2. unfold ts1. rewrite lookup_insert_ne; [done|]. intros [= ->]. done.
  - rewrite length_app. simpl in *. by replace (length written + 1 + length rest)%nat
      with (length written + S (length rest))%nat by lia.
  - exists ts'. split_and!; [|done|].
    + unfold ok_or, i64_try_from. rewrite bool_decide_eq_true_2 by (simpl in Hlen; lia).
      step. run Hrun. rewrite length_app, Nat.add_1_r in Hw. exact Hw.
    + intros k. rewrite Hts'. simpl. unfold ts1. destruct (decide (k = (team, id))) as [->|Hk].
      * rewrite lookup_insert_eq, Hr. simpl. rewrite !decide_True by done.
        rewrite bool_decide_eq_true_2 by done.
        rewrite (proj2 (position_of_None id rest) Hnr). by rewrite Nat.add_0_r.
      * rewrite lookup_insert_ne by done. destruct (tasks (db w) !! k) as [r2|]; simpl; [|done].
        destruct (decide (k.1 = team)); [|done].
        rewrite bool_decide_eq_false_2 by (destruct k; simpl in *; congruence).
        destruct (position_of k.2 rest) as [i|]; simpl; [|done].
        rewrite length_app. simpl. do 3 f_equal. lia.
Qed.
End Phases.

Section Renumber.
Context {rt : Runtime} {rtok : RuntimeOk rt}.

(** A fresh numbering over a shifted queue. *)
Lemma write_positions_shifted ts team agent offset order w :
  sql_ok ts -> max_position (open_rows team agent ts) <= offset ->
  NoDup order -> Z.of_nat (length order) <= offset -> offset <= i64_max ->
  (forall id, id ∈ order -> exists r, ts !! (team, id) = Some r
                                      /\ open_of team agent (team, id) r) ->
  tasks (db w) = shifted ts team agent offset ->
  write_queue_positions team order w
  = (Ok tt, with_db (set_tasks (renumbered (shifted ts team agent offset) team order)) w)
  /\ sql_ok (renumbered (shifted ts team agent offset) team order).
Proof.
  intros Hok Hmax Hnd Hlen Hoff Hopen Hw.
  destruct (write_positions_run team agent order [] w) as (ts' & Hrun & Hok' & Hts').
  - rewrite Hw. by apply shifted_sql_ok.
  - done.
  - simpl. lia.
  - intros id Hin. destruct (Hopen id Hin) as (r & Hr & Ho). rewrite Hw, shifted_lookup, Hr.
    exists (shift_position offset r). simpl. by rewrite decide_True.
  - rewrite Hw. intros id r' p Hr' Ho' Hp. right. simpl.
    rewrite shifted_lookup in Hr'. apply fmap_Some in Hr' as (r & Hr & ->).
    destruct (decide (open_of team agent (team, id) r)) as [Ho|Hno]; [|done].
    destruct (table_position ts (team, id) r) as (p0 & Hp0 & Hp1); [apply Hok|done|apply Ho|].
    simpl in Hp. rewrite Hp0 in Hp. simpl in Hp. injection Hp as <-. lia.
  - assert (ts' = renumbered (shifted ts team agent offset) team order) as ->.
    { apply map_eq. intros k. rewrite Hts', renumbered_lookup, Hw. done. }
    done.
Qed.

Lemma renumbered_shifted ts team agent offset order :
  covers ts team agent order ->
  renumbered (shifted ts team agent offset) team order = renumbered ts team order.
Proof.
  intros Hcov. apply map_eq. intros k. rewrite !renumbered_lookup, shifted_lookup.
  destruct (ts !! k) as [r|] eqn:Hr; simpl; [|done].
  destruct (decide (k.1 = team)) as [Ht|Ht];
    destruct (decide (open_of team agent k r)) as [Ho|Hno]; try done.
  - destruct (position_of k.2 order) as [i|] eqn:Hp; [done|].
    apply position_of_None in Hp. destruct Hp. apply Hcov. exists r.
    destruct k; simpl in *; subst. done.
  - by destruct Ho.
Qed.

(** [renumber_queue] writes exactly [1..n] in the requested order, touches no
    other row and never meets the unique index. *)
Lemma renumber_queue_run team agent order w :
  sql_ok (tasks (db w)) -> NoDup order -> covers (tasks (db w)) team agent order ->
  max_position (open_rows team agent (tasks (db w))) + Z.of_nat (length order) <= i64_max ->
  renumber_queue team agent order w
  = (Ok tt, with_db (set_tasks (renumbered (tasks (db w)) team order)) w)
  /\ sql_ok (renumbered (tasks (db w)) team order).
Proof.
  intros Hok Hnd Hcov Hmax.
  set (ts := tasks (db w)) in *. set (mx := max_position (open_rows team agent ts)) in *.
  assert (0 <= mx) as Hmx by apply max_position_nonneg.
  set (off := mx + Z.of_nat (length order)).
  set (w1 := with_db (set_tasks (shifted ts team agent off)) w).
  destruct (write_positions_shifted ts team agent off order w1) as [Hwr Hok'];
    [done|unfold off, mx; lia|done|unfold off; lia|done| |done|].
  { intros id Hin. by apply Hcov. }
  rewrite (renumbered_shifted ts) in Hwr, Hok' by done.
  split; [|done]. unfold renumber_queue, mbind, M_bind, st_mbind, st_bind, get_db.
  fold ts. fold mx. unfold i64_checked_add, i64_try_from. unfold ok_or at 1.
  rewrite bool_decide_eq_true_2 by lia. simpl. fold off.
  rewrite bool_decide_eq_true_2 by done. simpl.
  rewrite shift_run by (try done; unfold off, mx; fold ts; lia).
  fold ts. fold w1. rewrite Hwr. simpl.
  rewrite (max_position_queue _ _ _ order) by by apply renumbered_is_queue.
  rewrite (open_rows_queue _ _ _ order) by by apply renumbered_is_queue.
  assert (length (queue_rows (renumbered ts team order) team order) = length order) as ->.
  { rewrite <- (length_fmap (fun kr : TaskKey * TaskSqlRow => kr.1.2)).
    by rewrite (queue_rows_ids _ team agent) by by apply renumbered_is_queue. }
  rewrite bool_decide_eq_false_2 by (intros []; done). by destruct w as [[] ?].
Qed.

Lemma queue_order_run team agent q w :
  is_queue (tasks (db w)) team agent q -> queue_order team agent w = (Ok q, w).
Proof.
  intros Hq. unfold queue_order, mbind, M_bind, st_mbind, st_bind, get_db. simpl.
  by rewrite (open_rows_ids _ _ _ _ Hq).
Qed.
End Renumber.

(** The ledger is small enough for its [u32] positions: a reassignment briefly
    stores a position up to twice the length of a queue. *)
Definition queues_bounded (ts : gmap TaskKey TaskSqlRow) : Prop :=
  2 * Z.of_nat (size ts) < u32_max.

Lemma open_ids_size ts team agent order :
  NoDup order -> covers ts team agent order -> (length order <= size ts)%nat.
Proof.
  intros Hnd Hcov. rewrite <- (size_dom (D := gset TaskKey)).
  rewrite <- (length_fmap (pair team)).
  rewrite <- (size_list_to_set (C := gset TaskKey) (pair team <$> order)).
  - apply subseteq_size. intros k. rewrite elem_of_list_to_set, list_elem_of_fmap.
    intros (id & -> & Hin). apply Hcov in Hin as (r & Hr & _). by apply elem_of_dom.
  - by apply NoDup_fmap_2; [congruence|].
Qed.
