(* ===== verification/LedgerInv.v ===== *)
(** * The ledger invariant

    [ledger_ok ts]: SQLite's constraints hold, every member's open tasks are
    stored at positions 1..n, a member's active tasks lead its queue, and the
    counters fit their columns.  This file gives the reading lemmas (rows
    decode, the queue splits into active and waiting tasks) and the writing
    lemmas (a row rewritten and a queue renumbered keep the invariant) that the
    operations of [TaskOps.v] are verified with. *)

From S2P Require Import Prelude ErrorCodes Types TaskState Database TaskCodec TaskQueue QueueFacts.
From stdpp Require Import base gmap strings list numbers sorting.
Local Open Scope Z_scope.
Local Open Scope string_scope.
Local Open Scope list_scope.

(** ** Definitions *)

Definition state_at (ts : gmap TaskKey TaskSqlRow) (team : TeamName) (s : string) (id : TaskId)
    : Prop :=
  exists r, ts !! (team, id) = Some r /\ t_state r = s.

(** [q] is a block of active tasks followed by a block of waiting ones. *)
Definition split_queue (ts : gmap TaskKey TaskSqlRow) (team : TeamName) (qa qw : list TaskId)
    : Prop :=
  Forall (state_at ts team "active") qa /\ Forall (state_at ts team "assigned") qw.

(** The member's queue, with its active and waiting parts. *)
Definition member_queue (ts : gmap TaskKey TaskSqlRow) (team : TeamName) (agent : AgentName)
    (qa qw : list TaskId) : Prop :=
  is_queue ts team agent (qa ++ qw) /\ split_queue ts team qa qw.

Definition counts_ok (ts : gmap TaskKey TaskSqlRow) : Prop :=
  map_Forall (fun _ r => 0 <= t_reminder_count r <= u32_max
                         /\ 0 <= t_lead_notified_count r <= u32_max) ts.

Definition ledger_ok (ts : gmap TaskKey TaskSqlRow) : Prop :=
  sql_ok ts /\ counts_ok ts
  /\ forall team agent, exists qa qw, member_queue ts team agent qa qw.

(** ** Reading *)

(** A typed row shows what its columns hold. *)
Record row_view (k : TaskKey) (r : TaskSqlRow) (row : TaskRow) : Prop := mkRowView {
  view_team : row_team row = k.1;
  view_task_id : row_task_id row = k.2;
  view_assignee : row_assignee row = t_assignee r;
  view_assigner : row_assigner row = t_assigner r;
  view_state : t_state r = TaskState_as_str (row_state row);
  view_outcome : t_close_outcome r = TaskCloseOutcome_as_str <$> close_outcome (row_state row);
  view_position : row_position row = t_position r;
  view_message : row_assignment_message_id row = t_assignment_message_id r;
  view_open : is_open (row_state row) = true <-> t_state r <> "complete"
}.

Lemma ledger_position_bound ts k r p :
  ledger_ok ts -> ts !! k = Some r -> t_position r = Some p -> 1 <= p <= Z.of_nat (size ts).
Proof.
  intros ([Hok _] & _ & Hq) Hr Hp.
  destruct (task_row_check_state r (Hok _ _ Hr)) as (s & _ & _ & _ & Ho & Hpos & H1).
  split; [by apply H1|]. destruct k as [team id].
  destruct (Hq team (t_assignee r)) as (qa & qw & Hque & _).
  assert (open_of team (t_assignee r) (team, id) r) as Hopen.
  { split_and!; [done..|]. apply Ho, Hpos. by eexists. }
  destruct (proj2 Hque id r Hr Hopen) as [i Hi].
  destruct (proj1 Hque i id Hi) as (r' & Hr' & _ & Hp'). simplify_eq.
  apply lookup_lt_Some in Hi.
  pose proof (open_ids_size ts team (t_assignee r) (qa ++ qw) (is_queue_NoDup _ _ _ _ Hque)
                (is_queue_covers _ _ _ _ Hque)). lia.
Qed.

(** Every row decodes: the constraints hold and the numbers fit [u32]. *)
Definition readable (ts : gmap TaskKey TaskSqlRow) : Prop :=
  table_ok ts /\ counts_ok ts
  /\ map_Forall (fun _ r => forall p, t_position r = Some p -> 1 <= p <= u32_max) ts.

Lemma ledger_readable ts : ledger_ok ts -> queues_bounded ts -> readable ts.
Proof.
  intros Hl Hb. pose proof Hl as ([Hok _] & Hc & _). split_and!; [done..|]. intros k r Hr p Hp.
  pose proof (ledger_position_bound ts k r p Hl Hr Hp). unfold queues_bounded in Hb. lia.
Qed.

#[export] Hint Resolve ledger_readable : atm.

Lemma decode_row_view ts k r :
  readable ts -> ts !! k = Some r -> exists row, decode_row k r = Ok row /\ row_view k r row.
Proof.
  intros (Hok & Hc & Hps) Hr. specialize (Hps _ _ Hr). simpl in Hps.
  destruct (task_row_check_state r (Hok _ _ Hr)) as (s & Hs & Hst & Hout & Ho & _ & _).
  destruct (Hc _ _ Hr) as [Hc1 Hc2].
  unfold decode_row, get_u32, u32_try_from.
  assert (Hp : option_traverse get_u32 (t_position r) = Ok (t_position r)
               /\ t_position r ≫= queue_position_new = t_position r).
  { destruct (t_position r) as [p|] eqn:Hp; [|done]. specialize (Hps p eq_refl). simpl.
    unfold get_u32, u32_try_from, queue_position_new.
    rewrite bool_decide_eq_true_2 by lia. rewrite bool_decide_eq_false_2 by lia. done. }
  destruct Hp as [Hp Hp']. unfold get_u32, u32_try_from in Hp.
  rewrite Hp. simpl. rewrite !bool_decide_eq_true_2 by done. simpl. rewrite Hs. simpl.
  eexists. split; [done|]. constructor; simpl; done.
Qed.

Section Reading.
Context {rt : Runtime}.

Lemma load_task_row_none team id w :
  tasks (db w) !! (team, id) = None -> load_task_row team id w = (Ok None, w).
Proof. intros Hn. unfold load_task_row, select_task_row. run run_get_db. by rewrite Hn. Qed.

Lemma load_task_row_some team id r w :
  readable (tasks (db w)) -> tasks (db w) !! (team, id) = Some r ->
  exists row, load_task_row team id w = (Ok (Some row), w) /\ row_view (team, id) r row.
Proof.
  intros Hrd Hr. destruct (decode_row_view _ _ _ Hrd Hr) as (row & Hd & Hv).
  exists row. split; [|done]. unfold load_task_row, select_task_row. run run_get_db. rewrite Hr. cbn.
  by rewrite Hd.
Qed.
End Reading.

Lemma open_state_cases ts k r :
  table_ok ts -> ts !! k = Some r -> t_state r <> "complete" ->
  t_state r = "assigned" \/ t_state r = "active".
Proof.
  intros Hok Hr Hs. destruct (task_row_check_state r (Hok _ _ Hr)) as (s & _ & Hst & _).
  destruct s; simpl in *; auto; done.
Qed.

Lemma state_at_unique ts team s s' id :
  state_at ts team s id -> state_at ts team s' id -> s = s'.
Proof. intros (r & Hr & <-) (r' & Hr' & <-). by simplify_eq. Qed.

(** Which part of the queue an open task is in is told by its state. *)
Lemma member_queue_mem ts team agent qa qw id r :
  member_queue ts team agent qa qw -> ts !! (team, id) = Some r -> open_of team agent (team, id) r ->
  (id ∈ qa <-> t_state r = "active") /\ (id ∈ qw <-> t_state r = "assigned").
Proof.
  intros [Hq [Ha Hw]] Hr Ho. rewrite Forall_forall in Ha, Hw.
  assert (id ∈ qa \/ id ∈ qw) as Hin.
  { apply elem_of_app. destruct (proj2 Hq id r Hr Ho) as [i Hi]. by eapply list_elem_of_lookup_2. }
  assert (state_at ts team (t_state r) id) as Hst by (by exists r).
  split; split.
  - intros H%Ha. by eapply state_at_unique.
  - intros Hs. destruct Hin as [|H%Hw]; [done|].
    pose proof (state_at_unique _ _ _ _ _ H Hst). congruence.
  - intros H%Hw. by eapply state_at_unique.
  - intros Hs. destruct Hin as [H%Ha|]; [|done].
    pose proof (state_at_unique _ _ _ _ _ H Hst). congruence.
Qed.

Lemma member_queue_open ts team agent qa qw id :
  member_queue ts team agent qa qw -> id ∈ qa ++ qw ->
  exists r, ts !! (team, id) = Some r /\ open_of team agent (team, id) r.
Proof. intros [Hq _] Hin. by apply (is_queue_covers _ _ _ _ Hq). Qed.

(** A member has one queue, split in one way. *)
Lemma split_queue_unique ts team qa qw qa' qw' :
  qa ++ qw = qa' ++ qw' -> split_queue ts team qa qw -> split_queue ts team qa' qw' ->
  qa = qa' /\ qw = qw'.
Proof.
  revert qa'. induction qa as [|x qa IH]; intros [|x' qa'] Heq [Ha Hw] [Ha' Hw']; simpl in Heq.
  - done.
  - subst qw. apply Forall_cons in Hw as [H1 _], Ha' as [H2 _].
    pose proof (state_at_unique _ _ _ _ _ H1 H2). done.
  - subst qw'. apply Forall_cons in Hw' as [H1 _], Ha as [H2 _].
    pose proof (state_at_unique _ _ _ _ _ H1 H2). done.
  - injection Heq as <- Heq. apply Forall_cons in Ha as [_ Ha], Ha' as [_ Ha'].
    destruct (IH qa' Heq) as [-> ->]; done.
Qed.

Lemma member_queue_unique ts team agent qa qw qa' qw' :
  member_queue ts team agent qa qw -> member_queue ts team agent qa' qw' -> qa = qa' /\ qw = qw'.
Proof.
  intros [Hq Hs] [Hq' Hs']. eapply split_queue_unique; [|done..]. by eapply is_queue_unique.
Qed.

(** ** List facts *)

Lemma retain_ne_app id l1 l2 : retain_ne id (l1 ++ l2) = retain_ne id l1 ++ retain_ne id l2.
Proof. apply filter_app. Qed.

Lemma retain_ne_notin id l : id ∉ l -> retain_ne id l = l.
Proof.
  unfold retain_ne. induction l as [|x l IH]; intros Hn; [done|].
  rewrite filter_cons_True by set_solver. f_equal. apply IH. set_solver.
Qed.

Lemma elem_of_retain_ne id id' l : id' ∈ retain_ne id l <-> id' <> id /\ id' ∈ l.
Proof. unfold retain_ne. by rewrite list_elem_of_filter. Qed.

Lemma NoDup_retain_ne id l : NoDup l -> NoDup (retain_ne id l).
Proof. apply NoDup_filter. Qed.

Lemma length_retain_ne id l :
  NoDup l -> id ∈ l -> S (length (retain_ne id l)) = length l.
Proof.
  intros Hnd Hin. assert (l ≡ₚ id :: retain_ne id l) as Hp.
  { apply NoDup_Permutation; [done| |].
    - constructor; [|by apply NoDup_retain_ne]. rewrite elem_of_retain_ne. naive_solver.
    - intros x. rewrite elem_of_cons, elem_of_retain_ne. destruct (decide (x = id)); naive_solver. }
  apply Permutation_length in Hp. by rewrite Hp.
Qed.

Lemma vec_insert_app {A} (l1 l2 : list A) (x : A) :
  vec_insert (length l1) x (l1 ++ l2) = Some (l1 ++ x :: l2).
Proof.
  unfold vec_insert. rewrite bool_decide_eq_true_2 by (rewrite length_app; lia).
  by rewrite take_app_length, drop_app_length.
Qed.

Lemma vec_insert_inv {A} (l l' : list A) i (x : A) :
  vec_insert i x l = Some l' ->
  exists l1 l2, l = l1 ++ l2 /\ length l1 = i /\ l' = l1 ++ x :: l2.
Proof.
  unfold vec_insert. case_bool_decide; [|done]. intros [= <-].
  exists (take i l), (drop i l). split_and!; [by rewrite take_drop| |done].
  rewrite length_take. lia.
Qed.

(** ** Writing *)

Lemma is_queue_nil_none ts team agent :
  is_queue ts team agent [] -> forall id r, ts !! (team, id) = Some r -> ~ open_of team agent (team, id) r.
Proof. intros [_ H] id r Hr Ho. by destruct (H id r Hr Ho) as [i Hi]. Qed.

(** A row that is of no concern to a member before and after leaves its queue. *)
Lemma member_queue_insert_other ts k r' team agent qa qw :
  (forall r, ts !! k = Some r -> ~ open_of team agent k r) -> ~ open_of team agent k r' ->
  member_queue ts team agent qa qw -> member_queue (<[k := r']> ts) team agent qa qw.
Proof.
  intros Hold Hnew [Hq [Ha Hw]].
  assert (Hk : forall id, id ∈ qa ++ qw -> (team, id) <> k).
  { intros id Hin <-. apply (is_queue_covers _ _ _ _ Hq) in Hin as (r & Hr & Ho).
    exact (Hold r Hr Ho). }
  split; [split|split].
  - intros i id Hi. destruct (proj1 Hq _ _ Hi) as (r & Hr & Ho & Hp). exists r.
    rewrite lookup_insert_ne; [done|]. apply not_eq_sym, Hk. by eapply list_elem_of_lookup_2.
  - intros id r Hr Ho. apply lookup_insert_Some in Hr as [[-> ->]|[Hne Hr]]; [done|].
    by apply (proj2 Hq id r).
  - rewrite Forall_forall in Ha |- *. intros id Hin. destruct (Ha id Hin) as (r & Hr & Hs).
    exists r. rewrite lookup_insert_ne; [done|]. apply not_eq_sym, Hk. set_solver.
  - rewrite Forall_forall in Hw |- *. intros id Hin. destruct (Hw id Hin) as (r & Hr & Hs).
    exists r. rewrite lookup_insert_ne; [done|]. apply not_eq_sym, Hk. set_solver.
Qed.

Lemma state_at_renumbered ts team order s id :
  state_at (renumbered ts team order) team s id <-> state_at ts team s id.
Proof.
  unfold state_at. rewrite renumbered_lookup.
  destruct (ts !! (team, id)) as [r|]; simpl; [|by split; intros (? & ? & ?)].
  rewrite decide_True by done.
  split; intros (r' & [= <-] & Hs); (eexists; split; [done|]);
    by destruct (position_of id order).
Qed.

Lemma split_queue_renumbered ts team order qa qw :
  split_queue ts team qa qw -> split_queue (renumbered ts team order) team qa qw.
Proof.
  intros [Ha Hw]. split; eapply Forall_impl; try done; intros id; by rewrite state_at_renumbered.
Qed.

Lemma renumbered_state_other ts team order team' s id :
  state_at (renumbered ts team order) team' s id <-> state_at ts team' s id.
Proof.
  destruct (decide (team' = team)) as [->|Hne]; [apply state_at_renumbered|].
  unfold state_at. rewrite renumbered_lookup.
  destruct (ts !! (team', id)) as [r|]; simpl; [|by split; intros (? & ? & ?)].
  by rewrite decide_False.
Qed.

Lemma member_queue_renumbered_other ts team agent order team' agent' qa qw :
  covers ts team agent order -> (team', agent') <> (team, agent) ->
  member_queue ts team' agent' qa qw -> member_queue (renumbered ts team order) team' agent' qa qw.
Proof.
  intros Hc Hne [Hq [Ha Hw]]. split; [by eapply renumbered_is_queue_other|].
  split; eapply Forall_impl; try done; intros id; by rewrite renumbered_state_other.
Qed.

Lemma counts_ok_renumbered ts team order : counts_ok ts -> counts_ok (renumbered ts team order).
Proof.
  intros Hc k r' Hr'. apply renumbered_row in Hr' as (r & Hr & Hcase).
  specialize (Hc _ _ Hr). by destruct Hcase as [->|(i & _ & _ & ->)].
Qed.

(** The writing step shared by every queue operation: renumber one member's
    queue in a table where the other members' queues already stand. *)
Lemma ledger_ok_renumbered ts team agent qa qw :
  sql_ok (renumbered ts team (qa ++ qw)) -> counts_ok ts -> NoDup (qa ++ qw) ->
  covers ts team agent (qa ++ qw) -> split_queue ts team qa qw ->
  (forall team' agent', (team', agent') <> (team, agent) ->
     exists qa' qw', member_queue ts team' agent' qa' qw') ->
  ledger_ok (renumbered ts team (qa ++ qw))
  /\ member_queue (renumbered ts team (qa ++ qw)) team agent qa qw.
Proof.
  intros Hsql Hc Hnd Hcov Hsp Hoth.
  assert (member_queue (renumbered ts team (qa ++ qw)) team agent qa qw) as Hm.
  { split; [by apply renumbered_is_queue|by apply split_queue_renumbered]. }
  split; [|done]. split_and!; [done|by apply counts_ok_renumbered|]. intros team' agent'.
  destruct (decide ((team', agent') = (team, agent))) as [[= -> ->]|Hne]; [by eauto|].
  destruct (Hoth team' agent' Hne) as (qa' & qw' & Hq'). exists qa', qw'.
  by eapply member_queue_renumbered_other.
Qed.

Lemma size_renumbered ts team order : size (renumbered ts team order) = size ts.
Proof.
  rewrite <- !(size_dom (D := gset TaskKey)). f_equal. apply set_eq. intros k.
  rewrite !elem_of_dom, renumbered_lookup. by rewrite fmap_is_Some.
Qed.

(** Rewriting an open row in place: same assignee, position and openness. *)
Definition same_place (r r' : TaskSqlRow) : Prop :=
  t_assignee r' = t_assignee r /\ t_position r' = t_position r
  /\ t_state r <> "complete" /\ t_state r' <> "complete".

Lemma same_place_no_clash ts k r r' :
  no_clash ts -> ts !! k = Some r -> same_place r r' ->
  forall k' r2, ts !! k' = Some r2 -> ~ position_clash k r' k' r2.
Proof.
  intros Hn Hr (Ha & Hp & Hs & Hs') k' r2 Hr2 (Hne & Ht & _ & Hs2 & Ha2 & Hp2 & He).
  apply (Hn k r k' r2 Hr Hr2). rewrite Hp in Hp2, He. rewrite Ha in Ha2. by split_and!.
Qed.

Lemma same_place_sql_ok ts k r r' :
  sql_ok ts -> ts !! k = Some r -> same_place r r' -> task_row_check r' = true ->
  sql_ok (<[k := r']> ts).
Proof.
  intros Hok Hr Hsp Hc. eapply store_task_row_sql_ok; [exact Hok|].
  apply store_task_row_Some. split_and!; [done..|]. by eapply same_place_no_clash; [apply Hok|..].
Qed.

Lemma same_place_is_queue ts k r r' team agent q :
  ts !! k = Some r -> same_place r r' ->
  is_queue ts team agent q -> is_queue (<[k := r']> ts) team agent q.
Proof.
  intros Hr (Ha & Hp & Hs & Hs') [H1 H2]. split.
  - intros i id Hi. destruct (H1 _ _ Hi) as (r0 & Hr0 & Ho & Hp0).
    destruct (decide (k = (team, id))) as [->|Hne].
    + simplify_eq. exists r'. rewrite lookup_insert_eq. split; [done|]. rewrite Hp. split; [|done].
      destruct Ho as (? & ? & ?). by split_and!; [|congruence|].
    + exists r0. by rewrite lookup_insert_ne.
  - intros id r0 Hr0 Ho. apply lookup_insert_Some in Hr0 as [[-> <-]|[Hne Hr0]].
    + apply (H2 id r Hr). destruct Ho as (? & ? & ?). by split_and!; [|congruence|].
    + by apply (H2 id r0).
Qed.

(** Two rows with the same owner, state, outcome and position: what the queues
    and the constraints look at. *)
Definition same_status (r r' : TaskSqlRow) : Prop :=
  t_assignee r' = t_assignee r /\ t_state r' = t_state r
  /\ t_close_outcome r' = t_close_outcome r /\ t_position r' = t_position r.

Definition status_kept (ts ts' : gmap TaskKey TaskSqlRow) : Prop :=
  forall k, option_Forall2 same_status (ts !! k) (ts' !! k).

Lemma same_status_check r r' : same_status r r' -> task_row_check r' = task_row_check r.
Proof. intros (_ & Hs & Ho & Hp). unfold task_row_check. by rewrite Hs, Ho, Hp. Qed.

Lemma status_kept_lookup ts ts' k r' :
  status_kept ts ts' -> ts' !! k = Some r' -> exists r, ts !! k = Some r /\ same_status r r'.
Proof. intros H Hr'. specialize (H k). rewrite Hr' in H. inversion H; subst; eauto. Qed.

Lemma status_kept_lookup_r ts ts' k r :
  status_kept ts ts' -> ts !! k = Some r -> exists r', ts' !! k = Some r' /\ same_status r r'.
Proof. intros H Hr. specialize (H k). rewrite Hr in H. inversion H; subst; eauto. Qed.

Lemma status_kept_insert ts k r r' :
  ts !! k = Some r -> same_status r r' -> status_kept ts (<[k := r']> ts).
Proof.
  intros Hr Hs k'. destruct (decide (k = k')) as [<-|Hne].
  - rewrite Hr, lookup_insert_eq. by constructor.
  - rewrite lookup_insert_ne by done. destruct (ts !! k'); constructor. by split_and!.
Qed.

Lemma status_kept_sql_ok ts ts' : status_kept ts ts' -> sql_ok ts -> sql_ok ts'.
Proof.
  intros Hk [Ht Hn]. split.
  - intros k r' Hr'. destruct (status_kept_lookup _ _ _ _ Hk Hr') as (r & Hr & Hs).
    rewrite (same_status_check _ _ Hs). by apply (Ht k).
  - intros k1 r1' k2 r2' H1 H2 (Hne & Hte & Hs1 & Hs2 & Ha & Hp & He).
    destruct (status_kept_lookup _ _ _ _ Hk H1) as (r1 & Hr1 & A1 & A2 & _ & A4).
    destruct (status_kept_lookup _ _ _ _ Hk H2) as (r2 & Hr2 & B1 & B2 & _ & B4).
    apply (Hn k1 r1 k2 r2 Hr1 Hr2). rewrite A1, B1 in Ha. rewrite A2 in Hs1. rewrite B2 in Hs2.
    rewrite A4 in Hp. rewrite A4, B4 in He. by split_and!.
Qed.

Lemma status_kept_member_queue ts ts' team agent qa qw :
  status_kept ts ts' -> member_queue ts team agent qa qw -> member_queue ts' team agent qa qw.
Proof.
  intros Hk ([H1 H2] & Ha & Hw).
  assert (Hst : forall s id, state_at ts team s id -> state_at ts' team s id).
  { intros s id (r & Hr & <-). destruct (status_kept_lookup_r _ _ _ _ Hk Hr) as (r' & Hr' & _ & Hs & _).
    by exists r'. }
  split; [|split; eapply Forall_impl; eauto]. split.
  - intros i id Hi. destruct (H1 i id Hi) as (r & Hr & (Ht & Hag & Hop) & Hp).
    destruct (status_kept_lookup_r _ _ _ _ Hk Hr) as (r' & Hr' & Ha' & Hs' & _ & Hp').
    exists r'. split; [done|]. rewrite Hp'. split; [|done].
    by split_and!; [|rewrite Ha'|rewrite Hs'].
  - intros id r' Hr' (Ht & Hag & Hop).
    destruct (status_kept_lookup _ _ _ _ Hk Hr') as (r & Hr & Ha' & Hs' & _).
    apply (H2 id r Hr). by split_and!; [|rewrite <- Ha'|rewrite <- Hs'].
Qed.

Lemma status_kept_ledger_ok ts ts' :
  status_kept ts ts' -> counts_ok ts' -> ledger_ok ts -> ledger_ok ts'.
Proof.
  intros Hk Hc (Hs & _ & Hq). split; [by eapply status_kept_sql_ok|]. split; [done|].
  intros team agent. destruct (Hq team agent) as (qa & qw & Hm). exists qa, qw.
  by eapply status_kept_member_queue.
Qed.

Lemma status_kept_size ts ts' : status_kept ts ts' -> size ts' = size ts.
Proof.
  intros Hk. rewrite <- !(size_dom (D := gset TaskKey)). f_equal. apply set_eq. intros k.
  rewrite !elem_of_dom. specialize (Hk k). split; intros [r Hr]; rewrite Hr in Hk; inversion Hk; eauto.
Qed.

Lemma queue_len_bound ts team agent q :
  queues_bounded ts -> is_queue ts team agent q -> 2 * Z.of_nat (length q) < u32_max.
Proof.
  intros Hb Hq. pose proof (open_ids_size ts team agent q (is_queue_NoDup _ _ _ _ Hq)
    (is_queue_covers _ _ _ _ Hq)). unfold queues_bounded in Hb. lia.
Qed.

(** The waiting task at the end of a queue split. *)
Lemma open_other_member team agent id r team' agent' :
  open_of team agent (team, id) r -> (team', agent') <> (team, agent) ->
  ~ open_of team' agent' (team, id) r.
Proof. intros (_ & Ha & _) Hne (Ht' & Ha' & _). simpl in *. congruence. Qed.

Lemma state_at_insert_ne ts team id0 r0 s id :
  id <> id0 -> state_at (<[(team, id0) := r0]> ts) team s id <-> state_at ts team s id.
Proof. intros Hne. unfold state_at. by rewrite lookup_insert_ne by congruence. Qed.

Lemma Forall_state_insert_ne ts team id0 r0 s l :
  id0 ∉ l -> Forall (state_at ts team s) l ->
  Forall (state_at (<[(team, id0) := r0]> ts) team s) l.
Proof.
  rewrite !Forall_forall. intros Hn H id Hin. rewrite state_at_insert_ne; [by apply H|].
  intros ->. done.
Qed.

(** Renumbering within bounds always succeeds. *)
Lemma renumber_bound_ok ts team agent q (order : list TaskId) :
  is_queue ts team agent q -> 2 * Z.of_nat (length q) < u32_max -> (length order <= S (length q))%nat ->
  max_position (open_rows team agent ts) + Z.of_nat (length order) <= i64_max.
Proof. intros Hq Hl Ho. rewrite (max_position_queue _ _ _ _ Hq). unfold u32_max, i64_max in *. lia. Qed.

(** Every row but [k0] is kept, up to its queue position. *)
Definition repositioned (r r' : TaskSqlRow) : Prop := exists p, r' = set_position p r.

Definition rows_kept (ts ts' : gmap TaskKey TaskSqlRow) (k0 : TaskKey) : Prop :=
  forall k, k <> k0 -> option_Forall2 repositioned (ts !! k) (ts' !! k).

Lemma set_position_id r : set_position (t_position r) r = r.
Proof. by destruct r. Qed.

#[export] Instance repositioned_refl : Reflexive repositioned.
Proof. intros r. exists (t_position r). by rewrite set_position_id. Qed.

#[export] Instance repositioned_trans : Transitive repositioned.
Proof. intros r1 r2 r3 [p ->] [q ->]. by exists q. Qed.

Lemma renumbered_repositioned ts team order k :
  option_Forall2 repositioned (ts !! k) (renumbered ts team order !! k).
Proof.
  rewrite renumbered_lookup. destruct (ts !! k) as [r|]; simpl; constructor.
  destruct (decide (k.1 = team)); [|done]. destruct (position_of k.2 order); [|done]. by eexists.
Qed.

Lemma rows_kept_renumbered ts ts1 team order k0 :
  rows_kept ts ts1 k0 -> rows_kept ts (renumbered ts1 team order) k0.
Proof.
  intros H k Hne. etrans; [by apply H|]. apply renumbered_repositioned.
Qed.

Lemma rows_kept_insert ts ts1 k0 r0 : rows_kept ts ts1 k0 -> rows_kept ts (<[k0 := r0]> ts1) k0.
Proof. intros H k Hne. rewrite lookup_insert_ne by done. by apply H. Qed.

Lemma rows_kept_refl ts k0 : rows_kept ts ts k0.
Proof. intros k _. reflexivity. Qed.

(** The members other than [(team, agent)] keep their queues from [ts] to [ts']. *)
Definition others_keep (ts ts' : gmap TaskKey TaskSqlRow) (team : TeamName) (agent : AgentName)
    : Prop :=
  forall team' agent' qa qw, (team', agent') <> (team, agent) ->
    member_queue ts team' agent' qa qw -> member_queue ts' team' agent' qa qw.

Lemma others_keep_refl ts team agent : others_keep ts ts team agent.
Proof. by intros team' agent' qa qw. Qed.

Lemma others_keep_insert ts team agent id r' :
  (forall r, ts !! (team, id) = Some r -> t_state r <> "complete" -> t_assignee r = agent) ->
  (t_state r' <> "complete" -> t_assignee r' = agent) ->
  others_keep ts (<[(team, id) := r']> ts) team agent.
Proof.
  intros Hold Hnew team' agent' qa qw Hne Hm. apply member_queue_insert_other; [| |done].
  - intros r Hr (Ht & Ha & Hs). simpl in *. specialize (Hold r Hr Hs). congruence.
  - intros (Ht & Ha & Hs). simpl in *. specialize (Hnew Hs). congruence.
Qed.

Lemma others_keep_trans ts1 ts2 ts3 team agent :
  others_keep ts1 ts2 team agent -> others_keep ts2 ts3 team agent -> others_keep ts1 ts3 team agent.
Proof. intros H12 H23 t a qa qw Hne Hm. by apply H23, H12. Qed.

Section Reorder.
Context {rt : Runtime} {rtok : RuntimeOk rt}.

(** The queue write shared by start, move, close and assignment: from a table
    whose other queues stand, the member gets the queue [qa ++ qw]. *)
Lemma reorder_run team agent qa qw w :
  (forall team' agent', (team', agent') <> (team, agent) ->
     exists qa' qw', member_queue (tasks (db w)) team' agent' qa' qw') ->
  sql_ok (tasks (db w)) -> counts_ok (tasks (db w)) -> NoDup (qa ++ qw) ->
  covers (tasks (db w)) team agent (qa ++ qw) -> split_queue (tasks (db w)) team qa qw ->
  max_position (open_rows team agent (tasks (db w))) + Z.of_nat (length (qa ++ qw)) <= i64_max ->
  let ts' := renumbered (tasks (db w)) team (qa ++ qw) in
  renumber_queue team agent (qa ++ qw) w = (Ok tt, with_db (set_tasks ts') w)
  /\ ledger_ok ts' /\ member_queue ts' team agent qa qw
  /\ others_keep (tasks (db w)) ts' team agent.
Proof.
  intros Hall Hsql Hc Hnd Hcov Hsp Hmax ts'.
  destruct (renumber_queue_run team agent (qa ++ qw) w) as [Hrun Hsql']; [done..|].
  destruct (ledger_ok_renumbered (tasks (db w)) team agent qa qw) as [Hl Hm]; [done..|].
  split_and!; [done..|]. intros team' agent' qa' qw' Hne Hm'.
  by eapply member_queue_renumbered_other.
Qed.
End Reorder.

Lemma others_keep_exist ts ts' team agent :
  ledger_ok ts -> others_keep ts ts' team agent ->
  forall team' agent', (team', agent') <> (team, agent) ->
    exists qa' qw', member_queue ts' team' agent' qa' qw'.
Proof.
  intros (_ & _ & Hall) Hk team' agent' Hne. destruct (Hall team' agent') as (qa & qw & Hm).
  exists qa, qw. by apply Hk.
Qed.
