(* ===== verification/EventLog.v ===== *)
(** * The task event log

    [append_task_event] always succeeds on a well-typed draft: the sequence
    number it allocates is free.  Each task's events are numbered 1, 2, 3, ...
    in the order they were appended, and every row reads back as the typed event
    the append returned. *)

From S2P Require Import Prelude ErrorCodes Types TaskState Database TaskCodec TaskQueue.
From stdpp Require Import base gmap strings list numbers sorting.
Local Open Scope Z_scope.
Local Open Scope string_scope.
Local Open Scope list_scope.

(** The row and the typed event of a draft with its sequence number. *)
Definition event_sql (draft : TaskEventDraft) (seq : Z) : TaskEventSqlRow :=
  {| e_team := draft_team draft;
     e_task_id := draft_task_id draft;
     e_assignee := draft_assignee draft;
     e_seq := seq;
     e_at := draft_at draft;
     e_event := TaskEventKind_as_str (draft_event draft);
     e_from_state := task_state_tag_name <$> draft_from_state draft;
     e_to_state := task_state_tag_name <$> draft_to_state draft;
     e_close_outcome := TaskCloseOutcome_as_str <$> draft_close_outcome draft;
     e_actor := draft_actor draft;
     e_message_id := draft_message_id draft;
     e_outcome := ReminderOutcome_as_str <$> draft_outcome draft;
     e_marker := TaskEventMarker_as_str <$> draft_marker draft;
     e_detail := draft_detail draft |}.

Definition event_typed (draft : TaskEventDraft) (seq : Z) (from to : option TaskState)
    : TaskEventRow :=
  {| ev_team := draft_team draft;
     ev_task_id := draft_task_id draft;
     ev_assignee := draft_assignee draft;
     ev_seq := seq;
     ev_at := draft_at draft;
     ev_event := draft_event draft;
     ev_from_state := from;
     ev_to_state := to;
     ev_actor := decode_actor (draft_actor draft);
     ev_message_id := draft_message_id draft;
     ev_outcome := draft_outcome draft;
     ev_marker := draft_marker draft;
     ev_detail := draft_detail draft |}.

Definition next_seq (draft : TaskEventDraft) (es : list TaskEventSqlRow) : Z :=
  max_seq (draft_team draft) (draft_task_id draft) es + 1.

(** The log after the append. *)
Definition logged (draft : TaskEventDraft) (d : Db) : Db :=
  set_task_events (task_events d ++ [event_sql draft (next_seq draft (task_events d))]) d.

Definition of_task (team : TeamName) (id : TaskId) (e : TaskEventSqlRow) : Prop :=
  e_team e = team /\ e_task_id e = id.

#[export] Instance of_task_dec team id e : Decision (of_task team id e).
Proof. unfold of_task. apply _. Defined.

(** The sequence numbers of one task, in log order. *)
Definition task_seqs (team : TeamName) (id : TaskId) (es : list TaskEventSqlRow) : list Z :=
  e_seq <$> filter (of_task team id) es.

(** Numbered 1..n per task, and every row reads back. *)
Definition events_ok (es : list TaskEventSqlRow) : Prop :=
  (forall team id, task_seqs team id es = (fun n => Z.of_nat n + 1) <$> seq 0 (length (task_seqs team id es)))
  /\ Forall (fun e => exists ev, decode_event_row e = Ok ev) es.

Lemma max_seq_ub team id es e :
  e ∈ es -> of_task team id e -> e_seq e <= max_seq team id es.
Proof.
  induction es as [|e' es IH]; intros Hin Ho; [by apply not_elem_of_nil in Hin|].
  simpl. apply elem_of_cons in Hin as [->|Hin].
  - rewrite bool_decide_eq_true_2 by done. lia.
  - specialize (IH Hin Ho). destruct (bool_decide _); lia.
Qed.

Lemma max_seq_task_seqs team id es :
  max_seq team id es = foldr Z.max 0 (task_seqs team id es).
Proof.
  unfold task_seqs, max_seq. induction es as [|e es IH]; [done|]. simpl.
  destruct (decide (of_task team id e)) as [Ho|Hn].
  - rewrite filter_cons_True by done. rewrite bool_decide_eq_true_2 by done. simpl. by rewrite IH.
  - rewrite filter_cons_False by done. by rewrite bool_decide_eq_false_2.
Qed.

Lemma foldr_max_iota n :
  foldr Z.max 0 ((fun i => Z.of_nat i + 1) <$> seq 0 n) = Z.of_nat n.
Proof.
  induction n as [|n IH]; [done|]. rewrite seq_S, fmap_app, foldr_app. simpl.
  assert (forall l a, foldr Z.max a l = Z.max (foldr Z.max 0 l) a \/ a < 0) as Hmax.
  { intros l a. destruct (decide (a < 0)) as [|Ha]; [by right|left].
    induction l as [|x l IHl]; simpl; [lia|]. rewrite IHl. lia. }
  destruct (Hmax ((fun i => Z.of_nat i + 1) <$> seq 0 n) (Z.max (Z.of_nat n + 1) 0))
    as [->|]; [|lia]. rewrite IH. lia.
Qed.

Lemma next_seq_events_ok draft es :
  events_ok es ->
  next_seq draft es
  = Z.of_nat (length (task_seqs (draft_team draft) (draft_task_id draft) es)) + 1.
Proof.
  intros [Hs _]. unfold next_seq. rewrite max_seq_task_seqs.
  rewrite (Hs (draft_team draft) (draft_task_id draft)) at 1. by rewrite foldr_max_iota.
Qed.

Lemma task_event_state_decode t o s :
  task_event_state t o = Ok s ->
  option_traverse (decode_event_state (TaskCloseOutcome_as_str <$> o)) (task_state_tag_name <$> t)
  = Ok s.
Proof. destruct t as [[]|], o as [[]|]; simpl; intros [= <-]; done. Qed.

Lemma event_sql_decodes draft n from to :
  task_event_state (draft_from_state draft) (draft_close_outcome draft) = Ok from ->
  task_event_state (draft_to_state draft) (draft_close_outcome draft) = Ok to ->
  decode_event_row (event_sql draft n) = Ok (event_typed draft n from to).
Proof.
  intros Hf Ht. unfold decode_event_row. simpl. rewrite <- event_name_as_str, parse_event_name.
  cbn [mbind outcome_mbind outcome_bind].
  rewrite (task_event_state_decode _ _ _ Hf), (task_event_state_decode _ _ _ Ht).
  cbn [mbind outcome_mbind outcome_bind].
  assert (option_traverse parse_outcome (ReminderOutcome_as_str <$> draft_outcome draft)
          = Ok (draft_outcome draft)) as -> by (by destruct (draft_outcome draft) as [[]|]).
  assert (option_traverse parse_marker (TaskEventMarker_as_str <$> draft_marker draft)
          = Ok (draft_marker draft)) as -> by (by destruct (draft_marker draft) as [[]|]).
  done.
Qed.

Lemma logged_events_ok draft d from to :
  task_event_state (draft_from_state draft) (draft_close_outcome draft) = Ok from ->
  task_event_state (draft_to_state draft) (draft_close_outcome draft) = Ok to ->
  events_ok (task_events d) -> events_ok (task_events (logged draft d)).
Proof.
  intros Hf Ht Hok. pose proof (next_seq_events_ok draft _ Hok) as Hn. destruct Hok as [Hs Hd].
  unfold logged. simpl. split.
  - intros team id. specialize (Hs team id). unfold task_seqs in *.
    rewrite filter_app, fmap_app. set (e := event_sql _ _).
    destruct (decide (of_task team id e)) as [Ho|Hno].
    + rewrite filter_cons_True, filter_nil by done. destruct Ho as [<- <-].
      rewrite length_app. simpl. rewrite Nat.add_1_r, seq_S, fmap_app. f_equal; [done|].
      simpl. by rewrite Hn.
    + rewrite filter_cons_False, filter_nil by done. by rewrite app_nil_r.
  - apply Forall_app. split; [done|]. apply Forall_singleton. eexists. by apply event_sql_decodes.
Qed.

Section Append.
Context {rt : Runtime}.

Lemma append_task_event_run draft from to w :
  task_event_state (draft_from_state draft) (draft_close_outcome draft) = Ok from ->
  task_event_state (draft_to_state draft) (draft_close_outcome draft) = Ok to ->
  append_task_event draft w
  = (Ok (event_typed draft (next_seq draft (task_events (db w))) from to),
     with_db (logged draft) w).
Proof.
  intros Hf Ht. unfold append_task_event.
  erewrite run_bind; [|by apply run_lift]. erewrite run_bind; [|by apply run_lift].
  run run_get_db. fold (next_seq draft (task_events (db w))).
  unfold insert_task_event. erewrite run_bind; [done|].
  run run_get_db. rewrite bool_decide_eq_false_2; [done|].
  rewrite Exists_exists. intros (e & Hin & Ht' & Hid & Hseq). simpl in *.
  assert (e_seq e <= max_seq (draft_team draft) (draft_task_id draft) (task_events (db w)))
    by (by apply max_seq_ub). unfold next_seq in Hseq. lia.
Qed.
End Append.

(** The log grew by rows that read back as [evs], and nothing else changed. *)
Definition appended (d d' : Db) (evs : list TaskEventRow) : Prop :=
  (exists rows, d' = set_task_events (task_events d ++ rows) d
               /\ Forall2 (fun row ev => decode_event_row row = Ok ev) rows evs)
  /\ (events_ok (task_events d) -> events_ok (task_events d')).

(** The stored log of [d'] is that of [d] followed by rows that read back as [evs]. *)
Definition log_extended (d d' : Db) (evs : list TaskEventRow) : Prop :=
  exists rows, task_events d' = task_events d ++ rows
    /\ Forall2 (fun row ev => decode_event_row row = Ok ev) rows evs.

Lemma appended_log d1 d d' evs :
  appended d d' evs -> task_events d = task_events d1 -> log_extended d1 d' evs.
Proof. intros [(rows & -> & H) _] He. exists rows. simpl. by rewrite He. Qed.

Lemma appended_nil d : appended d d [].
Proof. split; [|done]. exists []. split; [|done]. rewrite app_nil_r. by destruct d. Qed.

Lemma appended_trans d1 d2 d3 evs1 evs2 :
  appended d1 d2 evs1 -> appended d2 d3 evs2 -> appended d1 d3 (evs1 ++ evs2).
Proof.
  intros [(rows1 & -> & H1) He1] [(rows2 & -> & H2) He2]. split; [|auto].
  exists (rows1 ++ rows2). split; [|by apply Forall2_app]. simpl. by rewrite app_assoc.
Qed.

Lemma logged_appended draft d from to :
  task_event_state (draft_from_state draft) (draft_close_outcome draft) = Ok from ->
  task_event_state (draft_to_state draft) (draft_close_outcome draft) = Ok to ->
  appended d (logged draft d) [event_typed draft (next_seq draft (task_events d)) from to].
Proof.
  intros Hf Ht. split; [|by eapply logged_events_ok]. eexists. split; [reflexivity|].
  constructor; [|done]. by apply event_sql_decodes.
Qed.
