(* ===== verification/MailStore.v ===== *)
(** * The mail store of the writer lane

    Models the canonical message insert, the display-state upsert, the
    acknowledgement source checks and the search projection of
    [crates/atm-storage-rusqlite/src/writer/ops.rs], [writer/ops_envelope.rs],
    [writer/stmt_cache.rs], [writer/read_display_state.rs],
    [writer/task_report.rs] and [search_schema.rs]. *)

From S2P Require Import Prelude ErrorCodes Types TaskState Database.
From stdpp Require Import base gmap strings list numbers sorting pretty.
Local Open Scope Z_scope.
Local Open Scope string_scope.
Local Open Scope list_scope.

(** ** Envelopes *)

Definition MAX_ENVELOPE_JSON_BYTES : Z := 1048576.

(** [StorageEnvelope::new]: every field but [requires_ack] and [task_complete]. *)
Definition storage_envelope_new (e : MessageEnvelope) : StorageEnvelope :=
  {| se_from := env_from e;
     se_source_chat_id := env_source_chat_id e;
     se_text := env_text e;
     se_timestamp := env_timestamp e;
     se_read := env_read e;
     se_source_team := env_source_team e;
     se_destination_chat_id := env_destination_chat_id e;
     se_summary := env_summary e;
     se_message_id := env_message_id e;
     se_pending_ack_at := env_pending_ack_at e;
     se_acknowledged_at := env_acknowledged_at e;
     se_acknowledges_message_id := env_acknowledges_message_id e;
     se_parent_message_id := env_parent_message_id e;
     se_thread_mode := env_thread_mode e;
     se_expires_at := env_expires_at e;
     se_task_id := env_task_id e;
     se_placement := env_placement e;
     se_task_op := env_task_op e;
     se_extra := env_extra e |}.

(** The field names of [RawMessageEnvelope]; an extra member with one of them is
    read back as that field. *)
Definition envelope_field_names : list string :=
  ["from"; "sourceChatId"; "text"; "timestamp"; "read"; "source_team"; "destinationChatId";
   "summary"; "message_id"; "requires_ack"; "pendingAckAt"; "acknowledgedAt";
   "acknowledgesMessageId"; "parentMessageId"; "threadMode"; "expiresAt"; "taskId";
   "placement"; "taskOp"; "taskComplete"].

Definition plain_extra (extra : list (string * Value)) : Prop :=
  Forall (fun kv => kv.1 ∉ envelope_field_names) extra.

#[export] Instance plain_extra_dec extra : Decision (plain_extra extra).
Proof. unfold plain_extra. apply _. Defined.

(** [From<RawMessageEnvelope> for MessageEnvelope]: the optional
    [requires_ack] and the legacy [task_complete] carrier are resolved here. *)
Definition envelope_from_raw (e : StorageEnvelope) (raw_requires_ack : option bool)
    (raw_task_complete : option TaskId) : MessageEnvelope :=
  let requires_ack :=
    default (bool_decide (is_Some (se_pending_ack_at e))
             && bool_decide (se_acknowledges_message_id e = None)) raw_requires_ack in
  let task :=
    match se_task_id e, se_task_op e, raw_task_complete with
    | task_id, Some task_op, _ => (task_id, Some task_op)
    | _, None, Some task_id => (Some task_id, Some (TaskOp_Close TaskCloseOutcome_Completed None))
    | task_id, None, None => (task_id, None)
    end in
  {| env_from := se_from e;
     env_source_chat_id := se_source_chat_id e;
     env_text := se_text e;
     env_timestamp := se_timestamp e;
     env_read := se_read e;
     env_source_team := se_source_team e;
     env_destination_chat_id := se_destination_chat_id e;
     env_summary := se_summary e;
     env_message_id := se_message_id e;
     env_requires_ack := requires_ack;
     env_pending_ack_at := se_pending_ack_at e;
     env_acknowledged_at := se_acknowledged_at e;
     env_acknowledges_message_id := se_acknowledges_message_id e;
     env_parent_message_id := se_parent_message_id e;
     env_thread_mode := se_thread_mode e;
     env_expires_at := se_expires_at e;
     env_task_id := task.1;
     env_placement := se_placement e;
     env_task_op := task.2;
     env_task_complete := None;
     env_extra := se_extra e |}.

(** Display columns replace what the envelope text recorded. *)
Definition with_display_state (read : bool) (pending acknowledged expires : option IsoTimestamp)
    (e : MessageEnvelope) : MessageEnvelope :=
  {| env_from := env_from e;
     env_source_chat_id := env_source_chat_id e;
     env_text := env_text e;
     env_timestamp := env_timestamp e;
     env_read := read;
     env_source_team := env_source_team e;
     env_destination_chat_id := env_destination_chat_id e;
     env_summary := env_summary e;
     env_message_id := env_message_id e;
     env_requires_ack := env_requires_ack e;
     env_pending_ack_at := pending;
     env_acknowledged_at := acknowledged;
     env_acknowledges_message_id := env_acknowledges_message_id e;
     env_parent_message_id := env_parent_message_id e;
     env_thread_mode := env_thread_mode e;
     env_expires_at := expires;
     env_task_id := env_task_id e;
     env_placement := env_placement e;
     env_task_op := env_task_op e;
     env_task_complete := env_task_complete e;
     env_extra := env_extra e |}.

(** [mark_source_acknowledged]. *)
Definition mark_source_acknowledged (source : Message) (at_ : IsoTimestamp) : Message :=
  {| msg_team := msg_team source;
     msg_agent := msg_agent source;
     msg_message_key := msg_message_key source;
     msg_envelope :=
       with_display_state true None (Some at_) (env_expires_at (msg_envelope source))
         (msg_envelope source) |}.

(** [drop_task_link_from_mail]: the envelope without its task members. *)
Definition without_task_link (e : MessageEnvelope) : MessageEnvelope :=
  {| env_from := env_from e;
     env_source_chat_id := env_source_chat_id e;
     env_text := env_text e;
     env_timestamp := env_timestamp e;
     env_read := env_read e;
     env_source_team := env_source_team e;
     env_destination_chat_id := env_destination_chat_id e;
     env_summary := env_summary e;
     env_message_id := env_message_id e;
     env_requires_ack := env_requires_ack e;
     env_pending_ack_at := env_pending_ack_at e;
     env_acknowledged_at := env_acknowledged_at e;
     env_acknowledges_message_id := env_acknowledges_message_id e;
     env_parent_message_id := env_parent_message_id e;
     env_thread_mode := env_thread_mode e;
     env_expires_at := env_expires_at e;
     env_task_id := None;
     env_placement := None;
     env_task_op := None;
     env_task_complete := None;
     env_extra := env_extra e |}.

Definition sqlite_thread_mode (mode : option ThreadMode) : option string :=
  match mode with
  | Some ThreadMode_AddDetails => Some "add-details"
  | Some ThreadMode_Supersede => Some "supersede"
  | None => None
  end.

Definition msg_key (m : Message) : MailKey := (msg_team m, msg_agent m, msg_message_key m).

(** [str::starts_with]. *)
Definition starts_with (prefix s : string) : bool := String.prefix prefix s.

Definition valid_message_key (key : MessageKey) : bool :=
  starts_with "atm:" key || starts_with "ext:" key.

(** ** Classification metadata *)
Record PlainTemplateClassification : Set := mkClassification {
  class_category : option string;
  class_content_format : option string;
  class_tags : list string
}.

Definition optional_string (extra : list (string * Value)) (key : string)
    : Outcome AtmError (option string) :=
  match object_get key extra with
  | None | Some Value_Null => Ok None
  | Some (Value_String value) => Ok (Some value)
  | Some _ =>
    Err (mailbox_write ("message classification metadata '" +:+ key
                        +:+ "' must be a string or null"))
  end.

Definition tags_error : AtmError :=
  mailbox_write "message classification metadata 'tags' must be an array of strings".

Definition tag_string (value : Value) : Outcome AtmError string :=
  match value with Value_String s => Ok s | _ => Err tags_error end.

Definition message_classification (extra : list (string * Value))
    : Outcome AtmError PlainTemplateClassification :=
  tags ← match object_get "tags" extra with
         | None => Ok []
         | Some (Value_Array values) => collect (tag_string <$> values)
         | Some _ => Err tags_error
         end;
  category ← optional_string extra "category";
  content_format ← optional_string extra "content_format";
  Ok (mkClassification category content_format tags).

(** ** Search projection *)

(** Object members in key order ([keys.sort_unstable()]). *)
Definition member_le (a b : string * list string) : Prop := String.le a.1 b.1.

#[export] Instance member_le_dec a b : Decision (member_le a b).
Proof. unfold member_le. apply _. Defined.

Fixpoint flatten_value (show_number : Number -> string) (value : Value) : list string :=
  match value with
  | Value_Null => ["null"]
  | Value_Bool b => [if b then "true" else "false"]
  | Value_Number n => [show_number n]
  | Value_String s => [s]
  | Value_Array items => concat (map (flatten_value show_number) items)
  | Value_Object members =>
    concat (map snd (merge_sort member_le
      (map (fun kv => (kv.1, flatten_value show_number kv.2)) members)))
  end.

(** [values.join(" ")]. *)
Definition join_words (words : list string) : string := String.concat " " words.

Section MailStore.
Context {rt : Runtime}.

(** [serde_json::from_str::<MessageEnvelope>] on a stored envelope. *)
Definition decode_envelope (e : StorageEnvelope) : option MessageEnvelope :=
  if bool_decide (plain_extra (se_extra e)) then Some (envelope_from_raw e None None)
  else envelope_from_clashing e.

(** [validate_message_record]. *)
Definition validate_message_record (record : Message) (len : Z) : Outcome AtmError unit :=
  if bool_decide (MAX_ENVELOPE_JSON_BYTES < len)
  then Err (validation ("mail-store envelope JSON exceeded the writer lane limit of "
                        +:+ pretty MAX_ENVELOPE_JSON_BYTES +:+ " bytes"))
  else if valid_message_key (msg_message_key record) then Ok tt
  else Err (validation ("mail-store message_key must start with `atm:` or `ext:`; got `"
                        +:+ msg_message_key record +:+ "`")).

(** [validate_upsert_message_request]. *)
Definition validate_upsert_message_request (record : Message) : Outcome AtmError unit :=
  if bool_decide (MAX_ENVELOPE_JSON_BYTES
                  < envelope_json_len (storage_envelope_new (msg_envelope record)))
  then Err (validation ("mail-store envelope JSON exceeded the writer lane limit of "
                        +:+ pretty MAX_ENVELOPE_JSON_BYTES +:+ " bytes"))
  else Ok tt.

(** [prepare_message_insert_values]: the row to insert, and the store-owned
    record time. *)
Definition prepare_message_insert_values (record : Message) : M (MailMessageRow * IsoTimestamp) :=
  let e := msg_envelope record in
  let json := storage_envelope_new e in
  _ ← lift (validate_message_record record (envelope_json_len json));
  class ← lift (message_classification (env_extra e));
  recorded_at ← now;
  mret ({| m_envelope_json := json;
           m_from_agent := env_from e;
           m_source_chat_id := env_source_chat_id e;
           m_destination_chat_id := env_destination_chat_id e;
           m_message_text := Some (env_text e);
           m_category := class_category class;
           m_content_format := class_content_format class;
           m_tags_json := class_tags class;
           m_summary := env_summary e;
           m_message_at := env_timestamp e;
           m_message_id := env_message_id e;
           m_parent_message_id := env_parent_message_id e;
           m_thread_mode := sqlite_thread_mode (env_thread_mode e);
           m_recorded_at := Some recorded_at |}, recorded_at).

(** Two rows collide in one of the partial unique indexes
    [uq_mail_messages_message_id] and [uq_mail_messages_single_successor]. *)
Definition message_clash (k : MailKey) (r : MailMessageRow) (k' : MailKey) (r' : MailMessageRow)
    : Prop :=
  k <> k' /\ k.1 = k'.1
  /\ ((is_Some (m_message_id r) /\ m_message_id r = m_message_id r')
      \/ (is_Some (m_parent_message_id r) /\ m_parent_message_id r = m_parent_message_id r')).

#[export] Instance message_clash_dec k r k' r' : Decision (message_clash k r k' r').
Proof. unfold message_clash. apply _. Defined.

Definition message_index_ok (ms : gmap MailKey MailMessageRow) (k : MailKey) (r : MailMessageRow)
    : bool :=
  bool_decide (map_Forall (fun k' r' => ~ message_clash k r k' r') ms).

(** [map_message_insert_error]. *)
Definition map_message_insert_error (error : RusqliteError) : AtmError :=
  match error with
  | SqliteFailure ConstraintViolation =>
    with_cause
      (validation "mail-store message violates a durable message-id or successor uniqueness invariant")
      (sqlite_display error)
  | _ => sqlite_error "failed to upsert mail-store message" error
  end.

(** [WriterStatementCache::insert_message_row]: whether a row was inserted.
    An existing [(team, agent, message_key)] is left as it is. *)
Definition insert_message_row (k : MailKey) (r : MailMessageRow) : M bool :=
  d ← get_db;
  match mail_messages d !! k with
  | Some _ => mret false
  | None =>
    if message_index_ok (mail_messages d) k r
    then _ ← put_db (set_mail_messages (<[k := r]> (mail_messages d)) d); mret true
    else fail (map_message_insert_error (SqliteFailure ConstraintViolation))
  end.

(** [sync_message_projection_fields] for a row just inserted. *)
Definition sync_inserted_message_projection (k : MailKey) (r : MailMessageRow) : M unit :=
  d ← get_db;
  let doc :=
    {| d_message_id := m_message_id r;
       d_message_at := m_message_at r;
       d_body_text := default "" (m_message_text r);
       d_summary := default "" (m_summary r);
       d_tags := join_words (flatten_value number_to_string
                               (Value_Array (Value_String <$> m_tags_json r)));
       d_var_values := "";
       d_from_agent := m_from_agent r |} in
  put_db (set_search_documents (<[k := doc]> (search_documents d)) d).

(** [WriterStatementCache::upsert_message_state]. *)
Definition upsert_message_state (k : MailKey) (read : bool)
    (pending acknowledged expires deleted : option IsoTimestamp) (updated : IsoTimestamp)
    : M unit :=
  d ← get_db;
  let nudge :=
    match mail_message_states d !! k with
    | None => (None, 0)
    | Some s =>
      (if read && negb (bool_decide (is_Some pending) && bool_decide (acknowledged = None))
       then None else s_nudge_pending_at s, s_nudge_attempts s)
    end in
  let row :=
    {| s_read := read;
       s_pending_ack_at := pending;
       s_acknowledged_at := acknowledged;
       s_expires_at := expires;
       s_deleted_at := deleted;
       s_updated_at := Some updated;
       s_nudge_pending_at := nudge.1;
       s_nudge_attempts := nudge.2 |} in
  put_db (set_mail_message_states (<[k := row]> (mail_message_states d)) d).

(** [insert_initial_message_state]. *)
Definition insert_initial_message_state (record : Message) (recorded_at : IsoTimestamp) : M unit :=
  let e := msg_envelope record in
  upsert_message_state (msg_key record) (env_read e) (env_pending_ack_at e)
    (env_acknowledged_at e) (env_expires_at e) None recorded_at.

Definition insert_message_canonical (record : Message) : M bool :=
  values ← prepare_message_insert_values record;
  inserted ← insert_message_row (msg_key record) values.1;
  _ ← (if (inserted : bool)
       then sync_inserted_message_projection (msg_key record) values.1 else mret tt);
  _ ← insert_initial_message_state record values.2;
  mret inserted.

(** [load_existing_message]; a missing state row reads as unread, with no
    acknowledgement times. *)
Definition load_existing_message (requested : Message) : M Message :=
  d ← get_db;
  row ← ok_or (daemon_unavailable "sqlite writer reported an existing message key but the retained record could not be loaded")
          (mail_messages d !! msg_key requested);
  e ← ok_or (mailbox_read "failed to decode duplicate message envelope")
        (decode_envelope (m_envelope_json row));
  let e' :=
    match mail_message_states d !! msg_key requested with
    | Some s => with_display_state (s_read s) (s_pending_ack_at s) (s_acknowledged_at s)
                  (s_expires_at s) e
    | None => with_display_state false None None None e
    end in
  mret (mkMessage (msg_team requested) (msg_agent requested) (msg_message_key requested) e').

(** [drop_task_link_from_mail]. *)
Definition drop_task_link_from_mail (record : Message) : M unit :=
  d ← get_db;
  let json := storage_envelope_new (without_task_link (msg_envelope record)) in
  let detach (r : MailMessageRow) : MailMessageRow :=
    {| m_envelope_json := json;
       m_from_agent := m_from_agent r;
       m_source_chat_id := m_source_chat_id r;
       m_destination_chat_id := m_destination_chat_id r;
       m_message_text := m_message_text r;
       m_category := m_category r;
       m_content_format := m_content_format r;
       m_tags_json := m_tags_json r;
       m_summary := m_summary r;
       m_message_at := m_message_at r;
       m_message_id := m_message_id r;
       m_parent_message_id := m_parent_message_id r;
       m_thread_mode := m_thread_mode r;
       m_recorded_at := m_recorded_at r |} in
  put_db (set_mail_messages (alter detach (msg_key record) (mail_messages d)) d).
End MailStore.
