(* ===== verification/MailboxReader.v ===== *)
(** * The mailbox reader lane

    Models the read-only mailbox queries of
    [crates/atm-storage-rusqlite/src/mailbox_reader.rs] with the filters of
    [sql_filters.rs], and the errors of the lane
    ([crates/atm-storage/src/read_lane_error.rs]).  A query is a function of the
    database and of the reading of the clock that SQLite's ['now'] gives.

    The filters of templates, variables, workflow columns and effective tags
    address columns outside the model and are never set by a mailbox command.
    The pool of reader connections is a parameter: it runs a query or fails it. *)

From S2P Require Import Prelude ErrorCodes Types Address Database MailStore Threading Selection.
From stdpp Require Import base gmap strings numbers list pretty.
Local Open Scope Z_scope.
Local Open Scope string_scope.
Local Open Scope list_scope.

(** ** Errors of the lane *)

Inductive ReadLaneError : Set :=
| UnauthorizedScope
| Saturated (reason : string)
| DeadlineExpired (stage : string) (budget_ms elapsed_ms : Z)
| Unavailable (message : string)
| Storage (code : AtmErrorCode) (message : string) (cause : option string).

Definition ReadLaneError_display (error : ReadLaneError) : string :=
  match error with
  | UnauthorizedScope => "mailbox scope does not authorize this read"
  | Saturated reason => "mailbox reader lane is saturated: " +:+ reason
  | DeadlineExpired stage budget_ms elapsed_ms =>
    "mailbox reader deadline expired while " +:+ stage +:+ " (budget_ms=" +:+ pretty budget_ms
    +:+ " elapsed_ms=" +:+ pretty elapsed_ms +:+ ")"
  | Unavailable message => "mailbox reader lane is unavailable: " +:+ message
  | Storage _ message cause =>
    "mailbox reader storage failure: " +:+ message
    +:+ match cause with Some cause => "; cause: " +:+ cause | None => "" end
  end.

(** [From<ReadLaneError> for AtmError]. *)
Definition atm_error_from_lane (error : ReadLaneError) : AtmError :=
  let code :=
    match error with
    | UnauthorizedScope => MailboxReadFailed
    | Saturated _ => DaemonConnectionSaturated
    | DeadlineExpired _ _ _ => MailboxLockTimeout
    | Unavailable _ => DaemonUnavailable
    | Storage code _ _ => code
    end in
  let detail :=
    "bounded mailbox reader request failed: "
    +:+ match error with
        | UnauthorizedScope => "variant=unauthorized_scope stage=scope_check budget=not_started"
        | Saturated reason => "variant=saturated stage=" +:+ reason +:+ " budget=not_started"
        | DeadlineExpired stage budget_ms elapsed_ms =>
          "variant=deadline_expired stage=" +:+ stage +:+ " budget_ms=" +:+ pretty budget_ms
          +:+ " elapsed_ms=" +:+ pretty elapsed_ms
        | Unavailable _ => "variant=unavailable stage=reader_lane budget=unavailable"
        | Storage code _ _ => "variant=storage stage=reader_lane error_code=" +:+ code_display code
        end in
  with_cause (atm_error_new code detail) (ReadLaneError_display error).

Definition read_lane_storage_error (error : AtmError) : ReadLaneError :=
  Storage (code error) (message error) (cause error).

(** ** Filters *)

Inductive SearchReadState : Set := SearchReadState_Unread | SearchReadState_Read.
Inductive SearchAckState : Set :=
| SearchAckState_Pending | SearchAckState_Acknowledged | SearchAckState_NotRequired.
Inductive SearchMailboxSelection : Set :=
| SearchSelection_Actionable | SearchSelection_Unread
| SearchSelection_PendingAck | SearchSelection_All.
Inductive MailboxBucket : Set :=
| MailboxBucket_Unread | MailboxBucket_PendingAck | MailboxBucket_History.

#[export] Instance MailboxBucket_eq_dec : EqDecision MailboxBucket.
Proof. solve_decision. Defined.

Record SearchFilters : Set := mkSearchFilters {
  f_team : option TeamName;
  f_agent : option AgentName;
  f_from_agent : option AgentName;
  f_tags : list string;
  f_category : option string;
  f_since : option IsoTimestamp;
  f_until : option IsoTimestamp;
  f_message_id : option AtmMessageId;
  f_task_id : option TaskId;
  f_contains : option string;
  f_read_state : option SearchReadState;
  f_ack_state : option SearchAckState;
  f_current_only : bool;
  f_mailbox_selection : option SearchMailboxSelection
}.

(** One row of [mail_messages m LEFT JOIN mail_message_states ms]. *)
Record JoinedRow : Set := mkJoined {
  j_key : MailKey;
  j_message : MailMessageRow;
  j_state : option MailStateRow
}.

Definition joined_rows (d : Db) : list JoinedRow :=
  (fun kr => mkJoined kr.1 kr.2 (mail_message_states d !! kr.1)) <$> map_to_list (mail_messages d).

(** [COALESCE(a, b)]. *)
Definition coalesce {A} (a b : option A) : option A := match a with Some _ => a | None => b end.

Definition sql_read (j : JoinedRow) : bool :=
  match j_state j with Some s => s_read s | None => se_read (m_envelope_json (j_message j)) end.
Definition sql_pending_ack_at (j : JoinedRow) : option IsoTimestamp :=
  coalesce (j_state j ≫= s_pending_ack_at) (se_pending_ack_at (m_envelope_json (j_message j))).
Definition sql_acknowledged_at (j : JoinedRow) : option IsoTimestamp :=
  coalesce (j_state j ≫= s_acknowledged_at) (se_acknowledged_at (m_envelope_json (j_message j))).

(** [text > strftime('%Y-%m-%dT%H:%M:%fZ', 'now')], a comparison of texts.  A
    column holds the time with up to nine digits of fraction and [+00:00], so
    the comparison is one of milliseconds; the envelope holds it with [Z], which
    sorts after the point of a fraction, so a whole second is not past until the
    second is over. *)
Definition column_is_after (at_ text : IsoTimestamp) : bool := (at_ / 1000000 <? text / 1000000)%Z.
Definition json_is_after (at_ text : IsoTimestamp) : bool :=
  if (text mod 1000000000 =? 0)%Z then (at_ / 1000000000 <=? text / 1000000000)%Z
  else (at_ / 1000000 <? text / 1000000)%Z.

Definition sql_unexpired (at_ : IsoTimestamp) (j : JoinedRow) : bool :=
  match j_state j ≫= s_expires_at with
  | Some text => column_is_after at_ text
  | None =>
    match se_expires_at (m_envelope_json (j_message j)) with
    | Some text => json_is_after at_ text
    | None => true
    end
  end.

Definition sql_not_deleted (j : JoinedRow) : bool :=
  bool_decide (j_state j ≫= s_deleted_at = None).

(** The pending test that several clauses share. *)
Definition sql_is_pending (j : JoinedRow) : bool :=
  bool_decide (is_Some (sql_pending_ack_at j)) && bool_decide (sql_acknowledged_at j = None).

(** [push_current_only_filter]: no live message of the mailbox is_live_successor the row. *)
Definition is_live_successor (at_ : IsoTimestamp) (j successor : JoinedRow) : bool :=
  bool_decide ((j_key successor).1 = (j_key j).1)
  && bool_decide (is_Some (m_parent_message_id (j_message successor)))
  && bool_decide (m_parent_message_id (j_message successor) = m_message_id (j_message j))
  && sql_not_deleted successor && sql_unexpired at_ successor.

Definition sql_current (at_ : IsoTimestamp) (d : Db) (j : JoinedRow) : bool :=
  bool_decide (m_message_id (j_message j) = None)
  || negb (existsb (is_live_successor at_ j) (joined_rows d)).

(** [push_message_state_filters]. *)
Definition message_state_clause (at_ : IsoTimestamp) (d : Db) (filters : SearchFilters)
    (j : JoinedRow) : bool :=
  sql_not_deleted j && sql_unexpired at_ j
  && match f_read_state filters with
     | Some SearchReadState_Unread => negb (sql_read j)
     | Some SearchReadState_Read => sql_read j
     | None => true
     end
  && match f_ack_state filters with
     | Some SearchAckState_Pending => sql_is_pending j
     | Some SearchAckState_Acknowledged => bool_decide (is_Some (sql_acknowledged_at j))
     | Some SearchAckState_NotRequired => bool_decide (sql_pending_ack_at j = None)
     | None => true
     end
  && match f_mailbox_selection filters with
     | Some SearchSelection_Actionable =>
       sql_is_pending j || (negb (sql_is_pending j) && negb (sql_read j))
     | Some SearchSelection_Unread => negb (sql_is_pending j) && negb (sql_read j)
     | Some SearchSelection_PendingAck => sql_is_pending j
     | Some SearchSelection_All | None => true
     end
  && (negb (f_current_only filters) || sql_current at_ d j).

Definition equals_clause {A} `{EqDecision A} (wanted : option A) (column : option A) : bool :=
  match wanted with None => true | Some value => bool_decide (column = Some value) end.

(** [push_identity_scalar_filters]. *)
Definition identity_clause (filters : SearchFilters) (j : JoinedRow) : bool :=
  equals_clause (f_team filters) (Some (j_key j).1.1)
  && equals_clause (f_agent filters) (Some (j_key j).1.2)
  && equals_clause (f_from_agent filters) (Some (m_from_agent (j_message j)))
  && equals_clause (f_message_id filters) (m_message_id (j_message j))
  && equals_clause (f_task_id filters) (se_task_id (m_envelope_json (j_message j))).

(** [push_content_scalar_filters]; SQLite's [lower] folds ASCII letters. *)
Definition content_clause (filters : SearchFilters) (j : JoinedRow) : bool :=
  match f_contains filters with
  | None => true
  | Some contains =>
    text_contains_needle (Some (default "" (m_summary (j_message j)))) contains
    || text_contains_needle (Some (default "" (m_message_text (j_message j)))) contains
  end
  && equals_clause (f_category filters) (m_category (j_message j)).

(** [push_time_filters]; the texts of two columns compare as their times. *)
Definition time_clause (filters : SearchFilters) (j : JoinedRow) : bool :=
  match f_since filters with
  | Some since => (since <=? m_message_at (j_message j))%Z | None => true end
  && match f_until filters with
     | Some until => (m_message_at (j_message j) <=? until)%Z | None => true end.

(** [push_tag_filters]. *)
Definition tag_clause (filters : SearchFilters) (j : JoinedRow) : bool :=
  forallb (fun tag => bool_decide (tag ∈ m_tags_json (j_message j))) (f_tags filters).

(** [compile_sql_filters_for] with the mailbox aliases. *)
Definition sql_matches (at_ : IsoTimestamp) (d : Db) (filters : SearchFilters) (j : JoinedRow)
    : bool :=
  identity_clause filters j && content_clause filters j && time_clause filters j
  && tag_clause filters j && message_state_clause at_ d filters j.

(** ** Queries *)

(** [ORDER BY m.message_at DESC, m.message_key DESC]. *)
Definition compare_rows (l r : JoinedRow) : comparison :=
  then_with (Z.compare (m_message_at (j_message r)) (m_message_at (j_message l)))
            (String.compare (j_key r).2 (j_key l).2).

(** [i64::try_from(value).unwrap_or(i64::MAX)]: a list never reaches the bound. *)
Definition sql_limit (limit : option nat) (rows : list JoinedRow) : list JoinedRow :=
  limit_to limit rows.

(** [apply_state] of a stored state. *)
Definition apply_state (e : MessageEnvelope) (state : option MailStateRow) : MessageEnvelope :=
  match state with
  | Some s =>
    with_display_state (s_read s) (s_pending_ack_at s) (s_acknowledged_at s) (s_expires_at s) e
  | None => e
  end.

Record MailboxListQuery : Set := mkListQuery {
  lq_filters : SearchFilters;
  lq_limit : option nat
}.

Record MessageQuery : Set := mkMessageQuery {
  mq_team : TeamName;
  mq_agent : AgentName;
  mq_sender : option AgentName;
  mq_task_id : option TaskId;
  mq_limit : option nat
}.

Definition scope_permits (scope : MemberKey) (query : MessageQuery) : bool :=
  bool_decide (member_team scope = mq_team query) && bool_decide (member_agent scope = mq_agent query).

(** The grouping the mailbox commands ask for. *)
Inductive SearchCountGroupBy : Set := GroupBy_Bucket.
Inductive SearchCountKey : Set := CountKey_Bucket (bucket : MailboxBucket).

Record SearchCount : Set := mkSearchCount {
  sc_key : option SearchCountKey;
  sc_count : nat
}.

(** What the lane takes from outside: a query submitted at reading [n] runs
    unless the pool fails it, and other clients commit before it. *)
Class ReaderLane : Type := mkReaderLane {
  lane_fault : nat -> option ReadLaneError;
  others_commit : nat -> Db -> Db;
  envelope_decode_cause : StorageEnvelope -> string;  (* serde's message *)
  instant_at : nat -> Z                               (* Instant::now, in nanoseconds *)
}.

Section Reader.
Context {rt : Runtime} {lane : ReaderLane}.

(** [MessageKey::new]. *)
Definition require_non_blank (value subject : string) : Outcome AtmError string :=
  if String.eqb (trim value) "" then Err (validation (subject +:+ " must not be blank")) else Ok value.

Definition message_key_new (value : string) : Outcome AtmError MessageKey :=
  require_non_blank value "message key".

(** The columns hold times the store has written, so they parse. *)
Definition decode_matching_message (scope : MemberKey) (j : JoinedRow) : Outcome AtmError Message :=
  key ← message_key_new (j_key j).2;
  match decode_envelope (m_envelope_json (j_message j)) with
  | Some e =>
    Ok (mkMessage (member_team scope) (member_agent scope) key (apply_state e (j_state j)))
  | None =>
    Err (with_cause (validation "failed to decode sqlite message envelope")
           (envelope_decode_cause (m_envelope_json (j_message j))))
  end.

Definition matching_rows (at_ : IsoTimestamp) (d : Db) (filters : SearchFilters) : list JoinedRow :=
  sort_by compare_rows (List.filter (sql_matches at_ d filters) (joined_rows d)).

(** [list_matching_messages]. *)
Definition list_matching_messages (at_ : IsoTimestamp) (d : Db) (scope : MemberKey)
    (query : MailboxListQuery) : Outcome AtmError (list Message) :=
  collect (decode_matching_message scope
             <$> sql_limit (lq_limit query) (matching_rows at_ d (lq_filters query))).

(** The clauses of [list_messages]: the state alone says whether a message has
    expired. *)
Definition list_clause (at_ : IsoTimestamp) (query : MessageQuery) (j : JoinedRow) : bool :=
  bool_decide ((j_key j).1 = (mq_team query, mq_agent query))
  && equals_clause (mq_sender query) (Some (m_from_agent (j_message j)))
  && equals_clause (mq_task_id query) (se_task_id (m_envelope_json (j_message j)))
  && sql_not_deleted j
  && match j_state j ≫= s_expires_at with
     | Some text => column_is_after at_ text
     | None => true
     end.

Definition list_messages (at_ : IsoTimestamp) (d : Db) (scope : MemberKey) (query : MessageQuery)
    : Outcome AtmError (list Message) :=
  if negb (scope_permits scope query)
  then Err (validation "mailbox scope does not authorize this query")
  else
    collect (decode_matching_message scope
               <$> sql_limit (mq_limit query)
                     (sort_by compare_rows (List.filter (list_clause at_ query) (joined_rows d)))).

Definition mailbox_member_exists (d : Db) (scope : MemberKey) : bool :=
  bool_decide (is_Some (team_roster d !! (member_team scope, member_agent scope))).

Definition load_seen_watermark (d : Db) (scope : MemberKey) : option IsoTimestamp :=
  mail_seen_watermarks d !! (member_team scope, member_agent scope).

(** The bucket expression of [count_messages]. *)
Definition sql_bucket (j : JoinedRow) : MailboxBucket :=
  if sql_is_pending j then MailboxBucket_PendingAck
  else if negb (sql_read j) then MailboxBucket_Unread
  else MailboxBucket_History.

(** A group appears when it has a row. *)
Definition bucket_group (rows : list JoinedRow) (bucket : MailboxBucket) : list SearchCount :=
  match length (filter (fun j => sql_bucket j = bucket) rows) with
  | O => []
  | n => [mkSearchCount (Some (CountKey_Bucket bucket)) n]
  end.

Definition count_messages (at_ : IsoTimestamp) (d : Db) (filters : SearchFilters)
    (group_by : option SearchCountGroupBy) : list SearchCount :=
  let rows := List.filter (sql_matches at_ d filters) (joined_rows d) in
  match group_by with
  | Some GroupBy_Bucket =>
    bucket_group rows MailboxBucket_Unread ++ bucket_group rows MailboxBucket_PendingAck
    ++ bucket_group rows MailboxBucket_History
  | None => [mkSearchCount None (length rows)]
  end.

(** ** The lane *)

(** [ReaderPool::submit]: other clients commit, then the query runs in one read
    transaction, or the pool fails it. *)
Definition submit {A} (query : IsoTimestamp -> Db -> Outcome AtmError A) : M A :=
  fun w =>
    let d := others_commit (ticks w) (db w) in
    let w' := mkWorld d (S (ticks w)) in
    match lane_fault (ticks w) with
    | Some fault => (Err (atm_error_from_lane fault), w')
    | None =>
      match query (now_at (ticks w)) d with
      | Ok a => (Ok a, w')
      | Err e => (Err (atm_error_from_lane (read_lane_storage_error e)), w')
      | Panic => (Panic, w')
      end
    end.

(** The scope check of [submit_matching_list] and [submit_count]. *)
Definition scope_mismatch (scope : MemberKey) (filters : SearchFilters) : bool :=
  match f_team filters with Some team => bool_decide (team <> member_team scope) | None => false end
  || match f_agent filters with
     | Some agent => bool_decide (agent <> member_agent scope) | None => false end.

Definition with_scope (scope : MemberKey) (filters : SearchFilters) : SearchFilters :=
  mkSearchFilters (Some (member_team scope)) (Some (member_agent scope)) (f_from_agent filters)
    (f_tags filters) (f_category filters) (f_since filters) (f_until filters)
    (f_message_id filters) (f_task_id filters) (f_contains filters) (f_read_state filters)
    (f_ack_state filters) (f_current_only filters) (f_mailbox_selection filters).

Definition submit_matching_list (scope : MemberKey) (query : MailboxListQuery) : M (list Message) :=
  if scope_mismatch scope (lq_filters query) then fail (atm_error_from_lane UnauthorizedScope)
  else submit (fun at_ d =>
         list_matching_messages at_ d scope
           (mkListQuery (with_scope scope (lq_filters query)) (lq_limit query))).

Definition submit_list (scope : MemberKey) (query : MessageQuery) : M (list Message) :=
  if negb (scope_permits scope query) then fail (atm_error_from_lane UnauthorizedScope)
  else submit (fun at_ d => list_messages at_ d scope query).

Definition submit_count (scope : MemberKey) (filters : SearchFilters)
    (group_by : option SearchCountGroupBy) : M (list SearchCount) :=
  if scope_mismatch scope filters then fail (atm_error_from_lane UnauthorizedScope)
  else submit (fun at_ d => Ok (count_messages at_ d filters group_by)).

Definition submit_member_exists (scope : MemberKey) : M bool :=
  submit (fun _ d => Ok (mailbox_member_exists d scope)).

Definition submit_seen_watermark (scope : MemberKey) : M (option IsoTimestamp) :=
  submit (fun _ d => Ok (load_seen_watermark d scope)).
End Reader.
