(* ===== verification/ReadCommands.v ===== *)
(** * Mailbox commands

    Models the requests of [crates/atm-core/src/read/request.rs], the roster
    aliases and the owner check of [read/mod.rs], the command preparation and the
    outcomes of [read/async_projection.rs] and the list command of [list.rs],
    with [resolve_target] of [mailbox/source.rs]. *)

From S2P Require Import Prelude ErrorCodes Types Address Database Threading Selection Roster.
From stdpp Require Import base gmap strings numbers list pretty.
Local Open Scope Z_scope.
Local Open Scope string_scope.
Local Open Scope list_scope.

Inductive CommandAction : Set := Action_Ack | Action_Clear | Action_List | Action_Peek | Action_Read | Action_Send.

#[export] Instance CommandAction_eq_dec : EqDecision CommandAction.
Proof. solve_decision. Defined.

(** ** Requests *)

Definition MAX_CONTAINS_FILTER_LEN : Z := 1024.
Definition MAX_TIMEOUT_SECS : Z := 3600.

(** [str::to_ascii_lowercase]. *)
Definition string_to_ascii_lowercase (s : string) : string :=
  String.string_of_list_ascii (to_ascii_lowercase <$> String.list_ascii_of_string s).

(** [str::eq_ignore_ascii_case]. *)
Definition eq_ignore_ascii_case (a b : string) : bool :=
  String.eqb (string_to_ascii_lowercase a) (string_to_ascii_lowercase b).

Definition normalize_contains_filter (contains_filter : option string)
    : Outcome AtmError (option string) :=
  match contains_filter with
  | None => Ok None
  | Some raw =>
    let value := trim raw in
    if String.eqb value "" then Ok None
    else if (MAX_CONTAINS_FILTER_LEN <? Z.of_nat (String.length value))%Z
    then Err (validation ("contains filter exceeds the " +:+ pretty MAX_CONTAINS_FILTER_LEN
                          +:+ "-byte maximum"))
    else Ok (Some (string_to_ascii_lowercase value))
  end.

Definition validate_timeout_secs (timeout_secs : option Z) : Outcome AtmError (option Z) :=
  match timeout_secs with
  | Some value =>
    if (MAX_TIMEOUT_SECS <? value)%Z
    then Err (validation ("timeout exceeds the " +:+ pretty MAX_TIMEOUT_SECS +:+ " second maximum"))
    else Ok timeout_secs
  | None => Ok timeout_secs
  end.

(** [TaskId::from_str]. *)
Definition task_id_from_str (value : string) : Outcome AtmError TaskId :=
  let trimmed := trim value in
  if String.eqb trimmed "" then Err (validation "task id must not be blank") else Ok trimmed.

Record MailboxQueryFields : Set := mkQueryFields {
  q_home_dir : string;
  q_current_dir : string;
  q_target_address : option AgentAddress;
  q_selection_mode : ReadSelection;
  q_seen_state_filter : bool;
  q_message_id_filter : option AtmMessageId;
  q_sender_filter : option AgentName;
  q_participant_filter : option MessageParticipantFilter;
  q_timestamp_filter : option IsoTimestamp;
  q_task_filter : option TaskId;
  q_contains_filter : option string;
  q_timeout_secs : option Z
}.

Record ActivityObservation : Set := mkActivityObservation {
  activity_team : TeamName;
  activity_member : AgentName;
  activity_session_id : option string;
  activity_pid : option Z
}.

Record PeekQuery : Set := mkPeekQuery {
  pq_mailbox : MailboxQueryFields;
  pq_caller_identity : AgentName;
  pq_caller_chat_id : option ChatId;
  pq_caller_team : TeamName
}.

Record ReadQuery : Set := mkReadQuery {
  rq_mailbox : MailboxQueryFields;
  rq_caller_identity : AgentName;
  rq_caller_chat_id : option ChatId;
  rq_caller_team : TeamName;
  rq_seen_state_update : bool;
  rq_activity_observation : option ActivityObservation
}.

(** The strings a request carries before they are parsed. *)
Record MailboxQueryFilters : Set := mkQueryFilters {
  qf_target_address : option string;
  qf_message_id : option string;
  qf_sender : option string;
  qf_timestamp : option IsoTimestamp;
  qf_task : option string;
  qf_contains : option string;
  qf_timeout_secs : option Z
}.

Section Requests.
(** [AtmMessageId::from_str], of the [ulid] package. *)
Context (parse_message_id : string -> option AtmMessageId).

Definition message_id_or_invalid (value : string) : Outcome AtmError AtmMessageId :=
  match parse_message_id value with
  | Some id => Ok id
  | None => Err (validation ("invalid message id: " +:+ value))
  end.

Definition MailboxQueryFields_new (home_dir current_dir : string) (mode : ReadSelection)
    (seen_state_filter : bool) (filters : MailboxQueryFilters) : Outcome AtmError MailboxQueryFields :=
  target_address ← option_traverse agent_address_from_str (qf_target_address filters);
  message_id ← option_traverse message_id_or_invalid (qf_message_id filters);
  sender ← option_traverse agent_name_from_str (qf_sender filters);
  task ← option_traverse task_id_from_str (qf_task filters);
  contains ← normalize_contains_filter (qf_contains filters);
  timeout ← validate_timeout_secs (qf_timeout_secs filters);
  Ok (mkQueryFields home_dir current_dir target_address mode seen_state_filter message_id sender
        None (qf_timestamp filters) task contains timeout).

Definition with_participant (p : option MessageParticipantFilter) (q : MailboxQueryFields)
    : MailboxQueryFields :=
  mkQueryFields (q_home_dir q) (q_current_dir q) (q_target_address q) (q_selection_mode q)
    (q_seen_state_filter q) (q_message_id_filter q) (q_sender_filter q) p (q_timestamp_filter q)
    (q_task_filter q) (q_contains_filter q) (q_timeout_secs q).

(** [PeekQuery::new]: mail to the bare agent. *)
Definition PeekQuery_new (home_dir current_dir : string) (caller_identity : AgentName)
    (caller_team : TeamName) (mode : ReadSelection) (seen_state_filter : bool)
    (filters : MailboxQueryFilters) : Outcome AtmError PeekQuery :=
  mailbox ← MailboxQueryFields_new home_dir current_dir mode seen_state_filter filters;
  Ok (mkPeekQuery
        (with_participant (Some (mkParticipantFilter caller_identity None Direction_To)) mailbox)
        caller_identity None caller_team).

Definition ReadQuery_new (home_dir current_dir : string) (caller_identity : AgentName)
    (caller_team : TeamName) (mode : ReadSelection) (seen_state_filter seen_state_update : bool)
    (filters : MailboxQueryFilters) : Outcome AtmError ReadQuery :=
  mailbox ← MailboxQueryFields_new home_dir current_dir mode seen_state_filter filters;
  Ok (mkReadQuery mailbox caller_identity None caller_team seen_state_update None).
End Requests.

(** A chat identity of the caller scopes the mailbox to it; none removes the
    scope. *)
Definition chat_participant (caller_identity : AgentName) (chat : option ChatId)
    : option MessageParticipantFilter :=
  (fun chat_id => mkParticipantFilter caller_identity (Some chat_id) Direction_To) <$> chat.

Definition PeekQuery_with_caller_chat_id (chat : option ChatId) (q : PeekQuery) : PeekQuery :=
  mkPeekQuery (with_participant (chat_participant (pq_caller_identity q) chat) (pq_mailbox q))
    (pq_caller_identity q) chat (pq_caller_team q).

Definition ReadQuery_with_caller_chat_id (chat : option ChatId) (q : ReadQuery) : ReadQuery :=
  mkReadQuery (with_participant (chat_participant (rq_caller_identity q) chat) (rq_mailbox q))
    (rq_caller_identity q) chat (rq_caller_team q) (rq_seen_state_update q)
    (rq_activity_observation q).

(** [MailboxSelectionRequest::from_read_query]. *)
Definition from_read_query (query : ReadQuery) (watermark : option IsoTimestamp)
    : MailboxSelectionRequest :=
  let q := rq_mailbox query in
  mkSelectionRequest (q_selection_mode q) watermark (q_message_id_filter q) (q_sender_filter q)
    (q_participant_filter q) (q_timestamp_filter q) (q_task_filter q) (q_contains_filter q).

(** ** Roster aliases *)

Section Aliases.
(** The roster's resolution of a member name: the team, the name and whether an
    alias of another team may match. *)
Context (resolve_member : TeamName -> AgentName -> bool -> option (TeamName * AgentName)).

(** The target address under its canonical name. *)
Definition canonical_target (caller_team : TeamName) (target : option AgentAddress)
    : option AgentAddress :=
  match target with
  | None => None
  | Some address =>
    let target_team := default caller_team (addr_team address) in
    let explicit_team := bool_decide (is_Some (addr_team address)) in
    match resolve_member target_team (addr_agent address) (negb explicit_team) with
    | Some (team, member) =>
      match agent_address_new member (addr_chat_id address) (Some team) (addr_host address) with
      | Ok canonical_address => Some canonical_address
      | _ => target
      end
    | None => target
    end
  end.

Definition canonicalize_roster_aliases (query : ReadQuery) : ReadQuery :=
  let original_caller := rq_caller_identity query in
  let '(caller_team, caller_identity, activity_observation) :=
    match resolve_member (rq_caller_team query) (rq_caller_identity query) true with
    | Some (team, member) =>
      (team, member,
       if bool_decide (member <> rq_caller_identity query) then None
       else rq_activity_observation query)
    | None => (rq_caller_team query, rq_caller_identity query, rq_activity_observation query)
    end in
  let q := rq_mailbox query in
  let participant :=
    match q_participant_filter q with
    | Some p =>
      Some (if bool_decide (participant_agent p = original_caller)
            then mkParticipantFilter caller_identity (participant_chat_id p) (participant_direction p)
            else p)
    | None => None
    end in
  let target_team := default caller_team (q_target_address q ≫= addr_team) in
  let explicit_team := bool_decide (is_Some (q_target_address q ≫= addr_team)) in
  let sender :=
    match q_sender_filter q with
    | Some sender =>
      match resolve_member target_team sender (negb explicit_team) with
      | Some (_, member) => Some member
      | None => Some sender
      end
    | None => None
    end in
  mkReadQuery
    (mkQueryFields (q_home_dir q) (q_current_dir q)
       (canonical_target caller_team (q_target_address q)) (q_selection_mode q)
       (q_seen_state_filter q) (q_message_id_filter q) sender participant (q_timestamp_filter q)
       (q_task_filter q) (q_contains_filter q) (q_timeout_secs q))
    caller_identity (rq_caller_chat_id query) caller_team (rq_seen_state_update query)
    activity_observation.

(** The read query a peek stands for. *)
Definition read_of_peek (query : PeekQuery) : ReadQuery :=
  mkReadQuery (pq_mailbox query) (pq_caller_identity query) (pq_caller_chat_id query)
    (pq_caller_team query) false None.

(** [canonicalize_peek_roster_aliases]: the caller's team is kept. *)
Definition canonicalize_peek_roster_aliases (query : PeekQuery) : PeekQuery :=
  let read := canonicalize_roster_aliases (read_of_peek query) in
  mkPeekQuery (rq_mailbox read) (rq_caller_identity read) (pq_caller_chat_id query)
    (pq_caller_team query).
End Aliases.

(** ** Targets *)

Record ResolvedTarget : Set := mkTarget {
  target_agent : AgentName;
  target_team : TeamName;
  target_explicit : bool
}.

Definition resolve_target (target_address : option AgentAddress) (actor : AgentName)
    (caller_team : TeamName) : ResolvedTarget :=
  match target_address with
  | None => mkTarget actor caller_team false
  | Some address => mkTarget (addr_agent address) (default caller_team (addr_team address)) true
  end.

Definition ensure_owner_only_read_target (actor : AgentName) (actor_team : TeamName)
    (target : ResolvedTarget) : Outcome AtmError unit :=
  if target_explicit target
     && (negb (eq_ignore_ascii_case actor (target_agent target))
         || negb (eq_ignore_ascii_case actor_team (target_team target)))
  then Err (validation ("owner-only `atm read` may not target '" +:+ target_agent target
              +:+ "' in team '" +:+ target_team target
              +:+ "'; run the command as the mailbox owner or use `atm peek --as` for inspection"))
  else Ok tt.

(** ** Read and peek commands *)

Record AsyncReadCommand : Set := mkReadCommand {
  rc_scope : MemberKey;
  rc_selection : MailboxSelectionRequest;
  rc_explicit_target : bool;
  rc_selection_mode : ReadSelection;
  rc_action : CommandAction;
  rc_loads_seen_watermark : bool;
  rc_updates_seen_state : bool;
  rc_wait_timeout : option Z;
  rc_write_origin : MessageWriteOrigin
}.

Definition with_watermark (watermark : option IsoTimestamp) (r : MailboxSelectionRequest)
    : MailboxSelectionRequest :=
  mkSelectionRequest (selection_mode r) watermark (message_id_filter r) (sender_filter r)
    (participant_filter r) (timestamp_filter r) (task_filter r) (contains_filter r).

Definition AsyncReadCommand_with_seen_watermark (watermark : option IsoTimestamp)
    (c : AsyncReadCommand) : AsyncReadCommand :=
  mkReadCommand (rc_scope c) (with_watermark watermark (rc_selection c)) (rc_explicit_target c)
    (rc_selection_mode c) (rc_action c) (rc_loads_seen_watermark c) (rc_updates_seen_state c)
    (rc_wait_timeout c) (rc_write_origin c).

Definition with_write_origin (origin : MessageWriteOrigin) (c : AsyncReadCommand) : AsyncReadCommand :=
  mkReadCommand (rc_scope c) (rc_selection c) (rc_explicit_target c) (rc_selection_mode c)
    (rc_action c) (rc_loads_seen_watermark c) (rc_updates_seen_state c) (rc_wait_timeout c) origin.

(** [Duration::from_secs], in nanoseconds. *)
Definition duration_from_secs (secs : Z) : Z := secs * 1000000000.

Definition prepare (query : ReadQuery) (action : CommandAction) (owner_only updates_seen_state : bool)
    : Outcome AtmError AsyncReadCommand :=
  let actor := rq_caller_identity query in
  let q := rq_mailbox query in
  let target := resolve_target (q_target_address q) actor (rq_caller_team query) in
  _ ← (if owner_only then ensure_owner_only_read_target actor (rq_caller_team query) target
       else Ok tt);
  let seen_requested :=
    q_seen_state_filter q && bool_decide (q_selection_mode q <> Selection_All) in
  Ok (mkReadCommand (mkMemberKey (target_team target) (target_agent target))
        (from_read_query query None) (target_explicit target) (q_selection_mode q) action
        seen_requested updates_seen_state (duration_from_secs <$> q_timeout_secs q) Origin_Local).

Definition prepare_async_peek (query : PeekQuery) : Outcome AtmError AsyncReadCommand :=
  prepare (read_of_peek query) Action_Peek false false.

Definition prepare_async_read (query : ReadQuery) : Outcome AtmError AsyncReadCommand :=
  prepare query Action_Read true (rq_seen_state_update query).

Record ReadOutcome : Set := mkReadOutcome {
  ro_action : CommandAction;
  ro_team : TeamName;
  ro_agent : AgentName;
  ro_selection_mode : ReadSelection;
  ro_mutation_applied : bool;
  ro_count : nat;
  ro_message : option ClassifiedMessage;
  ro_selected_message_id : option AtmMessageId;
  ro_match_count : nat;
  ro_additional_match_count : nat;
  ro_bucket_counts : BucketCounts
}.

Definition classified_message (message : SelectedMailboxMessage) : ClassifiedMessage :=
  mkClassified 0 (sel_message_key message) (sel_bucket message) (sel_class message)
    (sel_envelope message).

Definition complete_async_read (command : AsyncReadCommand) (selection : MailboxSelectionResult)
    (match_count : nat) (mutation_handoff_accepted : bool) : ReadOutcome :=
  let message : option ClassifiedMessage := classified_message <$> head (selected selection) in
  mkReadOutcome (rc_action command) (member_team (rc_scope command))
    (member_agent (rc_scope command)) (rc_selection_mode command)
    (bool_decide (rc_action command = Action_Read) && mutation_handoff_accepted)
    (match message with Some _ => 1 | None => 0 end) message
    (head (selected selection) ≫= fun m => env_message_id (sel_envelope m))
    match_count (match_count - 1)%nat (bucket_counts selection).

(** ** List commands *)

Definition DEFAULT_LIST_LIMIT : nat := 200.
Definition MAX_LIST_LIMIT : Z := 10000.

Definition normalize_limit (limit : option nat) : Outcome AtmError (option nat) :=
  match limit with
  | Some O => Err (validation "list limit must be at least 1")
  | Some value =>
    if (MAX_LIST_LIMIT <? Z.of_nat value)%Z
    then Err (validation ("list limit exceeds the " +:+ pretty MAX_LIST_LIMIT +:+ " row maximum"))
    else Ok (Some value)
  | None => Ok (Some DEFAULT_LIST_LIMIT)
  end.

(** The mailbox members of [ListQuery]; the task-ledger views are another
    command. *)
Record ListQuery : Set := mkMailboxListQuery {
  l_caller_identity : AgentName;
  l_caller_team : TeamName;
  l_target_address : option AgentAddress;
  l_selection_mode : ReadSelection;
  l_seen_state_filter : bool;
  l_limit : option nat;
  l_sender_filter : option AgentName;
  l_timestamp_filter : option IsoTimestamp;
  l_task_filter : option TaskId;
  l_contains_filter : option string
}.

Record AsyncListCommand : Set := mkListCommand {
  lc_scope : MemberKey;
  lc_selection : MailboxSelectionRequest;
  lc_explicit_target : bool;
  lc_selection_mode : ReadSelection;
  lc_limit : option nat;
  lc_loads_seen_watermark : bool
}.

(** [pushdown_limit]: the query may apply the limit when nothing filters its
    rows afterwards. *)
Definition pushdown_limit (c : AsyncListCommand) : option nat :=
  let s := lc_selection c in
  if bool_decide (lc_selection_mode c = Selection_All)
     && bool_decide (sender_filter s = None)
     && (match participant_filter s with Some _ => false | None => true end)
     && bool_decide (timestamp_filter s = None)
     && bool_decide (task_filter s = None)
     && bool_decide (contains_filter s = None)
     && bool_decide (message_id_filter s = None)
  then lc_limit c else None.

Definition AsyncListCommand_with_seen_watermark (watermark : option IsoTimestamp)
    (c : AsyncListCommand) : AsyncListCommand :=
  mkListCommand (lc_scope c) (with_watermark watermark (lc_selection c)) (lc_explicit_target c)
    (lc_selection_mode c) (lc_limit c) (lc_loads_seen_watermark c).

Definition prepare_async_list (query : ListQuery) : Outcome AtmError AsyncListCommand :=
  let target := resolve_target (l_target_address query) (l_caller_identity query)
                  (l_caller_team query) in
  Ok (mkListCommand (mkMemberKey (target_team target) (target_agent target))
        (mkSelectionRequest (l_selection_mode query) None None (l_sender_filter query) None
           (l_timestamp_filter query) (l_task_filter query) (l_contains_filter query))
        (target_explicit target) (l_selection_mode query) (l_limit query)
        (l_seen_state_filter query && bool_decide (l_selection_mode query <> Selection_All))).

Record ListRow : Set := mkListRow {
  row_message_id : option AtmMessageId;
  row_summary : string;
  row_from : AgentName;
  row_timestamp : IsoTimestamp;
  row_read : bool;
  row_pending_ack : bool;
  row_task_id : option TaskId
}.

Record ListOutcome : Set := mkListOutcome {
  lo_team : TeamName;
  lo_agent : AgentName;
  lo_selection_mode : ReadSelection;
  lo_history_collapsed : bool;
  lo_count : nat;
  lo_rows : list ListRow;
  lo_bucket_counts : BucketCounts
}.

Definition list_row (m : SelectedMailboxMessage) : ListRow :=
  let e := sel_envelope m in
  mkListRow (env_message_id e) (default "" (env_summary e)) (env_from e) (env_timestamp e)
    (env_read e)
    (match derive_ack_requirement e with RequiredPending => true | _ => false end) (env_task_id e).

Definition complete_async_list (command : AsyncListCommand) (selection : MailboxSelectionResult)
    : ListOutcome :=
  let rows := list_row <$> sort_and_limit_mailbox_selection (selected selection) (lc_limit command) in
  mkListOutcome (member_team (lc_scope command)) (member_agent (lc_scope command))
    (lc_selection_mode command)
    (bool_decide (lc_selection_mode command <> Selection_All)
     && Nat.ltb 0 (count_history (bucket_counts selection)))
    (length rows) rows (bucket_counts selection).

(** [canonicalize_roster_aliases] of [list.rs], for a mailbox view. *)
Definition canonicalize_list_roster_aliases
    (resolve_member : TeamName -> AgentName -> bool -> option (TeamName * AgentName))
    (query : ListQuery) : ListQuery :=
  let '(caller_team, caller_identity) :=
    match resolve_member (l_caller_team query) (l_caller_identity query) true with
    | Some (team, member) => (team, member)
    | None => (l_caller_team query, l_caller_identity query)
    end in
  let target_team := default caller_team (l_target_address query ≫= addr_team) in
  let explicit_team := bool_decide (is_Some (l_target_address query ≫= addr_team)) in
  let sender :=
    match l_sender_filter query with
    | Some sender =>
      match resolve_member target_team sender (negb explicit_team) with
      | Some (_, member) => Some member
      | None => Some sender
      end
    | None => None
    end in
  mkMailboxListQuery caller_identity caller_team
    (canonical_target resolve_member caller_team (l_target_address query)) (l_selection_mode query)
    (l_seen_state_filter query) (l_limit query) sender (l_timestamp_filter query)
    (l_task_filter query) (l_contains_filter query).
