(* ===== verification/ReadCommandProps.v ===== *)
(** * Properties of the read, peek and list commands *)

From S2P Require Import Prelude ErrorCodes Types Address Database Threading Selection Roster ReadCommands.
From stdpp Require Import base gmap strings numbers list.
Local Open Scope string_scope.
Local Open Scope list_scope.

(** ** Roster names *)

Definition on_roster (roster : list RosterMember) (team : TeamName) (name : AgentName) : Prop :=
  exists m, m ∈ roster /\ rm_team_name m = team /\ rm_agent_name m = name.

Lemma on_roster_existsb roster team name :
  existsb (fun m => String.eqb (rm_team_name m) team && String.eqb (rm_agent_name m) name) roster
  = true <-> on_roster roster team name.
Proof.
  rewrite existsb_exists. unfold on_roster. setoid_rewrite andb_true_iff. setoid_rewrite String.eqb_eq.
  setoid_rewrite <- list_elem_of_In. done.
Qed.

Lemma exact_name roster team name :
  on_roster roster team name ->
  existsb (fun m => String.eqb (rm_agent_name m) name)
    (filter (fun m => rm_team_name m = team) roster) = true.
Proof.
  intros (m & Hm & Ht & Hn). apply existsb_exists. exists m. split; [|by apply String.eqb_eq].
  by apply list_elem_of_In, list_elem_of_filter.
Qed.

Lemma resolve_exact roster team name b :
  on_roster roster team name ->
  resolve_roster_member_at_ingress roster team name b = Some (team, name).
Proof.
  intros H. unfold resolve_roster_member_at_ingress, resolve_roster_alias_with_owner.
  rewrite (exact_name _ _ _ H). by rewrite (proj2 (on_roster_existsb roster team name) H).
Qed.

(** Resolving a member name gives a member of the roster, prefers the member
    of that name in the addressed team over any alias, never leaves the addressed
    team unless a database-wide alias is allowed, and resolves what it has
    resolved to itself, so that a name can be canonicalized at every layer. *)
Theorem roster_resolution_canonical roster team name allow :
  (on_roster roster team name ->
   resolve_roster_member_at_ingress roster team name allow = Some (team, name))
  /\ match resolve_roster_member_at_ingress roster team name allow with
     | Some (team', name') =>
       on_roster roster team' name'
       /\ (team' <> team -> allow = true)
       /\ forall allow', resolve_roster_member_at_ingress roster team' name' allow' = Some (team', name')
     | None => ~ on_roster roster team name
     end.
Proof.
  split; [apply resolve_exact|].
  destruct (resolve_roster_member_at_ingress roster team name allow) as [[team' name']|] eqn:E.
  2:{ intros H. by rewrite (resolve_exact _ _ _ _ H) in E. }
  unfold resolve_roster_member_at_ingress in E.
  destruct (resolve_roster_alias_with_owner _ _ _ _ _) as [t n] eqn:Er.
  destruct (existsb _ roster) eqn:Ex; [|done]. injection E as -> ->.
  apply on_roster_existsb in Ex. split_and!; [done| |intros; by apply resolve_exact].
  intros Hne. unfold resolve_roster_alias_with_owner in Er.
  destruct (existsb _ _); [by injection Er|]. destruct (List.find _ (filter _ _)); [by injection Er|].
  destruct allow; [done|by injection Er].
Qed.

(** ** Owners *)

(** A read command is for the caller's own mailbox: under the caller's
    canonical name the command either addresses that mailbox, up to the case of
    ASCII letters, reads with the caller's own filters and changes state as
    [atm read] does, or it is refused because the target named another mailbox. *)
Theorem read_owner_only resolve query :
  let canonical := canonicalize_roster_aliases resolve query in
  let target := resolve_target (q_target_address (rq_mailbox canonical)) (rq_caller_identity canonical)
                  (rq_caller_team canonical) in
  match prepare_async_read canonical with
  | Ok command =>
    eq_ignore_ascii_case (rq_caller_identity canonical) (member_agent (rc_scope command)) = true
    /\ eq_ignore_ascii_case (rq_caller_team canonical) (member_team (rc_scope command)) = true
    /\ rc_selection command = from_read_query canonical None
    /\ rc_action command = Action_Read
  | Err _ =>
    target_explicit target = true
    /\ (eq_ignore_ascii_case (rq_caller_identity canonical) (target_agent target) = false
        \/ eq_ignore_ascii_case (rq_caller_team canonical) (target_team target) = false)
  | Panic => False
  end.
Proof.
  cbv zeta. generalize (canonicalize_roster_aliases resolve query) as q. intros q.
  assert (forall s, eq_ignore_ascii_case s s = true) as Hrefl by (intros s; apply String.eqb_refl).
  unfold prepare_async_read, prepare, ensure_owner_only_read_target, resolve_target.
  destruct (q_target_address (rq_mailbox q)) as [a|]; cbn; [|by rewrite !Hrefl].
  destruct (eq_ignore_ascii_case (rq_caller_identity q) (addr_agent a)) eqn:E1; cbn; [|by split; [|left]].
  destruct (eq_ignore_ascii_case (rq_caller_team q) (default (rq_caller_team q) (addr_team a))) eqn:E2; cbn;
    [done|by split; [|right]].
Qed.

(** A caller known by an alias that another team owns reads and peeks
    different mailboxes: the read goes to the member's mailbox in the owning
    team, the peek to a mailbox of that member's name in the caller's team. *)
Theorem peek_keeps_caller_team resolve query team member :
  resolve (rq_caller_team query) (rq_caller_identity query) true = Some (team, member) ->
  q_target_address (rq_mailbox query) = None ->
  rc_scope <$> prepare_async_read (canonicalize_roster_aliases resolve query)
    = Ok (mkMemberKey team member)
  /\ rc_scope <$> prepare_async_peek (canonicalize_peek_roster_aliases resolve
       (mkPeekQuery (rq_mailbox query) (rq_caller_identity query) (rq_caller_chat_id query)
          (rq_caller_team query)))
    = Ok (mkMemberKey (rq_caller_team query) member).
Proof.
  intros Hr Ht.
  unfold canonicalize_peek_roster_aliases, canonicalize_roster_aliases, read_of_peek.
  cbn [rq_caller_team rq_caller_identity rq_mailbox rq_caller_chat_id rq_seen_state_update
       rq_activity_observation pq_mailbox pq_caller_identity pq_caller_chat_id pq_caller_team].
  rewrite Hr, Ht. done.
Qed.

(** [bob] is the alias of a member of team [beta]. *)
Definition alias_roster : list RosterMember :=
  [mkRosterMember "beta" "robert" Permanent ClaudeCode AgentType_Worker "" None
     [("alias", Value_String "bob")]].

Definition bobs_read : ReadQuery :=
  mkReadQuery (mkQueryFields "/home" "/work" None Selection_Actionable true None None None None None None None)
    "bob" None "alpha" true None.

Lemma peek_keeps_caller_team_witness :
  rc_scope <$> prepare_async_peek
    (canonicalize_peek_roster_aliases (resolve_roster_member_at_ingress alias_roster)
       (mkPeekQuery (rq_mailbox bobs_read) "bob" None "alpha"))
  = Ok (mkMemberKey "alpha" "robert").
Proof.
  exact (proj2 (peek_keeps_caller_team (resolve_roster_member_at_ingress alias_roster) bobs_read
    "beta" "robert" ltac:(vm_compute; reflexivity) ltac:(reflexivity))).
Defined.
