(* ===== verification/MailSpec.v ===== *)
(** * Facts about the mail store

    [insert_message_canonical] inserts a message with its search document and
    its display state, or leaves an existing message untouched and only rewrites
    its display state; it never touches the task ledger.  [mail_ok] is the
    invariant of the mail tables. *)

From S2P Require Import Prelude ErrorCodes Types TaskState Database MailStore.
From stdpp Require Import base gmap strings list numbers sorting pretty.
Local Open Scope Z_scope.
Local Open Scope string_scope.
Local Open Scope list_scope.

(** The unique indexes hold, keys are well formed, and each message has exactly
    one display state and one search document. *)
Definition messages_unique (ms : gmap MailKey MailMessageRow) : Prop :=
  forall k r k' r', ms !! k = Some r -> ms !! k' = Some r' -> ~ message_clash k r k' r'.

Record mail_ok (d : Db) : Prop := mkMailOk {
  mail_unique : messages_unique (mail_messages d);
  mail_keys : forall k r, mail_messages d !! k = Some r -> valid_message_key k.2 = true;
  mail_states : forall k, is_Some (mail_message_states d !! k) <-> is_Some (mail_messages d !! k);
  mail_documents : forall k, is_Some (search_documents d !! k) <-> is_Some (mail_messages d !! k)
}.

(** The tables outside the mail store. *)
Definition ledger_same (d d' : Db) : Prop :=
  tasks d' = tasks d /\ task_events d' = task_events d /\ prompt_handoffs d' = prompt_handoffs d
  /\ escalation_recipients d' = escalation_recipients d /\ team_roster d' = team_roster d
  /\ cron d' = cron d.

#[export] Instance ledger_same_refl : Reflexive ledger_same.
Proof. intros d. by split_and!. Qed.

#[export] Instance ledger_same_trans : Transitive ledger_same.
Proof.
  intros d1 d2 d3 (H1 & H2 & H3 & H4 & H5 & H6) (G1 & G2 & G3 & G4 & G5 & G6).
  split_and!; congruence.
Qed.

(** Messages are kept, with their message ids: only a deletion removes one. *)
Definition mail_grows (d d' : Db) : Prop :=
  forall k r, mail_messages d !! k = Some r ->
    exists r', mail_messages d' !! k = Some r' /\ m_message_id r' = m_message_id r.

#[export] Instance mail_grows_refl : Reflexive mail_grows.
Proof. intros d k r Hr. eauto. Qed.

#[export] Instance mail_grows_trans : Transitive mail_grows.
Proof.
  intros d1 d2 d3 H12 H23 k r Hr. destruct (H12 k r Hr) as (r2 & Hr2 & Hi2).
  destruct (H23 k r2 Hr2) as (r3 & Hr3 & Hi3). exists r3. split; [done|congruence].
Qed.

Lemma mail_grows_same d d' : mail_messages d' = mail_messages d -> mail_grows d d'.
Proof. intros H k r Hr. rewrite H. eauto. Qed.

(** The display-state row an admission writes over [old]. *)
Definition admitted_state (record : Message) (recorded_at : IsoTimestamp)
    (old : option MailStateRow) : MailStateRow :=
  let e := msg_envelope record in
  let nudge :=
    match old with
    | None => (None, 0)
    | Some s =>
      (if env_read e && negb (bool_decide (is_Some (env_pending_ack_at e))
                              && bool_decide (env_acknowledged_at e = None))
       then None else s_nudge_pending_at s, s_nudge_attempts s)
    end in
  {| s_read := env_read e;
     s_pending_ack_at := env_pending_ack_at e;
     s_acknowledged_at := env_acknowledged_at e;
     s_expires_at := env_expires_at e;
     s_deleted_at := None;
     s_updated_at := Some recorded_at;
     s_nudge_pending_at := nudge.1;
     s_nudge_attempts := nudge.2 |}.

(** The immutable row of a message. *)
Definition message_row (record : Message) (class : PlainTemplateClassification)
    (recorded_at : IsoTimestamp) : MailMessageRow :=
  let e := msg_envelope record in
  {| m_envelope_json := storage_envelope_new e;
     m_from_agent := env_from e;
     m_source_chat_id := env_source_chat_id e;
     m_destination_chat_id := env_destination_chat_id e;
     m_message_text := Some (env_text e);
     m_category := class_category class;
     m_content_format := class_content_format class;
     m_tags_json := class_tags class;
     m_summary := env_summary e;
     m_message_at := env_timestamp e;
     m_message_id := env_message_id e;
     m_parent_message_id := env_parent_message_id e;
     m_thread_mode := sqlite_thread_mode (env_thread_mode e);
     m_recorded_at := Some recorded_at |}.

Section Canonical.
Context {rt : Runtime}.

Definition message_document (r : MailMessageRow) : SearchDocument :=
  {| d_message_id := m_message_id r;
     d_message_at := m_message_at r;
     d_body_text := default "" (m_message_text r);
     d_summary := default "" (m_summary r);
     d_tags := join_words (flatten_value number_to_string
                             (Value_Array (Value_String <$> m_tags_json r)));
     d_var_values := "";
     d_from_agent := m_from_agent r |}.

(** The database after a first admission and after a repeated one. *)
Definition message_inserted (record : Message) (r : MailMessageRow) (recorded_at : IsoTimestamp)
    (d : Db) : Db :=
  let k := msg_key record in
  set_mail_message_states
    (<[k := admitted_state record recorded_at (mail_message_states d !! k)]>
       (mail_message_states d))
    (set_search_documents (<[k := message_document r]> (search_documents d))
       (set_mail_messages (<[k := r]> (mail_messages d)) d)).

Definition state_rewritten (record : Message) (recorded_at : IsoTimestamp) (d : Db) : Db :=
  let k := msg_key record in
  set_mail_message_states
    (<[k := admitted_state record recorded_at (mail_message_states d !! k)]>
       (mail_message_states d)) d.

(** What a record must satisfy to be admitted at all. *)
Definition record_valid (record : Message) (class : PlainTemplateClassification) : Prop :=
  envelope_json_len (storage_envelope_new (msg_envelope record)) <= MAX_ENVELOPE_JSON_BYTES
  /\ valid_message_key (msg_message_key record) = true
  /\ message_classification (env_extra (msg_envelope record)) = Ok class.

Inductive canonical_outcome (record : Message) (w : World) : Outcome AtmError bool * World -> Prop :=
| canonical_refused e n :
    canonical_outcome record w (Err e, mkWorld (db w) n)
| canonical_existing class row :
    record_valid record class -> mail_messages (db w) !! msg_key record = Some row ->
    canonical_outcome record w
      (Ok false, mkWorld (state_rewritten record (now_at (ticks w)) (db w)) (S (ticks w)))
| canonical_inserted class :
    record_valid record class -> mail_messages (db w) !! msg_key record = None ->
    (forall k' r', mail_messages (db w) !! k' = Some r' ->
       ~ message_clash (msg_key record) (message_row record class (now_at (ticks w))) k' r') ->
    canonical_outcome record w
      (Ok true, mkWorld (message_inserted record (message_row record class (now_at (ticks w)))
                           (now_at (ticks w)) (db w)) (S (ticks w))).

Lemma message_classification_no_panic extra : message_classification extra <> Panic.
Proof.
  unfold message_classification.
  assert (Hc : forall vs, collect (tag_string <$> vs) <> (Panic : Outcome AtmError _)).
  { induction vs as [|v vs IH]; [done|]. simpl.
    destruct v; simpl; try done. by destruct (collect _). }
  assert (Ho : forall key, optional_string extra key <> Panic).
  { intros key. unfold optional_string. by destruct (object_get key extra) as [[]|]. }
  pose proof (Ho "category") as H1. pose proof (Ho "content_format") as H2.
  destruct (object_get "tags" extra) as [[]|]; simpl; try done.
  - pose proof (Hc items). destruct (collect _); simpl; try done.
    destruct (optional_string extra "category"); simpl; try done.
    by destruct (optional_string extra "content_format").
  - destruct (optional_string extra "category"); simpl; try done.
    by destruct (optional_string extra "content_format").
Qed.

Lemma insert_message_canonical_run record w :
  canonical_outcome record w (insert_message_canonical record w).
Proof.
  unfold insert_message_canonical, prepare_message_insert_values, validate_message_record.
  case_bool_decide as Hlen.
  { erewrite run_bind_err; [|by apply run_bind_err]. destruct w. constructor. }
  destruct (valid_message_key (msg_message_key record)) eqn:Hkey.
  2:{ erewrite run_bind_err; [|by apply run_bind_err]. destruct w. constructor. }
  destruct (message_classification (env_extra (msg_envelope record))) as [class|e|] eqn:Hcl.
  2:{ erewrite run_bind_err; [|].
      2:{ erewrite run_bind by done. by apply run_bind_err. }
      destruct w. constructor. }
  2:{ by apply message_classification_no_panic in Hcl. }
  erewrite run_bind.
  2:{ erewrite run_bind by done. erewrite run_bind by done. erewrite run_bind by done. done. }
  cbv beta. simpl fst. simpl snd. fold (message_row record class (now_at (ticks w))).
  assert (Hv : record_valid record class) by (split_and!; [lia|done|done]).
  unfold insert_message_row. destruct (mail_messages (db w) !! msg_key record) as [row|] eqn:Hk.
  - erewrite run_bind.
    2:{ run run_get_db. simpl. rewrite Hk. done. }
    cbv beta iota. erewrite run_bind by done. cbv beta.
    exact (canonical_existing record w class row Hv Hk).
  - destruct (message_index_ok (mail_messages (db w)) (msg_key record)
                (message_row record class (now_at (ticks w)))) eqn:Hix.
    + erewrite run_bind.
      2:{ run run_get_db. simpl. rewrite Hk, Hix. erewrite run_bind by done. done. }
      cbv beta iota. unfold message_index_ok in Hix. apply bool_decide_eq_true_1 in Hix.
      apply (canonical_inserted record w class Hv Hk). exact Hix.
    + erewrite run_bind_err.
      2:{ run run_get_db. simpl. rewrite Hk, Hix. done. }
      apply canonical_refused.
Qed.

Lemma message_inserted_mail_ok record class at_ d :
  mail_ok d -> record_valid record class -> mail_messages d !! msg_key record = None ->
  (forall k' r', mail_messages d !! k' = Some r' ->
     ~ message_clash (msg_key record) (message_row record class at_) k' r') ->
  mail_ok (message_inserted record (message_row record class at_) at_ d).
Proof.
  intros [Hu Hk Hs Hd] (_ & Hkey & _) Hn Hnc.
  assert (Hsym : forall k r k' r', message_clash k r k' r' -> message_clash k' r' k r).
  { intros k r k' r' (Hne & Ht & Hc). split_and!; [done..|].
    destruct Hc as [[Hs1 He]|[Hs1 He]]; [left|right]; (split; [by rewrite <- He|done]). }
  constructor; simpl.
  - intros k1 r1 k2 r2 H1 H2 Hc.
    apply lookup_insert_Some in H1 as [[<- <-]|[Hne1 H1]], H2 as [[<- <-]|[Hne2 H2]].
    + by destruct Hc.
    + exact (Hnc _ _ H2 Hc).
    + exact (Hnc _ _ H1 (Hsym _ _ _ _ Hc)).
    + exact (Hu _ _ _ _ H1 H2 Hc).
  - intros k r [[<- <-]|[Hne Hr]]%lookup_insert_Some; [done|by eapply Hk].
  - intros k. rewrite !lookup_insert_is_Some. specialize (Hs k). naive_solver.
  - intros k. rewrite !lookup_insert_is_Some. specialize (Hd k). naive_solver.
Qed.

Lemma state_rewritten_mail_ok record row at_ d :
  mail_ok d -> mail_messages d !! msg_key record = Some row ->
  mail_ok (state_rewritten record at_ d).
Proof.
  intros [Hu Hk Hs Hd] Hr. constructor; simpl; [done..| |done].
  intros k. rewrite lookup_insert_is_Some. specialize (Hs k).
  destruct (decide (msg_key record = k)) as [<-|]; [|naive_solver].
  rewrite Hr. split; [by eexists|by left].
Qed.

(** Whatever its outcome, a canonical insert leaves the ledger alone and keeps
    the mail invariant. *)
Lemma insert_message_canonical_frame record w o w' :
  insert_message_canonical record w = (o, w') ->
  o <> Panic /\ ledger_same (db w) (db w') /\ (mail_ok (db w) -> mail_ok (db w'))
  /\ mail_grows (db w) (db w').
Proof.
  intros Hrun. pose proof (insert_message_canonical_run record w) as Hc. rewrite Hrun in Hc.
  inversion Hc; subst; simpl; (split_and!; [done|done| |]).
  - done.
  - done.
  - intros Hok. by eapply state_rewritten_mail_ok.
  - by apply mail_grows_same.
  - intros Hok. by eapply message_inserted_mail_ok.
  - intros k r Hr. exists r. split; [|done]. simpl. rewrite lookup_insert_ne; [done|congruence].
Qed.
End Canonical.
