(* ===== verification/TaskOps.v ===== *)
(** * Task operations of the writer lane

    Models [crates/atm-storage-rusqlite/src/writer/task_ops.rs] (assignment,
    move, message dispatch), [writer/task_start.rs], [writer/task_close.rs],
    [writer/task_assignment_refresh.rs] and [writer/task_reassign_notice.rs].

    Closing a task acknowledges its assignment message through the canonical
    message admission, which itself applies task messages.  That mutual
    recursion is open here: the operations take the admission as the argument
    [upsert]; [Admission.v] ties the knot. *)

From S2P Require Import Prelude ErrorCodes Types TaskState Database TaskCodec TaskQueue MailStore.
From stdpp Require Import base gmap strings list numbers sorting pretty.
Local Open Scope Z_scope.
Local Open Scope string_scope.
Local Open Scope list_scope.

(** ** Results *)

Inductive TaskMessageResult : Set :=
| Applied (already_closed : option TaskCloseOutcome) (task_assignee : option AgentName)
    (queued_position : option Z) (reassign_notice : option Message)
    (task_events : list TaskEventRow)
| RejectedReportDelivered (error : AtmError) (event : TaskEventRow).

Record TaskAssignmentApplied : Set := mkTaskAssignmentApplied {
  ta_queued_position : Z;
  ta_reassign_notice : option Message;
  ta_task_events : list TaskEventRow
}.

(** [TaskMoveRecord] of [atm-storage/src/task_store.rs]. *)
Record TaskMoveRecord : Set := mkTaskMoveRecord {
  mv_assignee : AgentName;
  mv_from : QueuePosition;
  mv_to : QueuePosition;
  mv_event : TaskEventRow
}.

(** The fields of [WriteOpResult::UpsertMessage]. *)
Record UpsertResult : Set := mkUpsertResult {
  up_inserted : bool;
  up_existing : option Message;
  up_already_closed : option TaskCloseOutcome;
  up_task_assignee : option AgentName;
  up_queued_position : option Z;
  up_reassign_notice : option Message;
  up_task_rejection : option AtmError;
  up_task_events : list TaskEventRow
}.

Definition nothing_applied : TaskMessageResult := Applied None None None None [].

(** ** Row updates of the statements *)

(** [refresh_same_assignment]: [SET assignment_message_id, description, updated_at]. *)
Definition refresh_row (message_id : AtmMessageId) (text : string) (at_ : IsoTimestamp)
    (r : TaskSqlRow) : TaskSqlRow :=
  mkTaskSqlRow (t_assignee r) (t_assigner r) (t_state r) (t_close_outcome r) (t_position r)
    message_id text (t_assigned_at r) at_ (t_last_reminded_at r) (t_reminder_count r)
    (t_lead_notified_count r).

(** The row written by [apply_task_assignment_row], on insert and on update. *)
Definition assigned_row (record : Message) (temporary : Z) (message_id : AtmMessageId)
    (at_ : IsoTimestamp) (next_state : TaskState) : TaskSqlRow :=
  {| t_assignee := msg_agent record;
     t_assigner := env_from (msg_envelope record);
     t_state := TaskState_as_str next_state;
     t_close_outcome := None;
     t_position := Some temporary;
     t_assignment_message_id := message_id;
     t_description := env_text (msg_envelope record);
     t_assigned_at := at_;
     t_updated_at := at_;
     t_last_reminded_at := None;
     t_reminder_count := 0;
     t_lead_notified_count := 0 |}.

(** [apply_task_start]: [SET state, lead_notified_count=0, updated_at]. *)
Definition started_row (next_state : TaskState) (at_ : IsoTimestamp) (r : TaskSqlRow)
    : TaskSqlRow :=
  mkTaskSqlRow (t_assignee r) (t_assigner r) (TaskState_as_str next_state) (t_close_outcome r)
    (t_position r) (t_assignment_message_id r) (t_description r) (t_assigned_at r) at_
    (t_last_reminded_at r) (t_reminder_count r) 0.

(** [persist_task_close]: [SET state, close_outcome, position=NULL, updated_at]. *)
Definition closed_row (next_state : TaskState) (outcome : TaskCloseOutcome) (at_ : IsoTimestamp)
    (r : TaskSqlRow) : TaskSqlRow :=
  mkTaskSqlRow (t_assignee r) (t_assigner r) (TaskState_as_str next_state)
    (Some (TaskCloseOutcome_as_str outcome)) None (t_assignment_message_id r) (t_description r)
    (t_assigned_at r) at_ (t_last_reminded_at r) (t_reminder_count r) (t_lead_notified_count r).

Definition close_event_kind (outcome : TaskCloseOutcome) : TaskEventKind :=
  match outcome with
  | TaskCloseOutcome_Completed => TaskEventKind_Completed
  | TaskCloseOutcome_Refused => TaskEventKind_Refused
  | TaskCloseOutcome_Cancelled => TaskEventKind_Cancelled
  end.

(** [.map_err(|error| error.into_atm_error())] on a transition. *)
Definition rejected {A} (o : Outcome TaskRejected A) : Outcome AtmError A :=
  match o with
  | Ok a => Ok a
  | Err e => Err (into_atm_error e)
  | Panic => Panic
  end.

(** [order.iter().position(..).and_then(|index| u32::try_from(index + 1).ok())]. *)
Definition position_u32 (task_id : TaskId) (order : list TaskId) : option Z :=
  index ← position_of task_id order; u32_try_from (Z.of_nat index + 1).

Section TaskOps.
Context {rt : Runtime}.

(** *** Move *)

Definition moved_draft (team : TeamName) (task_id : TaskId) (assignee actor : AgentName)
    (at_ : IsoTimestamp) (from to : TaskStateTag) (message_id : option AtmMessageId)
    (detail : string) : TaskEventDraft :=
  {| draft_team := team;
     draft_task_id := task_id;
     draft_assignee := assignee;
     draft_at := at_;
     draft_event := TaskEventKind_Moved;
     draft_from_state := Some from;
     draft_to_state := Some to;
     draft_close_outcome := None;
     draft_actor := actor;
     draft_message_id := message_id;
     draft_outcome := None;
     draft_marker := None;
     draft_detail := Some detail |}.

Definition append_active_task_move (team : TeamName) (task_id : TaskId) (actor : AgentName)
    (at_ : IsoTimestamp) (row : TaskRow) (next_state : TaskState) (position : QueuePosition)
    : M TaskEventRow :=
  append_task_event
    (moved_draft team task_id (row_assignee row) actor at_ (tag (row_state row)) (tag next_state)
       None (pretty position +:+ "→" +:+ pretty position)).

Definition apply_queued_task_move (team : TeamName) (task_id : TaskId) (actor : AgentName)
    (target_pos : MoveTarget) (at_ : IsoTimestamp) (row : TaskRow) (next_state : TaskState)
    : M TaskMoveRecord :=
  from ← ok_or (task_move_invalid "open task has no queue position") (row_position row);
  order ← queue_order team (row_assignee row);
  order ← insert_at_placement (retain_ne task_id order) task_id target_pos team (row_assignee row);
  _ ← renumber_queue team (row_assignee row) order;
  to ← queue_position_of order task_id;
  event ← append_task_event
    (moved_draft team task_id (row_assignee row) actor at_ (tag (row_state row)) (tag next_state)
       None (pretty from +:+ "→" +:+ pretty to));
  mret (mkTaskMoveRecord (row_assignee row) from to event).

Definition apply_task_move (team : TeamName) (task_id : TaskId) (actor : AgentName)
    (target_pos : MoveTarget) (at_ : IsoTimestamp) : M TaskMoveRecord :=
  row ← load_task_row team task_id;
  match row with
  | None => fail (task_not_found (no_open_task task_id actor))
  | Some row =>
    if negb (is_open (row_state row))
    then fail (task_already_closed (no_open_task task_id actor))
    else
      next_state ← lift (rejected (transition (Some (row_state row)) TaskEvent_Assigned task_id
                                     actor (Some (row_assignee row)) (row_assignee row)));
      if bool_decide (row_state row = TaskState_Active)
      then
        order ← queue_order team (row_assignee row);
        position ← queue_position_of order task_id;
        event ← append_active_task_move team task_id actor at_ row next_state position;
        mret (mkTaskMoveRecord (row_assignee row) position position event)
      else apply_queued_task_move team task_id actor target_pos at_ row next_state
  end.

(** *** Start *)

Definition invalid_max_tasks (record : Message) (assignee : AgentName) : AtmError :=
  validation_with_recovery
    (assignee +:+ " in team " +:+ msg_team record +:+ " has an invalid " +:+ MAX_TASKS_METADATA_KEY
     +:+ ": it must be an integer of at least 1")
    ("set it with `atm teams update-member " +:+ msg_team record +:+ " " +:+ assignee
     +:+ " --max-tasks <N>`").

Definition member_max_tasks (record : Message) (assignee : AgentName) : M Z :=
  d ← get_db;
  stored_value ←
    match team_roster d !! (msg_team record, assignee) with
    | None => mret None
    | Some stored => Some <$> ok_or (invalid_max_tasks record assignee)
                               (json_from_str (r_metadata_json stored))
    end;
  ok_or (invalid_max_tasks record assignee)
    (max_tasks_from_metadata_value
       (stored_value ≫= fun metadata => value_get metadata MAX_TASKS_METADATA_KEY)).

(** The rows of [team, assignee, state='active', task_id<>?3]. *)
Definition other_active (team : TeamName) (assignee : AgentName) (task_id : TaskId)
    (k : TaskKey) (r : TaskSqlRow) : Prop :=
  k.1 = team /\ t_assignee r = assignee /\ t_state r = "active" /\ k.2 <> task_id.

#[export] Instance other_active_dec team assignee task_id k r :
  Decision (other_active team assignee task_id k r).
Proof. unfold other_active. apply _. Defined.

Definition count_active (team : TeamName) (assignee : AgentName) (task_id : TaskId)
    (ts : gmap TaskKey TaskSqlRow) : nat :=
  length (select_keys (other_active team assignee task_id) ts).

Definition reject_over_max_tasks (record : Message) (task_id : TaskId) (row : TaskRow) : M Z :=
  d ← get_db;
  let count := Z.of_nat (count_active (msg_team record) (row_assignee row) task_id (tasks d)) in
  let active := default u32_max (u32_try_from count) in
  max ← member_max_tasks record (row_assignee row);
  if bool_decide (max <= active)
  then fail (task_max_active_reached
         ("task " +:+ task_id +:+ ": " +:+ row_assignee row +:+ " already has " +:+ pretty active
          +:+ " active task(s); max_tasks is " +:+ pretty max)
         ("Complete or cancel an active task, or raise the limit with `atm teams update-member "
          +:+ msg_team record +:+ " " +:+ row_assignee row +:+ " --max-tasks <N>`."))
  else mret active.

Definition load_startable_task (record : Message) (task_id : TaskId) : M TaskRow :=
  let from := env_from (msg_envelope record) in
  row ← load_task_row (msg_team record) task_id;
  match row with
  | None => fail (task_not_found (no_open_task task_id from))
  | Some row =>
    if negb (is_open (row_state row))
    then fail (task_already_closed (no_open_task task_id from))
    else if bool_decide (from <> row_assignee row)
    then fail (task_not_counterparty ("task " +:+ task_id +:+ " is not assigned to " +:+ from))
    else mret row
  end.

Definition apply_task_start (record : Message) (task_id : TaskId)
    : M (AgentName * TaskEventRow) :=
  let e := msg_envelope record in
  row ← load_startable_task record task_id;
  if bool_decide (row_state row = TaskState_Active)
  then fail (task_already_active ("task " +:+ task_id +:+ " is already active"))
  else
    next_state ← lift (rejected (transition (Some (row_state row)) TaskEvent_Started task_id
                                   (env_from e) (Some (row_assignee row)) (row_assignee row)));
    other_active ← reject_over_max_tasks record task_id row;
    order ← queue_order (msg_team record) (row_assignee row);
    order ← match vec_insert (Z.to_nat other_active) task_id (retain_ne task_id order) with
            | Some order => mret order
            | None => st_panic
            end;
    _ ← update_task "failed to start task" (msg_team record, task_id)
                    (started_row next_state (env_timestamp e));
    _ ← renumber_queue (msg_team record) (row_assignee row) order;
    event ← append_task_event
      {| draft_team := msg_team record;
         draft_task_id := task_id;
         draft_assignee := row_assignee row;
         draft_at := env_timestamp e;
         draft_event := TaskEventKind_Started;
         draft_from_state := Some (tag (row_state row));
         draft_to_state := Some (tag next_state);
         draft_close_outcome := None;
         draft_actor := env_from e;
         draft_message_id := env_message_id e;
         draft_outcome := None;
         draft_marker := None;
         draft_detail := None |};
    mret (row_assignee row, event).

(** *** Assignment *)

(** [refresh_same_assignment]: the kept position, when the task is already open
    for this assignee. *)
Definition refresh_same_assignment (record : Message) (task_id : TaskId) (row : option TaskRow)
    (message_id : AtmMessageId) : M (option Z) :=
  match row with
  | Some row =>
    if is_open (row_state row) && bool_decide (row_assignee row = msg_agent record)
    then
      _ ← update_task "failed to refresh task assignment" (msg_team record, task_id)
            (refresh_row message_id (env_text (msg_envelope record))
               (env_timestamp (msg_envelope record)));
      mret (Some (default 1 (row_position row)))
    else mret None
  | None => mret None
  end.

Definition release_previous_assignment (record : Message) (task_id : TaskId)
    (row : option TaskRow) : M unit :=
  match row with
  | Some row =>
    if is_open (row_state row)
    then
      order ← queue_order (msg_team record) (row_assignee row);
      let old_order := retain_ne task_id order in
      _ ← update_tasks "failed to release old task position"
            (open_of (msg_team record) (row_assignee row))
            (shift_position (Z.of_nat (length old_order) + 1));
      write_queue_positions (msg_team record) old_order
    else mret tt
  | None => mret tt
  end.

Definition apply_task_assignment_row (record : Message) (task_id : TaskId)
    (row : option TaskRow) (temporary : Z) (message_id : AtmMessageId) (at_ : IsoTimestamp)
    (next_state : TaskState) : M unit :=
  let new := assigned_row record temporary message_id at_ next_state in
  match row with
  | Some _ => update_task "failed to reassign task" (msg_team record, task_id) (fun _ => new)
  | None => insert_task "failed to insert task assignment" (msg_team record, task_id) new
  end.

Definition renumber_previous_assignment (record : Message) (row : option TaskRow) : M unit :=
  match row with
  | Some old =>
    if is_open (row_state old)
    then
      old_order ← queue_order (msg_team record) (row_assignee old);
      renumber_queue (msg_team record) (row_assignee old) old_order
    else mret tt
  | None => mret tt
  end.

Definition append_assignment_event (record : Message) (task_id : TaskId) (row : option TaskRow)
    (was_closed : bool) (message_id : AtmMessageId) (at_ : IsoTimestamp) (next_state : TaskState)
    : M TaskEventRow :=
  append_task_event
    {| draft_team := msg_team record;
       draft_task_id := task_id;
       draft_assignee := msg_agent record;
       draft_at := at_;
       draft_event :=
         if was_closed then TaskEventKind_Reopened
         else if bool_decide (is_Some row) then TaskEventKind_Reassigned
         else TaskEventKind_Assigned;
       draft_from_state := (fun r => tag (row_state r)) <$> row;
       draft_to_state := Some (tag next_state);
       draft_close_outcome := row ≫= fun r => close_outcome (row_state r);
       draft_actor := env_from (msg_envelope record);
       draft_message_id := Some message_id;
       draft_outcome := None;
       draft_marker := None;
       draft_detail := None |}.

Definition persist_task_assignment (record : Message) (task_id : TaskId)
    (placement : option MoveTarget) (row : option TaskRow) (message_id : AtmMessageId)
    (at_ : IsoTimestamp) (next_state : TaskState) : M (list TaskId * list TaskEventRow) :=
  let was_closed :=
    match row with Some r => negb (is_open (row_state r)) | None => false end in
  _ ← release_previous_assignment record task_id row;
  order ← queue_order (msg_team record) (msg_agent record);
  order ← insert_at_placement (retain_ne task_id order) task_id
            (default MoveTarget_End placement) (msg_team record) (msg_agent record);
  temporary ← ok_or (task_move_invalid "task queue too large")
                (u32_try_from (Z.of_nat (length order)));
  _ ← apply_task_assignment_row record task_id row temporary message_id at_ next_state;
  _ ← renumber_previous_assignment record row;
  _ ← renumber_queue (msg_team record) (msg_agent record) order;
  final_position ← ok_or (task_move_invalid "assigned task is absent from its normalized queue")
                     (position_u32 task_id order);
  event ← append_assignment_event record task_id row was_closed message_id at_ next_state;
  moved ←
    match placement with
    | None => mret None
    | Some _ =>
      Some <$> append_task_event
        (moved_draft (msg_team record) task_id (msg_agent record)
           (env_from (msg_envelope record)) at_ (tag next_state) (tag next_state)
           (Some message_id)
           (pretty (default 0 (row ≫= row_position)) +:+ "→" +:+ pretty final_position))
    end;
  mret (order, event :: option_list moved).

(** The informational message to the former assignee. *)
Definition reassign_notice (record : Message) (task_id : TaskId) (old_assignee : AgentName)
    (message_id : AtmMessageId) (timestamp : IsoTimestamp) : Message :=
  let e := msg_envelope record in
  {| msg_team := msg_team record;
     msg_agent := old_assignee;
     msg_message_key := "atm:" +:+ ulid_to_string message_id;
     msg_envelope :=
       {| env_from := env_from e;
          env_source_chat_id := env_source_chat_id e;
          env_text := "task " +:+ task_id +:+ " was reassigned to " +:+ msg_agent record;
          env_timestamp := timestamp;
          env_read := false;
          env_source_team := env_source_team e;
          env_destination_chat_id := None;
          env_summary := Some ("task_closed:" +:+ task_id);
          env_message_id := Some message_id;
          env_requires_ack := false;
          env_pending_ack_at := None;
          env_acknowledged_at := None;
          env_acknowledges_message_id := None;
          env_parent_message_id := None;
          env_thread_mode := None;
          env_expires_at := None;
          env_task_id := Some task_id;
          env_placement := None;
          env_task_op := None;
          env_task_complete := None;
          env_extra := [] |} |}.

Definition insert_reassign_notice (record : Message) (task_id : TaskId)
    (old_assignee : AgentName) : M Message :=
  fresh ← new_message_id_with_timestamp;
  let notice := reassign_notice record task_id old_assignee fresh.1 fresh.2 in
  inserted ← insert_message_canonical notice;
  if (inserted : bool) then mret notice
  else fail (mailbox_write "fresh task reassignment notice collided with an existing message key").

Definition apply_task_assignment (record : Message) (task_id : TaskId)
    (placement : option MoveTarget) : M TaskAssignmentApplied :=
  let e := msg_envelope record in
  row ← load_task_row (msg_team record) task_id;
  next_state ← lift (rejected (transition (row_state <$> row) TaskEvent_Assigned task_id
                                 (env_from e) (row_assignee <$> row) (msg_agent record)));
  message_id ← ok_or (task_move_invalid "task assignment is missing message id")
                 (env_message_id e);
  refreshed ← refresh_same_assignment record task_id row message_id;
  match refreshed with
  | Some queued_position => mret (mkTaskAssignmentApplied queued_position None [])
  | None =>
    let previous_assignee :=
      match row with
      | Some r => if is_open (row_state r) && bool_decide (row_assignee r <> msg_agent record)
                  then Some (row_assignee r) else None
      | None => None
      end in
    persisted ← persist_task_assignment record task_id placement row message_id
                  (env_timestamp e) next_state;
    queued_position ←
      ok_or (task_move_invalid "assigned task is absent from its normalized queue")
        (position_u32 task_id persisted.1);
    notice ←
      match previous_assignee with
      | None => mret None
      | Some old_assignee => Some <$> insert_reassign_notice record task_id old_assignee
      end;
    mret (mkTaskAssignmentApplied queued_position notice persisted.2)
  end.

Definition is_existing_task_report (record : Message) (task_id : TaskId) : M bool :=
  let from := env_from (msg_envelope record) in
  row ← load_task_row (msg_team record) task_id;
  match row with
  | None => mret false
  | Some row =>
    if bool_decide (from = row_assigner row) then mret false
    else if bool_decide (msg_agent record = row_assigner row) then mret true
    else fail (task_not_counterparty
           ("task " +:+ task_id +:+ " was assigned by " +:+ row_assigner row +:+ "; caller "
            +:+ from +:+ " cannot reassign it"))
  end.

(** *** Close *)

Section Close.
Variable upsert : Message -> MessageWriteOrigin -> M UpsertResult.

(** The key of the assignee's copy of a message id. *)
Definition find_message_key (team : TeamName) (agent : AgentName) (id : AtmMessageId)
    (ms : gmap MailKey MailMessageRow) : option MessageKey :=
  (fun kr => kr.1.2) <$>
    head (map_to_list (filter (fun kr => kr.1.1 = (team, agent)
                                         /\ m_message_id kr.2 = Some id) ms)).

Definition acknowledge_assignment (record : Message) (row : TaskRow) : M unit :=
  d ← get_db;
  match find_message_key (msg_team record) (row_assignee row)
          (row_assignment_message_id row) (mail_messages d) with
  | None => mret tt
  | Some message_key =>
    assignment ← load_existing_message
      (mkMessage (msg_team record) (row_assignee row) message_key (msg_envelope record));
    if bool_decide (env_acknowledged_at (msg_envelope assignment) = None)
    then
      _ ← upsert (mark_source_acknowledged assignment (env_timestamp (msg_envelope record)))
            Origin_Local;
      mret tt
    else mret tt
  end.

Definition persist_task_close (record : Message) (task_id : TaskId)
    (outcome : TaskCloseOutcome) (reason : option string) (row : TaskRow)
    (next_state : TaskState) : M TaskEventRow :=
  let e := msg_envelope record in
  _ ← acknowledge_assignment record row;
  _ ← update_task "failed to close task" (msg_team record, task_id)
        (closed_row next_state outcome (env_timestamp e));
  order ← queue_order (msg_team record) (row_assignee row);
  _ ← renumber_queue (msg_team record) (row_assignee row) order;
  append_task_event
    {| draft_team := msg_team record;
       draft_task_id := task_id;
       draft_assignee := row_assignee row;
       draft_at := env_timestamp e;
       draft_event := close_event_kind outcome;
       draft_from_state := Some (tag (row_state row));
       draft_to_state := Some (tag next_state);
       draft_close_outcome := Some outcome;
       draft_actor := env_from e;
       draft_message_id := env_message_id e;
       draft_outcome := None;
       draft_marker := None;
       draft_detail := reason |}.

Definition deliver_rejected_close_report (record : Message) (task_id : TaskId)
    (row : TaskRow) (error : AtmError) : M TaskMessageResult :=
  let e := msg_envelope record in
  _ ← drop_task_link_from_mail record;
  at_ ← now;
  event ← append_task_event
    {| draft_team := msg_team record;
       draft_task_id := task_id;
       draft_assignee := row_assignee row;
       draft_at := at_;
       draft_event := TaskEventKind_Rejected;
       draft_from_state := Some (tag (row_state row));
       draft_to_state := Some (tag (row_state row));
       draft_close_outcome := close_outcome (row_state row);
       draft_actor := env_from e;
       draft_message_id := env_message_id e;
       draft_outcome := None;
       draft_marker := None;
       draft_detail := Some (code_display (code error) +:+ ": " +:+ message error) |};
  mret (RejectedReportDelivered
          (atm_error_new (code error) (detail error +:+ "; report delivered")) event).

Definition apply_task_close (record : Message) (task_id : TaskId)
    (outcome : TaskCloseOutcome) (reason : option string) : M TaskMessageResult :=
  let from := env_from (msg_envelope record) in
  row ← load_task_row (msg_team record) task_id;
  match row with
  | None => fail (task_not_found (no_open_task task_id from))
  | Some row =>
    match row_state row with
    | TaskState_Complete already =>
      _ ← drop_task_link_from_mail record;
      mret (Applied (Some already) None None None [])
    | _ =>
      match rejected (admit_task (Some row) (TaskEvent_Completed outcome) task_id from) with
      | Err error => deliver_rejected_close_report record task_id row error
      | Panic => st_panic
      | Ok _ =>
        next_state ← lift (rejected (transition (Some (row_state row))
          (TaskEvent_Completed outcome) task_id from (Some (row_assignee row))
          (row_assignee row)));
        let expected :=
          if bool_decide (from = row_assignee row) then row_assigner row else row_assignee row in
        if bool_decide (msg_agent record <> expected)
        then deliver_rejected_close_report record task_id row
               (task_stale_counterparty
                  ("task " +:+ task_id +:+ ": " +:+ msg_agent record
                   +:+ " is no longer the counterparty — re-run the command"))
        else
          event ← persist_task_close record task_id outcome reason row next_state;
          mret (Applied None (Some (row_assignee row)) None None [event])
      end
    end
  end.

(** *** Dispatch *)

Definition apply_task_message (record : Message) : M TaskMessageResult :=
  let e := msg_envelope record in
  match env_task_id e with
  | None => mret nothing_applied
  | Some task_id =>
    match env_task_op e with
    | None =>
      report ← is_existing_task_report record task_id;
      if (report : bool) then mret nothing_applied
      else
        applied ← apply_task_assignment record task_id (env_placement e);
        mret (Applied None None (Some (ta_queued_position applied))
                (ta_reassign_notice applied) (ta_task_events applied))
    | Some TaskOp_Start =>
      started ← apply_task_start record task_id;
      mret (Applied None (Some started.1) None None [started.2])
    | Some (TaskOp_Close outcome reason) => apply_task_close record task_id outcome reason
    end
  end.
End Close.
End TaskOps.
