(* ===== verification/PlacementSpec.v ===== *)
(** * Placement in a queue

    [insert_at_placement] puts a task into the waiting block of a member's
    queue: at its end, at its head (after every active task), or before another
    waiting task; a target outside the block is refused. *)

From S2P Require Import Prelude ErrorCodes Types TaskState Database TaskCodec TaskQueue QueueFacts.
From S2P Require Import LedgerInv.
From stdpp Require Import base gmap strings list numbers sorting pretty.
Local Open Scope Z_scope.
Local Open Scope string_scope.
Local Open Scope list_scope.

(** The waiting block after the placement. *)
Definition place (placement : MoveTarget) (id : TaskId) (waiting : list TaskId)
    : option (list TaskId) :=
  match placement with
  | MoveTarget_End => Some (waiting ++ [id])
  | MoveTarget_Head => Some (id :: waiting)
  | MoveTarget_Before other =>
    (fun j => take j waiting ++ id :: drop j waiting) <$> position_of other waiting
  end.

Lemma place_inv placement id waiting waiting' :
  place placement id waiting = Some waiting' ->
  exists l1 l2, waiting = l1 ++ l2 /\ waiting' = l1 ++ id :: l2.
Proof.
  destruct placement as [| |other]; simpl.
  - intros [= <-]. by exists [], waiting.
  - intros [= <-]. exists waiting, []. by rewrite app_nil_r.
  - intros (j & _ & ->)%fmap_Some. exists (take j waiting), (drop j waiting). by rewrite take_drop.
Qed.

Lemma place_perm placement id waiting waiting' :
  place placement id waiting = Some waiting' -> waiting' ≡ₚ id :: waiting.
Proof. intros (l1 & l2 & -> & ->)%place_inv. symmetry. apply Permutation_middle. Qed.

Lemma take_while_count_app {A} (p : A -> bool) l1 l2 :
  Forall (fun a => p a = true) l1 -> (forall a, head l2 = Some a -> p a = false) ->
  take_while_count p (l1 ++ l2) = length l1.
Proof.
  intros H1 H2. induction H1 as [|a l1 Ha _ IH]; simpl.
  - destruct l2 as [|b l2]; [done|]. simpl. by rewrite (H2 b).
  - by rewrite Ha, IH.
Qed.

Lemma queue_rows_app ts team l1 l2 :
  queue_rows ts team (l1 ++ l2) = queue_rows ts team l1 ++ queue_rows ts team l2.
Proof. apply omap_app. Qed.

Lemma queue_rows_states ts team s l :
  Forall (state_at ts team s) l ->
  Forall (fun kr => t_state kr.2 = s) (queue_rows ts team l)
  /\ (fun kr => kr.1.2) <$> queue_rows ts team l = l.
Proof.
  unfold queue_rows. induction 1 as [|id l (r & Hr & Hs) _ [IH1 IH2]]; [done|].
  simpl. rewrite Hr. simpl. split; [by constructor|]. f_equal. exact IH2.
Qed.

Lemma filter_rows_notin {A} (f : A -> TaskId) id (l : list A) :
  id ∉ f <$> l -> filter (fun a => f a <> id) l = l.
Proof.
  induction l as [|a l IH]; intros Hn; [done|].
  rewrite filter_cons_True by set_solver. f_equal. apply IH. set_solver.
Qed.

(** The leading active rows, seen from the placed task. *)
Lemma leading_active ts team agent qa qw id :
  member_queue ts team agent qa qw -> id ∉ qa ->
  take_while_count (fun s => String.eqb s (TaskState_as_str TaskState_Active))
    ((fun kr => t_state kr.2) <$>
       filter (fun kr : TaskKey * TaskSqlRow => kr.1.2 <> id) (open_rows team agent ts)) = length qa.
Proof.
  intros [Hq [Ha Hw]] Hid. rewrite (open_rows_queue _ _ _ _ Hq), queue_rows_app.
  destruct (queue_rows_states _ _ _ _ Ha) as [Hsa Hida].
  destruct (queue_rows_states _ _ _ _ Hw) as [Hsw _].
  rewrite filter_app, fmap_app.
  rewrite (filter_rows_notin (fun kr => kr.1.2) id (queue_rows ts team qa)) by (by rewrite Hida).
  rewrite take_while_count_app.
  - rewrite length_fmap. transitivity (length ((fun kr => kr.1.2) <$> queue_rows ts team qa));
      [by rewrite length_fmap|by rewrite Hida].
  - apply Forall_fmap. eapply Forall_impl; [exact Hsa|]. intros kr Hs. simpl. by rewrite Hs.
  - intros s Hs. rewrite head_lookup in Hs. apply list_lookup_fmap_Some in Hs as (kr & -> & Hkr).
    apply list_elem_of_lookup_2, list_elem_of_filter in Hkr as [_ Hkr].
    rewrite Forall_forall in Hsw. by rewrite (Hsw _ Hkr).
Qed.

Section Placement.
Context {rt : Runtime}.

(** Whether a placement target is a waiting task of the member. *)
Lemma before_target_run team agent other qa qw w :
  readable (tasks (db w)) ->
  member_queue (tasks (db w)) team agent qa qw ->
  exists row, load_task_row team other w = (Ok row, w)
    /\ match row with
       | Some r => bool_decide (row_assignee r = agent)
                   && bool_decide (row_state r = TaskState_Assigned)
       | None => false
       end = bool_decide (other ∈ qw).
Proof.
  intros Hl Hm. destruct (tasks (db w) !! (team, other)) as [r|] eqn:Hr.
  - destruct (load_task_row_some team other r w Hl Hr) as (row & Hload & Hv).
    exists (Some row). split; [done|]. rewrite <- bool_decide_and. apply bool_decide_ext.
    rewrite (view_assignee _ _ _ Hv). pose proof (view_state _ _ _ Hv) as Hs. split.
    + intros [Ha Hst]. rewrite Hst in Hs. simpl in Hs.
      apply (member_queue_mem _ _ _ _ _ other r Hm Hr); [|done].
      split_and!; [done..|by rewrite Hs].
    + intros Hin. destruct (member_queue_open _ _ _ _ _ other Hm) as (r' & Hr' & Ho); [set_solver|].
      assert (r' = r) as -> by congruence.
      apply (member_queue_mem _ _ _ _ _ other r Hm Hr Ho) in Hin.
      rewrite Hin in Hs. destruct Ho as (_ & Ho & _). split; [done|]. by destruct (row_state row).
  - exists None. split; [by apply load_task_row_none|]. symmetry. apply bool_decide_eq_false_2.
    intros Hin. destruct (member_queue_open _ _ _ _ _ other Hm) as (r' & Hr' & _); [set_solver|].
    congruence.
Qed.

Lemma insert_at_placement_run placement id team agent qa qw w :
  readable (tasks (db w)) ->
  member_queue (tasks (db w)) team agent qa qw -> id ∉ qa ->
  insert_at_placement (retain_ne id (qa ++ qw)) id placement team agent w
  = (match place placement id (retain_ne id qw), placement with
     | Some qw', _ => Ok (qa ++ qw')
     | None, MoveTarget_Before other => Err (placement_error id other agent)
     | None, _ => Panic
     end, w).
Proof.
  intros Hl Hm Hid. rewrite retain_ne_app, (retain_ne_notin id qa) by done.
  set (qw0 := retain_ne id qw). unfold insert_at_placement.
  destruct placement as [| |other]; simpl place.
  - erewrite run_bind by (run run_get_db; reflexivity). cbv beta.
    rewrite (leading_active _ _ _ _ _ _ Hm Hid).
    by rewrite vec_insert_app.
  - step.
    pose proof (vec_insert_app (qa ++ qw0) [] id) as Hins. rewrite app_nil_r in Hins.
    by rewrite Hins, <- app_assoc.
  - destruct (before_target_run team agent other qa qw w Hl Hm) as (row & Hload & Hvalid).
    destruct (position_of other qw0) as [j|] eqn:Hj; simpl.
    + assert (other ∈ qw0) as Hin by (by eapply list_elem_of_lookup_2, position_of_Some).
      apply elem_of_retain_ne in Hin as [Hne Hin].
      rewrite bool_decide_eq_true_2 in Hvalid by done.
      assert (Hpos : position_of other (qa ++ qw0) = Some (length qa + j)%nat).
      { rewrite position_of_app_r, Hj; [done|]. intros Hqa.
        destruct Hm as [Hq _]. apply is_queue_NoDup, NoDup_app in Hq as (_ & Hdis & _).
        by eapply Hdis. }
      erewrite run_bind by (run Hload; rewrite Hvalid, Hpos; reflexivity). cbv beta.
      apply position_of_Some, lookup_lt_Some in Hj.
      pose proof (vec_insert_app (qa ++ take j qw0) (drop j qw0) id) as Hins.
      rewrite <- !app_assoc, take_drop, length_app, length_take, Nat.min_l in Hins by lia.
      by rewrite Hins.
    + apply position_of_None in Hj. unfold qw0 in Hj. rewrite elem_of_retain_ne in Hj.
      erewrite run_bind_err; [done|]. run Hload. rewrite Hvalid.
      case_bool_decide as Hin; [|done].
      assert (other = id) as -> by (destruct (decide (other = id)); naive_solver).
      assert (position_of id (qa ++ qw0) = None) as ->; [|done].
      apply position_of_None. unfold qw0. rewrite elem_of_app, elem_of_retain_ne. naive_solver.
Qed.
End Placement.
