(* ===== verification/TaskStartSpec.v ===== *)
(** * Starting a task

    [apply_task_start] moves a waiting task of its assignee to the end of the
    assignee's active block, when the member's [max_tasks] leaves room, and
    refuses everything else without writing. *)

From S2P Require Import Prelude ErrorCodes Types TaskState Database TaskCodec TaskQueue QueueFacts.
From S2P Require Import LedgerInv EventLog MailStore TaskOps.
From stdpp Require Import base gmap strings list numbers sorting pretty.
Local Open Scope Z_scope.
Local Open Scope string_scope.
Local Open Scope list_scope.

(** The member's limit as the roster metadata states it; [None] is invalid. *)
Definition member_limit {rt : Runtime} (d : Db) (team : TeamName) (agent : AgentName) : option Z :=
  match team_roster d !! (team, agent) with
  | None => Some 1
  | Some stored =>
    v ← json_from_str (r_metadata_json stored); max_tasks_from_metadata_value (value_get v MAX_TASKS_METADATA_KEY)
  end.

Definition started_draft (record : Message) (id : TaskId) (agent : AgentName) : TaskEventDraft :=
  {| draft_team := msg_team record;
     draft_task_id := id;
     draft_assignee := agent;
     draft_at := env_timestamp (msg_envelope record);
     draft_event := TaskEventKind_Started;
     draft_from_state := Some TaskStateTag_Assigned;
     draft_to_state := Some TaskStateTag_Active;
     draft_close_outcome := None;
     draft_actor := env_from (msg_envelope record);
     draft_message_id := env_message_id (msg_envelope record);
     draft_outcome := None;
     draft_marker := None;
     draft_detail := None |}.

(** Why a start is refused, in the order the code looks. *)
Inductive start_refusal {rt : Runtime} (d : Db) (record : Message) (id : TaskId)
    : AtmError -> Prop :=
| start_unknown :
    tasks d !! (msg_team record, id) = None ->
    start_refusal d record id (task_not_found (no_open_task id (env_from (msg_envelope record))))
| start_closed r :
    tasks d !! (msg_team record, id) = Some r -> t_state r = "complete" ->
    start_refusal d record id
      (task_already_closed (no_open_task id (env_from (msg_envelope record))))
| start_not_assignee r :
    tasks d !! (msg_team record, id) = Some r -> t_state r <> "complete" ->
    t_assignee r <> env_from (msg_envelope record) ->
    start_refusal d record id
      (task_not_counterparty ("task " +:+ id +:+ " is not assigned to "
                              +:+ env_from (msg_envelope record)))
| start_active r :
    tasks d !! (msg_team record, id) = Some r -> t_state r = "active" ->
    t_assignee r = env_from (msg_envelope record) ->
    start_refusal d record id (task_already_active ("task " +:+ id +:+ " is already active"))
| start_limit_invalid r :
    tasks d !! (msg_team record, id) = Some r -> t_state r = "assigned" ->
    t_assignee r = env_from (msg_envelope record) ->
    member_limit d (msg_team record) (t_assignee r) = None ->
    start_refusal d record id (invalid_max_tasks record (t_assignee r))
| start_limit_reached r qa qw m recovery :
    tasks d !! (msg_team record, id) = Some r -> t_state r = "assigned" ->
    t_assignee r = env_from (msg_envelope record) ->
    member_queue (tasks d) (msg_team record) (t_assignee r) qa qw ->
    member_limit d (msg_team record) (t_assignee r) = Some m -> m <= Z.of_nat (length qa) ->
    start_refusal d record id
      (task_max_active_reached
         ("task " +:+ id +:+ ": " +:+ t_assignee r +:+ " already has "
          +:+ pretty (Z.of_nat (length qa)) +:+ " active task(s); max_tasks is " +:+ pretty m)
         recovery).

Lemma count_active_queue ts team agent qa qw id :
  member_queue ts team agent qa qw -> id ∉ qa -> count_active team agent id ts = length qa.
Proof.
  intros Hm Hid. unfold count_active.
  assert (select_keys (other_active team agent id) ts ≡ₚ pair team <$> qa) as Hp.
  { apply NoDup_Permutation.
    - apply select_keys_NoDup.
    - apply NoDup_fmap_2; [congruence|]. destruct Hm as [Hq _].
      apply is_queue_NoDup, NoDup_app in Hq. tauto.
    - intros [t i]. rewrite elem_of_select_keys, list_elem_of_fmap. split.
      + intros (r & Hr & Ht & Ha & Hs & Hne). simpl in *. subst t. exists i. split; [done|].
        apply (proj1 (member_queue_mem _ _ _ _ _ i r Hm Hr ltac:(by split_and!; [..|rewrite Hs]))).
        done.
      + intros (i' & [= -> ->] & Hin).
        destruct (member_queue_open _ _ _ _ _ i' Hm) as (r & Hr & Ho); [set_solver|].
        exists r. split; [done|]. pose proof (member_queue_mem _ _ _ _ _ _ _ Hm Hr Ho) as [Hqa _].
        destruct Ho as (_ & Ho & _). split_and!; [done|done|by apply Hqa|].
        simpl. intros ->. done. }
  rewrite Hp. by rewrite length_fmap.
Qed.

Section Start.
Context {rt : Runtime} {rtok : RuntimeOk rt}.

Lemma member_max_tasks_run record agent w :
  member_max_tasks record agent w
  = (match member_limit (db w) (msg_team record) agent with
     | Some m => Ok m
     | None => Err (invalid_max_tasks record agent)
     end, w).
Proof.
  unfold member_max_tasks, member_limit. run run_get_db.
  destruct (team_roster (db w) !! (msg_team record, agent)) as [stored|].
  - destruct (json_from_str (r_metadata_json stored)) as [v|]; simpl.
    + erewrite run_bind by (by apply run_fmap). simpl. by destruct (max_tasks_from_metadata_value _).
    + done.
  - erewrite run_bind by done. done.
Qed.

(** The order a start asks for, as a queue with one more active task. *)
Lemma start_order ts team agent qa qw id r :
  member_queue ts team agent qa qw -> ts !! (team, id) = Some r ->
  open_of team agent (team, id) r -> t_state r = "assigned" ->
  id ∉ qa /\ id ∈ qw /\ NoDup ((qa ++ [id]) ++ retain_ne id qw)
  /\ (forall x, x ∈ (qa ++ [id]) ++ retain_ne id qw <-> x ∈ qa ++ qw)
  /\ length ((qa ++ [id]) ++ retain_ne id qw) = length (qa ++ qw).
Proof.
  intros Hm Hr Ho Hs. pose proof (member_queue_mem _ _ _ _ _ _ _ Hm Hr Ho) as [Hqa Hqw].
  rewrite Hs in Hqa, Hqw. destruct Hm as [Hq _].
  assert (Hin : id ∈ qw) by by apply Hqw. assert (Hnin : id ∉ qa) by (by intros ?%Hqa).
  pose proof (is_queue_NoDup _ _ _ _ Hq) as (Hnda & Hdis & Hndw)%NoDup_app.
  pose proof (length_retain_ne id qw Hndw Hin).
  split_and!; [done..| | |].
  - rewrite !NoDup_app. split_and!; [done| |apply NoDup_singleton| |by apply NoDup_retain_ne].
    + intros x Hx ->%list_elem_of_singleton. done.
    + intros x Hx. rewrite elem_of_retain_ne. intros [Hne Hxw].
      apply elem_of_app in Hx as [Hx|Hx%list_elem_of_singleton]; [by eapply Hdis|done].
  - intros x. rewrite !elem_of_app, elem_of_retain_ne, list_elem_of_singleton.
    destruct (decide (x = id)); naive_solver.
  - rewrite !length_app. simpl. lia.
Qed.

Lemma started_row_check at_ r :
  task_row_check r = true -> t_state r = "assigned" ->
  task_row_check (started_row TaskState_Active at_ r) = true.
Proof.
  unfold task_row_check. rewrite !andb_true_iff. intros [[[[H1 H2] H3] H4] H5] Hs. simpl.
  rewrite Hs in H4, H5. apply bool_decide_eq_true_1 in H4, H5.
  split_and!; try done; apply bool_decide_eq_true_2; naive_solver.
Qed.

(** The table a start leaves. *)
Definition started_tasks (ts : gmap TaskKey TaskSqlRow) (record : Message) (id : TaskId)
    (r : TaskSqlRow) (order : list TaskId) : gmap TaskKey TaskSqlRow :=
  renumbered (<[(msg_team record, id) := started_row TaskState_Active
                  (env_timestamp (msg_envelope record)) r]> ts) (msg_team record) order.

(** The writing half of a start. *)
Lemma start_write_run record id agent r qa qw w :
  let team := msg_team record in
  let order := (qa ++ [id]) ++ retain_ne id qw in
  let ts' := started_tasks (tasks (db w)) record id r order in
  ledger_ok (tasks (db w)) -> queues_bounded (tasks (db w)) ->
  member_queue (tasks (db w)) team agent qa qw ->
  tasks (db w) !! (team, id) = Some r -> open_of team agent (team, id) r ->
  t_state r = "assigned" ->
  (_ ← update_task "failed to start task" (team, id)
         (started_row TaskState_Active (env_timestamp (msg_envelope record)));
   renumber_queue team agent order) w = (Ok tt, with_db (set_tasks ts') w)
  /\ ledger_ok ts' /\ member_queue ts' team agent (qa ++ [id]) (retain_ne id qw)
  /\ others_keep (tasks (db w)) ts' team agent.
Proof.
  intros team order ts' Hl Hb Hm Hr Ho Hs. pose proof Hl as (Hsql & Hcnt & Hall).
  destruct (start_order _ _ _ _ _ _ _ Hm Hr Ho Hs) as (Hnin & Hin & Hnd & Hmem & Hlen).
  set (r' := started_row TaskState_Active (env_timestamp (msg_envelope record)) r) in *.
  assert (Hsame : same_place r r') by (by split_and!; [..|rewrite Hs|]).
  assert (Hcheck : task_row_check r' = true) by (apply started_row_check; [by apply (proj1 Hsql (team, id))|done]).
  destruct Hm as [Hq [Ha Hw]].
  assert (Hq1 : is_queue (<[(team, id) := r']> (tasks (db w))) team agent (qa ++ qw))
    by (by eapply same_place_is_queue).
  assert (Hkeep : others_keep (tasks (db w)) (<[(team, id) := r']> (tasks (db w))) team agent).
  { apply others_keep_insert; [|intros _; apply Ho].
    intros r0 Hr0 _. assert (r0 = r) as -> by congruence. apply Ho. }
  destruct (reorder_run team agent (qa ++ [id]) (retain_ne id qw)
              (with_db (set_tasks (<[(team, id) := r']> (tasks (db w)))) w))
    as (Hrun & Hl' & Hm' & Hoth'); simpl.
  - by eapply others_keep_exist.
  - by eapply same_place_sql_ok.
  - apply map_Forall_insert_2; [|done]. destruct (Hcnt _ _ Hr). simpl. unfold u32_max in *. lia.
  - done.
  - intros x. rewrite Hmem. by apply (is_queue_covers _ _ _ _ Hq1).
  - split.
    + apply Forall_app. split; [by apply Forall_state_insert_ne|].
      apply Forall_singleton. exists r'. by rewrite lookup_insert_eq.
    + apply Forall_state_insert_ne; [rewrite elem_of_retain_ne; naive_solver|].
      rewrite Forall_forall in Hw |- *. intros x [_ Hx]%elem_of_retain_ne. by apply Hw.
  - fold order in Hlen |- *. eapply renumber_bound_ok; [exact Hq1|by eapply queue_len_bound|lia].
  - split_and!; [|done..|by eapply others_keep_trans]. erewrite run_bind; [exact Hrun|].
    apply update_task_run; [done..|]. by eapply same_place_no_clash; [apply Hsql|..].
Qed.

Lemma load_startable_cases record id w :
  let team := msg_team record in
  let from := env_from (msg_envelope record) in
  ledger_ok (tasks (db w)) -> queues_bounded (tasks (db w)) ->
  (exists e, load_startable_task record id w = (Err e, w) /\ start_refusal (db w) record id e)
  \/ exists r row, tasks (db w) !! (team, id) = Some r /\ row_view (team, id) r row
       /\ load_startable_task record id w = (Ok row, w) /\ open_of team from (team, id) r.
Proof.
  intros team from Hl Hb. unfold load_startable_task. fold team from.
  destruct (tasks (db w) !! (team, id)) as [r|] eqn:Hr.
  2:{ left. eexists. split; [|by constructor].
      erewrite run_bind by (by apply load_task_row_none). reflexivity. }
  destruct (load_task_row_some team id r w (ledger_readable _ Hl Hb) Hr) as (row & Hload & Hv).
  run Hload.
  destruct (is_open (row_state row)) eqn:Hop; simpl.
  2:{ left. eexists. split; [reflexivity|]. eapply start_closed; [done|].
      destruct (decide (t_state r = "complete")) as [|Hn]; [done|].
      apply (view_open _ _ _ Hv) in Hn. congruence. }
  pose proof (proj1 (view_open _ _ _ Hv) Hop) as Hs.
  case_bool_decide as Hf; rewrite (view_assignee _ _ _ Hv) in Hf.
  - left. eexists. split; [reflexivity|]. by eapply start_not_assignee.
  - right. exists r, row. by split_and!.
Qed.

Lemma reject_over_max_tasks_run record id row qa qw w :
  queues_bounded (tasks (db w)) ->
  member_queue (tasks (db w)) (msg_team record) (row_assignee row) qa qw -> id ∉ qa ->
  reject_over_max_tasks record id row w
  = (match member_limit (db w) (msg_team record) (row_assignee row) with
     | None => Err (invalid_max_tasks record (row_assignee row))
     | Some m =>
       if bool_decide (m <= Z.of_nat (length qa))
       then Err (task_max_active_reached
         ("task " +:+ id +:+ ": " +:+ row_assignee row +:+ " already has "
          +:+ pretty (Z.of_nat (length qa)) +:+ " active task(s); max_tasks is " +:+ pretty m)
         ("Complete or cancel an active task, or raise the limit with `atm teams update-member "
          +:+ msg_team record +:+ " " +:+ row_assignee row +:+ " --max-tasks <N>`."))
       else Ok (Z.of_nat (length qa))
     end, w).
Proof.
  intros Hb Hm Hn. unfold reject_over_max_tasks. run run_get_db.
  rewrite (count_active_queue _ _ _ _ _ _ Hm Hn).
  pose proof (queue_len_bound _ _ _ _ Hb (proj1 Hm)) as Hlen. rewrite length_app in Hlen.
  unfold u32_try_from. rewrite bool_decide_eq_true_2 by lia. simpl.
  pose proof (member_max_tasks_run record (row_assignee row) w) as Hmax.
  destruct (member_limit _ _ _) as [m|].
  - erewrite run_bind by exact Hmax. by destruct (bool_decide (m <= _)).
  - by erewrite run_bind_err by exact Hmax.
Qed.

(** The whole start, on every branch. *)
Lemma start_cases record id w :
  let team := msg_team record in
  let from := env_from (msg_envelope record) in
  ledger_ok (tasks (db w)) -> queues_bounded (tasks (db w)) ->
  (exists e, apply_task_start record id w = (Err e, w) /\ start_refusal (db w) record id e)
  \/ exists r qa qw m,
      tasks (db w) !! (team, id) = Some r /\ open_of team from (team, id) r
      /\ t_state r = "assigned" /\ member_queue (tasks (db w)) team from qa qw
      /\ member_limit (db w) team from = Some m /\ Z.of_nat (length qa) < m
      /\ apply_task_start record id w
         = (Ok (from, event_typed (started_draft record id from)
                        (next_seq (started_draft record id from) (task_events (db w)))
                        (Some TaskState_Assigned) (Some TaskState_Active)),
            with_db (fun d => logged (started_draft record id from)
                       (set_tasks (started_tasks (tasks d) record id r
                                     ((qa ++ [id]) ++ retain_ne id qw)) d)) w).
Proof.
  intros team from Hl Hb. unfold apply_task_start. fold team from.
  destruct (load_startable_cases record id w Hl Hb) as [(e & Hrun & Href)|(r & row & Hr & Hv & Hrun & Ho)].
  { left. exists e. split; [|done]. by erewrite run_bind_err by exact Hrun. }
  fold team from in Hr, Hv, Ho. run Hrun.
  pose proof Hl as (_ & _ & Hall). destruct (Hall team from) as (qa & qw & Hm).
  pose proof Ho as (_ & Hassignee & Hopen).
  assert (Hrow : row_assignee row = from) by (by rewrite (view_assignee _ _ _ Hv)).
  pose proof (view_state _ _ _ Hv) as Hst. rewrite Hrow.
  destruct (row_state row) as [| |o] eqn:Hrs; simpl in Hst; [|left|done].
  2:{ eexists. split; [reflexivity|]. by eapply start_active. }
  rewrite bool_decide_eq_false_2 by done. erewrite run_bind by (by apply run_lift).
  destruct (start_order _ _ _ _ _ _ _ Hm Hr Ho Hst) as (Hnin & _).
  rewrite <- Hrow in Hm.
  pose proof (reject_over_max_tasks_run record id row qa qw w Hb Hm Hnin) as Hrej.
  rewrite Hrow in Hrej, Hm. fold team in Hrej.
  destruct (member_limit (db w) team from) as [m|] eqn:Hlim.
  2:{ left. eexists. split; [by erewrite run_bind_err by exact Hrej|].
      rewrite <- Hassignee. eapply start_limit_invalid; [done..|by rewrite Hassignee]. }
  case_bool_decide as Hle.
  { left. eexists. split; [by erewrite run_bind_err by exact Hrej|].
    rewrite <- Hassignee. eapply start_limit_reached; try done; by rewrite Hassignee. }
  right. exists r, qa, qw, m. split_and!; [done..|lia|].
  run Hrej.
  run (queue_order_run team from (qa ++ qw) w (proj1 Hm)).
  rewrite retain_ne_app, (retain_ne_notin id qa), Nat2Z.id, vec_insert_app by done.
  erewrite run_bind by done.
  destruct (start_write_run record id from r qa qw w) as (Hwr & _); [done..|].
  rewrite <- app_assoc in Hwr. simpl in Hwr.
  unfold mbind, M_bind, st_mbind, st_bind in Hwr |- *. fold team in Hwr.
  destruct (update_task _ _ _ w) as [[[]|e|] w1]; [|done..].
  rewrite Hwr. clear Hwr.
  pose proof (append_task_event_run (started_draft record id from) (Some TaskState_Assigned)
    (Some TaskState_Active)) as Happ. unfold started_draft at 1 in Happ. simpl in Happ.
  rewrite Happ by done. simpl. by rewrite <- app_assoc.
Qed.
End Start.
