(* ===== verification/TaskMoveSpec.v ===== *)
(** * Moving a task in its queue

    [apply_task_move] reorders the waiting block of the assignee's queue; an
    active task keeps its place and only the request is logged. *)

From S2P Require Import Prelude ErrorCodes Types TaskState Database TaskCodec TaskQueue QueueFacts.
From S2P Require Import LedgerInv EventLog PlacementSpec MailStore TaskOps.
From stdpp Require Import base gmap strings list numbers sorting pretty.
Local Open Scope Z_scope.
Local Open Scope string_scope.
Local Open Scope list_scope.

(** Why a move is refused. *)
Inductive move_refusal (d : Db) (team : TeamName) (id : TaskId) (actor : AgentName)
    (target : MoveTarget) : AtmError -> Prop :=
| move_unknown :
    tasks d !! (team, id) = None ->
    move_refusal d team id actor target (task_not_found (no_open_task id actor))
| move_closed r :
    tasks d !! (team, id) = Some r -> t_state r = "complete" ->
    move_refusal d team id actor target (task_already_closed (no_open_task id actor))
| move_target r qa qw other :
    tasks d !! (team, id) = Some r -> t_state r = "assigned" ->
    member_queue (tasks d) team (t_assignee r) qa qw ->
    target = MoveTarget_Before other -> (other = id \/ other ∉ qw) ->
    move_refusal d team id actor target (placement_error id other (t_assignee r)).

Lemma place_None placement id waiting :
  place placement id waiting = None ->
  exists other, placement = MoveTarget_Before other /\ other ∉ waiting.
Proof.
  destruct placement as [| |other]; simpl; [done..|].
  rewrite fmap_None, position_of_None. eauto.
Qed.

(** The order a placement asks for. *)
Lemma place_order ts team agent qa qw id placement qw' :
  member_queue ts team agent qa qw -> id ∉ qa ->
  place placement id (retain_ne id qw) = Some qw' ->
  NoDup (qa ++ qw') /\ id ∈ qw'
  /\ (forall x, x ∈ qa ++ qw' <-> x = id \/ x ∈ qa ++ qw)
  /\ (length (qa ++ qw') <= S (length (qa ++ qw)))%nat.
Proof.
  intros [Hq _] Hid Hp%place_perm.
  pose proof (is_queue_NoDup _ _ _ _ Hq) as (Hnda & Hdis & Hndw)%NoDup_app.
  split_and!.
  - rewrite Hp. rewrite NoDup_app. split_and!; [done| |].
    + intros x Hx. rewrite elem_of_cons, elem_of_retain_ne. intros [->|[_ Hxw]]; [done|].
      by eapply Hdis.
    + constructor; [rewrite elem_of_retain_ne; naive_solver|by apply NoDup_retain_ne].
  - rewrite Hp. by left.
  - intros x. rewrite Hp, !elem_of_app, elem_of_cons, elem_of_retain_ne.
    destruct (decide (x = id)); naive_solver.
  - rewrite Hp, !length_app. simpl. unfold retain_ne.
    pose proof (length_filter (fun x : TaskId => x <> id) qw). lia.
Qed.

Lemma queue_position_of_run (order : list TaskId) id i w :
  position_of id order = Some i -> Z.of_nat (length order) < u32_max ->
  queue_position_of order id w = (Ok (Z.of_nat i + 1), w).
Proof.
  intros Hp Hl. pose proof (lookup_lt_Some _ _ _ (position_of_Some _ _ _ Hp)).
  unfold queue_position_of. apply run_ok_or. rewrite Hp. simpl. unfold u32_try_from.
  rewrite bool_decide_eq_true_2 by lia. simpl. unfold queue_position_new.
  by rewrite bool_decide_eq_false_2 by lia.
Qed.

Section Move.
Context {rt : Runtime} {rtok : RuntimeOk rt}.

(** A waiting task of the member is moved inside the waiting block. *)
Lemma move_write_run team id agent r qa qw placement qw' w :
  ledger_ok (tasks (db w)) -> queues_bounded (tasks (db w)) ->
  member_queue (tasks (db w)) team agent qa qw ->
  tasks (db w) !! (team, id) = Some r -> open_of team agent (team, id) r ->
  t_state r = "assigned" -> place placement id (retain_ne id qw) = Some qw' ->
  let ts' := renumbered (tasks (db w)) team (qa ++ qw') in
  renumber_queue team agent (qa ++ qw') w = (Ok tt, with_db (set_tasks ts') w)
  /\ ledger_ok ts' /\ member_queue ts' team agent qa qw'
  /\ others_keep (tasks (db w)) ts' team agent.
Proof.
  intros Hl Hb Hm Hr Ho Hs Hp ts'. pose proof Hl as (Hsql & Hcnt & _).
  pose proof (member_queue_mem _ _ _ _ _ _ _ Hm Hr Ho) as [Hqa Hqw]. rewrite Hs in Hqa, Hqw.
  assert (Hin : id ∈ qw) by by apply Hqw. assert (Hnin : id ∉ qa) by (by intros ?%Hqa).
  destruct (place_order _ _ _ _ _ _ _ _ Hm Hnin Hp) as (Hnd & _ & Hmem & Hlen).
  pose proof Hm as [Hq [Ha Hw]].
  assert (Hmem' : forall x, x ∈ qa ++ qw' <-> x ∈ qa ++ qw).
  { intros x. rewrite Hmem. split; [|by right]. intros [->|]; [|done]. set_solver. }
  apply (reorder_run team agent qa qw' w); try done.
  - apply (others_keep_exist (tasks (db w))); [done|]. by intros ? ? ? ? _.
  - intros x. rewrite Hmem'. by apply (is_queue_covers _ _ _ _ Hq).
  - split; [done|]. rewrite Forall_forall in Hw |- *. intros x Hx.
    assert (x ∈ qa ++ qw) as [Hxa|Hxw]%elem_of_app by (apply Hmem'; set_solver); [|by apply Hw].
    apply NoDup_app in Hnd as (_ & Hdis & _). by destruct (Hdis x).
  - eapply renumber_bound_ok; [exact Hq|by eapply queue_len_bound|done].
Qed.

(** The draft of the event a move appends. *)
Definition move_draft (team : TeamName) (id : TaskId) (agent actor : AgentName)
    (at_ : IsoTimestamp) (state : TaskState) (from to : Z) : TaskEventDraft :=
  moved_draft team id agent actor at_ (tag state) (tag state) None
    (pretty from +:+ "→" +:+ pretty to).

Definition move_result (team : TeamName) (id : TaskId) (agent actor : AgentName)
    (at_ : IsoTimestamp) (state : TaskState) (from to : Z) (es : list TaskEventSqlRow)
    : TaskMoveRecord :=
  let draft := move_draft team id agent actor at_ state from to in
  mkTaskMoveRecord agent from to
    (event_typed draft (next_seq draft es) (Some state) (Some state)).

Lemma move_append_run team id agent actor at_ state from to w :
  is_open state = true ->
  append_task_event (move_draft team id agent actor at_ state from to) w
  = (Ok (mv_event (move_result team id agent actor at_ state from to (task_events (db w)))),
     with_db (logged (move_draft team id agent actor at_ state from to)) w).
Proof. intros Ho. apply append_task_event_run; by destruct state. Qed.

(** The whole move, on every branch. *)
(** Moving a waiting task: it is placed and its queue renumbered, or the place is
    not one of the queue. *)
Lemma queued_move_cases team id actor target at_ r row qa qw i w :
  ledger_ok (tasks (db w)) -> queues_bounded (tasks (db w)) ->
  tasks (db w) !! (team, id) = Some r -> row_view (team, id) r row ->
  row_state row = TaskState_Assigned -> open_of team (row_assignee row) (team, id) r ->
  member_queue (tasks (db w)) team (row_assignee row) qa qw ->
  (qa ++ qw) !! i = Some id -> t_position r = Some (Z.of_nat i + 1) ->
  let agent := row_assignee row in
  (exists e, apply_queued_task_move team id actor target at_ row TaskState_Assigned w = (Err e, w)
             /\ move_refusal (db w) team id actor target e)
  \/ exists qw' j, place target id (retain_ne id qw) = Some qw' /\ (qa ++ qw') !! j = Some id
       /\ apply_queued_task_move team id actor target at_ row TaskState_Assigned w
          = (Ok (move_result team id agent actor at_ TaskState_Assigned (Z.of_nat i + 1)
                   (Z.of_nat j + 1) (task_events (db w))),
             with_db (fun d => logged (move_draft team id agent actor at_ TaskState_Assigned
                                        (Z.of_nat i + 1) (Z.of_nat j + 1))
                (set_tasks (renumbered (tasks d) team (qa ++ qw')) d)) w).
Proof.
  intros Hl Hb Hr Hv Hrs Ho Hm Hi Hpos agent.
  pose proof (view_state _ _ _ Hv) as Hst. rewrite Hrs in Hst. simpl in Hst.
  pose proof (queue_len_bound _ _ _ _ Hb (proj1 Hm)) as Hlen.
  unfold apply_queued_task_move. fold agent. rewrite (view_position _ _ _ Hv), Hpos. step.
  run (queue_order_run team agent (qa ++ qw) w (proj1 Hm)).
  pose proof (member_queue_mem _ _ _ _ _ _ _ Hm Hr Ho) as [Hqa _]. rewrite Hst in Hqa.
  assert (Hnin : id ∉ qa) by (by intros ?%Hqa).
  pose proof (insert_at_placement_run target id team agent qa qw w (ledger_readable _ Hl Hb) Hm Hnin) as Hins.
  destruct (place target id (retain_ne id qw)) as [qw'|] eqn:Hpl.
  - right. destruct (move_write_run team id agent r qa qw target qw' w) as (Hren & _); [done..|].
    destruct (place_order _ _ _ _ _ _ _ _ Hm Hnin Hpl) as (Hnd' & Hin' & Hmem & Hlen').
    assert (exists j, (qa ++ qw') !! j = Some id) as [j Hj] by (apply list_elem_of_lookup; set_solver).
    assert (length (qa ++ qw') <= length (qa ++ qw))%nat as Hle.
    { apply submseteq_length, NoDup_submseteq; [done|]. intros x Hx%Hmem.
      destruct Hx as [->|]; [by eapply list_elem_of_lookup_2|done]. }
    exists qw', j. split_and!; [done..|]. run Hins. run Hren.
    erewrite run_bind by (eapply queue_position_of_run; [by apply position_of_lookup|lia]).
    cbv beta. rewrite Hrs.
    by erewrite run_bind by (by apply (move_append_run team id agent actor at_ TaskState_Assigned)).
  - left. apply place_None in Hpl as (other & -> & Hno).
    eexists. split; [by run_err Hins|]. unfold agent in *. rewrite (view_assignee _ _ _ Hv) in *.
    eapply move_target; [done..|exact Hm|done|].
    rewrite elem_of_retain_ne in Hno. destruct (decide (other = id)); naive_solver.
Qed.

Lemma move_cases team id actor target at_ w :
  ledger_ok (tasks (db w)) -> queues_bounded (tasks (db w)) ->
  (exists e, apply_task_move team id actor target at_ w = (Err e, w)
             /\ move_refusal (db w) team id actor target e)
  \/ exists agent r qa qw i,
      tasks (db w) !! (team, id) = Some r /\ open_of team agent (team, id) r
      /\ member_queue (tasks (db w)) team agent qa qw /\ (qa ++ qw) !! i = Some id
      /\ ((t_state r = "active"
           /\ apply_task_move team id actor target at_ w
              = (Ok (move_result team id agent actor at_ TaskState_Active (Z.of_nat i + 1)
                       (Z.of_nat i + 1) (task_events (db w))),
                 with_db (logged (move_draft team id agent actor at_ TaskState_Active
                                    (Z.of_nat i + 1) (Z.of_nat i + 1))) w))
          \/ exists qw' j, t_state r = "assigned"
             /\ place target id (retain_ne id qw) = Some qw'
             /\ (qa ++ qw') !! j = Some id
             /\ apply_task_move team id actor target at_ w
                = (Ok (move_result team id agent actor at_ TaskState_Assigned (Z.of_nat i + 1)
                         (Z.of_nat j + 1) (task_events (db w))),
                   with_db (fun d => logged (move_draft team id agent actor at_ TaskState_Assigned
                                              (Z.of_nat i + 1) (Z.of_nat j + 1))
                      (set_tasks (renumbered (tasks d) team (qa ++ qw')) d)) w)).
Proof.
  intros Hl Hb. unfold apply_task_move. destruct (tasks (db w) !! (team, id)) as [r|] eqn:Hr.
  2:{ left. eexists. split; [|by constructor].
      erewrite run_bind by (by apply load_task_row_none). reflexivity. }
  destruct (load_task_row_some team id r w (ledger_readable _ Hl Hb) Hr) as (row & Hload & Hv). run Hload.
  pose proof (view_state _ _ _ Hv) as Hst. pose proof (view_assignee _ _ _ Hv) as Hag.
  destruct (is_open (row_state row)) eqn:Hop; cbn [negb]; cbv iota.
  2:{ left. eexists. split; [reflexivity|]. eapply move_closed; [done|]. by destruct (row_state row). }
  assert (Ho : open_of team (row_assignee row) (team, id) r).
  { split_and!; [done..|]. by apply (view_open _ _ _ Hv). }
  pose proof Hl as (_ & _ & Hall). destruct (Hall team (row_assignee row)) as (qa & qw & Hm).
  destruct (proj2 (proj1 Hm) id r Hr Ho) as [i Hi].
  destruct (proj1 (proj1 Hm) _ _ Hi) as (r0 & Hr0 & _ & Hpos).
  assert (r0 = r) as -> by congruence.
  pose proof (queue_len_bound _ _ _ _ Hb (proj1 Hm)) as Hlen.
  pose proof (position_of_lookup _ _ _ (is_queue_NoDup _ _ _ _ (proj1 Hm)) Hi) as Hposi.
  destruct (row_state row) as [| |o] eqn:Hrs; simpl in Hst; [| |done].
  - erewrite run_bind by (apply run_lift; cbn; by destruct (bool_decide _)). cbv beta.
    rewrite bool_decide_eq_false_2 by done.
    destruct (queued_move_cases team id actor target at_ r row qa qw i w) as [Herr|(qw' & j & Hpl & Hj & Hrun)];
      [done..|by left|].
    right. exists (row_assignee row), r, qa, qw, i. split_and!; [done..|]. right. by exists qw', j.
  - right. exists (row_assignee row), r, qa, qw, i. split_and!; [done..|]. left. split; [done|].
    erewrite run_bind by (apply run_lift; cbn; by rewrite bool_decide_eq_true_2). cbv beta.
    rewrite bool_decide_eq_true_2 by done.
    run (queue_order_run team (row_assignee row) (qa ++ qw) w (proj1 Hm)).
    erewrite run_bind by (apply queue_position_of_run; [done|lia]). cbv beta.
    unfold append_active_task_move. rewrite Hrs.
    by erewrite run_bind by (by apply (move_append_run team id (row_assignee row) actor at_ TaskState_Active)).
Qed.
End Move.
