(* ===== verification/TaskAssignSpec.v ===== *)
(** * Assigning a task

    [apply_task_assignment] creates, reopens or reassigns a task: it becomes a
    waiting task of the new assignee at the requested place, leaves the queue of
    the previous assignee, and that assignee is told by mail.  A repeated
    assignment to the same assignee only refreshes the message reference. *)

From S2P Require Import Prelude ErrorCodes Types TaskState Database TaskCodec TaskQueue QueueFacts.
From S2P Require Import LedgerInv EventLog PlacementSpec MailStore MailSpec TaskOps TaskMoveSpec.
From stdpp Require Import base gmap strings list numbers sorting pretty.
Local Open Scope Z_scope.
Local Open Scope string_scope.
Local Open Scope list_scope.

(** ** Releasing the previous assignee *)

Lemma others_keep_pointwise ts ts' team agent :
  (forall k r, ts !! k = Some r -> ~ open_of team agent k r -> ts' !! k = Some r) ->
  (forall k r, ts' !! k = Some r -> ~ open_of team agent k r -> ts !! k = Some r) ->
  others_keep ts ts' team agent.
Proof.
  intros H1 H2 team' agent' qa qw Hne [[Hq1 Hq2] [Ha Hw]].
  assert (Hno : forall k r, open_of team' agent' k r -> ~ open_of team agent k r).
  { intros k r (Ht & Hag & _) (Ht' & Hag' & _). congruence. }
  assert (Hst : forall s id, id ∈ qa ++ qw -> state_at ts team' s id -> state_at ts' team' s id).
  { intros s id [i Hi]%list_elem_of_lookup (r & Hr & Hs).
    destruct (Hq1 _ _ Hi) as (r0 & Hr0 & Ho & _). assert (r0 = r) as -> by congruence.
    exists r. split; [|done]. eapply H1; [done|]. by eapply Hno. }
  split; [split|split].
  - intros i id Hi. destruct (Hq1 _ _ Hi) as (r & Hr & Ho & Hp). exists r. split_and!; [|done..].
    eapply H1; [done|]. by eapply Hno.
  - intros id r Hr Ho. apply (Hq2 id r); [|done]. eapply H2; [done|]. by eapply Hno.
  - rewrite Forall_forall in Ha |- *. intros id Hin. apply Hst; [set_solver|by apply Ha].
  - rewrite Forall_forall in Hw |- *. intros id Hin. apply Hst; [set_solver|by apply Hw].
Qed.

(** The table after the release: the member's other tasks closed up, the
    released row parked above them. *)
Definition released (ts : gmap TaskKey TaskSqlRow) (team : TeamName) (agent : AgentName)
    (q : list TaskId) (id : TaskId) : gmap TaskKey TaskSqlRow :=
  renumbered (shifted ts team agent (Z.of_nat (length q))) team (retain_ne id q).

Lemma released_other ts team agent q id k r :
  covers ts team agent q -> ~ open_of team agent k r ->
  released ts team agent q id !! k = Some r <-> ts !! k = Some r.
Proof.
  intros Hc Hno. unfold released. rewrite renumbered_lookup, shifted_lookup.
  destruct (ts !! k) as [r0|] eqn:Hr; simpl; [|done].
  destruct (decide (open_of team agent k r0)) as [Ho|Hno0].
  - split; intros [= Heq]; exfalso; apply Hno.
    + rewrite <- Heq. destruct (decide (k.1 = team)), (position_of k.2 (retain_ne id q)); done.
    + by subst.
  - destruct (decide (k.1 = team)) as [Ht|]; [|done].
    destruct (position_of k.2 (retain_ne id q)) as [i|] eqn:Hp; [|done].
    apply position_of_Some, list_elem_of_lookup_2, elem_of_retain_ne in Hp as [_ Hp].
    apply Hc in Hp as (r1 & Hr1 & Ho1). destruct k as [t i']; simpl in *; subst.
    simplify_eq. by destruct Hno0.
Qed.

Lemma released_row ts team agent q id k r :
  released ts team agent q id !! k = Some r ->
  exists r0 p, ts !! k = Some r0 /\ r = set_position p r0.
Proof.
  unfold released. intros (r1 & Hr1 & Hcase)%renumbered_row. rewrite shifted_lookup in Hr1.
  apply fmap_Some in Hr1 as (r0 & Hr0 & ->).
  destruct (decide (open_of team agent k r0)), Hcase as [->|(i & _ & _ & ->)];
    [eexists r0, _..]; (split; [done|]); try reflexivity. by rewrite set_position_id.
Qed.

Section Release.
Context {rt : Runtime} {rtok : RuntimeOk rt}.

Lemma release_run team agent q id w :
  sql_ok (tasks (db w)) -> queues_bounded (tasks (db w)) ->
  is_queue (tasks (db w)) team agent q -> id ∈ q ->
  (_ ← update_tasks "failed to release old task position" (open_of team agent)
         (shift_position (Z.of_nat (length (retain_ne id q)) + 1));
   write_queue_positions team (retain_ne id q)) w
  = (Ok tt, with_db (set_tasks (released (tasks (db w)) team agent q id)) w)
  /\ sql_ok (released (tasks (db w)) team agent q id).
Proof.
  intros Hsql Hb Hq Hin. pose proof (is_queue_NoDup _ _ _ _ Hq) as Hnd.
  pose proof (length_retain_ne id q Hnd Hin) as Hlen.
  assert (Z.of_nat (length (retain_ne id q)) + 1 = Z.of_nat (length q)) as -> by lia.
  pose proof (queue_len_bound _ _ _ _ Hb Hq). pose proof (max_position_queue _ _ _ _ Hq) as Hmax.
  erewrite run_bind by (apply shift_run; [done|lia]).
  destruct (write_positions_shifted (tasks (db w)) team agent (Z.of_nat (length q))
    (retain_ne id q) (with_db (set_tasks (shifted (tasks (db w)) team agent
      (Z.of_nat (length q)))) w)) as [Hrun Hok]; try done; try lia.
  - by apply NoDup_retain_ne.
  - unfold i64_max, u32_max in *. lia.
  - intros x [_ Hx]%elem_of_retain_ne. by apply (is_queue_covers _ _ _ _ Hq).
Qed.
End Release.

(** ** Reading during a release *)

Lemma released_readable ts team agent q id :
  ledger_ok ts -> queues_bounded ts -> is_queue ts team agent q ->
  sql_ok (released ts team agent q id) -> readable (released ts team agent q id).
Proof.
  intros Hl Hb Hq [Hok _]. pose proof Hl as (_ & Hc & _). split_and!; [done| |].
  - intros k r (r0 & p & Hr0 & ->)%released_row. exact (Hc _ _ Hr0).
  - intros k r Hr p Hp.
    destruct (task_row_check_state r (Hok _ _ Hr)) as (_ & _ & _ & _ & _ & _ & H1).
    split; [by apply H1|]. unfold released in Hr.
    apply renumbered_row in Hr as (r1 & Hr1 & Hcase). rewrite shifted_lookup in Hr1.
    apply fmap_Some in Hr1 as (r0 & Hr0 & ->).
    pose proof (queue_len_bound _ _ _ _ Hb Hq). unfold queues_bounded in Hb.
    assert (Hp0 : forall p0, t_position r0 = Some p0 -> p0 <= Z.of_nat (size ts)).
    { intros p0 Hp0. by apply (ledger_position_bound ts k r0 p0 Hl Hr0). }
    pose proof (open_ids_size ts team agent q (is_queue_NoDup _ _ _ _ Hq) (is_queue_covers _ _ _ _ Hq)).
    destruct Hcase as [->|(i & Hi & _ & ->)].
    + destruct (decide (open_of team agent k r0)); [|specialize (Hp0 p Hp); lia].
      simpl in Hp. destruct (t_position r0) as [p0|]; [|done]. simpl in Hp. injection Hp as <-.
      specialize (Hp0 p0 eq_refl). lia.
    + simpl in Hp. injection Hp as <-.
      apply position_of_Some, lookup_lt_Some in Hi. unfold retain_ne in Hi.
      pose proof (length_filter (fun x : TaskId => x <> id) q). lia.
Qed.

(** The released member's queue once the row is taken away from it. *)
Lemma released_member_queue ts team agent qa qw id r' :
  member_queue ts team agent qa qw -> (t_assignee r' <> agent \/ t_state r' = "complete") ->
  member_queue (<[(team, id) := r']> (released ts team agent (qa ++ qw) id)) team agent
    (retain_ne id qa) (retain_ne id qw).
Proof.
  intros Hm Hout. pose proof Hm as [Hq [Ha Hw]]. pose proof (is_queue_covers _ _ _ _ Hq) as Hcov.
  assert (Hlk : forall i x, (retain_ne id (qa ++ qw)) !! i = Some x -> x <> id /\ exists r,
     ts !! (team, x) = Some r /\ open_of team agent (team, x) r
     /\ released ts team agent (qa ++ qw) id !! (team, x)
        = Some (set_position (Some (Z.of_nat i + 1)) r)).
  { intros i x Hi. pose proof (list_elem_of_lookup_2 _ _ _ Hi) as [Hne Hx]%elem_of_retain_ne.
    split; [done|]. apply Hcov in Hx as (r & Hr & Ho). exists r. split_and!; [done..|].
    unfold released. rewrite renumbered_lookup, shifted_lookup, Hr. simpl.
    rewrite !decide_True by done. rewrite (position_of_lookup _ _ i); [done| |done].
    apply NoDup_retain_ne. by eapply is_queue_NoDup. }
  assert (Hst : forall s x, x ∈ retain_ne id (qa ++ qw) -> state_at ts team s x ->
     state_at (<[(team, id) := r']> (released ts team agent (qa ++ qw) id)) team s x).
  { intros s x [i Hi]%list_elem_of_lookup (r & Hr & Hs).
    destruct (Hlk _ _ Hi) as (Hne & r0 & Hr0 & _ & Hrel). simplify_eq.
    rewrite state_at_insert_ne by done. eexists. split; [exact Hrel|]. done. }
  split; [split|split].
  - rewrite <- retain_ne_app. intros i x Hi. destruct (Hlk _ _ Hi) as (Hne & r & Hr & Ho & Hrel).
    rewrite lookup_insert_ne by congruence. eexists. split_and!; [exact Hrel|done..].
  - rewrite <- retain_ne_app. intros x r Hr Ho. apply list_elem_of_lookup.
    apply lookup_insert_Some in Hr as [[[= ->] <-]|[Hne Hr]].
    + destruct Ho as (_ & Ha' & Hs'). naive_solver.
    + apply elem_of_retain_ne. split; [congruence|]. apply released_row in Hr as (r0 & p & Hr0 & ->).
      apply Hcov. by exists r0.
  - rewrite Forall_forall in Ha |- *. intros x Hx. apply elem_of_retain_ne in Hx as Hx'.
    apply Hst; [rewrite retain_ne_app; set_solver|by apply Ha, Hx'].
  - rewrite Forall_forall in Hw |- *. intros x Hx. apply elem_of_retain_ne in Hx as Hx'.
    apply Hst; [rewrite retain_ne_app; set_solver|by apply Hw, Hx'].
Qed.

(** ** The new row *)

Section NewRow.
Context (record : Message) (id : TaskId) (message_id : AtmMessageId) (at_ : IsoTimestamp).
Local Abbreviation team := (msg_team record).
Local Abbreviation agent := (msg_agent record).

Definition new_row (temporary : Z) : TaskSqlRow :=
  assigned_row record temporary message_id at_ TaskState_Assigned.

Lemma new_row_check temporary : 1 <= temporary -> task_row_check (new_row temporary) = true.
Proof.
  intros Ht. unfold task_row_check. simpl. rewrite !andb_true_iff.
  split_and!; try apply bool_decide_eq_true_2; done.
Qed.

(** Parked after the last task of the new assignee, the row meets no index. *)
Lemma new_row_no_clash ts q :
  table_ok ts -> is_queue ts team agent q ->
  forall k' r', ts !! k' = Some r' ->
    ~ position_clash (team, id) (new_row (Z.of_nat (length q) + 1)) k' r'.
Proof.
  intros Hok Hq [t x] r' Hr' (Hne & Ht & _ & Hs & Ha & _ & Hp). simpl in *. subst t.
  destruct (proj2 Hq x r' Hr') as [i Hi]; [by split_and!|].
  destruct (proj1 Hq _ _ Hi) as (r0 & Hr0 & _ & Hp0). simplify_eq.
  apply lookup_lt_Some in Hi. rewrite Hp0 in Hp. injection Hp as Hp. lia.
Qed.

Lemma new_row_is_queue ts q :
  (forall r, ts !! (team, id) = Some r -> ~ open_of team agent (team, id) r) ->
  is_queue ts team agent q ->
  is_queue (<[(team, id) := new_row (Z.of_nat (length q) + 1)]> ts) team agent (q ++ [id]).
Proof.
  intros Hno [H1 H2]. split.
  - intros i x [Hi|(Hi & Hx)]%lookup_app_Some.
    + destruct (H1 _ _ Hi) as (r & Hr & Ho & Hp). exists r.
      rewrite lookup_insert_ne; [done|]. intros [= <-]. by apply (Hno r).
    + apply list_lookup_singleton_Some in Hx as [Hi0 <-]. eexists.
      rewrite lookup_insert_eq. split_and!; [done..|]. simpl. f_equal. lia.
  - intros x r Hr Ho. apply lookup_insert_Some in Hr as [[[= <-] <-]|[Hne Hr]].
    + exists (length q). rewrite lookup_app_r, Nat.sub_diag by lia. done.
    + destruct (H2 x r Hr Ho) as [i Hi]. exists i. by apply lookup_app_l_Some.
Qed.
End NewRow.

(** ** The other members *)

(** Task [(team, id)] taken out of a queue of [team']. *)
Definition drop_task (team : TeamName) (id : TaskId) (team' : TeamName) (q : list TaskId)
    : list TaskId :=
  if decide (team' = team) then retain_ne id q else q.

(** Every member but the new assignee keeps its queue without the task. *)
Definition others_drop (ts ts' : gmap TaskKey TaskSqlRow) (team : TeamName) (id : TaskId)
    (agent : AgentName) : Prop :=
  forall team' agent' qa qw, (team', agent') <> (team, agent) ->
    member_queue ts team' agent' qa qw ->
    member_queue ts' team' agent' (drop_task team id team' qa) (drop_task team id team' qw).

Lemma drop_task_notin ts team id team' agent' qa qw :
  member_queue ts team' agent' qa qw ->
  (forall r, ts !! (team, id) = Some r -> ~ open_of team' agent' (team, id) r) ->
  drop_task team id team' qa = qa /\ drop_task team id team' qw = qw.
Proof.
  intros Hm Hno. unfold drop_task. destruct (decide (team' = team)) as [->|]; [|done].
  assert (id ∉ qa ++ qw) as Hn.
  { intros Hin. destruct (member_queue_open _ _ _ _ _ _ Hm Hin) as (r & Hr & Ho). by apply (Hno r). }
  split; apply retain_ne_notin; set_solver.
Qed.

Lemma others_drop_closed ts team id agent r' :
  (forall r, ts !! (team, id) = Some r -> t_state r = "complete") -> t_assignee r' = agent ->
  others_drop ts (<[(team, id) := r']> ts) team id agent.
Proof.
  intros Hcl Hag team' agent' qa qw Hne Hm.
  assert (Hno : forall r, ts !! (team, id) = Some r -> ~ open_of team' agent' (team, id) r).
  { intros r Hr (_ & _ & Hs). by apply Hs, Hcl. }
  destruct (drop_task_notin _ _ _ _ _ _ _ Hm Hno) as [-> ->].
  apply member_queue_insert_other; [done| |done]. intros (Ht & Ha & _). simpl in *. congruence.
Qed.

Lemma others_drop_released ts team id a0 agent qa0 qw0 r' :
  member_queue ts team a0 qa0 qw0 -> id ∈ qa0 ++ qw0 -> a0 <> agent -> t_assignee r' = agent ->
  others_drop ts (<[(team, id) := r']> (released ts team a0 (qa0 ++ qw0) id)) team id agent.
Proof.
  intros Hm0 Hin Hne0 Hag team' agent' qa qw Hne Hm.
  destruct (decide ((team', agent') = (team, a0))) as [[= -> ->]|Hne'].
  - destruct (member_queue_open _ _ _ _ _ _ Hm0 Hin) as (r & Hr & Ho).
    assert (member_queue (<[(team, id) := r']> (released ts team a0 (qa0 ++ qw0) id)) team a0
              (retain_ne id qa) (retain_ne id qw)) as Hrel.
    { pose proof (is_queue_unique _ _ _ _ _ (proj1 Hm) (proj1 Hm0)) as <-.
      apply released_member_queue; [done|]. left. congruence. }
    unfold drop_task. by rewrite !decide_True.
  - destruct (member_queue_open _ _ _ _ _ _ Hm0 Hin) as (r & Hr & Ho).
    assert (Hno : forall r, ts !! (team, id) = Some r -> ~ open_of team' agent' (team, id) r).
    { intros r1 Hr1. assert (r1 = r) as -> by congruence. by eapply open_other_member. }
    destruct (drop_task_notin _ _ _ _ _ _ _ Hm Hno) as [-> ->].
    apply member_queue_insert_other.
    + intros r1 (r0 & p & Hr0 & ->)%released_row. by apply (Hno r0).
    + intros (Ht & Ha & _). simpl in *. congruence.
    + revert Hne' Hm. pose proof (is_queue_covers _ _ _ _ (proj1 Hm0)) as Hcov.
      apply others_keep_pointwise; intros k r1 Hr1 Hno1; by apply (released_other ts team a0 (qa0 ++ qw0) id k r1).
Qed.

Lemma renumbered_id ts team agent q : is_queue ts team agent q -> renumbered ts team q = ts.
Proof.
  intros Hq. apply map_eq. intros k. rewrite renumbered_lookup.
  destruct (ts !! k) as [r|] eqn:Hr; simpl; [|done].
  destruct (decide (k.1 = team)) as [Ht|]; [|done].
  destruct (position_of k.2 q) as [i|] eqn:Hi; [|done].
  apply position_of_Some in Hi. destruct (proj1 Hq _ _ Hi) as (r0 & Hr0 & _ & Hp).
  destruct k as [t x]; simpl in *; subst. simplify_eq. by rewrite <- Hp, set_position_id.
Qed.

(** What the ledger holds for the task before the assignment, as the code reads
    it: nothing, a closed row, or a row open for another member. *)
Inductive prior (ts : gmap TaskKey TaskSqlRow) (team : TeamName) (id : TaskId) (agent : AgentName)
    : option TaskRow -> Prop :=
| prior_none : ts !! (team, id) = None -> prior ts team id agent None
| prior_closed r row :
    ts !! (team, id) = Some r -> row_view (team, id) r row -> t_state r = "complete" ->
    prior ts team id agent (Some row)
| prior_open r row :
    ts !! (team, id) = Some r -> row_view (team, id) r row -> t_state r <> "complete" ->
    t_assignee r <> agent -> prior ts team id agent (Some row).

Section Assign.
Context {rt : Runtime} {rtok : RuntimeOk rt}.

Lemma renumber_same team agent q w :
  sql_ok (tasks (db w)) -> is_queue (tasks (db w)) team agent q ->
  2 * Z.of_nat (length q) < u32_max -> renumber_queue team agent q w = (Ok tt, w).
Proof.
  intros Hsql Hq Hlen. destruct (renumber_queue_run team agent q w) as [Hrun _]; [done|..].
  - by eapply is_queue_NoDup.
  - by eapply is_queue_covers.
  - eapply renumber_bound_ok; [done..|lia].
  - rewrite Hrun, (renumbered_id _ _ _ _ Hq). by destruct w as [[] ?].
Qed.

(** What the release leaves in the table [ts0]: the new assignee's queue still
    stands, the task is in no way of it, and once the task's row is rewritten
    for the new assignee every other queue stands without the task. *)
Definition release_ok (record : Message) (id : TaskId) (row : option TaskRow) (w : World)
    (ts0 : gmap TaskKey TaskSqlRow) : Prop :=
  let team := msg_team record in
  let agent := msg_agent record in
  release_previous_assignment record id row w = (Ok tt, with_db (set_tasks ts0) w)
  /\ sql_ok ts0 /\ readable ts0
  /\ (forall qa qw, member_queue (tasks (db w)) team agent qa qw ->
        member_queue ts0 team agent qa qw)
  /\ (forall r, ts0 !! (team, id) = Some r -> ~ open_of team agent (team, id) r)
  /\ (row = None <-> ts0 !! (team, id) = None)
  /\ rows_kept (tasks (db w)) ts0 (team, id)
  /\ forall r', t_assignee r' = agent -> t_state r' <> "complete" ->
       sql_ok (<[(team, id) := r']> ts0) ->
       others_drop (tasks (db w)) (<[(team, id) := r']> ts0) team id agent
       /\ forall w', tasks (db w') = <[(team, id) := r']> ts0 ->
            renumber_previous_assignment record row w' = (Ok tt, w').

Lemma release_nothing record id row w :
  ledger_ok (tasks (db w)) -> queues_bounded (tasks (db w)) ->
  (row = None <-> tasks (db w) !! (msg_team record, id) = None) ->
  (forall r, tasks (db w) !! (msg_team record, id) = Some r -> t_state r = "complete") ->
  match row with Some row => is_open (row_state row) = false | None => True end ->
  release_ok record id row w (tasks (db w)).
Proof.
  intros Hl Hb Hnone Hcl Hrow.
  assert (Hrun : forall w', release_previous_assignment record id row w' = (Ok tt, w')
                            /\ renumber_previous_assignment record row w' = (Ok tt, w')).
  { intros w'. unfold release_previous_assignment, renumber_previous_assignment.
    destruct row as [row|]; [|done]. by rewrite Hrow. }
  unfold release_ok. split_and!; try done.
  - rewrite (proj1 (Hrun w)). by destruct w as [[] ?].
  - apply Hl.
  - auto with atm.
  - intros r Hr (_ & _ & Ho). by apply Ho, Hcl.
  - apply rows_kept_refl.
  - intros r' Ha _ _. split; [by apply others_drop_closed|]. intros w' _. apply Hrun.
Qed.

Lemma released_repositioned ts team agent q id k :
  option_Forall2 repositioned (ts !! k) (released ts team agent q id !! k).
Proof.
  unfold released. etrans; [|apply renumbered_repositioned]. rewrite shifted_lookup.
  destruct (ts !! k) as [r|]; simpl; constructor. destruct (decide _); [by eexists|done].
Qed.

Lemma release_open record id r row w :
  let team := msg_team record in
  ledger_ok (tasks (db w)) -> queues_bounded (tasks (db w)) ->
  tasks (db w) !! (team, id) = Some r -> row_view (team, id) r row ->
  t_state r <> "complete" -> t_assignee r <> msg_agent record ->
  exists ts0, release_ok record id (Some row) w ts0.
Proof.
  intros team Hl Hb Hr Hv Hs Hne. pose proof Hl as (Hsql & _ & Hall).
  apply (view_open _ _ _ Hv) in Hs as Hop. set (a0 := t_assignee r) in *.
  pose proof (view_assignee _ _ _ Hv) as Hag. fold a0 in Hag.
  destruct (Hall team a0) as (qa0 & qw0 & Hm0). pose proof (proj1 Hm0) as Hq0.
  pose proof (is_queue_covers _ _ _ _ Hq0) as Hcov.
  assert (Ho : open_of team a0 (team, id) r) by by split_and!.
  assert (Hin : id ∈ qa0 ++ qw0) by (apply Hcov; eauto).
  destruct (release_run team a0 (qa0 ++ qw0) id w Hsql Hb Hq0 Hin) as [Hrun Hsql0].
  exists (released (tasks (db w)) team a0 (qa0 ++ qw0) id).
  unfold release_ok, release_previous_assignment, renumber_previous_assignment. fold team.
  rewrite Hop, Hag. split_and!; try done.
  - run (queue_order_run team a0 (qa0 ++ qw0) w Hq0). exact Hrun.
  - by eapply released_readable.
  - intros qa qw. apply (others_keep_pointwise _ _ team a0); [..|congruence];
      intros k r1 Hr1 Hno1; by apply (released_other (tasks (db w)) team a0 (qa0 ++ qw0) id k r1).
  - intros r1 (r0 & p & Hr0 & ->)%released_row (_ & Ha & _). simplify_eq.
  - split; [done|]. unfold released. rewrite renumbered_lookup, shifted_lookup, Hr. done.
  - intros k _. apply released_repositioned.
  - intros r' Ha Hs' Hsql1. split; [by apply others_drop_released|]. intros w' Hw'.
    assert (Hq' : is_queue (tasks (db w')) team a0 (retain_ne id qa0 ++ retain_ne id qw0)).
    { rewrite Hw'. apply released_member_queue; [done|]. left. congruence. }
    run (queue_order_run team a0 _ w' Hq'). apply renumber_same; [by rewrite Hw'|done|].
    pose proof (queue_len_bound _ _ _ _ Hb Hq0). rewrite <- retain_ne_app. unfold retain_ne.
    pose proof (length_filter (fun x : TaskId => x <> id) (qa0 ++ qw0)). lia.
Qed.

Lemma release_cases record id row w :
  ledger_ok (tasks (db w)) -> queues_bounded (tasks (db w)) ->
  prior (tasks (db w)) (msg_team record) id (msg_agent record) row ->
  exists ts0, release_ok record id row w ts0.
Proof.
  intros Hl Hb [Hn|r row' Hr Hv Hs|r row' Hr Hv Hs Hne].
  - exists (tasks (db w)). apply release_nothing; [done|done|by rewrite Hn| |done].
    intros r Hr. congruence.
  - exists (tasks (db w)). apply release_nothing; [done|done|by rewrite Hr| |].
    + intros r0 Hr0. by simplify_eq.
    + destruct (is_open (row_state row')) eqn:Hop; [|done]. by apply (view_open _ _ _ Hv) in Hop.
  - by eapply release_open.
Qed.

(** The row is stored, whether it is new or rewritten. *)
Lemma assignment_row_run record id row temporary message_id at_ w :
  (row = None <-> tasks (db w) !! (msg_team record, id) = None) ->
  1 <= temporary ->
  (forall k' r', tasks (db w) !! k' = Some r' ->
     ~ position_clash (msg_team record, id) (new_row record message_id at_ temporary) k' r') ->
  sql_ok (tasks (db w)) ->
  let ts1 := <[(msg_team record, id) := new_row record message_id at_ temporary]> (tasks (db w)) in
  apply_task_assignment_row record id row temporary message_id at_ TaskState_Assigned w
  = (Ok tt, with_db (set_tasks ts1) w)
  /\ sql_ok ts1.
Proof.
  intros Hrow Ht Hnc Hsql ts1. pose proof (new_row_check record message_id at_ temporary Ht) as Hc.
  assert (Hst : store_task_row (msg_team record, id) (new_row record message_id at_ temporary)
                  (tasks (db w)) = Some ts1) by (by apply store_task_row_Some).
  split; [|by eapply store_task_row_sql_ok]. unfold apply_task_assignment_row.
  fold (new_row record message_id at_ temporary). destruct row as [row|].
  - destruct (tasks (db w) !! (msg_team record, id)) as [r|] eqn:Hr.
    + by eapply (update_task_run _ _ r (fun _ => new_row record message_id at_ temporary)).
    + by specialize (proj2 Hrow eq_refl).
  - unfold insert_task. run run_get_db. by rewrite (proj1 Hrow eq_refl), Hst.
Qed.

Definition assign_draft (record : Message) (id : TaskId) (row : option TaskRow)
    (message_id : AtmMessageId) (at_ : IsoTimestamp) : TaskEventDraft :=
  {| draft_team := msg_team record;
     draft_task_id := id;
     draft_assignee := msg_agent record;
     draft_at := at_;
     draft_event :=
       if match row with Some r => negb (is_open (row_state r)) | None => false end
       then TaskEventKind_Reopened
       else if bool_decide (is_Some row) then TaskEventKind_Reassigned
       else TaskEventKind_Assigned;
     draft_from_state := (fun r => tag (row_state r)) <$> row;
     draft_to_state := Some TaskStateTag_Assigned;
     draft_close_outcome := row ≫= fun r => close_outcome (row_state r);
     draft_actor := env_from (msg_envelope record);
     draft_message_id := Some message_id;
     draft_outcome := None;
     draft_marker := None;
     draft_detail := None |}.

(** The kind of event an assignment logs. *)
Definition assign_kind (row : option TaskRow) : TaskEventKind :=
  match row with
  | None => TaskEventKind_Assigned
  | Some r => if is_open (row_state r) then TaskEventKind_Reassigned else TaskEventKind_Reopened
  end.

Lemma assign_append_run record id row message_id at_ w :
  exists ev, append_assignment_event record id row
      (match row with Some r => negb (is_open (row_state r)) | None => false end)
      message_id at_ TaskState_Assigned w
    = (Ok ev, with_db (logged (assign_draft record id row message_id at_)) w)
    /\ appended (db w) (logged (assign_draft record id row message_id at_) (db w)) [ev]
    /\ ev_event ev = assign_kind row
    /\ ev_to_state ev = Some TaskState_Assigned /\ ev_from_state ev = row_state <$> row.
Proof.
  assert (Hf : task_event_state (draft_from_state (assign_draft record id row message_id at_))
     (draft_close_outcome (assign_draft record id row message_id at_)) = Ok (row_state <$> row)).
  { destruct row as [row|]; [|done]. simpl. by destruct (row_state row). }
  assert (Ht : task_event_state (draft_to_state (assign_draft record id row message_id at_))
     (draft_close_outcome (assign_draft record id row message_id at_)) = Ok (Some TaskState_Assigned))
    by done.
  eexists. split; [by apply append_task_event_run|]. split; [by apply logged_appended|].
  split; [|done]. destruct row as [row|]; [|done]. simpl. by destruct (is_open (row_state row)).
Qed.

(** The table an assignment leaves. *)
Definition assigned_tasks (ts ts' : gmap TaskKey TaskSqlRow) (record : Message) (id : TaskId)
    (message_id : AtmMessageId) (at_ : IsoTimestamp) (qa qw' : list TaskId) : Prop :=
  let team := msg_team record in
  ledger_ok ts' /\ member_queue ts' team (msg_agent record) qa qw'
  /\ others_drop ts ts' team id (msg_agent record) /\ rows_kept ts ts' (team, id)
  /\ exists p, ts' !! (team, id) = Some (new_row record message_id at_ p).

(** The queue of the new assignee once the new row is in place. *)
Lemma assign_reorder record id message_id at_ ts qa qw qw' placement w1 ts0 :
  let team := msg_team record in
  let agent := msg_agent record in
  let ts1 := <[(team, id) := new_row record message_id at_ (Z.of_nat (length (qa ++ qw)) + 1)]> ts0 in
  ledger_ok ts -> tasks (db w1) = ts1 -> sql_ok ts1 -> counts_ok ts0 ->
  others_drop ts ts1 team id agent -> rows_kept ts ts0 (team, id) ->
  member_queue ts0 team agent qa qw ->
  (forall r, ts0 !! (team, id) = Some r -> ~ open_of team agent (team, id) r) ->
  2 * Z.of_nat (length (qa ++ qw)) < u32_max ->
  place placement id (retain_ne id qw) = Some qw' ->
  exists ts', renumber_queue team agent (qa ++ qw') w1 = (Ok tt, with_db (set_tasks ts') w1)
    /\ assigned_tasks ts ts' record id message_id at_ qa qw'.
Proof.
  intros team agent ts1 Hl Hw1 Hsql1 Hc0 Hdrop Hkept Hm0 Hno Hlen Hpl.
  pose proof Hm0 as [Hq0 [Ha Hw]].
  assert (Hnin : id ∉ qa ++ qw).
  { intros Hin. destruct (member_queue_open _ _ _ _ _ _ Hm0 Hin) as (r & Hr & Ho). by apply (Hno r). }
  destruct (place_order ts0 team agent qa qw id placement qw' Hm0) as (Hnd & Hin & Hmem & Hle);
    [set_solver|done|].
  pose proof (new_row_is_queue record id message_id at_ ts0 (qa ++ qw) Hno Hq0) as Hq1.
  change (is_queue ts1 team agent ((qa ++ qw) ++ [id])) in Hq1.
  destruct (reorder_run team agent qa qw' w1) as (Hrun & Hl' & Hm' & Hoth'); rewrite ?Hw1.
  - intros team' agent' Hne. destruct Hl as (_ & _ & Hall).
    destruct (Hall team' agent') as (qa' & qw1 & Hm1). eexists _, _. by apply Hdrop.
  - done.
  - apply map_Forall_insert_2; [|done]. simpl. unfold u32_max. lia.
  - done.
  - intros x. pose proof (is_queue_covers _ _ _ _ Hq1 x) as Hcx.
    rewrite (elem_of_app (qa ++ qw)), list_elem_of_singleton in Hcx. rewrite Hmem. tauto.
  - unfold ts1. split; [apply Forall_state_insert_ne; [set_solver|done]|].
    rewrite Forall_forall in Hw |- *. intros x Hx. destruct (decide (x = id)) as [->|Hne].
    + eexists. by rewrite lookup_insert_eq.
    + apply state_at_insert_ne; [done|].
      assert (x ∈ qa ++ qw') as Hx'%Hmem by set_solver. destruct Hx' as [|Hx'%elem_of_app]; [done|].
      apply NoDup_app in Hnd as (_ & Hdis & _). apply Hw. naive_solver.
  - rewrite (max_position_queue _ _ _ _ Hq1), length_app. simpl.
    unfold u32_max, i64_max in *. lia.
  - rewrite Hw1 in Hrun, Hl', Hm', Hoth'. eexists. split; [exact Hrun|].
    unfold assigned_tasks. fold team agent. split_and!; [done|done| | |].
    + intros team' agent' qa1 qw1 Hne Hm1. apply Hoth'; [done|]. by apply Hdrop.
    + by apply rows_kept_renumbered, rows_kept_insert.
    + rewrite renumbered_lookup. unfold ts1. rewrite lookup_insert_eq. simpl.
      rewrite decide_True by done. destruct (position_of id (qa ++ qw')); by eexists.
Qed.

Lemma prior_not_queued ts team agent id row qa qw :
  prior ts team id agent row -> member_queue ts team agent qa qw -> id ∉ qa ++ qw.
Proof.
  intros Hpr Hm Hin. destruct (member_queue_open _ _ _ _ _ _ Hm Hin) as (r & Hr & _ & Ha & Hs).
  destruct Hpr; congruence.
Qed.

Lemma position_u32_run id (order : list TaskId) :
  id ∈ order -> Z.of_nat (length order) <= u32_max ->
  exists p, position_u32 id order = Some p /\ 1 <= p /\ order !! Z.to_nat (p - 1) = Some id.
Proof.
  intros Hin Hlen. destruct (position_of id order) as [i|] eqn:Hi.
  2:{ by apply position_of_None in Hi. }
  pose proof (position_of_Some _ _ _ Hi) as Hlk. pose proof (lookup_lt_Some _ _ _ Hlk).
  exists (Z.of_nat i + 1). unfold position_u32. rewrite Hi. simpl. unfold u32_try_from.
  rewrite bool_decide_eq_true_2 by lia. split; [done|]. split; [lia|].
  by replace (Z.to_nat (Z.of_nat i + 1 - 1)) with i by lia.
Qed.

(** The optional [Moved] event of an explicit placement. *)
Lemma assign_moved_run (placement : option MoveTarget) draft w :
  task_event_state (draft_from_state draft) (draft_close_outcome draft) = Ok (Some TaskState_Assigned) ->
  task_event_state (draft_to_state draft) (draft_close_outcome draft) = Ok (Some TaskState_Assigned) ->
  exists moved d', (match placement with
                    | None => mret None
                    | Some _ => Some <$> append_task_event draft
                    end : M (option TaskEventRow)) w = (Ok moved, mkWorld d' (ticks w))
    /\ appended (db w) d' (option_list moved) /\ (is_Some moved <-> is_Some placement).
Proof.
  intros Hf Ht. destruct placement.
  - do 2 eexists. split; [apply run_fmap; by apply append_task_event_run|].
    split; [by apply logged_appended|]. split; by eexists.
  - exists None, (db w). split; [by destruct w|]. split; [apply appended_nil|done].
Qed.

(** The events of an assignment: what happened to the task, and a [Moved] event
    exactly when the sender asked for a place in the queue. *)
Definition assignment_logged (row : option TaskRow) (placement : option MoveTarget)
    (ev : TaskEventRow) (moved : option TaskEventRow) : Prop :=
  ev_event ev = assign_kind row /\ ev_from_state ev = row_state <$> row
  /\ ev_to_state ev = Some TaskState_Assigned /\ (is_Some moved <-> is_Some placement).

Lemma persist_run record id placement row message_id at_ qa qw qw' w :
  let team := msg_team record in
  let agent := msg_agent record in
  ledger_ok (tasks (db w)) -> queues_bounded (tasks (db w)) ->
  prior (tasks (db w)) team id agent row -> member_queue (tasks (db w)) team agent qa qw ->
  place (default MoveTarget_End placement) id (retain_ne id qw) = Some qw' ->
  exists ev moved ts' d',
    persist_task_assignment record id placement row message_id at_ TaskState_Assigned w
    = (Ok (qa ++ qw', ev :: option_list moved), mkWorld d' (ticks w))
    /\ appended (set_tasks ts' (db w)) d' (ev :: option_list moved)
    /\ assigned_tasks (tasks (db w)) ts' record id message_id at_ qa qw'
    /\ assignment_logged row placement ev moved.
Proof.
  intros team agent Hl Hb Hpr Hm Hpl. unfold persist_task_assignment. fold team agent.
  pose proof (prior_not_queued _ _ _ _ _ _ _ Hpr Hm) as Hnin.
  destruct (release_cases record id row w Hl Hb Hpr)
    as (ts0 & Hrel & Hsql0 & Hrd0 & Hm0 & Hno0 & Hnone & Hkept & Hnext).
  fold team agent in Hm0, Hno0, Hnone, Hkept, Hnext.
  specialize (Hm0 qa qw Hm). run Hrel.
  run (queue_order_run team agent (qa ++ qw) (with_db (set_tasks ts0) w) (proj1 Hm0)).
  pose proof (insert_at_placement_run (default MoveTarget_End placement) id team agent qa qw
    (with_db (set_tasks ts0) w) Hrd0 Hm0 ltac:(set_solver)) as Hins. rewrite Hpl in Hins. run Hins.
  assert (Hlen' : length (qa ++ qw') = S (length (qa ++ qw))).
  { rewrite !length_app, (place_perm _ _ _ _ Hpl), retain_ne_notin by set_solver. simpl. lia. }
  pose proof (queue_len_bound _ _ _ _ Hb (proj1 Hm)) as Hlen.
  rewrite Hlen'. erewrite run_bind by (apply run_ok_or; unfold u32_try_from;
    by rewrite bool_decide_eq_true_2 by lia). cbv beta.
  assert (Z.of_nat (S (length (qa ++ qw))) = Z.of_nat (length (qa ++ qw)) + 1) as -> by lia.
  destruct (assignment_row_run record id row (Z.of_nat (length (qa ++ qw)) + 1) message_id at_
    (with_db (set_tasks ts0) w)) as [Hrow Hsql1]; [done|lia| |done|].
  { apply new_row_no_clash; [apply Hsql0|apply Hm0]. }
  run Hrow. set (w1 := with_db (set_tasks _) (with_db (set_tasks ts0) w)).
  destruct (Hnext (new_row record message_id at_ (Z.of_nat (length (qa ++ qw)) + 1)))
    as [Hdrop Hprev]; [done..|]. run (Hprev w1 eq_refl).
  destruct (assign_reorder record id message_id at_ (tasks (db w)) qa qw qw'
    (default MoveTarget_End placement) w1 ts0) as (ts' & Hren & Has);
    [done|done|done|apply Hrd0|done..|].
  run Hren.
  destruct (position_u32_run id (qa ++ qw')) as (p & Hp & _);
    [rewrite (place_perm _ _ _ _ Hpl); set_solver|lia|].
  erewrite run_bind by (by apply run_ok_or). cbv beta.
  destruct (assign_append_run record id row message_id at_ (with_db (set_tasks ts') w1))
    as (ev & Hev & Happ & Hkind & Hto & Hfrom). run Hev.
  edestruct (assign_moved_run placement) as (moved & d' & Hmv & Hmapp & Hiff); cycle 2.
  { run Hmv. exists ev, moved, ts', d'. split_and!; [done| |done..].
    apply (appended_trans _ _ _ [ev] _ Happ Hmapp). }
  all: done.
Qed.

Lemma placement_refused record id placement row message_id at_ qa qw w :
  ledger_ok (tasks (db w)) -> queues_bounded (tasks (db w)) ->
  prior (tasks (db w)) (msg_team record) id (msg_agent record) row ->
  member_queue (tasks (db w)) (msg_team record) (msg_agent record) qa qw ->
  place (default MoveTarget_End placement) id (retain_ne id qw) = None ->
  exists other w', persist_task_assignment record id placement row message_id at_
      TaskState_Assigned w = (Err (placement_error id other (msg_agent record)), w')
    /\ placement = Some (MoveTarget_Before other) /\ other ∉ qw.
Proof.
  intros Hl Hb Hpr Hm Hpl. unfold persist_task_assignment.
  pose proof (prior_not_queued _ _ _ _ _ _ _ Hpr Hm) as Hnin.
  destruct (release_cases record id row w Hl Hb Hpr)
    as (ts0 & Hrel & Hsql0 & Hrd0 & Hm0 & _). specialize (Hm0 qa qw Hm). run Hrel.
  run (queue_order_run (msg_team record) (msg_agent record) (qa ++ qw)
         (with_db (set_tasks ts0) w) (proj1 Hm0)).
  pose proof (insert_at_placement_run (default MoveTarget_End placement) id (msg_team record)
    (msg_agent record) qa qw (with_db (set_tasks ts0) w) Hrd0 Hm0 ltac:(set_solver)) as Hins.
  apply place_None in Hpl as Hpl'. destruct Hpl' as (other & Hdef & Hno).
  rewrite Hpl, Hdef in Hins. rewrite Hdef. exists other. eexists. split; [by run_err Hins|].
  rewrite retain_ne_notin in Hno by set_solver. split; [|done].
  by destruct placement as [p|]; simpl in Hdef; [subst|].
Qed.

(** The former assignee, when an open task changes hands. *)
Definition previous_of (row : option TaskRow) (agent : AgentName) : option AgentName :=
  match row with
  | Some r => if is_open (row_state r) && bool_decide (row_assignee r <> agent)
              then Some (row_assignee r) else None
  | None => None
  end.

(** The tail of a placed assignment: the notice to the former assignee. *)
Definition notified (record : Message) (id : TaskId) (previous : option AgentName)
    (position : Z) (evs : list TaskEventRow) : M TaskAssignmentApplied :=
  notice ← match previous with
           | None => mret None
           | Some old => Some <$> insert_reassign_notice record id old
           end;
  mret (mkTaskAssignmentApplied position notice evs).

(** Every branch of an assignment. *)
Inductive assign_branch (record : Message) (id : TaskId) (placement : option MoveTarget)
    (w : World) : Outcome AtmError TaskAssignmentApplied * World -> Prop :=
| assign_no_message_id e :
    env_message_id (msg_envelope record) = None -> assign_branch record id placement w (Err e, w)
| assign_refreshed r message_id :
    env_message_id (msg_envelope record) = Some message_id ->
    tasks (db w) !! (msg_team record, id) = Some r -> t_state r <> "complete" ->
    t_assignee r = msg_agent record ->
    assign_branch record id placement w
      (Ok (mkTaskAssignmentApplied (default 1 (t_position r)) None []),
       with_db (set_tasks (<[(msg_team record, id) :=
         refresh_row message_id (env_text (msg_envelope record))
           (env_timestamp (msg_envelope record)) r]> (tasks (db w)))) w)
| assign_bad_placement row qa qw other w' :
    prior (tasks (db w)) (msg_team record) id (msg_agent record) row ->
    member_queue (tasks (db w)) (msg_team record) (msg_agent record) qa qw ->
    placement = Some (MoveTarget_Before other) -> other ∉ qw ->
    assign_branch record id placement w (Err (placement_error id other (msg_agent record)), w')
| assign_placed row message_id qa qw qw' ev moved ts' d' p :
    env_message_id (msg_envelope record) = Some message_id ->
    prior (tasks (db w)) (msg_team record) id (msg_agent record) row ->
    member_queue (tasks (db w)) (msg_team record) (msg_agent record) qa qw ->
    place (default MoveTarget_End placement) id (retain_ne id qw) = Some qw' ->
    assigned_tasks (tasks (db w)) ts' record id message_id
      (env_timestamp (msg_envelope record)) qa qw' ->
    appended (set_tasks ts' (db w)) d' (ev :: option_list moved) ->
    assignment_logged row placement ev moved -> 1 <= p ->
    (qa ++ qw') !! Z.to_nat (p - 1) = Some id ->
    assign_branch record id placement w
      (notified record id (previous_of row (msg_agent record)) p (ev :: option_list moved)
         (mkWorld d' (ticks w))).

Lemma refresh_row_check m text at_ r :
  task_row_check r = true -> task_row_check (refresh_row m text at_ r) = true.
Proof. done. Qed.

(** An assignment that is not a refresh, from the row it read. *)
Lemma assign_place_branch record id placement row message_id w :
  ledger_ok (tasks (db w)) -> queues_bounded (tasks (db w)) ->
  env_message_id (msg_envelope record) = Some message_id ->
  prior (tasks (db w)) (msg_team record) id (msg_agent record) row ->
  assign_branch record id placement w
    ((persisted ← persist_task_assignment record id placement row message_id
                    (env_timestamp (msg_envelope record)) TaskState_Assigned;
      queued_position ←
        ok_or (task_move_invalid "assigned task is absent from its normalized queue")
          (position_u32 id persisted.1);
      notified record id (previous_of row (msg_agent record)) queued_position persisted.2) w).
Proof.
  intros Hl Hb Hid Hpr. pose proof Hl as (_ & _ & Hall).
  destruct (Hall (msg_team record) (msg_agent record)) as (qa & qw & Hm).
  destruct (place (default MoveTarget_End placement) id (retain_ne id qw)) as [qw'|] eqn:Hpl.
  - destruct (persist_run record id placement row message_id (env_timestamp (msg_envelope record))
      qa qw qw' w) as (ev & moved & ts' & d' & Hrun & Happ & Has & Hlog); [done..|].
    run Hrun. cbn [fst snd].
    destruct (position_u32_run id (qa ++ qw')) as (p & Hp & Hp1 & Hlk).
    { rewrite (place_perm _ _ _ _ Hpl). set_solver. }
    { pose proof (queue_len_bound _ _ _ _ Hb (proj1 Hm)).
      destruct (place_order _ _ _ _ _ id (default MoveTarget_End placement) qw' Hm) as (_ & _ & _ & Hle); [|exact Hpl|].
      - pose proof (prior_not_queued _ _ _ _ _ _ _ Hpr Hm). set_solver.
      - unfold u32_max in *. lia. }
    erewrite run_bind by (by apply run_ok_or). cbv beta.
    by eapply assign_placed.
  - destruct (placement_refused record id placement row message_id
      (env_timestamp (msg_envelope record)) qa qw w) as (other & w' & Hrun & Hp & Hno); [done..|].
    erewrite run_bind_err by exact Hrun. by eapply assign_bad_placement.
Qed.

(** Every assignment transition is allowed. *)
Lemma assigned_transition st id actor current requested :
  exists s, rejected (transition st TaskEvent_Assigned id actor current requested) = Ok s.
Proof. destruct st as [[]|]; cbn; try destruct (bool_decide _); by eexists. Qed.

(** The row the assignment reads. *)
Lemma assignment_load team id agent w :
  ledger_ok (tasks (db w)) -> queues_bounded (tasks (db w)) ->
  exists row, load_task_row team id w = (Ok row, w)
    /\ match row with
       | None => prior (tasks (db w)) team id agent None
       | Some row => exists r, tasks (db w) !! (team, id) = Some r /\ row_view (team, id) r row
       end.
Proof.
  intros Hl Hb. destruct (tasks (db w) !! (team, id)) as [r|] eqn:Hr.
  - destruct (load_task_row_some team id r w (ledger_readable _ Hl Hb) Hr) as (row & ? & ?).
    exists (Some row). eauto.
  - exists None. split; [by apply load_task_row_none|by constructor].
Qed.

(** The same member's open task is refreshed in place. *)
Lemma refresh_same_run record id message_id r row w :
  ledger_ok (tasks (db w)) -> tasks (db w) !! (msg_team record, id) = Some r ->
  row_view (msg_team record, id) r row -> is_open (row_state row) = true ->
  row_assignee row = msg_agent record ->
  refresh_same_assignment record id (Some row) message_id w
  = (Ok (Some (default 1 (t_position r))),
     with_db (set_tasks (<[(msg_team record, id) :=
       refresh_row message_id (env_text (msg_envelope record))
         (env_timestamp (msg_envelope record)) r]> (tasks (db w)))) w).
Proof.
  intros Hl Hr Hv Hop Ha. unfold refresh_same_assignment.
  rewrite Hop, bool_decide_eq_true_2 by done. cbn [andb].
  erewrite run_bind; [rewrite (view_position _ _ _ Hv); reflexivity|]. apply update_task_run; [done|..].
  - apply refresh_row_check. by apply (proj1 (proj1 Hl) (msg_team record, id)).
  - eapply same_place_no_clash; [apply Hl|done|]. apply (view_open _ _ _ Hv) in Hop. by split_and!.
Qed.

(** Any other row is closed or belongs to another member. *)
Lemma other_row_prior ts team id agent r row :
  ts !! (team, id) = Some r -> row_view (team, id) r row ->
  is_open (row_state row) && bool_decide (row_assignee row = agent) = false ->
  prior ts team id agent (Some row).
Proof.
  intros Hr Hv Hsame. destruct (is_open (row_state row)) eqn:Hop.
  - simpl in Hsame. apply bool_decide_eq_false_1 in Hsame.
    rewrite (view_assignee _ _ _ Hv) in Hsame.
    eapply prior_open; [done..| |done]. by apply (view_open _ _ _ Hv).
  - eapply prior_closed; [done..|]. pose proof (view_state _ _ _ Hv). by destruct (row_state row).
Qed.

Lemma other_row_transition row id actor agent :
  is_open (row_state row) && bool_decide (row_assignee row = agent) = false ->
  rejected (transition (Some (row_state row)) TaskEvent_Assigned id actor
    (Some (row_assignee row)) agent) = Ok TaskState_Assigned.
Proof.
  intros Hsame. destruct (row_state row); cbn [is_open andb] in Hsame; unfold rejected, transition;
    [destruct (bool_decide (Some (row_assignee row) = Some agent)); reflexivity| |reflexivity].
  apply bool_decide_eq_false_1 in Hsame. by rewrite bool_decide_eq_false_2 by congruence.
Qed.

Lemma apply_task_assignment_run record id placement w :
  ledger_ok (tasks (db w)) -> queues_bounded (tasks (db w)) ->
  assign_branch record id placement w (apply_task_assignment record id placement w).
Proof.
  intros Hl Hb. unfold apply_task_assignment.
  set (team := msg_team record). set (agent := msg_agent record).
  destruct (assignment_load team id agent w Hl Hb) as (row & Hload & Hrow). run Hload.
  destruct (env_message_id (msg_envelope record)) as [message_id|] eqn:Hmid; cycle 1.
  { destruct (assigned_transition (row_state <$> row) id (env_from (msg_envelope record))
      (row_assignee <$> row) agent) as [next Hnext].
    erewrite run_bind by (by apply run_lift). erewrite run_bind_err by reflexivity.
    by apply assign_no_message_id. }
  destruct row as [row|]; cbn [fmap option_fmap option_map].
  2:{ erewrite run_bind by (by apply run_lift). erewrite run_bind by (by apply run_ok_or).
      erewrite run_bind by reflexivity. cbv beta iota. by apply (assign_place_branch record id placement None). }
  destruct Hrow as (r & Hr & Hv). pose proof (view_assignee _ _ _ Hv) as Hag.
  destruct (is_open (row_state row) && bool_decide (row_assignee row = agent)) eqn:Hsame.
  - apply andb_true_iff in Hsame as [Hop Ha%bool_decide_eq_true_1].
    destruct (assigned_transition (Some (row_state row)) id (env_from (msg_envelope record))
      (Some (row_assignee row)) agent) as [next Hnext].
    erewrite run_bind by (by apply run_lift). cbv beta.
    erewrite run_bind by (by apply run_ok_or). cbv beta.
    erewrite run_bind by (by apply (refresh_same_run record id message_id r row w Hl Hr Hv Hop Ha)).
    cbv beta iota. apply assign_refreshed; [done..| |by rewrite <- Hag].
    by apply (view_open _ _ _ Hv).
  - erewrite run_bind by (by apply run_lift, other_row_transition). cbv beta.
    erewrite run_bind by (by apply run_ok_or). cbv beta.
    erewrite run_bind by (unfold refresh_same_assignment; fold agent; rewrite Hsame; reflexivity).
    cbv beta iota. apply (assign_place_branch record id placement (Some row)); [done..|].
    by eapply other_row_prior.
Qed.
End Assign.
