(* ===== verification/TaskCloseSpec.v ===== *)
(** * Closing a task

    [apply_task_close] takes an open task out of its assignee's queue, closes
    the queue up behind it, acknowledges the assignment message and logs the
    outcome.  A report by a third party, or addressed to someone who is no
    longer the counterparty, is kept as ordinary mail and leaves the task as it
    is; so does a report on a task that is already closed. *)

From S2P Require Import Prelude ErrorCodes Types TaskState Database TaskCodec TaskQueue QueueFacts.
From S2P Require Import LedgerInv EventLog MailStore MailSpec TaskOps.
From stdpp Require Import base gmap strings list numbers sorting pretty.
Local Open Scope Z_scope.
Local Open Scope string_scope.
Local Open Scope list_scope.

(** ** The queue behind a closed task *)

Lemma open_rows_unique ts team agent l :
  StronglySorted queue_le l -> NoDup l ->
  (forall k r, (k, r) ∈ l <-> ts !! k = Some r /\ open_of team agent k r) ->
  open_rows team agent ts = l.
Proof.
  intros Hs Hnd Hmem. apply (StronglySorted_unique_strong queue_le).
  - intros [k1 r1] [k2 r2] H1 H2 H12 H21.
    apply elem_of_open_rows in H1 as [H1 (Ht1 & _)]. apply Hmem in H2 as [H2 (Ht2 & _)].
    unfold queue_le in H12, H21. cbn [fst snd] in *.
    destruct H12 as [?|[? H12]], H21 as [?|[? H21]]; try lia.
    assert (k1.2 = k2.2) by (apply (anti_symm String.le); done).
    assert (k1 = k2) as -> by (destruct k1, k2; simpl in *; congruence). congruence.
  - apply open_rows_sorted.
  - done.
  - apply NoDup_Permutation; [eapply NoDup_fmap_1, open_rows_NoDup_fst|done|].
    intros [k r]. by rewrite elem_of_open_rows, Hmem.
Qed.

Lemma StronglySorted_filter {A} (R : relation A) (P : A -> Prop) `{!forall x, Decision (P x)} l :
  StronglySorted R l -> StronglySorted R (filter P l).
Proof.
  induction 1 as [|x l Hs IH Hf]; [constructor|]. rewrite filter_cons.
  destruct (decide (P x)); [|done]. constructor; [done|].
  rewrite Forall_forall in Hf |- *. intros y [_ Hy]%list_elem_of_filter. by apply Hf.
Qed.

Lemma open_rows_closed ts team agent k r' :
  t_state r' = "complete" ->
  open_rows team agent (<[k := r']> ts) = filter (fun kr => kr.1 <> k) (open_rows team agent ts).
Proof.
  intros Hc. apply open_rows_unique.
  - apply StronglySorted_filter, open_rows_sorted.
  - apply NoDup_filter. eapply NoDup_fmap_1, open_rows_NoDup_fst.
  - intros k0 r0. rewrite list_elem_of_filter, elem_of_open_rows, lookup_insert_Some. simpl. split.
    + intros (Hne & Hr & Ho). split; [right; split; [by apply not_eq_sym|done]|done].
    + intros [[[<- <-]|[Hne Hr]] Ho]; [by destruct Ho as (_ & _ & ?)|].
      split_and!; [by apply not_eq_sym|done|done].
Qed.

Lemma max_position_filter (P : TaskKey * TaskSqlRow -> Prop) `{!forall x, Decision (P x)} rows :
  max_position (filter P rows) <= max_position rows.
Proof.
  apply max_position_lub; [apply max_position_nonneg|].
  intros kr [_ Hin]%list_elem_of_filter. by apply max_position_ub.
Qed.

Lemma fmap_filter_ids team id (rows : list (TaskKey * TaskSqlRow)) :
  Forall (fun kr => kr.1.1 = team) rows ->
  (fun kr => kr.1.2) <$> filter (fun kr => kr.1 <> (team, id)) rows
  = retain_ne id ((fun kr => kr.1.2) <$> rows).
Proof.
  unfold retain_ne. induction 1 as [|[[t x] r] rows Ht _ IH]; [done|].
  cbn [fst] in Ht. subst t. rewrite fmap_cons, !filter_cons. cbn [fst snd].
  destruct (decide (x = id)) as [->|Hne].
  - rewrite !decide_False by naive_solver. exact IH.
  - rewrite !decide_True by congruence. rewrite fmap_cons. by rewrite IH.
Qed.

Lemma queue_order_closed {rt : Runtime} team agent q id r' w ts :
  is_queue ts team agent q -> t_state r' = "complete" ->
  tasks (db w) = <[(team, id) := r']> ts -> queue_order team agent w = (Ok (retain_ne id q), w).
Proof.
  intros Hq Hc Hw. unfold queue_order. run run_get_db. rewrite Hw, open_rows_closed by done.
  rewrite fmap_filter_ids, (open_rows_ids _ _ _ _ Hq); [done|].
  apply Forall_forall. intros [k r] Hin. apply elem_of_open_rows in Hin as [_ (Ht & _)]. done.
Qed.

Lemma closed_row_check outcome at_ r :
  task_row_check r = true ->
  task_row_check (closed_row (TaskState_Complete outcome) outcome at_ r) = true.
Proof.
  intros _. unfold task_row_check. simpl. rewrite !andb_true_iff.
  split_and!; try apply bool_decide_eq_true_2; try done. by destruct outcome; auto.
Qed.

Section CloseWrite.
Context {rt : Runtime} {rtok : RuntimeOk rt}.

(** The table a close leaves. *)
Definition closed_tasks (ts : gmap TaskKey TaskSqlRow) (record : Message) (id : TaskId)
    (outcome : TaskCloseOutcome) (r : TaskSqlRow) (order : list TaskId)
    : gmap TaskKey TaskSqlRow :=
  renumbered (<[(msg_team record, id) :=
    closed_row (TaskState_Complete outcome) outcome (env_timestamp (msg_envelope record)) r]> ts)
    (msg_team record) order.

Lemma close_write_run record id outcome agent r qa qw w :
  let team := msg_team record in
  let order := retain_ne id qa ++ retain_ne id qw in
  let ts' := closed_tasks (tasks (db w)) record id outcome r order in
  ledger_ok (tasks (db w)) -> queues_bounded (tasks (db w)) ->
  member_queue (tasks (db w)) team agent qa qw ->
  tasks (db w) !! (team, id) = Some r -> open_of team agent (team, id) r ->
  (_ ← update_task "failed to close task" (team, id)
         (closed_row (TaskState_Complete outcome) outcome (env_timestamp (msg_envelope record)));
   order ← queue_order team agent;
   renumber_queue team agent order) w = (Ok tt, with_db (set_tasks ts') w)
  /\ ledger_ok ts' /\ member_queue ts' team agent (retain_ne id qa) (retain_ne id qw)
  /\ others_keep (tasks (db w)) ts' team agent.
Proof.
  intros team order ts' Hl Hb Hm Hr Ho. pose proof Hl as (Hsql & Hcnt & _).
  set (r' := closed_row (TaskState_Complete outcome) outcome
               (env_timestamp (msg_envelope record)) r).
  pose proof Hm as [Hq [Ha Hw]]. pose proof (is_queue_NoDup _ _ _ _ Hq) as Hnd.
  assert (Hcheck : task_row_check r' = true) by (by apply closed_row_check, (proj1 Hsql (team, id))).
  assert (Hnc : forall k' r2, tasks (db w) !! k' = Some r2 -> ~ position_clash (team, id) r' k' r2)
    by (by intros k' r2 _ (_ & _ & Hs & _)).
  set (ts1 := <[(team, id) := r']> (tasks (db w))).
  assert (Hst : store_task_row (team, id) r' (tasks (db w)) = Some ts1)
    by (by apply store_task_row_Some).
  assert (Hkeep : others_keep (tasks (db w)) ts1 team agent).
  { apply others_keep_insert; [|done]. intros r0 Hr0 _. assert (r0 = r) as -> by congruence. apply Ho. }
  destruct (reorder_run team agent (retain_ne id qa) (retain_ne id qw) (with_db (set_tasks ts1) w))
    as (Hrun & Hl' & Hm' & Hoth'); simpl.
  - by eapply others_keep_exist.
  - by eapply store_task_row_sql_ok.
  - apply map_Forall_insert_2; [|done]. exact (Hcnt _ _ Hr).
  - rewrite <- retain_ne_app. by apply NoDup_retain_ne.
  - intros x. rewrite <- retain_ne_app, elem_of_retain_ne, (is_queue_covers _ _ _ _ Hq x).
    split.
    + intros [Hne (rx & Hrx & Hox)]. exists rx. unfold ts1. by rewrite lookup_insert_ne by congruence.
    + intros (rx & Hrx & Hox). unfold ts1 in Hrx. apply lookup_insert_Some in Hrx as [[_ <-]|[Hne Hrx]].
      * by destruct Hox as (_ & _ & ?).
      * split; [congruence|eauto].
  - unfold ts1. split; (apply Forall_state_insert_ne; [rewrite elem_of_retain_ne; naive_solver|]).
    + rewrite Forall_forall in Ha |- *. intros x [_ Hx]%elem_of_retain_ne. by apply Ha.
    + rewrite Forall_forall in Hw |- *. intros x [_ Hx]%elem_of_retain_ne. by apply Hw.
  - unfold ts1. rewrite open_rows_closed by done.
    pose proof (max_position_filter (fun kr => kr.1 <> (team, id)) (open_rows team agent (tasks (db w)))).
    rewrite (max_position_queue _ _ _ _ Hq) in H. pose proof (queue_len_bound _ _ _ _ Hb Hq).
    rewrite <- retain_ne_app. unfold retain_ne.
    pose proof (length_filter (fun x : TaskId => x <> id) (qa ++ qw)). unfold u32_max, i64_max in *. lia.
  - split_and!; [|done..|by eapply others_keep_trans].
    erewrite run_bind by (by apply update_task_run). fold r' ts1.
    run (queue_order_closed team agent (qa ++ qw) id r' (with_db (set_tasks ts1) w)
           (tasks (db w)) Hq eq_refl eq_refl).
    rewrite retain_ne_app. exact Hrun.
Qed.
End CloseWrite.

(** ** The admission a close relies on *)

(** What closing a task asks of the message admission: handed a message whose
    key is already stored, it rewrites that message's display state and nothing
    else.  [Admission.v] discharges it. *)
Class ReadmitsExisting {rt : Runtime} (upsert : Message -> MessageWriteOrigin -> M UpsertResult)
    : Prop := {
  readmit_outcome : forall m w o w',
    is_Some (mail_messages (db w) !! msg_key m) -> upsert m Origin_Local w = (o, w') ->
    o <> Panic /\ ledger_same (db w) (db w') /\ mail_messages (db w') = mail_messages (db w)
    /\ (mail_ok (db w) -> mail_ok (db w'))
    /\ forall res, o = Ok res -> db w' = state_rewritten m (now_at (ticks w)) (db w)
}.

Section Close.
Context {rt : Runtime} {rtok : RuntimeOk rt}.
Context (upsert : Message -> MessageWriteOrigin -> M UpsertResult).
Context {readmits : ReadmitsExisting upsert}.

Lemma find_message_key_Some team agent id ms key :
  find_message_key team agent id ms = Some key ->
  exists r, ms !! (team, agent, key) = Some r /\ m_message_id r = Some id.
Proof.
  unfold find_message_key. intros ([[[t a] key'] r] & Hh & ->)%fmap_Some. simpl.
  rewrite head_lookup in Hh. apply list_elem_of_lookup_2, elem_of_map_to_list in Hh.
  apply map_lookup_filter_Some in Hh as [Hr [Hk Hid]]. simpl in *. simplify_eq. eauto.
Qed.

(** The assignment message of a task is acknowledged in the assignee's mailbox. *)
Definition assignment_acknowledged (d : Db) (team : TeamName) (agent : AgentName)
    (id : AtmMessageId) : Prop :=
  forall key, find_message_key team agent id (mail_messages d) = Some key ->
    exists s, mail_message_states d !! (team, agent, key) = Some s
              /\ is_Some (s_acknowledged_at s).

Lemma load_existing_message_run requested w o w' :
  load_existing_message requested w = (o, w') ->
  w' = w /\ o <> Panic
  /\ forall m, o = Ok m ->
       msg_key m = msg_key requested
       /\ env_acknowledged_at (msg_envelope m)
          = (mail_message_states (db w) !! msg_key requested ≫= s_acknowledged_at).
Proof.
  unfold load_existing_message. run run_get_db.
  destruct (mail_messages (db w) !! msg_key requested) as [row|];
    [|intros [= <- <-]; split_and!; [done..|by intros ? [=]]].
  step.
  destruct (decode_envelope (m_envelope_json row)) as [e|];
    [|intros [= <- <-]; split_and!; [done..|by intros ? [=]]].
  step. intros [= <- <-].
  split_and!; [done..|]. intros m [= <-]. split; [done|]. simpl.
  by destruct (mail_message_states (db w) !! msg_key requested).
Qed.

Lemma acknowledge_assignment_outcome record row w o w' :
  acknowledge_assignment upsert record row w = (o, w') ->
  o <> Panic /\ ledger_same (db w) (db w') /\ mail_messages (db w') = mail_messages (db w)
  /\ (mail_ok (db w) -> mail_ok (db w'))
  /\ (o = Ok tt -> assignment_acknowledged (db w') (msg_team record) (row_assignee row)
                     (row_assignment_message_id row)).
Proof.
  unfold acknowledge_assignment. run run_get_db.
  destruct (find_message_key (msg_team record) (row_assignee row)
              (row_assignment_message_id row) (mail_messages (db w))) as [key|] eqn:Hf.
  2:{ intros [= <- <-]. split_and!; try done. intros _ key' Hkey'. congruence. }
  destruct (find_message_key_Some _ _ _ _ _ Hf) as (r & Hr & _).
  set (req := mkMessage _ _ _ _).
  destruct (load_existing_message req w) as [[m|e|] w1] eqn:Hload;
    destruct (load_existing_message_run _ _ _ _ Hload) as (-> & Hnp & Hm); [..|done].
  2:{ erewrite run_bind_err by exact Hload. intros [= <- <-]. by split_and!. }
  destruct (Hm m eq_refl) as [Hkey Hack]. erewrite run_bind by exact Hload. cbv beta.
  case_bool_decide as Hnone.
  - set (acked := mark_source_acknowledged m _).
    destruct (upsert acked Origin_Local w) as [ou wu] eqn:Hup.
    destruct (readmit_outcome acked w ou wu) as (Hnp' & Hled & Hmsg & Hok & Hst);
      [change (is_Some (mail_messages (db w) !! msg_key m)); rewrite Hkey; by eexists|done|].
    destruct ou as [res|e|]; [..|done].
    + erewrite run_bind by exact Hup. intros [= <- <-]. split_and!; try done.
      intros _ key'. rewrite Hmsg, Hf. intros [= <-]. rewrite (Hst res eq_refl). simpl.
      change (msg_key acked) with (msg_key m). rewrite Hkey.
      eexists. split; [apply lookup_insert_eq|]. by eexists.
    + erewrite run_bind_err by exact Hup. intros [= <- <-]. by split_and!.
  - intros [= <- <-]. split_and!; try done. intros _ key' Hkey'.
    assert (key' = key) as -> by congruence.
    rewrite Hack in Hnone. change (msg_key req) with (msg_team record, row_assignee row, key) in Hnone.
    destruct (mail_message_states (db w) !! _) as [s|]; [|done]. exists s. split; [done|].
    by apply not_eq_None_Some in Hnone.
Qed.

(** Detaching a refused report rewrites one envelope. *)
Lemma drop_task_link_run record w :
  exists d', drop_task_link_from_mail record w = (Ok tt, mkWorld d' (ticks w))
    /\ ledger_same (db w) d' /\ (mail_ok (db w) -> mail_ok d') /\ mail_grows (db w) d'.
Proof.
  unfold drop_task_link_from_mail. run run_get_db.
  eexists. split; [reflexivity|]. split_and!; [done| |].
  - intros [Hu Hk Hs Hd]. set (f := fun r : MailMessageRow => _).
    assert (Hlk : forall k r, alter f (msg_key record) (mail_messages (db w)) !! k = Some r ->
      exists r0, mail_messages (db w) !! k = Some r0 /\ m_message_id r = m_message_id r0
                 /\ m_parent_message_id r = m_parent_message_id r0).
    { intros k r [(<- & r0 & Hr0 & ->)|[Hne Hr0]]%lookup_alter_Some; eauto. }
    assert (His : forall k, is_Some (alter f (msg_key record) (mail_messages (db w)) !! k)
                            <-> is_Some (mail_messages (db w) !! k)).
    { intros k. by rewrite lookup_alter_is_Some. }
    constructor; simpl.
    + intros k1 r1 k2 r2 (r10 & H1 & Hi1 & Hp1)%Hlk (r20 & H2 & Hi2 & Hp2)%Hlk Hc.
      apply (Hu _ _ _ _ H1 H2). unfold message_clash in *. by rewrite Hi1, Hi2, Hp1, Hp2 in Hc.
    + intros k r (r0 & Hr0 & _)%Hlk. by eapply Hk.
    + intros k. by rewrite His.
    + intros k. by rewrite His.
  - intros k r Hr. simpl. destruct (decide (msg_key record = k)) as [<-|Hne].
    + rewrite lookup_alter_eq, Hr. by eexists.
    + rewrite lookup_alter_ne by done. eauto.
Qed.

(** A close is for the assignee and the assigner only, and its report goes to
    the other of the two. *)
Definition counterparty (r : TaskSqlRow) (record : Message) : Prop :=
  let from := env_from (msg_envelope record) in
  (from = t_assignee r /\ msg_agent record = t_assigner r)
  \/ (from <> t_assignee r /\ from = t_assigner r /\ msg_agent record = t_assignee r).

(** Every branch of a close. *)
Inductive close_branch (record : Message) (id : TaskId) (outcome : TaskCloseOutcome)
    (reason : option string) (w : World) : Outcome AtmError TaskMessageResult * World -> Prop :=
| close_unknown :
    tasks (db w) !! (msg_team record, id) = None ->
    close_branch record id outcome reason w
      (Err (task_not_found (no_open_task id (env_from (msg_envelope record)))), w)
| close_already r o d' :
    tasks (db w) !! (msg_team record, id) = Some r -> t_state r = "complete" ->
    t_close_outcome r = Some (TaskCloseOutcome_as_str o) ->
    ledger_same (db w) d' -> (mail_ok (db w) -> mail_ok d') -> mail_grows (db w) d' ->
    close_branch record id outcome reason w
      (Ok (Applied (Some o) None None None []), mkWorld d' (ticks w))
| close_rejected r error ev d1 d' :
    tasks (db w) !! (msg_team record, id) = Some r -> t_state r <> "complete" ->
    ~ counterparty r record ->
    (code error = TaskNotCounterparty \/ code error = TaskStaleCounterparty) ->
    ledger_same (db w) d1 -> (mail_ok (db w) -> mail_ok d1) -> mail_grows (db w) d1 ->
    appended d1 d' [ev] ->
    ev_event ev = TaskEventKind_Rejected -> ev_from_state ev = ev_to_state ev ->
    close_branch record id outcome reason w
      (Ok (RejectedReportDelivered error ev), mkWorld d' (S (ticks w)))
| close_ack_failed r e w' :
    tasks (db w) !! (msg_team record, id) = Some r -> t_state r <> "complete" ->
    counterparty r record -> ledger_same (db w) (db w') ->
    close_branch record id outcome reason w (Err e, w')
| close_applied r qa qw ev w1 d' :
    tasks (db w) !! (msg_team record, id) = Some r -> t_state r <> "complete" ->
    counterparty r record ->
    member_queue (tasks (db w)) (msg_team record) (t_assignee r) qa qw ->
    ledger_same (db w) (db w1) -> (mail_ok (db w) -> mail_ok (db w1)) ->
    mail_messages (db w1) = mail_messages (db w) ->
    assignment_acknowledged (db w1) (msg_team record) (t_assignee r) (t_assignment_message_id r) ->
    appended (set_tasks (closed_tasks (tasks (db w)) record id outcome r
                           (retain_ne id qa ++ retain_ne id qw)) (db w1)) d' [ev] ->
    ev_to_state ev = Some (TaskState_Complete outcome) -> ev_detail ev = reason ->
    ev_event ev = close_event_kind outcome -> ev_actor ev = decode_actor (env_from (msg_envelope record)) ->
    close_branch record id outcome reason w
      (Ok (Applied None (Some (t_assignee r)) None None [ev]), mkWorld d' (ticks w1)).

Lemma deliver_rejected_run record id row error w :
  is_open (row_state row) = true ->
  exists ev d1 d', deliver_rejected_close_report record id row error w
    = (Ok (RejectedReportDelivered (atm_error_new (code error) (detail error +:+ "; report delivered")) ev),
       mkWorld d' (S (ticks w)))
    /\ ledger_same (db w) d1 /\ (mail_ok (db w) -> mail_ok d1) /\ mail_grows (db w) d1
    /\ appended d1 d' [ev]
    /\ ev_event ev = TaskEventKind_Rejected /\ ev_from_state ev = ev_to_state ev.
Proof.
  intros Hop. unfold deliver_rejected_close_report.
  destruct (drop_task_link_run record w) as (d1 & Hrun & Hled & Hok & Hgr). run Hrun.
  step.
  set (draft := {| draft_team := _ |}).
  assert (Hf : task_event_state (draft_from_state draft) (draft_close_outcome draft)
               = Ok (Some (row_state row))) by (simpl; by destruct (row_state row)).
  erewrite run_bind by (by apply append_task_event_run). cbv beta.
  eexists _, d1, _. split; [reflexivity|]. split_and!; [done|done|done| |done|done].
  by apply logged_appended.
Qed.

(** The write of an admitted close. *)
Lemma persist_close_branch record id outcome reason r row w :
  ledger_ok (tasks (db w)) -> queues_bounded (tasks (db w)) ->
  tasks (db w) !! (msg_team record, id) = Some r -> row_view (msg_team record, id) r row ->
  t_state r <> "complete" -> counterparty r record ->
  close_branch record id outcome reason w
    ((event ← persist_task_close upsert record id outcome reason row (TaskState_Complete outcome);
      mret (Applied None (Some (row_assignee row)) None None [event])) w).
Proof.
  intros Hl Hb Hr Hv Hs Hcp. unfold persist_task_close.
  pose proof (view_assignee _ _ _ Hv) as Hag. apply (view_open _ _ _ Hv) in Hs as Hop.
  destruct (acknowledge_assignment upsert record row w) as [o w1] eqn:Hack.
  destruct (acknowledge_assignment_outcome _ _ _ _ _ Hack) as (Hnp & Hled & Hmsg & Hok & Hacked).
  destruct o as [[]|e|]; [| |done].
  2:{ erewrite run_bind_err by (by apply run_bind_err). by eapply close_ack_failed. }
  specialize (Hacked eq_refl). rewrite Hag, (view_message _ _ _ Hv) in Hacked.
  pose proof Hled as (Hts & _). pose proof Hl as (_ & _ & Hall).
  destruct (Hall (msg_team record) (t_assignee r)) as (qa & qw & Hm).
  destruct (close_write_run record id outcome (t_assignee r) r qa qw w1) as (Hwr & _);
    [by rewrite Hts..|by split_and!|]. rewrite Hts in Hwr.
  set (draft := {| draft_team := msg_team record; draft_task_id := id;
    draft_assignee := t_assignee r; draft_at := env_timestamp (msg_envelope record);
    draft_event := close_event_kind outcome; draft_from_state := Some (tag (row_state row));
    draft_to_state := Some TaskStateTag_Complete; draft_close_outcome := Some outcome;
    draft_actor := env_from (msg_envelope record);
    draft_message_id := env_message_id (msg_envelope record); draft_outcome := None;
    draft_marker := None; draft_detail := reason |}).
  assert (Hf : task_event_state (draft_from_state draft) (draft_close_outcome draft)
               = Ok (Some (row_state row))) by (simpl; by destruct (row_state row)).
  rewrite Hag. erewrite run_bind.
  2:{ erewrite run_bind by exact Hack. cbv beta.
      unfold mbind, M_bind, st_mbind, st_bind in Hwr |- *.
      destruct (update_task _ _ _ w1) as [[[]|e|] w2]; [|done..].
      destruct (queue_order _ _ w2) as [[order|e|] w3]; [|done..].
      rewrite Hwr. by apply (append_task_event_run draft). }
  cbv beta. eapply (close_applied record id outcome reason w r qa qw _ w1); try done.
  exact (logged_appended draft (set_tasks _ (db w1)) _ (Some (TaskState_Complete outcome)) Hf eq_refl).
Qed.

Local Ltac deliver_rejected :=
  match goal with
  | Hop : is_open (row_state ?row) = true
    |- context [deliver_rejected_close_report ?m ?id ?row ?e ?w] =>
    destruct (deliver_rejected_run m id row e w Hop)
      as (ev & d1 & d' & Hrun & Hled & Hok & Hgr & Happ & Hk & Hft); rewrite Hrun
  end.

Lemma apply_task_close_run record id outcome reason w :
  ledger_ok (tasks (db w)) -> queues_bounded (tasks (db w)) ->
  close_branch record id outcome reason w (apply_task_close upsert record id outcome reason w).
Proof.
  intros Hl Hb. unfold apply_task_close. set (from := env_from (msg_envelope record)).
  destruct (tasks (db w) !! (msg_team record, id)) as [r|] eqn:Hr.
  2:{ erewrite run_bind by (by apply load_task_row_none). by apply close_unknown. }
  destruct (load_task_row_some _ id r w (ledger_readable _ Hl Hb) Hr) as (row & Hload & Hv).
  run Hload. pose proof (view_state _ _ _ Hv) as Hst. pose proof (view_outcome _ _ _ Hv) as Hout.
  pose proof (view_assignee _ _ _ Hv) as Hag. pose proof (view_assigner _ _ _ Hv) as Hasr.
  destruct (is_open (row_state row)) eqn:Hop.
  2:{ destruct (row_state row) as [| |o]; [done..|].
      destruct (drop_task_link_run record w) as (d1 & Hrun & Hled & Hok & Hgr). run Hrun.
      by eapply close_already. }
  apply (view_open _ _ _ Hv) in Hop as Hs.
  set (body := match rejected _ with Ok _ => _ | Err _ => _ | Panic => _ end).
  assert (Hbody : close_branch record id outcome reason w (body w));
    [unfold body; clear body|by destruct (row_state row)].
  unfold admit_task. rewrite Hag, Hasr.
  destruct (bool_decide (from <> t_assignee r) && bool_decide (from <> t_assigner r)) eqn:Hthird.
  - apply andb_true_iff in Hthird as [H1%bool_decide_eq_true_1 H2%bool_decide_eq_true_1].
    cbn [rejected]. deliver_rejected.
    eapply close_rejected; try done; [|by left]. intros [[? _]|(_ & ? & _)]; done.
  - cbn [rejected].
    assert (Htr : rejected (transition (Some (row_state row)) (TaskEvent_Completed outcome) id from
      (Some (t_assignee r)) (t_assignee r)) = Ok (TaskState_Complete outcome)).
    { by destruct (row_state row). }
    erewrite run_bind by (by apply run_lift). cbv beta zeta.
    set (expected := if bool_decide (from = t_assignee r) then t_assigner r else t_assignee r).
    destruct (bool_decide (msg_agent record <> expected)) eqn:Hexp.
    + apply bool_decide_eq_true_1 in Hexp. deliver_rejected.
      eapply close_rejected; try done; [|by right]. unfold expected in Hexp.
      intros [[Hf Ha]|(Hf & _ & Ha)]; apply Hexp; fold from in Hf;
        [rewrite bool_decide_eq_true_2|rewrite bool_decide_eq_false_2]; done.
    + rewrite <- Hag. apply persist_close_branch with r; try done.
      apply bool_decide_eq_false_1, dec_stable in Hexp. unfold expected in Hexp.
      unfold counterparty. fold from. apply andb_false_iff in Hthird.
      destruct (decide (from = t_assignee r)) as [Hf|Hf].
      * left. by rewrite bool_decide_eq_true_2 in Hexp.
      * right. rewrite bool_decide_eq_false_2 in Hexp by done. split_and!; [done| |done].
        destruct Hthird as [H%bool_decide_eq_false_1|H%bool_decide_eq_false_1];
          apply dec_stable in H; done.
Qed.
End Close.
