(* ===== verification/Admission.v ===== *)
(** * Message admission and the writer's operations

    Models [crates/atm-storage-rusqlite/src/writer/message_admission.rs] (the
    canonical admission, with the recursion between message admission and task
    close tied by fuel), [writer/ops.rs] and [writer/ops_admission.rs] (the
    operations a caller can queue) and [writer/read_display_state.rs]. *)

From S2P Require Import Prelude ErrorCodes Types TaskState CronTypes Database TaskCodec TaskQueue MailStore TaskOps.
From stdpp Require Import base gmap strings list numbers sorting pretty.
Local Open Scope Z_scope.
Local Open Scope string_scope.
Local Open Scope list_scope.

(** [TASK_REMINDER_INTERVAL_MS] in nanoseconds, and [next_reminder_due]. *)
Definition TASK_REMINDER_INTERVAL_NS : Z := 60000 * 1000000.
Definition next_reminder_due (at_ : IsoTimestamp) : IsoTimestamp := at_ + TASK_REMINDER_INTERVAL_NS.

(** [AcknowledgementSource] and [AcknowledgementCommit] of [contract.rs]. *)
Record AcknowledgementSource : Set := mkAcknowledgementSource {
  src_team : TeamName;
  src_agent : AgentName;
  src_message_id : AtmMessageId
}.

Record AcknowledgementCommit : Set := mkAcknowledgementCommit {
  ack_reply : Message;
  ack_source : Message
}.

(** [WriteOp], without the template and diagnostic operations.  The reply
    builder is the caller's object. *)
Inductive WriteOp : Type :=
| ApplyReadDisplayState (mailbox : MemberKey) (message_ids : list MessageKey)
    (seen_watermark : option IsoTimestamp) (provenance : MessageWriteOrigin)
| DeleteMessage (key : MessageKey) (provenance : MessageWriteOrigin)
| UpsertMessage (record : Message) (provenance : MessageWriteOrigin)
| UpsertMessages (records : list Message)
| Acknowledge (source : AcknowledgementSource) (builder : Message -> Outcome AtmError Message)
    (provenance : MessageWriteOrigin)
| TaskMove (team : TeamName) (task_id : TaskId) (actor : AgentName) (target : MoveTarget)
    (at_ : IsoTimestamp) (provenance : MessageWriteOrigin).

Inductive WriteOpResult : Type :=
| ReadDisplayStateApplied
| MessageDeleted
| MessageUpserted (result : UpsertResult)
| MessagesUpserted
| Acknowledged (commit : AcknowledgementCommit)
| TaskMoved (record : TaskMoveRecord).

Section Admission.
Context {rt : Runtime}.

(** *** The cron generation fence *)

Definition stale_permit : AtmError :=
  validation_with_recovery "cron action permit is stale or its schedule is no longer active"
    "allow the current cron run to stop and let the scheduler start a fresh generation".

Definition validate_cron_generation_fence (provenance : MessageWriteOrigin) : M unit :=
  match provenance with
  | Origin_CronRun schedule_id generation =>
    id ← ok_or (validation "cron schedule id exceeds the sqlite integer range")
           (i64_try_from schedule_id);
    d ← get_db;
    if bool_decide ((fun r => (c_generation r, c_active r)) <$> cron_schedule (cron d) !! id = Some (generation, 1))
    then mret tt else fail stale_permit
  | Origin_Local | Origin_Peer => mret tt
  end.

(** *** Canonical admission *)

Definition upsert_message_body (upsert : Message -> MessageWriteOrigin -> M UpsertResult)
    (record : Message) (provenance : MessageWriteOrigin) : M UpsertResult :=
  _ ← validate_cron_generation_fence provenance;
  inserted ← insert_message_canonical record;
  existing ← (if (inserted : bool) then mret None else Some <$> load_existing_message record);
  if inserted && is_local provenance
  then
    applied ← apply_task_message upsert record;
    match applied with
    | Applied closed assignee position notice events =>
      mret (mkUpsertResult inserted existing closed assignee position notice None events)
    | RejectedReportDelivered error event =>
      mret (mkUpsertResult inserted existing None None None None (Some error) [event])
    end
  else mret (mkUpsertResult inserted existing None None None None None []).

(** [execute_upsert_message] calls itself through [apply_task_close]; out of
    fuel is [Panic]. *)
Fixpoint execute_upsert_message_fuel (fuel : nat) (record : Message)
    (provenance : MessageWriteOrigin) : M UpsertResult :=
  match fuel with
  | O => st_panic
  | S fuel' => upsert_message_body (execute_upsert_message_fuel fuel') record provenance
  end.

(** Two levels are enough: the inner message already exists. *)
Definition execute_upsert_message : Message -> MessageWriteOrigin -> M UpsertResult :=
  execute_upsert_message_fuel 2.

(** *** Acknowledgement *)

(** [load_acknowledgement_source_row]: the live message with this id. *)
Definition load_acknowledgement_source_row (source : AcknowledgementSource)
    : M (MessageKey * MailMessageRow * MailStateRow) :=
  d ← get_db;
  let live (kr : MailKey * MailMessageRow) : Prop :=
    kr.1.1 = (src_team source, src_agent source)
    /\ m_message_id kr.2 = Some (src_message_id source)
    /\ (mail_message_states d !! kr.1 ≫= (fun s => Some (s_deleted_at s))) = Some None in
  ok_or (validation_with_recovery
           ("message " +:+ ulid_to_string (src_message_id source) +:+ " was not found in "
            +:+ src_agent source +:+ "@" +:+ src_team source
            +:+ "; it is unknown or not addressed to the caller")
           "verify the message ID belongs to the caller's mailbox before retrying `atm ack`")
    (kr ← head (map_to_list (filter live (mail_messages d)));
     s ← mail_message_states d !! kr.1;
     Some (kr.1.2, kr.2, s)).

Definition is_successor (source : AcknowledgementSource) (k : MailKey) (r : MailMessageRow)
    : Prop :=
  k.1 = (src_team source, src_agent source)
  /\ m_parent_message_id r = Some (src_message_id source).

#[export] Instance is_successor_dec source k r : Decision (is_successor source k r).
Proof. unfold is_successor. apply _. Defined.

Definition reject_acknowledgement_source_with_successor (source : AcknowledgementSource)
    : M unit :=
  d ← get_db;
  if bool_decide (map_Exists (is_successor source) (mail_messages d))
  then fail (validation ("message " +:+ ulid_to_string (src_message_id source)
         +:+ " has been updated; acknowledge the current terminal message instead"))
  else mret tt.

Definition decode_pending_acknowledgement_source (source : AcknowledgementSource)
    (row : MessageKey * MailMessageRow * MailStateRow) : M Message :=
  let '(key, r, s) := row in
  e ← ok_or (mailbox_read "failed to decode acknowledgement source envelope")
        (decode_envelope (m_envelope_json r));
  let e' := with_display_state (s_read s) (s_pending_ack_at s) (s_acknowledged_at s)
              (s_expires_at s) e in
  if bool_decide (s_pending_ack_at s = None)
  then
    let state :=
      if bool_decide (is_Some (s_acknowledged_at s)) then "already acknowledged"
      else "not pending acknowledgement" in
    fail (validation_with_recovery
            ("message " +:+ ulid_to_string (src_message_id source) +:+ " is " +:+ state)
            "only messages with a pending acknowledgement can be acknowledged; use `atm read --pending-ack` to inspect them")
  else mret (mkMessage (src_team source) (src_agent source) key e').

Definition load_pending_ack_source (source : AcknowledgementSource) : M Message :=
  row ← load_acknowledgement_source_row source;
  _ ← reject_acknowledgement_source_with_successor source;
  decode_pending_acknowledgement_source source row.

Definition execute_acknowledgement (source : AcknowledgementSource)
    (builder : Message -> Outcome AtmError Message) : M WriteOpResult :=
  loaded ← load_pending_ack_source source;
  reply ← lift (builder loaded);
  at_ ← now;
  let acknowledged_source := mark_source_acknowledged loaded at_ in
  _ ← execute_upsert_message reply Origin_Local;
  _ ← execute_upsert_message acknowledged_source Origin_Local;
  mret (Acknowledged (mkAcknowledgementCommit reply acknowledged_source)).

Definition execute_acknowledgement_with_fence (source : AcknowledgementSource)
    (builder : Message -> Outcome AtmError Message) (provenance : MessageWriteOrigin)
    : M WriteOpResult :=
  _ ← validate_cron_generation_fence provenance;
  execute_acknowledgement source builder.

(** *** Read display state *)

(** [WriterStatementCache::mark_message_read]: the number of rows updated. *)
Definition mark_message_read (k : MailKey) (updated_at next_due : IsoTimestamp) : M Z :=
  d ← get_db;
  match mail_message_states d !! k with
  | Some s =>
    if bool_decide (s_deleted_at s = None)
    then
      let nudge :=
        if bool_decide (is_Some (s_nudge_pending_at s))
           && bool_decide (is_Some (s_pending_ack_at s))
           && bool_decide (s_acknowledged_at s = None)
        then Some next_due else None in
      _ ← put_db (set_mail_message_states
            (<[k := {| s_read := true;
                       s_pending_ack_at := s_pending_ack_at s;
                       s_acknowledged_at := s_acknowledged_at s;
                       s_expires_at := s_expires_at s;
                       s_deleted_at := s_deleted_at s;
                       s_updated_at := Some updated_at;
                       s_nudge_pending_at := nudge;
                       s_nudge_attempts := s_nudge_attempts s |}]> (mail_message_states d)) d);
      mret 1
    else mret 0
  | None => mret 0
  end.

Definition mark_one_read (mailbox : MemberKey) (updated_at next_due : IsoTimestamp)
    (message_key : MessageKey) : M unit :=
  updated ← mark_message_read (member_team mailbox, member_agent mailbox, message_key)
              updated_at next_due;
  if bool_decide (updated <> 1)
  then fail (mailbox_read ("message " +:+ message_key +:+ " was not found for "
         +:+ member_agent mailbox +:+ "@" +:+ member_team mailbox
         +:+ " while applying read display state"))
  else mret tt.

Fixpoint mark_all_read (mailbox : MemberKey) (updated_at next_due : IsoTimestamp)
    (message_ids : list MessageKey) : M unit :=
  match message_ids with
  | [] => mret tt
  | key :: rest =>
    _ ← mark_one_read mailbox updated_at next_due key;
    mark_all_read mailbox updated_at next_due rest
  end.

Definition execute_read_display_state (mailbox : MemberKey) (message_ids : list MessageKey)
    (seen_watermark : option IsoTimestamp) (provenance : MessageWriteOrigin) : M WriteOpResult :=
  _ ← validate_cron_generation_fence provenance;
  at_ ← now;
  _ ← mark_all_read mailbox at_ (next_reminder_due at_) message_ids;
  _ ← match seen_watermark with
      | None => mret tt
      | Some watermark =>
        d ← get_db;
        put_db (set_mail_seen_watermarks
                  (<[(member_team mailbox, member_agent mailbox) := watermark]>
                     (mail_seen_watermarks d)) d)
      end;
  mret ReadDisplayStateApplied.

(** *** Delete, groups, move, dispatch *)

Definition execute_delete_message (key : MessageKey) (provenance : MessageWriteOrigin)
    : M WriteOpResult :=
  _ ← validate_cron_generation_fence provenance;
  d ← get_db;
  _ ← put_db (set_search_documents
                (filter (fun kr => kr.1.2 <> key) (search_documents d)) d);
  d ← get_db;
  _ ← put_db (set_mail_message_states
                (filter (fun kr => kr.1.2 <> key) (mail_message_states d)) d);
  d ← get_db;
  _ ← put_db (set_mail_messages (filter (fun kr => kr.1.2 <> key) (mail_messages d)) d);
  mret MessageDeleted.

Fixpoint execute_upsert_messages (records : list Message) : M WriteOpResult :=
  match records with
  | [] => mret MessagesUpserted
  | record :: rest =>
    _ ← execute_upsert_message record Origin_Local;
    execute_upsert_messages rest
  end.

Definition execute_task_move_with_fence (team : TeamName) (task_id : TaskId) (actor : AgentName)
    (target : MoveTarget) (at_ : IsoTimestamp) (provenance : MessageWriteOrigin)
    : M WriteOpResult :=
  _ ← validate_cron_generation_fence provenance;
  moved ← apply_task_move team task_id actor target at_;
  mret (TaskMoved moved).

Definition execute (op : WriteOp) : M WriteOpResult :=
  match op with
  | ApplyReadDisplayState mailbox ids watermark provenance =>
    execute_read_display_state mailbox ids watermark provenance
  | DeleteMessage key provenance => execute_delete_message key provenance
  | UpsertMessage record provenance =>
    result ← execute_upsert_message record provenance; mret (MessageUpserted result)
  | UpsertMessages records => execute_upsert_messages records
  | Acknowledge source builder provenance =>
    execute_acknowledgement_with_fence source builder provenance
  | TaskMove team task_id actor target at_ provenance =>
    execute_task_move_with_fence team task_id actor target at_ provenance
  end.
End Admission.
