(* ===== verification/Writer.v ===== *)
(** * The writer lane

    Models [crates/atm-storage-rusqlite/src/writer/batch.rs]: one savepoint per
    operation, the shared savepoint of a run of admissions with its replay, the
    batch transaction, and the rejected-task audit of [writer/task_ops.rs].
    Failures to open or release a savepoint come from the runtime
    ([control_fault]); failures of the batch transaction are arguments. *)

From S2P Require Import Prelude ErrorCodes Types TaskState Database Transaction TaskCodec TaskQueue MailStore TaskOps.
From S2P Require Import Admission.
From stdpp Require Import base gmap strings list numbers sorting pretty.
Local Open Scope Z_scope.
Local Open Scope string_scope.
Local Open Scope list_scope.

(** [CommittedTaskWrite] of [atm-storage/src/task_store.rs]. *)
Record CommittedTaskWrite (A : Type) : Type := mkCommitted {
  operation : Outcome AtmError A;
  committed_events : list TaskEventRow
}.
Arguments mkCommitted {A} _ _.
Arguments operation {A} _.
Arguments committed_events {A} _.

(** What a caller receives. *)
Abbreviation Reply := (Outcome AtmError (CommittedTaskWrite WriteOpResult)) (only parsing).

Definition is_batchable_message_admission (op : WriteOp) : bool :=
  match op with UpsertMessage _ _ => true | _ => false end.

(** [RejectedSubject]. *)
Record RejectedSubject : Set := mkRejectedSubject {
  rs_team : TeamName;
  rs_task_id : TaskId;
  rs_requested : AgentName;
  rs_actor : AgentName;
  rs_message_id : option AtmMessageId
}.

Definition is_pre_admission_reassignment_refusal (op : WriteOp) (error : AtmError) : bool :=
  match op with
  | UpsertMessage record provenance =>
    is_local provenance && bool_decide (env_task_op (msg_envelope record) = None)
    && bool_decide (code error = TaskNotCounterparty)
  | _ => false
  end.

Section Writer.
Context {rt : Runtime}.

Definition rejected_event_subject (op : WriteOp) : M (option RejectedSubject) :=
  match op with
  | UpsertMessage record provenance =>
    if is_local provenance
    then
      mret ((fun task_id =>
        {| rs_team := msg_team record;
           rs_task_id := task_id;
           rs_requested := msg_agent record;
           rs_actor := env_from (msg_envelope record);
           rs_message_id := env_message_id (msg_envelope record) |})
        <$> env_task_id (msg_envelope record))
    else mret None
  | Acknowledge source _ _ =>
    loaded ← load_pending_ack_source source;
    mret ((fun task_id =>
      {| rs_team := msg_team loaded;
         rs_task_id := task_id;
         rs_requested := msg_agent loaded;
         rs_actor := msg_agent loaded;
         rs_message_id := env_message_id (msg_envelope loaded) |})
      <$> env_task_id (msg_envelope loaded))
  | TaskMove team task_id actor _ _ _ =>
    mret (Some {| rs_team := team;
                  rs_task_id := task_id;
                  rs_requested := actor;
                  rs_actor := actor;
                  rs_message_id := None |})
  | _ => mret None
  end.

Definition append_rejected_task_event (op : WriteOp) (error : AtmError)
    : M (option TaskEventRow) :=
  if negb (is_task_rejection (code error)) then mret None
  else if is_pre_admission_reassignment_refusal op error then mret None
  else
    subject ← rejected_event_subject op;
    match subject with
    | None => mret None
    | Some s =>
      row ← load_task_row (rs_team s) (rs_task_id s);
      let state := (fun r => tag (row_state r)) <$> row in
      at_ ← now;
      event ← append_task_event
        {| draft_team := rs_team s;
           draft_task_id := rs_task_id s;
           draft_assignee := default (rs_requested s) (row_assignee <$> row);
           draft_at := at_;
           draft_event := TaskEventKind_Rejected;
           draft_from_state := state;
           draft_to_state := state;
           draft_close_outcome := row ≫= fun r => close_outcome (row_state r);
           draft_actor := rs_actor s;
           draft_message_id := rs_message_id s;
           draft_outcome := None;
           draft_marker := None;
           draft_detail := Some (code_display (code error) +:+ ": " +:+ message error) |};
      mret (Some event)
    end.

(** [savepoint.commit()]; a savepoint that cannot be released is dropped. *)
Definition commit_savepoint (saved : World) (op_result : WriteOpResult) : M WriteOpResult :=
  fun w =>
    match control_fault (ticks w) with
    | Some error =>
      (Err (sqlite_error "failed to commit sqlite writer savepoint" error), rollback saved (tick w))
    | None => (Ok op_result, tick w)
    end.

Definition finalize_queued_write (saved : World) (result : Outcome AtmError WriteOpResult)
    : M WriteOpResult :=
  fun w =>
    match result with
    | Ok op_result => commit_savepoint saved op_result w
    | Err error => (Err error, rollback saved w)
    | Panic => (Err (daemon_unavailable "sqlite writer operation panicked"), rollback saved w)
    end.

Definition process_queued_write (op : WriteOp) : M Reply :=
  fun w =>
    match control_fault (ticks w) with
    | Some error =>
      (Ok (Err (sqlite_error "failed to open sqlite writer savepoint" error)), tick w)
    | None =>
      match execute op (tick w) with
      | (Err error, w') =>
        match append_rejected_task_event op error (rollback w w') with
        | (Ok event, w'') => (Ok (Ok (mkCommitted (Err error) (option_list event))), w'')
        | (Err audit_error, w'') => (Ok (Err audit_error), w'')
        | (Panic, w'') => (Panic, w'')
        end
      | (result, w') =>
        match finalize_queued_write w result w' with
        | (Ok operation, w'') => (Ok (Ok (mkCommitted (Ok operation) [])), w'')
        | (Err error, w'') => (Ok (Err error), w'')
        | (Panic, w'') => (Panic, w'')
        end
      end
    end.

Fixpoint process_each (ops : list WriteOp) : M (list Reply) :=
  match ops with
  | [] => mret []
  | op :: rest =>
    reply ← process_queued_write op;
    replies ← process_each rest;
    mret (reply :: replies)
  end.

(** The tentative run of a group: [None] when a member fails or panics. *)
Fixpoint execute_all (ops : list WriteOp) (w : World) : option (list WriteOpResult) * World :=
  match ops with
  | [] => (Some [], w)
  | op :: rest =>
    match execute op w with
    | (Ok result, w') =>
      let '(results, w'') := execute_all rest w' in (cons result <$> results, w'')
    | (_, w') => (None, w')
    end
  end.

Definition process_message_admission_group (ops : list WriteOp) : M (list Reply) :=
  fun w =>
    match control_fault (ticks w) with
    | Some fault =>
      let error := sqlite_error "failed to open sqlite writer message-admission savepoint" fault in
      (Ok ((fun _ => Err error) <$> ops), tick w)
    | None =>
      match execute_all ops (tick w) with
      | (None, w') => process_each ops (rollback w w')
      | (Some results, w') =>
        match control_fault (ticks w') with
        | None => (Ok ((fun r => Ok (mkCommitted (Ok r) [])) <$> results), tick w')
        | Some fault =>
          let error :=
            sqlite_error "failed to commit sqlite writer message-admission savepoint" fault in
          (Ok ((fun _ => Err error) <$> ops), rollback w (tick w'))
        end
      end
    end.

(** One run of consecutive admissions. *)
Definition process_admissions (admissions : list WriteOp) : M (list Reply) :=
  match admissions with
  | [] => mret []
  | [op] => reply ← process_queued_write op; mret [reply]
  | _ => process_message_admission_group admissions
  end.

(** The loop of [process_batch]: [admissions] is the run collected so far. *)
Fixpoint process_writes (admissions : list WriteOp) (ops : list WriteOp) : M (list Reply) :=
  match ops with
  | [] => process_admissions admissions
  | op :: rest =>
    if is_batchable_message_admission op then process_writes (admissions ++ [op]) rest
    else
      replies ← process_admissions admissions;
      reply ← process_queued_write op;
      rest_replies ← process_writes [] rest;
      mret (replies ++ reply :: rest_replies)
  end.

Definition finalize_committed_reply (commit_error : option AtmError) (result : Reply) : Reply :=
  match commit_error with
  | None => result
  | Some error =>
    match result with
    | Ok committed =>
      Err (match operation committed with Err e => e | _ => error end)
    | Err existing => Err existing
    | Panic => Panic
    end
  end.

Definition send_batch_transaction_open_error (batch : list WriteOp) (error : RusqliteError)
    : list Reply :=
  (fun _ => Err (sqlite_error "failed to open sqlite writer batch transaction" error)) <$> batch.

(** The batch transaction: [begin_error] and [commit_error] are the failures, if
    any, of [BEGIN IMMEDIATE] and [COMMIT]; after a failed commit the dropped
    transaction leaves the database as it was. *)
Definition process_batch (begin_error : option RusqliteError) (batch : list WriteOp)
    (commit_error : option RusqliteError) : M (list Reply) :=
  fun w =>
    match begin_error with
    | Some error => (Ok (send_batch_transaction_open_error batch error), w)
    | None =>
      match process_writes [] batch w with
      | (Ok replies, w') =>
        let commit_error :=
          sqlite_error "failed to commit sqlite writer batch transaction" <$> commit_error in
        (Ok (finalize_committed_reply commit_error <$> replies),
         match commit_error with None => w' | Some _ => rollback w w' end)
      | (Err e, w') => (Err e, rollback w w')
      | (Panic, w') => (Panic, rollback w w')
      end
    end.
End Writer.
