(* ===== verification/Handoff.v ===== *)
(** * The read-state handoff

    Models the supervisor of [crates/atm-runtime/src/mailbox_runtime.rs] that
    carries the state changes of a read to the writer lane: [try_push] on the
    bounded queue, the worker that applies the front of the queue and retries it,
    and the manager that restarts a worker that died.

    [handoff_step] interleaves readers that push, the worker, the manager and every other
    operation of the writer lane.  [sys_accepted] and [sys_removed] record, for the
    statements, the transitions accepted and those removed from the queue. *)

From S2P Require Import Prelude ErrorCodes Types Database Transaction MailStore Admission Writer.
From stdpp Require Import base gmap strings numbers list.
Local Open Scope Z_scope.
Local Open Scope string_scope.
Local Open Scope list_scope.

Record HandoffConfig : Set := mkHandoffConfig {
  handoff_buffer : nat;
  handoff_retry_deadline : Z;      (* nanoseconds *)
  supervisor_max_restarts : Z
}.

Definition HandoffConfig_default : HandoffConfig := mkHandoffConfig 64 (5 * 1000000000) 3.

Inductive HandoffRejected : Set := Rejected_BufferFull | Rejected_Unavailable.

Inductive SupervisorState : Set :=
| Supervisor_Ready | Supervisor_Unavailable | Supervisor_Restarting.

#[export] Instance SupervisorState_eq_dec : EqDecision SupervisorState.
Proof. solve_decision. Defined.

Record ReadDisplayTransition : Set := mkReadTransition {
  rt_scope : MemberKey;
  rt_message_ids : list MessageKey;
  rt_seen_watermark : option IsoTimestamp;
  rt_origin : MessageWriteOrigin
}.

(** [StateHandoffInner]. *)
Record HandoffInner : Set := mkInner {
  h_config : HandoffConfig;
  h_queue : list ReadDisplayTransition;
  h_state : SupervisorState;
  h_restart_count : Z;
  h_rejected_buffer_full : Z;
  h_rejected_unavailable : Z;
  h_retry_deadline_exhaustions : Z
}.

Definition set_queue (q : list ReadDisplayTransition) (h : HandoffInner) : HandoffInner :=
  mkInner (h_config h) q (h_state h) (h_restart_count h) (h_rejected_buffer_full h)
    (h_rejected_unavailable h) (h_retry_deadline_exhaustions h).
Definition set_state (s : SupervisorState) (h : HandoffInner) : HandoffInner :=
  mkInner (h_config h) (h_queue h) s (h_restart_count h) (h_rejected_buffer_full h)
    (h_rejected_unavailable h) (h_retry_deadline_exhaustions h).
Definition count_restart (h : HandoffInner) : HandoffInner :=
  mkInner (h_config h) (h_queue h) (h_state h) (h_restart_count h + 1) (h_rejected_buffer_full h)
    (h_rejected_unavailable h) (h_retry_deadline_exhaustions h).
Definition count_buffer_full (h : HandoffInner) : HandoffInner :=
  mkInner (h_config h) (h_queue h) (h_state h) (h_restart_count h) (h_rejected_buffer_full h + 1)
    (h_rejected_unavailable h) (h_retry_deadline_exhaustions h).
Definition count_unavailable (h : HandoffInner) : HandoffInner :=
  mkInner (h_config h) (h_queue h) (h_state h) (h_restart_count h) (h_rejected_buffer_full h)
    (h_rejected_unavailable h + 1) (h_retry_deadline_exhaustions h).
Definition count_exhaustion (h : HandoffInner) : HandoffInner :=
  mkInner (h_config h) (h_queue h) (h_state h) (h_restart_count h) (h_rejected_buffer_full h)
    (h_rejected_unavailable h) (h_retry_deadline_exhaustions h + 1).

(** [StateHandoffSupervisor::start], inside a Tokio runtime. *)
Definition handoff_start (config : HandoffConfig) : Outcome AtmError HandoffInner :=
  if Nat.eqb (handoff_buffer config) 0 || (handoff_retry_deadline config =? 0)%Z
  then Err (validation "state-handoff buffer and retry deadline must be non-zero")
  else Ok (mkInner config [] Supervisor_Ready 0 0 0 0).

(** [try_push_with_origin]. *)
Definition try_push_with_origin (transition : ReadDisplayTransition) (h : HandoffInner)
    : option HandoffRejected * HandoffInner :=
  if bool_decide (h_state h <> Supervisor_Ready) then (Some Rejected_Unavailable, count_unavailable h)
  else if Nat.leb (handoff_buffer (h_config h)) (length (h_queue h))
  then (Some Rejected_BufferFull, count_buffer_full h)
  else (None, set_queue (h_queue h ++ [transition]) h).

Record StateHandoffDiagnostics : Set := mkDiagnostics {
  diag_state : SupervisorState;
  diag_buffered_depth : nat;
  diag_restart_count : Z;
  diag_rejected_buffer_full : Z;
  diag_rejected_unavailable : Z;
  diag_retry_deadline_exhaustions : Z
}.

Definition diagnostics (h : HandoffInner) : StateHandoffDiagnostics :=
  mkDiagnostics (h_state h) (length (h_queue h)) (h_restart_count h) (h_rejected_buffer_full h)
    (h_rejected_unavailable h) (h_retry_deadline_exhaustions h).

Section Handoff.
Context {rt : Runtime}.

(** What the writer lane answers to one operation: the batch transaction of the
    lane, with the failures of its [BEGIN] and [COMMIT]. *)
Definition submit_write (begin_error commit_error : option RusqliteError) (op : WriteOp)
    : M WriteOpResult :=
  fun w =>
    match process_batch begin_error [op] commit_error w with
    | (Ok [Ok committed], w') => (operation committed, w')
    | (Ok [Err e], w') => (Err e, w')
    | (_, w') => (Panic, w')
    end.

(** [apply_read_display_state_with_origin_async] of [message_store.rs]. *)
Definition apply_read_display_state (begin_error commit_error : option RusqliteError)
    (transition : ReadDisplayTransition) : M unit :=
  if bool_decide (rt_origin transition = Origin_Peer)
  then fail (validation "peer provenance cannot update local mailbox display state")
  else
    result ← submit_write begin_error commit_error
      (ApplyReadDisplayState (rt_scope transition) (rt_message_ids transition)
         (rt_seen_watermark transition) (rt_origin transition));
    match result with  (* the text of another result follows the message *)
    | ReadDisplayStateApplied => mret tt
    | _ => fail (daemon_unavailable "sqlite writer returned the wrong result for async read display state")
    end.

(** ** The worker and the manager *)

(** The worker waits for a transition or is applying one with the instant its
    retries end; it has given up or died, which the manager has not seen yet; the
    manager is replacing it, or has ended for good. *)
Inductive HandoffTask : Set :=
| Worker_Waiting
| Worker_Applying (transition : ReadDisplayTransition) (retry_deadline : Z)
| Worker_GaveUp
| Worker_Died
| Manager_Restarting
| Manager_Finished.

Record System : Type := mkSystem {
  sys_inner : HandoffInner;
  sys_task : HandoffTask;
  sys_world : World;
  sys_accepted : list ReadDisplayTransition;
  sys_removed : list ReadDisplayTransition
}.

(** [supervise_handoff_worker] after [worker.await]: the worker gave up
    ([Ok(Err(error))]) or died ([Err(error)]). *)
Definition worker_gave_up (h : HandoffInner) : HandoffInner * HandoffTask :=
  (set_state Supervisor_Unavailable h, Manager_Finished).

Definition worker_died (h : HandoffInner) : HandoffInner * HandoffTask :=
  let h := count_restart h in
  if (supervisor_max_restarts (h_config h) <? h_restart_count h)%Z
  then (set_state Supervisor_Unavailable h, Manager_Finished)
  else (set_state Supervisor_Restarting h, Manager_Restarting).

(** What the worker does with the answer to one attempt: it removes the front of
    the queue, tries again after a pause, or gives up. *)
Definition worker_answer (transition : ReadDisplayTransition) (retry_deadline instant : Z)
    (answer : Outcome AtmError unit) (h : HandoffInner) : HandoffInner * HandoffTask :=
  match answer with
  | Ok _ => (set_queue (tail (h_queue h)) h, Worker_Waiting)
  | Err _ =>
    if (retry_deadline <=? instant)%Z then (count_exhaustion h, Worker_GaveUp)
    else (h, Worker_Applying transition retry_deadline)
  | Panic => (h, Worker_Died)
  end.

Inductive handoff_step : System -> System -> Prop :=
| step_push transition h t w acc rem :
    handoff_step (mkSystem h t w acc rem)
      (mkSystem (try_push_with_origin transition h).2 t w
         (match (try_push_with_origin transition h).1 with
          | None => acc ++ [transition] | Some _ => acc end) rem)
| step_take transition rest h w acc rem instant :
    h_queue h = transition :: rest ->
    handoff_step (mkSystem h Worker_Waiting w acc rem)
      (mkSystem h (Worker_Applying transition (instant + handoff_retry_deadline (h_config h)))
         w acc rem)
| step_attempt transition deadline h w answer w' acc rem begin_error commit_error instant :
    apply_read_display_state begin_error commit_error transition w = (answer, w') ->
    handoff_step (mkSystem h (Worker_Applying transition deadline) w acc rem)
      (mkSystem (worker_answer transition deadline instant answer h).1
         (worker_answer transition deadline instant answer h).2 w' acc
         (match answer with Ok _ => rem ++ take 1 (h_queue h) | _ => rem end))
| step_die_waiting h w acc rem :
    handoff_step (mkSystem h Worker_Waiting w acc rem) (mkSystem h Worker_Died w acc rem)
| step_die_applying transition deadline h w w' acc rem begin_error commit_error :
    (* the operation may already be in the writer lane when the worker dies *)
    w' = w \/ w' = (apply_read_display_state begin_error commit_error transition w).2 ->
    handoff_step (mkSystem h (Worker_Applying transition deadline) w acc rem)
      (mkSystem h Worker_Died w' acc rem)
| step_gave_up h w acc rem :
    handoff_step (mkSystem h Worker_GaveUp w acc rem)
      (mkSystem (worker_gave_up h).1 (worker_gave_up h).2 w acc rem)
| step_died h w acc rem :
    handoff_step (mkSystem h Worker_Died w acc rem)
      (mkSystem (worker_died h).1 (worker_died h).2 w acc rem)
| step_restart h w acc rem :
    handoff_step (mkSystem h Manager_Restarting w acc rem)
      (mkSystem (set_state Supervisor_Ready h) Worker_Waiting w acc rem)
| step_other op begin_error commit_error h t w acc rem :
    handoff_step (mkSystem h t w acc rem)
      (mkSystem h t (process_batch begin_error [op] commit_error w).2 acc rem).

Definition handoff_initial (config : HandoffConfig) (w : World) : System :=
  mkSystem (mkInner config [] Supervisor_Ready 0 0 0 0) Worker_Waiting w [] [].
End Handoff.
