(* ===== verification/MailboxRuntime.v ===== *)
(** * The mailbox runtime

    Models [StorageAsyncMailboxRuntime] of
    [crates/atm-runtime/src/mailbox_runtime.rs], which serves list, peek and read
    from the reader lane and hands the state of a read to the supervisor, and the
    handlers of
    [crates/atm-http-runtime/src/storage_and_nudge_router/roster_ingress.rs] that
    prepare its commands.

    A deadline is an instant.  The wait of [select_for_read] runs on fuel, one
    unit per look at the mailbox. *)

From S2P Require Import Prelude ErrorCodes Types Address Database MailStore Threading Selection.
From S2P Require Import MailboxReader Roster ReadCommands Admission Handoff.
From stdpp Require Import base gmap strings numbers list.
Local Open Scope Z_scope.
Local Open Scope string_scope.
Local Open Scope list_scope.

(** [StateHandoffLifecycle]. *)
Inductive StateHandoffLifecycle : Set :=
| Handoff_Unstarted
| Handoff_Active (handoff : HandoffInner).

Definition with_state_handoff (config : HandoffConfig) (lifecycle : StateHandoffLifecycle)
    : Outcome AtmError StateHandoffLifecycle :=
  match lifecycle with
  | Handoff_Unstarted => h ← handoff_start config; Ok (Handoff_Active h)
  | Handoff_Active _ =>
    Err (validation "mailbox state-handoff supervisor was started more than once")
  end.

(** [value.parse::<MessageKey>().ok()]. *)
Definition message_key_from_str (value : string) : option MessageKey :=
  match message_key_new value with Ok key => Some key | _ => None end.

Definition agent_not_found (agent : AgentName) (team : TeamName) : AtmError :=
  atm_error_new AgentNotFound
    ("agent '" +:+ agent +:+ "' was not found in team '" +:+ team
     +:+ "'; add it with `atm teams add-member " +:+ team +:+ " " +:+ agent +:+ "`").

(** [bucket_counts_from_storage]. *)
Fixpoint bucket_counts_from_storage (buckets : BucketCounts) (counts : list SearchCount)
    : BucketCounts :=
  match counts with
  | [] => buckets
  | count :: rest =>
    bucket_counts_from_storage
      (match sc_key count with
       | Some (CountKey_Bucket MailboxBucket_Unread) =>
         mkBucketCounts (sc_count count) (count_pending_ack buckets) (count_history buckets)
       | Some (CountKey_Bucket MailboxBucket_PendingAck) =>
         mkBucketCounts (count_unread buckets) (sc_count count) (count_history buckets)
       | Some (CountKey_Bucket MailboxBucket_History) =>
         mkBucketCounts (count_unread buckets) (count_pending_ack buckets) (sc_count count)
       | None => buckets
       end) rest
  end.

Definition search_selection (mode : ReadSelection) : SearchMailboxSelection :=
  match mode with
  | Selection_Actionable => SearchSelection_Actionable
  | Selection_Unread => SearchSelection_Unread
  | Selection_PendingAck => SearchSelection_PendingAck
  | Selection_All => SearchSelection_All
  end.

(** [mailbox_filters]. *)
Definition mailbox_filters (scope : MemberKey) (request : MailboxSelectionRequest) : SearchFilters :=
  mkSearchFilters (Some (member_team scope)) (Some (member_agent scope)) (sender_filter request)
    [] None (timestamp_filter request) None (message_id_filter request) (task_filter request)
    (contains_filter request) None None true (Some (search_selection (selection_mode request))).

(** The filters of the bucket counts. *)
Definition current_filters (scope : MemberKey) : SearchFilters :=
  mkSearchFilters (Some (member_team scope)) (Some (member_agent scope)) None [] None None None
    None None None None None true None.

Definition selection_candidate (message : Message) : MailboxSelectionCandidate :=
  mkCandidate (msg_message_key message) (msg_envelope message).

Section Runtime.
Context {rt : Runtime} {lane : ReaderLane}.

(** [Instant::now]. *)
Definition instant_now : M Z :=
  fun w => (Ok (instant_at (ticks w)), mkWorld (db w) (S (ticks w))).

(** [RequestDeadline::remaining]. *)
Definition remaining (deadline : Z) : M (option Z) :=
  instant ← instant_now;
  mret (if (instant <? deadline)%Z then Some (deadline - instant)%Z else None).

(** [read_deadline]; a positive remainder is a valid [ReadDeadline]. *)
Definition read_deadline (deadline : Z) : M Z :=
  left ← remaining deadline;
  ok_or (daemon_unavailable "mailbox request deadline expired") left.

(** [select_mailbox_candidates] takes its readings of the clock. *)
Definition select_candidates (candidates : list MailboxSelectionCandidate)
    (request : MailboxSelectionRequest) : M MailboxSelectionResult :=
  fun w => (Ok (select_mailbox_candidates (ticks w) candidates request),
            mkWorld (db w) (ticks w + selection_readings candidates request)).

Definition select_matching (scope : MemberKey) (request : MailboxSelectionRequest)
    (limit : option nat) (deadline : Z) : M MailboxSelectionResult :=
  let filters := mailbox_filters scope request in
  _ ← read_deadline deadline;
  counts ← submit_count scope (current_filters scope) (Some GroupBy_Bucket);
  _ ← read_deadline deadline;
  messages ← submit_matching_list scope (mkListQuery filters limit);
  selection ← select_candidates (selection_candidate <$> messages) request;
  mret (mkSelectionResult (bucket_counts_from_storage (mkBucketCounts 0 0 0) counts)
          (selected selection)).

Definition select_one_for_read (scope : MemberKey) (request : MailboxSelectionRequest)
    (deadline : Z) : M (MailboxSelectionResult * nat) :=
  let filters := mailbox_filters scope request in
  selection ← select_matching scope request (Some 1%nat) deadline;
  _ ← read_deadline deadline;
  counts ← submit_count scope filters None;
  mret (selection, match head counts with Some count => sc_count count | None => 0%nat end).

Definition pause_limit : Z := 25 * 1000000.

(** The loop of [select_for_read]; [None] when the fuel is spent. *)
Fixpoint wait_for_mail (fuel : nat) (scope : MemberKey) (request : MailboxSelectionRequest)
    (deadline wait_deadline : Z) : M (option (MailboxSelectionResult * nat)) :=
  match fuel with
  | O => mret None
  | S fuel =>
    found ← select_one_for_read scope request deadline;
    if negb (bool_decide (selected found.1 = [])) then mret (Some found) else
    instant ← instant_now;
    if (wait_deadline <=? instant)%Z then mret (Some found) else
    left ← remaining deadline;
    request_remaining ←
      ok_or (daemon_unavailable "mailbox request deadline expired while awaiting mail") left;
    instant ← instant_now;
    let until_wait_deadline := Z.max 0 (wait_deadline - instant) in
    let pause := Z.min (Z.min pause_limit request_remaining) until_wait_deadline in
    if (pause =? 0)%Z then mret (Some found)
    else wait_for_mail fuel scope request deadline wait_deadline
  end.

Definition select_for_read (fuel : nat) (scope : MemberKey) (request : MailboxSelectionRequest)
    (deadline : Z) (wait_timeout : option Z) : M (option (MailboxSelectionResult * nat)) :=
  match wait_timeout with
  | None => found ← select_one_for_read scope request deadline; mret (Some found)
  | Some wait_timeout =>
    instant ← instant_now;
    wait_for_mail fuel scope request deadline (instant + wait_timeout)
  end.

(** [authorize_read] and [authorize_list]. *)
Definition authorize (explicit_target requires_seen_watermark : bool) (scope : MemberKey)
    (deadline : Z) : M (option (option IsoTimestamp)) :=
  _ ← (if explicit_target
       then _ ← read_deadline deadline;
            exists_ ← submit_member_exists scope;
            (if (exists_ : bool) then mret tt
             else fail (agent_not_found (member_agent scope) (member_team scope)))
       else mret tt);
  if requires_seen_watermark
  then _ ← read_deadline deadline; watermark ← submit_seen_watermark scope; mret (Some watermark)
  else mret None.

Definition authorize_read (command : AsyncReadCommand) (deadline : Z) : M AsyncReadCommand :=
  watermark ← authorize (rc_explicit_target command) (rc_loads_seen_watermark command)
                (rc_scope command) deadline;
  mret (match watermark with
        | Some watermark => AsyncReadCommand_with_seen_watermark watermark command
        | None => command
        end).

Definition authorize_list (command : AsyncListCommand) (deadline : Z) : M AsyncListCommand :=
  watermark ← authorize (lc_explicit_target command) (lc_loads_seen_watermark command)
                (lc_scope command) deadline;
  mret (match watermark with
        | Some watermark => AsyncListCommand_with_seen_watermark watermark command
        | None => command
        end).

(** The greatest timestamp of the messages. *)
Definition latest_timestamp (messages : list SelectedMailboxMessage) : option IsoTimestamp :=
  match (fun m => env_timestamp (sel_envelope m)) <$> messages with
  | [] => None
  | first :: rest => Some (foldl Z.max first rest)
  end.

Definition try_handoff_selected (lifecycle : StateHandoffLifecycle) (scope : MemberKey)
    (selection : MailboxSelectionResult) (update_seen_watermark : bool)
    (origin : MessageWriteOrigin) : Outcome AtmError (bool * StateHandoffLifecycle) :=
  let message_ids :=
    omap (fun m => message_key_from_str (sel_message_key m)) (selected selection) in
  if bool_decide (message_ids = []) then Ok (false, lifecycle)
  else
    match lifecycle with
    | Handoff_Unstarted =>
      Err (daemon_unavailable "mailbox read handoff was not started before read admission")
    | Handoff_Active handoff =>
      let watermark :=
        if update_seen_watermark then latest_timestamp (selected selection) else None in
      let '(rejected, handoff) :=
        try_push_with_origin (mkReadTransition scope message_ids watermark origin) handoff in
      Ok (match rejected with None => true | Some _ => false end, Handoff_Active handoff)
    end.

Definition limit_one (selection : MailboxSelectionResult) : MailboxSelectionResult :=
  mkSelectionResult (bucket_counts selection)
    (sort_and_limit_mailbox_selection (selected selection) (Some 1%nat)).

Definition runtime_list (command : AsyncListCommand) (deadline : Z) : M ListOutcome :=
  command ← authorize_list command deadline;
  selection ← select_matching (lc_scope command) (lc_selection command) (pushdown_limit command)
                deadline;
  mret (complete_async_list command selection).

Definition runtime_peek (fuel : nat) (command : AsyncReadCommand) (deadline : Z)
    : M (option ReadOutcome) :=
  command ← authorize_read command deadline;
  found ← select_for_read fuel (rc_scope command) (rc_selection command) deadline
            (rc_wait_timeout command);
  mret ((fun '(selection, match_count) =>
           complete_async_read command (limit_one selection) match_count false) <$> found).

Definition runtime_read (fuel : nat) (lifecycle : StateHandoffLifecycle)
    (command : AsyncReadCommand) (deadline : Z)
    : M (option (ReadOutcome * StateHandoffLifecycle)) :=
  command ← authorize_read command deadline;
  found ← select_for_read fuel (rc_scope command) (rc_selection command) deadline
            (rc_wait_timeout command);
  match found with
  | None => mret None
  | Some (selection, match_count) =>
    let selection := limit_one selection in
    handed ← lift (try_handoff_selected lifecycle (rc_scope command) selection
                     (rc_updates_seen_state command) (rc_write_origin command));
    mret (Some (complete_async_read command selection match_count handed.1, handed.2))
  end.

(** ** Handlers *)

Definition peek_messages (fuel : nat) (roster : list RosterMember) (query : PeekQuery)
    (deadline : Z) : M (option ReadOutcome) :=
  let query :=
    canonicalize_peek_roster_aliases (resolve_roster_member_at_ingress roster) query in
  command ← lift (prepare_async_peek query);
  runtime_peek fuel command deadline.

Definition receive_messages_with_origin (fuel : nat) (roster : list RosterMember)
    (lifecycle : StateHandoffLifecycle) (query : ReadQuery) (deadline : Z)
    (origin : MessageWriteOrigin) : M (option (ReadOutcome * StateHandoffLifecycle)) :=
  let query := canonicalize_roster_aliases (resolve_roster_member_at_ingress roster) query in
  command ← lift (prepare_async_read query);
  runtime_read fuel lifecycle (with_write_origin origin command) deadline.

Definition list_mailbox (roster : list RosterMember) (query : ListQuery) (deadline : Z)
    : M ListOutcome :=
  let query := canonicalize_list_roster_aliases (resolve_roster_member_at_ingress roster) query in
  command ← lift (prepare_async_list query);
  runtime_list command deadline.
End Runtime.
