(* ===== verification/PendingNudge.v ===== *)
(** * Pending nudges

    Models [crates/atm-storage-rusqlite/src/pending_nudge_store.rs]: the marker of
    a message that waits to be handed to its recipient's agent, kept in the
    columns [nudge_pending_at] and [nudge_attempts] of [mail_message_states].

    The marker is the time the message is due.  A claim moves it one reminder
    interval ahead, so that a claimant that is never heard of again holds the
    message for one interval only.  The columns hold RFC 3339 texts, whose order is
    the order of the times. *)

From S2P Require Import Prelude ErrorCodes Types Address TaskState Database Transaction.
From S2P Require Import Selection CronStore MailboxReader Admission.
From stdpp Require Import base gmap strings list numbers.
Local Open Scope Z_scope.
Local Open Scope string_scope.
Local Open Scope list_scope.

Definition MAX_NUDGE_ATTEMPTS : Z := 5.

(** [NudgeClaim]. *)
Record NudgeClaim : Set := mkNudgeClaim {
  claim_msg : AtmMessageId;
  claim_attempt : Z
}.

(** [OPEN_ITEM_SQL]. *)
Definition open_item (s : MailStateRow) : bool :=
  (negb (s_read s)
   || (bool_decide (is_Some (s_pending_ack_at s)) && bool_decide (s_acknowledged_at s = None)))
  && bool_decide (s_deleted_at s = None).

(** The row with another marker, attempt count and time of update. *)
Definition set_marker (marker : option IsoTimestamp) (attempts : Z) (updated_at : IsoTimestamp)
    (s : MailStateRow) : MailStateRow :=
  {| s_read := s_read s;
     s_pending_ack_at := s_pending_ack_at s;
     s_acknowledged_at := s_acknowledged_at s;
     s_expires_at := s_expires_at s;
     s_deleted_at := s_deleted_at s;
     s_updated_at := Some updated_at;
     s_nudge_pending_at := marker;
     s_nudge_attempts := attempts |}.

(** An [UPDATE] of the row with this key, where it satisfies the guard: whether a
    row changed. *)
Definition update_state (k : MailKey) (guard : MailStateRow -> bool)
    (f : MailStateRow -> MailStateRow) : M bool :=
  d ← get_db;
  match mail_message_states d !! k with
  | Some s =>
    if guard s
    then _ ← put_db (set_mail_message_states (<[k := f s]> (mail_message_states d)) d); mret true
    else mret false
  | None => mret false
  end.

Section Store.
Context {rt : Runtime} {crt : CronRuntime}.

(** [MessageKey::from] an [AtmMessageId]. *)
Definition message_key_from (id : AtmMessageId) : MessageKey := "atm:" +:+ ulid_to_string id.

Definition as_atm_message_id (key : MessageKey) : Outcome AtmError AtmMessageId :=
  let raw :=
    if String.prefix "atm:" key
    then String.substring 4 (String.length key - 4) key else key in
  match ulid_from_str raw with
  | inr id => Ok id
  | inl error => Err (validation ("message key parse failed: " +:+ error))
  end.

Definition nudge_key (member : MemberKey) (msg : AtmMessageId) : MailKey :=
  (member_team member, member_agent member, message_key_from msg).

Definition mark_pending (member : MemberKey) (msg : AtmMessageId) (at_ : IsoTimestamp) : M bool :=
  with_transaction
    (update_state (nudge_key member msg)
       (fun s => negb (s_read s) && bool_decide (s_deleted_at s = None))
       (set_marker (Some at_) 0 at_)).

(** The rows a claim may take, and the order it takes them in. *)
Definition claimable (member : MemberKey) (at_ : IsoTimestamp) (e : MailKey * MailStateRow) : bool :=
  let '((team, agent, _), s) := e in
  String.eqb team (member_team member) && String.eqb agent (member_agent member)
  && match s_nudge_pending_at s with Some due => Z.leb due at_ | None => false end
  && open_item s && Z.ltb (s_nudge_attempts s) MAX_NUDGE_ATTEMPTS.

Definition by_message_key (a b : MailKey * MailStateRow) : comparison :=
  String.compare a.1.2 b.1.2.

Definition oldest_claimable (member : MemberKey) (at_ : IsoTimestamp) (d : Db)
    : option (MailKey * MailStateRow) :=
  head (sort_by by_message_key
          (List.filter (claimable member at_) (map_to_list (mail_message_states d)))).

Definition claim_next_pending (member : MemberKey) : M (option NudgeClaim) :=
  at_ ← now;
  let next_due := next_reminder_due at_ in
  with_transaction (
    d ← get_db;
    match oldest_claimable member at_ d with
    | None => mret None
    | Some (k, s) =>
      _ ← put_db (set_mail_message_states
            (<[k := set_marker (Some next_due) (s_nudge_attempts s) at_ s]>
               (mail_message_states d)) d);
      attempt ← match u32_try_from (s_nudge_attempts s) with
                | Some n => mret n
                | None => fail (sqlite_error "failed to claim next pending nudge"
                                  (IntegralValueOutOfRange (s_nudge_attempts s)))
                end;
      key ← lift (message_key_new k.2);
      msg ← lift (as_atm_message_id key);
      mret (Some (mkNudgeClaim msg attempt))
    end).

(** The marker still belongs to the claim. *)
Definition claim_holds (claim : NudgeClaim) (s : MailStateRow) : bool :=
  bool_decide (is_Some (s_nudge_pending_at s))
  && Z.eqb (s_nudge_attempts s) (claim_attempt claim) && open_item s.

(** [requeue_pending]: one attempt spent; the last one defers the message and
    restores its attempts. *)
Definition requeue_pending (member : MemberKey) (claim : NudgeClaim) : M unit :=
  at_ ← now;
  let next_due := next_reminder_due at_ in
  let next_attempt := claim_attempt claim + 1 in
  with_transaction (
    _ ← update_state (nudge_key member (claim_msg claim)) (claim_holds claim)
          (if Z.leb MAX_NUDGE_ATTEMPTS next_attempt
           then set_marker (Some next_due) 0 at_
           else set_marker (Some at_) next_attempt at_);
    mret tt).

Definition release_pending (member : MemberKey) (claim : NudgeClaim) : M unit :=
  at_ ← now;
  with_transaction (
    _ ← update_state (nudge_key member (claim_msg claim)) (claim_holds claim)
          (fun s => set_marker (Some at_) (s_nudge_attempts s) at_ s);
    mret tt).

Definition rearm_pending_after_handoff (member : MemberKey) (msg : AtmMessageId)
    (next_due : IsoTimestamp) : M unit :=
  at_ ← now;
  with_transaction (
    _ ← update_state (nudge_key member msg) open_item
          (fun s => set_marker (Some next_due) (s_nudge_attempts s) at_ s);
    mret tt).

Definition complete_pending_before_terminal_handoff (member : MemberKey) (claim : NudgeClaim)
    : M bool :=
  at_ ← now;
  with_transaction
    (update_state (nudge_key member (claim_msg claim)) (claim_holds claim)
       (fun s => set_marker None (s_nudge_attempts s) at_ s)).

Definition restore_pending_after_failed_terminal_handoff (member : MemberKey) (claim : NudgeClaim)
    : M bool :=
  at_ ← now;
  with_transaction
    (update_state (nudge_key member (claim_msg claim))
       (fun s => bool_decide (s_nudge_pending_at s = None)
                 && Z.eqb (s_nudge_attempts s) (claim_attempt claim) && open_item s)
       (fun s => set_marker (Some at_) (s_nudge_attempts s) at_ s)).

(** A member of [list_pending_members]. *)
Definition parse_pending_member (row : TeamName * AgentName) : Outcome AtmError MemberKey :=
  team ← match team_name_from_str row.1 with
         | Err e => Err (validation ("invalid team in mail_message_states: " +:+ message e))
         | o => o
         end;
  agent ← match agent_name_from_str row.2 with
          | Err e => Err (validation ("invalid agent in mail_message_states: " +:+ message e))
          | o => o
          end;
  Ok (mkMemberKey team agent).

Definition pending_member_rows (d : Db) : list (TeamName * AgentName) :=
  remove_dups ((fun e : MailKey * MailStateRow => e.1.1) <$>
    List.filter (fun e : MailKey * MailStateRow =>
      bool_decide (is_Some (s_nudge_pending_at e.2)) && open_item e.2)
      (map_to_list (mail_message_states d))).

Definition list_pending_members : M (list MemberKey) :=
  d ← get_db;
  lift (collect (parse_pending_member <$> pending_member_rows d)).
End Store.
