(* ===== verification/Dispatch.v ===== *)
(** * Nudge dispatches

    Models how a nudge finds its way to an agent: where a write comes from and goes
    to ([crates/atm-core/src/provenance.rs], [send/recipient.rs]), the delivery channel of
    [crates/atm-core/src/delivery_channel.rs], the recipient snapshot of
    [delivery_policy.rs], the dispatch built in [send/hook.rs], the dispatches of a
    message just written ([send/delivery_persistence.rs], [delivery_plan.rs],
    [send/received_hook.rs], [write/pipeline.rs]), and the dispatches rebuilt from the store in [nudge_dispatch.rs], with [load_message] of
    [crates/atm-storage-rusqlite/src/message_store.rs] and the metadata readers of
    [crates/atm-core/src/schema/inbox_message.rs]. *)

From S2P Require Import Prelude ReadCommands ErrorCodes Types Address TaskState Database Transaction.
From S2P Require Import Selection Roster RosterMirror MemberMutation NudgeTemplate MailStore.
From S2P Require Import CronStore MailboxReader Admission MailboxRuntime PendingNudge.
From stdpp Require Import base gmap strings list numbers.

(** ** Metadata of an envelope *)

Definition AUTHENTICATED_SOURCE_HOST_KEY : string := "sourceHost".
Definition DAEMON_ESCALATION_PROVENANCE_KEY : string := "daemonEscalationProvenance".

Definition authenticated_source_host (e : MessageEnvelope) : Outcome AtmError (option HostName) :=
  match object_get AUTHENTICATED_SOURCE_HOST_KEY (env_extra e) with
  | None => Ok None
  | Some (Value_String value) =>
    match host_name_from_str value with
    | Ok host => Ok (Some host)
    | _ => Err (mailbox_read "persisted authenticated source host is invalid")
    end
  | Some _ => Err (mailbox_read "persisted authenticated source host is not a string")
  end.

Definition has_daemon_escalation_provenance (e : MessageEnvelope) : bool :=
  match object_get DAEMON_ESCALATION_PROVENANCE_KEY (env_extra e) with
  | Some (Value_Bool b) => b
  | _ => false
  end.

Definition is_terminal_escalation_message (m : Message) : bool :=
  has_daemon_escalation_provenance (msg_envelope m).

(** ** Where a write comes from and goes to *)

Inductive WriteIngress : Set :=
| Ingress_Canonical | Ingress_Local | Ingress_Peer | Ingress_UntrustedSmoke | Ingress_AnonymousSmoke.

#[export] Instance WriteIngress_eq_dec : EqDecision WriteIngress.
Proof. solve_decision. Defined.

Record WriteProvenance : Set := mkWriteProvenance {
  wp_target_host : option HostName;
  wp_authenticated_source_host : option HostName;
  wp_origin_message_id : bool;
  wp_origin_timestamp : bool
}.

Record ValidatedWriteProvenance : Set := mkValidatedProvenance {
  target_host_qualified : bool;
  is_authenticated_peer : bool;
  has_origin_metadata : bool
}.

Definition is_remote_origin (provenance : ValidatedWriteProvenance) : bool :=
  target_host_qualified provenance && negb (is_authenticated_peer provenance).

Definition validate_write_provenance (ingress : WriteIngress) (provenance : WriteProvenance)
    : Outcome AtmError ValidatedWriteProvenance :=
  let has_any_origin_metadata := wp_origin_message_id provenance || wp_origin_timestamp provenance in
  let has_complete_origin_metadata :=
    wp_origin_message_id provenance && wp_origin_timestamp provenance in
  if has_any_origin_metadata && negb has_complete_origin_metadata
     && negb (bool_decide (ingress = Ingress_Canonical))
  then Err (validation "write provenance requires both origin_message_id and origin_timestamp; preserve the immutable origin metadata as a pair")
  else
    let authenticated_peer := bool_decide (is_Some (wp_authenticated_source_host provenance)) in
    if authenticated_peer && negb has_complete_origin_metadata
    then Err (validation "authenticated peer writes require source host, origin_message_id, and origin_timestamp; retry through the authenticated peer adapter")
    else
      let validated :=
        mkValidatedProvenance (bool_decide (is_Some (wp_target_host provenance)))
          authenticated_peer has_complete_origin_metadata in
      match ingress with
      | Ingress_Canonical => Ok validated
      | Ingress_Local =>
        if authenticated_peer || has_any_origin_metadata
        then Err (validation "local write requests must not supply authenticated peer provenance or origin metadata")
        else Ok validated
      | Ingress_Peer =>
        if negb authenticated_peer || negb has_complete_origin_metadata
        then Err (validation "peer write requests require authenticated source provenance and immutable origin metadata")
        else Ok validated
      | Ingress_UntrustedSmoke =>
        if authenticated_peer || negb has_complete_origin_metadata
        then Err (validation "plaintext smoke ingress must carry origin metadata but no authenticated peer identity")
        else Ok validated
      | Ingress_AnonymousSmoke =>
        Err (validation "anonymous plaintext diagnostics cannot submit writes; include explicit peer provenance or use authenticated HTTPS")
      end.

Record ResolvedRecipient : Set := mkResolvedRecipient {
  rcp_agent : AgentName;
  rcp_team : TeamName
}.

Definition is_same_member (sender : AgentName) (sender_team : TeamName)
    (recipient : ResolvedRecipient) : bool :=
  eq_ignore_ascii_case sender (rcp_agent recipient)
  && eq_ignore_ascii_case sender_team (rcp_team recipient).

Definition self_addressed_send_invalid (text : string) : AtmError :=
  atm_error_new SelfAddressedSendInvalid text.

Definition validate_non_self_recipient (sender : AgentName) (sender_team : TeamName)
    (recipient : ResolvedRecipient) (target : AgentAddress) (provenance : ValidatedWriteProvenance)
    (task_assignment : bool) : Outcome AtmError unit :=
  if is_same_member sender sender_team recipient && negb task_assignment
     && bool_decide (addr_host target = None) && negb (is_authenticated_peer provenance)
  then Err (self_addressed_send_invalid ("self-addressed messages are invalid ATM input: '"
              +:+ sender +:+ "@" +:+ sender_team +:+ "' may not send to itself"))
  else Ok tt.

Definition resolve_recipient (target_address : AgentAddress) (caller_team : TeamName)
    : ResolvedRecipient :=
  mkResolvedRecipient (addr_agent target_address) (default caller_team (addr_team target_address)).

(** ** Channels and snapshots *)

Inductive GraftLeaseState : Set := Lease_Absent | Lease_Active.

Inductive DeliveryChannel : Set :=
| Channel_TmuxSteer | Channel_HerdrSteer | Channel_Graft | Channel_BareCli.

#[export] Instance DeliveryChannel_eq_dec : EqDecision DeliveryChannel.
Proof. solve_decision. Defined.

(** A lease is known by its presence alone. *)
Definition graft_lease_state (lease_present : bool) : GraftLeaseState :=
  if lease_present then Lease_Active else Lease_Absent.

Definition classify_delivery_channel (local_backend : option LocalMessageReceivedBackend)
    (graft_lease : GraftLeaseState) : DeliveryChannel :=
  match local_backend, graft_lease with
  | Some (Backend_Tmux _), _ => Channel_TmuxSteer
  | Some (Backend_Herdr _ _), _ => Channel_HerdrSteer
  | None, Lease_Active => Channel_Graft
  | None, Lease_Absent => Channel_BareCli
  end.

Inductive DeliveryHarnessPath : Set := Path_ClaudeCode | Path_NonClaude.

Definition from_roster_harness (harness : RosterHarness) : DeliveryHarnessPath :=
  match harness with
  | ClaudeCode => Path_ClaudeCode
  | _ => Path_NonClaude
  end.

Record DeliveryRecipientSnapshot : Set := mkRecipientSnapshot {
  snap_agent : AgentName;
  snap_team : TeamName;
  snap_harness : DeliveryHarnessPath;
  snap_recipient_pane_id : option PaneId;
  snap_local_tmux_post_send : bool;
  snap_local_herdr_post_send : bool;
  snap_herdr_agent : option HerdrAgentName;
  snap_herdr_session : option HerdrSession;
  snap_graft_post_send : bool;
  snap_bare_cli_post_send : bool;
  snap_roster_backed : bool
}.

Definition snapshot_remote (agent : AgentName) (team : TeamName) : DeliveryRecipientSnapshot :=
  mkRecipientSnapshot agent team Path_NonClaude None false false None None false false false.

Definition snapshot_from_roster (member : RosterMember) (graft_lease : GraftLeaseState)
    : DeliveryRecipientSnapshot :=
  let local_backend := local_message_received_backend member in
  let channel := classify_delivery_channel local_backend graft_lease in
  let '(herdr_agent, herdr_session) :=
    match local_backend with
    | Some (Backend_Herdr session agent) => (agent, session)
    | _ => (None, None)
    end in
  mkRecipientSnapshot (rm_agent_name member) (rm_team_name member)
    (from_roster_harness (rm_harness member)) (rm_recipient_pane_id member)
    (bool_decide (channel = Channel_TmuxSteer)) (bool_decide (channel = Channel_HerdrSteer))
    herdr_agent herdr_session
    (bool_decide (channel = Channel_Graft)) (bool_decide (channel = Channel_BareCli)) true.

(** ** Dispatches *)

Inductive NudgeMode : Set := Mode_Immediate | Mode_Deferred.

Definition nudge_kind_for_mode (nudge_mode : NudgeMode) : NudgeKind :=
  match nudge_mode with Mode_Immediate => Nudge_Steer | Mode_Deferred => Nudge_Queue end.

Inductive PostSendBuiltInTarget : Set :=
| Target_Tmux (pane_id : PaneId) (rendered_nudge : string)
| Target_Herdr (agent : HerdrAgentName) (session : option HerdrSession) (rendered_nudge : string)
| Target_Graft (recipient : AgentName) (recipient_team : TeamName) (rendered_nudge : string)
| Target_QueuePull (team : TeamName) (agent : AgentName) (kind : NudgeKind)
    (msg_id : AtmMessageId) (body : string).

Record BuiltInPostSendDispatch : Set := mkDispatch {
  dispatch_event : PostSendHookEvent;
  dispatch_target : PostSendBuiltInTarget;
  dispatch_kind : NudgeKind
}.

(** What dispatching takes from outside the modelled stores: the lookup of a
    graft receiver's lease at the [n]-th reading, the order in which SQLite visits
    the rows of [mail_messages], and the wording of [serde_json]'s errors. *)
Class DispatchRuntime : Type := mkDispatchRuntime {
  graft_receiver_lease : nat -> TeamName -> AgentName -> Outcome AtmError bool;
  mail_scan : list (MailKey * MailMessageRow) -> list (MailKey * MailMessageRow);
  envelope_json_cause : StorageEnvelope -> string
}.

Section Dispatch.
Context {rt : Runtime} {dr : DispatchRuntime}.

Definition resolve_recipient_snapshot (mirror : RosterRuntimeState) (n : nat) (team : TeamName)
    (agent : AgentName) : Outcome AtmError DeliveryRecipientSnapshot :=
  match Mirror.load_roster_member mirror team agent with
  | None => Err (agent_not_found agent team)
  | Some member =>
    lease ← graft_receiver_lease n team agent;
    Ok (snapshot_from_roster member (graft_lease_state lease))
  end.

(** The snapshot of the recipient of a write: another host checks its own roster. *)
Definition resolve_write_recipient_snapshot (mirror : RosterRuntimeState) (n : nat)
    (recipient : ResolvedRecipient) (provenance : ValidatedWriteProvenance)
    : Outcome AtmError DeliveryRecipientSnapshot :=
  if is_remote_origin provenance
  then Ok (snapshot_remote (rcp_agent recipient) (rcp_team recipient))
  else resolve_recipient_snapshot mirror n (rcp_team recipient) (rcp_agent recipient).

(** An override that cannot be loaded falls back to the default template. *)
Definition render_built_in_nudge_for_dispatch (overrides : OverrideTable)
    (event : PostSendHookEvent) (delivery_kind : NudgeKind) (open_tasks : list TaskId)
    : Outcome AtmError (option string) :=
  let kind := built_in_nudge_template_kind_from_post_send_event event delivery_kind in
  let override_row :=
    match load_template_override overrides (pse_recipient_team event) kind with
    | Ok row => row
    | _ => None
    end in
  match rt_body (resolve_template override_row kind) with
  | None => Ok None
  | Some body => text ← render_built_in_nudge event body open_tasks; Ok (Some text)
  end.

Definition tmux_pane_id (event : PostSendHookEvent) (snapshot : DeliveryRecipientSnapshot)
    : option PaneId :=
  match pse_recipient_pane_id event with
  | Some pane => Some pane
  | None => snap_recipient_pane_id snapshot
  end.

(** A dispatch to this target, once the nudge is rendered. *)
Definition dispatch_to (overrides : OverrideTable) (event : PostSendHookEvent) (kind : NudgeKind)
    (open_tasks : list TaskId) (target : string -> PostSendBuiltInTarget)
    : Outcome AtmError (option BuiltInPostSendDispatch) :=
  rendered ← render_built_in_nudge_for_dispatch overrides event kind open_tasks;
  match rendered with
  | None => Ok None
  | Some rendered_nudge => Ok (Some (mkDispatch event (target rendered_nudge) kind))
  end.

Definition build_herdr_dispatch (overrides : OverrideTable) (snapshot : DeliveryRecipientSnapshot)
    (event : PostSendHookEvent) (kind : NudgeKind) (open_tasks : list TaskId)
    : Outcome AtmError (option BuiltInPostSendDispatch) :=
  match resolve_herdr_agent_target (pse_recipient event) (snap_herdr_agent snapshot) with
  | None => Ok None
  | Some agent =>
    dispatch_to overrides event kind open_tasks (Target_Herdr agent (snap_herdr_session snapshot))
  end.

Definition build_built_in_dispatch_with_open_tasks (overrides : OverrideTable)
    (snapshot : DeliveryRecipientSnapshot) (event : PostSendHookEvent) (nudge_mode : NudgeMode)
    (open_tasks : list TaskId) : Outcome AtmError (option BuiltInPostSendDispatch) :=
  let kind := nudge_kind_for_mode nudge_mode in
  if snap_local_tmux_post_send snapshot then
    match tmux_pane_id event snapshot with
    | None => Ok None
    | Some pane_id => dispatch_to overrides event kind open_tasks (Target_Tmux pane_id)
    end
  else if snap_local_herdr_post_send snapshot
  then build_herdr_dispatch overrides snapshot event kind open_tasks
  else if snap_graft_post_send snapshot
  then dispatch_to overrides event kind open_tasks
         (Target_Graft (pse_recipient event) (pse_recipient_team event))
  else if snap_bare_cli_post_send snapshot
  then dispatch_to overrides event kind open_tasks
         (Target_QueuePull (pse_recipient_team event) (pse_recipient event) kind
            (pse_message_id event))
  else Ok None.

Definition build_built_in_dispatch (overrides : OverrideTable)
    (snapshot : DeliveryRecipientSnapshot) (event : PostSendHookEvent) (nudge_mode : NudgeMode)
    : Outcome AtmError (option BuiltInPostSendDispatch) :=
  build_built_in_dispatch_with_open_tasks overrides snapshot event nudge_mode [].

(** ** Reloading a message *)

Definition parse_message_owner (key : MessageKey) (row : TeamName * AgentName)
    : Outcome AtmError (TeamName * AgentName) :=
  team ← match team_name_from_str row.1 with
         | Err e => Err (validation ("failed to parse sqlite team for message " +:+ key +:+ ": "
                                     +:+ message e))
         | o => o
         end;
  agent ← match agent_name_from_str row.2 with
          | Err e => Err (validation ("failed to parse sqlite agent for message " +:+ key +:+ ": "
                                      +:+ message e))
          | o => o
          end;
  Ok (team, agent).

(** [SqliteMessageStore::load_message]: the first row with this key, whatever
    mailbox it is in. *)
Definition load_message (d : Db) (key : MessageKey) : Outcome AtmError (option Message) :=
  match head (mail_scan (List.filter (fun e : MailKey * MailMessageRow => String.eqb e.1.2 key)
                           (map_to_list (mail_messages d)))) with
  | None => Ok None
  | Some (k, row) =>
    owner ← parse_message_owner key k.1;
    match decode_envelope (m_envelope_json row) with
    | None => Err (with_cause (validation "failed to decode sqlite message envelope")
                     (envelope_json_cause (m_envelope_json row)))
    | Some e =>
      Ok (Some (mkMessage owner.1 owner.2 key
                  (apply_state e (mail_message_states d !! (owner.1, owner.2, key)))))
    end
  end.

Definition addressed_to (member : MemberKey) (m : Message) : bool :=
  String.eqb (msg_team m) (member_team member) && String.eqb (msg_agent m) (member_agent member).

Definition load_received_hook_dispatch_message (d : Db) (member : MemberKey)
    (message_id : AtmMessageId) : Outcome AtmError (option Message) :=
  loaded ← load_message d (message_key_from message_id);
  Ok match loaded with
     | Some m => if addressed_to member m then Some m else None
     | None => None
     end.

(** A summary that says something, or the whole text. *)
Definition event_description (e : MessageEnvelope) : string :=
  match env_summary e with
  | Some summary => if String.eqb (trim summary) "" then env_text e else summary
  | None => env_text e
  end.

Definition rebuild_received_hook_dispatch (mirror : RosterRuntimeState) (overrides : OverrideTable)
    (n : nat) (member : MemberKey) (message_id : AtmMessageId) (kind : NudgeKind) (m : Message)
    : Outcome AtmError (option BuiltInPostSendDispatch) :=
  if negb (addressed_to member m) then Ok None
  else
    snapshot ← resolve_recipient_snapshot mirror n (member_team member) (member_agent member);
    let e := msg_envelope m in
    sender_host ← authenticated_source_host e;
    build_built_in_dispatch overrides snapshot
      {| pse_sender := env_from e;
         pse_sender_chat_id := env_source_chat_id e;
         pse_sender_team := default (member_team member) (env_source_team e);
         pse_sender_host := sender_host;
         pse_recipient := member_agent member;
         pse_recipient_team := member_team member;
         pse_message_id := message_id;
         pse_description := event_description e;
         pse_requires_ack := env_requires_ack e;
         pse_is_ack := bool_decide (is_Some (env_acknowledges_message_id e));
         pse_task_id := env_task_id e;
         pse_task_transition := None;
         pse_recipient_pane_id := snap_recipient_pane_id snapshot |}
      match kind with Nudge_Steer => Mode_Immediate | Nudge_Queue => Mode_Deferred end.

(** ** A message just written *)

Record WarningEntry : Set := mkWarningEntry {
  warn_message : string;
  warn_code : option AtmErrorCode;
  warn_recovery : option string
}.

Inductive DeliveryPersistenceDisposition : Set := Persisted.

Inductive DuplicateWriteDisposition : Set :=
| NotDuplicate | AlreadyDeliveredRemote | SameStorePeerReceipt.

Record DeliveryPersistenceResult : Set := mkPersistence {
  per_disposition : DeliveryPersistenceDisposition;
  per_duplicate_disposition : DuplicateWriteDisposition;
  per_newly_persisted : bool;
  per_original_message : MessageEnvelope;
  per_already_closed : option TaskCloseOutcome;
  per_task_assignee : option AgentName;
  per_queued_position : option Z;
  per_reassign_notice : option Message;
  per_task_rejection : option AtmError;
  per_warnings : list WarningEntry;
  per_operation : Outcome AtmError unit;
  per_task_events : list TaskEventRow
}.

Definition persisted (original_message : MessageEnvelope) : DeliveryPersistenceResult :=
  mkPersistence Persisted NotDuplicate true original_message None None None None None [] (Ok tt) [].

Definition already_persisted (original_message : MessageEnvelope) : DeliveryPersistenceResult :=
  mkPersistence Persisted AlreadyDeliveredRemote false original_message None None None None None []
    (Ok tt) [].

Definition same_store_peer_receipt (original_message : MessageEnvelope)
    : DeliveryPersistenceResult :=
  mkPersistence Persisted SameStorePeerReceipt false original_message None None None None None []
    (Ok tt) [].

Definition requires_post_write (p : DeliveryPersistenceResult) : bool := per_newly_persisted p.

Definition with_committed_task_write (operation : Outcome AtmError unit)
    (task_events : list TaskEventRow) (p : DeliveryPersistenceResult) : DeliveryPersistenceResult :=
  mkPersistence (per_disposition p) (per_duplicate_disposition p)
    (match operation with Ok _ => per_newly_persisted p | _ => false end)
    (per_original_message p) (per_already_closed p) (per_task_assignee p) (per_queued_position p)
    (per_reassign_notice p) (per_task_rejection p) (per_warnings p) operation task_events.

Definition with_already_closed (already_closed : option TaskCloseOutcome)
    (p : DeliveryPersistenceResult) : DeliveryPersistenceResult :=
  mkPersistence (per_disposition p) (per_duplicate_disposition p) (per_newly_persisted p)
    (per_original_message p) already_closed (per_task_assignee p) (per_queued_position p)
    (per_reassign_notice p) (per_task_rejection p) (per_warnings p) (per_operation p)
    (per_task_events p).

Definition with_task_assignee (task_assignee : option AgentName) (p : DeliveryPersistenceResult)
    : DeliveryPersistenceResult :=
  mkPersistence (per_disposition p) (per_duplicate_disposition p) (per_newly_persisted p)
    (per_original_message p) (per_already_closed p) task_assignee (per_queued_position p)
    (per_reassign_notice p) (per_task_rejection p) (per_warnings p) (per_operation p)
    (per_task_events p).

Definition with_assignment_metadata (queued_position : option Z) (reassign_notice : option Message)
    (p : DeliveryPersistenceResult) : DeliveryPersistenceResult :=
  mkPersistence (per_disposition p) (per_duplicate_disposition p) (per_newly_persisted p)
    (per_original_message p) (per_already_closed p) (per_task_assignee p) queued_position
    reassign_notice (per_task_rejection p) (per_warnings p) (per_operation p) (per_task_events p).

(** A report whose task operation was refused is an ordinary message. *)
Definition with_task_rejection (task_rejection : option AtmError) (p : DeliveryPersistenceResult)
    : DeliveryPersistenceResult :=
  let rejected := bool_decide (is_Some task_rejection) in
  mkPersistence (per_disposition p) (per_duplicate_disposition p) (per_newly_persisted p)
    (if rejected then without_task_link (per_original_message p) else per_original_message p)
    (per_already_closed p) (if rejected then None else per_task_assignee p)
    (per_queued_position p) (per_reassign_notice p) task_rejection (per_warnings p)
    (per_operation p) (per_task_events p).

Record LogicalMessage : Set := mkLogicalMessage {
  lm_message_id : AtmMessageId;
  lm_envelope : MessageEnvelope;
  lm_requires_ack : bool;
  lm_is_ack : bool;
  lm_task_assignee : option AgentName;
  lm_task_transition : option TaskTransition
}.

(** The text of the one error of [LogicalMessage::new]. *)
Definition missing_message_id : string := "logical delivery messages must carry a message id".

Definition logical_message_new (envelope : MessageEnvelope) (requires_ack is_ack : bool)
    (task_assignee : option AgentName) : Outcome string LogicalMessage :=
  match env_message_id envelope with
  | None => Err missing_message_id
  | Some message_id => Ok (mkLogicalMessage message_id envelope requires_ack is_ack task_assignee None)
  end.

Definition with_task_transition (transition : TaskTransition) (m : LogicalMessage) : LogicalMessage :=
  mkLogicalMessage (lm_message_id m) (lm_envelope m) (lm_requires_ack m) (lm_is_ack m)
    (lm_task_assignee m) (Some transition).

Definition logical_messages_from_persistence (p : DeliveryPersistenceResult)
    (requires_ack is_ack : bool) : Outcome string (list LogicalMessage) :=
  m ← logical_message_new (per_original_message p) requires_ack is_ack (per_task_assignee p);
  Ok [match per_queued_position p with
      | Some position => with_task_transition (Transition_Queued position) m
      | None => m
      end].

Definition task_transition_from_task_op (task_op : option TaskOp) (actor : AgentName)
    (task_assignee : option AgentName) : option TaskTransition :=
  match task_op with
  | None => None
  | Some TaskOp_Start => Some Transition_Started
  | Some (TaskOp_Close outcome _) =>
    match task_assignee with
    | None => None
    | Some task_assignee =>
      if String.eqb actor task_assignee then Some (Transition_Complete outcome)
      else Some (Transition_Closed Closed_Cancelled)
    end
  end.

Definition task_transition_from_message (m : LogicalMessage) : option TaskTransition :=
  task_transition_from_task_op (env_task_op (lm_envelope m)) (env_from (lm_envelope m))
    (lm_task_assignee m).

Definition post_send_event_from_message (recipient : ResolvedRecipient) (m : LogicalMessage)
    (recipient_pane_id : option PaneId) : Outcome AtmError PostSendHookEvent :=
  let e := lm_envelope m in
  sender_host ← authenticated_source_host e;
  Ok {| pse_sender := env_from e;
        pse_sender_chat_id := env_source_chat_id e;
        pse_sender_team := default (rcp_team recipient) (env_source_team e);
        pse_sender_host := sender_host;
        pse_recipient := rcp_agent recipient;
        pse_recipient_team := rcp_team recipient;
        pse_message_id := lm_message_id m;
        pse_description := event_description e;
        pse_requires_ack := lm_requires_ack m;
        pse_is_ack := lm_is_ack m;
        pse_task_id := env_task_id e;
        pse_task_transition := match lm_task_transition m with
                               | Some transition => Some transition
                               | None => task_transition_from_message m
                               end;
        pse_recipient_pane_id := recipient_pane_id |}.

Record PreparedReassignNotice : Set := mkPreparedNotice {
  pn_recipient : ResolvedRecipient;
  pn_delivery_snapshot : DeliveryRecipientSnapshot;
  pn_message : LogicalMessage
}.

Record PreparedReceivedHook : Set := mkPreparedHook {
  ph_recipient : ResolvedRecipient;
  ph_delivery_snapshot : DeliveryRecipientSnapshot;
  ph_messages : list LogicalMessage;
  ph_reassign_notice : option PreparedReassignNotice
}.

(** The notice to the former assignee; [n] counts the reading of the lease. *)
Definition prepare_reassign_notice (mirror : RosterRuntimeState) (n : nat) (notice : Message)
    : Outcome AtmError PreparedReassignNotice :=
  let recipient := mkResolvedRecipient (msg_agent notice) (msg_team notice) in
  delivery_snapshot ← resolve_recipient_snapshot mirror n (rcp_team recipient) (rcp_agent recipient);
  m ← match logical_message_new (msg_envelope notice) false false None with
      | Ok m => Ok m
      | Err text => Err (validation text)
      | Panic => Panic
      end;
  Ok (mkPreparedNotice recipient delivery_snapshot
        (with_task_transition (Transition_Closed Closed_Reassigned) m)).

(** The [SendExecutionContext] is the recipient and its snapshot; of the delivery
    plan only the messages are used.  [n] and [S n] count the readings of leases. *)
Definition prepare_received_hook (mirror : RosterRuntimeState) (n : nat)
    (recipient : ResolvedRecipient) (context_snapshot : DeliveryRecipientSnapshot)
    (p : DeliveryPersistenceResult) (requires_ack is_ack : bool)
    : Outcome AtmError (option PreparedReceivedHook) :=
  if negb (requires_post_write p) then Ok None
  else
    delivery_snapshot ← (if snap_roster_backed context_snapshot then Ok context_snapshot
                         else resolve_recipient_snapshot mirror n (rcp_team recipient)
                                (rcp_agent recipient));
    messages ← match logical_messages_from_persistence p requires_ack is_ack with
               | Ok messages => Ok messages
               | Err text => Err (mailbox_write text)
               | Panic => Panic
               end;
    notice ← match per_reassign_notice p with
             | None => Ok None
             | Some notice =>
               prepared ← prepare_reassign_notice mirror (S n) notice; Ok (Some prepared)
             end;
    Ok (Some (mkPreparedHook recipient delivery_snapshot messages notice)).

(** The dispatch of one message, if there is one. *)
Definition dispatch_message (overrides : OverrideTable) (recipient : ResolvedRecipient)
    (snapshot : DeliveryRecipientSnapshot) (nudge_mode : NudgeMode) (m : LogicalMessage)
    : Outcome AtmError (list BuiltInPostSendDispatch) :=
  event ← post_send_event_from_message recipient m (snap_recipient_pane_id snapshot);
  dispatch ← build_built_in_dispatch overrides snapshot event nudge_mode;
  Ok (option_list dispatch).

Fixpoint dispatch_messages (overrides : OverrideTable) (recipient : ResolvedRecipient)
    (snapshot : DeliveryRecipientSnapshot) (nudge_mode : NudgeMode) (messages : list LogicalMessage)
    : Outcome AtmError (list BuiltInPostSendDispatch) :=
  match messages with
  | [] => Ok []
  | m :: rest =>
    first ← dispatch_message overrides recipient snapshot nudge_mode m;
    others ← dispatch_messages overrides recipient snapshot nudge_mode rest;
    Ok (first ++ others)
  end.

(** A deferred write keeps its steer back from every backend but graft and pull. *)
Definition suppress_primary (nudge_mode : NudgeMode) (snapshot : DeliveryRecipientSnapshot) : bool :=
  match nudge_mode with
  | Mode_Deferred => negb (snap_graft_post_send snapshot) && negb (snap_bare_cli_post_send snapshot)
  | Mode_Immediate => false
  end.

Definition build_received_hook_dispatches (overrides : OverrideTable) (nudge_mode : NudgeMode)
    (received_hook : Outcome AtmError (option PreparedReceivedHook))
    : Outcome AtmError (list BuiltInPostSendDispatch) :=
  hook ← received_hook;
  match hook with
  | None => Ok []
  | Some post_write =>
    let snapshot := ph_delivery_snapshot post_write in
    primary ← dispatch_messages overrides (ph_recipient post_write) snapshot nudge_mode
                (if suppress_primary nudge_mode snapshot then [] else ph_messages post_write);
    notice ← match ph_reassign_notice post_write with
             | None => Ok []
             | Some notice =>
               dispatch_message overrides (pn_recipient notice) (pn_delivery_snapshot notice)
                 Mode_Immediate (pn_message notice)
             end;
    Ok (primary ++ notice)
  end.

(** ** Task reminders *)

Definition task_pass_transition (reminder_count : Z) : TaskTransition :=
  if Z.eqb reminder_count 0 then Transition_Ready else Transition_Reminder reminder_count.

Definition build_task_reminder_dispatch (d : Db) (mirror : RosterRuntimeState)
    (overrides : OverrideTable) (n : nat) (member : MemberKey) (row : TaskRow)
    (open_tasks : list TaskId) : Outcome AtmError (option BuiltInPostSendDispatch) :=
  snapshot ← resolve_recipient_snapshot mirror n (member_team member) (member_agent member);
  assignment ← load_message d (message_key_from (row_assignment_message_id row));
  sender_host ← match assignment with
                | Some m => authenticated_source_host (msg_envelope m)
                | None => Ok None
                end;
  build_built_in_dispatch_with_open_tasks overrides snapshot
    {| pse_sender := row_assigner row;
       pse_sender_chat_id := None;
       pse_sender_team := row_team row;
       pse_sender_host := sender_host;
       pse_recipient := row_assignee row;
       pse_recipient_team := row_team row;
       pse_message_id := row_assignment_message_id row;
       pse_description := row_description row;
       pse_requires_ack := false;
       pse_is_ack := false;
       pse_task_id := Some (row_task_id row);
       pse_task_transition := Some (task_pass_transition (row_reminder_count row));
       pse_recipient_pane_id := snap_recipient_pane_id snapshot |}
    Mode_Deferred open_tasks.
End Dispatch.

(** ** Facts *)

(** What each ingress demands: a local write carries nothing of another host, a
    peer's write is authenticated and carries its origin, a smoke write carries its
    origin without an identity, and anonymous diagnostics write nothing. *)
Definition ingress_admits (ingress : WriteIngress) (p : WriteProvenance) : Prop :=
  let authenticated := is_Some (wp_authenticated_source_host p) in
  let complete := wp_origin_message_id p = true /\ wp_origin_timestamp p = true in
  match ingress with
  | Ingress_Canonical => authenticated -> complete
  | Ingress_Local =>
    ~ authenticated /\ wp_origin_message_id p = false /\ wp_origin_timestamp p = false
  | Ingress_Peer => authenticated /\ complete
  | Ingress_UntrustedSmoke => ~ authenticated /\ complete
  | Ingress_AnonymousSmoke => False
  end.

(** Provenance is validated exactly when its ingress admits it, and only a write of
    this host to another host is a remote origin. *)
Lemma write_provenance_exact ingress p :
  (ingress_admits ingress p <-> exists v, validate_write_provenance ingress p = Ok v)
  /\ forall v, validate_write_provenance ingress p = Ok v ->
     (is_remote_origin v = true <-> is_Some (wp_target_host p) /\ wp_authenticated_source_host p = None).
Proof.
  destruct p as [[th|] [sh|] [] []]; destruct ingress; (split; [split|]).
  all: try (intros v Hv; cbn in Hv; try discriminate Hv; injection Hv as <-; cbn; unfold is_Some; naive_solver).
  all: try (intros [v Hv]; cbn in Hv; try discriminate Hv; cbn; unfold is_Some; naive_solver).
  all: intros H; cbn in H |- *; unfold is_Some in H; first [eexists; reflexivity|exfalso; naive_solver].
Qed.

Section Facts.
Context {rt : Runtime} {dr : DispatchRuntime}.

Lemma built_dispatch_event overrides snapshot event mode d :
  build_built_in_dispatch overrides snapshot event mode = Ok (Some d) ->
  dispatch_event d = event /\ dispatch_kind d = nudge_kind_for_mode mode.
Proof.
  unfold build_built_in_dispatch, build_built_in_dispatch_with_open_tasks, build_herdr_dispatch, dispatch_to.
  repeat case_match; try done;
    destruct (render_built_in_nudge_for_dispatch _ _ _ _) as [[text|]| |]; try done; by intros [= <-].
Qed.

(** The nudge rebuilt from the stored message is the one its write called for,
    unless the write moved a task. *)
Lemma rebuilt_dispatch_agrees mirror overrides n member kind m snapshot lm :
  let e := msg_envelope m in
  addressed_to member m = true ->
  resolve_recipient_snapshot mirror n (member_team member) (member_agent member) = Ok snapshot ->
  logical_message_new e (env_requires_ack e) (bool_decide (is_Some (env_acknowledges_message_id e))) None
    = Ok lm ->
  env_task_op e <> Some TaskOp_Start ->
  option_list <$> rebuild_received_hook_dispatch mirror overrides n member (lm_message_id lm) kind m
  = dispatch_message overrides (mkResolvedRecipient (member_agent member) (member_team member)) snapshot
      match kind with Nudge_Steer => Mode_Immediate | Nudge_Queue => Mode_Deferred end lm.
Proof.
  intros e Ha Hs Hl Hop. unfold rebuild_received_hook_dispatch. rewrite Ha, Hs.
  unfold logical_message_new in Hl. destruct (env_message_id e) as [id|]; [|done]. injection Hl as <-.
  unfold dispatch_message, post_send_event_from_message, task_transition_from_message,
    task_transition_from_task_op. cbn. fold e.
  destruct (authenticated_source_host e) as [h| |]; [|done..]. cbn.
  destruct (env_task_op e) as [[|outcome report]|]; [done|..].
  all: by destruct (build_built_in_dispatch _ _ _ _) as [[d|]| |].
Qed.

Lemma dispatch_message_elem overrides recipient snapshot mode lm ds d :
  dispatch_message overrides recipient snapshot mode lm = Ok ds -> d ∈ ds ->
  pse_recipient (dispatch_event d) = rcp_agent recipient
  /\ pse_recipient_team (dispatch_event d) = rcp_team recipient
  /\ pse_message_id (dispatch_event d) = lm_message_id lm
  /\ dispatch_kind d = nudge_kind_for_mode mode.
Proof.
  unfold dispatch_message, post_send_event_from_message. cbn.
  destruct (authenticated_source_host _) as [h| |]; [|done..]. cbn.
  destruct (build_built_in_dispatch _ _ _ _) as [[d'|]| |] eqn:E; [|by intros [= <-] ?%elem_of_nil|done..].
  intros [= <-] ->%list_elem_of_singleton. by apply built_dispatch_event in E as [-> ->].
Qed.

Lemma dispatch_message_one overrides recipient snapshot mode lm ds :
  dispatch_message overrides recipient snapshot mode lm = Ok ds -> length ds <= 1.
Proof.
  unfold dispatch_message. destruct (post_send_event_from_message _ _ _) as [event| |]; [|done..]. cbn.
  destruct (build_built_in_dispatch _ _ _ _) as [[d'|]| |]; [..|done|done]; intros [= <-]; cbn; lia.
Qed.

Lemma dispatch_messages_one overrides recipient snapshot mode lm :
  dispatch_messages overrides recipient snapshot mode [lm]
  = dispatch_message overrides recipient snapshot mode lm.
Proof. cbn. destruct (dispatch_message _ _ _ _ _); [|done..]. cbn. by rewrite app_nil_r. Qed.

Lemma prepared_hook_inv mirror n recipient snapshot p ra ia hook :
  prepare_received_hook mirror n recipient snapshot p ra ia = Ok (Some hook) ->
  per_newly_persisted p = true /\ ph_recipient hook = recipient
  /\ (exists lm, ph_messages hook = [lm] /\ env_message_id (per_original_message p) = Some (lm_message_id lm))
  /\ match ph_reassign_notice hook with
     | None => True
     | Some prepared => exists notice, per_reassign_notice p = Some notice
         /\ pn_recipient prepared = mkResolvedRecipient (msg_agent notice) (msg_team notice)
         /\ env_message_id (msg_envelope notice) = Some (lm_message_id (pn_message prepared))
     end.
Proof.
  unfold prepare_received_hook, requires_post_write, logical_messages_from_persistence, logical_message_new,
    prepare_reassign_notice, logical_message_new.
  destruct (per_newly_persisted p); [|done]. cbn.
  destruct (if snap_roster_backed snapshot then _ else _) as [snap| |]; [|done..]. cbn.
  destruct (env_message_id (per_original_message p)) as [id|]; [|done]. cbn.
  destruct (per_reassign_notice p) as [notice|]; cbn.
  - destruct (resolve_recipient_snapshot _ _ _ _) as [s2| |]; [|done..]. cbn.
    destruct (env_message_id (msg_envelope notice)) as [id'|] eqn:En; [|done]. cbn. intros [= <-]. cbn.
    split; [done|]. split; [done|]. split; [|by exists notice].
    eexists. split; [done|]. by destruct (per_queued_position p).
  - intros [= <-]. split; [done|]. split; [done|]. split; [|done].
    eexists. split; [done|]. by destruct (per_queued_position p).
Qed.

(** A write nudges at most its recipient, about the message it stored, and the
    former assignee of the task it moved, at once; a replay of a stored message
    nudges nobody. *)
Lemma write_nudges_its_parties mirror n overrides mode recipient snapshot p ra ia ds :
  build_received_hook_dispatches overrides mode
    (prepare_received_hook mirror n recipient snapshot p ra ia) = Ok ds ->
  length ds <= 2
  /\ (per_newly_persisted p = false -> ds = [])
  /\ forall d, d ∈ ds ->
     let event := dispatch_event d in
     (pse_recipient event = rcp_agent recipient /\ pse_recipient_team event = rcp_team recipient
      /\ env_message_id (per_original_message p) = Some (pse_message_id event)
      /\ dispatch_kind d = nudge_kind_for_mode mode)
     \/ (exists notice, per_reassign_notice p = Some notice
         /\ pse_recipient event = msg_agent notice /\ pse_recipient_team event = msg_team notice
         /\ env_message_id (msg_envelope notice) = Some (pse_message_id event)
         /\ dispatch_kind d = Nudge_Steer).
Proof.
  unfold build_received_hook_dispatches.
  destruct (prepare_received_hook _ _ _ _ _ _ _) as [[hook|]| |] eqn:Ep; [|by intros [= <-]; split; [cbn; lia|split; [done|intros d ?%elem_of_nil]]|done..].
  cbn [mbind outcome_mbind outcome_bind].
  apply prepared_hook_inv in Ep as (Hnew & <- & (lm & -> & Hid) & Hnotice).
  destruct (dispatch_messages _ _ _ _ _) as [primary| |] eqn:E1; [|done..]. cbn [mbind outcome_mbind outcome_bind].
  destruct (match ph_reassign_notice hook with None => _ | Some _ => _ end) as [second| |] eqn:E2; [|done..].
  intros [= <-].
  assert (primary = [] \/ dispatch_message overrides (ph_recipient hook) (ph_delivery_snapshot hook) mode lm
                          = Ok primary) as H1.
  { destruct (suppress_primary _ _); [left; by injection E1 as <-|right; by rewrite <- dispatch_messages_one]. }
  split; [|split; [by rewrite Hnew|intros d [Hd|Hd]%elem_of_app]].
  - rewrite length_app. assert (length primary <= 1) by (destruct H1 as [->|?%dispatch_message_one]; cbn; lia).
    assert (length second <= 1); [|lia]. destruct (ph_reassign_notice hook); [by eapply dispatch_message_one|].
    injection E2 as <-. cbn. lia.
  - left. destruct H1 as [->|H1]; [by apply elem_of_nil in Hd|].
    by destruct (dispatch_message_elem _ _ _ _ _ _ _ H1 Hd) as (-> & -> & -> & ->).
  - right. destruct (ph_reassign_notice hook) as [prepared|]; [|by injection E2 as <-; apply elem_of_nil in Hd].
    destruct Hnotice as (notice & Hn & Hr & Hi). exists notice.
    destruct (dispatch_message_elem _ _ _ _ _ _ _ E2 Hd) as (-> & -> & -> & ->). by rewrite Hr.
Qed.
End Facts.
