(* ===== verification/HerdrPolicy.v ===== *)
(** * What the pump decides

    Models the pure policy behind the polling pump that wakes herdr agents:
    [crates/atm-http-runtime/src/herdr_task_disposition.rs] (which action a member's
    head task calls for), the episodes of [herdr_escalation.rs], and the reading of
    a poll in [herdr_queue_wake/task_pass.rs].

    A duration in milliseconds is truncated toward zero, as
    [Duration::num_milliseconds] does. *)

From S2P Require Import Prelude ErrorCodes Types TaskState Database RosterMirror Admission.
From stdpp Require Import base gmap countable strings list numbers.
Local Open Scope Z_scope.
Local Open Scope string_scope.

Definition TASK_REMINDER_INTERVAL_MS : Z := 60000.
Definition TASK_STALLED_REMINDER_THRESHOLD : Z := 10.
Definition TASK_CONSECUTIVE_REFUSAL_THRESHOLD : Z := 3.

(** [(later - earlier).num_milliseconds()]. *)
Definition elapsed_ms (earlier later : IsoTimestamp) : Z := Z.quot (later - earlier) 1000000.

#[export] Instance MemberKey_eq_dec : EqDecision MemberKey.
Proof. solve_decision. Defined.
#[export] Program Instance MemberKey_countable : Countable MemberKey :=
  inj_countable' (fun m => (member_team m, member_agent m)) (fun p => mkMemberKey p.1 p.2) _.
Next Obligation. by intros []. Qed.

(** ** The disposition of a task *)

Inductive EpisodeKind : Set := Episode_Blocked | Episode_Offline.

#[export] Instance EpisodeKind_eq_dec : EqDecision EpisodeKind.
Proof. solve_decision. Defined.

Definition episode_kind_as_str (kind : EpisodeKind) : string :=
  match kind with Episode_Blocked => "blocked" | Episode_Offline => "offline" end.

Inductive TaskDisposition : Set :=
| Disposition_Nudge
| Disposition_ResetReminders
| Disposition_EscalateStalled
| Disposition_EscalateEpisode (kind : EpisodeKind)
| Disposition_Hold (reason : string).

#[export] Instance TaskDisposition_eq_dec : EqDecision TaskDisposition.
Proof. solve_decision. Defined.

Definition sustained_active (active_since : option IsoTimestamp) (now : IsoTimestamp) : bool :=
  match active_since with
  | Some since => Z.leb TASK_REMINDER_INTERVAL_MS (elapsed_ms since now)
  | None => false
  end.

Definition escalation_due (task : TaskRow) : bool :=
  bool_decide (row_state task = TaskState_Assigned)
  && Z.leb TASK_STALLED_REMINDER_THRESHOLD (row_reminder_count task)
  && Z.eqb (row_lead_notified_count task) 0.

Definition reminder_due (task : TaskRow) (now : IsoTimestamp) : bool :=
  match row_last_reminded_at task with
  | None => true
  | Some last => Z.leb TASK_REMINDER_INTERVAL_MS (elapsed_ms last now)
  end.

Definition dispose (mail_pending : bool) (state : RuntimeMemberState) (head : option TaskRow)
    (now : IsoTimestamp) (active_since : option IsoTimestamp) (new_episode : bool)
    (consecutive_refusals : Z) : TaskDisposition :=
  let episode kind :=
    match head with
    | None => Disposition_Hold "no open task"
    | Some _ => if new_episode then Disposition_EscalateEpisode kind
                else Disposition_Hold "episode reported"
    end in
  match state with
  | State_Active =>
    match head with
    | Some task =>
      if Z.ltb 0 (row_reminder_count task) && sustained_active active_since now
      then Disposition_ResetReminders else Disposition_Hold "active"
    | None => Disposition_Hold "active"
    end
  | State_Blocked => episode Episode_Blocked
  | State_Offline => episode Episode_Offline
  | State_Unknown => Disposition_Hold "unobserved"
  | State_IdentityConflict => Disposition_Hold "identity conflict"
  | State_Idle =>
    match head with
    | None => if mail_pending then Disposition_Hold "mail pending"
              else Disposition_Hold "no open task"
    | Some task =>
      if bool_decide (row_state task = TaskState_Active) then Disposition_Hold "task active"
      else if Z.leb TASK_CONSECUTIVE_REFUSAL_THRESHOLD consecutive_refusals
      then Disposition_Hold "refusals escalated"
      else if escalation_due task then Disposition_EscalateStalled
      else if Z.ltb 0 (row_lead_notified_count task) then Disposition_Hold "stalled reported"
      else if Z.leb TASK_STALLED_REMINDER_THRESHOLD (row_reminder_count task)
      then Disposition_Hold "stalled reported"
      else if mail_pending then Disposition_Hold "mail pending"
      else if reminder_due task now then Disposition_Nudge
      else Disposition_Hold "rate limited"
    end
  end.

(** ** Episodes *)

Record Episode : Set := mkEpisode {
  episode_kind : EpisodeKind;
  episode_since : option IsoTimestamp
}.

#[export] Instance Episode_eq_dec : EqDecision Episode.
Proof. solve_decision. Defined.

Abbreviation EscalationState := (gmap MemberKey Episode).

Definition episode_of (state : RuntimeMemberState) : option EpisodeKind :=
  match state with
  | State_Blocked => Some Episode_Blocked
  | State_Offline => Some Episode_Offline
  | _ => None
  end.

(** [EscalationState::observe] of a transition: whether it starts an episode that
    was not known, and the episodes known now. *)
Definition observe_transition (episodes : EscalationState) (member : MemberKey)
    (state : RuntimeMemberState) (state_changed_at : option IsoTimestamp)
    : bool * EscalationState :=
  match episode_of state with
  | None => (false, delete member episodes)
  | Some kind =>
    let episode := mkEpisode kind state_changed_at in
    (bool_decide (episodes !! member <> Some episode), <[member := episode]> episodes)
  end.

(** [EscalationState::observe] of a fresh reading: whether it is still the episode. *)
Definition observe_verify (state : RuntimeMemberState) (state_changed_at : option IsoTimestamp)
    (kind : EpisodeKind) (since : IsoTimestamp) : bool :=
  bool_decide (episode_of state = Some kind) && bool_decide (state_changed_at = Some since).

Definition hold_targets_unavailable (episodes : EscalationState) (member : MemberKey)
    : EscalationState := delete member episodes.

Definition observe_escalation_episode_if_eligible (episodes : EscalationState) (member : MemberKey)
    (state : RuntimeMemberState) (state_changed_at : option IsoTimestamp) (has_open_task : bool)
    : bool * EscalationState :=
  if bool_decide (is_Some (episode_of state)) && negb has_open_task then (false, episodes)
  else observe_transition episodes member state state_changed_at.

(** ** The reading of a poll *)

Inductive HerdrAgentStatus : Set :=
| Herdr_Idle | Herdr_Done | Herdr_Working | Herdr_Blocked | Herdr_Unknown.

Definition runtime_state (status : option HerdrAgentStatus) : RuntimeMemberState :=
  match status with
  | None => State_Unknown
  | Some (Herdr_Idle | Herdr_Done) => State_Idle
  | Some Herdr_Working => State_Active
  | Some Herdr_Blocked => State_Blocked
  | Some Herdr_Unknown => State_Unknown
  end.

Definition OFFLINE_ABSENCE_INTERVALS : Z := 2.

Definition runtime_state_with_absence (absences : gmap MemberKey IsoTimestamp) (member : MemberKey)
    (status : option HerdrAgentStatus) (observed_at : IsoTimestamp)
    : RuntimeMemberState * gmap MemberKey IsoTimestamp :=
  match status with
  | None =>
    let started_at := default observed_at (absences !! member) in
    (if Z.leb (TASK_REMINDER_INTERVAL_MS * OFFLINE_ABSENCE_INTERVALS)
          (elapsed_ms started_at observed_at)
     then State_Offline else State_Unknown,
     <[member := started_at]> absences)
  | Some status => (runtime_state (Some status), delete member absences)
  end.
