(* ===== verification/HerdrWake.v ===== *)
(** * The queue half of the pump

    Models the part of [HerdrQueueWakePump]
    ([crates/atm-http-runtime/src/herdr_queue_wake.rs],
    [herdr_queue_wake/release_guard.rs]) that hands pending messages to idle agents:
    the candidates of the rosters, the poll of herdr and the observations it makes,
    the claim of a message with its guard, and the round-robin drain.

    Work on the stores goes through the blocking bridge ([router_support.rs]), which
    runs a job, refuses it, or loses its answer after it ran.  Before every such
    call other tasks may have committed to the database ([others_commit]) and
    observed members ([others_observe]). *)

From S2P Require Import Prelude ErrorCodes Types Address TaskState Database Transaction.
From S2P Require Import Selection Roster RosterMirror MemberMutation NudgeTemplate MailStore.
From S2P Require Import CronStore MailboxReader Admission MailboxRuntime PendingNudge Dispatch.
From S2P Require Import HerdrPolicy.
From stdpp Require Import base gmap strings list numbers.
Local Open Scope Z_scope.
Local Open Scope string_scope.
Local Open Scope list_scope.

Definition HERDR_MAX_PROMPTS_PER_TICK : Z := 16.
Definition HERDR_MAX_CONSECUTIVE_RELEASES : Z := 10.

(** ** The state of the pump *)

(** The counters of [HerdrQueueWakeStats]. *)
Inductive Counter : Set :=
| listed_sessions | pending_members | idle_members | prompted | released | breaker_open
| not_present | task_reminders | task_reminders_failed | task_reminders_unrenderable
| lead_notifications | blocked_escalations | escalation_writes_failed.

#[export] Instance Counter_eq_dec : EqDecision Counter.
Proof. solve_decision. Defined.

Record HerdrQueueWakeStats : Set := mkStats {
  count : Counter -> Z;
  task_step_skipped : bool;
  last_tick_at : option IsoTimestamp
}.

Definition add_count (c : Counter) (n : Z) (s : HerdrQueueWakeStats) : HerdrQueueWakeStats :=
  mkStats (fun c' => if bool_decide (c = c') then count s c' + n else count s c')
    (task_step_skipped s) (last_tick_at s).

(** The stores the pump shares with the rest of the daemon. *)
Record Shared : Type := mkShared {
  sh_world : World;
  sh_mirror : RosterRuntimeState;
  sh_overrides : OverrideTable
}.

(** [HerdrQueueWakePump]; [pw_accepted] records the prompts that were accepted. *)
Record PumpWorld : Type := mkPumpWorld {
  pw_shared : Shared;
  pw_cursor : nat;
  pw_release_streaks : gmap MemberKey Z;
  pw_absence_started_at : gmap MemberKey IsoTimestamp;
  pw_episodes : EscalationState;
  pw_stats : HerdrQueueWakeStats;
  pw_accepted : list BuiltInPostSendDispatch
}.

Definition with_shared (s : Shared) (w : PumpWorld) : PumpWorld :=
  mkPumpWorld s (pw_cursor w) (pw_release_streaks w) (pw_absence_started_at w) (pw_episodes w)
    (pw_stats w) (pw_accepted w).
Definition with_cursor (cursor : nat) (w : PumpWorld) : PumpWorld :=
  mkPumpWorld (pw_shared w) cursor (pw_release_streaks w) (pw_absence_started_at w) (pw_episodes w)
    (pw_stats w) (pw_accepted w).
Definition with_streaks (f : gmap MemberKey Z -> gmap MemberKey Z) (w : PumpWorld) : PumpWorld :=
  mkPumpWorld (pw_shared w) (pw_cursor w) (f (pw_release_streaks w)) (pw_absence_started_at w)
    (pw_episodes w) (pw_stats w) (pw_accepted w).
Definition with_absences (absences : gmap MemberKey IsoTimestamp) (w : PumpWorld) : PumpWorld :=
  mkPumpWorld (pw_shared w) (pw_cursor w) (pw_release_streaks w) absences (pw_episodes w)
    (pw_stats w) (pw_accepted w).
Definition with_episodes (episodes : EscalationState) (w : PumpWorld) : PumpWorld :=
  mkPumpWorld (pw_shared w) (pw_cursor w) (pw_release_streaks w) (pw_absence_started_at w) episodes
    (pw_stats w) (pw_accepted w).
Definition with_stats (stats : HerdrQueueWakeStats) (w : PumpWorld) : PumpWorld :=
  mkPumpWorld (pw_shared w) (pw_cursor w) (pw_release_streaks w) (pw_absence_started_at w)
    (pw_episodes w) stats (pw_accepted w).
Definition with_accepted (dispatch : BuiltInPostSendDispatch) (w : PumpWorld) : PumpWorld :=
  mkPumpWorld (pw_shared w) (pw_cursor w) (pw_release_streaks w) (pw_absence_started_at w)
    (pw_episodes w) (pw_stats w) (pw_accepted w ++ [dispatch]).

Definition Pump (A : Type) : Type := ST PumpWorld AtmError A.

#[export] Instance Pump_ret : MRet Pump := st_ret PumpWorld AtmError.
#[export] Instance Pump_bind : MBind Pump := st_mbind PumpWorld AtmError.

Definition get_pump : Pump PumpWorld := fun w => (Ok w, w).
Definition modify (f : PumpWorld -> PumpWorld) : Pump unit := fun w => (Ok tt, f w).
Definition when (b : bool) (c : Pump unit) : Pump unit := if b then c else mret tt.
Definition tally (c : Counter) : Pump unit := modify (fun w => with_stats (add_count c 1 (pw_stats w)) w).

(** ** What the pump takes from outside *)

Inductive BridgeFate : Set :=
| Fate_Runs
| Fate_Refused (error : AtmError)   (* no permit before the deadline, or closed *)
| Fate_Lost (error : AtmError).     (* the job ran, its answer came too late *)

Record AgentSnapshot : Set := mkAgentSnapshot {
  snapshot_name : option string;
  snapshot_status : HerdrAgentStatus
}.

Class HerdrPorts : Type := mkHerdrPorts {
  bridge_fate : nat -> BridgeFate;
  join_cause : nat -> string;   (* how tokio words the panic of a job *)
  others_observe : nat -> RosterRuntimeState -> RosterRuntimeState;
  session_order : list (option HerdrSession) -> list (option HerdrSession);
      (* the iteration order of a hash map *)
  herdr_list : nat -> option HerdrSession -> bool + list AgentSnapshot;
      (* an error, with whether it is one of the infrastructure, or the agents *)
  select_emitter : BuiltInPostSendDispatch -> bool;
  emit_received_message : nat -> BuiltInPostSendDispatch -> Outcome AtmError unit
}.

(** ** Candidates *)

Inductive CandidateTarget : Set :=
| Candidate_Herdr (agent : HerdrAgentName) (session : option HerdrSession)
| Candidate_RosterOnly.

Record HerdrCandidate : Set := mkHerdrCandidate {
  hc_key : MemberKey;
  hc_pending : bool;
  hc_target : CandidateTarget
}.

Record MemberObservation : Set := mkMemberObservation {
  mo_member : MemberKey;
  mo_state : RuntimeMemberState;
  mo_state_changed_at : option IsoTimestamp
}.

Definition member_order (left right : MemberKey) : comparison :=
  match String.compare (member_team left) (member_team right) with
  | Eq => String.compare (member_agent left) (member_agent right)
  | c => c
  end.

(** The target of a roster member; a herdr member without a valid name is skipped. *)
Definition candidate_target (m : RosterMember) : option CandidateTarget :=
  match local_message_received_backend m with
  | Some (Backend_Herdr session agent) =>
    match resolve_herdr_agent_target (rm_agent_name m) agent with
    | Some agent => Some (Candidate_Herdr agent session)
    | None => None
    end
  | Some (Backend_Tmux _) | None => Some Candidate_RosterOnly
  end.

Definition candidate_of (pending : gset MemberKey) (m : RosterMember) : option HerdrCandidate :=
  let key := mkMemberKey (rm_team_name m) (rm_agent_name m) in
  (fun target => mkHerdrCandidate key (bool_decide (key ∈ pending)) target)
    <$> candidate_target m.

(** [herdr_candidates], over the write-through view of the rosters. *)
Definition herdr_candidates (mirror : RosterRuntimeState) (pending : gset MemberKey)
    : list HerdrCandidate :=
  sort_by (fun a b => member_order (hc_key a) (hc_key b))
    (omap (candidate_of pending)
       (Mirror.team_names mirror ≫= Mirror.load_team_roster mirror)).

Definition queue_drain_eligible (observation : MemberObservation) : bool :=
  match mo_state observation with State_Idle => true | _ => false end.

Section Wake.
Context {rt : Runtime} {crt : CronRuntime} {lane : ReaderLane} {dr : DispatchRuntime}
  {ports : HerdrPorts}.

(** ** The bridge *)

(** The shared stores as a call finds them. *)
Definition catch_up (s : Shared) : Shared :=
  let n := ticks (sh_world s) in
  mkShared (mkWorld (others_commit n (db (sh_world s))) (S n)) (others_observe n (sh_mirror s))
    (sh_overrides s).

(** The [Join] error of [blocking_bridge_error]. *)
Definition task_ended_unexpectedly (n : nat) : AtmError :=
  with_cause (atm_error_new InternalError "blocking task ended unexpectedly") (join_cause n).

(** [BoundedBlockingBridge::run]; a job that panics ends its own task only. *)
Definition bridge {A} (job : Shared -> Outcome AtmError A * Shared) : Pump (Outcome AtmError A) :=
  fun w =>
    let n := ticks (sh_world (pw_shared w)) in
    let s := catch_up (pw_shared w) in
    match bridge_fate n with
    | Fate_Runs =>
      let '(o, s') := job s in
      (Ok match o with Panic => Err (task_ended_unexpectedly n) | _ => o end, with_shared s' w)
    | Fate_Refused error => (Ok (Err error), with_shared s w)
    | Fate_Lost error => (Ok (Err error), with_shared (job s).2 w)
    end.

(** A job on the database alone. *)
Definition on_store {A} (c : M A) (s : Shared) : Outcome AtmError A * Shared :=
  let '(o, w) := c (sh_world s) in (o, mkShared w (sh_mirror s) (sh_overrides s)).

Definition clock : Pump IsoTimestamp :=
  fun w =>
    let '(o, s) := on_store now (pw_shared w) in (o, with_shared s w).

(** A call of a port at the next reading. *)
Definition port {A} (f : nat -> A) : Pump A :=
  fun w => let s := catch_up (pw_shared w) in
           (Ok (f (ticks (sh_world (pw_shared w)))), with_shared s w).

Definition on_mirror {A} (f : RosterRuntimeState -> A * RosterRuntimeState) : Pump A :=
  fun w => let s := pw_shared w in
           let '(a, m) := f (sh_mirror s) in
           (Ok a, with_shared (mkShared (sh_world s) m (sh_overrides s)) w).

(** ** Observations *)

(** [snapshots]: the last agent of a name counts. *)
Definition snapshot_status_of (agents : list AgentSnapshot) (name : HerdrAgentName)
    : option HerdrAgentStatus :=
  snapshot_status <$> List.find (fun a => bool_decide (snapshot_name a = Some name)) (reverse agents).

(** The updates of a poll, with the absences it leaves. *)
Fixpoint poll_updates (agents : list AgentSnapshot) (observed_at : IsoTimestamp)
    (members : list HerdrCandidate) (absences : gmap MemberKey IsoTimestamp)
    : list (TeamName * RosterRuntimeObservationUpdate) * gmap MemberKey IsoTimestamp :=
  match members with
  | [] => ([], absences)
  | m :: rest =>
    match hc_target m with
    | Candidate_RosterOnly => poll_updates agents observed_at rest absences
    | Candidate_Herdr agent _ =>
      let '(state, absences) :=
        runtime_state_with_absence absences (hc_key m) (snapshot_status_of agents agent)
          observed_at in
      let '(updates, absences) := poll_updates agents observed_at rest absences in
      ((member_team (hc_key m),
        observed (member_agent (hc_key m)) state Source_HerdrPoll observed_at None) :: updates,
       absences)
    end
  end.

(** [updates_by_team] applied team by team. *)
Fixpoint observe_teams (updates : list (TeamName * RosterRuntimeObservationUpdate))
    (teams : list TeamName) (mirror : RosterRuntimeState)
    : list (TeamName * RosterRuntimeMutationOutcome) * RosterRuntimeState :=
  match teams with
  | [] => ([], mirror)
  | team :: rest =>
    let '(outcomes, mirror) :=
      Mirror.apply_runtime_observations mirror team
        (List.filter (fun u => String.eqb u.1 team) updates).*2 in
    let '(others, mirror) := observe_teams updates rest mirror in
    ((pair team <$> outcomes) ++ others, mirror)
  end.

Definition apply_herdr_observations (agents : list AgentSnapshot) (members : list HerdrCandidate)
    (observed_at : IsoTimestamp) : Pump (gmap MemberKey RosterRuntimeObservation) :=
  w ← get_pump;
  let '(updates, absences) := poll_updates agents observed_at members (pw_absence_started_at w) in
  _ ← modify (with_absences absences);
  outcomes ← on_mirror (observe_teams updates (remove_dups updates.*1));
  mret (list_to_map (reverse ((fun o : TeamName * RosterRuntimeMutationOutcome =>
    (mkMemberKey o.1 (out_agent o.2), out_current o.2)) <$> outcomes))).

Definition record_unavailable_members (members : list HerdrCandidate) (observed_at : IsoTimestamp)
    : Pump unit :=
  let updates := (fun m => (member_team (hc_key m),
                            unavailable (member_agent (hc_key m)) Source_HerdrPoll observed_at))
                   <$> members in
  _ ← on_mirror (observe_teams updates (remove_dups updates.*1));
  mret tt.

(** ** Who may be woken *)

(** A member the roster alone knows: its observation, and whether it is eligible. *)
Definition roster_only_observation (mirror : RosterRuntimeState) (m : HerdrCandidate)
    : option MemberObservation :=
  (fun record => mkMemberObservation (hc_key m) (obs_state (eph_runtime record))
                   (obs_state_changed_at (eph_runtime record)))
    <$> Mirror.ephemeral_state mirror (member_team (hc_key m)) (member_agent (hc_key m)).

(** [collect_idle_members]. *)
Fixpoint collect_loop (agents : list AgentSnapshot)
    (accepted : gmap MemberKey RosterRuntimeObservation) (members : list HerdrCandidate)
    : Pump (list HerdrCandidate * list MemberObservation) :=
  match members with
  | [] => mret ([], [])
  | m :: rest =>
    match hc_target m with
    | Candidate_RosterOnly => collect_loop agents accepted rest
    | Candidate_Herdr agent _ =>
      _ ← when (bool_decide (snapshot_status_of agents agent = None) && hc_pending m)
            (tally not_present);
      match accepted !! hc_key m with
      | None => collect_loop agents accepted rest
      | Some runtime =>
        let observation := mkMemberObservation (hc_key m) (obs_state runtime)
                             (obs_state_changed_at runtime) in
        if hc_pending m && queue_drain_eligible observation then
          _ ← tally idle_members;
          '(eligible, candidates) ← collect_loop agents accepted rest;
          mret (m :: eligible, observation :: candidates)
        else
          '(eligible, candidates) ← collect_loop agents accepted rest;
          mret (eligible, observation :: candidates)
      end
    end
  end.

Definition collect_idle_members (agents : list AgentSnapshot) (members : list HerdrCandidate)
    (observed_at : IsoTimestamp) : Pump (list HerdrCandidate * list MemberObservation) :=
  accepted ← apply_herdr_observations agents members observed_at;
  collect_loop agents accepted members.

Definition session_of (m : HerdrCandidate) : option (option HerdrSession) :=
  match hc_target m with Candidate_Herdr _ session => Some session | Candidate_RosterOnly => None end.

(** The poll of each session. *)
Fixpoint poll_sessions (candidates : list HerdrCandidate) (sessions : list (option HerdrSession))
    : Pump (list HerdrCandidate * list MemberObservation) :=
  match sessions with
  | [] => mret ([], [])
  | session :: rest =>
    let members := List.filter (fun m => bool_decide (session_of m = Some session)) candidates in
    _ ← tally listed_sessions;
    listed ← port (fun n => herdr_list n session);
    observed_at ← clock;
    '(eligible, observations) ←
      match listed : bool + list AgentSnapshot with
      | inr agents => collect_idle_members agents members observed_at
      | inl infrastructure =>
        _ ← record_unavailable_members members observed_at;
        _ ← when infrastructure (tally breaker_open);
        mret ([], [])
      end;
    '(eligible', observations') ← poll_sessions candidates rest;
    mret (eligible ++ eligible', observations ++ observations')
  end.

Definition list_eligible (candidates : list HerdrCandidate)
    : Pump (list HerdrCandidate * list MemberObservation) :=
  w ← get_pump;
  let mirror := sh_mirror (pw_shared w) in
  let roster_only := List.filter (fun m => bool_decide (session_of m = None)) candidates in
  let known := omap (roster_only_observation mirror) roster_only in
  let idle := List.filter (fun m =>
      hc_pending m && match roster_only_observation mirror m with
                      | Some observation => queue_drain_eligible observation
                      | None => false
                      end) roster_only in
  '(eligible, observations) ←
    poll_sessions candidates (session_order (remove_dups (omap session_of candidates)));
  mret (sort_by (fun a b => member_order (hc_key a) (hc_key b)) (idle ++ eligible),
        sort_by (fun a b => member_order (mo_member a) (mo_member b)) (known ++ observations)).

Definition prune_member_state (candidates : list HerdrCandidate) : Pump unit :=
  modify (with_streaks (filter (fun e => e.1 ∈ hc_key <$> candidates))).

(** ** The guard of a claim *)

(** [ReleasePendingOnDrop]. *)
Record ReleaseGuard : Set := mkReleaseGuard {
  guard_member : MemberKey;
  guard_claim : NudgeClaim;
  guard_armed : bool
}.

Definition disarm (g : ReleaseGuard) : ReleaseGuard :=
  mkReleaseGuard (guard_member g) (guard_claim g) false.

(** [claim_release_action]: whether the release spends an attempt. *)
Definition claim_release_action (member : MemberKey) : Pump bool :=
  w ← get_pump;
  let streak := default 0 (pw_release_streaks w !! member) in
  if Z.leb HERDR_MAX_CONSECUTIVE_RELEASES streak
  then _ ← modify (with_streaks (delete member)); mret true
  else _ ← modify (with_streaks <[member := u32_saturating_add streak 1]>); mret false.

(** [release_without_input]; [release_in_drop] does the same for a guard dropped
    armed. *)
Definition release_without_input (g : ReleaseGuard) : Pump ReleaseGuard :=
  if guard_armed g then
    should_requeue ← claim_release_action (guard_member g);
    _ ← bridge (on_store (if should_requeue : bool
                          then requeue_pending (guard_member g) (guard_claim g)
                          else release_pending (guard_member g) (guard_claim g)));
    mret (disarm g)
  else mret g.

Definition requeue (g : ReleaseGuard) : Pump ReleaseGuard :=
  if guard_armed g then
    _ ← modify (with_streaks (delete (guard_member g)));
    _ ← bridge (on_store (requeue_pending (guard_member g) (guard_claim g)));
    mret (disarm g)
  else mret g.

Definition set_wake_pending (member : MemberKey) (pending : bool) : Pump unit :=
  _ ← on_mirror (fun m =>
        Mirror.set_herdr_wake_pending m (member_team member) (member_agent member) pending);
  mret tt.

Definition drop_guard (g : ReleaseGuard) : Pump unit :=
  _ ← release_without_input g;
  set_wake_pending (guard_member g) false.

(** ** One claimed message *)

Definition still_idle (member : MemberKey) : Pump bool :=
  w ← get_pump;
  mret match Mirror.ephemeral_state (sh_mirror (pw_shared w)) (member_team member)
               (member_agent member) with
       | Some record => bool_decide (obs_state (eph_runtime record) = State_Idle)
       | None => false
       end.

(** [rebuild_dispatch]: the dispatch, and whether its handoff ends the message. *)
Definition rebuild_dispatch (member : MemberKey) (msg : AtmMessageId)
    : Pump (Outcome AtmError (option (BuiltInPostSendDispatch * bool))) :=
  loaded ← bridge (fun s =>
    (load_received_hook_dispatch_message (db (sh_world s)) member msg, s));
  match loaded with
  | Err e => mret (Err e)
  | Panic => st_panic
  | Ok None => mret (Ok None)
  | Ok (Some m) =>
    w ← get_pump;
    let s := pw_shared w in
    rebuilt ← port (fun n =>
      rebuild_received_hook_dispatch (sh_mirror s) (sh_overrides s) n member msg Nudge_Queue m);
    match rebuilt with
    | Err e => mret (Err e)
    | Panic => st_panic
    | Ok None => mret (Ok None)
    | Ok (Some dispatch) => mret (Ok (Some (dispatch, is_terminal_escalation_message m)))
    end
  end.

Definition reserve_queue_marker_for_terminal_handoff (member : MemberKey) (claim : NudgeClaim)
    : M unit :=
  reserved ← complete_pending_before_terminal_handoff member claim;
  if reserved : bool then mret tt
  else fail (atm_error_new InternalError "terminal queue claim no longer owns its pending marker").

Definition restore_queue_marker_after_failed_terminal_handoff (member : MemberKey)
    (claim : NudgeClaim) : M unit :=
  restored ← restore_pending_after_failed_terminal_handoff member claim;
  if restored : bool then mret tt
  else fail (atm_error_new InternalError
               "terminal queue claim could not restore its pending marker").

(** One retry, and no failure: the prompt was delivered. *)
Definition rearm_queue_marker_after_handoff (member : MemberKey) (msg : AtmMessageId)
    (next_due : IsoTimestamp) : M unit :=
  fun w =>
    match rearm_pending_after_handoff member msg next_due w with
    | (Err _, w') =>
      match rearm_pending_after_handoff member msg next_due w' with
      | (Err _, w'') => (Ok tt, w'')
      | r => r
      end
    | r => r
    end.

Definition reserve_terminal_handoff (member : MemberKey) (g : ReleaseGuard)
    : Pump (bool * ReleaseGuard) :=
  result ← bridge (on_store
    (reserve_queue_marker_for_terminal_handoff member (guard_claim g)));
  match result with
  | Ok _ => mret (true, disarm g)
  | _ =>
    g' ← release_without_input g;
    _ ← tally released;
    mret (false, g')
  end.

Definition reset_release_streak (member : MemberKey) : Pump unit :=
  modify (with_streaks (delete member)).

Definition complete_successful_claim (member : MemberKey) (g : ReleaseGuard)
    (terminal_after_handoff : bool) : Pump ReleaseGuard :=
  now ← clock;
  let next_due := next_reminder_due now in
  _ ← bridge (on_store (if terminal_after_handoff then mret tt
                        else rearm_queue_marker_after_handoff member
                               (claim_msg (guard_claim g)) next_due));
  _ ← reset_release_streak member;
  _ ← tally prompted;
  mret (disarm g).

Definition terminal_handoff_rejected_before_input (error : AtmError) : bool :=
  bool_decide (code error = PostSendHerdrPromptFailed).

(** [emit_claim]: the message that was handed over, if any. *)
Definition emit_claim (dispatch : BuiltInPostSendDispatch) (terminal_after_handoff : bool)
    (member : MemberKey) (g : ReleaseGuard) : Pump (option AtmMessageId * ReleaseGuard) :=
  '(reserved, g) ← (if terminal_after_handoff then reserve_terminal_handoff member g
                    else mret (true, g));
  if negb reserved then mret (None, g)
  else
    emitted ← port (fun n => emit_received_message n dispatch);
    match emitted with
    | Panic => st_panic
    | Ok _ =>
      _ ← modify (with_accepted dispatch);
      g ← complete_successful_claim member g terminal_after_handoff;
      mret (Some (claim_msg (guard_claim g)), g)
    | Err error =>
      _ ← when (terminal_after_handoff && terminal_handoff_rejected_before_input error)
            (_ ← bridge (on_store
                   (restore_queue_marker_after_failed_terminal_handoff member (guard_claim g)));
             mret tt);
      _ ← when (bool_decide (code error = HerdrUnavailable)) (tally breaker_open);
      g ← (if bool_decide (code error = HerdrPromptFailed) then requeue g
           else release_without_input g);
      _ ← tally released;
      mret (None, g)
    end.

(** The guard is dropped at the end of every attempt. *)
Definition process_candidate (m : HerdrCandidate) : Pump (option AtmMessageId) :=
  let member := hc_key m in
  claimed ← bridge (on_store (claim_next_pending member));
  match claimed with
  | Ok (Some claim) =>
    _ ← set_wake_pending member true;
    let g := mkReleaseGuard member claim true in
    let held :=
      g ← release_without_input g;
      _ ← tally released;
      mret (None, g) in
    queued ← rebuild_dispatch member (claim_msg claim);
    '(handed, g) ←
      match queued with
      | Ok (Some (dispatch, terminal_after_handoff)) =>
        idle ← still_idle member;
        if negb idle then held
        else if select_emitter dispatch
        then emit_claim dispatch terminal_after_handoff member g
        else held
      | _ => held
      end;
    _ ← drop_guard g;
    mret handed
  | _ => mret None
  end.

(** ** The drain *)

Fixpoint drain_loop (eligible : list HerdrCandidate) (offset : nat) (remaining visited : nat)
    : Pump nat :=
  match remaining with
  | O => mret visited
  | S remaining =>
    w ← get_pump;
    if Z.leb HERDR_MAX_PROMPTS_PER_TICK (count (pw_stats w) prompted) then mret visited
    else
      _ ← match eligible !! (offset mod length eligible)%nat with
          | Some m => process_candidate m
          | None => mret None
          end;
      drain_loop eligible (S offset) remaining (S visited)
  end.

Definition drain_eligible (eligible : list HerdrCandidate) : Pump unit :=
  match eligible with
  | [] => mret tt
  | _ :: _ =>
    w ← get_pump;
    let start := (pw_cursor w mod length eligible)%nat in
    visited ← drain_loop eligible start (length eligible) 0;
    modify (with_cursor ((start + visited) mod length eligible)%nat)
  end.
End Wake.
