(* ===== verification/WriterInv.v ===== *)
(** * The writer preserves the store's invariant

    [store_inv]: the ledger, the event log and the mail tables are well formed.
    Every operation that succeeds preserves it, an operation never panics, and
    two levels of recursion are enough for the admission. *)

From S2P Require Import Prelude ErrorCodes Types TaskState Database TaskCodec TaskQueue QueueFacts.
From S2P Require Import LedgerInv EventLog PlacementSpec MailStore MailSpec TaskOps.
From S2P Require Import TaskStartSpec TaskMoveSpec TaskAssignSpec TaskCloseSpec Admission Writer.
From stdpp Require Import base gmap strings list numbers sorting pretty.
Local Open Scope Z_scope.
Local Open Scope string_scope.
Local Open Scope list_scope.

Record store_inv (d : Db) : Prop := mkStoreInv {
  inv_ledger : ledger_ok (tasks d);
  inv_events : events_ok (task_events d);
  inv_mail : mail_ok d
}.

(** Room for [n] more tasks under the [u32] bound. *)
Definition room (n : nat) (d : Db) : Prop := 2 * Z.of_nat (size (tasks d) + n) < u32_max.

Lemma room_bounded n d : room n d -> queues_bounded (tasks d).
Proof. unfold room, queues_bounded. lia. Qed.

(** [ledger_facts Hi Hr]: what an invariant and some room say of the ledger. *)
Ltac ledger_facts Hi Hr :=
  pose proof (room_bounded _ _ Hr) as Hb; pose proof (inv_ledger _ Hi) as Hl.

#[export] Hint Resolve inv_ledger inv_events inv_mail room_bounded : atm.

(** [d'] is a good successor of [d] that adds at most [n] tasks. *)
Definition good (n : nat) (d d' : Db) : Prop :=
  store_inv d' /\ (size (tasks d') <= size (tasks d) + n)%nat.

Lemma good_weaken n m d d' : (n <= m)%nat -> good n d d' -> good m d d'.
Proof. intros Hle [Hi Hs]. split; [done|lia]. Qed.

Lemma good_trans n m d1 d2 d3 : good n d1 d2 -> good m d2 d3 -> good (n + m) d1 d3.
Proof. intros [_ H1] [Hi H2]. split; [done|lia]. Qed.

Lemma good_room n m d d' : good n d d' -> room (n + m) d -> room m d'.
Proof. unfold good, room. intros [_ Hs] Hr. lia. Qed.

(** The same, for the operations that never delete a message. *)
Definition grown (n : nat) (d d' : Db) : Prop := good n d d' /\ mail_grows d d'.

Lemma grown_weaken n m d d' : (n <= m)%nat -> grown n d d' -> grown m d d'.
Proof. intros Hle [Hg Hm]. split; [by eapply good_weaken|done]. Qed.

Lemma grown_trans n m d1 d2 d3 : grown n d1 d2 -> grown m d2 d3 -> grown (n + m) d1 d3.
Proof. intros [H1 G1] [H2 G2]. split; [by eapply good_trans|by etrans]. Qed.

Lemma grown_inv n d d' : grown n d d' -> store_inv d'.
Proof. intros [[Hi _] _]. done. Qed.

Lemma grown_refl n d : store_inv d -> grown n d d.
Proof. intros Hi. split; [split; [done|lia]|done]. Qed.

Lemma ledger_same_inv d d' :
  store_inv d -> ledger_same d d' -> mail_ok d' -> good 0 d d'.
Proof.
  intros [Hl He _] (Ht & Hev & _) Hm. split; [|rewrite Ht; lia].
  constructor; [by rewrite Ht|by rewrite Hev|done].
Qed.

(** Growth of the table by one row. *)
Lemma size_insert_le (ts : gmap TaskKey TaskSqlRow) k r : (size (<[k := r]> ts) <= S (size ts))%nat.
Proof. destruct (ts !! k) eqn:Hk; [rewrite map_size_insert_Some by done|rewrite map_size_insert_None by done]; lia. Qed.

Lemma size_insert_Some (ts : gmap TaskKey TaskSqlRow) k r r' :
  ts !! k = Some r -> size (<[k := r']> ts) = size ts.
Proof. intros Hk. by apply map_size_insert_Some. Qed.

Lemma rows_kept_size ts ts' k0 :
  rows_kept ts ts' k0 -> (size ts' <= S (size ts))%nat.
Proof.
  intros Hk. rewrite <- !(size_dom (D := gset TaskKey)).
  assert (dom ts' ⊆ {[k0]} ∪ dom ts) as Hsub.
  { intros k Hin. apply elem_of_dom in Hin as [r' Hr']. destruct (decide (k = k0)) as [->|Hne]; [set_solver|].
    specialize (Hk k Hne). rewrite Hr' in Hk. inversion Hk as [r ? Hrep Hr|]; subst.
    apply elem_of_union_r, elem_of_dom. by eexists. }
  apply subseteq_size in Hsub. rewrite size_union_alt in Hsub.
  pose proof (subseteq_size (dom ts ∖ {[k0]}) (dom ts) ltac:(set_solver)).
  rewrite size_singleton in Hsub. lia.
Qed.

Lemma appended_inv d ts' d' evs n :
  store_inv d -> ledger_ok ts' -> (size ts' <= size (tasks d) + n)%nat ->
  appended (set_tasks ts' d) d' evs -> grown n d d'.
Proof.
  intros [_ He Hm] Hl' Hsz [(rows & -> & _) Hev]. split; [|by apply mail_grows_same].
  split; [|done]. constructor; [done|by apply Hev|]. by destruct Hm.
Qed.

Lemma ledger_same_grown d d' :
  store_inv d -> ledger_same d d' -> mail_ok d' -> mail_grows d d' -> grown 0 d d'.
Proof. intros Hi Hl Hm Hg. split; [by apply ledger_same_inv|done]. Qed.

(** ** Each task operation *)

Section Ops.
Context {rt : Runtime} {rtok : RuntimeOk rt}.

Local Abbreviation ok_good n w c := (wp c (fun _ w' => grown n (db w) (db w')) (fun _ _ => True) w).

Lemma start_good record id w :
  store_inv (db w) -> room 0 (db w) -> ok_good 0%nat w (apply_task_start record id).
Proof.
  intros Hi Hr. ledger_facts Hi Hr.
  unfold wp.
  destruct (start_cases record id w Hl Hb) as [(e & -> & _)|(r & qa & qw & m & Hrow & Ho & Hs & Hm & _ & _ & ->)];
    [done|].
  destruct (start_write_run record id _ r qa qw w Hl Hb Hm Hrow Ho Hs) as (_ & Hl' & _).
  eapply (appended_inv (db w) _ _ _ 0 Hi Hl').
  - unfold started_tasks. rewrite size_renumbered, (size_insert_Some _ _ _ _ Hrow). lia.
  - by apply logged_appended.
Qed.

Lemma move_good team id actor target at_ w :
  store_inv (db w) -> room 0 (db w) -> ok_good 0%nat w (apply_task_move team id actor target at_).
Proof.
  intros Hi Hr. ledger_facts Hi Hr.
  unfold wp.
  destruct (move_cases team id actor target at_ w Hl Hb)
    as [(e & -> & _)|(agent & r & qa & qw & i & Hrow & Ho & Hm & Hlk & [(Hs & ->)|(qw' & j & Hs & Hpl & Hj & ->)])];
    [done|..].
  - eapply (appended_inv (db w) (tasks (db w)) _ _ 0 Hi Hl); [lia|].
    rewrite set_tasks_id. by apply logged_appended.
  - destruct (move_write_run team id agent r qa qw target qw' w) as (_ & Hl' & _); [done..|].
    eapply (appended_inv (db w) _ _ _ 0 Hi Hl'); [rewrite size_renumbered; lia|].
    by apply logged_appended.
Qed.

(** Refreshing an open task in place. *)
Lemma refresh_status ts k r m text at_ :
  ts !! k = Some r -> status_kept ts (<[k := refresh_row m text at_ r]> ts).
Proof. intros Hr. by eapply status_kept_insert. Qed.

Lemma refresh_ledger_ok ts k r m text at_ :
  ledger_ok ts -> ts !! k = Some r -> ledger_ok (<[k := refresh_row m text at_ r]> ts).
Proof.
  intros Hl Hr. eapply status_kept_ledger_ok; [by apply refresh_status| |done].
  destruct Hl as (_ & Hc & _). apply map_Forall_insert_2; [exact (Hc _ _ Hr)|done].
Qed.

(** The notice is a new message in the former assignee's mailbox. *)
Definition notice_delivered (d d' : Db) (record : Message) (old : AgentName) (n : Message) : Prop :=
  msg_team n = msg_team record /\ msg_agent n = old
  /\ mail_messages d !! msg_key n = None /\ is_Some (mail_messages d' !! msg_key n).

Lemma insert_reassign_notice_frame record id old w o w' :
  insert_reassign_notice record id old w = (o, w') ->
  o <> Panic /\ ledger_same (db w) (db w') /\ (mail_ok (db w) -> mail_ok (db w'))
  /\ mail_grows (db w) (db w')
  /\ forall n, o = Ok n -> notice_delivered (db w) (db w') record old n.
Proof.
  unfold insert_reassign_notice. step. cbn [fst snd].
  set (notice := reassign_notice _ _ _ _ _). set (w1 := mkWorld (db w) (S (ticks w))).
  destruct (insert_message_canonical notice w1) as [oi wi] eqn:Hrun.
  destruct (insert_message_canonical_frame _ _ _ _ Hrun) as (Hnp & Hled & Hok & Hgr).
  destruct oi as [b|e|]; [|erewrite run_bind_err by exact Hrun; intros [= <- <-]; by split_and!|done].
  run Hrun. pose proof (insert_message_canonical_run notice w1) as Hc. rewrite Hrun in Hc.
  destruct b; intros [= <- <-]; split_and!; try done. intros n [= <-].
  inversion Hc as [| |class Hv Hnone Hnc]; subst. split_and!; [done..|].
  exists (message_row notice class (now_at (ticks w1))). apply lookup_insert_eq.
Qed.

Lemma notified_good record id previous p evs w d0 :
  grown 1 d0 (db w) ->
  wp (notified record id previous p evs) (fun _ w' => grown 1 d0 (db w')) (fun _ _ => True) w.
Proof.
  intros Hg. unfold notified. apply wp_bind. destruct previous as [old|]; [|done].
  apply wp_fmap. unfold wp.
  destruct (insert_reassign_notice record id old w) as [o w'] eqn:Hrun.
  destruct (insert_reassign_notice_frame _ _ _ _ _ _ Hrun) as (Hnp & Hled & Hok & Hgr & _).
  destruct o as [n|e|]; [|done..]. change (grown 1 d0 (db w')).
  apply (grown_trans 1 0 d0 (db w)); [done|]. apply ledger_same_grown; [apply Hg|done| |done].
  apply Hok, Hg.
Qed.

Lemma assignment_good record id placement w :
  store_inv (db w) -> room 1 (db w) -> ok_good 1%nat w (apply_task_assignment record id placement).
Proof.
  intros Hi Hr. ledger_facts Hi Hr.
  pose proof (apply_task_assignment_run record id placement w Hl Hb) as Hbr. unfold wp.
  remember (apply_task_assignment record id placement w) as res eqn:Hres. clear Hres.
  destruct Hbr as [e Hn|r m Hm Hrow Hs Ha|row qa qw other w' Hpr Hm Hp Hno
                  |row m qa qw qw' ev moved ts' d' p Hmid Hpr Hm Hpl Has Happ Hlog Hp1 Hlk]; [done| |done|].
  - split; [|by apply mail_grows_same]. split; [|simpl; rewrite (size_insert_Some _ _ _ _ Hrow); lia].
    destruct Hi as [_ He Hml]. constructor; [by apply refresh_ledger_ok|done|by destruct Hml].
  - apply notified_good. simpl. destruct Has as (Hl' & _ & _ & Hkept & _).
    eapply appended_inv; [done..| |done]. pose proof (rows_kept_size _ _ _ Hkept). lia.
Qed.

Context (upsert : Message -> MessageWriteOrigin -> M UpsertResult).
Context {readmits : ReadmitsExisting upsert}.

Lemma close_good record id outcome reason w :
  store_inv (db w) -> room 0 (db w) ->
  ok_good 0%nat w (apply_task_close upsert record id outcome reason).
Proof.
  intros Hi Hr. ledger_facts Hi Hr.
  pose proof (apply_task_close_run upsert record id outcome reason w Hl Hb) as Hbr. unfold wp.
  remember (apply_task_close upsert record id outcome reason w) as res eqn:Hres. clear Hres.
  destruct Hbr as [Hn|r o d' Hrow Hs Ho Hled Hok Hgr|r error ev d1 d' Hrow Hs Hcp Hc Hled Hok Hgr Happ Hk Hft
                  |r e w' Hrow Hs Hcp Hled
                  |r qa qw ev w1 d' Hrow Hs Hcp Hm Hled Hok Hmsg Hack Happ Hto Hd]; [done| | |done|].
  - apply ledger_same_grown; [done..| |done]. apply Hok, Hi.
  - replace 0%nat with (0 + 0)%nat by lia. eapply grown_trans.
    + apply ledger_same_grown; [exact Hi|exact Hled| |exact Hgr]. apply Hok, Hi.
    + assert (Hi1 : store_inv d1) by (apply (ledger_same_inv (db w)); [done..|]; apply Hok, Hi).
      eapply (appended_inv d1 (tasks d1) _ _ 0); [done|apply Hi1|lia|].
      by rewrite set_tasks_id.
  - assert (Hi1 : store_inv (db w1)) by (apply (ledger_same_inv (db w)); [done..|]; apply Hok, Hi).
    pose proof Hled as (Hts & _).
    destruct (close_write_run record id outcome (t_assignee r) r qa qw w) as (_ & Hl' & _);
      [done..|by split_and!|].
    destruct (appended_inv (db w1) _ d' [ev] 0 Hi1 Hl') as [[Hi' Hsz] Hgr]; [|done|].
    + unfold closed_tasks. rewrite size_renumbered, (size_insert_Some _ _ _ _ Hrow), Hts. lia.
    + split; [split; [done|]; rewrite Hts in Hsz; simpl; lia|]. etrans; [by apply mail_grows_same|exact Hgr].
Qed.

Lemma existing_report_good record id w :
  store_inv (db w) -> room 0 (db w) ->
  match is_existing_task_report record id w with
  | (Panic, _) => False
  | (_, w') => w' = w
  end.
Proof.
  intros Hi Hr. ledger_facts Hi Hr.
  unfold is_existing_task_report. destruct (tasks (db w) !! (msg_team record, id)) as [r|] eqn:Hrow.
  - destruct (load_task_row_some _ id r w (ledger_readable _ Hl Hb) Hrow) as (row & Hload & _).
    run Hload. destruct (bool_decide _); [done|]. by destruct (bool_decide _).
  - by erewrite run_bind by (by apply load_task_row_none).
Qed.

Lemma task_message_good record w :
  store_inv (db w) -> room 1 (db w) -> ok_good 1%nat w (apply_task_message upsert record).
Proof.
  intros Hi Hr. assert (Hr0 : room 0 (db w)) by (unfold room in *; lia).
  pose proof (grown_refl 1 _ Hi) as Hself.
  unfold apply_task_message. destruct (env_task_id (msg_envelope record)) as [id|]; [|done].
  destruct (env_task_op (msg_envelope record)) as [[|outcome reason]|].
  - apply wp_bind. eapply wp_mono; [by apply start_good| |done].
    intros [a ev] w' Hg. by eapply grown_weaken; [|exact Hg]; lia.
  - eapply wp_mono; [by apply close_good| |done]. intros res w' Hg. by eapply grown_weaken; [|exact Hg]; lia.
  - pose proof (existing_report_good record id w Hi Hr0) as Hrep.
    destruct (is_existing_task_report record id w) as [[b|e|] w'] eqn:Hrun; [..|done]; subst w'.
    + unfold wp. run Hrun. destruct b; [done|].
      change (wp (applied ← apply_task_assignment record id (env_placement (msg_envelope record));
        mret (Applied None None (Some (ta_queued_position applied))
                (ta_reassign_notice applied) (ta_task_events applied)))
        (fun _ w' => grown 1 (db w) (db w')) (fun _ _ => True) w).
      apply wp_bind. by apply assignment_good.
    + unfold wp. by erewrite run_bind_err by exact Hrun.
Qed.
End Ops.

(** ** Admission *)

Section AdmissionInv.
Context {rt : Runtime} {rtok : RuntimeOk rt}.

(** The admission past its fence. *)
Definition admission_body (upsert : Message -> MessageWriteOrigin -> M UpsertResult)
    (record : Message) (provenance : MessageWriteOrigin) : M UpsertResult :=
  inserted ← insert_message_canonical record;
  existing ← (if (inserted : bool) then mret None else Some <$> load_existing_message record);
  if inserted && is_local provenance
  then
    applied ← apply_task_message upsert record;
    match applied with
    | Applied closed assignee position notice events =>
      mret (mkUpsertResult inserted existing closed assignee position notice None events)
    | RejectedReportDelivered error event =>
      mret (mkUpsertResult inserted existing None None None None (Some error) [event])
    end
  else mret (mkUpsertResult inserted existing None None None None None []).

Lemma admission_body_local upsert m w :
  upsert_message_body upsert m Origin_Local w = admission_body upsert m Origin_Local w.
Proof. unfold upsert_message_body. by erewrite run_bind by reflexivity. Qed.

(** A repeated admission never reaches the task ledger. *)
Lemma readmission_run upsert m w :
  is_Some (mail_messages (db w) !! msg_key m) ->
  exists o w', upsert_message_body upsert m Origin_Local w = (o, w')
    /\ upsert_message_body (fun _ _ => st_panic) m Origin_Local w = (o, w')
    /\ o <> Panic /\ ledger_same (db w) (db w') /\ mail_messages (db w') = mail_messages (db w)
    /\ (mail_ok (db w) -> mail_ok (db w'))
    /\ forall res, o = Ok res -> db w' = state_rewritten m (now_at (ticks w)) (db w)
                                 /\ up_inserted res = false /\ up_task_events res = [].
Proof.
  intros [row0 Hrow0]. rewrite !admission_body_local. unfold admission_body.
  pose proof (insert_message_canonical_run m w) as Hc.
  destruct (insert_message_canonical m w) as [o1 w1] eqn:Hins.
  inversion Hc as [e n|class row Hv Hr|class Hv Hr Hnc]; subst; [| |congruence].
  - eexists _, _. split; [by apply run_bind_err|]. split; [by apply run_bind_err|].
    by split_and!.
  - set (w1 := mkWorld (state_rewritten m (now_at (ticks w)) (db w)) (S (ticks w))) in *.
    destruct (load_existing_message m w1) as [ol wl] eqn:Hload.
    destruct (load_existing_message_run _ _ _ _ Hload) as (-> & Hnp & _).
    assert (Hmail : mail_ok (db w) -> mail_ok (db w1)).
    { intros Hok. by eapply state_rewritten_mail_ok. }
    destruct ol as [ex|e|]; [| |done].
    + assert (Hex : (Some <$> load_existing_message m) w1 = (Ok (Some ex), w1)) by (by apply run_fmap).
      eexists _, _. split; [run Hins; run Hex; reflexivity|].
      split; [run Hins; run Hex; reflexivity|]. split_and!; try done. by intros res [= <-].
    + assert (Hex : (Some <$> load_existing_message m) w1 = (Err e, w1)).
      { unfold fmap, M_fmap, st_fmap, st_bind. by rewrite Hload. }
      eexists _, _. split; [run Hins; by run_err Hex|]. split; [run Hins; by run_err Hex|].
      by split_and!.
Qed.

#[export] Instance execute_upsert_readmits n :
  ReadmitsExisting (execute_upsert_message_fuel (S n)).
Proof.
  constructor. intros m w o w' Hex Hrun. simpl in Hrun.
  destruct (readmission_run (execute_upsert_message_fuel n) m w Hex)
    as (o' & w'' & Hrun' & _ & Hnp & Hled & Hmsg & Hok & Hres).
  rewrite Hrun in Hrun'. injection Hrun' as <- <-. split_and!; try done.
  intros res ->. by apply (Hres res).
Qed.

(** The task part of an admission only uses the recursive call on messages
    that exist. *)
Definition agree_on_existing (u1 u2 : Message -> MessageWriteOrigin -> M UpsertResult) : Prop :=
  forall m w, is_Some (mail_messages (db w) !! msg_key m) ->
    u1 m Origin_Local w = u2 m Origin_Local w.

Lemma acknowledge_assignment_ext u1 u2 record row w :
  agree_on_existing u1 u2 ->
  acknowledge_assignment u1 record row w = acknowledge_assignment u2 record row w.
Proof.
  intros Hag. unfold acknowledge_assignment. do 2 run run_get_db.
  destruct (find_message_key _ _ _ _) as [key|] eqn:Hf; [|done].
  destruct (find_message_key_Some _ _ _ _ _ Hf) as (r & Hr & _).
  set (req := mkMessage _ _ _ _). destruct (load_existing_message req w) as [o w1] eqn:Hload.
  destruct (load_existing_message_run _ _ _ _ Hload) as (-> & _ & Hm).
  destruct o as [m|e|]; [|by do 2 (erewrite run_bind_err by exact Hload)
                         |by unfold mbind, M_bind, st_mbind, st_bind; rewrite Hload].
  destruct (Hm m eq_refl) as [Hkey _]. do 2 run Hload. destruct (bool_decide _); [|done].
  unfold mbind, M_bind, st_mbind, st_bind. rewrite Hag; [done|].
  change (is_Some (mail_messages (db w) !! msg_key m)). rewrite Hkey. by eexists.
Qed.

Lemma apply_task_message_ext u1 u2 record w :
  agree_on_existing u1 u2 -> apply_task_message u1 record w = apply_task_message u2 record w.
Proof.
  intros Hag. unfold apply_task_message.
  destruct (env_task_id (msg_envelope record)) as [id|]; [|done].
  destruct (env_task_op (msg_envelope record)) as [[|outcome reason]|]; [done| |done].
  unfold apply_task_close, mbind, M_bind, st_mbind, st_bind.
  destruct (load_task_row (msg_team record) id w) as [[[row|]|e|] w1]; [|done..].
  assert (Hp : forall ns w, persist_task_close u1 record id outcome reason row ns w
                          = persist_task_close u2 record id outcome reason row ns w).
  { intros ns w2. unfold persist_task_close, mbind, M_bind, st_mbind, st_bind.
    by rewrite (acknowledge_assignment_ext _ _ _ _ _ Hag). }
  destruct (row_state row); [..|done];
    (destruct (rejected (admit_task _ _ _ _)); [|done..]);
    (destruct (lift _ w1) as [[ns|e|] w2]; [|done..]);
    (destruct (bool_decide _); [done|]); by rewrite Hp.
Qed.

Lemma agree_fuel n m :
  agree_on_existing (execute_upsert_message_fuel (S n)) (execute_upsert_message_fuel (S m)).
Proof.
  intros msg w Hex. simpl.
  destruct (readmission_run (execute_upsert_message_fuel n) msg w Hex) as (o & w' & H1 & H1' & _).
  destruct (readmission_run (execute_upsert_message_fuel m) msg w Hex) as (o2 & w2 & H2 & H2' & _).
  congruence.
Qed.

Lemma upsert_fuel_enough n record provenance w :
  execute_upsert_message_fuel (2 + n) record provenance w
  = execute_upsert_message record provenance w.
Proof.
  change (upsert_message_body (execute_upsert_message_fuel (S n)) record provenance w
          = upsert_message_body (execute_upsert_message_fuel 1) record provenance w).
  unfold upsert_message_body, mbind, M_bind, st_mbind, st_bind.
  destruct (validate_cron_generation_fence provenance w) as [[[]|e|] w1]; [|done..].
  destruct (insert_message_canonical record w1) as [[b|e|] w2]; [|done..].
  destruct ((if b then mret None else Some <$> load_existing_message record) w2)
    as [[ex|e|] w3]; [|done..].
  destruct (b && is_local provenance); [|done].
  by rewrite (apply_task_message_ext _ _ record w3 (agree_fuel n 0)).
Qed.
End AdmissionInv.

(** ** Queued operations *)

(** How many tasks an operation can add. *)
Definition weight (op : WriteOp) : nat :=
  match op with
  | UpsertMessage _ _ => 1
  | UpsertMessages records => length records
  | Acknowledge _ _ _ => 2
  | _ => 0
  end.

(** The caller's reply builder returns. *)
Definition builder_total (op : WriteOp) : Prop :=
  match op with
  | Acknowledge _ builder _ => forall m, builder m <> Panic
  | _ => True
  end.

Section Execute.
Context {rt : Runtime} {rtok : RuntimeOk rt}.

Lemma fence_cases provenance w :
  validate_cron_generation_fence provenance w = (Ok tt, w)
  \/ exists e, validate_cron_generation_fence provenance w = (Err e, w).
Proof.
  unfold validate_cron_generation_fence. destruct provenance as [| |sid gen]; [by left..|].
  unfold i64_try_from. destruct (bool_decide (sid <= i64_max)).
  - step. run run_get_db.
    destruct (bool_decide _); [by left|right; by eexists].
  - right. by eexists.
Qed.

(** Reading back the stored message of an admission only reads. *)
Lemma existing_reads (b : bool) record w :
  exists o, (if b then mret None else Some <$> load_existing_message record) w = (o, w)
    /\ o <> Panic.
Proof.
  destruct b; [by exists (Ok None)|]. unfold fmap, M_fmap, st_fmap, st_bind.
  destruct (load_existing_message record w) as [ol wl] eqn:Hload.
  destruct (load_existing_message_run _ _ _ _ Hload) as (-> & Hnpl & _).
  destruct ol; [eexists; by split|eexists; by split|done].
Qed.

Lemma upsert_good record provenance w :
  store_inv (db w) -> room 1 (db w) ->
  wp (execute_upsert_message record provenance) (fun _ w' => grown 1 (db w) (db w'))
     (fun _ _ => True) w.
Proof.
  intros Hi Hr. change (execute_upsert_message record provenance)
    with (upsert_message_body (execute_upsert_message_fuel 1) record provenance).
  unfold upsert_message_body. apply wp_bind. unfold wp at 1.
  destruct (fence_cases provenance w) as [->|[e ->]]; [|done].
  apply wp_bind. unfold wp at 1.
  destruct (insert_message_canonical record w) as [o w1] eqn:Hins.
  destruct (insert_message_canonical_frame _ _ _ _ Hins) as (Hnp & Hled & Hok & Hgr).
  destruct o as [b|e|]; [|done..].
  assert (Hg0 : grown 0 (db w) (db w1)) by (apply ledger_same_grown; [done..| |done]; apply Hok, Hi).
  apply wp_bind.
  unfold wp at 1. destruct (existing_reads b record w1) as (oe & -> & Hne).
  destruct oe as [ex|e|]; [|done..].
  destruct (b && is_local provenance).
  - apply wp_bind. eapply wp_mono.
    + apply (task_message_good _ (readmits := execute_upsert_readmits 0)); [apply Hg0|].
      by apply (good_room 0 1 (db w)), Hr; apply Hg0.
    + intros res w' Hg. apply (grown_trans 0 1 _ _ _ Hg0) in Hg. by destruct res.
    + done.
  - by eapply grown_weaken; [|exact Hg0]; lia.
Qed.

Lemma upserts_good records w :
  store_inv (db w) -> room (length records) (db w) ->
  wp (execute_upsert_messages records) (fun _ w' => grown (length records) (db w) (db w'))
     (fun _ _ => True) w.
Proof.
  revert w. induction records as [|m records IH]; intros w Hi Hr; simpl.
  { by apply grown_refl. }
  apply wp_bind. eapply wp_mono; [apply upsert_good; [done|unfold room in *; simpl in *; lia]| |done].
  intros a w' Hg. eapply wp_mono; [apply IH; [apply Hg|by apply (good_room 1 _ (db w)); [apply Hg|]]| |done].
  intros b w'' Hg'. exact (grown_trans 1 _ _ _ _ Hg Hg').
Qed.

(** Loading the source of an acknowledgement only reads. *)
Lemma ack_row_run source w :
  wp (load_acknowledgement_source_row source) (fun _ w' => w' = w) (fun _ w' => w' = w) w.
Proof.
  unfold wp, load_acknowledgement_source_row. run run_get_db. cbv zeta.
  match goal with |- context [ok_or _ ?o] => by destruct o end.
Qed.

Lemma ack_successor_run source w :
  wp (reject_acknowledgement_source_with_successor source) (fun _ w' => w' = w)
     (fun _ w' => w' = w) w.
Proof.
  unfold wp, reject_acknowledgement_source_with_successor. run run_get_db.
  by destruct (bool_decide _).
Qed.

Lemma ack_decode_run source row w :
  wp (decode_pending_acknowledgement_source source row) (fun _ w' => w' = w)
     (fun _ w' => w' = w) w.
Proof.
  destruct row as [[key r] s]. unfold wp, decode_pending_acknowledgement_source.
  destruct (decode_envelope (m_envelope_json r)) as [e|]; [|done].
  erewrite run_bind by reflexivity. cbv beta zeta. by destruct (bool_decide _).
Qed.

Lemma load_pending_ack_source_run source w :
  wp (load_pending_ack_source source) (fun _ w' => w' = w) (fun _ w' => w' = w) w.
Proof.
  unfold load_pending_ack_source. apply wp_bind. eapply wp_mono; [apply ack_row_run| |done].
  intros [[key r] s] w' ->. apply wp_bind. eapply wp_mono; [apply ack_successor_run| |done].
  intros [] w' ->. apply ack_decode_run.
Qed.

Lemma acknowledgement_good source builder w :
  store_inv (db w) -> room 2 (db w) ->
  match execute_acknowledgement source builder w with
  | (Ok _, w') => grown 2 (db w) (db w')
  | (Err _, _) => True
  | (Panic, _) => exists m, builder m = Panic
  end.
Proof.
  intros Hi Hr. unfold execute_acknowledgement.
  pose proof (load_pending_ack_source_run source w) as Hload. unfold wp in Hload.
  destruct (load_pending_ack_source source w) as [[m|e|] w1] eqn:Hrun; [subst w1| |done].
  2:{ by erewrite run_bind_err by exact Hrun. }
  run Hrun. destruct (builder m) as [reply|e|] eqn:Hb; [|done|by exists m].
  do 2 step.
  set (w1 := mkWorld (db w) (S (ticks w))).
  assert (Hwp : wp (_ ← execute_upsert_message reply Origin_Local;
    _ ← execute_upsert_message (mark_source_acknowledged m (now_at (ticks w))) Origin_Local;
    mret (Acknowledged (mkAcknowledgementCommit reply
            (mark_source_acknowledged m (now_at (ticks w))))))
    (fun _ w' => grown 2 (db w) (db w')) (fun _ _ => True) w1).
  { apply wp_bind. eapply wp_mono; [apply upsert_good; [done|unfold room in *; simpl; lia]| |done].
    intros a w2 Hg. apply wp_bind.
    eapply wp_mono; [apply upsert_good; [apply Hg|by apply (good_room 1 1 (db w)); [apply Hg|]]| |done].
    intros b w3 Hg'. exact (grown_trans 1 1 _ _ _ Hg Hg'). }
  unfold wp in Hwp. revert Hwp.
  match goal with |- context [(?a ≫= ?f) w1] => by destruct ((a ≫= f) w1) as [[] ?] end.
Qed.

Lemma mark_all_read_good mailbox at_ due keys w :
  store_inv (db w) ->
  wp (mark_all_read mailbox at_ due keys) (fun _ w' => good 0 (db w) (db w')) (fun _ _ => True) w.
Proof.
  revert w. induction keys as [|key keys IH]; intros w Hi; simpl; [split; [done|lia]|].
  apply wp_bind. unfold wp at 1, mark_one_read, mark_message_read.
  set (k := (_, _, key)). destruct (mail_message_states (db w) !! k) as [s|] eqn:Hs.
  2:{ erewrite run_bind; [|run run_get_db; by rewrite Hs]. done. }
  destruct (bool_decide (s_deleted_at s = None)) eqn:Hd.
  2:{ erewrite run_bind; [|run run_get_db; by rewrite Hs, Hd]. done. }
  erewrite run_bind.
  2:{ run run_get_db. rewrite Hs, Hd. cbv beta iota zeta. by erewrite run_bind by reflexivity. }
  cbv beta. rewrite bool_decide_eq_false_2 by lia. simpl.
  match goal with |- wp _ _ _ ?w' => set (w1 := w') end.
  assert (Hg : good 0 (db w) (db w1)).
  { apply ledger_same_inv; [done..|]. destruct (inv_mail _ Hi) as [Hu Hk Hst Hdoc].
    constructor; simpl; [done|done| |done]. intros k'. rewrite lookup_insert_is_Some.
    destruct (decide (k = k')) as [<-|]; [|naive_solver].
    rewrite <- Hst, Hs. split; [by eexists|by left]. }
  eapply wp_mono; [apply IH, Hg| |done].
  intros a w2 Hg'. exact (good_trans 0 0 _ _ _ Hg Hg').
Qed.

Lemma read_display_good mailbox keys seen provenance w :
  store_inv (db w) ->
  wp (execute_read_display_state mailbox keys seen provenance)
     (fun _ w' => good 0 (db w) (db w')) (fun _ _ => True) w.
Proof.
  intros Hi. unfold execute_read_display_state. apply wp_bind. unfold wp at 1.
  destruct (fence_cases provenance w) as [->|[e ->]]; [|done].
  apply wp_bind. unfold wp at 1, now. apply wp_bind.
  eapply wp_mono; [by apply mark_all_read_good| |done]. intros a w1 Hg. simpl in Hg.
  apply wp_bind. destruct seen as [watermark|]; [|done].
  unfold wp at 1. run run_get_db. simpl. split; [|apply Hg].
  destruct Hg as [[Hl He [Hu Hk Hst Hdoc]] _]. by constructor; [..|constructor].
Qed.

Lemma delete_good key provenance w :
  store_inv (db w) ->
  wp (execute_delete_message key provenance) (fun _ w' => good 0 (db w) (db w'))
     (fun _ _ => True) w.
Proof.
  intros Hi. unfold execute_delete_message. apply wp_bind. unfold wp at 1.
  destruct (fence_cases provenance w) as [->|[e ->]]; [|done].
  unfold wp. do 6 step. simpl.
  apply ledger_same_inv; [done..|]. destruct (inv_mail _ Hi) as [Hu Hk Hst Hdoc].
  assert (Hf : forall A (m : gmap MailKey A) k,
    is_Some (filter (fun kr => kr.1.2 <> key) m !! k) <-> is_Some (m !! k) /\ k.2 <> key).
  { intros A m k. split.
    - intros [x Hx]. apply map_lookup_filter_Some in Hx as [Hx Hne]. split; [by eexists|done].
    - intros [[x Hx] Hne]. exists x. by apply map_lookup_filter_Some. }
  constructor; simpl.
  - intros k r k' r' [H1 _]%map_lookup_filter_Some [H2 _]%map_lookup_filter_Some. by apply Hu.
  - intros k r [Hr _]%map_lookup_filter_Some. by apply (Hk k r).
  - intros k. by rewrite !Hf, Hst.
  - intros k. by rewrite !Hf, Hdoc.
Qed.

(** Every queued operation: a success keeps the invariant, and only a panicking
    reply builder can panic. *)
Lemma execute_good op w :
  store_inv (db w) -> room (weight op) (db w) ->
  match execute op w with
  | (Ok _, w') => good (weight op) (db w) (db w')
  | (Err _, _) => True
  | (Panic, _) => ~ builder_total op
  end.
Proof.
  intros Hi Hr.
  assert (Hwp : forall c : M WriteOpResult,
    wp c (fun _ w' => good (weight op) (db w) (db w')) (fun _ _ => True) w ->
    match c w with
    | (Ok _, w') => good (weight op) (db w) (db w')
    | (Err _, _) => True
    | (Panic, _) => ~ builder_total op
    end).
  { intros c Hc. unfold wp in Hc. by destruct (c w) as [[]]. }
  destruct op as [mailbox keys seen pr|key pr|record pr|records|source builder pr
                 |team id actor target at_ pr]; simpl execute.
  - apply Hwp. by apply read_display_good.
  - apply Hwp. by apply delete_good.
  - apply Hwp, wp_bind. eapply wp_mono; [by apply upsert_good|by intros a w' []|done].
  - apply Hwp. eapply wp_mono; [by apply upserts_good|by intros a w' []|done].
  - clear Hwp. unfold execute_acknowledgement_with_fence.
    destruct (fence_cases pr w) as [Hf|[e Hf]].
    + run Hf. pose proof (acknowledgement_good source builder w Hi Hr) as Hg.
      destruct (execute_acknowledgement source builder w) as [[a|e|] w']; [apply Hg|done|].
      destruct Hg as [m Hm]. intros Hb. by apply (Hb m).
    + by erewrite run_bind_err by exact Hf.
  - apply Hwp, wp_bind. unfold wp at 1.
    destruct (fence_cases pr w) as [->|[e ->]]; [|done]. apply wp_bind.
    eapply wp_mono; [by apply move_good|by intros a w' []|done].
Qed.
End Execute.
