(* ===== verification/WriterSpec.v ===== *)
(** * The writer's batch

    What a caller of the writer lane can rely on: an operation commits whole or
    leaves the database as it was, apart from the audit event of a refused task
    operation; grouping admissions under one savepoint is invisible; a batch
    answers every operation and keeps the store's invariant.  The last part says
    what no operation of the lane can change, through the classes [Frame],
    [MailFrame] and [WriteFrame] of the properties it preserves: the log only grows,
    and a settled message stays settled. *)

From S2P Require Import Prelude ErrorCodes Types TaskState CronTypes Database Transaction TaskCodec TaskQueue QueueFacts.
From S2P Require Import LedgerInv EventLog MailStore MailSpec TaskOps TaskCloseSpec Admission Writer WriterInv.
From stdpp Require Import base gmap strings list numbers sorting pretty.
Local Open Scope Z_scope.
Local Open Scope string_scope.
Local Open Scope list_scope.

(** The log of [d'] is the log of [d] with the audit events [evs], at most one. *)
Definition audited (error : AtmError) (d d' : Db) (evs : list TaskEventRow) : Prop :=
  (evs = [] /\ d' = d)
  \/ exists ev, evs = [ev] /\ appended d d' [ev] /\ ev_event ev = TaskEventKind_Rejected
        /\ ev_from_state ev = ev_to_state ev /\ is_task_rejection (code error) = true.

Section WriterSpec.
Context {rt : Runtime} {rtok : RuntimeOk rt}.

(** ** The audit of a refused task operation *)

Lemma rejected_subject_reads op w :
  wp (rejected_event_subject op) (fun _ w' => w' = w) (fun _ w' => w' = w) w.
Proof.
  unfold rejected_event_subject.
  destruct op as [mailbox keys seen pr|key pr|record pr|records|source builder pr
                 |team id actor target at_ pr]; try done.
  - by destruct (is_local pr).
  - apply wp_bind. eapply wp_mono; [apply load_pending_ack_source_run| |done]. by intros a w' ->.
Qed.

Lemma load_task_row_reads team id w :
  store_inv (db w) -> room 0 (db w) ->
  exists row, load_task_row team id w = (Ok row, w).
Proof.
  intros Hi Hr. ledger_facts Hi Hr.
  destruct (tasks (db w) !! (team, id)) as [r|] eqn:Hrow.
  - destruct (load_task_row_some _ id r w (ledger_readable _ Hl Hb) Hrow) as (row & Hload & _).
    by eexists.
  - eexists. by apply load_task_row_none.
Qed.

(** A decoded state always has a consistent tag and outcome. *)
Lemma event_state_of_row row :
  exists s, task_event_state ((fun r => tag (row_state r)) <$> row)
              (row ≫= fun r => close_outcome (row_state r)) = Ok s.
Proof. destruct row as [r|]; [|by eexists]. simpl. destruct (row_state r); by eexists. Qed.

Lemma audit_run op error w :
  store_inv (db w) -> room 0 (db w) ->
  wp (append_rejected_task_event op error)
     (fun ev w' => audited error (db w) (db w') (option_list ev))
     (fun _ w' => db w' = db w) w.
Proof.
  intros Hi Hr. unfold append_rejected_task_event.
  destruct (is_task_rejection (code error)) eqn:Hrej; [|by left]. simpl negb. cbv iota.
  destruct (is_pre_admission_reassignment_refusal op error); [by left|].
  apply wp_bind. eapply wp_mono; [apply rejected_subject_reads| |by intros e w' ->].
  intros [s|] w' ->; [|by left].
  destruct (load_task_row_reads (rs_team s) (rs_task_id s) w Hi Hr) as [row Hload].
  destruct (event_state_of_row row) as [st Hst].
  unfold wp. run Hload. step.
  erewrite run_bind; [|by apply append_task_event_run].
  right. eexists. split; [reflexivity|]. split_and!; [|done..]. by apply logged_appended.
Qed.

(** ** One operation *)

(** What the caller of [op] may be told, and the database it leaves: the effect
    of the operation, read at some moment of the clock; a refusal with its audit;
    a refusal whose audit failed; a panic; or a failure of the savepoint itself,
    which the runtime must have reported.  All but the first leave the rows of the
    operation out. *)
Inductive replied (op : WriteOp) (d : Db) : Reply -> Db -> Prop :=
| replied_applied clock result w' :
    execute op (mkWorld d clock) = (Ok result, w') ->
    replied op d (Ok (mkCommitted (Ok result) [])) (db w')
| replied_refused clock error w1 evs d' :
    execute op (mkWorld d clock) = (Err error, w1) -> audited error d d' evs ->
    replied op d (Ok (mkCommitted (Err error) evs)) d'
| replied_unaudited clock error audit_error w1 :
    execute op (mkWorld d clock) = (Err error, w1) -> replied op d (Err audit_error) d
| replied_panicked clock w1 :
    execute op (mkWorld d clock) = (Panic, w1) ->
    replied op d (Err (daemon_unavailable "sqlite writer operation panicked")) d
| replied_faulted context clock fault :
    control_fault clock = Some fault -> replied op d (Err (sqlite_error context fault)) d.

Lemma queued_write_run op w :
  store_inv (db w) -> room 0 (db w) ->
  exists reply w', process_queued_write op w = (Ok reply, w') /\ replied op (db w) reply (db w').
Proof.
  intros Hi Hr. unfold process_queued_write.
  destruct (control_fault (ticks w)) as [fault|] eqn:Hf.
  { eexists _, _. split; [done|]. by eapply replied_faulted. }
  destruct (execute op (tick w)) as [[result|error|] w1] eqn:Hx; simpl.
  - unfold commit_savepoint. destruct (control_fault (ticks w1)) as [fault|] eqn:Hf1.
    + eexists _, _. split; [done|]. by eapply replied_faulted.
    + eexists _, _. split; [done|]. exact (replied_applied _ _ (S (ticks w)) _ w1 Hx).
  - pose proof (audit_run op error (rollback w w1) Hi Hr) as Ha. unfold wp in Ha.
    destruct (append_rejected_task_event op error (rollback w w1)) as [[ev|ae|] w2]; [..|done].
    + eexists _, _. split; [done|]. by eapply replied_refused.
    + eexists _, _. split; [done|]. rewrite Ha. by eapply replied_unaudited.
  - eexists _, _. split; [done|]. by eapply replied_panicked.
Qed.

Lemma audited_good error d d' evs : store_inv d -> audited error d d' evs -> good 0 d d'.
Proof.
  intros Hi [[_ ->]|(ev & _ & Happ & _)]; [by apply grown_refl|].
  eapply (appended_inv d (tasks d)); [done|apply Hi|lia|].
  by rewrite set_tasks_id.
Qed.

Lemma replied_good op d reply d' :
  store_inv d -> room (weight op) d -> replied op d reply d' -> good (weight op) d d'.
Proof.
  intros Hi Hr Hrep. assert (Hself : good (weight op) d d) by (split; [done|lia]).
  destruct Hrep as [clock result w' Hx|clock error w1 evs d' Hx Ha| | |]; [|..|done|done|done].
  - pose proof (execute_good op (mkWorld d clock) Hi Hr) as Hg. by rewrite Hx in Hg.
  - eapply good_weaken; [|by eapply audited_good]. lia.
Qed.

(** A caller is never answered with a panic. *)
Lemma replied_no_panic op d reply d' : replied op d reply d' -> reply <> Panic.
Proof. by destruct 1. Qed.

Definition total_weight (ops : list WriteOp) : nat := sum_list_with weight ops.

Lemma room_le n m d : (n <= m)%nat -> room m d -> room n d.
Proof. unfold room. lia. Qed.

(** ** Operations one after the other *)

(** [sequential ops d replies d']: each operation ran alone, from the database
    its predecessor left, and was answered. *)
Inductive sequential : list WriteOp -> Db -> list Reply -> Db -> Prop :=
| sequential_nil d : sequential [] d [] d
| sequential_cons op ops d reply d1 replies d2 :
    replied op d reply d1 -> sequential ops d1 replies d2 ->
    sequential (op :: ops) d (reply :: replies) d2.

Lemma sequential_app ops1 ops2 d1 d2 d3 rs1 rs2 :
  sequential ops1 d1 rs1 d2 -> sequential ops2 d2 rs2 d3 ->
  sequential (ops1 ++ ops2) d1 (rs1 ++ rs2) d3.
Proof. intros H1 H2. induction H1; simpl; [done|]. econstructor; eauto. Qed.

Lemma sequential_length ops d rs d' : sequential ops d rs d' -> length rs = length ops.
Proof. induction 1; simpl; congruence. Qed.

Lemma sequential_no_panic ops d rs d' :
  sequential ops d rs d' -> Forall (fun reply : Reply => reply <> Panic) rs.
Proof. induction 1; constructor; [by eapply replied_no_panic|done]. Qed.

Lemma sequential_good ops d rs d' :
  sequential ops d rs d' -> store_inv d -> room (total_weight ops) d ->
  good (total_weight ops) d d'.
Proof.
  induction 1 as [d|op ops d reply d1 rs d2 Hrep _ IH]; intros Hi Hr; [split; [done|lia]|].
  assert (Hg : good (weight op) d d1).
  { eapply replied_good; [done| |done]. eapply room_le; [|exact Hr]. unfold total_weight. simpl. lia. }
  apply (good_trans _ _ _ d1); [done|]. apply IH; [apply Hg|]. by eapply good_room.
Qed.

(** A savepoint fault answers every member of a group and changes nothing. *)
Lemma sequential_faulted ops d context clock fault :
  control_fault clock = Some fault ->
  sequential ops d ((fun _ => Err (sqlite_error context fault)) <$> ops) d.
Proof.
  intros Hf. induction ops as [|op ops IH]; [constructor|]. simpl.
  econstructor; [by eapply replied_faulted|exact IH].
Qed.

(** A group whose members all succeed runs as one operation at a time. *)
Lemma execute_all_sequential ops w results w' :
  execute_all ops w = (Some results, w') ->
  sequential ops (db w) ((fun r => Ok (mkCommitted (Ok r) [])) <$> results) (db w').
Proof.
  revert w results. induction ops as [|op ops IH]; intros w results; simpl.
  { intros [= <- <-]. constructor. }
  destruct (execute op w) as [[result|e|] w1] eqn:Hx; [|done..].
  destruct (execute_all ops w1) as [[rest|] w2] eqn:Ha; [|done]. intros [= <- <-].
  simpl. econstructor; [|by apply IH]. apply (replied_applied _ _ (ticks w)). by destruct w.
Qed.

(** ** Every operation is answered *)

(** [c] serves [ops]: from a store in order it returns one answer for each, as if
    they ran one after the other. *)
Definition serves (ops : list WriteOp) (c : M (list Reply)) : Prop :=
  forall w, store_inv (db w) -> room (total_weight ops) (db w) ->
    exists rs w', c w = (Ok rs, w') /\ sequential ops (db w) rs (db w').

Lemma serves_one op : serves [op] (reply ← process_queued_write op; mret [reply]).
Proof.
  intros w Hi Hr.
  destruct (queued_write_run op w Hi) as (reply & w' & Hrun & Hrep); [by eapply room_le; [|exact Hr]; lia|].
  eexists _, _. split; [by run Hrun|]. econstructor; [done|constructor].
Qed.

Lemma serves_after ops1 ops2 c1 c2 {A} (f : list Reply -> list Reply -> A) w :
  serves ops1 c1 -> serves ops2 c2 ->
  store_inv (db w) -> room (total_weight (ops1 ++ ops2)) (db w) ->
  exists rs1 rs2 w', (x ← c1; y ← c2; mret (f x y) : M A) w = (Ok (f rs1 rs2), w')
    /\ sequential (ops1 ++ ops2) (db w) (rs1 ++ rs2) (db w').
Proof.
  intros H1 H2 Hi Hr. unfold total_weight in Hr. rewrite sum_list_with_app in Hr.
  assert (Hr1 : room (total_weight ops1) (db w)) by (eapply room_le; [|exact Hr]; unfold total_weight; lia).
  destruct (H1 w Hi Hr1) as (rs1 & w1 & Hrun1 & S1). pose proof (sequential_good _ _ _ _ S1 Hi Hr1) as G1.
  destruct (H2 w1) as (rs2 & w2 & Hrun2 & S2); [apply G1|by eapply good_room|].
  exists rs1, rs2, w2. split; [run Hrun1; by run Hrun2|]. by eapply sequential_app.
Qed.

Lemma serves_cons op ops c :
  serves ops c -> serves (op :: ops) (reply ← process_queued_write op; rs ← c; mret (reply :: rs)).
Proof.
  intros Hc w Hi Hr.
  destruct (serves_after [op] ops _ c (@app Reply) w (serves_one op) Hc Hi Hr) as (rs1 & rs2 & w' & Hrun & Hs).
  exists (rs1 ++ rs2), w'. split; [|exact Hs]. rewrite <- Hrun.
  unfold mbind, M_bind, st_mbind, st_bind. by destruct (process_queued_write op w) as [[] ?].
Qed.

Lemma serves_each ops : serves ops (process_each ops).
Proof.
  induction ops as [|op ops IH]; [|by apply serves_cons].
  intros w _ _. eexists _, _. split; [reflexivity|constructor].
Qed.

Lemma serves_group ops : serves ops (process_message_admission_group ops).
Proof.
  intros w Hi Hr. unfold process_message_admission_group.
  destruct (control_fault (ticks w)) as [fault|] eqn:Hf.
  { eexists _, _. split; [done|]. by eapply sequential_faulted. }
  destruct (execute_all ops (tick w)) as [[results|] w1] eqn:Ha.
  - destruct (control_fault (ticks w1)) as [fault|] eqn:Hf1; eexists _, _; (split; [done|]).
    + by eapply sequential_faulted.
    + exact (execute_all_sequential _ _ _ _ Ha).
  - exact (serves_each ops (rollback w w1) Hi Hr).
Qed.

Lemma serves_admissions ops : serves ops (process_admissions ops).
Proof.
  unfold process_admissions. destruct ops as [|op [|op2 ops]].
  - exact (serves_each []).
  - apply serves_one.
  - apply serves_group.
Qed.

Lemma serves_writes adm ops : serves (adm ++ ops) (process_writes adm ops).
Proof.
  revert adm. induction ops as [|op ops IH]; intros adm; simpl.
  { rewrite app_nil_r. apply serves_admissions. }
  destruct (is_batchable_message_admission op).
  { specialize (IH (adm ++ [op])). by rewrite <- app_assoc in IH. }
  intros w Hi Hr.
  destruct (serves_after adm (op :: ops) _ _ (@app Reply) w (serves_admissions adm)
    (serves_cons op ops _ (IH [])) Hi Hr) as (rs1 & rs2 & w' & Hrun & Hs).
  exists (rs1 ++ rs2), w'. split; [|exact Hs]. rewrite <- Hrun.
  unfold mbind, M_bind, st_mbind, st_bind, mret, M_ret, st_ret.
  destruct (process_admissions adm w) as [[] w1]; [|done..].
  destruct (process_queued_write op w1) as [[] w2]; [|done..].
  by destruct (process_writes [] ops w2) as [[] w3].
Qed.

Lemma process_batch_run begin_error batch commit_error w :
  store_inv (db w) -> room (total_weight batch) (db w) ->
  exists replies w', process_batch begin_error batch commit_error w = (Ok replies, w')
    /\ match begin_error, commit_error with
       | None, None => sequential batch (db w) replies (db w')
       | _, _ => db w' = db w /\ length replies = length batch
                 /\ Forall (fun reply => exists e, reply = Err e) replies
       end.
Proof.
  intros Hi Hr. unfold process_batch. destruct begin_error as [be|].
  { eexists _, _. split; [done|]. split; [done|]. unfold send_batch_transaction_open_error.
    rewrite length_fmap. split; [done|]. apply Forall_fmap, Forall_true. by eexists. }
  destruct (serves_writes [] batch w Hi Hr) as (rs & w1 & Hrun & Hs). rewrite Hrun.
  eexists _, _. split; [reflexivity|]. destruct commit_error as [ce|]; simpl.
  - split; [done|]. rewrite length_fmap. split; [by eapply sequential_length|].
    apply Forall_fmap, (Forall_impl _ _ _ (sequential_no_panic _ _ _ _ Hs)).
    intros [c|e|]; [|by eexists|done]. intros _. by eexists.
  - assert (finalize_committed_reply None <$> rs = rs) as -> by apply list_fmap_id. done.
Qed.

Lemma process_batch_good begin_error batch commit_error w replies w' :
  store_inv (db w) -> room (total_weight batch) (db w) ->
  process_batch begin_error batch commit_error w = (Ok replies, w') ->
  good (total_weight batch) (db w) (db w').
Proof.
  intros Hi Hr Hrun. destruct (process_batch_run begin_error batch commit_error w Hi Hr)
    as (rs & w1 & Hrun' & H). rewrite Hrun in Hrun'. injection Hrun' as <- <-.
  assert (Hself : good (total_weight batch) (db w) (db w)) by (split; [done|lia]).
  destruct begin_error, commit_error; [by destruct H as [-> _]..|]. by eapply sequential_good.
Qed.

(** ** Stale cron permits *)

(** The permit an operation runs under. *)
Definition op_provenance (op : WriteOp) : MessageWriteOrigin :=
  match op with
  | ApplyReadDisplayState _ _ _ p | DeleteMessage _ p | UpsertMessage _ p
  | Acknowledge _ _ p | TaskMove _ _ _ _ _ p => p
  | UpsertMessages _ => Origin_Local
  end.

(** The schedule was removed, disabled, or moved to another generation. *)
Definition stale (p : MessageWriteOrigin) (d : Db) : Prop :=
  match p with
  | Origin_CronRun id generation => ~ cron_live (cron d) id generation
  | _ => False
  end.

Lemma stale_fence p w :
  stale p (db w) -> exists e, validate_cron_generation_fence p w = (Err e, w)
    /\ (e = stale_permit \/ e = validation "cron schedule id exceeds the sqlite integer range").
Proof.
  destruct p as [| |sid gen]; [done..|]. simpl. intros Hs. unfold i64_try_from.
  destruct (bool_decide (sid <= i64_max)).
  - eexists. split; [|by left]. step. run run_get_db.
    rewrite bool_decide_eq_false_2; [done|].
    intros (r & Hr & Hp)%fmap_Some. apply Hs. exists r. split; [exact Hr|]. by inversion Hp.
  - eexists. split; [|by right]. by apply run_bind_err.
Qed.

Lemma stale_execute op w :
  stale (op_provenance op) (db w) ->
  exists e, execute op w = (Err e, w) /\ is_task_rejection (code e) = false.
Proof.
  intros Hs. destruct (stale_fence _ _ Hs) as (e & Hf & He). exists e.
  split; [|by destruct He as [-> | ->]].
  destruct op as [mailbox keys seen pr|key pr|record pr|records|source builder pr
                 |team id actor target at_ pr]; simpl in *; try done.
  all: try (by apply run_bind_err).
  apply run_bind_err. by apply run_bind_err.
Qed.

(** ** Acknowledgement *)

Definition source_key (source : AcknowledgementSource) (key : MessageKey) : MailKey :=
  (src_team source, src_agent source, key).

Lemma ack_row_found source w key r s w' :
  load_acknowledgement_source_row source w = (Ok (key, r, s), w') ->
  mail_messages (db w) !! source_key source key = Some r
  /\ m_message_id r = Some (src_message_id source)
  /\ mail_message_states (db w) !! source_key source key = Some s.
Proof.
  unfold load_acknowledgement_source_row. run run_get_db. cbv zeta.
  destruct (head (map_to_list _)) as [[k0 r0]|] eqn:Hh; [|done].
  assert (Hin : (k0, r0) ∈ map_to_list (filter (fun kr : MailKey * MailMessageRow =>
      kr.1.1 = (src_team source, src_agent source)
      /\ m_message_id kr.2 = Some (src_message_id source)
      /\ (mail_message_states (db w) !! kr.1 ≫= (fun s => Some (s_deleted_at s))) = Some None)
      (mail_messages (db w)))).
  { revert Hh. match goal with |- head ?l = _ -> _ => destruct l; [done|] end.
    intros [= ->]. by left. }
  apply elem_of_map_to_list, map_lookup_filter_Some in Hin as (Hr & Hk & Hid & Hlive).
  simpl in Hr, Hk, Hid, Hlive. cbn [fst snd mbind option_bind].
  destruct (mail_message_states (db w) !! k0) as [s0|] eqn:Hs; [|done].
  intros [= <- <- <-]. destruct k0 as [mb key0]. simpl in Hk. subst mb. by split_and!.
Qed.

(** No message of the mailbox still waits for this acknowledgement. *)
Definition settled (source : AcknowledgementSource) (d : Db) : Prop :=
  forall key r s, mail_messages d !! source_key source key = Some r ->
    m_message_id r = Some (src_message_id source) ->
    mail_message_states d !! source_key source key = Some s -> s_pending_ack_at s = None.

Lemma settled_refuses source w :
  settled source (db w) -> exists e, load_pending_ack_source source w = (Err e, w).
Proof.
  intros Hset. unfold load_pending_ack_source.
  pose proof (ack_row_run source w) as Hrow. unfold wp in Hrow.
  destruct (load_acknowledgement_source_row source w) as [[[[key r] s]|e|] w1] eqn:Hl; [|subst w1|done].
  2:{ exists e. by apply run_bind_err. }
  subst w1. destruct (ack_row_found _ _ _ _ _ _ Hl) as (Hm & Hid & Hs).
  run Hl. unfold reject_acknowledgement_source_with_successor.
  destruct (bool_decide (map_Exists (is_successor source) (mail_messages (db w)))) eqn:Hb.
  { eexists. apply run_bind_err. run run_get_db. by rewrite Hb. }
  erewrite run_bind; [|run run_get_db; by rewrite Hb]. cbv beta.
  unfold decode_pending_acknowledgement_source.
  destruct (decode_envelope (m_envelope_json r)) as [env|]; [|eexists; by apply run_bind_err].
  erewrite run_bind by reflexivity. cbv beta zeta.
  rewrite bool_decide_eq_true_2 by (by eapply Hset). by eexists.
Qed.

(** The message an acknowledgement loads is stored under the source's mailbox
    and carries the source's message id. *)
Lemma pending_source_found source w m w' :
  load_pending_ack_source source w = (Ok m, w') ->
  w' = w /\ msg_key m = source_key source (msg_message_key m)
  /\ exists r, mail_messages (db w) !! msg_key m = Some r
               /\ m_message_id r = Some (src_message_id source).
Proof.
  intros Hl. pose proof (load_pending_ack_source_run source w) as Hw. unfold wp in Hw.
  rewrite Hl in Hw. split; [done|]. subst w'. unfold load_pending_ack_source in Hl.
  apply run_bind_ok_inv in Hl as ([[key r] s] & w1 & Hrow & Hl).
  destruct (ack_row_found _ _ _ _ _ _ Hrow) as (Hm & Hid & _).
  apply run_bind_ok_inv in Hl as ([] & w2 & _ & Hl).
  unfold decode_pending_acknowledgement_source in Hl.
  apply run_bind_ok_inv in Hl as (env & w3 & _ & Hl). revert Hl. cbv beta zeta.
  destruct (bool_decide _); [done|]. intros [= <- _]. split; [done|]. by exists r.
Qed.

Lemma state_rewritten_settles source m at_ at2 r d :
  mail_ok d -> msg_key m = source_key source (msg_message_key m) ->
  mail_messages d !! msg_key m = Some r -> m_message_id r = Some (src_message_id source) ->
  settled source (state_rewritten (mark_source_acknowledged m at_) at2 d).
Proof.
  intros Hok Hk Hm Hid key' r' s' Hr' Hid' Hs'. simpl in Hr', Hs'.
  destruct (decide (source_key source key' = msg_key m)) as [He|Hne].
  - rewrite He in Hs'. change (msg_key (mark_source_acknowledged m at_)) with (msg_key m) in Hs'.
    rewrite lookup_insert_eq in Hs'. by injection Hs' as <-.
  - exfalso. apply (mail_unique _ Hok (source_key source key') r' (msg_key m) r); [done..|].
    split; [done|]. split; [by rewrite Hk|]. left.
    split; [by eexists|congruence].
Qed.

Lemma acknowledgement_settles source builder w result w' :
  store_inv (db w) -> room 2 (db w) ->
  execute_acknowledgement source builder w = (Ok result, w') ->
  settled source (db w') /\ mail_ok (db w')
  /\ exists commit key r, result = Acknowledged commit /\ msg_key (ack_source commit) = source_key source key
       /\ mail_messages (db w') !! source_key source key = Some r
       /\ m_message_id r = Some (src_message_id source).
Proof.
  intros Hi Hr Hrun. unfold execute_acknowledgement in Hrun.
  apply run_bind_ok_inv in Hrun as (m & w0 & Hl & Hrun).
  destruct (pending_source_found _ _ _ _ Hl) as (-> & Hk & r & Hm & Hid).
  apply run_bind_ok_inv in Hrun as (reply & w1 & Hb & Hrun).
  assert (w1 = w) as -> by (unfold lift, st_lift in Hb; congruence).
  apply run_bind_ok_inv in Hrun as (at_ & w1 & Hnow & Hrun). injection Hnow as <- <-.
  cbv zeta in Hrun. apply run_bind_ok_inv in Hrun as (up1 & w2 & Hup1 & Hrun).
  apply run_bind_ok_inv in Hrun as (up2 & w3 & Hup2 & [= <- <-]).
  pose proof (upsert_good reply Origin_Local (mkWorld (db w) (S (ticks w))) Hi) as Hg.
  unfold wp in Hg. rewrite Hup1 in Hg. destruct Hg as [[Hi2 _] Hgr]; [unfold room in *; simpl; lia|].
  destruct (Hgr _ _ Hm) as (r2 & Hm2 & Hid2).
  set (m' := mark_source_acknowledged m _) in Hup2.
  destruct (readmission_run (execute_upsert_message_fuel 1) m' w2) as (o & w3' & Hx & _ & _ & _ & _ & Hok & Hres);
    [by exists r2|].
  assert (Hx' : upsert_message_body (execute_upsert_message_fuel 1) m' Origin_Local w2
                = (Ok up2, w3)) by exact Hup2.
  rewrite Hx' in Hx. injection Hx as <- <-. destruct (Hres up2 eq_refl) as (Hd & _).
  specialize (Hok (inv_mail _ Hi2)). rewrite Hd in *. rewrite Hid in Hid2. split; [|split].
  - by eapply state_rewritten_settles; [apply Hi2|done..].
  - exact Hok.
  - eexists _, (msg_message_key m), r2. split; [reflexivity|]. rewrite <- Hk. by split_and!.
Qed.

(** ** Showing messages as read *)

(** The primary key of a message of a mailbox. *)
Definition mailbox_key (mailbox : MemberKey) (key : MessageKey) : MailKey :=
  (member_team mailbox, member_agent mailbox, key).

(** A display state as the reader sees it: present and not deleted. *)
Definition live (d : Db) (k : MailKey) : Prop :=
  exists s, mail_message_states d !! k = Some s /\ s_deleted_at s = None.

(** [s'] is [s], possibly marked read. *)
Definition read_of (s s' : MailStateRow) : Prop :=
  s_pending_ack_at s' = s_pending_ack_at s /\ s_acknowledged_at s' = s_acknowledged_at s
  /\ s_expires_at s' = s_expires_at s /\ s_deleted_at s' = s_deleted_at s
  /\ (s_read s = true -> s_read s' = true).

Definition only_read (d d' : Db) : Prop :=
  mail_messages d' = mail_messages d /\ search_documents d' = search_documents d
  /\ ledger_same d d'
  /\ forall k, option_Forall2 read_of (mail_message_states d !! k) (mail_message_states d' !! k).

Lemma only_read_refl d : only_read d d.
Proof.
  split_and!; [done..|]. intros k. destruct (mail_message_states d !! k); constructor. by split_and!.
Qed.

Lemma only_read_trans d1 d2 d3 : only_read d1 d2 -> only_read d2 d3 -> only_read d1 d3.
Proof.
  intros (H1 & H2 & H3 & H4) (G1 & G2 & G3 & G4). split_and!; [congruence..|by etrans|].
  intros k. specialize (H4 k). specialize (G4 k).
  destruct H4 as [s1 s2 (A1 & A2 & A3 & A4 & A5)|]; inversion G4 as [? s3 (B1 & B2 & B3 & B4 & B5)|]; subst;
    constructor. split_and!; [congruence..|auto].
Qed.

Lemma live_kept d d' k : only_read d d' -> live d k -> live d' k.
Proof.
  intros (_ & _ & _ & H) (s & Hs & Hd). specialize (H k). rewrite Hs in H.
  inversion H as [? s' (_ & _ & _ & Hd' & _) E1 E2|]; subst. exists s'. split; [done|congruence].
Qed.

Lemma mark_one_read_run mailbox at_ due key w :
  (exists w', mark_one_read mailbox at_ due key w = (Ok tt, w')
     /\ live (db w) (mailbox_key mailbox key) /\ only_read (db w) (db w')
     /\ exists s, mail_message_states (db w') !! mailbox_key mailbox key = Some s /\ s_read s = true)
  \/ exists e, mark_one_read mailbox at_ due key w = (Err e, w) /\ ~ live (db w) (mailbox_key mailbox key).
Proof.
  unfold mark_one_read, mark_message_read. fold (mailbox_key mailbox key). set (k := mailbox_key mailbox key).
  destruct (mail_message_states (db w) !! k) as [s|] eqn:Hs.
  2:{ right. eexists. split; [|by intros (s & Hs' & _); congruence].
      erewrite run_bind; [|run run_get_db; by rewrite Hs]. reflexivity. }
  destruct (bool_decide (s_deleted_at s = None)) eqn:Hd.
  2:{ right. eexists. split.
      - erewrite run_bind; [|run run_get_db; by rewrite Hs, Hd]. reflexivity.
      - intros (s' & Hs' & Hd'). apply bool_decide_eq_false_1 in Hd. congruence. }
  left. eexists. split.
  { erewrite run_bind; [|run run_get_db; rewrite Hs, Hd; cbv beta iota zeta; by erewrite run_bind by reflexivity].
    cbv beta. rewrite bool_decide_eq_false_2 by lia. reflexivity. }
  apply bool_decide_eq_true_1 in Hd. split; [by exists s|]. split.
  - split_and!; [done..|]. intros k'. simpl. destruct (decide (k = k')) as [<-|Hne].
    + rewrite Hs, lookup_insert_eq. constructor. by split_and!.
    + rewrite lookup_insert_ne by done. destruct (mail_message_states (db w) !! k'); constructor. by split_and!.
  - eexists. split; [apply lookup_insert_eq|done].
Qed.

Lemma mark_all_read_run mailbox at_ due keys w :
  (exists w', mark_all_read mailbox at_ due keys w = (Ok tt, w') /\ only_read (db w) (db w')
     /\ forall key, key ∈ keys -> live (db w) (mailbox_key mailbox key)
          /\ exists s, mail_message_states (db w') !! mailbox_key mailbox key = Some s /\ s_read s = true)
  \/ exists e w' key, mark_all_read mailbox at_ due keys w = (Err e, w')
       /\ key ∈ keys /\ ~ live (db w) (mailbox_key mailbox key).
Proof.
  revert w. induction keys as [|key keys IH]; intros w; simpl.
  { left. exists w. split; [done|]. split; [apply only_read_refl|]. by intros key ?%not_elem_of_nil. }
  destruct (mark_one_read_run mailbox at_ due key w) as [(w1 & Hrun & Hlive & Ho & Hs)|(e & Hrun & Hl)].
  2:{ right. exists e, w, key. split; [by apply run_bind_err|]. split; [by left|done]. }
  destruct (IH w1) as [(w2 & Hrun2 & Ho2 & Hall)|(e & w2 & key' & Hrun2 & Hin & Hl)].
  - left. exists w2. split; [run Hrun; exact Hrun2|]. split; [by eapply only_read_trans|].
    intros key' [->|Hin]%elem_of_cons.
    + split; [done|]. destruct Hs as (s & Hs & Hr). destruct Ho2 as (_ & _ & _ & Hst).
      specialize (Hst (mailbox_key mailbox key)). rewrite Hs in Hst. inversion Hst as [? s' (_ & _ & _ & _ & Hr') E1 E2|]; subst.
      exists s'. auto.
    + destruct (Hall key' Hin) as [Hl Hr]. split; [|done].
      destruct Ho as (_ & _ & _ & Hst). destruct Hl as (s' & Hs' & Hd'). specialize (Hst (mailbox_key mailbox key')).
      rewrite Hs' in Hst. inversion Hst as [s0 ? (_ & _ & _ & Hd & _) E1 E2|]; subst.
      exists s0. split; [done|congruence].
  - right. exists e, w2, key'. split; [run Hrun; exact Hrun2|]. split; [by right|].
    intros Hl'. apply Hl. by eapply live_kept.
Qed.

Lemma mark_all_read_watermarks mailbox at_ due keys w w' :
  mark_all_read mailbox at_ due keys w = (Ok tt, w') ->
  mail_seen_watermarks (db w') = mail_seen_watermarks (db w).
Proof.
  revert w. induction keys as [|key keys IH]; intros w; simpl; [by intros [= <-]|].
  intros ([] & w1 & H1 & H2)%run_bind_ok_inv. rewrite (IH _ H2).
  unfold mark_one_read, mark_message_read in H1.
  apply run_bind_ok_inv in H1 as (n & w2 & H1 & H3).
  apply run_bind_ok_inv in H1 as (d & w3 & [= <- <-] & H1).
  assert (mail_seen_watermarks (db w2) = mail_seen_watermarks (db w)) as Heq.
  { destruct (mail_message_states (db w) !! _) as [s|]; [|by injection H1 as _ <-].
    destruct (bool_decide (s_deleted_at s = None)); [|by injection H1 as _ <-].
    cbv zeta in H1. apply run_bind_ok_inv in H1 as (u & w4 & [= _ <-] & [= _ <-]). done. }
  destruct (bool_decide (n <> 1)); [done|]. injection H3 as <-. done.
Qed.

(** ** Reachable stores *)

(** A store nothing was written to yet: any roster and schedules. *)
Definition initial (d : Db) : Prop :=
  tasks d = ∅ /\ task_events d = [] /\ mail_messages d = ∅ /\ mail_message_states d = ∅
  /\ search_documents d = ∅.

(** The worlds the writer lane can produce, one batch after another, while the
    ledger has room for the tasks of the next batch. *)
Inductive reachable : World -> Prop :=
| reachable_initial w : initial (db w) -> reachable w
| reachable_batch w begin_error batch commit_error replies w' :
    reachable w -> room (total_weight batch) (db w) ->
    process_batch begin_error batch commit_error w = (Ok replies, w') -> reachable w'.

Lemma empty_member_queue (ts : gmap TaskKey TaskSqlRow) team agent :
  ts = ∅ -> member_queue ts team agent [] [].
Proof.
  intros ->. split; [|by split]. split; [done|]. intros id r Hr. by rewrite lookup_empty in Hr.
Qed.

Lemma initial_inv d : initial d -> store_inv d.
Proof.
  intros (Ht & He & Hm & Hs & Hd). constructor.
  - rewrite Ht. split_and!.
    + split; [apply map_Forall_empty|]. intros k r k' r' Hr. by rewrite lookup_empty in Hr.
    + apply map_Forall_empty.
    + intros team agent. exists [], []. by apply empty_member_queue.
  - rewrite He. by split.
  - constructor; [intros k r k' r' Hr|intros k r Hr|intros k|intros k];
      rewrite ?Hm, ?Hs, ?Hd, ?lookup_empty in *; done.
Qed.

Lemma reachable_inv w : reachable w -> store_inv (db w).
Proof.
  induction 1 as [w Hi|w be batch ce replies w' _ IH Hr Hrun]; [by apply initial_inv|].
  by eapply process_batch_good.
Qed.
End WriterSpec.

(** ** What the operations of the writer cannot change

    [preserves I c]: [I] holds after [c], however it ends, if it held before. *)
Definition preserves {A} (I : World -> Prop) (c : M A) : Prop := forall w, I w -> I (c w).2.

(** [I] says nothing of the ledger, survives an event at the end of the log and
    the passing of time, and a savepoint that is dropped brings it back. *)
Class Frame (I : World -> Prop) : Prop := {
  frame_clock d n m : I (mkWorld d n) -> (n <= m)%nat -> I (mkWorld d m);
  frame_rollback saved w : I saved -> I w -> I (rollback saved w);
  frame_tasks ts d n : I (mkWorld d n) -> I (mkWorld (set_tasks ts d) n);
  frame_event e d n : I (mkWorld d n) -> I (mkWorld (set_task_events (task_events d ++ [e]) d) n)
}.

(** What the task operations do to the mail: a notice, a detached task link, and
    the repeated admission of a stored message that waits for nothing. *)
Class MailFrame `{rt : Runtime} (I : World -> Prop) : Prop := {
  frame_notice record id old : preserves I (insert_reassign_notice record id old);
  frame_detach record : preserves I (drop_task_link_from_mail record);
  frame_readmit m w : I w -> is_Some (mail_messages (db w) !! msg_key m) ->
    env_pending_ack_at (msg_envelope m) = None -> I (insert_message_canonical m w).2
}.

(** What the other queued operations do to it. *)
Class WriteFrame `{rt : Runtime} (I : World -> Prop) : Prop := {
  frame_read k at_ due : preserves I (mark_message_read k at_ due);
  frame_seen s d n : I (mkWorld d n) -> I (mkWorld (set_mail_seen_watermarks s d) n);
  frame_delete key p : preserves I (execute_delete_message key p)
}.

Create HintDb frame discriminated.

Section Frames.
Context {rt : Runtime} (I : World -> Prop) {F : Frame I}.

Lemma preserves_bind {A B} (c : M A) (f : A -> M B) :
  preserves I c -> (forall a, preserves I (f a)) -> preserves I (c ≫= f).
Proof.
  intros Hc Hf w Hw. specialize (Hc w Hw). unfold mbind, M_bind, st_mbind, st_bind.
  destruct (c w) as [[a|e|] w1]; [by apply Hf|done..].
Qed.

Lemma preserves_fmap {A B} (f : A -> B) (c : M A) : preserves I c -> preserves I (f <$> c).
Proof.
  intros Hc w Hw. specialize (Hc w Hw). unfold fmap, M_fmap, st_fmap, st_bind.
  by destruct (c w) as [[a|e|] w1].
Qed.

Lemma preserves_get_db {B} (f : Db -> M B) :
  (forall w, I w -> I (f (db w) w).2) -> preserves I (get_db ≫= f).
Proof. intros Hf w Hw. by apply Hf. Qed.

Lemma preserves_ret {A} (a : A) : preserves I (mret a).
Proof. by intros w. Qed.

Lemma preserves_get : preserves I get_db.
Proof. by intros w. Qed.

Lemma preserves_fail {A} e : preserves I (fail e : M A).
Proof. by intros w. Qed.

Lemma preserves_panic {A} : preserves I (st_panic : M A).
Proof. by intros w. Qed.

Lemma preserves_lift {A} (o : Outcome AtmError A) : preserves I (lift o).
Proof. by intros w. Qed.

Lemma preserves_ok_or {A} e (o : option A) : preserves I (ok_or e o).
Proof. intros w. by destruct o. Qed.

Lemma frame_tick w : I w -> I (tick w).
Proof. destruct w as [d n]. intros H. apply (frame_clock d n); [done|simpl; lia]. Qed.

Lemma preserves_now : preserves I now.
Proof. intros w. apply frame_tick. Qed.
End Frames.

#[export] Hint Resolve preserves_ret preserves_get preserves_fail preserves_panic preserves_lift
  preserves_ok_or preserves_now : frame.

(** [keep]: a sequence of computations that preserve the property. *)
Ltac keep1 :=
  match goal with
  | |- preserves _ (_ ≫= _) => apply preserves_bind; [|intros ?]
  | |- preserves _ (_ <$> _) => apply preserves_fmap
  | |- preserves _ (match ?x with _ => _ end) => destruct x
  | |- _ => solve [auto with frame typeclass_instances nocore]
  end.
Ltac keep := intros; cbv zeta; repeat (keep1; cbv zeta).

Section TaskFrames.
Context {rt : Runtime} (I : World -> Prop) {F : Frame I}.

Lemma keep_update_rows (f : Db -> option (gmap TaskKey TaskSqlRow)) e :
  preserves I (d ← get_db; match f d with Some ts => put_db (set_tasks ts d) | None => fail e end).
Proof.
  apply preserves_get_db. intros [d n] Hw. simpl. destruct (f d); [|done]. by apply frame_tasks.
Qed.

Lemma keep_update_task context k f : preserves I (update_task context k f).
Proof. apply keep_update_rows. Qed.

Lemma keep_update_tasks context P `{!forall k r, Decision (P k r)} f :
  preserves I (update_tasks context P f).
Proof. apply keep_update_rows. Qed.

Lemma keep_insert_task context k r : preserves I (insert_task context k r).
Proof.
  apply preserves_get_db. intros [d n] Hw. simpl.
  destruct (tasks d !! k), (store_task_row k r (tasks d)); [done..| |done]. by apply frame_tasks.
Qed.

Lemma keep_insert_event context e : preserves I (insert_task_event context e).
Proof.
  apply preserves_get_db. intros [d n] Hw. simpl. destruct (bool_decide _); [done|]. by apply frame_event.
Qed.
Hint Resolve keep_update_task keep_update_tasks keep_insert_task keep_insert_event : frame.

Lemma keep_load_task_row team id : preserves I (load_task_row team id).
Proof. unfold load_task_row. keep. Qed.

Lemma keep_queue_order team agent : preserves I (queue_order team agent).
Proof. unfold queue_order. keep. Qed.

Lemma keep_queue_position order id : preserves I (queue_position_of order id).
Proof. unfold queue_position_of. keep. Qed.
Hint Resolve keep_load_task_row keep_queue_order keep_queue_position : frame.

Lemma keep_insert_at order id placement team agent :
  preserves I (insert_at_placement order id placement team agent).
Proof. unfold insert_at_placement. keep. Qed.

Lemma keep_write_positions team n order : preserves I (write_queue_positions_from team n order).
Proof. revert n. induction order; intros n; simpl; keep. Qed.
Hint Resolve keep_insert_at keep_write_positions : frame.

Lemma keep_renumber team agent order : preserves I (renumber_queue team agent order).
Proof. unfold renumber_queue, write_queue_positions. keep. Qed.

Lemma keep_append draft : preserves I (append_task_event draft).
Proof. unfold append_task_event. keep. Qed.
Hint Resolve keep_renumber keep_append : frame.

Lemma keep_move team id actor target at_ : preserves I (apply_task_move team id actor target at_).
Proof. unfold apply_task_move, apply_queued_task_move, append_active_task_move. keep. Qed.

Lemma keep_start record id : preserves I (apply_task_start record id).
Proof.
  unfold apply_task_start, load_startable_task, reject_over_max_tasks, member_max_tasks. keep.
Qed.

Lemma keep_fence p : preserves I (validate_cron_generation_fence p).
Proof. unfold validate_cron_generation_fence. keep. Qed.

Lemma keep_load_existing m : preserves I (load_existing_message m).
Proof. unfold load_existing_message. keep. Qed.
Hint Resolve keep_move keep_start keep_fence keep_load_existing : frame.

Lemma keep_load_source source : preserves I (load_pending_ack_source source).
Proof.
  unfold load_pending_ack_source, load_acknowledgement_source_row,
    reject_acknowledgement_source_with_successor, decode_pending_acknowledgement_source. keep.
Qed.
Hint Resolve keep_load_source : frame.

Lemma keep_audit op error : preserves I (append_rejected_task_event op error).
Proof. unfold append_rejected_task_event, rejected_event_subject. keep. Qed.
End TaskFrames.

#[export] Hint Resolve keep_update_task keep_update_tasks keep_insert_task keep_insert_event
  keep_load_task_row keep_queue_order keep_queue_position keep_insert_at keep_write_positions
  keep_renumber keep_append keep_move keep_start keep_fence keep_load_existing keep_load_source
  keep_audit : frame.

Section MailFrames.
Context {rt : Runtime} (I : World -> Prop) {F : Frame I} {MF : MailFrame I}.

Lemma keep_detach record : preserves I (drop_task_link_from_mail record).
Proof. apply frame_detach. Qed.

Lemma keep_notice record id old : preserves I (insert_reassign_notice record id old).
Proof. apply frame_notice. Qed.
Hint Resolve keep_detach keep_notice : frame.

Lemma keep_assignment record id placement : preserves I (apply_task_assignment record id placement).
Proof.
  unfold apply_task_assignment, refresh_same_assignment, persist_task_assignment,
    release_previous_assignment, write_queue_positions, apply_task_assignment_row,
    renumber_previous_assignment, append_assignment_event. keep.
Qed.
Hint Resolve keep_assignment : frame.

(** A repeated admission never reaches the ledger. *)
Lemma keep_readmission n m w :
  I w -> is_Some (mail_messages (db w) !! msg_key m) ->
  env_pending_ack_at (msg_envelope m) = None ->
  I (execute_upsert_message_fuel n m Origin_Local w).2.
Proof.
  intros Hw Hm Hp. destruct n as [|n]; [done|]. simpl. rewrite admission_body_local.
  unfold admission_body. pose proof (frame_readmit m w Hw Hm Hp) as Hi.
  pose proof (insert_message_canonical_run m w) as Hc.
  destruct (insert_message_canonical m w) as [o w1] eqn:Hins.
  inversion Hc as [e k|class row Hv Hr|class Hv Hr Hnc]; subst.
  - by erewrite run_bind_err by exact Hins.
  - erewrite run_bind by exact Hins. cbv beta. revert Hi. generalize (mkWorld (state_rewritten m (now_at (ticks w)) (db w)) (S (ticks w))).
    intros w1. simpl. revert w1. change (preserves I (existing ← Some <$> load_existing_message m;
      mret (mkUpsertResult false existing None None None None None []))). keep.
  - rewrite Hr in Hm. by destruct Hm.
Qed.

Lemma keep_acknowledge_assignment n record row :
  preserves I (acknowledge_assignment (execute_upsert_message_fuel n) record row).
Proof.
  apply preserves_get_db. intros w Hw.
  destruct (find_message_key _ _ _ _) as [key|] eqn:Hf; [|done].
  destruct (find_message_key_Some _ _ _ _ _ Hf) as (r & Hr & _).
  set (req := mkMessage _ _ _ _). destruct (load_existing_message req w) as [o w1] eqn:Hload.
  destruct (load_existing_message_run _ _ _ _ Hload) as (-> & _ & Hm).
  unfold mbind at 1, M_bind, st_mbind, st_bind. rewrite Hload. destruct o as [m|e|]; [|done..].
  destruct (Hm m eq_refl) as [Hkey _]. destruct (bool_decide _); [|done].
  set (acked := mark_source_acknowledged m _).
  assert (Hi : I (execute_upsert_message_fuel n acked Origin_Local w).2).
  { apply keep_readmission; [done| |done]. change (msg_key acked) with (msg_key m). rewrite Hkey. by exists r. }
  revert Hi. unfold mbind, M_bind, st_mbind, st_bind.
  by destruct (execute_upsert_message_fuel n acked Origin_Local w) as [[] ?].
Qed.
Hint Resolve keep_acknowledge_assignment : frame.

Lemma keep_close n record id outcome reason :
  preserves I (apply_task_close (execute_upsert_message_fuel n) record id outcome reason).
Proof. unfold apply_task_close, persist_task_close, deliver_rejected_close_report. keep. Qed.
Hint Resolve keep_close : frame.

Lemma keep_upsert n record p :
  preserves I (insert_message_canonical record) ->
  preserves I (execute_upsert_message_fuel n record p).
Proof.
  intros Hc. destruct n as [|n]; [apply preserves_panic|]. simpl.
  unfold upsert_message_body, apply_task_message, is_existing_task_report. keep.
Qed.
End MailFrames.

(** The messages an operation brings to the store: those it is given, and the
    reply of an acknowledgement. *)
Definition admitted_by (op : WriteOp) (m : Message) : Prop :=
  match op with
  | UpsertMessage record _ => m = record
  | UpsertMessages records => m ∈ records
  | Acknowledge _ builder _ => exists loaded, builder loaded = Ok m
  | _ => False
  end.

(** A stored message stays stored under admissions. *)
Definition stored (k : MailKey) (w : World) : Prop := is_Some (mail_messages (db w) !! k).

Section Stored.
Context {rt : Runtime}.

Lemma stored_canonical k record : preserves (stored k) (insert_message_canonical record).
Proof.
  intros w Hw. destruct (insert_message_canonical record w) as [o w1] eqn:Hrun.
  destruct (insert_message_canonical_frame _ _ _ _ Hrun) as (_ & _ & _ & Hg).
  destruct Hw as [r Hr]. destruct (Hg _ _ Hr) as (r' & Hr' & _). by exists r'.
Qed.

#[export] Instance stored_frame k : Frame (stored k).
Proof. by constructor. Qed.

#[export] Instance stored_mail k : MailFrame (stored k).
Proof.
  constructor.
  - intros record id old. apply preserves_bind; [by intros w|]. intros fresh. cbv zeta.
    apply preserves_bind; [apply stored_canonical|]. intros b. keep.
  - intros record. apply preserves_get_db. intros w Hw. unfold stored. simpl.
    destruct Hw as [r Hr]. rewrite lookup_alter_is_Some. by exists r.
  - intros m w Hw _ _. by apply stored_canonical.
Qed.
End Stored.

Section WriteFrames.
Context {rt : Runtime} (I : World -> Prop) {F : Frame I} {MF : MailFrame I} {WF : WriteFrame I}.

Lemma keep_mark_read mailbox at_ due keys : preserves I (mark_all_read mailbox at_ due keys).
Proof.
  induction keys as [|key keys IH]; simpl; unfold mark_one_read; keep.
  apply frame_read.
Qed.

Lemma keep_read_display mailbox keys seen p :
  preserves I (execute_read_display_state mailbox keys seen p).
Proof.
  unfold execute_read_display_state. apply preserves_bind; [keep|]. intros _.
  apply preserves_bind; [keep|]. intros at_. apply preserves_bind; [apply keep_mark_read|]. intros _.
  apply preserves_bind; [|keep]. destruct seen as [watermark|]; [|keep].
  apply preserves_get_db. intros [d n] Hw. by apply frame_seen.
Qed.

(** An acknowledgement admits its reply, and its source again, which is stored. *)
Lemma keep_acknowledgement source builder :
  (forall m reply, builder m = Ok reply -> preserves I (insert_message_canonical reply)) ->
  preserves I (execute_acknowledgement source builder).
Proof.
  intros Hb w Hw. unfold execute_acknowledgement.
  destruct (load_pending_ack_source source w) as [[m|e|] w1] eqn:Hl.
  2,3: pose proof (keep_load_source I source w Hw) as H; rewrite Hl in H;
    unfold mbind at 1, M_bind, st_mbind, st_bind; by rewrite Hl.
  destruct (pending_source_found _ _ _ _ Hl) as (-> & _ & r & Hr & _). run Hl.
  destruct (builder m) as [reply|e|] eqn:Hm; [|done..]. do 2 step. set (w1 := mkWorld (db w) (S (ticks w))).
  pose proof (keep_upsert I 2 reply Origin_Local (Hb m reply Hm) w1 (frame_tick I w Hw)) as H1.
  pose proof (keep_upsert (stored (msg_key m)) 2 reply Origin_Local (stored_canonical _ _) w1) as H2.
  unfold mbind at 1, M_bind, st_mbind, st_bind. change (execute_upsert_message_fuel 2) with execute_upsert_message in *.
  destruct (execute_upsert_message reply Origin_Local w1) as [[up|e|] w2]; [|done..].
  set (acked := mark_source_acknowledged m _).
  assert (H3 : I (execute_upsert_message acked Origin_Local w2).2).
  { apply (keep_readmission I 2); [done| |done]. apply H2. by exists r. }
  revert H3. unfold mbind, M_bind, st_mbind, st_bind.
  by destruct (execute_upsert_message acked Origin_Local w2) as [[] ?].
Qed.

Lemma keep_upserts records :
  (forall m, m ∈ records -> preserves I (insert_message_canonical m)) ->
  preserves I (execute_upsert_messages records).
Proof.
  induction records as [|m records IH]; intros Hc; simpl; [keep|].
  apply preserves_bind; [|intros _; apply IH; intros m' Hin; apply Hc, elem_of_cons; by right].
  apply keep_upsert; [done..|]. apply Hc, elem_of_cons. by left.
Qed.

(** An operation preserves what the admission of each of its messages preserves. *)
Lemma keep_execute op :
  (forall m, admitted_by op m -> preserves I (insert_message_canonical m)) ->
  preserves I (execute op).
Proof.
  intros Hc. destruct op as [mailbox keys seen pr|key pr|record pr|records|source builder pr
                            |team id actor target at_ pr]; simpl in *.
  - apply keep_read_display.
  - apply frame_delete.
  - apply preserves_bind; [|keep]. by apply keep_upsert, Hc.
  - by apply keep_upserts.
  - apply preserves_bind; [keep|]. intros _. apply keep_acknowledgement.
    intros m reply Hm. apply Hc. by exists m.
  - unfold execute_task_move_with_fence. keep.
Qed.

Lemma keep_queued_write op : preserves I (execute op) -> preserves I (process_queued_write op).
Proof.
  intros Hx w Hw. unfold process_queued_write, finalize_queued_write, commit_savepoint.
  destruct (control_fault (ticks w)); [by apply frame_tick|].
  specialize (Hx (tick w) (frame_tick I w Hw)).
  destruct (execute op (tick w)) as [[r|e|] w1]; simpl in Hx.
  - destruct (control_fault (ticks w1)); [apply frame_rollback; [done|]|]; by apply frame_tick.
  - pose proof (keep_audit I op e (rollback w w1) (frame_rollback w w1 Hw Hx)) as Ha.
    by destruct (append_rejected_task_event op e (rollback w w1)) as [[] ?].
  - by apply frame_rollback.
Qed.

Lemma keep_execute_all ops w :
  Forall (fun op => preserves I (execute op)) ops -> I w -> I (execute_all ops w).2.
Proof.
  intros Hops. revert w. induction Hops as [|op rest Hop _ IH]; intros w Hw; simpl; [done|].
  specialize (Hop w Hw). destruct (execute op w) as [[r|e|] w1]; [|done..].
  specialize (IH w1 Hop). by destruct (execute_all rest w1).
Qed.

Lemma keep_each ops :
  Forall (fun op => preserves I (execute op)) ops -> preserves I (process_each ops).
Proof.
  induction 1 as [|op rest Hop _ IH]; simpl; [keep|].
  apply preserves_bind; [by apply keep_queued_write|]. keep.
Qed.

Lemma keep_group ops :
  Forall (fun op => preserves I (execute op)) ops ->
  preserves I (process_message_admission_group ops).
Proof.
  intros Hops w Hw. unfold process_message_admission_group.
  destruct (control_fault (ticks w)); [by apply frame_tick|].
  pose proof (keep_execute_all ops (tick w) Hops (frame_tick I w Hw)) as Hx.
  destruct (execute_all ops (tick w)) as [[rs|] w1]; simpl in Hx.
  - destruct (control_fault (ticks w1)); [apply frame_rollback; [done|]|]; by apply frame_tick.
  - by apply keep_each, frame_rollback.
Qed.

Lemma keep_admissions ops :
  Forall (fun op => preserves I (execute op)) ops -> preserves I (process_admissions ops).
Proof.
  intros Hops. unfold process_admissions. destruct ops as [|op [|op2 ops]]; [keep| |by apply keep_group].
  apply Forall_cons_1 in Hops as [Hop _]. apply preserves_bind; [by apply keep_queued_write|]. keep.
Qed.

Lemma keep_writes adm ops :
  Forall (fun op => preserves I (execute op)) adm -> Forall (fun op => preserves I (execute op)) ops ->
  preserves I (process_writes adm ops).
Proof.
  intros Ha Ho. revert adm Ha. induction Ho as [|op ops Hop _ IH]; intros adm Ha; simpl;
    [by apply keep_admissions|].
  destruct (is_batchable_message_admission op).
  { apply IH, Forall_app. by repeat constructor. }
  apply preserves_bind; [by apply keep_admissions|]. intros rs.
  apply preserves_bind; [by apply keep_queued_write|]. intros r.
  apply preserves_bind; [by apply IH|]. keep.
Qed.

Lemma keep_batch begin_error batch commit_error :
  (forall op m, op ∈ batch -> admitted_by op m -> preserves I (insert_message_canonical m)) ->
  preserves I (process_batch begin_error batch commit_error).
Proof.
  intros Hc w Hw. unfold process_batch. destruct begin_error; [done|].
  assert (Hp : preserves I (process_writes [] batch)).
  { apply keep_writes; [constructor|]. apply Forall_forall. intros op Hop. apply keep_execute. by eauto. }
  specialize (Hp w Hw). destruct (process_writes [] batch w) as [[rs|e|] w1]; simpl in Hp.
  - destruct commit_error; [by apply frame_rollback|done].
  - by apply frame_rollback.
  - by apply frame_rollback.
Qed.
End WriteFrames.

(** ** The log only grows *)

Definition log_starts (log : list TaskEventSqlRow) (w : World) : Prop := log `prefix_of` task_events (db w).

Section Logged.
Context {rt : Runtime} (log : list TaskEventSqlRow).

Lemma log_starts_canonical record : preserves (log_starts log) (insert_message_canonical record).
Proof.
  intros w Hw. destruct (insert_message_canonical record w) as [o w1] eqn:Hrun.
  destruct (insert_message_canonical_frame _ _ _ _ Hrun) as (_ & (_ & He & _) & _).
  unfold log_starts in *. simpl. by rewrite He.
Qed.

#[export] Instance log_starts_frame : Frame (log_starts log).
Proof. constructor; try done. intros e d n Hw. by apply prefix_app_r. Qed.

#[export] Instance log_starts_mail : MailFrame (log_starts log).
Proof.
  constructor.
  - intros record id old. apply preserves_bind; [by intros w|]. intros fresh. cbv zeta.
    apply preserves_bind; [apply log_starts_canonical|]. keep.
  - intros record. by apply preserves_get_db.
  - intros m w Hw _ _. by apply log_starts_canonical.
Qed.

#[export] Instance log_starts_write : WriteFrame (log_starts log).
Proof.
  constructor; [|done|].
  - intros k at_ due. apply preserves_get_db. intros w Hw.
    destruct (mail_message_states (db w) !! k) as [s|]; [|done]. by destruct (bool_decide _).
  - intros key p. apply preserves_bind; [keep|]. intros _ w Hw. done.
Qed.
End Logged.

(** ** An acknowledged message stays acknowledged *)

(** The mailbox of the source holds no other message with its id than [k], which
    waits for no acknowledgement, and no id drawn from now on is that id. *)
Record quiet `{rt : Runtime} (source : AcknowledgementSource) (k : MailKey) (w : World) : Prop := mkQuiet {
  quiet_fresh n : (ticks w <= n)%nat -> ulid_at n <> src_message_id source;
  quiet_only key r : mail_messages (db w) !! source_key source key = Some r ->
    m_message_id r = Some (src_message_id source) -> source_key source key = k;
  quiet_settled : settled source (db w)
}.

(** [m] is another message than the one stored under [k] with the id of the
    source: another mailbox, or another key and another id. *)
Definition spares (source : AcknowledgementSource) (k : MailKey) (m : Message) : Prop :=
  (msg_team m, msg_agent m) = (src_team source, src_agent source) ->
  msg_key m <> k /\ env_message_id (msg_envelope m) <> Some (src_message_id source).

Section Quiet.
Context {rt : Runtime} (source : AcknowledgementSource) (k : MailKey).

Lemma quiet_state k' st d n m :
  quiet source k (mkWorld d n) -> (n <= m)%nat ->
  (forall r, k'.1 = (src_team source, src_agent source) -> mail_messages d !! k' = Some r ->
     m_message_id r = Some (src_message_id source) -> s_pending_ack_at st = None) ->
  quiet source k (mkWorld (set_mail_message_states (<[k' := st]> (mail_message_states d)) d) m).
Proof.
  intros [Hf Ho Hs] Hn Hst. constructor; simpl in *; [intros; apply Hf; lia|done|].
  intros key r s Hr Hid Hl. simpl in Hr, Hl.
  destruct (decide (k' = source_key source key)) as [->|Hne].
  - rewrite lookup_insert_eq in Hl. injection Hl as <-. by apply (Hst r).
  - rewrite lookup_insert_ne in Hl by done. by apply (Hs key r s).
Qed.

Lemma quiet_frame_clock d n m : quiet source k (mkWorld d n) -> (n <= m)%nat -> quiet source k (mkWorld d m).
Proof. intros [Hf Ho Hs] Hn. constructor; simpl in *; [intros; apply Hf; lia|done..]. Qed.

#[export] Instance quiet_frame : Frame (quiet source k).
Proof.
  constructor; [apply quiet_frame_clock| | |].
  - intros saved w [_ Ho Hs] [Hf _ _]. by constructor.
  - intros ts d n [Hf Ho Hs]. by constructor.
  - intros e d n [Hf Ho Hs]. by constructor.
Qed.

(** The clock never goes back. *)
Lemma canonical_clock record w : (ticks w <= ticks (insert_message_canonical record w).2)%nat.
Proof.
  assert (HF : Frame (fun w' => (ticks w <= ticks w')%nat)) by (constructor; simpl; [lia|done..]).
  assert (Hp : preserves (fun w' => (ticks w <= ticks w')%nat) (insert_message_canonical record)).
  { unfold insert_message_canonical, prepare_message_insert_values, insert_message_row,
      sync_inserted_message_projection, insert_initial_message_state, upsert_message_state. keep.
    all: by intros w'. }
  by apply Hp.
Qed.

(** An admission that finds the source's row waits for nothing, and one that
    adds a row to its mailbox brings another id. *)
Lemma quiet_admission m w :
  let here := (msg_team m, msg_agent m) = (src_team source, src_agent source) in
  quiet source k w ->
  (forall r, here -> mail_messages (db w) !! msg_key m = Some r ->
     m_message_id r = Some (src_message_id source) -> env_pending_ack_at (msg_envelope m) = None) ->
  (here -> mail_messages (db w) !! msg_key m = None ->
     env_message_id (msg_envelope m) <> Some (src_message_id source)) ->
  quiet source k (insert_message_canonical m w).2.
Proof.
  intros here Hq Hst Hnew. pose proof (canonical_clock m w) as Hn.
  pose proof (insert_message_canonical_run m w) as Hc. destruct w as [d n].
  destruct (insert_message_canonical m (mkWorld d n)) as [o w1].
  inversion Hc as [e n'|class row Hv Hr|class Hv Hr Hnc]; subst; simpl in *.
  - by eapply quiet_frame_clock.
  - eapply quiet_state; [done|lia|]. intros r Hh Hl Hid. by apply (Hst r).
  - set (r := message_row m class (now_at n)) in *.
    assert (Hrow : forall key r', <[msg_key m := r]> (mail_messages d) !! source_key source key = Some r' ->
      m_message_id r' = Some (src_message_id source) -> mail_messages d !! source_key source key = Some r').
    { intros key r' [[He <-]|[_ Hl]]%lookup_insert_Some Hid; [|done].
      exfalso. apply Hnew; [|done..]. by injection He as Ht Ha _; subst here; rewrite Ht, Ha. }
    eapply (quiet_state _ _ (set_search_documents _ (set_mail_messages _ d)) n); [|lia|].
    + destruct Hq as [Hf Ho Hs]. constructor; simpl in *; [done|by eauto|].
      intros key r' s Hl Hid Hl'. apply (Hs key r' s); [by apply Hrow|done|exact Hl'].
    + simpl. intros r' Hh Hl Hid. rewrite lookup_insert_eq in Hl. injection Hl as <-. by destruct Hnew.
Qed.

Lemma quiet_canonical m : spares source k m -> preserves (quiet source k) (insert_message_canonical m).
Proof.
  intros Hsp w Hq. apply quiet_admission; [done| |].
  - intros r Hh Hr Hid. destruct (Hsp Hh) as [Hne _]. destruct Hne.
    destruct Hq as [_ Ho _]. injection Hh as Ht Ha.
    assert (He : msg_key m = source_key source (msg_message_key m)) by (unfold msg_key, source_key; congruence).
    rewrite He in *. by apply (Ho _ r).
  - intros Hh _. by destruct (Hsp Hh).
Qed.

#[export] Instance quiet_mail : MailFrame (quiet source k).
Proof.
  constructor.
  - intros record id old [d n] Hw. unfold insert_reassign_notice. step. cbn [fst snd db ticks].
    assert (Hq : quiet source k (mkWorld d (S n))) by (eapply quiet_frame_clock; [done|lia]).
    set (m := reassign_notice _ _ _ _ _).
    assert (Hi : quiet source k (insert_message_canonical m (mkWorld d (S n))).2).
    { apply quiet_admission; [done..|]. intros _ _ He. injection He as He.
      by apply (quiet_fresh _ _ _ Hw n). }
    unfold mbind, M_bind, st_mbind, st_bind. simpl in Hi.
    by destruct (insert_message_canonical m (mkWorld d (S n))) as [[[]|e|] w1].
  - intros record. apply preserves_get_db. intros w [Hf Ho Hs].
    assert (Hrow : forall f key r', (forall r, m_message_id (f r) = m_message_id r) ->
      alter f (msg_key record) (mail_messages (db w)) !! source_key source key = Some r' ->
      exists r, mail_messages (db w) !! source_key source key = Some r /\ m_message_id r = m_message_id r').
    { intros f key r' Hf' [(He & r & Hl & ->)|[_ Hl]]%lookup_alter_Some; [|by exists r'].
      exists r. by rewrite Hf'. }
    constructor; simpl in *; [done| |].
    + intros key r' Hl Hid. apply Hrow in Hl as (r & Hl & Hr); [|done]. apply (Ho key r); congruence.
    + intros key r' s Hl Hid Hs'. apply Hrow in Hl as (r & Hl & Hr); [|done].
      apply (Hs key r s); [done|congruence|done].
  - intros m w Hw [r Hr] Hp. apply quiet_admission; [done..|]. intros _ Hn. congruence.
Qed.

#[export] Instance quiet_write : WriteFrame (quiet source k).
Proof.
  constructor.
  - intros k' at_ due. apply preserves_get_db. intros [d n] Hw. simpl.
    destruct (mail_message_states d !! k') as [s|] eqn:Hs; [|done].
    destruct (bool_decide (s_deleted_at s = None)); [|done].
    apply (quiet_state k' _ d n n Hw); [lia|]. intros r Hh Hr Hid. simpl.
    destruct k' as [mb key]. simpl in Hh. subst mb. by apply (quiet_settled _ _ _ Hw key r s).
  - intros s d n [Hf Ho Hs]. by constructor.
  - intros key p. apply preserves_bind; [keep|]. intros _ [d n] [Hf Ho Hs].
    constructor; simpl in *; [done| |].
    + intros key' r [Hl _]%map_lookup_filter_Some. by apply Ho.
    + intros key' r s [Hl _]%map_lookup_filter_Some Hid [Hl' _]%map_lookup_filter_Some.
      by apply (Hs key' r s).
Qed.
(** With the unique index, one stored message with the id is the only one. *)
Lemma quiet_intro key r w :
  (forall n, (ticks w <= n)%nat -> ulid_at n <> src_message_id source) ->
  settled source (db w) -> mail_ok (db w) -> k = source_key source key ->
  mail_messages (db w) !! k = Some r -> m_message_id r = Some (src_message_id source) ->
  quiet source k w.
Proof.
  intros Hf Hs Hok -> Hr Hid. constructor; [done| |done]. intros key' r' Hr' Hid'.
  destruct (decide (source_key source key' = source_key source key)) as [|Hne]; [done|].
  exfalso. apply (mail_unique _ Hok _ _ _ _ Hr' Hr). split; [done|]. split; [done|].
  left. split; [by eexists|congruence].
Qed.
End Quiet.

(** ** Batches one after the other *)

(** A batch of operations that satisfy [P], however its transaction ends. *)
Definition lane_step `{rt : Runtime} (P : WriteOp -> Prop) (w w' : World) : Prop :=
  exists begin_error batch commit_error, Forall P batch
    /\ w' = (process_batch begin_error batch commit_error w).2.

Lemma lane_preserves `{rt : Runtime} (I : World -> Prop) `{!Frame I, !MailFrame I, !WriteFrame I}
    (P : WriteOp -> Prop) w w' :
  (forall op m, P op -> admitted_by op m -> preserves I (insert_message_canonical m)) ->
  rtc (lane_step P) w w' -> I w -> I w'.
Proof.
  intros Hc. induction 1 as [|w w1 w2 (be & batch & ce & Hb & ->) _ IH]; [done|]. intros Hw.
  apply IH. apply (keep_batch I); [|done]. intros op m Hin. apply Hc.
  by eapply (proj1 (Forall_forall P batch)).
Qed.
