(* ===== verification/HandoffSpec.v ===== *)
(** * Facts about the read-state handoff

    What one attempt of the worker does to the store, and the invariant of the
    supervisor: nothing accepted is lost, the queue and the restarts are
    bounded, and an unavailable handoff stays unavailable. *)

From S2P Require Import Prelude ErrorCodes Types CronTypes Database Transaction MailStore Admission Writer.
From S2P Require Import WriterInv WriterSpec Handoff.
From stdpp Require Import base gmap strings numbers list.
Local Open Scope Z_scope.

(** The state row of a message displayed at [at_]: read, and nothing else but the time of
    the change and the nudge marker, which is moved to the next reminder while an
    acknowledgement is waited for and cleared otherwise. *)
Record shown_read (at_ : IsoTimestamp) (s s' : MailStateRow) : Prop := {
  shown_is_read : s_read s' = true;
  shown_pending : s_pending_ack_at s' = s_pending_ack_at s;
  shown_acknowledged : s_acknowledged_at s' = s_acknowledged_at s;
  shown_expires : s_expires_at s' = s_expires_at s;
  shown_deleted : s_deleted_at s' = s_deleted_at s;
  shown_updated : s_updated_at s' = Some at_;
  shown_attempts : s_nudge_attempts s' = s_nudge_attempts s;
  shown_nudge : s_nudge_pending_at s'
    = match s_nudge_pending_at s, s_pending_ack_at s, s_acknowledged_at s with
      | Some _, Some _, None => Some (next_reminder_due at_)
      | _, _, _ => None
      end
}.

(** Exactly the messages of the mailbox named by [keys] are shown as read, and all of them
    were there and not deleted. *)
Definition states_shown (at_ : IsoTimestamp) (mailbox : MemberKey) (keys : list MessageKey)
    (before after : gmap MailKey MailStateRow) : Prop :=
  (forall key, key ∈ keys -> exists s s',
     before !! mailbox_key mailbox key = Some s /\ s_deleted_at s = None
     /\ after !! mailbox_key mailbox key = Some s' /\ shown_read at_ s s')
  /\ forall k, (forall key, key ∈ keys -> k <> mailbox_key mailbox key) -> after !! k = before !! k.

Section HandoffSpec.
Context {rt : Runtime}.

(** What a transition asks of the store, at one reading [n] of the clock: the messages it
    names are shown as read, its watermark is set, and nothing else of the store changes. *)
Definition applied (transition : ReadDisplayTransition) (d d' : Db) : Prop :=
  let scope := rt_scope transition in
  exists n states,
    states_shown (now_at n) scope (rt_message_ids transition) (mail_message_states d) states
    /\ d' = set_mail_seen_watermarks
              match rt_seen_watermark transition with
              | None => mail_seen_watermarks d
              | Some at_ => <[(member_team scope, member_agent scope) := at_]> (mail_seen_watermarks d)
              end
              (set_mail_message_states states d).

Definition read_op (t : ReadDisplayTransition) : WriteOp :=
  ApplyReadDisplayState (rt_scope t) (rt_message_ids t) (rt_seen_watermark t) (rt_origin t).

Lemma shown_twice at_ s s1 s2 : shown_read at_ s s1 -> shown_read at_ s1 s2 -> shown_read at_ s s2.
Proof.
  intros [A1 A2 A3 A4 A5 A6 A7 A8] [B1 B2 B3 B4 B5 B6 B7 B8]. split; try congruence.
  rewrite B8, A8, A2, A3. by destruct (s_nudge_pending_at s), (s_pending_ack_at s), (s_acknowledged_at s).
Qed.

Lemma mark_one_read_exact mailbox at_ key w w' :
  mark_one_read mailbox at_ (next_reminder_due at_) key w = (Ok tt, w') ->
  exists states, w' = with_db (set_mail_message_states states) w
    /\ states_shown at_ mailbox [key] (mail_message_states (db w)) states.
Proof.
  unfold mark_one_read, mark_message_read. fold (mailbox_key mailbox key). set (k := mailbox_key mailbox key).
  intros (n & w1 & H1 & H)%run_bind_ok_inv. apply run_bind_ok_inv in H1 as (d & w2 & [= <- <-] & H1).
  destruct (mail_message_states (db w) !! k) as [s|] eqn:Hs; [|by injection H1 as <- _].
  destruct (bool_decide (s_deleted_at s = None)) eqn:Hd; [|by injection H1 as <- _].
  cbv zeta in H1. apply run_bind_ok_inv in H1 as (u & w3 & [= _ <-] & [= <- <-]). cbn in H. injection H as <-.
  apply bool_decide_eq_true in Hd. eexists. split; [reflexivity|]. split.
  - intros key' ->%list_elem_of_singleton. fold k. eexists s, _. split_and!; [done..|apply lookup_insert_eq|].
    split; try done. cbn. by destruct (s_nudge_pending_at s), (s_pending_ack_at s), (s_acknowledged_at s).
  - intros k' Hk. rewrite lookup_insert_ne; [done|]. intros <-. by apply (Hk key); [left|].
Qed.

Lemma states_shown_cons at_ mailbox key keys st st1 st2 :
  states_shown at_ mailbox [key] st st1 -> states_shown at_ mailbox keys st1 st2 ->
  states_shown at_ mailbox (key :: keys) st st2.
Proof.
  intros [H1 F1] [H2 F2].
  assert (forall key', key' <> key -> st1 !! mailbox_key mailbox key' = st !! mailbox_key mailbox key') as Hne.
  { intros key' Hk. apply F1. by intros x ->%list_elem_of_singleton [= ?]. }
  split.
  - intros key' Hin. destruct (decide (key' = key)) as [->|Hk].
    + destruct (H1 key ltac:(left)) as (s & s1 & Hs & Hd & Hs1 & Hr).
      destruct (decide (key ∈ keys)) as [Hk|Hk].
      * destruct (H2 key Hk) as (s1' & s2 & Hs1' & _ & Hs2 & Hr2). assert (s1' = s1) as -> by congruence.
        exists s, s2. split_and!; [done..|]. by eapply shown_twice.
      * exists s, s1. split_and!; try done. rewrite F2; [done|]. intros x Hx [= <-]. done.
    + apply elem_of_cons in Hin as [->|Hin]; [done|]. destruct (H2 key' Hin) as (s & s2 & Hs & H).
      rewrite Hne in Hs by done. by exists s, s2.
  - intros k Hk. rewrite F2, F1; [done| |].
    + intros x ->%list_elem_of_singleton. apply Hk. by left.
    + intros x Hx. apply Hk. by right.
Qed.

Lemma mark_all_read_exact mailbox at_ keys w w' :
  mark_all_read mailbox at_ (next_reminder_due at_) keys w = (Ok tt, w') ->
  exists states, w' = with_db (set_mail_message_states states) w
    /\ states_shown at_ mailbox keys (mail_message_states (db w)) states.
Proof.
  revert w. induction keys as [|key keys IH]; intros w; cbn [mark_all_read].
  { intros [= <-]. exists (mail_message_states (db w)). split; [by destruct w as [[] ?]|].
    split; [by intros key ?%elem_of_nil|done]. }
  intros ([] & w1 & H1 & H2)%run_bind_ok_inv. apply mark_one_read_exact in H1 as (st1 & -> & Hs1).
  apply IH in H2 as (st2 & -> & Hs2). exists st2. split; [done|]. by eapply states_shown_cons.
Qed.

Lemma execute_read_ok t w r w' :
  execute (read_op t) w = (Ok r, w') -> r = ReadDisplayStateApplied /\ applied t (db w) (db w').
Proof.
  intros (u & w1 & Hf & H)%run_bind_ok_inv.
  assert (db w1 = db w) as Hw1.
  { destruct (fence_cases (rt_origin t) w) as [Hc|[e Hc]]; rewrite Hc in Hf; [|done]. by injection Hf as _ <-. }
  apply run_bind_ok_inv in H as (at_ & w2 & [= <- <-] & H).
  apply run_bind_ok_inv in H as ([] & w3 & Hm & H). apply mark_all_read_exact in Hm as (states & -> & Hst).
  cbn [db] in Hst. rewrite Hw1 in Hst.
  apply run_bind_ok_inv in H as (u' & w4 & Hs & [= <- <-]). split; [done|].
  exists (ticks w1), states. split; [exact Hst|]. destruct (rt_seen_watermark t) as [at_|].
  - apply run_bind_ok_inv in Hs as (d & w5 & [= <- <-] & [= _ <-]). cbn. by rewrite Hw1.
  - injection Hs as _ <-. cbn. rewrite Hw1. by destruct (db w).
Qed.

Lemma execute_read_lost t w key :
  key ∈ rt_message_ids t -> ~ live (db w) (mailbox_key (rt_scope t) key) ->
  exists e w', execute (read_op t) w = (Err e, w').
Proof.
  intros Hin Hl. cbn [execute read_op]. unfold execute_read_display_state.
  destruct (fence_cases (rt_origin t) w) as [Hc|[e Hc]].
  2:{ erewrite run_bind_err by exact Hc. by eexists _, _. }
  run Hc. erewrite run_bind by reflexivity.
  destruct (mark_all_read_run (rt_scope t) (now_at (ticks w)) (next_reminder_due (now_at (ticks w)))
              (rt_message_ids t) (mkWorld (db w) (S (ticks w))))
    as [(w3 & Hrun & Ho & Hall)|(e & w3 & key' & Hrun & _)].
  - destruct (Hall key Hin) as [Hlive _]. done.
  - erewrite run_bind_err by exact Hrun. by eexists _, _.
Qed.

(** A read has no task whose event a refusal would append. *)
Lemma read_not_audited t error w :
  append_rejected_task_event (read_op t) error w = (Ok None, w).
Proof.
  unfold append_rejected_task_event. destruct (negb _); [done|]. by destruct (is_pre_admission_reassignment_refusal _ _).
Qed.

Lemma queued_read t w :
  exists reply w', process_queued_write (read_op t) w = (Ok reply, w')
    /\ match reply with
       | Ok c => match operation c with
                 | Ok r => exists w0 w1, db w0 = db w /\ execute (read_op t) w0 = (Ok r, w1) /\ db w' = db w1
                 | Err e => db w' = db w
                 | Panic => False
                 end
       | Err _ => db w' = db w
       | Panic => False
       end.
Proof.
  unfold process_queued_write. destruct (control_fault (ticks w)); [by eexists _, _|].
  destruct (execute (read_op t) (tick w)) as [[r|e|] w1] eqn:Hx.
  - cbn [finalize_queued_write]. unfold commit_savepoint.
    destruct (control_fault (ticks w1)); eexists _, _; (split; [reflexivity|]); [done|].
    exists (tick w), w1. done.
  - rewrite read_not_audited. eexists _, _. split; [reflexivity|]. done.
  - eexists _, _. split; [reflexivity|]. done.
Qed.

(** One attempt: it applies the transition, or fails and leaves the store as it
    was. *)
Lemma attempt_run begin_error commit_error t w :
  match apply_read_display_state begin_error commit_error t w with
  | (Ok tt, w') => rt_origin t <> Origin_Peer /\ applied t (db w) (db w')
  | (Err _, w') => db w' = db w
  | (Panic, _) => False
  end.
Proof.
  unfold apply_read_display_state. case_bool_decide as Ho; [done|].
  unfold submit_write, process_batch. fold (read_op t).
  assert (process_writes [] [read_op t] w =
    (reply ← process_queued_write (read_op t); mret [reply]) w) as Hp.
  { cbn. unfold mbind, M_bind, st_mbind, st_bind, mret, M_ret, st_ret.
    by destruct (process_queued_write _ w) as [[] ?]. }
  destruct (queued_read t w) as (reply & w1 & Hq & Hr).
  destruct begin_error as [be|]; [done|].
  unfold mbind at 1, M_bind, st_mbind, st_bind. rewrite Hp. unfold mbind at 1, M_bind, st_mbind, st_bind.
  rewrite Hq. cbn. destruct commit_error as [ce|]; cbn.
  { by destruct reply. }
  destruct reply as [c|e|]; [|done..]. destruct (operation c) as [r|e|]; [|done..].
  destruct Hr as (w0 & w2 & Hd & Hx & Hd2). apply execute_read_ok in Hx as [-> Ha]. rewrite Hd, <- Hd2 in Ha. done.
Qed.

(** A transition that names a message that is gone is never applied. *)
Lemma attempt_lost begin_error commit_error t w key :
  key ∈ rt_message_ids t -> ~ live (db w) (mailbox_key (rt_scope t) key) ->
  exists e w', apply_read_display_state begin_error commit_error t w = (Err e, w') /\ db w' = db w.
Proof.
  intros Hin Hl. pose proof (attempt_run begin_error commit_error t w) as H.
  destruct (apply_read_display_state _ _ _ _) as [[[]|e|] w']; [|by eexists _, _|done].
  destruct H as (_ & n & states & [Ha _] & _). destruct (Ha key Hin) as (s & _ & Hs & Hd & _). exfalso. apply Hl. by exists s.
Qed.

(** ** The supervisor *)

(** The state a task of the manager goes with. *)
Definition state_of_task (t : HandoffTask) : SupervisorState :=
  match t with
  | Worker_Waiting | Worker_Applying _ _ | Worker_GaveUp | Worker_Died => Supervisor_Ready
  | Manager_Restarting => Supervisor_Restarting
  | Manager_Finished => Supervisor_Unavailable
  end.

Record handoff_inv (config : HandoffConfig) (s : System) : Prop := {
  inv_config : h_config (sys_inner s) = config;
  inv_fifo : sys_accepted s = sys_removed s ++ h_queue (sys_inner s);
  inv_bounded : (length (h_queue (sys_inner s)) <= handoff_buffer config)%nat;
  inv_restarts :
    0 <= h_restart_count (sys_inner s)
    /\ h_restart_count (sys_inner s)
       <= supervisor_max_restarts config + (match sys_task s with Manager_Finished => 1 | _ => 0 end);
  inv_state : h_state (sys_inner s) = state_of_task (sys_task s);
  inv_front : match sys_task s with
              | Worker_Applying t _ => head (h_queue (sys_inner s)) = Some t
              | _ => True
              end
}.

Lemma initial_handoff_inv config w :
  0 <= supervisor_max_restarts config -> handoff_inv config (handoff_initial config w).
Proof. intros Hm. split; cbn; try done; lia. Qed.

Lemma push_inner t h :
  h_config (try_push_with_origin t h).2 = h_config h
  /\ h_state (try_push_with_origin t h).2 = h_state h
  /\ h_restart_count (try_push_with_origin t h).2 = h_restart_count h
  /\ match (try_push_with_origin t h).1 with
     | None => h_state h = Supervisor_Ready
               /\ (length (h_queue h) < handoff_buffer (h_config h))%nat
               /\ h_queue (try_push_with_origin t h).2 = h_queue h ++ [t]
     | Some _ => h_queue (try_push_with_origin t h).2 = h_queue h
     end.
Proof.
  unfold try_push_with_origin. case_bool_decide as Hs; [done|].
  destruct (Nat.leb_spec (handoff_buffer (h_config h)) (length (h_queue h))); [done|].
  split_and!; try done; by destruct (h_state h).
Qed.

Lemma handoff_inv_step config s s' : handoff_inv config s -> handoff_step s s' -> handoff_inv config s'.
Proof.
  intros [Hc Hf Hb [Hr0 Hr] Hst Hfr] Hstep.
  destruct Hstep as [t h k w acc rem|t rest h w acc rem instant Hq
    |t dl h w answer w' acc rem be ce instant Hrun|h w acc rem|t dl h w w' acc rem be ce Hw
    |h w acc rem|h w acc rem|h w acc rem|op be ce h k w acc rem]; cbn in *.
  - destruct (push_inner t h) as (E1 & E2 & E3 & E4).
    destruct ((try_push_with_origin t h).1) as [x|].
    + split; cbn; rewrite ?E1, ?E2, ?E3, ?E4; done.
    + destruct E4 as (_ & Hl & E4). split; cbn; rewrite ?E1, ?E2, ?E3, ?E4; try done.
      * by rewrite Hf, app_assoc.
      * rewrite length_app. cbn. rewrite Hc in Hl. lia.
      * destruct k; try done. by destruct (h_queue h).
  - split; cbn; try done. by rewrite Hq.
  - pose proof (attempt_run be ce t w) as Ha. rewrite Hrun in Ha. destruct answer as [[]|e|]; [| |done].
    + cbn. destruct (h_queue h) as [|x q] eqn:Hq; [done|]. cbn in Hfr. injection Hfr as ->.
      split; cbn; rewrite ?Hq; try done.
      * by rewrite Hf, <- app_assoc.
      * cbn in *. lia.
    + cbn. destruct (dl <=? instant); split; cbn; done.
  - split; cbn; done.
  - split; cbn; done.
  - split; cbn; try done. lia.
  - unfold worker_died. cbn [h_config count_restart h_restart_count].
    destruct (Z.ltb_spec (supervisor_max_restarts (h_config h)) (h_restart_count h + 1));
      split; cbn in *; try done; rewrite ?Hc in *; lia.
  - split; cbn; done.
  - split; cbn; done.
Qed.

Lemma handoff_reachable_inv config w s :
  0 <= supervisor_max_restarts config -> rtc handoff_step (handoff_initial config w) s -> handoff_inv config s.
Proof.
  intros Hm Hs. remember (handoff_initial config w) as s0 eqn:E.
  assert (handoff_inv config s0) as H0 by (subst; by apply initial_handoff_inv).
  clear E. induction Hs as [|s0 s1 s2 H1 _ IH]; [done|]. by eapply IH, handoff_inv_step.
Qed.

(** A finished manager never returns, and its queue never moves. *)
Lemma finished_step s s' :
  sys_task s = Manager_Finished -> h_state (sys_inner s) = Supervisor_Unavailable -> handoff_step s s' ->
  sys_task s' = Manager_Finished /\ h_state (sys_inner s') = Supervisor_Unavailable
  /\ h_queue (sys_inner s') = h_queue (sys_inner s) /\ sys_accepted s' = sys_accepted s.
Proof.
  intros Ht Hs Hstep. destruct Hstep; cbn in *; try done.
  unfold try_push_with_origin. by rewrite bool_decide_eq_true_2 by congruence.
Qed.

Lemma finished_stays s s' :
  sys_task s = Manager_Finished -> h_state (sys_inner s) = Supervisor_Unavailable -> rtc handoff_step s s' ->
  sys_task s' = Manager_Finished /\ h_state (sys_inner s') = Supervisor_Unavailable
  /\ h_queue (sys_inner s') = h_queue (sys_inner s) /\ sys_accepted s' = sys_accepted s.
Proof.
  intros Ht Hs Hr. induction Hr as [s|s s1 s2 H1 _ IH]; [done|].
  destruct (finished_step _ _ Ht Hs H1) as (A & B & C & D).
  destruct (IH A B) as (A' & B' & C' & D'). split_and!; [done|done|congruence..].
Qed.

(** ** The handoff as a queue *)

(** The abstract handoff: transitions waiting in order, and the store. *)
Inductive fifo_step (buffer : nat) :
    list ReadDisplayTransition * Db -> list ReadDisplayTransition * Db -> Prop :=
| fifo_idle q d : fifo_step buffer (q, d) (q, d)
| fifo_accept t q d : (length q < buffer)%nat -> fifo_step buffer (q, d) (q ++ [t], d)
| fifo_deliver t q d d' :
    rt_origin t <> Origin_Peer -> applied t d d' -> fifo_step buffer (t :: q, d) (q, d')
| fifo_repeat t q d d' :  (* the worker died after the write, before it removed the transition *)
    rt_origin t <> Origin_Peer -> applied t d d' -> fifo_step buffer (t :: q, d) (t :: q, d')
| fifo_other q op begin_error commit_error w :
    fifo_step buffer (q, db w) (q, db (process_batch begin_error [op] commit_error w).2).

Definition handoff_view (s : System) : list ReadDisplayTransition * Db :=
  (h_queue (sys_inner s), db (sys_world s)).

Lemma step_fifo config s s' :
  handoff_inv config s -> handoff_step s s' ->
  fifo_step (handoff_buffer config) (handoff_view s) (handoff_view s').
Proof.
  intros [Hc _ _ _ _ Hfr] Hstep. unfold handoff_view.
  destruct Hstep as [t h k w acc rem|t rest h w acc rem instant Hq
    |t dl h w answer w' acc rem be ce instant Hrun|h w acc rem|t dl h w w' acc rem be ce Hw
    |h w acc rem|h w acc rem|h w acc rem|op be ce h k w acc rem]; cbn in *; try constructor.
  - destruct (push_inner t h) as (_ & _ & _ & E). destruct ((try_push_with_origin t h).1).
    + rewrite E. constructor.
    + destruct E as (_ & Hl & ->). constructor. by rewrite Hc in Hl.
  - pose proof (attempt_run be ce t w) as Ha. rewrite Hrun in Ha. destruct answer as [[]|e|]; [| |done]; cbn.
    + destruct (h_queue h) as [|x q]; [done|]. injection Hfr as ->. destruct Ha. by constructor.
    + rewrite Ha. destruct (dl <=? instant); constructor.
  - destruct (h_queue h) as [|x q]; [done|]. injection Hfr as ->.
    destruct Hw as [->| ->]; [constructor|].
    pose proof (attempt_run be ce t w) as Ha.
    destruct (apply_read_display_state be ce t w) as [[[]|e|] w']; cbn; [|rewrite Ha; constructor|done].
    destruct Ha. by constructor.
  - unfold worker_died. destruct (_ <? _); constructor.
Qed.
End HandoffSpec.
