(* ===== verification/ReaderSpec.v ===== *)
(** * Facts about the mailbox reader

    A page of current messages never holds a message and its parent, so the
    selection that follows only filters it; the bucket the query counts a row in
    is the one the selection classifies it into. *)

From S2P Require Import Prelude ErrorCodes Types Database MailStore MailSpec.
From S2P Require Import Threading Selection MailboxReader ReadCommands MailboxRuntime.
From stdpp Require Import base gmap strings numbers sorting list.
Local Open Scope Z_scope.

Section ReaderSpec.
Context {rt : Runtime} {lane : ReaderLane}.

(** The thread columns and the time of a row are those of its envelope, and a message that
    adds details names its parent. *)
Definition row_ok (r : MailMessageRow) : Prop :=
  forall e, decode_envelope (m_envelope_json r) = Some e ->
    env_message_id e = m_message_id r /\ env_parent_message_id e = m_parent_message_id r
    /\ env_timestamp e = m_message_at r
    /\ (env_thread_mode e = Some ThreadMode_AddDetails -> is_Some (env_parent_message_id e)).

Definition rows_ok (d : Db) : Prop := forall k r, mail_messages d !! k = Some r -> row_ok r.

(** Envelopes without clashing members are read back as they were written; the
    rows of admitted messages are well formed. *)
Lemma inserted_row_ok record w row at_ w' :
  plain_extra (env_extra (msg_envelope record)) ->
  (env_thread_mode (msg_envelope record) = Some ThreadMode_AddDetails ->
   is_Some (env_parent_message_id (msg_envelope record))) ->
  prepare_message_insert_values record w = (Ok (row, at_), w') -> row_ok row.
Proof.
  intros Hx Hmode Hrun. unfold prepare_message_insert_values in Hrun.
  apply run_bind_ok_inv in Hrun as (? & ? & _ & Hrun).
  apply run_bind_ok_inv in Hrun as (class & ? & _ & Hrun).
  apply run_bind_ok_inv in Hrun as (? & ? & _ & Hrun). injection Hrun as <- _ _.
  intros e He. cbn [m_envelope_json m_message_id m_parent_message_id] in *.
  unfold decode_envelope in He. cbn [se_extra storage_envelope_new] in He.
  rewrite bool_decide_eq_true_2 in He by done. injection He as <-. done.
Qed.

Lemma elem_of_joined d j :
  j ∈ joined_rows d <->
  mail_messages d !! j_key j = Some (j_message j) /\ j_state j = mail_message_states d !! j_key j.
Proof.
  unfold joined_rows. rewrite list_elem_of_fmap. split.
  - intros ([k r] & -> & Hk%elem_of_map_to_list). done.
  - destruct j as [k r s]. cbn. intros [Hk ->]. exists (k, r). split; [done|].
    by apply elem_of_map_to_list.
Qed.

Lemma joined_key_inj d j j' :
  j ∈ joined_rows d -> j' ∈ joined_rows d -> j_key j = j_key j' -> j = j'.
Proof.
  intros [Hj Hs]%elem_of_joined [Hj' Hs']%elem_of_joined E. rewrite <- E in Hj', Hs'.
  destruct j, j'. cbn in *. congruence.
Qed.

Lemma elem_of_matching at_ d f j :
  j ∈ matching_rows at_ d f <-> j ∈ joined_rows d /\ sql_matches at_ d f j = true.
Proof. unfold matching_rows. rewrite elem_of_sort_by. apply list_filter_elem. Qed.

Lemma limit_to_elem {A} limit (l : list A) x : x ∈ limit_to limit l -> x ∈ l.
Proof.
  destruct limit as [n|]; [|done]. cbn. intros H. rewrite <- (take_drop n l). apply elem_of_app. by left.
Qed.

Lemma decode_matching_ok scope j m :
  decode_matching_message scope j = Ok m ->
  exists e, decode_envelope (m_envelope_json (j_message j)) = Some e
    /\ m = mkMessage (member_team scope) (member_agent scope) (j_key j).2 (apply_state e (j_state j)).
Proof.
  unfold decode_matching_message, message_key_new, require_non_blank.
  destruct (String.eqb _ _); [done|]. cbn.
  destruct (decode_envelope _) as [e|]; [|done]. intros [= <-]. by exists e.
Qed.

(** What a listed message is. *)
Lemma listed_row at_ d scope f limit ms m :
  list_matching_messages at_ d scope (mkListQuery f limit) = Ok ms -> m ∈ ms ->
  exists j e, j ∈ joined_rows d /\ sql_matches at_ d f j = true
    /\ decode_envelope (m_envelope_json (j_message j)) = Some e
    /\ m = mkMessage (member_team scope) (member_agent scope) (j_key j).2 (apply_state e (j_state j)).
Proof.
  unfold list_matching_messages. rewrite collect_iff. intros Hf Hm.
  apply list_elem_of_lookup in Hm as [k Hk].
  destruct (Forall2_lookup_r _ _ _ _ _ Hf Hk) as (j & Hj & Hd). cbn in Hj.
  apply list_elem_of_lookup_2, limit_to_elem, elem_of_matching in Hj as [Hj Hs].
  apply decode_matching_ok in Hd as (e & He & ->). by exists j, e.
Qed.

Lemma apply_state_thread e s :
  env_message_id (apply_state e s) = env_message_id e
  /\ env_parent_message_id (apply_state e s) = env_parent_message_id e
  /\ env_thread_mode (apply_state e s) = env_thread_mode e.
Proof. by destruct s. Qed.

(** A row that matches with [current_only] is live and has no live successor. *)
Lemma matches_current at_ d f j :
  f_current_only f = true -> sql_matches at_ d f j = true ->
  sql_not_deleted j = true /\ sql_unexpired at_ j = true /\ sql_current at_ d j = true.
Proof.
  intros Hc Hs. unfold sql_matches, message_state_clause in Hs. rewrite Hc in Hs.
  repeat (apply andb_true_iff in Hs as [? Hs]). cbn [negb orb] in *.
  repeat match goal with H : (_ && _)%bool = true |- _ => apply andb_true_iff in H as [? ?] end. done.
Qed.

Lemma matches_scope at_ d f j team agent :
  f_team f = Some team -> f_agent f = Some agent -> sql_matches at_ d f j = true ->
  (j_key j).1 = (team, agent).
Proof.
  intros Ht Ha Hs. unfold sql_matches, identity_clause in Hs. rewrite Ht, Ha in Hs.
  unfold equals_clause at 1 2 in Hs.
  repeat match goal with H : (_ && _)%bool = true |- _ => apply andb_true_iff in H as [? ?] end.
  repeat match goal with H : bool_decide _ = true |- _ => apply bool_decide_eq_true in H end.
  destruct (j_key j) as [[? ?] ?]. cbn in *. congruence.
Qed.

Lemma current_no_successor at_ d j j' :
  sql_current at_ d j = true -> is_Some (m_message_id (j_message j)) -> j' ∈ joined_rows d ->
  (j_key j').1 = (j_key j).1 -> sql_not_deleted j' = true -> sql_unexpired at_ j' = true ->
  m_parent_message_id (j_message j') <> m_message_id (j_message j).
Proof.
  unfold sql_current. intros Hc [i Hi] Hj' Hk Hd Hu Hp. rewrite Hi in Hc, Hp.
  rewrite bool_decide_eq_false_2 in Hc by done. cbn [orb] in Hc. apply negb_true_iff in Hc.
  enough (existsb (is_live_successor at_ j) (joined_rows d) = true) by congruence.
  apply existsb_exists. exists j'. split; [by apply list_elem_of_In|].
  unfold is_live_successor. rewrite Hd, Hu, Hp, Hi, !bool_decide_eq_true_2; [done..|]. done.
Qed.

(** The messages of a page of current messages are the last of their threads. *)
Lemma listed_all_last at_ d scope f limit ms :
  messages_unique (mail_messages d) -> rows_ok d ->
  f_team f = Some (member_team scope) -> f_agent f = Some (member_agent scope) ->
  f_current_only f = true ->
  list_matching_messages at_ d scope (mkListQuery f limit) = Ok ms ->
  all_last (msg_envelope <$> ms).
Proof.
  intros Hu Hrows Ht Ha Hc Hl.
  assert (forall e, e ∈ msg_envelope <$> ms ->
            exists j e0, j ∈ joined_rows d /\ sql_matches at_ d f j = true
              /\ e = apply_state e0 (j_state j)
              /\ env_message_id e = m_message_id (j_message j)
              /\ env_parent_message_id e = m_parent_message_id (j_message j)
              /\ (env_thread_mode e = Some ThreadMode_AddDetails -> is_Some (env_parent_message_id e))
              /\ decode_envelope (m_envelope_json (j_message j)) = Some e0) as Hrow.
  { intros e (m & -> & Hm)%list_elem_of_fmap.
    destruct (listed_row _ _ _ _ _ _ _ Hl Hm) as (j & e0 & Hj & Hs & He0 & ->). exists j, e0.
    apply elem_of_joined in Hj as Hj'. destruct (Hrows _ _ (proj1 Hj') e0 He0) as (R1 & R2 & _ & R3).
    cbn [msg_envelope]. destruct (apply_state_thread e0 (j_state j)) as (-> & -> & ->).
    split_and!; done. }
  split_and!.
  - intros e e' i (j & e0 & Hj & Hs & -> & Hi & _ & _ & _)%Hrow (j' & e0' & Hj' & Hs' & -> & _ & Hp & _)%Hrow.
    rewrite Hi, Hp. intros Hid.
    rewrite <- Hid. destruct (matches_current _ _ _ _ Hc Hs) as (_ & _ & Hcur).
    destruct (matches_current _ _ _ _ Hc Hs') as (Hd' & Hu' & _).
    eapply (current_no_successor at_ d j j'); [done|by rewrite Hid|done| |done..].
    by rewrite (matches_scope _ _ _ _ _ _ Ht Ha Hs), (matches_scope _ _ _ _ _ _ Ht Ha Hs').
  - intros e e' i (j & e0 & Hj & Hs & -> & Hi & _ & _ & He0)%Hrow (j' & e0' & Hj' & Hs' & -> & Hi' & _ & _ & He0')%Hrow.
    rewrite Hi, Hi'. intros Hid Hid'.
    assert (j_key j = j_key j') as Hk.
    { apply elem_of_joined in Hj as [Hj _]. apply elem_of_joined in Hj' as [Hj' _].
      destruct (decide (j_key j = j_key j')) as [|Hne]; [done|]. exfalso.
      apply (Hu _ _ _ _ Hj Hj'). split_and!; [done| |left; split; [by eexists|congruence]].
      by rewrite (matches_scope _ _ _ _ _ _ Ht Ha Hs), (matches_scope _ _ _ _ _ _ Ht Ha Hs'). }
    apply elem_of_joined in Hj as [Hj Hst]. apply elem_of_joined in Hj' as [Hj' Hst'].
    rewrite <- Hk in Hj', Hst'. rewrite Hst, Hst'. congruence.
  - intros e (j & e0 & _ & _ & _ & _ & _ & H & _)%Hrow. done.
Qed.

(** The mail tables are consistent: what every theorem about a page needs. *)
Definition mailbox_ok (d : Db) : Prop := messages_unique (mail_messages d) /\ rows_ok d.

Lemma mailbox_filters_current scope request : f_current_only (mailbox_filters scope request) = true.
Proof. done. Qed.

(** The candidates of a page are the last messages of their threads. *)
Lemma page_all_last at_ d scope request limit ms :
  mailbox_ok d ->
  list_matching_messages at_ d scope (mkListQuery (mailbox_filters scope request) limit) = Ok ms ->
  all_last (candidate_envelope <$> (selection_candidate <$> ms)).
Proof.
  intros [Hu Hr] Hl. rewrite <- list_fmap_compose.
  by eapply (listed_all_last at_ d scope (mailbox_filters scope request)).
Qed.

(** The page of one more row: a limit takes the first messages. *)
Lemma page_limit at_ d scope f n ms :
  list_matching_messages at_ d scope (mkListQuery f None) = Ok ms ->
  list_matching_messages at_ d scope (mkListQuery f (Some n)) = Ok (take n ms).
Proof.
  unfold list_matching_messages. cbn [lq_limit lq_filters sql_limit limit_to]. rewrite !collect_iff.
  apply Forall2_take.
Qed.

Lemma current_no_live_successor at_ d j j' :
  sql_current at_ d j = true -> j' ∈ joined_rows d -> is_live_successor at_ j j' = true -> False.
Proof.
  intros Hc Hj' Hs. unfold is_live_successor in Hs.
  repeat (apply andb_true_iff in Hs as [Hs ?]).
  repeat match goal with H : bool_decide _ = true |- _ => apply bool_decide_eq_true in H end.
  eapply (current_no_successor at_ d j j'); [done|congruence|done..].
Qed.

(** A row with a live successor is never on a page. *)
Lemma superseded_not_listed at_ d scope request limit ms j j' :
  list_matching_messages at_ d scope (mkListQuery (mailbox_filters scope request) limit) = Ok ms ->
  j ∈ joined_rows d -> j' ∈ joined_rows d -> (j_key j).1 = (member_team scope, member_agent scope) ->
  is_Some (m_message_id (j_message j)) -> is_live_successor at_ j j' = true ->
  forall m, m ∈ ms -> msg_message_key m <> (j_key j).2.
Proof.
  intros Hl Hj Hj' Hk Hid Hs m Hm Heq.
  destruct (listed_row _ _ _ _ _ _ _ Hl Hm) as (x & e & Hx & Hmx & _ & ->). cbn in Heq.
  pose proof (matches_scope at_ d (mailbox_filters scope request) x (member_team scope)
                (member_agent scope) eq_refl eq_refl Hmx) as Hkx.
  assert (x = j) as ->.
  { apply (joined_key_inj d); [done..|].
    destruct (j_key x) as [p1 p2], (j_key j) as [q1 q2]. cbn in *. by subst. }
  destruct (matches_current _ _ _ _ (mailbox_filters_current _ _) Hmx) as (_ & _ & Hc).
  by apply (current_no_live_successor at_ d j j').
Qed.

(** ** Running a read *)

(** The databases other clients may leave behind while a command runs. *)
Definition others : relation Db := rtc (fun d d' => exists n, d' = others_commit n d).

Lemma submit_ok {A} (q : IsoTimestamp -> Db -> Outcome AtmError A) w a w' :
  submit q w = (Ok a, w') ->
  q (now_at (ticks w)) (db w') = Ok a /\ others (db w) (db w').
Proof.
  unfold submit. destruct (lane_fault (ticks w)); [done|].
  destruct (q _ _) eqn:Hq; intros [= <- <-]; (split; [done|]). apply rtc_once. by eexists.
Qed.

Lemma read_deadline_ok deadline w z w' : read_deadline deadline w = (Ok z, w') -> db w' = db w.
Proof.
  unfold read_deadline, remaining. intros (o & w1 & H1 & H2)%run_bind_ok_inv.
  apply run_bind_ok_inv in H1 as (instant & w2 & H0 & H1). unfold instant_now in H0.
  injection H0 as <- <-. unfold mret, M_ret, st_ret in H1. injection H1 as <- <-.
  destruct (_ <? _)%Z in H2; cbn in H2; [|done]. by injection H2 as _ <-.
Qed.

(** A selection is one of a page of the mailbox. *)
Lemma select_matching_page scope request limit deadline w sel w' :
  select_matching scope request limit deadline w = (Ok sel, w') ->
  others (db w) (db w') /\ exists k d t ms, others (db w) d
    /\ list_matching_messages (now_at k) d scope (mkListQuery (mailbox_filters scope request) limit) = Ok ms
    /\ selected sel = selected (select_mailbox_candidates t (selection_candidate <$> ms) request).
Proof.
  unfold select_matching. intros (z & w1 & H1 & H)%run_bind_ok_inv.
  apply read_deadline_ok in H1. apply run_bind_ok_inv in H as (counts & w2 & H2 & H).
  unfold submit_count, scope_mismatch in H2. cbn [f_team f_agent current_filters] in H2.
  rewrite !bool_decide_eq_false_2 in H2 by (intros Hn; by apply Hn). cbn [orb] in H2.
  apply submit_ok in H2 as [_ Hd2].
  apply run_bind_ok_inv in H as (z' & w3 & H3 & H). apply read_deadline_ok in H3.
  apply run_bind_ok_inv in H as (ms & w4 & H4 & H).
  unfold submit_matching_list, scope_mismatch in H4. cbn [lq_filters f_team f_agent mailbox_filters] in H4.
  rewrite !bool_decide_eq_false_2 in H4 by (intros Hn; by apply Hn). cbn [orb] in H4.
  apply submit_ok in H4 as [Hl Hd4].
  apply run_bind_ok_inv in H as (s & w5 & H5 & H). unfold select_candidates in H5.
  injection H5 as <- <-. unfold mret, M_ret, st_ret in H. injection H as <- <-.
  rewrite H3 in Hd4. rewrite H1 in Hd2. assert (others (db w) (db w4)) as Ho by (by etrans).
  split; [done|]. eexists _, (db w4), _, ms. split; [done|]. split; [exact Hl|reflexivity].
Qed.

Lemma select_one_page scope request deadline w sel n w' :
  select_one_for_read scope request deadline w = (Ok (sel, n), w') ->
  others (db w) (db w') /\ exists k d t ms, others (db w) d
    /\ list_matching_messages (now_at k) d scope (mkListQuery (mailbox_filters scope request) (Some 1%nat)) = Ok ms
    /\ selected sel = selected (select_mailbox_candidates t (selection_candidate <$> ms) request).
Proof.
  unfold select_one_for_read. intros (s & w1 & H1 & H)%run_bind_ok_inv.
  apply select_matching_page in H1 as [Ho1 Hp].
  apply run_bind_ok_inv in H as (z & w2 & H2 & H). apply read_deadline_ok in H2.
  apply run_bind_ok_inv in H as (counts & w3 & H3 & H).
  unfold submit_count, scope_mismatch in H3. cbn [f_team f_agent mailbox_filters] in H3.
  rewrite !bool_decide_eq_false_2 in H3 by (intros Hn; by apply Hn). cbn [orb] in H3.
  apply submit_ok in H3 as [_ Ho3]. unfold mret, M_ret, st_ret in H. injection H as <- <- <-.
  rewrite H2 in Ho3. split; [by etrans|done].
Qed.

Lemma wait_page fuel scope request deadline wait w sel n w' :
  wait_for_mail fuel scope request deadline wait w = (Ok (Some (sel, n)), w') ->
  exists k d t ms, others (db w) d
    /\ list_matching_messages (now_at k) d scope (mkListQuery (mailbox_filters scope request) (Some 1%nat)) = Ok ms
    /\ selected sel = selected (select_mailbox_candidates t (selection_candidate <$> ms) request).
Proof.
  revert w. induction fuel as [|fuel IH]; intros w; [done|]. cbn [wait_for_mail].
  intros ([sel0 n0] & w1 & H1 & H)%run_bind_ok_inv. apply select_one_page in H1 as [Ho1 Hp].
  cbn [fst] in H. destruct (negb _).
  { unfold mret, M_ret, st_ret in H. by injection H as -> -> ->. }
  apply run_bind_ok_inv in H as (i1 & w2 & H2 & H). unfold instant_now in H2. injection H2 as <- <-.
  destruct (_ <=? _)%Z.
  { unfold mret, M_ret, st_ret in H. by injection H as -> -> _. }
  apply run_bind_ok_inv in H as (o & w3 & H3 & H). unfold remaining in H3.
  apply run_bind_ok_inv in H3 as (i2 & w4 & H4 & H3). unfold instant_now in H4. injection H4 as <- <-.
  unfold mret, M_ret, st_ret in H3. injection H3 as _ <-.
  apply run_bind_ok_inv in H as (r & w5 & H5 & H). destruct o; cbn in H5; [|done].
  injection H5 as <- <-. apply run_bind_ok_inv in H as (i3 & w6 & H6 & H).
  unfold instant_now in H6. injection H6 as <- <-. cbv zeta in H. destruct (_ =? 0)%Z.
  { unfold mret, M_ret, st_ret in H. by injection H as -> -> _. }
  apply IH in H as (k & d & t & ms & Ho & Hl). cbn [db] in Ho.
  exists k, d, t, ms. split; [by etrans|done].
Qed.

Lemma select_for_read_page fuel scope request deadline wait w sel n w' :
  select_for_read fuel scope request deadline wait w = (Ok (Some (sel, n)), w') ->
  exists k d t ms, others (db w) d
    /\ list_matching_messages (now_at k) d scope (mkListQuery (mailbox_filters scope request) (Some 1%nat)) = Ok ms
    /\ selected sel = selected (select_mailbox_candidates t (selection_candidate <$> ms) request).
Proof.
  unfold select_for_read. destruct wait as [wait|].
  - intros (i & w1 & H1 & H)%run_bind_ok_inv. unfold instant_now in H1. injection H1 as <- <-.
    by apply wait_page in H.
  - intros ([sel0 n0] & w1 & H1 & H)%run_bind_ok_inv. apply select_one_page in H1 as [_ Hp].
    unfold mret, M_ret, st_ret in H. by injection H as -> -> _.
Qed.

(** Authorization changes the watermark of the request only, which a selection
    does not use. *)
Lemma authorize_read_ok command deadline w command' w' :
  authorize_read command deadline w = (Ok command', w') ->
  others (db w) (db w') /\ exists watermark,
    command' = command \/ command' = AsyncReadCommand_with_seen_watermark watermark command.
Proof.
  unfold authorize_read. intros (o & w1 & H1 & H)%run_bind_ok_inv.
  unfold mret, M_ret, st_ret in H. injection H as <- <-.
  assert (others (db w) (db w1)) as Ho.
  { unfold authorize in H1. apply run_bind_ok_inv in H1 as (u & w2 & H2 & H1).
    assert (others (db w) (db w2)) as Ho2.
    { destruct (rc_explicit_target command); [|by injection H2 as _ <-].
      apply run_bind_ok_inv in H2 as (z & w3 & H3 & H2). apply read_deadline_ok in H3.
      apply run_bind_ok_inv in H2 as (b & w4 & H4 & H2). apply submit_ok in H4 as [_ H4].
      rewrite H3 in H4. destruct b; [by injection H2 as _ <-|done]. }
    destruct (rc_loads_seen_watermark command); [|by injection H1 as _ <-].
    apply run_bind_ok_inv in H1 as (z & w3 & H3 & H1). apply read_deadline_ok in H3.
    apply run_bind_ok_inv in H1 as (b & w4 & H4 & H1). apply submit_ok in H4 as [_ H4].
    rewrite H3 in H4. injection H1 as _ <-. by etrans. }
  split; [done|]. destruct o as [watermark|]; [exists watermark; by right|exists None; by left].
Qed.

(** ** Order of a page *)

Lemma cmp_ok_rows : cmp_ok compare_rows.
Proof.
  unfold compare_rows.
  apply (cmp_ok_then
           (fun l r => Z.compare (m_message_at (j_message r)) (m_message_at (j_message l)))
           (fun l r => String.compare (j_key r).2 (j_key l).2)).
  - apply (cmp_ok_flip (fun l r => Z.compare (m_message_at (j_message l)) (m_message_at (j_message r)))),
      (cmp_ok_on (fun j => m_message_at (j_message j))), cmp_ok_Z.
  - apply (cmp_ok_flip (fun l r => String.compare (j_key l).2 (j_key r).2)),
      (cmp_ok_on (fun j => (j_key j).2)), cmp_ok_string.
Qed.

Lemma joined_nodup d : NoDup (joined_rows d).
Proof.
  unfold joined_rows. apply NoDup_fmap_2_strong; [|apply NoDup_map_to_list].
  intros [k r] [k' r'] _ _ H. cbn in H. by simplify_eq.
Qed.

Lemma matching_nodup at_ d f : NoDup (matching_rows at_ d f).
Proof.
  unfold matching_rows. rewrite sort_by_perm. apply NoDup_ListNoDup, List.NoDup_filter, NoDup_ListNoDup,
    joined_nodup.
Qed.

Lemma matching_sorted at_ d f :
  StronglySorted (fun x y => compare_rows x y <> Gt) (matching_rows at_ d f).
Proof.
  apply (sort_by_ordered compare_rows (cmp_ok_total _ cmp_ok_rows) (cmp_le_trans _ cmp_ok_rows)).
Qed.

(** The rows of a mailbox have distinct times. *)
Definition distinct_times (d : Db) : Prop :=
  forall j j', j ∈ joined_rows d -> j' ∈ joined_rows d -> (j_key j).1 = (j_key j').1 ->
    m_message_at (j_message j) = m_message_at (j_message j') -> j = j'.

(** Then the messages of a page are newest first. *)
Lemma page_newest_first at_ d scope request limit ms :
  mailbox_ok d -> distinct_times d ->
  list_matching_messages at_ d scope (mkListQuery (mailbox_filters scope request) limit) = Ok ms ->
  StronglySorted (fun m m' => (env_timestamp (msg_envelope m') < env_timestamp (msg_envelope m))%Z) ms.
Proof.
  intros [_ Hr] Hd Hl. unfold list_matching_messages in Hl. rewrite collect_iff in Hl. cbn in Hl.
  set (rows := sql_limit limit (matching_rows at_ d (mailbox_filters scope request))) in *.
  assert (StronglySorted (fun x y => compare_rows x y <> Gt) rows /\ NoDup rows
          /\ Forall (fun j => j ∈ joined_rows d /\ (j_key j).1 = (member_team scope, member_agent scope)) rows)
    as (Hs & Hn & Hf).
  { pose proof (matching_sorted at_ d (mailbox_filters scope request)) as Hs.
    pose proof (matching_nodup at_ d (mailbox_filters scope request)) as Hn.
    assert (forall j, j ∈ matching_rows at_ d (mailbox_filters scope request) ->
              j ∈ joined_rows d /\ (j_key j).1 = (member_team scope, member_agent scope)) as Hf.
    { intros j [Hj Hm]%elem_of_matching. split; [done|].
      by apply (matches_scope at_ d (mailbox_filters scope request) j _ _ eq_refl eq_refl). }
    subst rows. unfold sql_limit. destruct limit as [n|]; cbn; [|split_and!; [done..|by apply Forall_forall]].
    rewrite <- (take_drop n (matching_rows _ _ _)) in Hs, Hn. split_and!.
    - by apply StronglySorted_app_1_l in Hs.
    - by apply NoDup_app in Hn as [].
    - apply Forall_forall. intros j Hj. apply Hf. rewrite <- (take_drop n (matching_rows _ _ _)).
      apply elem_of_app. by left. }
  clearbody rows. revert ms Hl. induction Hs as [|j rows Hs IH Hle]; intros ms Hl;
    [by inversion Hl; constructor|].
  apply NoDup_cons in Hn as [Hnj Hn]. apply Forall_cons in Hf as [[Hj Hjk] Hf].
  inversion Hl as [|? m ? ms' Hm Hl']; subst. constructor; [by apply IH|].
  apply Forall_forall. intros m' Hm'. apply list_elem_of_lookup in Hm' as [k Hk].
  destruct (Forall2_lookup_r _ _ _ _ _ Hl' Hk) as (j' & Hj' & Hdec).
  apply list_elem_of_lookup_2 in Hj'.
  assert (compare_rows j j' <> Gt) as Hc by (by apply (proj1 (Forall_forall _ _) Hle)).
  destruct (proj1 (Forall_forall _ _) Hf j' Hj') as [Hin Hk'].
  assert (forall (x : JoinedRow) (y : Message), x ∈ joined_rows d -> decode_matching_message scope x = Ok y ->
            env_timestamp (msg_envelope y) = m_message_at (j_message x)) as Htime.
  { intros x y Hx (e & He & ->)%decode_matching_ok. cbn.
    apply elem_of_joined in Hx as [Hx _]. destruct (Hr _ _ Hx e He) as (_ & _ & Ht & _).
    rewrite <- Ht. by destruct (j_state x). }
  rewrite (Htime j m), (Htime j' m') by done.
  unfold compare_rows, then_with in Hc.
  destruct (Z.compare_spec (m_message_at (j_message j')) (m_message_at (j_message j))) as [E|E|E]; [|done..].
  exfalso. apply Hnj. rewrite (Hd j j'); [done..|congruence|done].
Qed.
End ReaderSpec.
