(* ===== verification/TaskStore.v ===== *)
(** * The task store outside the writer lane

    Models the [TaskStore] operations of
    [crates/atm-storage-rusqlite/src/task_store.rs] and the queries of
    [task_sql.rs]: reminders and lead notifications, prompt handoffs, escalation
    recipients, task lists, events and the refusal run. *)

From S2P Require Import Prelude ErrorCodes Types Address TaskState Database TaskCodec TaskQueue MailStore TaskOps.
From S2P Require Import Transaction Admission Writer.
From stdpp Require Import base gmap strings list numbers sorting pretty.
Local Open Scope Z_scope.
Local Open Scope string_scope.
Local Open Scope list_scope.

Inductive EscalationScope : Set :=
| Scope_Daemon
| Scope_Team (team : TeamName).

(** [EscalationScope::key]. *)
Definition scope_key (scope : EscalationScope) : string :=
  match scope with
  | Scope_Daemon => "daemon"
  | Scope_Team team => "team:" +:+ team
  end.

Definition MAX_ESCALATION_RECIPIENTS : Z := 8.

Inductive PromptHandoffWrite : Set :=
| Handoff_Inserted (handoff : PromptHandoff)
| Handoff_Existing (handoff : PromptHandoff).

Record TaskReminderRecord : Set := mkTaskReminderRecord {
  rem_row : TaskRow;
  rem_event : TaskEventRow
}.

(** ** Row updates of the statements *)

(** [SET reminder_count = reminder_count + 1, last_reminded_at, updated_at]. *)
Definition reminded_row (at_ : IsoTimestamp) (r : TaskSqlRow) : TaskSqlRow :=
  mkTaskSqlRow (t_assignee r) (t_assigner r) (t_state r) (t_close_outcome r) (t_position r)
    (t_assignment_message_id r) (t_description r) (t_assigned_at r) at_ (Some at_)
    (t_reminder_count r + 1) (t_lead_notified_count r).

(** [SET reminder_count = 0, last_reminded_at = NULL, updated_at]. *)
Definition reminders_reset_row (at_ : IsoTimestamp) (r : TaskSqlRow) : TaskSqlRow :=
  mkTaskSqlRow (t_assignee r) (t_assigner r) (t_state r) (t_close_outcome r) (t_position r)
    (t_assignment_message_id r) (t_description r) (t_assigned_at r) at_ None
    0 (t_lead_notified_count r).

(** [SET lead_notified_count = lead_notified_count + 1, updated_at]. *)
Definition lead_notified_row (at_ : IsoTimestamp) (r : TaskSqlRow) : TaskSqlRow :=
  mkTaskSqlRow (t_assignee r) (t_assigner r) (t_state r) (t_close_outcome r) (t_position r)
    (t_assignment_message_id r) (t_description r) (t_assigned_at r) at_ (t_last_reminded_at r)
    (t_reminder_count r) (t_lead_notified_count r + 1).

(** [WHERE team = ?1 AND task_id = ?2 AND assignee = ?3]. *)
Definition task_of (member : MemberKey) (task_id : TaskId) (k : TaskKey) (r : TaskSqlRow) : Prop :=
  k = (member_team member, task_id) /\ t_assignee r = member_agent member.

#[export] Instance task_of_dec member task_id k r : Decision (task_of member task_id k r).
Proof. unfold task_of. apply _. Defined.

(** ** Queries *)

Section Queries.
Context {rt : Runtime}.

(** [WHERE team = ?1 AND (?2 IS NULL OR assignee = ?2)]. *)
Definition team_row (team : TeamName) (member : option AgentName) (k : TaskKey) (r : TaskSqlRow)
    : Prop :=
  k.1 = team /\ (member = None \/ member = Some (t_assignee r)).

#[export] Instance team_row_dec team member k r : Decision (team_row team member k r).
Proof. unfold team_row. apply _. Defined.

(** [ORDER BY assigned_at DESC, task_id DESC], on the column texts. *)
Definition recency_le (a b : TaskKey * TaskSqlRow) : Prop :=
  let ta := timestamp_to_string (t_assigned_at a.2) in
  let tb := timestamp_to_string (t_assigned_at b.2) in
  (String.le tb ta /\ ta <> tb) \/ (ta = tb /\ String.le b.1.2 a.1.2).

#[export] Instance recency_le_dec a b : Decision (recency_le a b).
Proof. unfold recency_le. apply _. Defined.

(** [ORDER BY position, assigned_at, task_id]. *)
Definition open_le (a b : TaskKey * TaskSqlRow) : Prop :=
  let ta := timestamp_to_string (t_assigned_at a.2) in
  let tb := timestamp_to_string (t_assigned_at b.2) in
  position_key a.2 < position_key b.2
  \/ (position_key a.2 = position_key b.2
      /\ ((String.le ta tb /\ ta <> tb) \/ (ta = tb /\ String.le a.1.2 b.1.2))).

#[export] Instance open_le_dec a b : Decision (open_le a b).
Proof. unfold open_le. apply _. Defined.

Definition decode_rows (rows : list (TaskKey * TaskSqlRow)) : Outcome RusqliteError (list TaskRow) :=
  collect ((fun kr => decode_row kr.1 kr.2) <$> rows).

Definition select_tasks_for_team (d : Db) (team : TeamName) (member : option AgentName)
    : Outcome RusqliteError (list TaskRow) :=
  decode_rows (merge_sort recency_le
    (map_to_list (filter (fun kr => team_row team member kr.1 kr.2) (tasks d)))).

(** [clamp_limit_to_i64]. *)
Definition clamp_limit_to_i64 (limit : Z) : Z := default i64_max (i64_try_from limit).

(** [... LIMIT ?3]. *)
Definition select_task_history (d : Db) (team : TeamName) (member : option AgentName) (limit : Z)
    : Outcome RusqliteError (list TaskRow) :=
  decode_rows (take (Z.to_nat (clamp_limit_to_i64 limit)) (merge_sort recency_le
    (map_to_list (filter (fun kr => team_row team member kr.1 kr.2) (tasks d))))).

Definition select_open_tasks_for_member (d : Db) (team : TeamName) (assignee : AgentName)
    : Outcome RusqliteError (list TaskRow) :=
  decode_rows (merge_sort open_le
    (map_to_list (filter (fun kr => open_of team assignee kr.1 kr.2) (tasks d)))).

(** [ORDER BY seq ASC]. *)
Definition seq_le (a b : TaskEventSqlRow) : Prop := e_seq a <= e_seq b.

#[export] Instance seq_le_dec a b : Decision (seq_le a b).
Proof. unfold seq_le. apply _. Defined.

Definition select_task_events (d : Db) (team : TeamName) (task_id : TaskId)
    (member : option AgentName) : Outcome RusqliteError (list TaskEventRow) :=
  collect (decode_event_row <$> merge_sort seq_le
    (filter (fun e => e_team e = team /\ e_task_id e = task_id
                      /\ (member = None \/ member = Some (e_assignee e))) (task_events d))).

(** The longest prefix whose elements satisfy the test ([Iterator::take_while]). *)
Fixpoint take_while {A} (test : A -> bool) (l : list A) : list A :=
  match l with
  | [] => []
  | a :: l' => if test a then a :: take_while test l' else []
  end.

Definition closing_events : list string :=
  ["assigned"; "reassigned"; "reopened"; "completed"; "refused"; "cancelled"].

(** The member's assignments and closes, in [rowid] order, which is the order of the log. *)
Definition closing_log (d : Db) (team : TeamName) (assignee : AgentName) : list TaskEventSqlRow :=
  filter (fun e => e_team e = team /\ e_assignee e = assignee /\ e_event e ∈ closing_events)
    (task_events d).

Definition trailing_refusal_run (d : Db) (team : TeamName) (assignee : AgentName) : RefusalRun :=
  let refused := take_while (fun e => String.eqb (e_event e) "refused")
                   (reverse (closing_log d team assignee)) in
  mkRefusalRun (default u32_max (u32_try_from (Z.of_nat (length refused))))
    (e_at <$> last refused).

(** ** Operations *)

Definition store_load_task (team : TeamName) (task_id : TaskId) : M (option TaskRow) :=
  query "failed to load task row" (fun d => select_task_row d team task_id).

Definition open_tasks (member : MemberKey) : M (list TaskRow) :=
  query "failed to list open tasks"
    (fun d => select_open_tasks_for_member d (member_team member) (member_agent member)).

Definition list_tasks (team : TeamName) (member : option AgentName) : M (list TaskRow) :=
  query "failed to list tasks" (fun d => select_tasks_for_team d team member).

Definition list_task_history (team : TeamName) (member : option AgentName) (limit : Z)
    : M (list TaskRow) :=
  query "failed to list task history" (fun d => select_task_history d team member limit).

Definition list_task_events (team : TeamName) (task_id : TaskId) (assignee : option AgentName)
    : M (list TaskEventRow) :=
  query "failed to list task events" (fun d => select_task_events d team task_id assignee).

(** [SqliteTaskStore::append_event]: the row has no [close_outcome]. *)
Definition append_event (member : MemberKey) (task_id : TaskId) (at_ : IsoTimestamp)
    (event : TaskEventKind) (state : TaskState) (actor : AgentName)
    (message_id : option AtmMessageId) (outcome : option ReminderOutcome) : M TaskEventRow :=
  d ← get_db;
  let seq := max_seq (member_team member) task_id (task_events d) + 1 in
  _ ← insert_task_event "failed to append task event"
        {| e_team := member_team member;
           e_task_id := task_id;
           e_assignee := member_agent member;
           e_seq := seq;
           e_at := at_;
           e_event := event_name event;
           e_from_state := Some (state_name state);
           e_to_state := Some (state_name state);
           e_close_outcome := None;
           e_actor := actor;
           e_message_id := message_id;
           e_outcome := outcome_name <$> outcome;
           e_marker := None;
           e_detail := None |};
  mret {| ev_team := member_team member;
          ev_task_id := task_id;
          ev_assignee := member_agent member;
          ev_seq := seq;
          ev_at := at_;
          ev_event := event;
          ev_from_state := Some state;
          ev_to_state := Some state;
          ev_actor := decode_actor actor;
          ev_message_id := message_id;
          ev_outcome := outcome;
          ev_marker := None;
          ev_detail := None |}.

(** The body of the transaction. *)
Definition record_reminder_in (member : MemberKey) (task_id : TaskId) (at_ : IsoTimestamp)
    (outcome : ReminderOutcome) : M TaskReminderRecord :=
  found ← load_task_row (member_team member) task_id;
  row ← ok_or (validation "cannot record a reminder for a missing task") found;
  _ ← update_tasks "failed to record task reminder" (task_of member task_id) (reminded_row at_);
  event ← append_event member task_id at_ TaskEventKind_Reminded (row_state row)
            DAEMON_ACTOR_NAME None (Some outcome);
  found ← load_task_row (member_team member) task_id;
  row ← ok_or (mailbox_write "task disappeared after reminder write") found;
  mret (mkTaskReminderRecord row event).

Definition record_reminder (member : MemberKey) (task_id : TaskId) (at_ : IsoTimestamp)
    (outcome : ReminderOutcome) : M TaskReminderRecord :=
  with_transaction (record_reminder_in member task_id at_ outcome).

Definition reset_reminders (member : MemberKey) (task_id : TaskId) (at_ : IsoTimestamp)
    : M TaskReminderRecord :=
  with_transaction (
    found ← load_task_row (member_team member) task_id;
    row ← ok_or (validation "cannot reset reminders for a missing task") found;
    _ ← update_tasks "failed to reset task reminders" (task_of member task_id)
          (reminders_reset_row at_);
    event ← append_event member task_id at_ TaskEventKind_RemindersReset (row_state row)
              DAEMON_ACTOR_NAME None None;
    found ← load_task_row (member_team member) task_id;
    row ← ok_or (mailbox_write "task disappeared after reminder reset") found;
    mret (mkTaskReminderRecord row event)).

Definition record_lead_notified (member : MemberKey) (task_id : TaskId) (at_ : IsoTimestamp)
    (lead : AgentName) (message_id : AtmMessageId) : M TaskEventRow :=
  with_transaction (
    found ← load_task_row (member_team member) task_id;
    row ← ok_or (validation "cannot record lead notification for a missing task") found;
    _ ← update_tasks "failed to record lead notification" (task_of member task_id)
          (lead_notified_row at_);
    append_event member task_id at_ TaskEventKind_LeadNotified (row_state row) lead
      (Some message_id) None).

(** The unique key [(team, agent, message_key, kind, attempt)]. *)
Definition same_handoff (a b : PromptHandoff) : Prop :=
  handoff_team a = handoff_team b /\ handoff_agent a = handoff_agent b
  /\ handoff_message_key a = handoff_message_key b /\ handoff_kind a = handoff_kind b
  /\ handoff_attempt a = handoff_attempt b.

#[export] Instance same_handoff_dec a b : Decision (same_handoff a b).
Proof. unfold same_handoff. apply _. Defined.

(** [INSERT OR IGNORE], then the stored row when nothing was inserted. *)
Definition insert_or_load_handoff (handoff : PromptHandoff) : M PromptHandoffWrite :=
  d ← get_db;
  match head (filter (same_handoff handoff) (prompt_handoffs d)) with
  | None =>
    _ ← put_db (set_prompt_handoffs (prompt_handoffs d ++ [handoff]) d);
    mret (Handoff_Inserted handoff)
  | Some existing => mret (Handoff_Existing existing)
  end.

Definition record_prompt_handoff (handoff : PromptHandoff) : M PromptHandoffWrite :=
  with_transaction (insert_or_load_handoff handoff).

(** [SELECT COUNT( * ) ... WHERE scope_key = ?1]. *)
Definition scope_count (d : Db) (key : string) : Z :=
  Z.of_nat (size (filter (fun kr : (string * string) * IsoTimestamp => kr.1.1 = key)
                    (escalation_recipients d))).

(** The body of the transaction. *)
Definition add_recipient_in (scope : EscalationScope) (address : string) (at_ : IsoTimestamp)
    : M bool :=
  d ← get_db;
  if bool_decide (is_Some (escalation_recipients d !! (scope_key scope, address)))
  then mret false
  else if bool_decide (MAX_ESCALATION_RECIPIENTS <= scope_count d (scope_key scope))
  then fail (validation ("escalation recipient scope already has the maximum of "
                         +:+ pretty MAX_ESCALATION_RECIPIENTS +:+ " recipients"))
  else
    _ ← put_db (set_escalation_recipients
                  (<[(scope_key scope, address) := at_]> (escalation_recipients d)) d);
    mret true.

Definition add_escalation_recipient (scope : EscalationScope) (address : AgentAddress)
    (at_ : IsoTimestamp) : M bool :=
  with_transaction (add_recipient_in scope (agent_address_to_string address) at_).

Definition remove_escalation_recipient (scope : EscalationScope) (address : AgentAddress) : M bool :=
  let key := (scope_key scope, agent_address_to_string address) in
  d ← get_db;
  _ ← put_db (set_escalation_recipients (delete key (escalation_recipients d)) d);
  mret (bool_decide (is_Some (escalation_recipients d !! key))).

(** [SELECT address ... WHERE scope_key = ?1 ORDER BY address ASC]. *)
Definition scope_addresses (d : Db) (key : string) : list string :=
  merge_sort String.le ((fun kr : (string * string) * IsoTimestamp => kr.1.2)
    <$> map_to_list (filter (fun kr : (string * string) * IsoTimestamp => kr.1.1 = key)
                       (escalation_recipients d))).

(** A stored address that does not parse is logged and skipped. *)
Definition decode_recipient (address : string) : option AgentAddress :=
  match agent_address_from_str address with
  | Ok address => Some address
  | Err _ | Panic => None
  end.

Definition list_escalation_recipients (scope : EscalationScope) : M (list AgentAddress) :=
  d ← get_db;
  mret (omap decode_recipient (scope_addresses d (scope_key scope))).

(** The default method of the trait. *)
Definition effective_escalation_recipients (team : TeamName) : M (list AgentAddress) :=
  team_recipients ← list_escalation_recipients (Scope_Team team);
  if bool_decide (team_recipients = [])
  then list_escalation_recipients Scope_Daemon
  else mret team_recipients.

(** [move_task_with_origin]: the lane answers with the reply of the move's own
    savepoint; the transaction of its batch is [process_batch]. *)
Definition move_task_with_origin (team : TeamName) (task_id : TaskId) (actor : AgentName)
    (target : MoveTarget) (at_ : IsoTimestamp) (origin : MessageWriteOrigin)
    : M (CommittedTaskWrite TaskMoveRecord) :=
  if bool_decide (origin = Origin_Peer)
  then fail (validation "peer provenance cannot move local tasks")
  else
    reply ← process_queued_write (TaskMove team task_id actor target at_ origin);
    committed ← lift reply;
    mret (mkCommitted
      (result ← operation committed;
       match result with
       | TaskMoved record => Ok record
       | _ => Err (mailbox_write "task move writer returned an unexpected result")
       end) (committed_events committed)).
End Queries.

(** * Facts about the task store

    Reminders and lead notifications on open tasks keep the ledger and its log
    well formed; the open-task query returns the member's queue; the event query
    returns a well-formed log whole. *)

From S2P Require Import QueueFacts.
From S2P Require Import LedgerInv EventLog PlacementSpec MailSpec.
From S2P Require Import TaskCloseSpec WriterInv WriterSpec.

(** ** Changing the counters of one task *)

(** What a typed row says of the counters. *)
Lemma decode_row_counts k r row :
  decode_row k r = Ok row ->
  row_reminder_count row = t_reminder_count r /\ row_lead_notified_count row = t_lead_notified_count r
  /\ row_last_reminded_at row = t_last_reminded_at r.
Proof.
  unfold decode_row, get_u32, u32_try_from, mbind, outcome_mbind, outcome_bind.
  destruct (option_traverse _ _) as [p|e|]; [|done..].
  destruct (bool_decide (0 <= t_reminder_count r <= u32_max)); [|done].
  destruct (bool_decide (0 <= t_lead_notified_count r <= u32_max)); [|done].
  destruct (parse_state _ _) as [st|e|]; [|done..]. by intros [= <-].
Qed.

Section Counters.
Context {rt : Runtime} {rtok : RuntimeOk rt}.

Lemma task_of_keys member id r ts :
  ts !! (member_team member, id) = Some r -> t_assignee r = member_agent member ->
  scan (select_keys (task_of member id) ts) = [(member_team member, id)].
Proof.
  intros Hr Ha. apply Permutation_singleton_r. rewrite scan_perm.
  apply NoDup_Permutation; [apply select_keys_NoDup|apply NoDup_singleton|]. intros k.
  rewrite elem_of_select_keys, list_elem_of_singleton. split.
  - by intros (r' & _ & -> & _).
  - intros ->. exists r. by split.
Qed.

(** The member's [UPDATE] of its own task: the counters and times change. *)
Lemma update_counters_run context member id f r w :
  (forall r, same_status r (f r)) -> sql_ok (tasks (db w)) ->
  tasks (db w) !! (member_team member, id) = Some r -> t_assignee r = member_agent member ->
  update_tasks context (task_of member id) f w
  = (Ok tt, with_db (set_tasks (<[(member_team member, id) := f r]> (tasks (db w)))) w).
Proof.
  intros Hf Hsql Hr Ha. unfold update_tasks. run run_get_db.
  rewrite (task_of_keys member id r _ Hr Ha). simpl. rewrite Hr.
  assert (Hst : store_task_row (member_team member, id) (f r) (tasks (db w))
                = Some (<[(member_team member, id) := f r]> (tasks (db w)))).
  { pose proof (status_kept_sql_ok _ _ (status_kept_insert _ _ _ _ Hr (Hf r)) Hsql) as [Ht Hn].
    apply store_task_row_Some. split_and!; [done| |].
    - apply (Ht (member_team member, id)), lookup_insert_eq.
    - intros k' r' Hr'. destruct (decide (k' = (member_team member, id))) as [->|Hne].
      + by apply position_clash_irrefl.
      + apply Hn; [apply lookup_insert_eq|by rewrite lookup_insert_ne]. }
  by rewrite Hst.
Qed.

(** Another member's task is not touched. *)
Lemma update_counters_other context member id f r w :
  tasks (db w) !! (member_team member, id) = Some r -> t_assignee r <> member_agent member ->
  update_tasks context (task_of member id) f w = (Ok tt, w).
Proof.
  intros Hr Ha. unfold update_tasks. run run_get_db.
  assert (scan (select_keys (task_of member id) (tasks (db w))) = []) as ->.
  { apply Permutation_nil_r. rewrite scan_perm. apply Permutation_nil_r.
    apply elem_of_nil_inv. intros k (r' & Hr' & -> & Ha')%elem_of_select_keys. congruence. }
  simpl. unfold put_db. rewrite set_tasks_id. by destruct w.
Qed.

(** ** The event of a counter change *)

Definition counter_draft (member : MemberKey) (id : TaskId) (at_ : IsoTimestamp)
    (event : TaskEventKind) (state : TaskState) (actor : AgentName)
    (message_id : option AtmMessageId) (outcome : option ReminderOutcome) : TaskEventDraft :=
  {| draft_team := member_team member;
     draft_task_id := id;
     draft_assignee := member_agent member;
     draft_at := at_;
     draft_event := event;
     draft_from_state := Some (tag state);
     draft_to_state := Some (tag state);
     draft_close_outcome := None;
     draft_actor := actor;
     draft_message_id := message_id;
     draft_outcome := outcome;
     draft_marker := None;
     draft_detail := None |}.

(** The append never fails; the row is the draft's, without an outcome. *)
Lemma append_event_run member id at_ event state actor message_id outcome w :
  let draft := counter_draft member id at_ event state actor message_id outcome in
  append_event member id at_ event state actor message_id outcome w
  = (Ok (event_typed draft (next_seq draft (task_events (db w))) (Some state) (Some state)),
     with_db (logged draft) w).
Proof.
  intros draft. unfold append_event. run run_get_db. cbv zeta.
  erewrite run_bind; [reflexivity|]. unfold insert_task_event. run run_get_db.
  rewrite bool_decide_eq_false_2.
  - unfold put_db, with_db. do 3 f_equal. unfold logged, event_sql, draft. simpl.
    rewrite event_name_as_str. by destruct state, outcome as [[]|].
  - rewrite Exists_exists. intros (e & Hin & Ht & Hid & Hseq). simpl in *.
    assert (e_seq e <= max_seq (member_team member) id (task_events (db w))) by (by apply max_seq_ub).
    lia.
Qed.

(** An open state reads back; a closed one has lost its outcome. *)
Lemma open_event_state state :
  is_open state = true -> task_event_state (Some (tag state)) None = Ok (Some state).
Proof. by destruct state. Qed.

Lemma counter_event_closed member id at_ event outcome0 actor message_id outcome n :
  exists e, decode_event_row (event_sql (counter_draft member id at_ event
              (TaskState_Complete outcome0) actor message_id outcome) n) = Err e.
Proof.
  unfold decode_event_row. simpl. rewrite <- event_name_as_str, parse_event_name. by eexists.
Qed.

(** ** Reminders *)

(** The database after a counter change of [r] and its event. *)
Definition counted (member : MemberKey) (id : TaskId) (f : TaskSqlRow -> TaskSqlRow)
    (r : TaskSqlRow) (draft : TaskEventDraft) (d : Db) : Db :=
  logged draft (set_tasks (<[(member_team member, id) := f r]> (tasks d)) d).

Lemma counted_ledger ts k r r' :
  ledger_ok ts -> ts !! k = Some r -> same_status r r' ->
  (0 <= t_reminder_count r' <= u32_max /\ 0 <= t_lead_notified_count r' <= u32_max) ->
  ledger_ok (<[k := r']> ts)
  /\ forall team agent qa qw, member_queue ts team agent qa qw ->
       member_queue (<[k := r']> ts) team agent qa qw.
Proof.
  intros Hl Hr Hs Hc. pose proof (status_kept_insert _ _ _ _ Hr Hs) as Hk. split.
  - eapply status_kept_ledger_ok; [done| |done]. by apply map_Forall_insert_2; [|apply Hl].
  - intros team agent qa qw. by apply status_kept_member_queue.
Qed.

(** The task in the table the first read saw. *)
Lemma member_task_read (member : MemberKey) id r w :
  ledger_ok (tasks (db w)) -> queues_bounded (tasks (db w)) ->
  tasks (db w) !! (member_team member, id) = Some r ->
  exists row, load_task_row (member_team member) id w = (Ok (Some row), w)
    /\ row_view (member_team member, id) r row.
Proof. intros Hl Hb Hr. apply load_task_row_some; auto with atm. Qed.

Lemma load_task_row_decoded team id r w :
  tasks (db w) !! (team, id) = Some r ->
  load_task_row team id w
  = (match decode_row (team, id) r with
     | Ok row => Ok (Some row)
     | Err e => Err (sqlite_error "failed to load task row" e)
     | Panic => Panic
     end, w).
Proof.
  intros Hr. unfold load_task_row, select_task_row. run run_get_db. rewrite Hr. cbn.
  by destruct (decode_row _ r).
Qed.

(** Reading a row whose reminder count has left the [u32] range fails. *)
Lemma decode_row_overflow k r :
  u32_max < t_reminder_count r -> (forall p, t_position r = Some p -> 0 <= p <= u32_max) ->
  exists e, decode_row k r = Err e.
Proof.
  intros Hc Hp. unfold decode_row.
  assert (option_traverse get_u32 (t_position r) = Ok (t_position r)) as ->.
  { destruct (t_position r) as [p|]; [|done]. specialize (Hp p eq_refl). simpl.
    unfold get_u32, u32_try_from. by rewrite bool_decide_eq_true_2. }
  assert (get_u32 (t_reminder_count r) = Err (IntegralValueOutOfRange (t_reminder_count r))) as ->.
  { unfold get_u32, u32_try_from. by rewrite bool_decide_eq_false_2 by lia. }
  by eexists.
Qed.

(** Recording a reminder of a member's own task, open or not. *)
Lemma record_reminder_run member id at_ outcome r row w :
  ledger_ok (tasks (db w)) -> queues_bounded (tasks (db w)) ->
  tasks (db w) !! (member_team member, id) = Some r -> t_assignee r = member_agent member ->
  load_task_row (member_team member) id w = (Ok (Some row), w) ->
  let draft := counter_draft member id at_ TaskEventKind_Reminded (row_state row)
                 DAEMON_ACTOR_NAME None (Some outcome) in
  let d' := counted member id (reminded_row at_) r draft (db w) in
  (t_reminder_count r < u32_max /\ exists row',
     record_reminder_in member id at_ outcome w
     = (Ok (mkTaskReminderRecord row' (event_typed draft (next_seq draft (task_events (db w)))
                                         (Some (row_state row)) (Some (row_state row)))),
        mkWorld d' (ticks w))
     /\ row_view (member_team member, id) (reminded_row at_ r) row'
     /\ row_reminder_count row' = t_reminder_count r + 1
     /\ row_last_reminded_at row' = Some at_)
  \/ (t_reminder_count r = u32_max /\ exists e,
       record_reminder_in member id at_ outcome w = (Err e, mkWorld d' (ticks w))).
Proof.
  intros Hl Hb Hr Ha Hload draft d'. pose proof Hl as (Hsql & Hc & _).
  destruct (Hc _ _ Hr) as [Hc1 Hc2].
  set (body := record_reminder_in member id at_ outcome).
  assert (Hbody : body w = (found ← load_task_row (member_team member) id;
    row0 ← ok_or (mailbox_write "task disappeared after reminder write") found;
    mret (mkTaskReminderRecord row0 (event_typed draft (next_seq draft (task_events (db w)))
            (Some (row_state row)) (Some (row_state row)))) : M TaskReminderRecord)
    (mkWorld d' (ticks w))).
  { unfold body, record_reminder_in. run Hload. step.
    erewrite run_bind; [|eapply update_counters_run; [|done..]; intros r0; by split_and!].
    cbv beta. erewrite run_bind; [|apply append_event_run]. reflexivity. }
  rewrite Hbody. clear Hbody body.
  assert (Hlk : tasks d' !! (member_team member, id) = Some (reminded_row at_ r))
    by apply lookup_insert_eq.
  destruct (decide (t_reminder_count r < u32_max)) as [Hlt|Hge].
  - left. split; [done|].
    destruct (counted_ledger (tasks (db w)) _ r (reminded_row at_ r) Hl Hr) as [Hl' _];
      [by split_and!|simpl; lia|].
    assert (Hrd : readable (tasks d')).
    { apply ledger_readable; [done|]. unfold queues_bounded in *. simpl.
      by rewrite (size_insert_Some _ _ _ _ Hr). }
    destruct (decode_row_view _ _ _ Hrd Hlk) as (row' & Hdec & Hv).
    exists row'. split_and!; [|done| |].
    + erewrite run_bind; [|rewrite (load_task_row_decoded _ _ _ (mkWorld d' (ticks w)) Hlk), Hdec; reflexivity].
      reflexivity.
    + by destruct (decode_row_counts _ _ _ Hdec) as [-> _].
    + by destruct (decode_row_counts _ _ _ Hdec) as (_ & _ & ->).
  - right. split; [lia|]. destruct (decode_row_overflow (member_team member, id) (reminded_row at_ r))
      as [e He].
    { simpl. lia. }
    { intros p Hp. pose proof (ledger_position_bound _ _ _ p Hl Hr Hp).
      unfold queues_bounded in Hb. lia. }
    eexists. erewrite run_bind_err.
    2:{ rewrite (load_task_row_decoded _ _ _ (mkWorld d' (ticks w)) Hlk), He. reflexivity. }
    done.
Qed.
End Counters.

(** ** Queries *)

Lemma StronglySorted_elem_mono {A} (R S : relation A) (l : list A) :
  StronglySorted R l -> (forall x y, x ∈ l -> y ∈ l -> R x y -> S x y) -> StronglySorted S l.
Proof.
  induction 1 as [|x l Hs IH Hx]; intros Hm; constructor.
  - apply IH. intros y z Hy Hz. apply Hm; by right.
  - apply Forall_forall. intros y Hy. rewrite Forall_forall in Hx. apply Hm; [by left|by right|auto].
Qed.

Lemma collect_Ok {E A B} (f : A -> Outcome E B) (l : list A) :
  Forall (fun a => exists b, f a = Ok b) l ->
  exists bs, collect (f <$> l) = Ok bs /\ Forall2 (fun a b => f a = Ok b) l bs.
Proof.
  induction 1 as [|a l [b Hb] _ (bs & Hc & Hf)]; [by exists []|].
  exists (b :: bs). rewrite fmap_cons. cbn [collect]. rewrite Hb, Hc. split; [done|by constructor].
Qed.

(** One error is enough, when nothing panics. *)
Lemma collect_Err {E A B} (f : A -> Outcome E B) (l : list A) a e :
  (forall x, f x <> Panic) -> a ∈ l -> f a = Err e -> exists e', collect (f <$> l) = Err e'.
Proof.
  intros Hp Hin Ha. induction l as [|x l IH]; [by apply not_elem_of_nil in Hin|].
  rewrite fmap_cons. cbn [collect]. specialize (Hp x).
  destruct (f x) as [b|ex|] eqn:Hx; [|by exists ex|done].
  apply elem_of_cons in Hin as [->|Hin]; [congruence|].
  destruct (IH Hin) as [e' ->]. by exists e'.
Qed.

Lemma option_traverse_no_panic {E A B} (f : A -> Outcome E B) o :
  (forall x, f x <> Panic) -> option_traverse f o <> Panic.
Proof. intros Hf. destruct o as [a|]; [|done]. simpl. specialize (Hf a). by destruct (f a). Qed.

Lemma parse_table_no_panic {A} subject value (arms : list (string * A)) :
  parse_table subject value arms <> Panic.
Proof. unfold parse_table. by destruct (match_str value arms). Qed.

Lemma decode_event_no_panic e : decode_event_row e <> Panic.
Proof.
  assert (Hst : forall o s, decode_event_state o s <> Panic).
  { intros o s. unfold decode_event_state, parse_state, mbind, outcome_mbind, outcome_bind.
    destruct (parse_table _ _ _) as [t|x|] eqn:Ht; [|done|by apply parse_table_no_panic in Ht].
    set (co := (if bool_decide (s = "complete") then o else None)).
    destruct (option_traverse parse_close_outcome co) as [c|x|] eqn:Hc;
      [|done|by apply option_traverse_no_panic in Hc; [|intros; apply parse_table_no_panic]].
    by destruct t, c. }
  unfold decode_event_row, mbind, outcome_mbind, outcome_bind.
  destruct (parse_event _) eqn:He; [|done|by apply parse_table_no_panic in He].
  do 4 (match goal with |- context [option_traverse ?f ?o] => destruct (option_traverse f o) eqn:? end;
    [|done|by match goal with H : _ = Panic |- _ => apply option_traverse_no_panic in H;
                [|intros; first [apply Hst|apply parse_table_no_panic]] end]).
  done.
Qed.

Section QueryFacts.
Context {rt : Runtime}.

#[export] Instance open_le_trans : Transitive open_le.
Proof.
  intros a b c. unfold open_le. cbv zeta.
  intros [H1|[H1 H1']] [H2|[H2 H2']]; [left; lia|left; lia|left; lia|].
  right. split; [lia|].
  destruct H1' as [[L1 N1]|[-> L1]], H2' as [[L2 N2]|[E2 L2]].
  - left. split; [by etrans|]. intros E. rewrite E in L1. by apply N2, (anti_symm String.le).
  - left. by rewrite <- E2.
  - left. done.
  - right. split; [done|by etrans].
Qed.

#[export] Instance open_le_total : Total open_le.
Proof.
  intros a b. unfold open_le. cbv zeta.
  destruct (Z.lt_trichotomy (position_key a.2) (position_key b.2)) as [?|[?|?]]; [auto| |auto].
  destruct (decide (timestamp_to_string (t_assigned_at a.2) = timestamp_to_string (t_assigned_at b.2)))
    as [E|N].
  - destruct (total String.le a.1.2 b.1.2); [left|right]; right; (split; [done|]); right; done.
  - destruct (total String.le (timestamp_to_string (t_assigned_at a.2))
                (timestamp_to_string (t_assigned_at b.2))); [left|right]; right; (split; [done|]); left; done.
Qed.

(** The open tasks of a member come in queue order. *)
Lemma open_rows_by_age ts team agent :
  sql_ok ts ->
  merge_sort open_le (map_to_list (filter (fun kr => open_of team agent kr.1 kr.2) ts))
  = open_rows team agent ts.
Proof.
  intros [Ht Hn]. symmetry. set (l := map_to_list _).
  assert (Hmem : forall k r, (k, r) ∈ merge_sort open_le l <-> ts !! k = Some r /\ open_of team agent k r).
  { intros k r. rewrite (merge_sort_Permutation open_le). unfold l.
    by rewrite elem_of_map_to_list, map_lookup_filter_Some. }
  apply open_rows_unique; [| |done].
  - eapply StronglySorted_elem_mono; [apply (StronglySorted_merge_sort open_le _)|].
    intros [k1 r1] [k2 r2] [H1 Ho1]%Hmem [H2 Ho2]%Hmem Hle. unfold open_le in Hle. cbv zeta in Hle.
    destruct Hle as [Hlt|[Heq _]]; [by left|]. right. split; [done|].
    destruct (decide (k1 = k2)) as [->|Hne]; [done|]. exfalso.
    destruct (table_position _ _ _ Ht H1 (proj2 (proj2 Ho1))) as (p1 & Hp1 & _).
    destruct (table_position _ _ _ Ht H2 (proj2 (proj2 Ho2))) as (p2 & Hp2 & _).
    unfold position_key in Heq. simpl in Heq. rewrite Hp1, Hp2 in Heq. simpl in Heq. subst p2.
    destruct Ho1 as (T1 & A1 & S1), Ho2 as (T2 & A2 & S2). apply (Hn k1 r1 k2 r2 H1 H2).
    unfold position_clash. rewrite Hp1, Hp2. split_and!; try done; congruence.
  - rewrite (merge_sort_Permutation open_le). apply NoDup_map_to_list.
Qed.

Lemma decode_rows_view ts rows :
  readable ts -> (forall k r, (k, r) ∈ rows -> ts !! k = Some r) ->
  exists out, decode_rows rows = Ok out
    /\ Forall2 (fun kr row => row_view kr.1 kr.2 row) rows out.
Proof.
  intros Hrd Hin. unfold decode_rows.
  destruct (collect_Ok (fun kr : TaskKey * TaskSqlRow => decode_row kr.1 kr.2) rows) as (out & Hc & Hf).
  { apply Forall_forall. intros [k r] Hr. destruct (decode_row_view _ _ _ Hrd (Hin _ _ Hr)) as (row & Hd & _).
    by exists row. }
  exists out. split; [done|]. clear Hc. induction Hf as [|[k r] row rows out Hd Hf IH]; constructor.
  - destruct (decode_row_view _ _ _ Hrd (Hin k r ltac:(by left))) as (row' & Hd' & Hv).
    simpl in Hd. assert (row' = row) as -> by congruence. done.
  - apply IH. intros k' r' H. apply Hin. by right.
Qed.

(** ** Events *)

Definition seq_lt (a b : TaskEventSqlRow) : Prop := e_seq a < e_seq b.

Lemma merge_sort_events l : StronglySorted seq_lt l -> merge_sort seq_le l = l.
Proof.
  intros Hs.
  assert (Htr : Transitive seq_le) by (intros a b c; unfold seq_le; lia).
  assert (Hto : Total seq_le) by (intros a b; unfold seq_le; lia).
  assert (Hd : forall x y, x ∈ l -> y ∈ l -> e_seq x = e_seq y -> x = y).
  { clear Htr Hto. induction Hs as [|a l Hs IH Ha]; [by intros x y ?%not_elem_of_nil|].
    rewrite Forall_forall in Ha.
    intros x y [->|Hx]%elem_of_cons [->|Hy]%elem_of_cons He; [done|..|by apply IH].
    - specialize (Ha y Hy). unfold seq_lt in Ha. lia.
    - specialize (Ha x Hx). unfold seq_lt in Ha. lia. }
  apply (StronglySorted_unique_strong seq_le).
  - intros x y Hx Hy H1 H2. rewrite (merge_sort_Permutation seq_le) in Hx.
    unfold seq_le in H1, H2. apply Hd; [done..|lia].
  - apply (StronglySorted_merge_sort seq_le _).
  - eapply StronglySorted_elem_mono; [exact Hs|]. intros x y _ _. unfold seq_lt, seq_le. lia.
  - apply merge_sort_Permutation.
Qed.

Lemma events_sorted team id es :
  events_ok es -> StronglySorted seq_lt (filter (of_task team id) es).
Proof.
  intros [Hs _]. specialize (Hs team id). unfold task_seqs in Hs.
  apply StronglySorted_lookup. intros i j x y Hij Hi Hj. unfold seq_lt.
  assert (Hlk : forall n e, filter (of_task team id) es !! n = Some e -> e_seq e = Z.of_nat n + 1).
  { intros n e He. assert (Hm : (e_seq <$> filter (of_task team id) es) !! n = Some (e_seq e))
      by (by rewrite list_lookup_fmap, He).
    rewrite Hs, list_lookup_fmap in Hm. pose proof (lookup_lt_Some _ _ _ He) as Hlt.
    rewrite lookup_seq_lt in Hm by (by rewrite length_fmap). simpl in Hm. congruence. }
  rewrite (Hlk _ _ Hi), (Hlk _ _ Hj). lia.
Qed.

Lemma select_all_events d team id :
  select_task_events d team id None
  = collect (decode_event_row <$> merge_sort seq_le (filter (of_task team id) (task_events d))).
Proof.
  unfold select_task_events. do 3 f_equal. apply list_filter_iff. intros e. unfold of_task. naive_solver.
Qed.
End QueryFacts.

(** A decoded event keeps its number. *)
Lemma decode_event_seq e ev : decode_event_row e = Ok ev -> ev_seq ev = e_seq e.
Proof.
  unfold decode_event_row, mbind, outcome_mbind, outcome_bind.
  destruct (parse_event _); [|done..].
  do 4 (match goal with |- context [option_traverse ?f ?o] => destruct (option_traverse f o) end; [|done..]).
  by intros [= <-].
Qed.

(** One stored row that cannot be decoded makes every listing it belongs to fail. *)
Lemma undecodable_event_hides_log `{rt : Runtime} e x assignee w :
  e ∈ task_events (db w) -> decode_event_row e = Err x ->
  (assignee = None \/ assignee = Some (e_assignee e)) ->
  exists err, list_task_events (e_team e) (e_task_id e) assignee w = (Err err, w).
Proof.
  intros Hin Hbad Ha. unfold list_task_events, query. run run_get_db. unfold select_task_events.
  match goal with |- context [collect (_ <$> ?l)] => destruct (collect_Err decode_event_row l e x) as [e' ->] end;
    [apply decode_event_no_panic| |done|by eexists].
  rewrite merge_sort_Permutation. by apply list_elem_of_filter.
Qed.

(** ** Later states *)

(** One more write to the database of the tasks: a batch of the writer lane, or
    an operation of the task store. *)
Inductive store_step `{rt : Runtime} (w : World) : World -> Prop :=
| step_batch w' : lane_step (fun _ => True) w w' -> store_step w w'
| step_move team id actor target at_ origin :
    store_step w (move_task_with_origin team id actor target at_ origin w).2
| step_reminder member id at_ outcome : store_step w (record_reminder member id at_ outcome w).2
| step_reset member id at_ : store_step w (reset_reminders member id at_ w).2
| step_lead member id at_ lead message_id :
    store_step w (record_lead_notified member id at_ lead message_id w).2
| step_handoff handoff : store_step w (record_prompt_handoff handoff w).2
| step_add scope address at_ : store_step w (add_escalation_recipient scope address at_ w).2
| step_remove scope address : store_step w (remove_escalation_recipient scope address w).2.

Section LaterStates.
Context {rt : Runtime} (log : list TaskEventSqlRow).

Lemma keep_transaction (I : World -> Prop) `{!Frame I} {A} (c : M A) :
  preserves I c -> preserves I (with_transaction c).
Proof.
  intros Hc w Hw. unfold with_transaction. destruct (control_fault (ticks w)); [by apply frame_tick|].
  specialize (Hc (tick w) (frame_tick I w Hw)). destruct (c (tick w)) as [[a|e|] w1]; simpl in Hc.
  - destruct (control_fault (ticks w1)); [apply frame_rollback; [done|]|]; by apply frame_tick.
  - by apply frame_rollback.
  - by apply frame_rollback.
Qed.

Lemma store_step_log w w' : store_step w w' -> log_starts log w -> log_starts log w'.
Proof.
  destruct 1 as [w' Hl|team id actor target at_ origin|member id at_ outcome|member id at_
                |member id at_ lead message_id|handoff|scope address at_|scope address]; intros Hw.
  - eapply (lane_preserves (log_starts log)); [|by apply rtc_once|done]. intros op m _ _.
    apply log_starts_canonical.
  - assert (Hp : preserves (log_starts log) (process_queued_write (TaskMove team id actor target at_ origin))).
    { apply keep_queued_write, keep_execute; [apply _..|]. by intros m. }
    revert w Hw. change (preserves (log_starts log) (move_task_with_origin team id actor target at_ origin)).
    unfold move_task_with_origin. keep.
  - revert w Hw. apply (keep_transaction (log_starts log)). unfold record_reminder_in, append_event. keep.
  - revert w Hw. apply (keep_transaction (log_starts log)). unfold append_event. keep.
  - revert w Hw. apply (keep_transaction (log_starts log)). unfold append_event. keep.
  - revert w Hw. apply (keep_transaction (log_starts log)), preserves_get_db. intros w Hw. by destruct (head _).
  - revert w Hw. apply (keep_transaction (log_starts log)), preserves_get_db. intros w Hw.
    destruct (bool_decide _); [done|]. by destruct (bool_decide _).
  - done.
Qed.

Lemma store_steps_log w w' : rtc store_step w w' -> log_starts log w -> log_starts log w'.
Proof. induction 1 as [|w w1 w2 Hs _ IH]; [done|]. intros Hw. by eapply IH, store_step_log. Qed.
End LaterStates.

(** ** Recipients and handoffs *)

Lemma scope_count_insert d key address at_ key' :
  escalation_recipients d !! (key, address) = None ->
  scope_count (set_escalation_recipients (<[(key, address) := at_]> (escalation_recipients d)) d) key'
  = if decide (key = key') then scope_count d key' + 1 else scope_count d key'.
Proof.
  intros Hn. unfold scope_count. simpl. destruct (decide (key = key')) as [<-|Hne].
  - rewrite map_filter_insert_True by done. rewrite map_size_insert_None; [lia|].
    apply map_lookup_filter_None. by left.
  - rewrite map_filter_insert_False by done. rewrite delete_id by done. done.
Qed.

(** The query returns each stored address of the scope. *)
Lemma elem_of_scope_addresses d key s :
  s ∈ scope_addresses d key <-> is_Some (escalation_recipients d !! (key, s)).
Proof.
  unfold scope_addresses. rewrite merge_sort_Permutation, list_elem_of_fmap. split.
  - intros ([[k s'] at_] & -> & Hin). apply elem_of_map_to_list, map_lookup_filter_Some in Hin as [Hl Hk].
    simpl in *. subst. eauto.
  - intros [at_ Hl]. exists ((key, s), at_). split; [done|].
    apply elem_of_map_to_list, map_lookup_filter_Some. by split.
Qed.

(** The addresses a scope stands for. *)
Definition stored_recipient (d : Db) (scope : EscalationScope) (a : AgentAddress) : Prop :=
  exists s, is_Some (escalation_recipients d !! (scope_key scope, s)) /\ agent_address_from_str s = Ok a.

Definition recipients_of (d : Db) (scope : EscalationScope) : list AgentAddress :=
  omap decode_recipient (scope_addresses d (scope_key scope)).

Lemma elem_of_recipients d scope a : a ∈ recipients_of d scope <-> stored_recipient d scope a.
Proof.
  unfold recipients_of. rewrite list_elem_of_omap. unfold stored_recipient.
  setoid_rewrite elem_of_scope_addresses. split; intros (s & Hs & Ha); exists s; (split; [done|]).
  - unfold decode_recipient in Ha. destruct (agent_address_from_str s); naive_solver.
  - unfold decode_recipient. by rewrite Ha.
Qed.

Lemma stored_recipient_ok d scope a :
  address_ok a -> is_Some (escalation_recipients d !! (scope_key scope, agent_address_to_string a)) ->
  stored_recipient d scope a.
Proof. intros Ha Hs. exists (agent_address_to_string a). split; [done|]. by apply address_parse_print. Qed.

Lemma run_effective_recipients {rt : Runtime} team w :
  effective_escalation_recipients team w
  = (Ok (if bool_decide (recipients_of (db w) (Scope_Team team) = [])
         then recipients_of (db w) Scope_Daemon else recipients_of (db w) (Scope_Team team)), w).
Proof.
  unfold effective_escalation_recipients, recipients_of. erewrite run_bind by reflexivity.
  by destruct (bool_decide _).
Qed.

Lemma list_nil_elem {A} (l : list A) : (forall a, a ∉ l) -> l = [].
Proof. destruct l as [|a l]; [done|]. intros H. exfalso. apply (H a). by left. Qed.

Lemma head_filter_in {A} (P : A -> Prop) `{!forall x, Decision (P x)} l x :
  head (filter P l) = Some x -> P x /\ x ∈ l.
Proof.
  intros Hh. apply (list_elem_of_filter P l x). destruct (filter P l) as [|y l']; [done|].
  injection Hh as ->. by left.
Qed.

Lemma filter_same_handoff a b (l : list PromptHandoff) :
  same_handoff a b -> filter (same_handoff a) l = filter (same_handoff b) l.
Proof.
  intros (H1 & H2 & H3 & H4 & H5). apply list_filter_iff. intros h. unfold same_handoff.
  by rewrite H1, H2, H3, H4, H5.
Qed.

(** ** The refusal run *)

Lemma take_while_split {A} (test : A -> bool) (l : list A) :
  exists rest, l = take_while test l ++ rest
    /\ Forall (fun a => test a = true) (take_while test l)
    /\ forall a, head rest = Some a -> test a = false.
Proof.
  induction l as [|a l (rest & Hl & Hf & Hh)]; [by exists []|]. simpl. destruct (test a) eqn:Ht.
  - exists rest. split; [simpl; congruence|]. split; [by constructor|done].
  - exists (a :: l). split; [done|]. split; [constructor|]. by intros b [= <-].
Qed.
