(* ===== verification/HerdrTasks.v ===== *)
(** * The task half of the pump, and its tick

    Models the task pass of [HerdrQueueWakePump]
    ([crates/atm-http-runtime/src/herdr_queue_wake/task_pass.rs]): reminders of the
    head task of an idle member, the reset of its reminders, and the escalations of
    [herdr_queue_wake_escalation.rs] and [herdr_escalation.rs], with the terminal
    escalation of [crates/atm-core/src/write/pipeline_terminal_escalation.rs]; and
    [tick_once], which joins both halves.

    A mail of the daemon goes through the write pipeline, which is a port here:
    [write_mail] may change the database in any way and answers with the id of the
    message. *)

From S2P Require Import Prelude ErrorCodes Types Address TaskState Database Transaction.
From S2P Require Import Threading Selection Roster RosterMirror MemberMutation NudgeTemplate.
From S2P Require Import MailStore TaskCodec TaskQueue CronStore MailboxReader Admission MailboxRuntime.
From S2P Require Import PendingNudge Dispatch HerdrPolicy HerdrWake TaskStore.
From stdpp Require Import base gmap strings list numbers sorting pretty.
Local Open Scope Z_scope.
Local Open Scope string_scope.
Local Open Scope list_scope.

(** ** Ports *)

(** A mail the daemon writes; [dm_terminal] is the daemon escalation provenance. *)
Record DaemonMail : Set := mkDaemonMail {
  dm_team : TeamName;
  dm_recipient : AgentAddress;
  dm_body : string;
  dm_summary : string;
  dm_terminal : bool
}.

Class MailPort : Type := mkMailPort {
  write_mail : nat -> DaemonMail -> Db -> Outcome AtmError AtmMessageId * Db
}.

(** ** Escalation texts *)

Inductive EscalationKind : Set :=
| Escalation_TaskStalled | Escalation_Blocked | Escalation_Offline | Escalation_Refusals.

Definition escalation_kind_as_str (kind : EscalationKind) : string :=
  match kind with
  | Escalation_TaskStalled => "lead_notified"
  | Escalation_Blocked => "blocked_escalated"
  | Escalation_Offline => "offline_escalated"
  | Escalation_Refusals => "refusals_escalated"
  end.

Definition escalation_of_episode (kind : EpisodeKind) : EscalationKind :=
  match kind with Episode_Blocked => Escalation_Blocked | Episode_Offline => Escalation_Offline end.

Definition member_to_string (m : MemberKey) : string := member_agent m +:+ "@" +:+ member_team m.

Definition escalation_summary (kind : EscalationKind) (member : MemberKey) (task : option TaskId)
    : string :=
  "escalation:" +:+ escalation_kind_as_str kind +:+ ":" +:+ member_to_string member
  +:+ match task with Some task_id => ":" +:+ task_id | None => "" end.

Record EscalationOutcome : Set := mkEscalationOutcome {
  eo_audit_delivery : option (AgentName * AtmMessageId);
  eo_recipients_written : Z;
  eo_recipients_failed : Z
}.

Definition escalation_outcome_default : EscalationOutcome := mkEscalationOutcome None 0 0.

Definition reached_anyone (o : EscalationOutcome) : bool := Z.ltb 0 (eo_recipients_written o).

Definition record_escalation_write (recipient : AgentName) (id : AtmMessageId)
    (o : EscalationOutcome) : EscalationOutcome :=
  mkEscalationOutcome
    match eo_audit_delivery o with None => Some (recipient, id) | audit => audit end
    (u32_saturating_add (eo_recipients_written o) 1) (eo_recipients_failed o).

Definition record_escalation_failure (o : EscalationOutcome) : EscalationOutcome :=
  mkEscalationOutcome (eo_audit_delivery o) (eo_recipients_written o)
    (u32_saturating_add (eo_recipients_failed o) 1).

(** [format!("{lead}@{team}").parse()]: the address of a validated name. *)
Definition local_address (agent : AgentName) (team : TeamName) : AgentAddress :=
  mkAgentAddress agent None (Some team) None.

Definition roster_leads (members : list RosterMember) : list AgentName :=
  rm_agent_name <$> List.filter (fun m => bool_decide (rm_agent_type m = AgentType_Lead)) members.

Definition sole (leads : list AgentName) : list AgentName :=
  match leads with [lead] => [lead] | _ => [] end.

(** A message of the daemon with this summary, no older than the episode. *)
Definition reports (summary : string) (since : IsoTimestamp) (m : Message) : bool :=
  bool_decide (env_summary (msg_envelope m) = Some summary)
  && Z.leb since (env_timestamp (msg_envelope m)).

Definition daemon_query (scope : MemberKey) : MessageQuery :=
  mkMessageQuery (member_team scope) (member_agent scope) (Some DAEMON_ACTOR_NAME) None None.

Section Tasks.
Context {rt : Runtime} {crt : CronRuntime} {lane : ReaderLane} {dr : DispatchRuntime}
  {ports : HerdrPorts} {mp : MailPort}.

(** ** Reads *)

(** A query on the reader lane. *)
Definition read_lane {A} (q : Db -> Outcome AtmError A) : Pump (Outcome AtmError A) :=
  fun w =>
    let '(o, s) := on_store (submit (fun _ d => q d)) (catch_up (pw_shared w)) in
    (Ok o, with_shared s w).

Definition reading {A} (context : string) (o : Outcome RusqliteError A) : Outcome AtmError A :=
  match o with
  | Ok a => Ok a
  | Err e => Err (sqlite_error context e)
  | Panic => Panic
  end.

(** [ORDER BY assignee, position, assigned_at, task_id]. *)
Definition team_open_le (a b : TaskKey * TaskSqlRow) : Prop :=
  (String.le (t_assignee a.2) (t_assignee b.2) /\ t_assignee a.2 <> t_assignee b.2)
  \/ (t_assignee a.2 = t_assignee b.2 /\ open_le a b).

#[export] Instance team_open_le_dec a b : Decision (team_open_le a b).
Proof. unfold team_open_le. apply _. Defined.

Definition select_open_tasks_for_team (d : Db) (team : TeamName)
    : Outcome RusqliteError (list TaskRow) :=
  decode_rows (merge_sort team_open_le
    (map_to_list (filter (fun kr : TaskKey * TaskSqlRow =>
       kr.1.1 = team /\ t_state kr.2 <> "complete") (tasks d)))).

(** [open_tasks_by_member]: a team that cannot be read has no entries. *)
Fixpoint open_tasks_by_member (teams : list TeamName) : Pump (gmap MemberKey (list TaskRow)) :=
  match teams with
  | [] => mret ∅
  | team :: rest =>
    rows ← read_lane (fun d =>
      reading "failed to list open team tasks" (select_open_tasks_for_team d team));
    open ← open_tasks_by_member rest;
    mret match rows with
         | Ok rows =>
           foldr (fun row open =>
             let key := mkMemberKey team (row_assignee row) in
             <[key := row :: default [] (open !! key)]> open) open rows
         | _ => open
         end
  end.

(** [queue_drain_allowed]. *)
Definition queue_drain_allowed (open : gmap MemberKey (list TaskRow)) (member : MemberKey) : bool :=
  match open !! member with
  | Some (row :: _) => negb (escalation_due row)
  | _ => true
  end.

(** ** Escalation mail *)

(** One mail of the daemon, written through the bridge. *)
Definition send_daemon_mail (mail : DaemonMail) (s : Shared) : Outcome AtmError AtmMessageId * Shared :=
  let w := sh_world s in
  let '(o, d) := write_mail (ticks w) mail (db w) in
  (o, mkShared (mkWorld d (S (ticks w))) (sh_mirror s) (sh_overrides s)).

(** [load_escalation_targets]: the leads and the configured recipients. *)
Definition load_escalation_targets (team : TeamName)
    : Pump (Outcome AtmError (list AgentName * list AgentAddress)) :=
  members ← bridge (fun s => (Ok (Mirror.load_team_roster (sh_mirror s) team), s));
  match members with
  | Ok members =>
    recipients ← bridge (on_store (effective_escalation_recipients team));
    mret match recipients with
         | Ok recipients =>
           Ok (roster_leads members, take (Z.to_nat MAX_ESCALATION_RECIPIENTS) recipients)
         | Err e => Err e
         | Panic => Panic
         end
  | Err e => mret (Err e)
  | Panic => mret Panic
  end.

(** [should_suppress]: a mailbox of another host is never read. *)
Definition should_suppress (address : AgentAddress) (team : TeamName) (summary : string)
    (since : option IsoTimestamp) : Pump bool :=
  match since, addr_host address with
  | Some since, None =>
    let scope := mkMemberKey (default team (addr_team address)) (addr_agent address) in
    messages ← (fun w =>
      let '(o, s) := on_store (submit_list scope (daemon_query scope)) (catch_up (pw_shared w)) in
      (Ok o, with_shared s w));
    mret match messages with
         | Ok messages => existsb (reports summary since) messages
         | _ => false
         end
  | _, _ => mret false
  end.

(** Whether every recipient already holds the report; false without recipients. *)
Fixpoint all_suppressed (recipients : list AgentAddress) (team : TeamName) (summary : string)
    (since : option IsoTimestamp) : Pump bool :=
  match recipients with
  | [] => mret true
  | recipient :: rest =>
    suppressed ← should_suppress recipient team summary since;
    if suppressed : bool then all_suppressed rest team summary since else mret false
  end.

Definition terminal_recipients_are_suppressed (team : TeamName) (summary : string)
    (since : option IsoTimestamp) : Pump (Outcome AtmError bool) :=
  targets ← load_escalation_targets team;
  match targets with
  | Ok (leads, recipients) =>
    let all := ((fun lead => local_address lead team) <$> sole leads) ++ recipients in
    suppressed ← all_suppressed all team summary since;
    mret (Ok (suppressed && bool_decide (all <> [])))
  | Err e => mret (Err e)
  | Panic => mret Panic
  end.

(** The loop of [write_to_escalation_recipients]. *)
Fixpoint write_to_recipients (recipients : list AgentAddress) (team : TeamName)
    (summary body : string) (since : option IsoTimestamp) (outcome : EscalationOutcome)
    : Pump EscalationOutcome :=
  match recipients with
  | [] => mret outcome
  | recipient :: rest =>
    suppressed ← should_suppress recipient team summary since;
    if suppressed : bool then write_to_recipients rest team summary body since outcome
    else
      written ← bridge (send_daemon_mail (mkDaemonMail team recipient body summary false));
      write_to_recipients rest team summary body since
        match written with
        | Ok id => record_escalation_write (addr_agent recipient) id outcome
        | _ => record_escalation_failure outcome
        end
  end.

Definition write_to_escalation_recipients (kind : EscalationKind) (leads : list AgentName)
    (recipients : list AgentAddress) (team : TeamName) (summary body : string)
    (since : option IsoTimestamp) : Pump EscalationOutcome :=
  let leads := match kind with Escalation_TaskStalled => leads | _ => sole leads end in
  write_to_recipients (((fun lead => local_address lead team) <$> leads) ++ recipients)
    team summary body since escalation_outcome_default.

(** ** Terminal escalations *)

Definition terminal_episode (runtime : RosterRuntimeObservation)
    : Outcome AtmError (string * IsoTimestamp) :=
  match obs_state_changed_at runtime with
  | None => Err (validation "Herdr escalation admission requires a runtime episode epoch")
  | Some started_at =>
    match obs_state runtime with
    | State_Blocked => Ok ("blocked", started_at)
    | State_Offline => Ok ("offline", started_at)
    | _ => Err (validation "Herdr escalation admission requires blocked or offline runtime state")
    end
  end.

(** The configured recipients that are local members of the team, once each. *)
Fixpoint add_recipients (team : TeamName) (members : list RosterMember)
    (configured known : list AgentAddress) : list AgentAddress :=
  match configured with
  | [] => known
  | recipient :: rest =>
    add_recipients team members rest
      (if bool_decide (addr_host recipient = None)
          && match addr_team recipient with None => true | Some t => String.eqb t team end
          && existsb (fun m => String.eqb (rm_agent_name m) (addr_agent recipient)) members
          && negb (bool_decide (recipient ∈ known))
       then known ++ [recipient] else known)
  end.

Definition terminal_escalation_recipients (team : TeamName) (members : list RosterMember)
    : M (list AgentAddress) :=
  configured ← effective_escalation_recipients team;
  mret (add_recipients team members configured
          ((fun lead => local_address lead team) <$> sole (roster_leads members))).

Definition terminal_recipient_already_reported (team : TeamName) (recipient : AgentName)
    (summary : string) (started_at : IsoTimestamp) : M bool :=
  at_ ← now;
  d ← get_db;
  let scope := mkMemberKey team recipient in
  messages ← lift (list_messages at_ d scope (daemon_query scope));
  mret (existsb (reports summary started_at) messages).

(** [write_terminal_escalations], on the shared stores. *)
Fixpoint write_terminal_escalations (recipients : list AgentAddress) (team : TeamName)
    (body summary : string) (started_at : IsoTimestamp) (deliveries : list (AgentName * AtmMessageId))
    (failed : Z) (s : Shared)
    : Outcome AtmError (list (AgentName * AtmMessageId) * Z) * Shared :=
  match recipients with
  | [] => (Ok (deliveries, failed), s)
  | recipient :: rest =>
    let name := addr_agent recipient in
    match on_store (terminal_recipient_already_reported team name summary started_at) s with
    | (Ok true, s) => write_terminal_escalations rest team body summary started_at deliveries failed s
    | (Ok false, s) =>
      match send_daemon_mail (mkDaemonMail team recipient body summary true) s with
      | (Ok id, s) =>
        write_terminal_escalations rest team body summary started_at
          (deliveries ++ [(name, id)]) failed s
      | (_, s) =>
        write_terminal_escalations rest team body summary started_at deliveries
          (u32_saturating_add failed 1) s
      end
    | (Err e, s) => (Err e, s)
    | (Panic, s) => (Panic, s)
    end
  end.

Definition terminal_body (state_name : string) (member : MemberKey) (started_at : IsoTimestamp)
    (tasks : list TaskRow) : string :=
  state_name +:+ " member " +:+ member_agent member +:+ " has been in this state since "
  +:+ timestamp_to_string started_at +:+ newline +:+ "Open tasks: "
  +:+ Roster.join ", " (row_task_id <$> tasks) +:+ newline +:+ "Run: atm members --team "
  +:+ member_team member.

(** [write_current_herdr_terminal_escalation_with_runtime], under the admission
    guard of the source member. *)
Definition write_current_herdr_terminal_escalation (member : MemberKey) (s : Shared)
    : Outcome AtmError (list (AgentName * AtmMessageId) * Z) * Shared :=
  let team := member_team member in
  match Mirror.ephemeral_state (sh_mirror s) team (member_agent member) with
  | None => (Err (validation "Herdr escalation admission member is absent from the runtime roster"), s)
  | Some current =>
    match terminal_episode (eph_runtime current) with
    | Err e => (Err e, s)
    | Panic => (Panic, s)
    | Ok (state_name, started_at) =>
      match on_store (open_tasks member) s with
      | (Err e, s) => (Err e, s)
      | (Panic, s) => (Panic, s)
      | (Ok [], s) =>
        (Err (validation "Herdr escalation admission requires an authoritative open task"), s)
      | (Ok tasks, s) =>
        match on_store (terminal_escalation_recipients team
                          (Mirror.load_team_roster (sh_mirror s) team)) s with
        | (Err e, s) => (Err e, s)
        | (Panic, s) => (Panic, s)
        | (Ok recipients, s) =>
          write_terminal_escalations recipients team
            (terminal_body state_name member started_at tasks)
            ("escalation:" +:+ state_name +:+ "_escalated:" +:+ member_to_string member)
            started_at [] 0 s
        end
      end
    end
  end.

Definition write_terminal_episode (member : MemberKey) : Pump (Outcome AtmError EscalationOutcome) :=
  admitted ← bridge (write_current_herdr_terminal_escalation member);
  mret match admitted with
       | Ok (deliveries, failed) =>
         Ok (mkEscalationOutcome (head deliveries)
               (default u32_max (u32_try_from (Z.of_nat (length deliveries)))) failed)
       | Err e => Err e
       | Panic => Panic
       end.

(** [escalate_mail] of an episode, which has its own admission, and of the other
    kinds. *)
Definition escalate_episode_mail (member : MemberKey) (summary : string) (since : IsoTimestamp)
    : Pump (Outcome AtmError EscalationOutcome) :=
  suppressed ← terminal_recipients_are_suppressed (member_team member) summary (Some since);
  match suppressed with
  | Ok true => mret (Ok escalation_outcome_default)
  | Ok false => write_terminal_episode member
  | Err e => mret (Err e)
  | Panic => mret Panic
  end.

Definition escalate_mail (kind : EscalationKind) (team : TeamName) (summary body : string)
    (since : option IsoTimestamp) : Pump (Outcome AtmError EscalationOutcome) :=
  targets ← load_escalation_targets team;
  match targets with
  | Ok (leads, recipients) =>
    outcome ← write_to_escalation_recipients kind leads recipients team summary body since;
    mret (Ok outcome)
  | Err e => mret (Err e)
  | Panic => mret Panic
  end.

Definition add_stat (c : Counter) (n : Z) : Pump unit :=
  modify (fun w => with_stats (add_count c n (pw_stats w)) w).

Definition record_escalation_stats (o : EscalationOutcome) : Pump unit :=
  add_stat escalation_writes_failed (eo_recipients_failed o).

(** ** Stalled tasks *)

(** [current_stalled_task]: the task as it is now, if it is still the stalled one. *)
Definition current_stalled_task (row : TaskRow) : Pump (option TaskRow) :=
  found ← read_lane (fun d =>
    reading "failed to load task row" (select_task_row d (row_team row) (row_task_id row)));
  mret match found with
       | Ok (Some current) =>
         if bool_decide (row_state current = TaskState_Assigned)
            && bool_decide (row_assignee current = row_assignee row)
            && bool_decide (row_assignment_message_id current = row_assignment_message_id row)
            && escalation_due current
         then Some current else None
       | _ => None
       end.

Definition reminded (event : TaskEventRow) : bool :=
  bool_decide (ev_event event = TaskEventKind_Reminded).

Definition task_escalation_body (row : TaskRow) (now : IsoTimestamp) (events : list TaskEventRow)
    : string :=
  let first := match List.find reminded events with
               | Some event => ev_at event
               | None => row_assigned_at row
               end in
  let outcome := match List.find reminded (reverse events) ≫= ev_outcome with
                 | Some o => ReminderOutcome_as_str o
                 | None => "unknown"
                 end in
  "task " +:+ row_task_id row +:+ " assigned to " +:+ row_assignee row +:+ " by "
  +:+ row_assigner row +:+ " has been reminded " +:+ pretty (row_reminder_count row) +:+ " times"
  +:+ newline +:+ "(first " +:+ timestamp_to_string first +:+ ", last "
  +:+ timestamp_to_string (default now (row_last_reminded_at row)) +:+ ", last outcome "
  +:+ outcome +:+ ")." +:+ newline +:+ "Run: atm task events " +:+ row_task_id row.

Definition record_stall_audit (row : TaskRow) (now : IsoTimestamp) (lead : AgentName)
    (message_id : AtmMessageId) : Pump unit :=
  recorded ← bridge (on_store
    (record_lead_notified (mkMemberKey (row_team row) (row_assignee row)) (row_task_id row) now
       lead message_id));
  match recorded with
  | Ok _ => tally lead_notifications
  | _ => mret tt
  end.

(** [AtmMessageId::new]. *)
Definition fresh_message_id : Pump AtmMessageId := port (fun n => ulid_at n).

Definition escalate_stalled_task (row : TaskRow) (now : IsoTimestamp) : Pump unit :=
  events ← read_lane (fun d =>
    reading "failed to list async task events"
      (select_task_events d (row_team row) (row_task_id row) (Some (row_assignee row))));
  match events with
  | Ok events =>
    current ← current_stalled_task row;
    match current with
    | None => mret tt
    | Some current =>
      outcome ← escalate_mail Escalation_TaskStalled (row_team row)
        (escalation_summary Escalation_TaskStalled
           (mkMemberKey (row_team row) (row_assignee row)) (Some (row_task_id row)))
        (task_escalation_body current now events) None;
      match outcome with
      | Ok outcome =>
        _ ← record_escalation_stats outcome;
        match eo_audit_delivery outcome with
        | Some (actor, id) => record_stall_audit row now actor id
        | None =>
          id ← fresh_message_id;
          record_stall_audit row now DAEMON_ACTOR_NAME id
        end
      | _ => mret tt
      end
    end
  | _ => mret tt
  end.

(** ** Episodes and refusals *)

Definition episode_is_current (member : MemberKey) (kind : EpisodeKind) (since : IsoTimestamp)
    : Pump bool :=
  w ← get_pump;
  mret match Mirror.ephemeral_state (sh_mirror (pw_shared w)) (member_team member)
               (member_agent member) with
       | Some record =>
         observe_verify (obs_state (eph_runtime record)) (obs_state_changed_at (eph_runtime record))
           kind since
       | None => false
       end.

(** [task_store.load_task], without the bridge. *)
Definition load_task_now (team : TeamName) (task_id : TaskId) : Pump (Outcome AtmError (option TaskRow)) :=
  fun w => let '(o, s) := on_store (store_load_task team task_id) (pw_shared w) in
           (Ok o, with_shared s w).

Definition escalate_episode (member : MemberKey) (task_id : TaskId) (kind : EpisodeKind)
    (since : IsoTimestamp) : Pump unit :=
  current ← episode_is_current member kind since;
  if negb current then mret tt
  else
    loaded ← load_task_now (member_team member) task_id;
    match loaded with
    | Ok (Some task) =>
      if negb (is_open (row_state task)) || negb (String.eqb (row_assignee task) (member_agent member))
      then mret tt
      else
        outcome ← escalate_episode_mail member
          (escalation_summary (escalation_of_episode kind) member None) since;
        match outcome with
        | Ok outcome =>
          _ ← record_escalation_stats outcome;
          when (reached_anyone outcome) (tally blocked_escalations)
        | _ => modify (fun w => with_episodes (hold_targets_unavailable (pw_episodes w) member) w)
        end
    | _ => mret tt
    end.

Definition escalate_refusals (member : MemberKey) (since : IsoTimestamp) : Pump unit :=
  outcome ← escalate_mail Escalation_Refusals (member_team member)
    (escalation_summary Escalation_Refusals member None)
    ("member " +:+ member_agent member +:+ " has refused three consecutive task handoffs since "
     +:+ timestamp_to_string since +:+ newline +:+ "Run: atm list --task-events --member "
     +:+ member_agent member) (Some since);
  match outcome with
  | Ok outcome =>
    _ ← record_escalation_stats outcome;
    when (reached_anyone outcome) (tally blocked_escalations)
  | _ => mret tt
  end.

(** [refusal_check]: the length of the run, or nothing when it cannot be read. *)
Definition refusal_check (member : MemberKey) (source_task : option TaskRow) : Pump (option Z) :=
  run ← read_lane (fun d => Ok (trailing_refusal_run d (member_team member) (member_agent member)));
  match run with
  | Ok run =>
    _ ← match run_started_at run, source_task with
        | Some since, Some _ =>
          when (Z.leb TASK_CONSECUTIVE_REFUSAL_THRESHOLD (run_count run))
            (escalate_refusals member since)
        | _, _ => mret tt
        end;
    mret (Some (run_count run))
  | _ => mret None
  end.

(** ** Reminders *)

Definition record_task_outcome (member : MemberKey) (row : TaskRow) (now : IsoTimestamp)
    (outcome : ReminderOutcome) : Pump unit :=
  _ ← bridge (on_store (record_reminder member (row_task_id row) now outcome));
  match outcome with
  | ReminderOutcome_Emitted => _ ← tally prompted; tally task_reminders
  | ReminderOutcome_Unrenderable => tally task_reminders_unrenderable
  | ReminderOutcome_Blocked => mret tt
  end.

(** [record_prompt_handoff] of [prompt_handoff_record.rs]. *)
Definition record_handoff (dispatch : BuiltInPostSendDispatch) (trigger : PromptTrigger)
    (at_ : IsoTimestamp) : Pump unit :=
  let event := dispatch_event dispatch in
  match pse_task_transition event, pse_task_id event with
  | Some transition, Some task_id =>
    _ ← bridge (on_store (record_prompt_handoff
      {| handoff_team := pse_recipient_team event;
         handoff_agent := pse_recipient event;
         handoff_message_key := message_key_from (pse_message_id event);
         handoff_kind :=
           built_in_nudge_template_kind_from_post_send_event event (dispatch_kind dispatch);
         handoff_task_id := task_id;
         handoff_attempt := match transition with Transition_Reminder attempt => attempt | _ => 0 end;
         handoff_trigger := trigger;
         handoff_at := at_ |}));
    mret tt
  | _, _ => mret tt
  end.

Definition emit_task_reminder (member : MemberKey) (open : list TaskRow) (now : IsoTimestamp)
    : Pump unit :=
  w ← get_pump;
  match open with
  | [] => mret tt
  | row :: _ =>
    if Z.leb HERDR_MAX_PROMPTS_PER_TICK (count (pw_stats w) prompted) then mret tt
    else
      built ← bridge (fun s =>
        (build_task_reminder_dispatch (db (sh_world s)) (sh_mirror s) (sh_overrides s)
           (ticks (sh_world s)) member row (row_task_id <$> open), s));
      match built with
      | Ok None => mret tt
      | Ok (Some dispatch) =>
        idle ← still_idle member;
        if negb idle then mret tt
        else if select_emitter dispatch then
          emitted ← port (fun n => emit_received_message n dispatch);
          match emitted with
          | Ok _ =>
            _ ← modify (with_accepted dispatch);
            _ ← record_task_outcome member row now ReminderOutcome_Emitted;
            record_handoff dispatch PromptTrigger_TaskPass now
          | Err error =>
            if bool_decide (code error = HerdrUnavailable) then tally breaker_open
            else tally task_reminders_failed
          | Panic => st_panic
          end
        else mret tt
      | _ => record_task_outcome member row now ReminderOutcome_Unrenderable
      end
  end.

Definition reset_task_reminders (member : MemberKey) (row : TaskRow) (now : IsoTimestamp)
    : Pump unit :=
  _ ← bridge (on_store (reset_reminders member (row_task_id row) now));
  mret tt.

(** ** The pass over the members *)

Definition apply_task_disposition (open : list TaskRow) (candidate : MemberObservation)
    (now : IsoTimestamp) (disposition : TaskDisposition) : Pump unit :=
  let member := mo_member candidate in
  match disposition, open with
  | Disposition_EscalateEpisode kind, row :: _ =>
    escalate_episode member (row_task_id row) kind (default now (mo_state_changed_at candidate))
  | Disposition_EscalateEpisode _, [] => st_panic
  | Disposition_EscalateStalled, row :: _ => escalate_stalled_task row now
  | Disposition_Nudge, _ :: _ =>
    w ← get_pump;
    when (Z.ltb (count (pw_stats w) prompted) HERDR_MAX_PROMPTS_PER_TICK)
      (emit_task_reminder member open now)
  | Disposition_ResetReminders, row :: _ => reset_task_reminders member row now
  | _, _ => mret tt
  end.

Definition process_task_candidate (open : gmap MemberKey (list TaskRow)) (open_mail : gset MemberKey)
    (now : IsoTimestamp) (candidate : MemberObservation) : Pump unit :=
  let member := mo_member candidate in
  let member_open := default [] (open !! member) in
  let first := head member_open in
  let mail_pending := bool_decide (member ∈ open_mail) in
  let active_since := mo_state_changed_at candidate in
  w ← get_pump;
  let '(new_episode, episodes) :=
    observe_escalation_episode_if_eligible (pw_episodes w) member (mo_state candidate)
      (mo_state_changed_at candidate) (bool_decide (is_Some first)) in
  _ ← modify (with_episodes episodes);
  if negb (bool_decide (mo_state candidate = State_Idle)) || bool_decide (first = None)
  then apply_task_disposition member_open candidate now
         (dispose mail_pending (mo_state candidate) first now active_since new_episode 0)
  else
    refusals ← refusal_check member first;
    match refusals with
    | None => mret tt
    | Some refusal_count =>
      apply_task_disposition member_open candidate now
        (dispose mail_pending (mo_state candidate) first now active_since new_episode refusal_count)
    end.

Definition remind_open_tasks (open : gmap MemberKey (list TaskRow))
    (candidates : list MemberObservation) (open_mail : gset MemberKey) : Pump unit :=
  now ← clock;
  st_iter (process_task_candidate open open_mail now) candidates.

(** ** One tick *)

Definition stats_start (at_ : IsoTimestamp) : HerdrQueueWakeStats :=
  mkStats (fun _ => 0) false (Some at_).

(** [tick_once], with the task stores installed. *)
Definition tick_once : Pump unit :=
  at_ ← clock;
  _ ← modify (with_stats (stats_start at_));
  listed ← bridge (on_store list_pending_members);
  match listed with
  | Ok members =>
    _ ← add_stat pending_members (Z.of_nat (length members));
    let pending : gset MemberKey := list_to_set members in
    loaded ← bridge (fun s => (Ok (herdr_candidates (sh_mirror s) pending), s));
    match loaded with
    | Ok candidates =>
      _ ← prune_member_state candidates;
      '(eligible, task_candidates) ← list_eligible candidates;
      open ← open_tasks_by_member
        (remove_dups ((fun c => member_team (mo_member c)) <$> task_candidates));
      _ ← drain_eligible (List.filter (fun c => queue_drain_allowed open (hc_key c)) eligible);
      remind_open_tasks open task_candidates pending
    | _ => mret tt
    end
  | _ => mret tt
  end.
End Tasks.
