(* ===== verification/HerdrSpec.v ===== *)
(** * Steps of the pump that prompt nobody

    [Quiet]: a computation of the pump after which as many prompts are accepted and
    counted as before, and the cursor of the drain is where it was.  All of the pump
    is quiet but the two places that hand a prompt over; the hint database [quiet]
    proves it of a computation from its shape.  [Silent] is the same for the count of
    reported tasks. *)

From S2P Require Import Prelude ErrorCodes Types Address TaskState Database Transaction.
From S2P Require Import Threading Selection Roster RosterMirror MemberMutation NudgeTemplate.
From S2P Require Import MailStore TaskCodec TaskQueue CronStore MailboxReader Admission MailboxRuntime.
From S2P Require Import PendingNudge Dispatch HerdrPolicy HerdrWake TaskStore HerdrTasks.
From stdpp Require Import base gmap strings list numbers sorting.
Local Open Scope Z_scope.
Local Open Scope string_scope.
Local Open Scope list_scope.

Definition prompted_of (w : PumpWorld) : Z := count (pw_stats w) prompted.

(** The same prompts and the same cursor. *)
Definition same_prompts (w w' : PumpWorld) : Prop :=
  pw_accepted w' = pw_accepted w /\ prompted_of w' = prompted_of w /\ pw_cursor w' = pw_cursor w.

#[export] Instance same_prompts_preorder : PreOrder same_prompts.
Proof. split; [by intros w|]. intros w1 w2 w3 (A1 & B1 & C1) (A2 & B2 & C2). repeat split; congruence. Qed.

Definition Quiet {A} (c : Pump A) : Prop := forall w, same_prompts w (c w).2.

(** ** Composition *)

Lemma quiet_ret {A} (a : A) : Quiet (mret a).
Proof. by intros w. Qed.

Lemma quiet_panic {A} : Quiet (st_panic : Pump A).
Proof. by intros w. Qed.

Lemma quiet_bind {A B} (c : Pump A) (f : A -> Pump B) :
  Quiet c -> (forall a, Quiet (f a)) -> Quiet (c ≫= f).
Proof.
  intros Hc Hf w. specialize (Hc w). unfold mbind, Pump_bind, st_mbind, st_bind.
  destruct (c w) as [[a|e|] w1]; cbn in Hc; [|done..]. etrans; [exact Hc|apply Hf].
Qed.

Lemma quiet_get : Quiet get_pump.
Proof. by intros w. Qed.

Lemma quiet_when b c : Quiet c -> Quiet (when b c).
Proof. intros H. destruct b; [done|apply quiet_ret]. Qed.

(** A change of the fields that hold neither prompts nor the cursor. *)
Lemma quiet_modify f : (forall w, same_prompts w (f w)) -> Quiet (modify f).
Proof. by intros H w. Qed.

Lemma quiet_streaks f : Quiet (modify (with_streaks f)).
Proof. by apply quiet_modify. Qed.

Lemma quiet_absences a : Quiet (modify (with_absences a)).
Proof. by apply quiet_modify. Qed.

Lemma quiet_episodes e : Quiet (modify (with_episodes e)).
Proof. by apply quiet_modify. Qed.

Lemma quiet_tally c : c <> prompted -> Quiet (tally c).
Proof.
  intros H. apply quiet_modify. intros w. repeat split. unfold prompted_of. cbn.
  by rewrite bool_decide_false.
Qed.

Lemma quiet_add_stat c n : c <> prompted -> Quiet (add_stat c n).
Proof.
  intros H. apply quiet_modify. intros w. repeat split. unfold prompted_of. cbn.
  by rewrite bool_decide_false.
Qed.

Lemma quiet_on_mirror {A} (f : RosterRuntimeState -> A * RosterRuntimeState) : Quiet (on_mirror f).
Proof. intros w. unfold on_mirror. by destruct (f _). Qed.

Create HintDb quiet.
#[export] Hint Resolve quiet_ret quiet_panic quiet_get quiet_streaks quiet_absences quiet_episodes
  quiet_on_mirror : quiet.
#[export] Hint Resolve quiet_bind quiet_when : quiet.
#[export] Hint Extern 1 (Quiet (tally _)) => apply quiet_tally; discriminate : quiet.
#[export] Hint Extern 1 (Quiet (add_stat _ _)) => apply quiet_add_stat; discriminate : quiet.

(** [quiet]: by the shape of the computation. *)
Ltac quiet :=
  repeat match goal with
  | |- Quiet (_ ≫= _) => apply quiet_bind; [|intros ?]
  | |- Quiet (when _ _) => apply quiet_when
  | |- Quiet (match ?x with _ => _ end) => destruct x
  | |- Quiet (let _ := _ in _) => cbv zeta
  | |- Quiet _ => solve [auto 2 with quiet nocore]
  end.

Section Quiet.
Context {rt : Runtime} {crt : CronRuntime} {lane : ReaderLane} {dr : DispatchRuntime}
  {ports : HerdrPorts} {mp : MailPort}.

(** ** The stores *)

Lemma quiet_bridge {A} (job : Shared -> Outcome AtmError A * Shared) : Quiet (bridge job).
Proof. intros w. unfold bridge. destruct (bridge_fate _); [by destruct (job _)|done..]. Qed.

Lemma quiet_clock : Quiet clock.
Proof. by intros w. Qed.

Lemma quiet_port {A} (f : nat -> A) : Quiet (port f).
Proof. by intros w. Qed.

Lemma quiet_read_lane {A} (q : Db -> Outcome AtmError A) : Quiet (read_lane q).
Proof. intros w. unfold read_lane. by destruct (on_store _ _). Qed.

Lemma quiet_load_task team task_id : Quiet (load_task_now team task_id).
Proof. intros w. unfold load_task_now. by destruct (on_store _ _). Qed.
End Quiet.

#[export] Hint Resolve quiet_bridge quiet_clock quiet_port quiet_read_lane quiet_load_task : quiet.

Section QuietParts.
Context {rt : Runtime} {crt : CronRuntime} {lane : ReaderLane} {dr : DispatchRuntime}
  {ports : HerdrPorts} {mp : MailPort}.

(** ** Observations and candidates *)

Lemma quiet_apply_observations agents members observed_at :
  Quiet (apply_herdr_observations agents members observed_at).
Proof. unfold apply_herdr_observations. quiet. Qed.

Lemma quiet_collect_loop agents accepted members : Quiet (collect_loop agents accepted members).
Proof. induction members as [|m members IH]; cbn [collect_loop]; quiet; done. Qed.

Lemma quiet_poll_sessions candidates sessions : Quiet (poll_sessions candidates sessions).
Proof.
  induction sessions as [|session sessions IH]; cbn [poll_sessions]; [quiet|].
  unfold collect_idle_members, record_unavailable_members.
  quiet; auto using quiet_apply_observations, quiet_collect_loop.
Qed.

Lemma quiet_list_eligible candidates : Quiet (list_eligible candidates).
Proof. unfold list_eligible. quiet; auto using quiet_poll_sessions. Qed.

Lemma quiet_prune candidates : Quiet (prune_member_state candidates).
Proof. unfold prune_member_state. quiet. Qed.

(** ** Claims *)

Lemma quiet_release_action member : Quiet (claim_release_action member).
Proof. unfold claim_release_action. quiet. Qed.

Lemma quiet_release g : Quiet (release_without_input g).
Proof. unfold release_without_input. quiet; auto using quiet_release_action. Qed.

Lemma quiet_requeue g : Quiet (requeue g).
Proof. unfold requeue. quiet. Qed.

Lemma quiet_set_wake_pending member pending : Quiet (set_wake_pending member pending).
Proof. unfold set_wake_pending. quiet. Qed.

Lemma quiet_drop_guard g : Quiet (drop_guard g).
Proof. unfold drop_guard. quiet; auto using quiet_release, quiet_set_wake_pending. Qed.

Lemma quiet_still_idle member : Quiet (still_idle member).
Proof. unfold still_idle. quiet. Qed.

Lemma quiet_rebuild_dispatch member msg : Quiet (rebuild_dispatch member msg).
Proof. unfold rebuild_dispatch. quiet. Qed.

Lemma quiet_reserve member g : Quiet (reserve_terminal_handoff member g).
Proof. unfold reserve_terminal_handoff. quiet; auto using quiet_release. Qed.

Lemma quiet_reset_streak member : Quiet (reset_release_streak member).
Proof. unfold reset_release_streak. quiet. Qed.

(** ** Tasks *)

Lemma quiet_open_tasks teams : Quiet (open_tasks_by_member teams).
Proof. induction teams as [|team teams IH]; cbn [open_tasks_by_member]; quiet; done. Qed.

Lemma quiet_load_targets team : Quiet (load_escalation_targets team).
Proof. unfold load_escalation_targets. quiet. Qed.

Lemma quiet_should_suppress address team summary since :
  Quiet (should_suppress address team summary since).
Proof.
  unfold should_suppress. quiet. intros w. by destruct (on_store _ _).
Qed.

Lemma quiet_all_suppressed recipients team summary since :
  Quiet (all_suppressed recipients team summary since).
Proof.
  induction recipients as [|r recipients IH]; cbn [all_suppressed]; quiet;
    auto using quiet_should_suppress.
Qed.

Lemma quiet_terminal_suppressed team summary since :
  Quiet (terminal_recipients_are_suppressed team summary since).
Proof.
  unfold terminal_recipients_are_suppressed. quiet; auto using quiet_load_targets, quiet_all_suppressed.
Qed.

Lemma quiet_write_to_recipients recipients team summary body since outcome :
  Quiet (write_to_recipients recipients team summary body since outcome).
Proof.
  revert outcome. induction recipients as [|r recipients IH]; intros outcome;
    cbn [write_to_recipients]; quiet; auto using quiet_should_suppress.
Qed.

Lemma quiet_escalate_mail kind team summary body since :
  Quiet (escalate_mail kind team summary body since).
Proof.
  unfold escalate_mail, write_to_escalation_recipients.
  quiet; auto using quiet_load_targets, quiet_write_to_recipients.
Qed.

Lemma quiet_escalate_episode member task_id kind since :
  Quiet (escalate_episode member task_id kind since).
Proof.
  unfold escalate_episode, episode_is_current, escalate_episode_mail, write_terminal_episode,
    record_escalation_stats.
  quiet; auto using quiet_terminal_suppressed.
Qed.

Lemma quiet_escalate_stalled row now : Quiet (escalate_stalled_task row now).
Proof.
  unfold escalate_stalled_task, current_stalled_task, record_escalation_stats, record_stall_audit,
    fresh_message_id.
  quiet; auto using quiet_escalate_mail.
Qed.

Lemma quiet_refusal_check member source_task : Quiet (refusal_check member source_task).
Proof.
  unfold refusal_check, escalate_refusals, record_escalation_stats. quiet; auto using quiet_escalate_mail.
Qed.

Lemma quiet_record_handoff dispatch trigger at_ : Quiet (record_handoff dispatch trigger at_).
Proof. unfold record_handoff. quiet. Qed.

Lemma quiet_reset_reminders member row now : Quiet (reset_task_reminders member row now).
Proof. unfold reset_task_reminders. quiet. Qed.
End QuietParts.

(** ** Counting prompts *)

(** Since the prompts [before], at most [limit] more were accepted. *)
Definition at_most_more (limit : Z) (before : list BuiltInPostSendDispatch) (w : PumpWorld) : Prop :=
  exists more, pw_accepted w = before ++ more /\ Z.of_nat (length more) <= limit.

(** Of these, all but [uncounted] are counted. *)
Definition counted (limit uncounted : Z) (before : list BuiltInPostSendDispatch)
    (w : PumpWorld) : Prop :=
  exists more, pw_accepted w = before ++ more
    /\ Z.of_nat (length more) = prompted_of w + uncounted
    /\ Z.of_nat (length more) <= limit.

(** There is room for one more. *)
Definition with_room (limit : Z) (before : list BuiltInPostSendDispatch) (w : PumpWorld) : Prop :=
  counted limit 0 before w /\ prompted_of w < limit.

(** A computation that ends well ends in [Q]; however it ends, the bound holds. *)
Definition hoare {A} (limit : Z) (before : list BuiltInPostSendDispatch) (P : PumpWorld -> Prop)
    (c : Pump A) (Q : PumpWorld -> Prop) : Prop :=
  forall w, P w ->
    match c w with
    | (Ok _, w') => Q w'
    | (_, w') => at_most_more limit before w'
    end.

(** What a quiet computation keeps. *)
Definition stable (limit : Z) (before : list BuiltInPostSendDispatch) (P : PumpWorld -> Prop) : Prop :=
  (forall w w', same_prompts w w' -> P w -> P w') /\ forall w, P w -> at_most_more limit before w.

Lemma stable_counted limit n before : stable limit before (counted limit n before).
Proof.
  split.
  - intros w w' (A & B & _) (more & Hm & H). exists more. by rewrite A, B.
  - intros w (more & Hm & _ & H). by exists more.
Qed.

Lemma stable_with_room limit before : stable limit before (with_room limit before).
Proof.
  split.
  - intros w w' S [H Hr]. split; [by eapply stable_counted|]. destruct S as (_ & -> & _). done.
  - intros w [H _]. by eapply stable_counted.
Qed.

Section Hoare.
Context (limit : Z) (before : list BuiltInPostSendDispatch).

Lemma hoare_ret {A} P (a : A) : hoare limit before P (mret a) P.
Proof. by intros w. Qed.

Lemma hoare_bind {A B} P R Q (c : Pump A) (f : A -> Pump B) :
  hoare limit before P c R -> (forall a, hoare limit before R (f a) Q) -> hoare limit before P (c ≫= f) Q.
Proof.
  intros Hc Hf w Hw. specialize (Hc w Hw). unfold mbind, Pump_bind, st_mbind, st_bind.
  destruct (c w) as [[a|e|] w1]; [|done..]. by apply Hf.
Qed.

Lemma hoare_get {A} P Q (f : PumpWorld -> Pump A) :
  (forall w, P w -> hoare limit before (fun w' => w' = w) (f w) Q) -> hoare limit before P (get_pump ≫= f) Q.
Proof. intros H w Hw. by apply (H w Hw). Qed.

Lemma hoare_conseq {A} (P P' Q Q' : PumpWorld -> Prop) (c : Pump A) :
  hoare limit before P c Q -> (forall w, P' w -> P w) -> (forall w, Q w -> Q' w) -> hoare limit before P' c Q'.
Proof.
  intros H HP HQ w Hw. specialize (H w (HP _ Hw)). destruct (c w) as [[a|e|] w1]; [|done..]. by apply HQ.
Qed.

Lemma hoare_quiet {A} P (c : Pump A) : stable limit before P -> Quiet c -> hoare limit before P c P.
Proof.
  intros [Hs Hb] Hc w Hw. specialize (Hc w). destruct (c w) as [[a|e|] w1]; cbn in Hc;
    [|apply Hb|apply Hb]; by eapply Hs.
Qed.

(** The quiet steps before the one that matters. *)
Lemma hoare_skip {A B} P Q (c : Pump A) (f : A -> Pump B) :
  stable limit before P -> Quiet c -> (forall a, hoare limit before P (f a) Q) -> hoare limit before P (c ≫= f) Q.
Proof. intros Hs Hc Hf. eapply hoare_bind; [by apply hoare_quiet|done]. Qed.

Lemma hoare_room {A} (c : Pump A) : Quiet c -> hoare limit before (with_room limit before) c (counted limit 0 before).
Proof.
  intros H. eapply hoare_conseq; [apply hoare_quiet; [apply stable_with_room|done]|done|].
  by intros w [? _].
Qed.

(** A prompt is accepted, then counted. *)
Lemma hoare_accept dispatch :
  hoare limit before (with_room limit before) (modify (with_accepted dispatch)) (counted limit 1 before).
Proof.
  intros w [(more & Hm & Hl & _) Hr]. exists (more ++ [dispatch]). cbn. unfold prompted_of in *. cbn.
  rewrite Hm, <- app_assoc, length_app, Nat2Z.inj_add. split; [done|].
  change (Z.of_nat (length [dispatch])) with 1. lia.
Qed.

Lemma hoare_count : hoare limit before (counted limit 1 before) (tally prompted) (counted limit 0 before).
Proof.
  intros w (more & Hm & Hl & Hb). exists more. cbn. unfold prompted_of in *. cbn.
  rewrite bool_decide_true by done. split; [done|]. lia.
Qed.
End Hoare.

#[export] Hint Resolve stable_counted stable_with_room : quiet.

Section Prompts.
Context {rt : Runtime} {crt : CronRuntime} {lane : ReaderLane} {dr : DispatchRuntime}
  {ports : HerdrPorts} {mp : MailPort}.
Context (limit : Z) (before : list BuiltInPostSendDispatch).

(** [skip]: past quiet steps. *)
Local Ltac skip := eapply hoare_skip; [auto with quiet|solve [quiet; auto using
  quiet_reset_streak, quiet_set_wake_pending, quiet_rebuild_dispatch, quiet_still_idle, quiet_reserve,
  quiet_release, quiet_requeue, quiet_record_handoff]|intros ?].

Lemma hoare_complete_claim member g terminal :
  hoare limit before (counted limit 1 before) (complete_successful_claim member g terminal) (counted limit 0 before).
Proof.
  unfold complete_successful_claim. skip. cbv zeta. skip. skip.
  eapply hoare_bind; [apply hoare_count|intros _]. apply hoare_ret.
Qed.

Lemma hoare_emit_claim dispatch terminal member g :
  hoare limit before (with_room limit before) (emit_claim dispatch terminal member g) (counted limit 0 before).
Proof.
  unfold emit_claim. skip. destruct a as [reserved g']. destruct (negb reserved).
  { apply hoare_room. quiet. }
  skip. destruct a as [[]|error|].
  - eapply hoare_bind; [apply hoare_accept|intros _].
    eapply hoare_bind; [apply hoare_complete_claim|intros ?]. apply hoare_ret.
  - apply hoare_room. quiet; auto using quiet_requeue, quiet_release.
  - apply hoare_room. quiet.
Qed.

Lemma hoare_process_candidate m :
  hoare limit before (with_room limit before) (process_candidate m) (counted limit 0 before).
Proof.
  unfold process_candidate. skip. destruct a as [[claim|]|error|]; try solve [apply hoare_room; quiet].
  skip. cbv zeta. skip.
  apply hoare_bind with (R := counted limit 0 before);
    [|intros [handed g]; eapply hoare_skip; [auto with quiet| |intros _; apply hoare_ret]].
  - destruct a0 as [[[dispatch terminal]|]|error|];
      try solve [apply hoare_room; quiet; auto using quiet_release].
    skip. destruct (negb a0); [apply hoare_room; quiet; auto using quiet_release|].
    destruct (select_emitter dispatch); [apply hoare_emit_claim|].
    apply hoare_room; quiet; auto using quiet_release.
  - apply quiet_drop_guard.
Qed.

End Prompts.

Section Tick.
Context {rt : Runtime} {crt : CronRuntime} {lane : ReaderLane} {dr : DispatchRuntime}
  {ports : HerdrPorts} {mp : MailPort}.
Context (before : list BuiltInPostSendDispatch).
Local Abbreviation limit := HERDR_MAX_PROMPTS_PER_TICK.

Local Ltac skip := eapply hoare_skip; [auto with quiet|solve [quiet; auto using
  quiet_still_idle, quiet_record_handoff]|intros ?].

(** A computation that looks at the count first. *)
Lemma hoare_if_room {A} (f : PumpWorld -> Pump A) :
  (forall w, counted limit 0 before w -> HERDR_MAX_PROMPTS_PER_TICK <= prompted_of w -> Quiet (f w)) ->
  (forall w, prompted_of w < HERDR_MAX_PROMPTS_PER_TICK ->
     hoare limit before (with_room limit before) (f w) (counted limit 0 before)) ->
  hoare limit before (counted limit 0 before) (get_pump ≫= f) (counted limit 0 before).
Proof.
  intros Hfull Hroom. apply hoare_get. intros w Hw.
  destruct (Z.le_gt_cases HERDR_MAX_PROMPTS_PER_TICK (prompted_of w)) as [H|H].
  - eapply hoare_conseq; [apply hoare_quiet; [apply stable_counted|by apply Hfull]| |done].
    by intros w' ->.
  - eapply hoare_conseq; [by apply Hroom| |done]. by intros w' ->.
Qed.

Lemma hoare_drain_loop eligible offset remaining visited :
  hoare limit before (counted limit 0 before) (drain_loop eligible offset remaining visited) (counted limit 0 before).
Proof.
  revert offset visited. induction remaining as [|remaining IH]; intros offset visited;
    cbn [drain_loop]; [apply hoare_ret|]. apply hoare_if_room; intros w.
  - intros _ H. unfold prompted_of in H. apply Z.leb_le in H as ->. quiet.
  - intros H. unfold prompted_of in H. apply Z.leb_gt in H as ->.
    eapply hoare_bind; [|intros _; apply IH].
    destruct (eligible !! _); [apply hoare_process_candidate|apply hoare_room; quiet].
Qed.

(** Past the cursor, a quiet computation keeps the counts. *)
Lemma hoare_set_cursor cursor :
  hoare limit before (counted limit 0 before) (modify (with_cursor cursor)) (counted limit 0 before).
Proof. intros w (more & H). by exists more. Qed.

Lemma hoare_drain_eligible eligible :
  hoare limit before (counted limit 0 before) (drain_eligible eligible) (counted limit 0 before).
Proof.
  unfold drain_eligible. destruct eligible as [|m eligible]; [apply hoare_ret|].
  eapply hoare_skip; [auto with quiet|quiet|intros w; cbv zeta].
  eapply hoare_bind; [apply hoare_drain_loop|intros visited; apply hoare_set_cursor].
Qed.

Lemma hoare_emit_reminder member open now :
  hoare limit before (with_room limit before) (emit_task_reminder member open now) (counted limit 0 before).
Proof.
  unfold emit_task_reminder. skip. destruct open as [|row open]; [apply hoare_room; quiet|].
  destruct (Z.leb _ _); [apply hoare_room; quiet|]. skip.
  destruct a0 as [[dispatch|]|error|]; try solve [apply hoare_room; unfold record_task_outcome; quiet].
  skip. destruct (negb a0); [apply hoare_room; quiet|].
  destruct (select_emitter dispatch); [|apply hoare_room; quiet].
  skip. destruct a1 as [[]|error|]; [|apply hoare_room; quiet..].
  eapply hoare_bind; [apply hoare_accept|intros _].
  apply hoare_bind with (R := counted limit 0 before).
  - unfold record_task_outcome. skip. eapply hoare_bind; [apply hoare_count|intros _].
    apply hoare_quiet; [auto with quiet|quiet].
  - intros _. apply hoare_quiet; [auto with quiet|apply quiet_record_handoff].
Qed.

Lemma hoare_apply_disposition open candidate now disposition :
  hoare limit before (counted limit 0 before) (apply_task_disposition open candidate now disposition)
    (counted limit 0 before).
Proof.
  unfold apply_task_disposition. destruct disposition, open as [|row open];
    try solve [apply hoare_quiet; [auto with quiet|
      quiet; auto using quiet_escalate_episode, quiet_escalate_stalled, quiet_reset_reminders]].
  apply hoare_if_room; intros w.
  - intros _ H. unfold prompted_of in H. apply Z.ltb_ge in H as ->. cbn [when]. quiet.
  - intros H. unfold prompted_of in H. apply Z.ltb_lt in H as ->. cbn [when]. apply hoare_emit_reminder.
Qed.

Lemma hoare_process_task open open_mail now candidate :
  hoare limit before (counted limit 0 before) (process_task_candidate open open_mail now candidate)
    (counted limit 0 before).
Proof.
  unfold process_task_candidate. cbv zeta. skip.
  destruct (observe_escalation_episode_if_eligible _ _ _ _ _) as [new_episode episodes]. skip.
  destruct (_ || _); [apply hoare_apply_disposition|].
  eapply hoare_skip; [auto with quiet|apply quiet_refusal_check|intros refusals].
  destruct refusals; [apply hoare_apply_disposition|apply hoare_ret].
Qed.

Lemma hoare_iter {A} (f : A -> Pump unit) l :
  (forall a, hoare limit before (counted limit 0 before) (f a) (counted limit 0 before)) ->
  hoare limit before (counted limit 0 before) (st_iter f l) (counted limit 0 before).
Proof.
  intros H. induction l as [|a l IH]; [apply hoare_ret|]. eapply hoare_bind; [apply H|by intros _].
Qed.
End Tick.

(** ** Reports of stalled tasks *)

(** The reports of stalled tasks the pump has counted. *)
Definition reports_of (w : PumpWorld) : Z := count (pw_stats w) lead_notifications.

Definition Silent {A} (c : Pump A) : Prop := forall w, reports_of (c w).2 = reports_of w.

Lemma silent_bind {A B} (c : Pump A) (f : A -> Pump B) :
  Silent c -> (forall a, Silent (f a)) -> Silent (c ≫= f).
Proof.
  intros Hc Hf w. specialize (Hc w). unfold mbind, Pump_bind, st_mbind, st_bind.
  destruct (c w) as [[a|e|] w1]; cbn in Hc; [|done..]. rewrite <- Hc. apply Hf.
Qed.

Lemma silent_ret {A} (a : A) : Silent (mret a).
Proof. by intros w. Qed.

Lemma silent_panic {A} : Silent (st_panic : Pump A).
Proof. by intros w. Qed.

Lemma silent_get : Silent get_pump.
Proof. by intros w. Qed.

Lemma silent_when b c : Silent c -> Silent (when b c).
Proof. intros H. destruct b; [done|apply silent_ret]. Qed.

Lemma silent_modify f : (forall w, pw_stats (f w) = pw_stats w) -> Silent (modify f).
Proof. intros H w. unfold reports_of. cbn. by rewrite H. Qed.

Lemma silent_add_stat c n : c <> lead_notifications -> Silent (add_stat c n).
Proof. intros H w. unfold reports_of. cbn. by rewrite bool_decide_false. Qed.

Lemma silent_tally c : c <> lead_notifications -> Silent (tally c).
Proof. apply silent_add_stat. Qed.

Lemma silent_accepted dispatch : Silent (modify (with_accepted dispatch)).
Proof. by apply silent_modify. Qed.

Lemma silent_episodes episodes : Silent (modify (with_episodes episodes)).
Proof. by apply silent_modify. Qed.

Create HintDb silent.
#[export] Hint Resolve silent_ret silent_panic silent_get silent_accepted silent_episodes : silent.
#[export] Hint Extern 1 (Silent (tally _)) => apply silent_tally; discriminate : silent.
#[export] Hint Extern 1 (Silent (add_stat _ _)) => apply silent_add_stat; discriminate : silent.
#[export] Hint Extern 1 (Silent (modify _)) => by apply silent_modify : silent.

(** [silent]: by the shape of the computation. *)
Ltac silent :=
  repeat match goal with
  | |- Silent (_ ≫= _) => apply silent_bind; [|intros ?]
  | |- Silent (when _ _) => apply silent_when
  | |- Silent (match ?x with _ => _ end) => destruct x
  | |- Silent (let _ := _ in _) => cbv zeta
  | |- Silent _ => solve [auto 2 with silent nocore]
  end.

Section SilentParts.
Context {rt : Runtime} {crt : CronRuntime} {lane : ReaderLane} {dr : DispatchRuntime}
  {ports : HerdrPorts} {mp : MailPort}.

Lemma silent_bridge {A} (job : Shared -> Outcome AtmError A * Shared) : Silent (bridge job).
Proof. intros w. unfold bridge. destruct (bridge_fate _); [by destruct (job _)|done..]. Qed.

Lemma silent_port {A} (f : nat -> A) : Silent (port f).
Proof. by intros w. Qed.

Lemma silent_read_lane {A} (q : Db -> Outcome AtmError A) : Silent (read_lane q).
Proof. intros w. unfold read_lane. by destruct (on_store _ _). Qed.

Lemma silent_load_task team task_id : Silent (load_task_now team task_id).
Proof. intros w. unfold load_task_now. by destruct (on_store _ _). Qed.
Hint Resolve silent_bridge silent_port silent_read_lane silent_load_task : silent.

Lemma silent_should_suppress address team summary since :
  Silent (should_suppress address team summary since).
Proof. unfold should_suppress. silent. intros w. by destruct (on_store _ _). Qed.
Hint Resolve silent_should_suppress : silent.

Lemma silent_all_suppressed recipients team summary since :
  Silent (all_suppressed recipients team summary since).
Proof. induction recipients; cbn [all_suppressed]; silent. Qed.

Lemma silent_write_to_recipients recipients team summary body since outcome :
  Silent (write_to_recipients recipients team summary body since outcome).
Proof.
  revert outcome. induction recipients as [|r recipients IH]; intros outcome;
    cbn [write_to_recipients]; silent; apply IH.
Qed.
Hint Resolve silent_all_suppressed silent_write_to_recipients : silent.

Lemma silent_escalate_mail kind team summary body since :
  Silent (escalate_mail kind team summary body since).
Proof. unfold escalate_mail, load_escalation_targets, write_to_escalation_recipients. silent. Qed.
Hint Resolve silent_escalate_mail : silent.

Lemma silent_escalate_episode member task_id kind since :
  Silent (escalate_episode member task_id kind since).
Proof.
  unfold escalate_episode, episode_is_current, escalate_episode_mail, write_terminal_episode,
    record_escalation_stats, terminal_recipients_are_suppressed, load_escalation_targets. silent.
Qed.

Lemma silent_refusal_check member source_task : Silent (refusal_check member source_task).
Proof. unfold refusal_check, escalate_refusals, record_escalation_stats. silent. Qed.

Lemma silent_emit_reminder member open now : Silent (emit_task_reminder member open now).
Proof. unfold emit_task_reminder, still_idle, record_task_outcome, record_handoff. silent. Qed.

Lemma silent_reset_reminders member row now : Silent (reset_task_reminders member row now).
Proof. unfold reset_task_reminders. silent. Qed.

(** The audit of one report counts one at most. *)
Lemma stall_audit_counts row now lead message_id w :
  reports_of (record_stall_audit row now lead message_id w).2 = reports_of w
  \/ reports_of (record_stall_audit row now lead message_id w).2 = reports_of w + 1.
Proof.
  unfold record_stall_audit. set (job := on_store _). pose proof (silent_bridge job w) as Hb.
  unfold mbind, Pump_bind, st_mbind, st_bind. destruct (bridge job w) as [[o|e|] w1]; [|by left..].
  cbn in Hb. rewrite <- Hb. destruct o as [ev|e|]; [|by left..]. right. unfold reports_of. cbn.
  by rewrite bool_decide_true.
Qed.

(** A computation that counts one report at most, after a silent one. *)
Lemma counts_after_silent {A} (c : Pump A) (f : A -> Pump unit) w :
  Silent c ->
  (forall a w, reports_of (f a w).2 = reports_of w \/ reports_of (f a w).2 = reports_of w + 1) ->
  reports_of ((c ≫= f) w).2 = reports_of w \/ reports_of ((c ≫= f) w).2 = reports_of w + 1.
Proof.
  intros Hc Hf. specialize (Hc w). unfold mbind, Pump_bind, st_mbind, st_bind.
  destruct (c w) as [[a|e|] w1]; cbn in Hc; [rewrite <- Hc; apply Hf|by left..].
Qed.

Lemma escalate_stalled_counts row now w :
  reports_of (escalate_stalled_task row now w).2 = reports_of w
  \/ reports_of (escalate_stalled_task row now w).2 = reports_of w + 1.
Proof.
  unfold escalate_stalled_task. apply counts_after_silent; [silent|]. intros events w1.
  destruct events as [events|e|]; [|by left..].
  apply counts_after_silent; [unfold current_stalled_task; silent|]. intros [current|] w2; [|by left].
  apply counts_after_silent; [silent|]. intros [outcome|e|] w3; [|by left..].
  apply counts_after_silent; [unfold record_escalation_stats; silent|]. intros _ w4.
  destruct (eo_audit_delivery outcome) as [[actor id]|]; [apply stall_audit_counts|].
  apply counts_after_silent; [unfold fresh_message_id; silent|]. intros id w5. apply stall_audit_counts.
Qed.
End SilentParts.
