(* ===== verification/Demo.v ===== *)
(** * A concrete store

    A runtime and a short history of one team, on which the theorems are
    evaluated: [alice] assigns tasks to [bob] and [carol], [bob] starts one. *)

From S2P Require Import Prelude ErrorCodes Types TaskState CronTypes Database TaskCodec TaskQueue QueueFacts.
From S2P Require Import LedgerInv EventLog MailStore MailSpec TaskOps Admission Writer WriterInv WriterSpec.
From S2P Require Import TaskStartSpec.
From stdpp Require Import base gmap strings list numbers sorting pretty countable.
From Stdlib Require Import Ascii.
Local Open Scope Z_scope.
Local Open Scope string_scope.
Local Open Scope list_scope.

(** ** A text for every countable value *)

Fixpoint pos_text (p : positive) : string :=
  match p with
  | xH => ""
  | xO p => String "0"%char (pos_text p)
  | xI p => String "1"%char (pos_text p)
  end.

Fixpoint text_pos (s : string) : positive :=
  match s with
  | "" => xH
  | String "0"%char s => xO (text_pos s)
  | String _ s => xI (text_pos s)
  end.

Lemma text_pos_text p : text_pos (pos_text p) = p.
Proof. induction p as [p IH|p IH|]; simpl; congruence. Qed.

Definition to_text `{Countable A} (a : A) : string := pos_text (encode a).
Definition from_text `{Countable A} (s : string) : string + A :=
  match decode (text_pos s) with
  | Some a => inr a
  | None => inl "invalid text"
  end.

Lemma from_to_text `{Countable A} (a : A) : from_text (to_text a) = inr a.
Proof. unfold from_text, to_text. by rewrite text_pos_text, decode_encode. Qed.

(** Clock readings are their index, ULIDs count from 1000, rows are visited in
    reverse key order, and the roster text ["two"] reads as a limit of 2. *)
#[export] Instance demo_rt : Runtime :=
  {| now_at n := Z.of_nat n;
     ulid_at n := (1000 + N.of_nat n mod (2 ^ 128 - 1000))%N;
     ulid_datetime id := Z.of_N id;
     ulid_to_string id := to_text id;
     json_from_str s :=
       if bool_decide (s = "two")
       then Some (Value_Object [("max_tasks", Value_Number (PosInt 2))])
       else if bool_decide (s = "bad") then Some (Value_Object [("max_tasks", Value_Bool true)])
       else Some (Value_Object []);
     envelope_json_len _ := 200;
     envelope_from_clashing _ := None;
     number_to_string _ := "0";
     timestamp_to_string t := pretty t;
     sqlite_display _ := "constraint failed";
     database_path := "atm.db";
     scan keys := rev keys;
     control_fault n := if bool_decide (n = 900%nat) then Some (SqliteFailure DiskFull) else None |}.

Lemma demo_ulid n : (1000 <= ulid_at n)%N.
Proof. apply N.le_add_r. Qed.

#[export] Instance demo_rt_ok : RuntimeOk demo_rt.
Proof. constructor. intros keys. symmetry. apply Permutation_rev. Qed.

(** Schedule 7 runs generation 3, started by [alice] and stopped by its hook. *)
Definition demo_cron : CronTables :=
  mkCronTables
    {[ 7 := mkCronSqlRow 3 "alpha" "bk" "nightly" "0 0 3 * * *" "/hooks/nightly.py" "/work" "[]"
              30000 5 "{}" 1 None 1 "alice" "1" None None None ]} 7 ∅ ∅.

(** A member with the given metadata text. *)
Definition demo_member (metadata : string) : RosterSqlRow :=
  mkRosterSqlRow "permanent" "claude-code" "worker" "" metadata None None 0.

Definition empty_db (roster : gmap (TeamName * AgentName) string) (cron : CronTables) : Db :=
  mkDb ∅ [] [] ∅ ∅ ∅ ∅ ∅ (demo_member <$> roster) cron.

(** A message of [alpha] from [from] to [to] with message id [n]. *)
Definition mail (from to : AgentName) (n : N) (task : option TaskId)
    (placement : option MoveTarget) (op : option TaskOp) (ack : option IsoTimestamp) : Message :=
  {| msg_team := "alpha";
     msg_agent := to;
     msg_message_key := "atm:" +:+ pretty n;
     msg_envelope :=
       {| env_from := from;
          env_source_chat_id := None;
          env_text := "work on it";
          env_timestamp := 50;
          env_read := false;
          env_source_team := None;
          env_destination_chat_id := None;
          env_summary := None;
          env_message_id := Some n;
          env_requires_ack := bool_decide (is_Some ack);
          env_pending_ack_at := ack;
          env_acknowledged_at := None;
          env_acknowledges_message_id := None;
          env_parent_message_id := None;
          env_thread_mode := None;
          env_expires_at := None;
          env_task_id := task;
          env_placement := placement;
          env_task_op := op;
          env_task_complete := None;
          env_extra := [] |} |}.

Definition send (m : Message) : WriteOp := UpsertMessage m Origin_Local.

Definition assign (to : AgentName) (n : N) (id : TaskId) : Message :=
  mail "alice" to n (Some id) None None (Some 60).
Definition start (from : AgentName) (n : N) (id : TaskId) : Message :=
  mail from "alice" n (Some id) None (Some TaskOp_Start) None.
Definition close (from to : AgentName) (n : N) (id : TaskId) : Message :=
  mail from to n (Some id) None
    (Some (TaskOp_Close TaskCloseOutcome_Completed (Some "done"))) None.

(** [bob] may have two active tasks; schedule 7 runs generation 3. *)
Definition world0 : World :=
  mkWorld (empty_db {[ ("alpha", "bob") := "two"; ("alpha", "dan") := "bad" ]} demo_cron) 0.

Definition history : list WriteOp :=
  [send (assign "bob" 1 "T1"); send (assign "bob" 2 "T2"); send (assign "bob" 3 "T3");
   send (assign "carol" 4 "T4"); send (start "bob" 5 "T1")].

(** The store a batch leaves. *)
Definition after (batch : list WriteOp) (w : World) : World := (process_batch None batch None w).2.

Lemma after_run batch w :
  store_inv (db w) -> room (total_weight batch) (db w) ->
  exists replies, process_batch None batch None w = (Ok replies, after batch w).
Proof.
  intros Hi Hr. destruct (process_batch_run None batch None w Hi Hr) as (rs & w' & Hrun & _).
  unfold after. rewrite Hrun. eauto.
Qed.

Lemma after_reachable batch w :
  reachable w -> room (total_weight batch) (db w) -> reachable (after batch w).
Proof.
  intros Hw Hr. destruct (after_run batch w (reachable_inv _ Hw) Hr) as [replies Hrun].
  exact (reachable_batch w None batch None replies _ Hw Hr Hrun).
Qed.

(** The store after the history: [bob]'s queue is [T1] (active), [T2], [T3]. *)
Definition demo : World := after history world0.

Lemma world0_reachable : reachable world0.
Proof. constructor. by split_and!. Qed.

Lemma demo_reachable : reachable demo.
Proof. apply after_reachable; [apply world0_reachable|]. vm_compute. reflexivity. Qed.

Lemma demo_inv : store_inv (db demo).
Proof. apply reachable_inv, demo_reachable. Qed.

Lemma demo_room n : Z.of_nat n <= 1000 -> room n (db demo).
Proof.
  intros Hn. unfold room. assert (size (tasks (db demo)) = 4%nat) as -> by (vm_compute; reflexivity).
  unfold u32_max. lia.
Qed.

Lemma demo_bounded : queues_bounded (tasks (db demo)).
Proof. apply (room_bounded 0), demo_room. lia. Qed.

Example demo_queue : (queue_order "alpha" "bob" demo).1 = Ok ["T1"; "T2"; "T3"].
Proof. vm_compute. reflexivity. Qed.

(** ** Reading off a concrete store *)

#[export] Instance state_at_dec ts team s id : Decision (state_at ts team s id).
Proof.
  refine (match ts !! (team, id) as o return ts !! (team, id) = o -> Decision (state_at ts team s id) with
          | Some r => fun H => cast_if (decide (t_state r = s))
          | None => fun H => right _
          end eq_refl).
  - by exists r.
  - intros (r' & Hr & Hs). congruence.
  - intros (r' & Hr & Hs). congruence.
Defined.

#[export] Instance split_queue_dec ts team qa qw : Decision (split_queue ts team qa qw).
Proof. unfold split_queue. apply _. Defined.

(** The queue a well-formed store reads is the member's queue. *)
Lemma known_queue w team agent qa qw :
  store_inv (db w) -> (queue_order team agent w).1 = Ok (qa ++ qw) ->
  bool_decide (split_queue (tasks (db w)) team qa qw) = true ->
  member_queue (tasks (db w)) team agent qa qw.
Proof.
  intros Hi Ho Hs%bool_decide_eq_true_1. destruct (inv_ledger _ Hi) as (_ & _ & Hall).
  destruct (Hall team agent) as (qa' & qw' & Hm). destruct Hm as [Hq Hs'].
  rewrite (queue_order_run team agent _ w Hq) in Ho. simpl in Ho. injection Ho as Heq.
  rewrite Heq in Hq. by split.
Qed.

Lemma demo_ledger : ledger_ok (tasks (db demo)).
Proof. apply inv_ledger, demo_inv. Qed.

Lemma demo_bob : member_queue (tasks (db demo)) "alpha" "bob" ["T1"] ["T2"; "T3"].
Proof. apply known_queue; [apply demo_inv|vm_compute; reflexivity..]. Qed.

Lemma demo_carol : member_queue (tasks (db demo)) "alpha" "carol" [] ["T4"].
Proof. apply known_queue; [apply demo_inv|vm_compute; reflexivity..]. Qed.

(** The row of a task, for a store known to hold it. *)
Definition row_at (w : World) (id : TaskId) : TaskSqlRow :=
  default (mkTaskSqlRow "" "" "" None None 0 "" 0 0 None 0 0) (tasks (db w) !! ("alpha", id)).

Lemma row_at_found w id :
  bool_decide (is_Some (tasks (db w) !! ("alpha", id))) = true ->
  tasks (db w) !! ("alpha", id) = Some (row_at w id).
Proof. intros [r Hr]%bool_decide_eq_true_1. unfold row_at. by rewrite Hr. Qed.

(** The event of [bob] starting [T2]. *)
Definition demo_draft : TaskEventDraft :=
  started_draft (start "bob" 9 "T2") "T2" "bob".

(** Two admissions share a savepoint, a refused one is replayed, then a move. *)
Definition demo_batch : list WriteOp :=
  [send (assign "carol" 20 "T7"); send (start "carol" 21 "T1");
   TaskMove "alpha" "T3" "alice" MoveTarget_Head 80 Origin_Local; send (start "bob" 22 "T3")].

(** [bob] acknowledges the assignment of [T2] with a reply to [alice]. *)
Definition demo_source : AcknowledgementSource := mkAcknowledgementSource "alpha" "bob" 2.
Definition demo_reply (m : Message) : Outcome AtmError Message :=
  Ok (mail "bob" "alice" 30 None None None None).

Definition bob : MemberKey := mkMemberKey "alpha" "bob".

(** The key of the message an acknowledgement settled. *)
Definition acked_key (p : Outcome AtmError WriteOpResult * World) : option MailKey :=
  match p.1 with Ok (Acknowledged commit) => Some (msg_key (ack_source commit)) | _ => None end.

(** [demo] after [bob] acknowledged the assignment of [T2]. *)
Definition acked_demo : World := (execute (Acknowledge demo_source demo_reply Origin_Local) demo).2.

(** A read of the acknowledged message, a move and a new task for [bob]. *)
Definition between_acks : list WriteOp :=
  [ApplyReadDisplayState bob ["atm:2"] None Origin_Local;
   TaskMove "alpha" "T3" "alice" MoveTarget_Head 80 Origin_Local; send (assign "bob" 40 "T9")].

(** Whether an operation returned normally. *)
Definition succeeds {A} (p : Outcome AtmError A * World) : bool :=
  match p.1 with Ok _ => true | _ => false end.

(** The store after [bob] also reports [T1] as completed. *)
Definition closed_demo : World := after [send (close "bob" "alice" 6 "T1")] demo.

Lemma closed_demo_reachable : reachable closed_demo.
Proof. apply after_reachable; [apply demo_reachable|]. apply demo_room. vm_compute. discriminate. Qed.

Lemma closed_demo_inv : store_inv (db closed_demo).
Proof. apply reachable_inv, closed_demo_reachable. Qed.

Lemma closed_demo_bounded : queues_bounded (tasks (db closed_demo)).
Proof. apply (room_bounded 0). vm_compute. reflexivity. Qed.

(** The stores are evaluated by [vm_compute] only. *)
#[global] Opaque demo closed_demo.
