(* ===== verification/NudgeProps.v ===== *)
(** * Properties of nudge templates and pending nudges *)

From S2P Require Import Prelude ErrorCodes Types Address TaskState CronTypes Database Transaction.
From S2P Require Import Threading Selection Roster MemberMutation NudgeTemplate CronStore.
From S2P Require Import MailboxReader Admission PendingNudge Demo.
From Equations Require Import Equations.
From stdpp Require Import base gmap strings numbers sorting list.
From Stdlib Require Import Ascii.

(** ** Texts with doubled delimiters *)

(** No two delimiters in a row, and none at the end. *)
Fixpoint undoubled (c : ascii) (s : string) : bool :=
  match s with
  | "" => true
  | String a s' =>
    negb (Ascii.eqb a c && match s' with "" => true | String b _ => Ascii.eqb b c end)
    && undoubled c s'
  end.

Definition doubled (c : ascii) : string := String c (String c "").

Lemma prefix_doubled c s :
  String.prefix (doubled c) s = true <-> exists rest, s = String c (String c rest).
Proof.
  unfold doubled. split.
  - destruct s as [|a [|b rest]]; cbn; [done| |].
    + by destruct (ascii_dec c a).
    + destruct (ascii_dec c a) as [<-|]; [|done]. destruct (ascii_dec c b) as [<-|]; [|done]. eauto.
  - intros [rest ->]. cbn. destruct (ascii_dec c c); [|done]. by destruct rest.
Qed.

Lemma substring_from_two c d s n :
  (n = String.length s)%nat -> String.substring 2 n (String c (String d s)) = s.
Proof. intros ->. cbn [String.substring]. apply substring_all. Qed.

Lemma split_doubled_here c rest : split_once (doubled c) (String c (String c rest)) = Some ("", rest).
Proof.
  cbn [split_once]. rewrite (proj2 (prefix_doubled _ _)) by eauto.
  change (String.length (doubled c)) with 2%nat. rewrite substring_from_two; [done|]. cbn. lia.
Qed.

Lemma split_doubled_step c a rest :
  String.prefix (doubled c) (String a rest) = false ->
  split_once (doubled c) (String a rest)
  = '(before, after) ← split_once (doubled c) rest; Some (String a before, after).
Proof.
  intros E. cbn [split_once]. rewrite E. by destruct (split_once (doubled c) rest) as [[]|].
Qed.

(** [find] of a doubled delimiter: the text before it has none. *)
Lemma split_doubled_intro c before after :
  undoubled c before = true ->
  split_once (doubled c) (before +:+ String c (String c after)) = Some (before, after).
Proof.
  induction before as [|a before IH]; intros U; [apply split_doubled_here|].
  cbn in U. apply andb_true_iff in U as [Ua U].
  change (String a before +:+ String c (String c after))
    with (String a (before +:+ String c (String c after))).
  rewrite split_doubled_step; [by rewrite IH|].
  destruct (String.prefix _ _) eqn:E; [|done]. exfalso.
  apply prefix_doubled in E as [rest E]. destruct before as [|b before]; simplify_eq/=.
  - by rewrite Ascii.eqb_refl in Ua.
  - by rewrite !Ascii.eqb_refl in Ua.
Qed.

Lemma split_open before after :
  undoubled "{" before = true -> split_once "{{" (before +:+ "{{" +:+ after) = Some (before, after).
Proof. apply (split_doubled_intro "{"). Qed.

Lemma split_close before after :
  undoubled "}" before = true -> split_once "}}" (before +:+ "}}" +:+ after) = Some (before, after).
Proof. apply (split_doubled_intro "}"). Qed.

Lemma split_doubled_inv c s before after :
  split_once (doubled c) s = Some (before, after) ->
  s = before +:+ String c (String c after) /\ undoubled c before = true.
Proof.
  revert before. induction s as [|a s IH]; intros before; [done|].
  destruct (String.prefix (doubled c) (String a s)) eqn:E.
  - apply prefix_doubled in E as [rest [= -> ->]]. rewrite split_doubled_here. by intros [= <- <-].
  - rewrite split_doubled_step by done.
    destruct (split_once (doubled c) s) as [[before' after']|] eqn:Es; [|done].
    cbn [mbind option_bind]. intros [= <- <-]. destruct (IH _ eq_refl) as [-> U]. split; [done|].
    cbn [undoubled]. rewrite U, andb_true_r. apply negb_true_iff, andb_false_iff.
    destruct (Ascii.eqb_spec a c) as [->|]; [right|by left].
    apply not_true_iff_false in E. rewrite prefix_doubled in E.
    destruct before' as [|b before']; [destruct E; by eexists|].
    destruct (Ascii.eqb_spec b c) as [->|]; [|done]. destruct E. by eexists.
Qed.

(** ** What a template says *)

(** One unfolding of the loop. *)
Lemma render_loop_unfold values rest :
  render_loop values rest
  = match split_once "{{" rest with
    | None => Ok rest
    | Some (before, after_start) =>
      match split_once "}}" after_start with
      | None => Err (validation "unterminated built-in nudge placeholder")
      | Some (name, rest') =>
        match object_get (trim name) values with
        | None => Err (validation ("unsupported built-in nudge placeholder `{{" +:+ trim name
                                   +:+ "}}`"))
        | Some value => output ← render_loop values rest'; Ok (before +:+ value +:+ output)
        end
      end
    end.
Proof.
  simp render_loop. destruct (inspect (split_once "{{" rest)) as [[[before after]|] E].
  - cbn [render_loop_unfold_clause_1].
    destruct (inspect (split_once "}}" after)) as [[[name rest']|] E'];
      cbn [render_loop_unfold_clause_1_clause_2]; by rewrite E, E'.
  - cbn [render_loop_unfold_clause_1]. by rewrite E.
Qed.

(** A piece of a template: a literal text and the name in the braces after it. *)
Definition template_text (pieces : list (string * string)) (tail : string) : string :=
  foldr (fun p rest => p.1 +:+ "{{" +:+ p.2 +:+ "}}" +:+ rest) tail pieces.

(** The braces of a piece are the first ones. *)
Definition piece_ok (p : string * string) : Prop :=
  undoubled "{" p.1 = true /\ undoubled "}" p.2 = true.

Definition named_values (values : list (string * string)) (pieces : list (string * string))
    : option (list string) :=
  mapM (fun p : string * string => object_get (trim p.2) values) pieces.

(** The template with its names replaced. *)
Definition filled (pieces : list (string * string)) (texts : list string) (tail : string) : string :=
  foldr (fun pt rest => pt.1.1 +:+ pt.2 +:+ rest) tail (zip pieces texts).

Lemma render_pieces values pieces texts tail :
  Forall piece_ok pieces -> split_once "{{" tail = None ->
  named_values values pieces = Some texts ->
  render_loop values (template_text pieces tail) = Ok (filled pieces texts tail).
Proof.
  intros Hp Ht. revert texts. induction Hp as [|[lit name] pieces [Hl Hn] Hp IH]; intros texts Hv.
  - injection Hv as <-. rewrite render_loop_unfold. cbn [template_text foldr]. by rewrite Ht.
  - unfold named_values in Hv. cbn [mapM] in Hv.
    apply bind_Some in Hv as (value & Ev & Hv). apply bind_Some in Hv as (rest & Er & [= <-]).
    cbn [snd] in Ev.
    rewrite render_loop_unfold. cbn [template_text foldr fst snd].
    rewrite split_open, split_close by done. rewrite Ev. fold (template_text pieces tail). by rewrite (IH _ Er).
Qed.

Lemma render_pieces_inv values n rest text :
  (String.length rest <= n)%nat -> render_loop values rest = Ok text ->
  exists pieces texts tail,
    rest = template_text pieces tail /\ Forall piece_ok pieces /\ split_once "{{" tail = None
    /\ named_values values pieces = Some texts /\ text = filled pieces texts tail.
Proof.
  revert rest text. induction n as [n IH] using lt_wf_ind. intros rest text Hn H.
  rewrite render_loop_unfold in H.
  destruct (split_once "{{" rest) as [[before after]|] eqn:E;
    [|injection H as <-; by exists [], [], rest].
  destruct (split_once "}}" after) as [[name rest']|] eqn:E'; [|done].
  destruct (object_get (trim name) values) as [value|] eqn:Ev; [|done].
  destruct (render_loop values rest') as [out| |] eqn:Er; try done. injection H as <-.
  pose proof (after_shorter "{{" _ _ _ ltac:(done) E). pose proof (after_shorter "}}" _ _ _ ltac:(done) E').
  destruct (IH (String.length rest') ltac:(lia) rest' out ltac:(lia) Er)
    as (pieces & texts & tail & -> & Hp & Ht & Hv & ->).
  apply (split_doubled_inv "{") in E as [-> Hb]. apply (split_doubled_inv "}") in E' as [-> Hm].
  exists ((before, name) :: pieces), (value :: texts), tail. split_and!; [done|by constructor|done| |done].
  unfold named_values in *. cbn [mapM snd]. rewrite Ev. cbn [mbind option_bind]. by rewrite Hv.
Qed.

(** Whatever a template is, rendering it ends in a text or in a validation error. *)
Lemma render_loop_total values n rest :
  (String.length rest <= n)%nat ->
  (exists text, render_loop values rest = Ok text)
  \/ exists message, render_loop values rest = Err (validation message).
Proof.
  revert rest. induction n as [n IH] using lt_wf_ind. intros rest Hn. rewrite render_loop_unfold.
  destruct (split_once "{{" rest) as [[before after]|] eqn:E; [|eauto].
  destruct (split_once "}}" after) as [[name rest']|] eqn:E'; [|eauto].
  destruct (object_get (trim name) values) as [value|]; [|eauto].
  pose proof (after_shorter "{{" _ _ _ ltac:(done) E). pose proof (after_shorter "}}" _ _ _ ltac:(done) E').
  destruct (IH (String.length rest') ltac:(lia) rest' ltac:(lia)) as [[text ->]|[message ->]]; eauto.
Qed.

(** C18: A template renders exactly when it holds no Jinja block and reads as literal texts
    with names in double braces, all of them (trimmed) names of values; the text is then the
    template with each name replaced by its value, which is not rendered again. Any other
    template is refused as invalid: rendering always ends, and never panics. *)
Theorem nudge_rendering_exact (template : string) (values : list (string * string)) :
  (forall text,
     render_template template values = Ok text
     <-> contains_text "{%" template = false /\ contains_text "%}" template = false
         /\ exists pieces texts tail,
              template = template_text pieces tail /\ Forall piece_ok pieces
              /\ contains_text "{{" tail = false /\ named_values values pieces = Some texts
              /\ text = filled pieces texts tail)
  /\ ((exists text, render_template template values = Ok text)
      \/ exists message, render_template template values = Err (validation message)).
Proof.
  unfold render_template. split.
  - intros text. destruct (contains_text "{%" template); [split; [done|by intros [? _]]|].
    destruct (contains_text "%}" template); [split; [done|by intros (_ & ? & _)]|]. cbn [orb]. split.
    + intros (pieces & texts & tail & E & Hp & Ht & Hv & ->)%(render_pieces_inv _ _ _ _ (Nat.le_refl _)).
      split; [done|]. split; [done|]. exists pieces, texts, tail. unfold contains_text.
      by rewrite Ht.
    + intros (_ & _ & pieces & texts & tail & -> & Hp & Ht & Hv & ->).
      apply render_pieces; [done| |done]. unfold contains_text in Ht.
      destruct (split_once "{{" tail); [|done]. by rewrite bool_decide_true in Ht.
  - destruct (_ || _); [eauto|]. exact (render_loop_total _ _ _ (Nat.le_refl _)).
Qed.

(** ** Overrides *)

Lemma object_get_keys {A B} key (l : list (string * A)) (l' : list (string * B)) :
  l.*1 = l'.*1 -> is_Some (object_get key l) -> is_Some (object_get key l').
Proof.
  revert l'. induction l as [|[k v] l IH]; intros [|[k' v'] l'] E; try done; [by intros []|].
  injection (E : k :: l.*1 = k' :: l'.*1) as -> E'.
  cbn [object_get]. destruct (String.eqb key k'); [done|]. by apply (IH _ E').
Qed.

(** Whether a template renders depends on the names of the values alone. *)
Lemma render_same_names template values values' text :
  values.*1 = values'.*1 -> render_template template values = Ok text ->
  exists text', render_template template values' = Ok text'.
Proof.
  unfold render_template. intros E. destruct (_ || _); [done|].
  intros (pieces & texts & tail & -> & Hp & Ht & Hv & _)%(render_pieces_inv _ _ _ _ (Nat.le_refl _)).
  enough (exists texts', named_values values' pieces = Some texts') as [texts' Hv'].
  { exists (filled pieces texts' tail). by apply render_pieces. }
  unfold named_values in *. clear Hp. revert texts Hv. induction pieces as [|p pieces IH]; intros texts Hv.
  - by exists [].
  - cbn [mapM] in Hv |- *. apply bind_Some in Hv as (v & Ev & Hv). apply bind_Some in Hv as (vs & Es & _).
    destruct (object_get_keys (trim p.2) values values' E (mk_is_Some _ _ Ev)) as [v' ->].
    destruct (IH _ Es) as [vs' Es']. cbn [mbind option_bind]. rewrite Es'. by eexists.
Qed.

Lemma kind_text_inj kind kind' :
  BuiltInNudgeTemplateKind_as_str kind = BuiltInNudgeTemplateKind_as_str kind' -> kind = kind'.
Proof. by destruct kind, kind'. Qed.

Lemma kind_of_text kind : parse_built_in_template_kind (BuiltInNudgeTemplateKind_as_str kind) = Ok kind.
Proof. by destruct kind. Qed.

Section Overrides.
Context {rt : Runtime}.

Lemma render_values_names event open_tasks :
  (render_values event open_tasks).*1
  = ["from"; "team"; "message_id"; "description"; "task_id"; "open_tasks"; "position"; "attempt";
     "assignee"; "outcome"; "by"].
Proof. unfold render_values. by destruct (pse_task_transition event) as [[]|]. Qed.

Lemma validated_body_renders body event open_tasks :
  validate_built_in_nudge_template_body body = Ok tt ->
  exists text, render_built_in_nudge event body open_tasks = Ok text.
Proof.
  unfold validate_built_in_nudge_template_body, render_built_in_nudge.
  destruct (render_template body _) as [text| |] eqn:E; try done. intros _.
  eapply render_same_names, E. by rewrite render_values_names.
Qed.

Lemma validated_cron_body_renders body name event :
  validate_cron_nudge_template_body body = Ok tt ->
  exists text, render_cron_lifecycle_nudge (mkResolvedTemplate Kind_Cron (Some body)) name event
               = Ok (Some text).
Proof.
  unfold validate_cron_nudge_template_body, render_cron_lifecycle_nudge. cbn.
  destruct (render_template body (cron_values "" "" "")) as [text| |] eqn:E; try done. intros _.
  destruct (lifecycle_detail event) as [what detail].
  destruct (render_same_names _ (cron_values "" "" "") (cron_values (escape_xml_attribute name) what detail) _ eq_refl E)
    as [text' ->]. by exists text'.
Qed.

(** The guards of the command, and what it stores. *)
Lemma set_override_inv table at_ caller team kind body row table' :
  set_nudge_template_override_with_store table at_ caller team kind body = Ok (row, table') ->
  caller = team /\ trim body <> ""
  /\ (if bool_decide (kind = Kind_Cron) then validate_cron_nudge_template_body body
      else validate_built_in_nudge_template_body body) = Ok tt
  /\ row = mkOverrideRow team kind (Mode_Override body) at_
  /\ table' = <[(team, BuiltInNudgeTemplateKind_as_str kind) :=
                  mkOverrideSqlRow "override" body at_]> table.
Proof.
  unfold set_nudge_template_override_with_store, validate_nudge_template_override_team,
    validate_nudge_template_body, save_template_override.
  destruct (String.eqb_spec caller team) as [->|]; [|done].
  destruct (String.eqb_spec (trim body) ""); [done|]. cbn [mbind outcome_bind].
  destruct (if bool_decide _ then _ else _) as [[]| |]; try done. by intros [= <- <-].
Qed.

Lemma load_override_other (table table' : OverrideTable) team kind team' kind' row :
  (team', kind') <> (team, kind) ->
  table' = <[(team, BuiltInNudgeTemplateKind_as_str kind) := row]> table ->
  load_template_override table' team' kind' = load_template_override table team' kind'.
Proof.
  intros Hne ->. unfold load_template_override. rewrite lookup_insert_ne; [done|].
  intros [= -> E%kind_text_inj]. by subst.
Qed.

Lemma parse_overrides_elem team rows overrides row :
  parse_overrides team rows = Ok overrides ->
  row ∈ overrides <-> exists key r kind mode, (key, r) ∈ rows
    /\ parse_built_in_template_kind key.2 = Ok kind
    /\ normalize_loaded_override_mode (o_mode r) (o_template_body r) = Ok mode
    /\ row = mkOverrideRow team kind mode (o_updated_at r).
Proof.
  revert overrides. induction rows as [|[key r] rows IH]; intros overrides.
  { intros [= <-]. split; [by intros ?%elem_of_nil|]. by intros (? & ? & ? & ? & ?%elem_of_nil & _). }
  cbn [parse_overrides]. destruct (parse_built_in_template_kind key.2) as [kind| |] eqn:Ek.
  1:{ destruct (normalize_loaded_override_mode _ _) as [mode| |] eqn:Em; [|done..].
      cbn [mbind outcome_mbind outcome_bind]. destruct (parse_overrides team rows) as [rest| |]; [|done..].
      intros [= <-]. rewrite elem_of_cons, (IH rest eq_refl). split.
      - intros [->|(k & r' & kd & md & Hin & H)]; [|by exists k, r', kd, md; split; [right|]].
        exists key, r, kind, mode. split; [by left|done].
      - intros (k & r' & kd & md & [[= -> ->]|Hin]%elem_of_cons & Hk & Hm & ->); [left; congruence|].
        right. by exists k, r', kd, md. }
  all: intros Hr; rewrite (IH _ Hr); split.
  all: intros (k & r' & kd & md & Hin & Hk & H); exists k, r', kd, md; split; [|done].
  all: try by right.
  all: by apply elem_of_cons in Hin as [[= -> ->]|Hin]; [rewrite Ek in Hk|].
Qed.

Lemma team_overrides_elem (table : OverrideTable) team key r :
  (key, r) ∈ team_overrides table team <-> key.1 = team /\ table !! key = Some r.
Proof.
  unfold team_overrides. rewrite elem_of_sort_by, list_elem_of_In, filter_In, <- list_elem_of_In,
    elem_of_map_to_list. cbn [fst]. rewrite String.eqb_eq. tauto.
Qed.

(** The list of a team's overrides and the lookup of one kind agree. *)
Lemma listed_loads table team rows kind row :
  list_template_overrides table team = Ok rows ->
  load_template_override table team kind = Ok (Some row) -> row ∈ rows.
Proof.
  intros Hl H. apply (parse_overrides_elem _ _ _ _ Hl). unfold load_template_override in H.
  destruct (table !! (team, BuiltInNudgeTemplateKind_as_str kind)) as [r|] eqn:E; [|done].
  destruct (normalize_loaded_override_mode _ _) as [mode| |] eqn:Em; [|done..]. injection H as <-.
  exists (team, BuiltInNudgeTemplateKind_as_str kind), r, kind, mode.
  split; [by apply team_overrides_elem|]. split; [apply kind_of_text|done].
Qed.

(** C26: An override that the command accepts is loaded back as it was stored, and its body can
    be rendered for every event (a cron override: for every notice), so that a stored override
    never keeps a nudge from being sent. The list of the team's overrides shows it. It takes effect for its own team and kind only; and
    where a team has no override, the default template of every kind can always be rendered
    too, for every event, and that of cron notices for every notice. *)
Theorem stored_override_renders table at_ caller team kind body row table' :
  set_nudge_template_override_with_store table at_ caller team kind body = Ok (row, table') ->
  caller = team
  /\ load_template_override table' team kind = Ok (Some row) /\ template_body row = Some body
  /\ (forall rows, list_template_overrides table' team = Ok rows -> row ∈ rows)
  /\ (kind <> Kind_Cron -> forall event open_tasks,
        exists text, render_built_in_nudge event body open_tasks = Ok text)
  /\ (kind = Kind_Cron -> forall name event,
        exists text, render_cron_lifecycle_nudge (resolve_template (Some row) kind) name event
                     = Ok (Some text))
  /\ (forall team' kind', (team', kind') <> (team, kind) ->
        load_template_override table' team' kind' = load_template_override table team' kind')
  /\ (forall kind' event open_tasks, kind' <> Kind_Cron ->
        exists text, render_built_in_nudge event (default_template kind') open_tasks = Ok text)
  /\ (forall name event,
        exists text, render_cron_lifecycle_nudge (resolve_template None Kind_Cron) name event
                     = Ok (Some text)).
Proof.
  intros (-> & Hb & Hv & -> & ->)%set_override_inv.
  assert (load_template_override
            (<[(team, BuiltInNudgeTemplateKind_as_str kind) := mkOverrideSqlRow "override" body at_]> table)
            team kind = Ok (Some (mkOverrideRow team kind (Mode_Override body) at_))) as Hload.
  { unfold load_template_override. rewrite lookup_insert_eq. unfold normalize_loaded_override_mode.
    cbn [o_mode o_template_body o_updated_at]. by rewrite (proj2 (String.eqb_neq _ _) Hb). }
  split_and!; [done..| | | | | |].
  - intros rows Hl. by eapply listed_loads.
  - intros Hk event open_tasks. rewrite bool_decide_false in Hv by done. by apply validated_body_renders.
  - intros -> name event. by apply validated_cron_body_renders.
  - intros team' kind' Hne. by eapply load_override_other.
  - intros kind' event open_tasks Hk. apply validated_body_renders. by destruct kind'.
  - intros name event. by apply validated_cron_body_renders.
Qed.
End Overrides.

Lemma stored_override_renders_witness :
  exists row table',
    set_nudge_template_override_with_store ∅ 5%Z "ops" "ops" Kind_Delivery "mail from {{ from }}"
    = Ok (row, table')
    /\ load_template_override table' "ops" Kind_Delivery = Ok (Some row).
Proof.
  eexists _, _. split; [reflexivity|].
  apply (stored_override_renders ∅ 5%Z "ops" "ops" Kind_Delivery "mail from {{ from }}"). reflexivity.
Defined.
