(* ===== verification/ThreadProps.v ===== *)
(** * Properties of message threads *)

From S2P Require Import Prelude ErrorCodes Types TaskState Database Threading ThreadSend.
From S2P Require Import ThreadSend Demo.
From stdpp Require Import base gmap strings numbers list.
Import ThreadIndex.
Local Open Scope list_scope.

(** ** Walks *)

(** C40: The walks over a mailbox end on every list of messages, with cyclic and
    self-referring parents, duplicate ids and missing messages: the loops that
    look for the root, for the last message and for the chain of a thread return
    within one step per indexed message. *)
Theorem thread_walks_end ms i :
  is_Some (root_loop (new ms) (root_fuel (new ms)) ∅ i)
  /\ is_Some (terminal_loop (new ms) (terminal_fuel (new ms)) ∅ i)
  /\ is_Some (chain_loop (new ms) (chain_fuel (new ms)) ∅ (Some i)).
Proof.
  split_and!; [apply root_loop_ends, fuel_start|apply terminal_loop_ends, fuel_start
              |apply chain_loop_ends, fuel_start].
Qed.

(** ** Threads *)

Section Threads.
Context {rt : Runtime}.

(** C30: An update of a thread is accepted exactly when it names a parent and a
    mode, does not expire, the parent is in the mailbox and does not expire, the
    thread's first message is there and has the same sender, and the parent has
    no successor yet; the accepted message differs from the update in its
    acknowledgement only, which it inherits from the thread. *)
Theorem thread_update_accepted_iff e ms e' :
  prepare_threaded_message e ms = Ok e' <-> prepared e ms e'.
Proof.
  split; [apply prepare_prepared|].
  destruct 1 as [Hp Hm|p parent r root ack Hp [mode Hm] Hx Hpar Hpx Hr Hroot Hf Hc ->];
    unfold prepare_threaded_message; rewrite Hp, Hm; [done|].
  rewrite Hx. unfold validate_thread_append. rewrite Hpar.
  cbn [option_ok_or mbind outcome_mbind outcome_bind].
  unfold is_ephemeral. rewrite Hpx, bool_decide_eq_false_2 by (by intros [? ?]).
  rewrite Hr. cbn [option_ok_or mbind outcome_mbind outcome_bind].
  rewrite Hroot. cbn [option_ok_or mbind outcome_mbind outcome_bind].
  unfold canonical_sender_identity. rewrite Hf, String.eqb_refl. cbn [negb].
  unfold has_successor, successor_count. by rewrite Hc.
Qed.

(** C4: Threads stay linear.  However senders interleave, each validating an
    update against the mailbox it saw and committing it later, and whatever is
    refused, removed or displayed in between, no message ever has two successors;
    and the chain of every message whose root is still there is one thread that
    holds the message, has one sender and ends in the message found as its
    last. *)
Theorem threads_stay_linear b i r :
  rtc step empty_mailbox b ->
  (forall p, successor_count (new (stored b)) p <= 1)%nat
  /\ (root_id (new (stored b)) i = Some r ->
      let chain := chain_messages (new (stored b)) i in
      is_thread (new (stored b)) chain
      /\ (exists k, thread_id chain k i)
      /\ (forall m m', m ∈ chain -> m' ∈ chain -> env_from m = env_from m')
      /\ exists e, thread_id chain (pred (length chain)) e /\ terminal_id (new (stored b)) i = Some e).
Proof.
  intros Hinv%inv_reachable. pose proof (inv_linear _ Hinv) as Hlin.
  destruct Hinv as [_ _ _ _ [rank Hrank] Hsender _].
  assert (ranked rank (stored b)) as Hr.
  { intros m j p Hm. apply Hrank. apply elem_of_app. by left. }
  assert (same_sender (stored b) (stored b)) as Hs.
  { intros m m' p Hm. apply Hsender. apply elem_of_app. by left. }
  split; [intros p; by apply linear_successor_count|]. intros Hroot. cbv zeta.
  destruct (chain_is_thread _ Hlin rank Hr i r Hroot) as (Hth & H0 & k & Hk).
  pose proof (thread_length_pos _ _ Hth) as Hpos. split_and!; [done|by exists k| |].
  - destruct H0 as (m0 & Hm0 & Hi0). destruct (thread_at _ _ Hth _ _ Hm0) as (j & Hj & Hlook & _).
    assert (j = r) as -> by congruence. intros m m' Hm Hm'.
    by rewrite (chain_sender _ Hlin rank Hr i r m0 m), (chain_sender _ Hlin rank Hr i r m0 m').
  - destruct (thread_id_at _ _ Hth (pred (length (chain_messages (new (stored b)) i)))) as [e He]; [lia|].
    exists e. split; [done|]. by eapply (terminal_id_thread _ _ Hth k).
Qed.

(** ** The text of a thread *)

Lemma from_last_supersede_split pre m adds :
  (pre = [] \/ env_thread_mode m = Some ThreadMode_Supersede) ->
  Forall (fun a => env_thread_mode a <> Some ThreadMode_Supersede) adds ->
  from_last_supersede (pre ++ m :: adds) = m :: adds.
Proof.
  intros Hm Ha.
  assert (from_last_supersede (m :: adds) = m :: adds) as Hbase.
  { cbn [from_last_supersede]. rewrite bool_decide_eq_false_2; [done|].
    rewrite Exists_exists. intros (x & Hx & Hs). by apply (proj1 (Forall_forall _ _) Ha x Hx). }
  destruct Hm as [->|Hm]; [done|]. induction pre as [|x pre IH]; [done|]. cbn [app from_last_supersede].
  rewrite bool_decide_eq_true_2; [done|]. apply Exists_app. right. by left.
Qed.

(** Every message of a thread displays as the same logical message: the last
    message of the thread, alone unless it adds details; then its text is that of
    the messages since the last one that superseded the thread, blank texts
    left out, a blank line between two texts, cut to the size limit. *)
Theorem logical_current_of_thread idx pre m adds last_ k i :
  is_thread idx (pre ++ m :: adds) -> thread_id (pre ++ m :: adds) k i ->
  last (m :: adds) = Some last_ ->
  (pre = [] \/ env_thread_mode m = Some ThreadMode_Supersede) ->
  Forall (fun a => env_thread_mode a <> Some ThreadMode_Supersede) adds ->
  logical_current_envelope idx i =
    if decide (env_thread_mode last_ = Some ThreadMode_AddDetails)
    then let text := truncate_thread_text (composed_text (m :: adds)) in
         Some (if String.eqb text "" then last_ else with_text text last_)
    else Some last_.
Proof.
  intros Hth Hi Hlast Hm Ha. set (ms := pre ++ m :: adds) in *.
  assert (ms !! pred (length ms) = Some last_) as Hl.
  { rewrite <- last_lookup. unfold ms. by rewrite last_app, Hlast. }
  destruct (thread_at _ _ Hth _ _ Hl) as (e & He & Hlook & _).
  assert (thread_id ms (pred (length ms)) e) as Hte by (by exists last_).
  unfold logical_current_envelope. rewrite (terminal_id_thread _ _ Hth k i e Hi Hte).
  unfold mbind, option_bind. rewrite Hlook.
  destruct (decide (env_thread_mode last_ = Some ThreadMode_AddDetails)) as [Hd|Hd].
  - rewrite bool_decide_eq_false_2 by (intros Hn; by apply Hn).
    rewrite (chain_messages_thread _ _ Hth _ _ Hte).
    unfold ms. by rewrite (from_last_supersede_split pre m adds Hm Ha).
  - by rewrite bool_decide_eq_true_2.
Qed.
End Threads.

Lemma floor_char_boundary_spec s n :
  let k := floor_char_boundary s n in
  k <= n /\ is_char_boundary s k = true
  /\ forall j, k < j <= n -> is_char_boundary s j = false.
Proof.
  cbv zeta. induction n as [|n (IH1 & IH2 & IH3)]; [cbn; split_and!; [lia|done|lia]|].
  cbn [floor_char_boundary]. destruct (is_char_boundary s (S n)) eqn:E; [split_and!; [lia|done|lia]|].
  split_and!; [lia|done|]. intros j Hj. destruct (decide (j = S n)) as [->|]; [done|]. apply IH3. lia.
Qed.

Lemma substring_length s n : n <= String.length s -> String.length (String.substring 0 n s) = n.
Proof.
  revert n. induction s as [|c s IH]; intros [|n] Hn; cbn in *; [done|lia|done|]. rewrite IH; lia.
Qed.

Lemma string_app_length s s' : String.length (s +:+ s') = String.length s + String.length s'.
Proof. induction s as [|c s IH]; cbn; [done|]. by rewrite <- IH. Qed.

(** The text of a thread never exceeds the limit.  A text within it is kept;
    a longer one becomes its longest prefix that ends between two characters and
    leaves room for the note that it was cut, followed by that note. *)
Theorem thread_text_bounded s :
  (Z.of_nat (String.length (truncate_thread_text s)) <= MAX_LOGICAL_THREAD_TEXT_BYTES)%Z
  /\ ((Z.of_nat (String.length s) <= MAX_LOGICAL_THREAD_TEXT_BYTES)%Z -> truncate_thread_text s = s)
  /\ ((MAX_LOGICAL_THREAD_TEXT_BYTES < Z.of_nat (String.length s))%Z ->
      exists n, truncate_thread_text s = (String.substring 0 n s +:+ TRUNCATED_THREAD_CONTEXT_SENTINEL)%string
        /\ is_char_boundary s n = true
        /\ forall j, n < j -> is_char_boundary s j = true ->
             (MAX_LOGICAL_THREAD_TEXT_BYTES
              < Z.of_nat (j + String.length TRUNCATED_THREAD_CONTEXT_SENTINEL))%Z).
Proof.
  unfold truncate_thread_text.
  assert (Z.of_nat (String.length TRUNCATED_THREAD_CONTEXT_SENTINEL) <= 1024)%Z as Hsent by (vm_compute; done).
  generalize dependent TRUNCATED_THREAD_CONTEXT_SENTINEL. intros sentinel Hsent.
  assert (1024 < MAX_LOGICAL_THREAD_TEXT_BYTES)%Z as Hmax by done.
  generalize dependent MAX_LOGICAL_THREAD_TEXT_BYTES. intros maximum Hmax.
  destruct (Z.ltb_spec maximum (Z.of_nat (String.length s))) as [Hlt|Hle]; [|split_and!; [lia|done|lia]].
  set (cut := Z.to_nat (maximum - Z.of_nat (String.length sentinel))).
  destruct (floor_char_boundary_spec s cut) as (H1 & H2 & H3).
  split_and!; [|lia|].
  - rewrite string_app_length, substring_length by lia. lia.
  - intros _. eexists. split; [reflexivity|]. split; [done|]. intros j Hj Hb.
    destruct (decide (j <= cut)); [rewrite H3 in Hb by lia; done|]. lia.
Qed.

(** ** The theorems on a thread *)

(** A message of [alice] with id [n]. *)
Definition part (n : N) (text : string) (parent : option AtmMessageId) (mode : option ThreadMode)
    : InboxMessage :=
  {| env_from := "alice";
     env_source_chat_id := None;
     env_text := text;
     env_timestamp := Z.of_N n;
     env_read := false;
     env_source_team := None;
     env_destination_chat_id := None;
     env_summary := None;
     env_message_id := Some n;
     env_requires_ack := false;
     env_pending_ack_at := None;
     env_acknowledged_at := None;
     env_acknowledges_message_id := None;
     env_parent_message_id := parent;
     env_thread_mode := mode;
     env_expires_at := None;
     env_task_id := None;
     env_placement := None;
     env_task_op := None;
     env_task_complete := None;
     env_extra := [] |}.

Definition first_part : InboxMessage := part 1 "deploy" None None.
Definition replaced : InboxMessage := part 2 "wait" (Some 1%N) (Some ThreadMode_Supersede).
Definition added : InboxMessage := part 3 "for the review" (Some 2%N) (Some ThreadMode_AddDetails).

Lemma parts_thread : is_thread (new [first_part; replaced; added]) [first_part; replaced; added].
Proof.
  split; [done|]. cbn [linked]. split; [done|]. split; [done|]. exists 1%N. split; [done|]. split; [reflexivity|].
  split; [done|]. split; [reflexivity|]. exists 2%N. split; [done|]. split; [reflexivity|].
  split; [done|]. split; [reflexivity|]. exists 3%N. split; [done|]. split; reflexivity.
Qed.

Lemma logical_current_of_thread_witness :
  env_text <$> logical_current_envelope (new [first_part; replaced; added]) 1%N
  = Some ("wait" +:+ blank_line +:+ "for the review")%string.
Proof.
  rewrite (logical_current_of_thread (new [first_part; replaced; added]) [first_part] replaced [added]
    added 0 1%N parts_thread ltac:(exists first_part; by split) eq_refl ltac:(by right)
    ltac:(constructor; [discriminate|constructor])).
  vm_compute. reflexivity.
Defined.

(** [alice] sends a message and replaces it. *)
Definition two_parts : Mailbox := mkMailbox [first_part; replaced] [] {[2%N; 1%N]}.

Lemma two_parts_reachable : rtc step empty_mailbox two_parts.
Proof.
  eapply rtc_l; [apply (step_prepare [] [] ∅ [] first_part first_part 1%N); [done..|set_solver|reflexivity]|].
  eapply rtc_l; [apply (step_commit [] [] first_part []); split; intros ? _; apply not_elem_of_nil|].
  eapply rtc_l; [apply (step_prepare _ _ _ [first_part] replaced replaced 2%N);
                 [done..|apply (bool_decide_unpack _); vm_compute; exact I|vm_compute; reflexivity]|].
  eapply rtc_l; [apply (step_commit _ [] replaced [])|].
  - split; cbn.
    + intros i [= <-]. apply (bool_decide_unpack _). vm_compute. exact I.
    + intros p _. apply not_elem_of_nil.
  - apply rtc_refl.
Qed.

Lemma threads_stay_linear_witness :
  (forall p, successor_count (new (stored two_parts)) p <= 1)%nat
  /\ exists k, thread_id (chain_messages (new (stored two_parts)) 2%N) k 2%N.
Proof.
  destruct (threads_stay_linear two_parts 2%N 1%N two_parts_reachable) as [H1 H2].
  split; [exact H1|]. destruct (H2 ltac:(vm_compute; reflexivity)) as (_ & Hk & _). exact Hk.
Defined.
