(* ===== verification/MailboxDemo.v ===== *)
(** * A concrete mailbox

    The mailbox of [bob]: an instruction of [alice], details added to it, and an
    older message for his chat [c7] that asks for an acknowledgement. *)

From S2P Require Import Prelude ErrorCodes Types TaskState Database MailStore MailSpec Admission Writer Demo.
From S2P Require Import Threading Selection MailboxReader Roster ReadCommands Handoff MailboxRuntime ReaderSpec.
From stdpp Require Import base gmap strings list numbers pretty.
Local Open Scope Z_scope.
Local Open Scope string_scope.
Local Open Scope list_scope.

(** The pool runs every query, nobody else commits, and an instant is a
    millisecond after the one before. *)
#[export] Instance demo_lane : ReaderLane :=
  {| lane_fault _ := None;
     others_commit _ d := d;
     envelope_decode_cause _ := "expected value";
     instant_at n := Z.of_nat n * 1000000 |}.

(** A message of [alice] to [bob] with id [n] sent at [t]. *)
Definition note (n : N) (t : IsoTimestamp) (text : string) (chat : option ChatId)
    (parent : option AtmMessageId) (mode : option ThreadMode) (ack : option IsoTimestamp) : Message :=
  {| msg_team := "alpha";
     msg_agent := "bob";
     msg_message_key := "atm:" +:+ pretty n;
     msg_envelope :=
       {| env_from := "alice";
          env_source_chat_id := None;
          env_text := text;
          env_timestamp := t;
          env_read := false;
          env_source_team := None;
          env_destination_chat_id := chat;
          env_summary := None;
          env_message_id := Some n;
          env_requires_ack := bool_decide (is_Some ack);
          env_pending_ack_at := ack;
          env_acknowledged_at := None;
          env_acknowledges_message_id := None;
          env_parent_message_id := parent;
          env_thread_mode := mode;
          env_expires_at := None;
          env_task_id := None;
          env_placement := None;
          env_task_op := None;
          env_task_complete := None;
          env_extra := [] |} |}.

Definition instruction : Message := note 1 10 "deploy the service" None None None None.
Definition details : Message :=
  note 2 20 "to staging only" None (Some 1%N) (Some ThreadMode_AddDetails) None.
Definition chat_question : Message := note 3 15 "which region?" (Some "c7") None None (Some 15).

Definition mailbox_world : World := after [send instruction; send details; send chat_question] world0.

Definition bob_scope : MemberKey := mkMemberKey "alpha" "bob".

(** What [bob] asks for without a selector. *)
Definition actionable : MailboxSelectionRequest :=
  mkSelectionRequest Selection_Actionable None None None None None None None.

(** What [bob] asks for in his chat [c7]. *)
Definition for_chat : MailboxSelectionRequest :=
  mkSelectionRequest Selection_Actionable None None None
    (Some (mkParticipantFilter "bob" (Some "c7") Direction_To)) None None None.

Definition by_message_id (i : AtmMessageId) : MailboxSelectionRequest :=
  mkSelectionRequest Selection_All None (Some i) None None None None None.

Definition read_by (request : MailboxSelectionRequest) : AsyncReadCommand :=
  mkReadCommand bob_scope request false (selection_mode request) Action_Read false true None
    Origin_Local.

Definition active_handoff : StateHandoffLifecycle :=
  Handoff_Active (mkInner HandoffConfig_default [] Supervisor_Ready 0 0 0 0).

Definition a_day : Z := 86400 * 1000000000.
