(* ===== verification/HandoffProps.v ===== *)
(** * Properties of the read-state handoff *)

From S2P Require Import Prelude ErrorCodes Types Database Transaction MailStore Admission Writer WriterSpec Demo.
From S2P Require Import Handoff HandoffSpec MailboxDemo.
From stdpp Require Import base gmap strings numbers list.
Local Open Scope Z_scope.
Local Open Scope string_scope.
Local Open Scope list_scope.

Section HandoffProps.
Context {rt : Runtime}.

(** C5: The handoff refines a bounded queue in front of the writer lane: whatever
    readers, the worker, the manager and other writers do and wherever the worker
    dies, one step accepts one transition at the back, writes the transition at
    the front exactly as it asks, or is a write of somebody else.  Written exactly
    means: the messages it names were in the mailbox and not deleted, and they alone
    are now read, with the time of the write and the nudge marker moved or cleared;
    the watermark is the one it carries; every other row and table is what it was.
    A transition leaves the queue with its write only; a worker that dies between
    the two leaves it to be written again. *)
Theorem handoff_refines_queue config w s s' :
  0 <= supervisor_max_restarts config ->
  rtc handoff_step (handoff_initial config w) s -> handoff_step s s' ->
  fifo_step (handoff_buffer config) (handoff_view s) (handoff_view s').
Proof. intros Hm Hr. by apply step_fifo, (handoff_reachable_inv _ _ _ Hm Hr). Qed.

(** In every state the supervisor can reach, the transitions accepted so far
    are those removed after a write followed by those in the queue, in order; the
    queue never exceeds the configured buffer; the worker was restarted at most
    one time more than configured; and a handoff that reports itself ready has a
    worker, or one whose end the manager is about to see. *)
Theorem handoff_keeps_accepted config w s :
  0 <= supervisor_max_restarts config ->
  rtc handoff_step (handoff_initial config w) s ->
  sys_accepted s = sys_removed s ++ h_queue (sys_inner s)
  /\ (diag_buffered_depth (diagnostics (sys_inner s)) <= handoff_buffer config)%nat
  /\ 0 <= diag_restart_count (diagnostics (sys_inner s)) <= supervisor_max_restarts config + 1
  /\ (diag_state (diagnostics (sys_inner s)) = Supervisor_Ready <->
      sys_task s <> Manager_Restarting /\ sys_task s <> Manager_Finished).
Proof.
  intros Hm Hr. destruct (handoff_reachable_inv _ _ _ Hm Hr) as [_ Hf Hb [H0 H1] Hst _].
  split_and!; [done|done|done| |].
  - cbn. destruct (sys_task s); lia.
  - cbn. rewrite Hst. destruct (sys_task s); cbn; split; intros H; try done; destruct H; done.
Qed.

(** A handoff that has become unavailable never comes back: from then on,
    whatever happens, every read is refused the change of its state, nothing is
    accepted, and what was in the queue is never written. *)
Theorem unavailable_handoff_is_final config w s s' :
  0 <= supervisor_max_restarts config ->
  rtc handoff_step (handoff_initial config w) s ->
  h_state (sys_inner s) = Supervisor_Unavailable -> rtc handoff_step s s' ->
  (forall t, (try_push_with_origin t (sys_inner s')).1 = Some Rejected_Unavailable)
  /\ h_queue (sys_inner s') = h_queue (sys_inner s) /\ sys_accepted s' = sys_accepted s.
Proof.
  intros Hm Hr Hu Hs. destruct (handoff_reachable_inv _ _ _ Hm Hr) as [_ _ _ _ Hst _].
  assert (sys_task s = Manager_Finished) as Ht by (rewrite Hu in Hst; by destruct (sys_task s)).
  destruct (finished_stays _ _ Ht Hu Hs) as (_ & Hu' & Hq & Ha). split; [|done].
  intros t. unfold try_push_with_origin. by rewrite bool_decide_eq_true_2 by congruence.
Qed.

End HandoffProps.

(** ** The theorems on [bob]'s mailbox *)

Definition question_read : ReadDisplayTransition :=
  mkReadTransition bob_scope ["atm:3"] (Some 15) Origin_Local.

(** [bob]'s read of the question is accepted and taken by the worker. *)
Definition question_taken : System :=
  let h := (try_push_with_origin question_read (mkInner HandoffConfig_default [] Supervisor_Ready 0 0 0 0)).2 in
  mkSystem h (Worker_Applying question_read (0 + 5000000000)) mailbox_world [question_read] [].

Lemma question_taken_reachable :
  rtc handoff_step (handoff_initial HandoffConfig_default mailbox_world) question_taken.
Proof.
  eapply rtc_l; [apply (step_push question_read)|]. eapply rtc_l; [|apply rtc_refl].
  apply (step_take question_read []). reflexivity.
Qed.




Definition question_written : World :=
  (apply_read_display_state None None question_read mailbox_world).2.

Lemma question_write :
  apply_read_display_state None None question_read mailbox_world = (Ok tt, question_written).
Proof.
  unfold question_written.
  assert ((apply_read_display_state None None question_read mailbox_world).1 = Ok tt) as H
    by (vm_compute; reflexivity).
  rewrite <- H. apply surjective_pairing.
Qed.

Lemma handoff_refines_queue_witness :
  fifo_step 64 ([question_read], db mailbox_world) ([], db question_written)
  /\ (s_read <$> mail_message_states (db question_written) !! mailbox_key bob_scope "atm:3") = Some true.
Proof.
  split; [|vm_compute; reflexivity].
  exact (handoff_refines_queue HandoffConfig_default mailbox_world question_taken _
           ltac:(cbn; lia) question_taken_reachable
           (step_attempt question_read (0 + 5000000000) _ mailbox_world (Ok tt) question_written _ []
              None None 0 question_write)).
Defined.

Lemma handoff_keeps_accepted_witness :
  sys_accepted question_taken = sys_removed question_taken ++ [question_read].
Proof.
  exact (proj1 (handoff_keeps_accepted HandoffConfig_default mailbox_world question_taken
           ltac:(cbn; lia) question_taken_reachable)).
Defined.


(** A configuration without restarts, whose worker dies once. *)
Definition fragile : HandoffConfig := mkHandoffConfig 1 1 0.
Definition fragile_end : System :=
  mkSystem (worker_died (mkInner fragile [] Supervisor_Ready 0 0 0 0)).1 Manager_Finished
    mailbox_world [] [].

Lemma unavailable_handoff_is_final_witness :
  (try_push_with_origin question_read (sys_inner fragile_end)).1 = Some Rejected_Unavailable.
Proof.
  apply (unavailable_handoff_is_final fragile mailbox_world fragile_end fragile_end).
  - cbn. lia.
  - eapply rtc_l; [apply step_die_waiting|]. apply rtc_once.
    exact (step_died (mkInner fragile [] Supervisor_Ready 0 0 0 0) mailbox_world [] []).
  - reflexivity.
  - apply rtc_refl.
Defined.
