(* ===== verification/MailboxProps.v ===== *)
(** * Properties of reading a mailbox *)

From S2P Require Import Prelude ErrorCodes Types Address TaskState Database MailStore MailSpec Admission Writer Demo.
From S2P Require Import Threading Selection MailboxReader Roster ReadCommands Handoff HandoffSpec.
From S2P Require Import MailboxRuntime ReaderSpec MailboxDemo.
From stdpp Require Import base gmap strings numbers sorting list.
Local Open Scope Z_scope.
Local Open Scope string_scope.
Local Open Scope list_scope.

(** ** The demo mailbox is consistent *)

Lemma rows_ok_check (d : Db) :
  forallb (fun kr : MailKey * MailMessageRow =>
    let '(_, r) := kr in
    match decode_envelope (m_envelope_json r) with
    | Some e => bool_decide (env_message_id e = m_message_id r)
                && bool_decide (env_parent_message_id e = m_parent_message_id r)
                && bool_decide (env_timestamp e = m_message_at r)
                && (bool_decide (env_thread_mode e <> Some ThreadMode_AddDetails)
                    || bool_decide (is_Some (env_parent_message_id e)))
    | None => true
    end) (map_to_list (mail_messages d)) = true -> rows_ok d.
Proof.
  rewrite forallb_forall. intros H k r Hk e He.
  specialize (H (k, r) (proj1 (list_elem_of_In _ _) (proj2 (elem_of_map_to_list _ _ _) Hk))).
  cbv beta iota in H. rewrite He in H.
  repeat (apply andb_true_iff in H as [H ?]).
  repeat match goal with H : bool_decide _ = true |- _ => apply bool_decide_eq_true in H end.
  split_and!; [done..|]. intros Hm. apply orb_true_iff in H0 as [H0|H0];
    apply bool_decide_eq_true in H0; [congruence|done].
Qed.

Lemma mailbox_world_ok : mailbox_ok (db mailbox_world).
Proof.
  split.
  - intros k r k' r' Hk Hk'. revert k r Hk. apply (map_Forall_to_list (fun k r => ~ message_clash k r k' r')).
    revert k' r' Hk'. apply (map_Forall_to_list (fun k' r' => Forall (uncurry (fun k r => ~ message_clash k r k' r')) (map_to_list (mail_messages (db mailbox_world))))).
    apply (bool_decide_unpack _). by vm_compute.
  - apply rows_ok_check. by vm_compute.
Qed.

(** ** What a read displays *)

Section ReadDisplay.
Context {rt : Runtime} {lane : ReaderLane}.

Lemma limit_one_head sel x :
  head (selected (limit_one sel)) = Some x -> x ∈ selected sel.
Proof.
  cbn [limit_one selected]. intros Hh. unfold sort_and_limit_mailbox_selection, limit_to in Hh.
  rewrite <- (elem_of_sort_by compare_selected).
  destruct (sort_by compare_selected (selected sel)) as [|y l]; [done|]. cbn in Hh. simplify_eq. left.
Qed.

(** What a read that ends displays: the head of one page of its mailbox. *)
Lemma runtime_read_page fuel lifecycle command deadline w outcome lifecycle' w' :
  runtime_read fuel lifecycle command deadline w = (Ok (Some (outcome, lifecycle')), w') ->
  exists k d t ms command' sel, others (db w) d
    /\ (exists watermark, command' = command \/ command' = AsyncReadCommand_with_seen_watermark watermark command)
    /\ list_matching_messages (now_at k) d (rc_scope command')
         (mkListQuery (mailbox_filters (rc_scope command') (rc_selection command')) (Some 1%nat)) = Ok ms
    /\ selected sel
       = selected (select_mailbox_candidates t (selection_candidate <$> ms) (rc_selection command'))
    /\ ro_message outcome = classified_message <$> head (selected (limit_one sel))
    /\ (selected sel = [] -> lifecycle' = lifecycle).
Proof.
  unfold runtime_read. intros (c & w1 & Ha & Hrun)%run_bind_ok_inv.
  apply authorize_read_ok in Ha as (Ho & watermark & Hc).
  apply run_bind_ok_inv in Hrun as (found & w2 & Hs & Hrun). destruct found as [[sel n]|]; [|done].
  apply run_bind_ok_inv in Hrun as ([accepted lc] & w3 & Hh & Hrun).
  unfold mret, M_ret, st_ret in Hrun. injection Hrun as <- <- _.
  apply select_for_read_page in Hs as (k & d & t & ms & Hd & Hl & Hsel).
  exists k, d, t, ms, c, sel. split_and!; [by etrans|by exists watermark|done|done|done|].
  intros He. cbn [snd]. unfold lift, st_lift, try_handoff_selected in Hh. cbn [selected limit_one] in Hh.
  rewrite He in Hh. cbn in Hh. by injection Hh as _ <-.
Qed.

Lemma newest_hidden at_ d scope request t m page :
  mailbox_ok d ->
  list_matching_messages at_ d scope (mkListQuery (mailbox_filters scope request) (Some 1%nat)) = Ok page ->
  page = [m] ->
  matches_participant_filter (as_classified 0 (selection_candidate m)) (participant_filter request) = false ->
  selected (select_mailbox_candidates t (selection_candidate <$> page) request) = [].
Proof.
  intros Hok Hl -> Hp. destruct (selected _) as [|x l] eqn:E; [done|]. exfalso.
  assert (x ∈ selected (select_mailbox_candidates t (selection_candidate <$> [m]) request)) as Hx
    by (rewrite E; left).
  apply (select_all_last _ (page_all_last _ _ _ _ _ _ Hok Hl)) in Hx as (k & c & Hk & _ & Hm).
  destruct k as [|k]; [|done]. cbn in Hk. injection Hk as <-. congruence.
Qed.

(** C14: A read displays one message that its mailbox stored at one moment [k] of the read
    (the store it started from, or what other writers had made of it by then), with the
    state the store had for it and nothing else: the text of a message that adds details is
    displayed without the messages it adds to.  At that moment the row was in the mailbox of
    the request, not deleted and not expired, no live message of the store was its successor,
    and it matched the filters of the request. *)
Theorem read_displays_stored_message fuel lifecycle command deadline w outcome lifecycle' w' cm :
  mailbox_ok (db w) ->
  (forall n d, mailbox_ok d -> mailbox_ok (others_commit n d)) ->
  runtime_read fuel lifecycle command deadline w = (Ok (Some (outcome, lifecycle')), w') ->
  ro_message outcome = Some cm ->
  exists k d j e,
    others (db w) d /\ j ∈ joined_rows d
    /\ (j_key j).1 = (member_team (rc_scope command), member_agent (rc_scope command))
    /\ sql_not_deleted j = true /\ sql_unexpired (now_at k) j = true
    /\ (forall j', j' ∈ joined_rows d -> is_live_successor (now_at k) j j' = false)
    /\ sql_matches (now_at k) d (mailbox_filters (rc_scope command) (rc_selection command)) j = true
    /\ decode_envelope (m_envelope_json (j_message j)) = Some e
    /\ cm_source_path cm = (j_key j).2
    /\ cm_envelope cm = apply_state e (j_state j).
Proof.
  intros Hok Hothers Hrun Hcm.
  assert (forall d, others (db w) d -> mailbox_ok d) as Hview.
  { intros d Hd. induction Hd as [|d d1 d2 [n ->] _ IH]; [done|]. auto. }
  apply runtime_read_page in Hrun as (k & d & t & ms & command' & sel & Ho & Hc & Hl & Hsel & Hm & _).
  rewrite Hm in Hcm. apply fmap_Some in Hcm as (x & Hx & ->).
  apply limit_one_head in Hx. rewrite Hsel in Hx.
  apply (select_all_last _ (page_all_last _ _ _ _ _ _ (Hview d Ho) Hl)) in Hx as (i & cand & Hk & -> & _).
  rewrite list_lookup_fmap in Hk. apply fmap_Some in Hk as (m & Hmi & ->).
  destruct (listed_row _ _ _ _ _ _ _ Hl (list_elem_of_lookup_2 _ _ _ Hmi)) as (j & e & Hj & Hmj & He & ->).
  assert (sql_matches (now_at k) d (mailbox_filters (rc_scope command) (rc_selection command)) j = true) as Hmatch
    by (destruct Hc as [watermark [->| ->]]; exact Hmj).
  destruct (matches_current _ _ _ _ (mailbox_filters_current _ _) Hmatch) as (Hdel & Hexp & Hcur).
  exists k, d, j, e. split_and!; try done.
  - by eapply (matches_scope _ _ (mailbox_filters (rc_scope command) (rc_selection command))).
  - intros j' Hj'. destruct (is_live_successor (now_at k) j j') eqn:Hs; [|done].
    exfalso. by eapply current_no_live_successor.
Qed.

(** C38: A read of the mailbox looks at the newest matching row only.  When, at every moment
    of the read, that row is not for the chat the reader asked for, the read displays nothing
    and hands nothing over, whatever older messages are for that chat. *)
Theorem limited_read_starves fuel lifecycle command deadline w outcome lifecycle' w' :
  let request := rc_selection command in
  let scope := rc_scope command in
  (forall d, others (db w) d -> mailbox_ok d) ->
  (forall k d, others (db w) d -> exists m ms,
     list_matching_messages (now_at k) d scope (mkListQuery (mailbox_filters scope request) None)
       = Ok (m :: ms)
     /\ matches_participant_filter (as_classified 0 (selection_candidate m))
          (participant_filter request) = false) ->
  runtime_read fuel lifecycle command deadline w = (Ok (Some (outcome, lifecycle')), w') ->
  ro_message outcome = None /\ lifecycle' = lifecycle.
Proof.
  intros request scope Hok Hnewest Hrun.
  apply runtime_read_page in Hrun as (k & d & t & ms & command' & sel & Ho & Hc & Hl & Hsel & Hm & Hh).
  destruct (Hnewest k d Ho) as (m & older & Hall & Hp).
  assert (Hempty : selected sel = []).
  { rewrite Hsel. apply (newest_hidden (now_at k) d scope (rc_selection command') t m ms).
    - by apply Hok.
    - by destruct Hc as [watermark [->| ->]].
    - pose proof (page_limit _ _ _ _ 1 _ Hall) as Hone.
      assert (@Ok AtmError _ ms = Ok [m]) as [= ->]; [|done].
      etrans; [symmetry; exact Hl|]. destruct Hc as [watermark [->| ->]]; exact Hone.
    - by destruct Hc as [watermark [->| ->]]. }
  rewrite Hm, (Hh Hempty). unfold limit_one. by rewrite Hempty.
Qed.

(** A message with a live successor is never on a page of the reader lane,
    also when the request names its id: a superseded message cannot be read or
    peeked. *)
Theorem superseded_id_unreadable at_ d scope request i limit t ms j j' :
  mailbox_ok d -> message_id_filter request = Some i ->
  list_matching_messages at_ d scope (mkListQuery (mailbox_filters scope request) limit) = Ok ms ->
  j ∈ joined_rows d -> j' ∈ joined_rows d -> (j_key j).1 = (member_team scope, member_agent scope) ->
  m_message_id (j_message j) = Some i -> is_live_successor at_ j j' = true ->
  selected (select_mailbox_candidates t (selection_candidate <$> ms) request) = [].
Proof.
  intros Hok Hreq Hl Hj Hj' Hk Hi Hs. destruct (selected _) as [|x l] eqn:E; [done|]. exfalso.
  assert (x ∈ selected (select_mailbox_candidates t (selection_candidate <$> ms) request)) as Hx
    by (rewrite E; left).
  apply (select_all_last _ (page_all_last _ _ _ _ _ _ Hok Hl)) in Hx as (k & c & Hc & _ & _).
  rewrite list_lookup_fmap in Hc. apply fmap_Some in Hc as (m & Hm & ->).
  apply list_elem_of_lookup_2 in Hm.
  destruct (listed_row _ _ _ _ _ _ _ Hl Hm) as (x' & e & Hx' & Hmx & _ & ->).
  assert (m_message_id (j_message x') = Some i) as Hxi.
  { unfold sql_matches, identity_clause in Hmx. cbn [f_message_id mailbox_filters] in Hmx.
    rewrite Hreq in Hmx.
    repeat match goal with H : (_ && _)%bool = true |- _ => apply andb_true_iff in H as [? ?] end.
    unfold equals_clause in *.
    repeat match goal with H : bool_decide _ = true |- _ => apply bool_decide_eq_true in H end. done. }
  assert (j_key x' = j_key j) as Ek.
  { destruct (decide (j_key x' = j_key j)) as [|Hne]; [done|]. exfalso.
    apply elem_of_joined in Hx' as [Hx' _]. apply elem_of_joined in Hj as [Hj _].
    apply (proj1 Hok _ _ _ _ Hx' Hj). split_and!; [done| |left; split; [by eexists|congruence]].
    by rewrite (matches_scope at_ d (mailbox_filters scope request) x' (member_team scope) (member_agent scope) eq_refl eq_refl Hmx). }
  eapply (superseded_not_listed at_ d scope request limit ms j j'); [done..|by rewrite Hi|done|exact Hm|].
  cbn. by rewrite Ek.
Qed.

(** ** Limits *)

Lemma sorted_fmap {A B} (R : relation A) (R' : relation B) (f : A -> B) l :
  (forall x y, R x y -> R' (f x) (f y)) -> Sorted R l -> Sorted R' (f <$> l).
Proof.
  intros Hf. induction 1 as [|x l Hl IH Hx]; cbn; constructor; [done|].
  destruct Hx; cbn; constructor. by apply Hf.
Qed.

(** The messages of a page as a list of everything selects them. *)
Lemma page_rows at_ d c limit ms t :
  mailbox_ok d -> distinct_times d -> without_filters (lc_selection c) ->
  list_matching_messages at_ d (lc_scope c)
    (mkListQuery (mailbox_filters (lc_scope c) (lc_selection c)) limit) = Ok ms ->
  (forall m, m ∈ ms -> env_expires_at (msg_envelope m) = None) ->
  sort_and_limit_mailbox_selection
    (selected (select_mailbox_candidates t (selection_candidate <$> ms) (lc_selection c))) (lc_limit c)
  = limit_to (lc_limit c) (candidate_selected ∘ selection_candidate <$> ms).
Proof.
  intros Hok Hd Hw Hl He. unfold sort_and_limit_mailbox_selection.
  rewrite (select_everything t _ _ (page_all_last _ _ _ _ _ _ Hok Hl) Hw).
  2:{ intros x (m & -> & Hm)%list_elem_of_fmap. by apply He. }
  rewrite <- list_fmap_compose. f_equal. apply sort_by_sorted.
  eapply sorted_fmap; [|apply StronglySorted_Sorted; by eapply page_newest_first].
  cbv beta. intros x y Hxy. unfold compare_selected, then_with. cbn.
  destruct (Z.compare_spec (env_timestamp (msg_envelope y)) (env_timestamp (msg_envelope x))); [lia|done|lia].
Qed.

Lemma pushdown_without_filters c n :
  lc_selection_mode c = selection_mode (lc_selection c) -> pushdown_limit c = Some n ->
  without_filters (lc_selection c) /\ lc_limit c = Some n.
Proof.
  intros Hm. unfold pushdown_limit, without_filters. rewrite Hm.
  destruct (_ && _) eqn:E; [|done]. intros Hl. split; [|done].
  repeat (apply andb_true_iff in E as [E ?]).
  repeat match goal with H : bool_decide _ = true |- _ => apply bool_decide_eq_true in H end.
  by destruct (participant_filter (lc_selection c)).
Qed.

(** C13: Pushing the limit of a list into the query changes nothing on a mailbox whose
    messages all have different times and none of whose listed messages expires: when
    [pushdown_limit] allows it, the rows of the limited page are those a limit of the whole
    mailbox gives.  (Messages of one time are ordered by key in the query and by id in the
    code, and an expiring message may expire between the query and the selection: the
    statement leaves both out.) *)
Theorem list_pushdown_sound at_ d c n ms t t' :
  mailbox_ok d -> distinct_times d ->
  lc_selection_mode c = selection_mode (lc_selection c) -> pushdown_limit c = Some n ->
  list_matching_messages at_ d (lc_scope c)
    (mkListQuery (mailbox_filters (lc_scope c) (lc_selection c)) None) = Ok ms ->
  (forall m, m ∈ ms -> env_expires_at (msg_envelope m) = None) ->
  exists page,
    list_matching_messages at_ d (lc_scope c)
      (mkListQuery (mailbox_filters (lc_scope c) (lc_selection c)) (Some n)) = Ok page
    /\ lo_rows (complete_async_list c
          (select_mailbox_candidates t (selection_candidate <$> page) (lc_selection c)))
       = lo_rows (complete_async_list c
          (select_mailbox_candidates t' (selection_candidate <$> ms) (lc_selection c))).
Proof.
  intros Hok Hd Hmode Hp Hl He. destruct (pushdown_without_filters c n Hmode Hp) as [Hw Hlim].
  exists (take n ms). pose proof (page_limit _ _ _ _ n _ Hl) as Hpage. split; [done|].
  assert (forall m, m ∈ take n ms -> env_expires_at (msg_envelope m) = None) as He'.
  { intros m Hm. apply He. by apply (limit_to_elem (Some n) ms). }
  cbn [lo_rows complete_async_list].
  rewrite (page_rows _ _ _ _ _ t Hok Hd Hw Hpage He'), (page_rows _ _ _ _ _ t' Hok Hd Hw Hl He).
  f_equal. rewrite Hlim. cbn. by rewrite fmap_take, take_take, Nat.min_id.
Qed.

(** ** Buckets *)

Definition bucket_of_display (b : DisplayBucket) : MailboxBucket :=
  match b with
  | Bucket_Unread => MailboxBucket_Unread
  | Bucket_PendingAck => MailboxBucket_PendingAck
  | Bucket_History => MailboxBucket_History
  end.

(** The query and the code agree on the bucket of a message: the SQL
    expression that counts a stored row puts it into the bucket its decoded
    message is displayed in, when an acknowledged message is read and a message
    asks for an acknowledgement exactly when it has a pending time. *)
Theorem sql_bucket_agrees j e :
  decode_envelope (m_envelope_json (j_message j)) = Some e ->
  is_Some (j_state j) ->
  (sql_acknowledged_at j = env_acknowledged_at (apply_state e (j_state j))) ->
  (env_requires_ack e = true <-> is_Some (sql_pending_ack_at j)) ->
  (is_Some (sql_acknowledged_at j) -> sql_read j = true) ->
  sql_bucket j
  = bucket_of_display (display_bucket_for_class (classify_message (apply_state e (j_state j)))).
Proof.
  intros He [s Hs] Ha Hp Hr. unfold sql_bucket, sql_is_pending.
  assert (sql_read j = env_read (apply_state e (j_state j))) as Hread by (unfold sql_read; by rewrite Hs).
  assert (env_requires_ack (apply_state e (j_state j)) = env_requires_ack e) as Hreq by (by rewrite Hs).
  unfold classify_message, derive_ack_state, derive_ack_requirement, derive_read_state.
  rewrite Hreq, <- Hread, <- Ha.
  destruct (env_requires_ack e) eqn:Ereq; cbn [negb].
  - rewrite (bool_decide_eq_true_2 (is_Some (sql_pending_ack_at j))) by (by apply Hp).
    destruct (sql_acknowledged_at j) as [x|] eqn:Ex.
    + rewrite (Hr ltac:(by eexists)). done.
    + by destruct (sql_read j).
  - rewrite (bool_decide_eq_false_2 (is_Some (sql_pending_ack_at j))) by (intros H; apply Hp in H; congruence).
    by destruct (sql_read j).
Qed.

(** ** Handing over a read *)


(** ** Waiting for mail *)

(** Time does not stop: every instant is reached and stays behind. *)
Definition time_passes : Prop := forall z : Z, exists n0, forall n, (n0 <= n)%nat -> (z <= instant_at n)%Z.

Lemma read_deadline_ticks deadline w o w' :
  read_deadline deadline w = (o, w') -> (ticks w < ticks w')%nat.
Proof.
  unfold read_deadline, remaining, instant_now, mbind, M_bind, st_mbind, st_bind, mret, M_ret, st_ret.
  cbn. destruct (_ <? _)%Z; cbn; intros [= _ <-]; cbn; lia.
Qed.

Lemma submit_ticks {A} (q : IsoTimestamp -> Db -> Outcome AtmError A) w o w' :
  submit q w = (o, w') -> (ticks w < ticks w')%nat.
Proof.
  unfold submit. destruct (lane_fault _); [intros [= _ <-]; cbn; lia|].
  destruct (q _ _); intros [= _ <-]; cbn; lia.
Qed.

Lemma count_ticks scope f g w o w' : submit_count scope f g w = (o, w') -> (ticks w <= ticks w')%nat.
Proof.
  unfold submit_count. destruct (scope_mismatch _ _); [by intros [= _ <-]|].
  intros H%submit_ticks. lia.
Qed.

Lemma select_one_ticks scope request deadline w found w' :
  select_one_for_read scope request deadline w = (Ok found, w') -> (ticks w < ticks w')%nat.
Proof.
  unfold select_one_for_read. intros (sel & w1 & H1 & H)%run_bind_ok_inv.
  apply run_bind_ok_inv in H as (z & w2 & H2%read_deadline_ticks & H).
  apply run_bind_ok_inv in H as (counts & w3 & H3%count_ticks & H).
  unfold mret, M_ret, st_ret in H. injection H as _ <-.
  unfold select_matching in H1. apply run_bind_ok_inv in H1 as (? & v1 & G1%read_deadline_ticks & H).
  apply run_bind_ok_inv in H as (? & v2 & G2%count_ticks & H).
  apply run_bind_ok_inv in H as (? & v3 & G3%read_deadline_ticks & H).
  apply run_bind_ok_inv in H as (? & v4 & G4 & H).
  assert (ticks v3 <= ticks v4)%nat.
  { revert G4. unfold submit_matching_list. destruct (scope_mismatch _ _); [by intros [= _ <-]|].
    intros G4%submit_ticks. lia. }
  apply run_bind_ok_inv in H as (? & v5 & G5 & H). unfold select_candidates in G5. injection G5 as _ <-.
  unfold mret, M_ret, st_ret in H. injection H as _ <-. cbn in *. lia.
Qed.

Lemma wait_returns fuel scope request deadline wait n0 w :
  (forall n, (n0 <= n)%nat -> wait <= instant_at n)%Z -> (n0 <= ticks w + fuel)%nat ->
  (wait_for_mail (S fuel) scope request deadline wait w).1 <> Ok None.
Proof.
  intros Hn0. revert w. induction fuel as [|fuel IH]; intros w Hf;
    remember (S _) as k eqn:Ek; destruct k as [|k]; try done; injection Ek as ->; cbn [wait_for_mail];
    unfold mbind at 1, M_bind, st_mbind, st_bind;
    destruct (select_one_for_read scope request deadline w) as [[found|e|] w1] eqn:H1; try done;
    apply select_one_ticks in H1;
    (destruct (negb _); [done|]);
    unfold mbind at 1, M_bind, st_mbind, st_bind; cbn [instant_now];
    destruct (wait <=? instant_at (ticks w1))%Z eqn:Hle; try done.
  - apply Z.leb_gt in Hle. specialize (Hn0 (ticks w1) ltac:(lia)). lia.
  - unfold remaining, instant_now, ok_or, mbind, M_bind, st_mbind, st_bind, mret, M_ret, st_ret, fail.
    cbn. destruct (_ <? _)%Z; cbn; [|done]. destruct (_ =? 0)%Z; [done|].
    apply IH. cbn. lia.
Qed.

(** C29: A read that waits for mail ends.  While time passes, whatever other
    clients commit and whichever queries fail, there is a number of looks at the
    mailbox after which the wait has returned a selection or an error. *)
Theorem waiting_read_ends scope request deadline timeout w :
  time_passes ->
  exists fuel, forall more,
    (select_for_read (fuel + more) scope request deadline timeout w).1 <> Ok None.
Proof.
  intros Ht. unfold select_for_read. destruct timeout as [timeout|].
  - destruct (Ht (instant_at (ticks w) + timeout)%Z) as [n0 Hn0]. exists (S n0). intros more.
    apply (wait_returns (n0 + more) scope request deadline _ n0 (mkWorld (db w) (S (ticks w))) Hn0).
    cbn. lia.
  - exists 0%nat. intros more. unfold mbind, M_bind, st_mbind, st_bind.
    by destruct (select_one_for_read scope request deadline w) as [[]].
Qed.
End ReadDisplay.

(** ** The theorems on [bob]'s mailbox *)

(** [bob] reads without a selector. *)
Definition plain_read : Outcome AtmError (option (ReadOutcome * StateHandoffLifecycle)) * World :=
  runtime_read 1 active_handoff (read_by actionable) a_day mailbox_world.

Definition plain_outcome : option (ReadOutcome * StateHandoffLifecycle) :=
  match plain_read.1 with Ok o => o | _ => None end.

Lemma plain_read_runs :
  exists outcome lifecycle cm,
    runtime_read 1 active_handoff (read_by actionable) a_day mailbox_world
      = (Ok (Some (outcome, lifecycle)), plain_read.2)
    /\ ro_message outcome = Some cm /\ env_text (cm_envelope cm) = "to staging only"
    /\ cm_source_path cm = "atm:2" /\ ro_mutation_applied outcome = true.
Proof.
  assert (match plain_read.1 with
          | Ok (Some (outcome, _)) =>
            match ro_message outcome with
            | Some cm => String.eqb (env_text (cm_envelope cm)) "to staging only"
                         && String.eqb (cm_source_path cm) "atm:2" && ro_mutation_applied outcome
            | None => false
            end
          | _ => false
          end = true) as H by (vm_compute; reflexivity).
  change (runtime_read 1 active_handoff (read_by actionable) a_day mailbox_world) with plain_read.
  destruct plain_read as [[[[outcome lifecycle]|]|e|] w']; try discriminate H. cbn [fst snd] in *.
  destruct (ro_message outcome) as [cm|] eqn:Ecm; [|discriminate H].
  apply andb_true_iff in H as [[H1 H2]%andb_true_iff H3].
  apply String.eqb_eq in H1, H2. exists outcome, lifecycle, cm. by split_and!.
Qed.

Lemma read_displays_stored_message_witness :
  exists cm e state, env_text (cm_envelope cm) = "to staging only" /\ cm_envelope cm = apply_state e state.
Proof.
  destruct plain_read_runs as (outcome & lifecycle & cm & Hrun & Hm & Ht & _).
  destruct (read_displays_stored_message 1 active_handoff (read_by actionable) a_day mailbox_world
    outcome lifecycle _ cm mailbox_world_ok ltac:(intros n d H; exact H) Hrun Hm)
    as (k & d & j & e & _ & _ & _ & _ & _ & _ & _ & _ & _ & He).
  exists cm, e, (j_state j). split; [exact Ht|exact He].
Defined.


(** A page without a limit. *)
Definition whole_page (request : MailboxSelectionRequest) : Outcome AtmError (list Message) :=
  list_matching_messages 100 (db mailbox_world) bob_scope
    (mkListQuery (mailbox_filters bob_scope request) None).
Definition page_messages (o : Outcome AtmError (list Message)) : list Message :=
  match o with Ok ms => ms | _ => [] end.

Lemma whole_page_ok request :
  match whole_page request with Ok _ => true | _ => false end = true ->
  whole_page request = Ok (page_messages (whole_page request)).
Proof. by destruct (whole_page request). Qed.

(** When no message expires, the hour of a query does not matter. *)
Definition never_expires (j : JoinedRow) : bool :=
  bool_decide (j_state j ≫= s_expires_at = None)
  && bool_decide (se_expires_at (m_envelope_json (j_message j)) = None).

Lemma never_expires_unexpired at_ j : never_expires j = true -> sql_unexpired at_ j = true.
Proof.
  intros [H1 H2]%andb_true_iff. apply bool_decide_eq_true in H1, H2. unfold sql_unexpired.
  by rewrite H1, H2.
Qed.

Lemma matching_any_time at_ at' d filters :
  forallb never_expires (joined_rows d) = true ->
  matching_rows at_ d filters = matching_rows at' d filters.
Proof.
  rewrite forallb_forall. intros Hrows. unfold matching_rows. f_equal. apply filter_ext_in. intros j Hj.
  unfold sql_matches, message_state_clause. rewrite !never_expires_unexpired by auto.
  assert (sql_current at_ d j = sql_current at' d j) as ->; [|done].
  unfold sql_current. do 2 f_equal. clear Hj. induction (joined_rows d) as [|j' rows IH]; [done|]. cbn.
  rewrite IH by (intros x Hx; apply Hrows; by right). f_equal. unfold is_live_successor.
  by rewrite !never_expires_unexpired by (apply Hrows; by left).
Qed.

(** The read for the chat [c7]. *)
Definition chat_read : Outcome AtmError (option (ReadOutcome * StateHandoffLifecycle)) * World :=
  runtime_read 1 active_handoff (read_by for_chat) a_day mailbox_world.

Lemma limited_read_starves_witness :
  (exists outcome w', chat_read = (Ok (Some (outcome, active_handoff)), w') /\ ro_message outcome = None)
  /\ existsb (fun m => bool_decide (env_destination_chat_id (msg_envelope m) = Some "c7"))
       (page_messages (whole_page for_chat)) = true.
Proof.
  split; [|vm_compute; reflexivity].
  assert (match chat_read.1 with Ok (Some _) => true | _ => false end = true) as Hends
    by (vm_compute; reflexivity).
  destruct chat_read as [[[[outcome lifecycle]|]|e|] w'] eqn:Hrun; try discriminate Hends.
  assert (forall d, others (db mailbox_world) d -> d = db mailbox_world) as Halone.
  { intros d Hd. induction Hd as [|d d1 d2 [n ->] _ IH]; [reflexivity|]. exact IH. }
  destruct (limited_read_starves 1 active_handoff (read_by for_chat) a_day mailbox_world outcome lifecycle w')
    as [Hnone ->].
  - intros d ->%Halone. exact mailbox_world_ok.
  - intros k d ->%Halone. cbn [rc_scope rc_selection read_by].
    exists (hd instruction (page_messages (whole_page for_chat))), (tail (page_messages (whole_page for_chat))).
    split; [|vm_compute; reflexivity]. unfold list_matching_messages. cbn [lq_filters lq_limit].
    rewrite (matching_any_time _ 100) by (vm_compute; reflexivity).
    change (whole_page for_chat = Ok (hd instruction (page_messages (whole_page for_chat))
                                        :: tail (page_messages (whole_page for_chat)))).
    rewrite (whole_page_ok for_chat) at 1 by (vm_compute; reflexivity).
    assert (length (page_messages (whole_page for_chat)) = 2%nat) as Hlen by (vm_compute; reflexivity).
    destruct (page_messages (whole_page for_chat)) as [|m l]; [discriminate Hlen|reflexivity].
  - exact Hrun.
  - exists outcome, w'. split; [reflexivity|exact Hnone].
Defined.

Definition row_of (key : MessageKey) : list JoinedRow :=
  filter (fun j => (j_key j).2 = key) (joined_rows (db mailbox_world)).

Lemma row_of_joined key x : row_of key = [x] -> x ∈ joined_rows (db mailbox_world).
Proof.
  unfold row_of. generalize (joined_rows (db mailbox_world)) as rows. intros rows Hx.
  assert (x ∈ filter (fun j => (j_key j).2 = key) rows) as Hin by (rewrite Hx; left).
  by apply list_elem_of_filter in Hin as [_ Hin].
Qed.

Lemma superseded_id_unreadable_witness :
  selected (select_mailbox_candidates 0
    (selection_candidate <$> page_messages (whole_page (by_message_id 1))) (by_message_id 1)) = [].
Proof.
  assert (exists j j', row_of "atm:1" = [j] /\ row_of "atm:2" = [j']
    /\ (j_key j).1 = ("alpha", "bob") /\ m_message_id (j_message j) = Some 1%N
    /\ is_live_successor 100 j j' = true) as (j & j' & E & E' & Hk & Hi & Hs).
  { assert (match row_of "atm:1", row_of "atm:2" with
            | [j], [j'] => bool_decide ((j_key j).1 = ("alpha", "bob"))
                           && bool_decide (m_message_id (j_message j) = Some 1%N)
                           && is_live_successor 100 j j'
            | _, _ => false end = true) as H by (vm_compute; reflexivity).
    destruct (row_of "atm:1") as [|j [|]], (row_of "atm:2") as [|j' [|]]; try discriminate H.
    apply andb_true_iff in H as [[H1 H2]%andb_true_iff H3].
    exists j, j'. apply bool_decide_eq_true in H1, H2. by split_and!. }
  apply (superseded_id_unreadable 100 (db mailbox_world) bob_scope (by_message_id 1) 1 None 0 _ j j'
    mailbox_world_ok eq_refl (whole_page_ok (by_message_id 1) ltac:(vm_compute; reflexivity))
    (row_of_joined _ _ E) (row_of_joined _ _ E') Hk Hi Hs).
Defined.

Definition list_everything : AsyncListCommand :=
  mkListCommand bob_scope (mkSelectionRequest Selection_All None None None None None None None)
    false Selection_All (Some 1%nat) false.

Lemma mailbox_world_times : distinct_times (db mailbox_world).
Proof.
  intros j j' Hj Hj' _ Ht.
  assert (forallb (fun a => forallb (fun b =>
      bool_decide (j_key a = j_key b)
      || negb (m_message_at (j_message a) =? m_message_at (j_message b))%Z)
      (joined_rows (db mailbox_world))) (joined_rows (db mailbox_world)) = true) as H
    by (vm_compute; reflexivity).
  rewrite forallb_forall in H. apply list_elem_of_In in Hj as Ij. specialize (H j Ij).
  rewrite forallb_forall in H. apply list_elem_of_In in Hj' as Ij'. specialize (H j' Ij').
  apply orb_true_iff in H as [H|H].
  - apply bool_decide_eq_true in H. exact (joined_key_inj _ j j' Hj Hj' H).
  - rewrite Ht, Z.eqb_refl in H. discriminate H.
Qed.

Lemma list_pushdown_sound_witness :
  exists page,
    list_matching_messages 100 (db mailbox_world) bob_scope
      (mkListQuery (mailbox_filters bob_scope (lc_selection list_everything)) (Some 1%nat)) = Ok page
    /\ lo_rows (complete_async_list list_everything
          (select_mailbox_candidates 0 (selection_candidate <$> page) (lc_selection list_everything)))
       = lo_rows (complete_async_list list_everything
          (select_mailbox_candidates 0
             (selection_candidate <$> page_messages (whole_page (lc_selection list_everything)))
             (lc_selection list_everything))).
Proof.
  apply (list_pushdown_sound 100 (db mailbox_world) list_everything 1 _ 0 0 mailbox_world_ok
    mailbox_world_times eq_refl eq_refl
    (whole_page_ok (lc_selection list_everything) ltac:(vm_compute; reflexivity))).
  assert (forallb (fun m => bool_decide (env_expires_at (msg_envelope m) = None))
    (page_messages (whole_page (lc_selection list_everything))) = true) as H by (vm_compute; reflexivity).
  rewrite forallb_forall in H. intros m Hm. apply list_elem_of_In in Hm. apply H in Hm.
  apply (bool_decide_eq_true_1 _ Hm).
Defined.

Lemma sql_bucket_agrees_witness :
  exists j, row_of "atm:3" = [j] /\ sql_bucket j = MailboxBucket_PendingAck.
Proof.
  destruct (row_of "atm:3") as [|j [|]] eqn:E.
  1,3: assert (length (row_of "atm:3") = 1%nat) as H by (vm_compute; reflexivity); rewrite E in H; discriminate H.
  exists j. split; [reflexivity|].
  assert (match row_of "atm:3" with
    | [j] => match decode_envelope (m_envelope_json (j_message j)) with
             | Some e => bool_decide (is_Some (j_state j))
                 && bool_decide (sql_acknowledged_at j = env_acknowledged_at (apply_state e (j_state j)))
                 && env_requires_ack e && bool_decide (is_Some (sql_pending_ack_at j))
                 && bool_decide (sql_acknowledged_at j = None)
                 && bool_decide (bucket_of_display (display_bucket_for_class
                      (classify_message (apply_state e (j_state j)))) = MailboxBucket_PendingAck)
             | None => false end
    | _ => false end = true) as H by (vm_compute; reflexivity).
  rewrite E in H. clear E. destruct (decode_envelope _) as [e|] eqn:He; [|discriminate H].
  repeat (apply andb_true_iff in H as [H ?]).
  repeat match goal with H : bool_decide _ = true |- _ => apply bool_decide_eq_true in H end.
  erewrite (sql_bucket_agrees j e He); [eassumption|done|done|done|].
  intros [x Hx]. congruence.
Defined.

Lemma demo_time_passes : time_passes.
Proof.
  intros z. exists (Z.to_nat z). intros n Hn. cbn.
  assert (z <= Z.of_nat n)%Z by lia. nia.
Qed.

Lemma waiting_read_ends_witness :
  exists fuel, forall more,
    (select_for_read (fuel + more) bob_scope for_chat a_day (Some 1000000000%Z) mailbox_world).1
    <> Ok None.
Proof. exact (waiting_read_ends bob_scope for_chat a_day (Some 1000000000%Z) mailbox_world demo_time_passes). Defined.
