(* ===== verification/TaskProps.v ===== *)
(** * What the task ledger promises

    The theorems about the operations on one task: each is evaluated on the
    store of [Demo.v]. *)

From S2P Require Import Prelude ErrorCodes Types TaskState Database TaskCodec TaskQueue QueueFacts.
From S2P Require Import LedgerInv EventLog PlacementSpec MailStore MailSpec TaskOps.
From S2P Require Import TaskStartSpec TaskMoveSpec TaskAssignSpec TaskCloseSpec.
From S2P Require Import Admission Writer WriterInv WriterSpec Demo.
From stdpp Require Import base gmap strings list numbers sorting pretty.
Local Open Scope Z_scope.
Local Open Scope string_scope.
Local Open Scope list_scope.

Section LedgerProps.
  Context {rt : Runtime} {rtok : RuntimeOk rt}.

(** Renumbering a member's open tasks stores exactly the positions 1..n in
    the requested order, whatever order SQLite visits the rows in; the unique
    index on positions is never violated and no other member's queue moves. *)
Theorem renumber_queue_exact team agent order w :
  sql_ok (tasks (db w)) -> NoDup order -> covers (tasks (db w)) team agent order ->
  max_position (open_rows team agent (tasks (db w))) + Z.of_nat (length order) <= i64_max ->
  exists ts', renumber_queue team agent order w = (Ok tt, with_db (set_tasks ts') w)
    /\ sql_ok ts' /\ is_queue ts' team agent order
    /\ (forall team' agent' q, (team', agent') <> (team, agent) ->
          is_queue (tasks (db w)) team' agent' q -> is_queue ts' team' agent' q)
    /\ forall k, option_Forall2 repositioned (tasks (db w) !! k) (ts' !! k).
Proof.
  intros Hok Hnd Hcov Hmax. exists (renumbered (tasks (db w)) team order).
  destruct (renumber_queue_run team agent order w Hok Hnd Hcov Hmax) as [Hrun Hok'].
  split_and!; [done|done|by apply renumbered_is_queue| |].
  - intros. by eapply renumbered_is_queue_other.
  - intros k. apply renumbered_repositioned.
Qed.

(** Appending a well-typed event always succeeds, numbers it directly after
    the task's previous event, and stores a row that reads back as the event
    returned to the caller; the log stays numbered 1, 2, 3, ... per task. *)
Theorem append_task_event_total draft from to w :
  events_ok (task_events (db w)) ->
  task_event_state (draft_from_state draft) (draft_close_outcome draft) = Ok from ->
  task_event_state (draft_to_state draft) (draft_close_outcome draft) = Ok to ->
  exists ev row,
    append_task_event draft w
    = (Ok ev, with_db (set_task_events (task_events (db w) ++ [row])) w)
    /\ decode_event_row row = Ok ev
    /\ ev_seq ev = Z.of_nat (length (task_seqs (draft_team draft) (draft_task_id draft)
                                       (task_events (db w)))) + 1
    /\ ev_from_state ev = from /\ ev_to_state ev = to
    /\ events_ok (task_events (db w) ++ [row]).
Proof.
  intros Hok Hf Ht.
  exists (event_typed draft (next_seq draft (task_events (db w))) from to),
    (event_sql draft (next_seq draft (task_events (db w)))).
  split_and!; [by apply append_task_event_run|by apply event_sql_decodes| |done..|].
  - simpl. by apply next_seq_events_ok.
  - exact (logged_events_ok draft (db w) from to Hf Ht Hok).
Qed.

(** C7: every branch of starting a task.  A start that succeeds was sent by the
    assignee of a waiting task with fewer active tasks than the roster allows;
    the task becomes the last active one, the waiting tasks keep their order,
    no other queue changes and one [Started] event is logged.  A refused start
    changes nothing, and a start never panics. *)
Theorem task_start_correct record id w :
  let team := msg_team record in
  let from := env_from (msg_envelope record) in
  ledger_ok (tasks (db w)) -> queues_bounded (tasks (db w)) ->
  match apply_task_start record id w with
  | (Ok (agent, ev), w') =>
    agent = from
    /\ exists qa qw m,
      member_queue (tasks (db w)) team from qa qw /\ id ∈ qw
      /\ member_limit (db w) team from = Some m /\ Z.of_nat (length (qa ++ [id])) <= m
      /\ ledger_ok (tasks (db w'))
      /\ member_queue (tasks (db w')) team from (qa ++ [id]) (retain_ne id qw)
      /\ others_keep (tasks (db w)) (tasks (db w')) team from
      /\ appended (set_tasks (tasks (db w')) (db w)) (db w') [ev]
      /\ ev_event ev = TaskEventKind_Started
      /\ ev_from_state ev = Some TaskState_Assigned /\ ev_to_state ev = Some TaskState_Active
  | (Err e, w') => w' = w /\ start_refusal (db w) record id e
  | (Panic, _) => False
  end.
Proof.
  intros team from Hl Hb.
  destruct (start_cases record id w Hl Hb)
    as [(e & -> & Href)|(r & qa & qw & m & Hrow & Ho & Hs & Hm & Hlim & Hlt & ->)]; [done|].
  split; [done|]. exists qa, qw, m.
  destruct (start_order _ _ _ _ _ _ _ Hm Hrow Ho Hs) as (_ & Hin & _).
  destruct (start_write_run record id _ r qa qw w Hl Hb Hm Hrow Ho Hs) as (_ & Hl' & Hm' & Hok).
  split_and!; try done; [rewrite length_app; simpl; lia|].
  by eapply (logged_appended (started_draft record id from) (set_tasks _ (db w))).
Qed.

(** A start that meets the conditions is never refused. *)
Theorem task_start_admits record id r qa qw m w :
  let team := msg_team record in
  let from := env_from (msg_envelope record) in
  ledger_ok (tasks (db w)) -> queues_bounded (tasks (db w)) ->
  tasks (db w) !! (team, id) = Some r -> t_state r = "assigned" -> t_assignee r = from ->
  member_queue (tasks (db w)) team from qa qw ->
  member_limit (db w) team from = Some m -> Z.of_nat (length qa) < m ->
  exists ev w', apply_task_start record id w = (Ok (from, ev), w').
Proof.
  intros team from Hl Hb Hr Hs Ha Hm Hlim Hlt.
  destruct (start_cases record id w Hl Hb)
    as [(e & _ & Href)|(r0 & qa0 & qw0 & m0 & _ & _ & _ & _ & _ & _ & ->)]; [|by eexists _, _].
  exfalso. subst team from. destruct Href as [Hn|r1 H1 H2|r1 H1 H2 H3|r1 H1 H2 H3|r1 H1 H2 H3 H4|r1 qa1 qw1 m1 rec H1 H2 H3 H4 H5 H6];
    try congruence; rewrite H3 in *; try congruence.
  destruct (member_queue_unique _ _ _ _ _ _ _ Hm H4) as [-> _].
  rewrite Hlim in H5. injection H5 as ->. lia.
Qed.

(** C10: every branch of moving a task.  A waiting task is moved to the place its
    target names among the waiting tasks, behind the active ones; an active task
    stays where it is; the reported positions are the task's places before and
    after, no other queue changes and one event is logged.  A refused move
    changes nothing, and a move never panics. *)
Theorem task_move_correct team id actor target at_ w :
  ledger_ok (tasks (db w)) -> queues_bounded (tasks (db w)) ->
  match apply_task_move team id actor target at_ w with
  | (Ok mv, w') =>
    let agent := mv_assignee mv in
    exists r qa qw qw',
      tasks (db w) !! (team, id) = Some r /\ open_of team agent (team, id) r
      /\ member_queue (tasks (db w)) team agent qa qw
      /\ (t_state r = "active" /\ qw' = qw \/
          t_state r = "assigned" /\ place target id (retain_ne id qw) = Some qw')
      /\ ledger_ok (tasks (db w')) /\ member_queue (tasks (db w')) team agent qa qw'
      /\ others_keep (tasks (db w)) (tasks (db w')) team agent
      /\ (qa ++ qw) !! Z.to_nat (mv_from mv - 1) = Some id
      /\ (qa ++ qw') !! Z.to_nat (mv_to mv - 1) = Some id
      /\ appended (set_tasks (tasks (db w')) (db w)) (db w') [mv_event mv]
  | (Err e, w') => w' = w /\ move_refusal (db w) team id actor target e
  | (Panic, _) => False
  end.
Proof.
  intros Hl Hb.
  destruct (move_cases team id actor target at_ w Hl Hb)
    as [(e & -> & Href)|(agent & r & qa & qw & i & Hrow & Ho & Hm & Hi & [(Hs & ->)|(qw' & j & Hs & Hpl & Hj & ->)])];
    [done|..]; simpl.
  - exists r, qa, qw, qw. replace (Z.to_nat (Z.of_nat i + 1 - 1)) with i by lia.
    split_and!; try done; [by left|apply others_keep_refl|].
    rewrite set_tasks_id.
    by eapply (logged_appended (move_draft team id agent actor at_ TaskState_Active _ _) (db w)).
  - exists r, qa, qw, qw'. replace (Z.to_nat (Z.of_nat i + 1 - 1)) with i by lia.
    replace (Z.to_nat (Z.of_nat j + 1 - 1)) with j by lia.
    destruct (move_write_run team id agent r qa qw target qw' w) as (_ & Hl' & Hm' & Hot); [done..|].
    split_and!; try done; [by right|].
    by eapply (logged_appended (move_draft team id agent actor at_ TaskState_Assigned _ _)
                 (set_tasks _ (db w))).
Qed.

(** An assignment without a placement of a task that is not open. *)
Lemma assign_at_end record id message_id qa qw w :
  let team := msg_team record in
  let agent := msg_agent record in
  ledger_ok (tasks (db w)) -> queues_bounded (tasks (db w)) ->
  env_message_id (msg_envelope record) = Some message_id ->
  (forall r, tasks (db w) !! (team, id) = Some r -> t_state r = "complete") ->
  member_queue (tasks (db w)) team agent qa qw ->
  exists ev w', apply_task_assignment record id None w
      = (Ok (mkTaskAssignmentApplied (Z.of_nat (length (qa ++ qw)) + 1) None [ev]), w')
    /\ ledger_ok (tasks (db w')) /\ member_queue (tasks (db w')) team agent qa (qw ++ [id])
    /\ others_keep (tasks (db w)) (tasks (db w')) team agent
    /\ appended (set_tasks (tasks (db w')) (db w)) (db w') [ev]
    /\ ev_event ev = match tasks (db w) !! (team, id) with
                     | Some _ => TaskEventKind_Reopened
                     | None => TaskEventKind_Assigned
                     end.
Proof.
  intros team agent Hl Hb Hmid Hcl Hm. subst team agent.
  destruct (apply_task_assignment_run record id None w Hl Hb)
    as [e Hn|r m Hm1 Hrow Hs Ha|row qa1 qw1 other w' Hpr Hm1 Hp Hno
       |row m qa1 qw1 qw' ev moved ts' d' p Hm1 Hpr Hq Hpl Has Happ Hlog Hp1 Hlk];
    [congruence|by apply Hcl in Hrow|congruence|].
  destruct (member_queue_unique _ _ _ _ _ _ _ Hm Hq) as [<- <-].
  assert (Hnin : id ∉ qa ++ qw) by (by eapply prior_not_queued).
  simpl in Hpl. rewrite retain_ne_notin in Hpl by set_solver. injection Hpl as <-.
  destruct Hlog as (Hk & _ & _ & Hmv & _).
  destruct moved as [mv|]; [by destruct (Hmv (ex_intro _ _ eq_refl))|].
  assert (Hrow : previous_of row (msg_agent record) = None
    /\ assign_kind row = match tasks (db w) !! (msg_team record, id) with
                         | Some _ => TaskEventKind_Reopened
                         | None => TaskEventKind_Assigned
                         end).
  { destruct Hpr as [Hn|r v Hr Hv Hc|r v Hr Hv Hc]; [by rewrite Hn|rewrite Hr|by apply Hcl in Hr].
    simpl. destruct (is_open (row_state v)) eqn:Ho; [|done]. by apply (view_open _ _ _ Hv) in Ho. }
  destruct Hrow as [-> Hkind]. rewrite Hkind in Hk.
  destruct Has as (Hl' & Hm' & Hdrop & _). destruct Happ as [(rows & -> & Hdec) Hev].
  assert (p = Z.of_nat (length (qa ++ qw)) + 1) as ->.
  { rewrite app_assoc in Hlk.
    assert (Hlast : ((qa ++ qw) ++ [id]) !! length (qa ++ qw) = Some id)
      by (rewrite lookup_app_r, Nat.sub_diag by lia; done).
    assert (Hnd : NoDup ((qa ++ qw) ++ [id]))
      by (rewrite <- app_assoc; by eapply is_queue_NoDup, Hm').
    pose proof (NoDup_lookup _ _ _ _ Hnd Hlk Hlast). lia. }
  exists ev. eexists. split; [done|]. split_and!; try done; [|by split; [exists rows|]].
  intros team' agent' qa' qw' Hne Hm2.
  destruct (drop_task_notin _ (msg_team record) id _ _ _ _ Hm2) as [Hd1 Hd2].
  { intros r Hr (_ & _ & Ho). by apply Ho, Hcl. }
  rewrite <- Hd1, <- Hd2. by apply Hdrop.
Qed.

(** Assigning a task id that the team has not used puts a new waiting task
    at the end of the assignee's queue; it always succeeds, reports that place,
    disturbs no other queue, logs one [Assigned] event and sends no notice. *)
Theorem assign_new_task record id message_id qa qw w :
  let team := msg_team record in
  let agent := msg_agent record in
  ledger_ok (tasks (db w)) -> queues_bounded (tasks (db w)) ->
  env_message_id (msg_envelope record) = Some message_id ->
  tasks (db w) !! (team, id) = None ->
  member_queue (tasks (db w)) team agent qa qw ->
  exists ev w', apply_task_assignment record id None w
      = (Ok (mkTaskAssignmentApplied (Z.of_nat (length (qa ++ qw)) + 1) None [ev]), w')
    /\ ledger_ok (tasks (db w')) /\ member_queue (tasks (db w')) team agent qa (qw ++ [id])
    /\ others_keep (tasks (db w)) (tasks (db w')) team agent
    /\ appended (set_tasks (tasks (db w')) (db w)) (db w') [ev]
    /\ ev_event ev = TaskEventKind_Assigned.
Proof.
  intros team agent Hl Hb Hmid Hnone Hm. subst team agent.
  destruct (assign_at_end record id message_id qa qw w Hl Hb Hmid) as (ev & w' & Hrun & H);
    [by intros r Hr; congruence|done|]. rewrite Hnone in H. eauto.
Qed.

(** Assigning a closed task reopens it for the new assignee, at the end of
    that member's queue; it always succeeds and logs one [Reopened] event. *)
Theorem assign_closed_task record id message_id r qa qw w :
  let team := msg_team record in
  let agent := msg_agent record in
  ledger_ok (tasks (db w)) -> queues_bounded (tasks (db w)) ->
  env_message_id (msg_envelope record) = Some message_id ->
  tasks (db w) !! (team, id) = Some r -> t_state r = "complete" ->
  member_queue (tasks (db w)) team agent qa qw ->
  exists ev w', apply_task_assignment record id None w
      = (Ok (mkTaskAssignmentApplied (Z.of_nat (length (qa ++ qw)) + 1) None [ev]), w')
    /\ ledger_ok (tasks (db w')) /\ member_queue (tasks (db w')) team agent qa (qw ++ [id])
    /\ others_keep (tasks (db w)) (tasks (db w')) team agent
    /\ appended (set_tasks (tasks (db w')) (db w)) (db w') [ev]
    /\ ev_event ev = TaskEventKind_Reopened.
Proof.
  intros team agent Hl Hb Hmid Hr Hs Hm. subst team agent.
  destruct (assign_at_end record id message_id qa qw w Hl Hb Hmid) as (ev & w' & Hrun & H);
    [by intros r1 Hr1; congruence|done|]. rewrite Hr in H. eauto.
Qed.

(** Why a reassignment is refused. *)
Inductive reassign_refused (record : Message) (id : TaskId) (placement : option MoveTarget)
    (former : AgentName) (w : World) (e : AtmError) : Prop :=
| refused_no_message_id : env_message_id (msg_envelope record) = None ->
    reassign_refused record id placement former w e
| refused_placement other qa qw :
    placement = Some (MoveTarget_Before other) ->
    member_queue (tasks (db w)) (msg_team record) (msg_agent record) qa qw -> other ∉ qw ->
    e = placement_error id other (msg_agent record) ->
    reassign_refused record id placement former w e
| refused_notice w1 w2 :
    mail_messages (db w1) = mail_messages (db w) -> ticks w1 = ticks w ->
    insert_reassign_notice record id former w1 = (Err e, w2) ->
    reassign_refused record id placement former w e.

(** C9: reassigning an open task to another member takes it out of the former
    assignee's queue, keeps the order of what is left there, puts it among the
    new assignee's waiting tasks at the place asked for, resets it to waiting,
    appends the events it answers, a [Reassigned] event first, to the stored log,
    and delivers one notice, a new message in the former assignee's mailbox.  It
    is refused only when the message has no id, when it is to be placed before a
    task that does not wait in the new assignee's queue, or when the notice cannot
    be stored.  It never panics. *)
Theorem reassign_open_task record id placement r qa0 qw0 w :
  let team := msg_team record in
  let agent := msg_agent record in
  ledger_ok (tasks (db w)) -> queues_bounded (tasks (db w)) ->
  tasks (db w) !! (team, id) = Some r -> t_state r <> "complete" -> t_assignee r <> agent ->
  member_queue (tasks (db w)) team (t_assignee r) qa0 qw0 ->
  match apply_task_assignment record id placement w with
  | (Ok a, w') =>
    exists qa qw qw' ev moved n,
      member_queue (tasks (db w)) team agent qa qw
      /\ place (default MoveTarget_End placement) id (retain_ne id qw) = Some qw'
      /\ ledger_ok (tasks (db w')) /\ member_queue (tasks (db w')) team agent qa qw'
      /\ member_queue (tasks (db w')) team (t_assignee r) (retain_ne id qa0) (retain_ne id qw0)
      /\ others_drop (tasks (db w)) (tasks (db w')) team id agent
      /\ state_at (tasks (db w')) team "assigned" id
      /\ ta_task_events a = ev :: option_list moved /\ ev_event ev = TaskEventKind_Reassigned
      /\ log_extended (db w) (db w') (ta_task_events a)
      /\ ta_reassign_notice a = Some n
      /\ notice_delivered (db w) (db w') record (t_assignee r) n
  | (Err e, _) => reassign_refused record id placement (t_assignee r) w e
  | (Panic, _) => False
  end.
Proof.
  intros team agent Hl Hb Hr Hs Ha Hm0. subst team agent.
  destruct (apply_task_assignment_run record id placement w Hl Hb)
    as [e Hn|r1 m Hm1 Hrow Hs1 Ha1|row qa1 qw1 other w' Hpr Hm1 Hp Hno
       |row m qa qw qw' ev moved ts' d' p Hm1 Hpr Hq Hpl Has Happ Hlog Hp1 Hlk];
    [by apply refused_no_message_id|congruence|by eapply refused_placement|].
  assert (Hrow : exists v, row = Some v /\ row_view (msg_team record, id) r v /\ is_open (row_state v) = true).
  { destruct Hpr as [Hn|r1 v Hr1 Hv Hc|r1 v Hr1 Hv Hc Hne]; [congruence|congruence|].
    assert (r1 = r) as -> by congruence. exists v. split_and!; [done|done|]. by apply (view_open _ _ _ Hv). }
  destruct Hrow as (v & -> & Hv & Hopen).
  assert (previous_of (Some v) (msg_agent record) = Some (t_assignee r)) as ->.
  { simpl. rewrite Hopen, (view_assignee _ _ _ Hv). by rewrite bool_decide_eq_true_2. }
  unfold notified. destruct (insert_reassign_notice record id (t_assignee r) (mkWorld d' (ticks w)))
    as [on wn] eqn:Hrun.
  destruct (insert_reassign_notice_frame _ _ _ _ _ _ Hrun) as (Hnp & (Hts & Hev & _) & _ & _ & Hdel).
  destruct on as [n|e|]; [| |done].
  2:{ unfold mbind, M_bind, st_mbind, st_bind, fmap, M_fmap, st_fmap, st_bind. rewrite Hrun.
      eapply refused_notice; [| |exact Hrun]; [|done]. by destruct Happ as [(rows & -> & _) _]. }
  erewrite run_bind by (by apply run_fmap). cbv beta.
  destruct Has as (Hl' & Hm' & Hdrop & _ & q & Hnew).
  assert (log_extended (db w) (db wn) (ev :: option_list moved)) as Hext.
  { destruct (appended_log (db w) _ _ _ Happ eq_refl) as (rows & Hrows & H). exists rows. by rewrite Hev. }
  destruct Happ as [(rows & -> & _) _]. simpl in Hts. exists qa, qw, qw', ev, moved, n. rewrite Hts.
  destruct Hlog as (Hk & _). simpl in Hk. rewrite Hopen in Hk. split_and!; try done.
  - pose proof (Hdrop (msg_team record) (t_assignee r) qa0 qw0 ltac:(congruence) Hm0) as Hd.
    unfold drop_task in Hd. by rewrite !decide_True in Hd.
  - eexists. split; [exact Hnew|done].
  - exact (Hdel n eq_refl).
Qed.

(** Assigning an open task again to the member who has it only refreshes its
    text: it keeps its place and its state, and no event is logged. *)
Theorem assign_same_member record id placement message_id r w :
  ledger_ok (tasks (db w)) -> queues_bounded (tasks (db w)) ->
  env_message_id (msg_envelope record) = Some message_id ->
  tasks (db w) !! (msg_team record, id) = Some r -> t_state r <> "complete" ->
  t_assignee r = msg_agent record ->
  exists w', apply_task_assignment record id placement w
             = (Ok (mkTaskAssignmentApplied (default 1 (t_position r)) None []), w')
    /\ ledger_ok (tasks (db w')) /\ task_events (db w') = task_events (db w)
    /\ mail_messages (db w') = mail_messages (db w)
    /\ forall team agent qa qw, member_queue (tasks (db w)) team agent qa qw ->
         member_queue (tasks (db w')) team agent qa qw.
Proof.
  intros Hl Hb Hmid Hr Hs Ha.
  destruct (apply_task_assignment_run record id placement w Hl Hb)
    as [e Hn|r1 m Hm1 Hrow Hs1 Ha1|row qa1 qw1 other w' Hpr Hm1 Hp Hno
       |row m qa qw qw' ev moved ts' d' p Hm1 Hpr Hq Hpl Has Happ Hlog Hp1 Hlk];
    [congruence| |by destruct Hpr; congruence..].
  assert (r1 = r) as -> by congruence. eexists. split; [done|].
  split_and!; [by apply refresh_ledger_ok|done|done|]. intros team agent qa qw.
  eapply status_kept_member_queue. by apply refresh_status.
Qed.

(** The admission a close calls back into. *)
Context (upsert : Message -> MessageWriteOrigin -> M UpsertResult).
Context {readmits : ReadmitsExisting upsert}.

(** C8: closing an open task by its assignee or assigner, reported to the other
    of the two.  When it succeeds the task is complete with the requested
    outcome and has left the assignee's queue, whose order is kept; the other
    queues stand, the assignment message is acknowledged, and the stored log is
    what it was followed by one row, which reads back as the event that is
    answered: of the kind of the outcome, by the sender, with the reason.  When it
    fails the ledger is untouched.  It never panics. *)
Theorem task_close_by_counterparty record id outcome reason r qa qw w :
  let team := msg_team record in
  ledger_ok (tasks (db w)) -> queues_bounded (tasks (db w)) ->
  tasks (db w) !! (team, id) = Some r -> t_state r <> "complete" -> counterparty r record ->
  member_queue (tasks (db w)) team (t_assignee r) qa qw ->
  match apply_task_close upsert record id outcome reason w with
  | (Ok res, w') =>
    exists ev r', res = Applied None (Some (t_assignee r)) None None [ev]
      /\ tasks (db w') !! (team, id) = Some r' /\ t_state r' = "complete"
      /\ t_close_outcome r' = Some (TaskCloseOutcome_as_str outcome)
      /\ ledger_ok (tasks (db w'))
      /\ member_queue (tasks (db w')) team (t_assignee r) (retain_ne id qa) (retain_ne id qw)
      /\ others_keep (tasks (db w)) (tasks (db w')) team (t_assignee r)
      /\ assignment_acknowledged (db w') team (t_assignee r) (t_assignment_message_id r)
      /\ log_extended (db w) (db w') [ev] /\ ev_event ev = close_event_kind outcome
      /\ ev_actor ev = decode_actor (env_from (msg_envelope record))
      /\ ev_to_state ev = Some (TaskState_Complete outcome) /\ ev_detail ev = reason
  | (Err _, w') => ledger_same (db w) (db w')
  | (Panic, _) => False
  end.
Proof.
  intros team Hl Hb Hr Hs Hcp Hm. subst team.
  destruct (apply_task_close_run upsert record id outcome reason w Hl Hb)
    as [Hn|r1 o d' Hrow Hs1 Ho Hled Hok Hgr|r1 error ev d1 d' Hrow Hs1 Hncp Hc Hled Hok Hgr Happ Hk Hft
       |r1 e w' Hrow Hs1 Hcp1 Hled
       |r1 qa1 qw1 ev w1 d' Hrow Hs1 Hcp1 Hm1 Hled Hok Hmsg Hack Happ Hto Hd Hk Hactor];
    try congruence. assert (r1 = r) as -> by congruence.
  assert (log_extended (db w) d' [ev]) as Hlog by (eapply appended_log; [exact Happ|apply Hled]).
  destruct (member_queue_unique _ _ _ _ _ _ _ Hm Hm1) as [<- <-].
  destruct (close_write_run record id outcome (t_assignee r) r qa qw w) as (_ & Hl' & Hm' & Hot);
    [done..|by split_and!|].
  destruct Happ as [(rows & -> & _) _].
  eexists ev, _. split; [done|]. split.
  { simpl. unfold closed_tasks. rewrite renumbered_lookup, lookup_insert_eq. simpl.
    rewrite decide_True by done.
    assert (Hno : position_of id (retain_ne id qa ++ retain_ne id qw) = None).
    { apply position_of_None. rewrite elem_of_app, !elem_of_retain_ne. naive_solver. }
    rewrite Hno. reflexivity. }
  by split_and!.
Qed.

(** A close sent by anyone else, or reported to anyone else, leaves every
    task as it was: the report is delivered as plain mail and the refusal is
    logged as one [Rejected] event that changes no state. *)
Theorem third_party_close_refused record id outcome reason r w :
  ledger_ok (tasks (db w)) -> queues_bounded (tasks (db w)) ->
  tasks (db w) !! (msg_team record, id) = Some r -> t_state r <> "complete" ->
  ~ counterparty r record ->
  exists error ev w',
    apply_task_close upsert record id outcome reason w = (Ok (RejectedReportDelivered error ev), w')
    /\ (code error = TaskNotCounterparty \/ code error = TaskStaleCounterparty)
    /\ tasks (db w') = tasks (db w) /\ mail_grows (db w) (db w')
    /\ (exists row, task_events (db w') = task_events (db w) ++ [row] /\ decode_event_row row = Ok ev)
    /\ ev_event ev = TaskEventKind_Rejected /\ ev_from_state ev = ev_to_state ev.
Proof.
  intros Hl Hb Hr Hs Hncp.
  destruct (apply_task_close_run upsert record id outcome reason w Hl Hb)
    as [Hn|r1 o d' Hrow Hs1 Ho Hled Hok Hgr|r1 error ev d1 d' Hrow Hs1 Hncp1 Hc Hled Hok Hgr Happ Hk Hft
       |r1 e w' Hrow Hs1 Hcp1 Hled
       |r1 qa1 qw1 ev w1 d' Hrow Hs1 Hcp1 Hm1 Hled Hok Hmsg Hack Happ Hto Hd];
    try congruence. assert (r1 = r) as -> by congruence.
  destruct Happ as [(rows & -> & Hrows) _]. destruct Hled as (Ht & He & _).
  inversion Hrows as [|row ? ? ? Hdec Hnil]; subst. inversion Hnil; subst.
  eexists error, ev, _. split; [done|]. simpl. rewrite Ht, He. split_and!; try done. by exists row.
Qed.

(** Closing a closed task reports the outcome it was closed with and leaves
    the ledger and its log untouched. *)
Theorem close_is_idempotent record id outcome reason r w :
  ledger_ok (tasks (db w)) -> queues_bounded (tasks (db w)) ->
  tasks (db w) !! (msg_team record, id) = Some r -> t_state r = "complete" ->
  exists o w', apply_task_close upsert record id outcome reason w
               = (Ok (Applied (Some o) None None None []), w')
    /\ t_close_outcome r = Some (TaskCloseOutcome_as_str o) /\ ledger_same (db w) (db w').
Proof.
  intros Hl Hb Hr Hs.
  destruct (apply_task_close_run upsert record id outcome reason w Hl Hb)
    as [Hn|r1 o d' Hrow Hs1 Ho Hled Hok Hgr|r1 error ev d1 d' Hrow Hs1 Hncp1 Hc Hled Hok Hgr Happ Hk Hft
       |r1 e w' Hrow Hs1 Hcp1 Hled
       |r1 qa1 qw1 ev w1 d' Hrow Hs1 Hcp1 Hm1 Hled Hok Hmsg Hack Happ Hto Hd];
    try congruence. assert (r1 = r) as -> by congruence. by eexists _, _.
Qed.
End LedgerProps.

(** ** The theorems on the store of [Demo.v] *)

Lemma renumber_queue_exact_witness :
  exists ts', renumber_queue "alpha" "bob" ["T3"; "T1"; "T2"] demo = (Ok tt, with_db (set_tasks ts') demo)
    /\ is_queue ts' "alpha" "bob" ["T3"; "T1"; "T2"].
Proof.
  destruct (renumber_queue_exact "alpha" "bob" ["T3"; "T1"; "T2"] demo) as (ts' & Hrun & _ & Hq & _).
  - apply demo_ledger.
  - apply (bool_decide_unpack _). vm_compute. exact I.
  - intros id. etrans; [|apply (is_queue_covers _ _ _ _ (proj1 demo_bob) id)]. set_solver.
  - rewrite (max_position_queue _ _ _ _ (proj1 demo_bob)). vm_compute. discriminate.
  - eauto.
Defined.

Lemma append_task_event_total_witness :
  exists ev row, append_task_event demo_draft demo
      = (Ok ev, with_db (set_task_events (task_events (db demo) ++ [row])) demo)
    /\ decode_event_row row = Ok ev.
Proof.
  destruct (append_task_event_total demo_draft (Some TaskState_Assigned) (Some TaskState_Active) demo)
    as (ev & row & Hrun & Hdec & _); [apply demo_inv|reflexivity..|eauto].
Defined.

Lemma task_start_correct_witness :
  exists ev w', apply_task_start (start "bob" 9 "T3") "T3" demo = (Ok ("bob", ev), w')
    /\ member_queue (tasks (db w')) "alpha" "bob" ["T1"; "T3"] ["T2"].
Proof.
  pose proof (task_start_correct (start "bob" 9 "T3") "T3" demo demo_ledger demo_bounded) as H.
  assert (Hs : succeeds (apply_task_start (start "bob" 9 "T3") "T3" demo) = true) by (vm_compute; reflexivity).
  destruct (apply_task_start (start "bob" 9 "T3") "T3" demo) as [[[a ev]|e|] w']; try done.
  destruct H as (-> & qa & qw & m & Hm & _ & _ & _ & _ & Hm' & _).
  destruct (member_queue_unique _ _ _ _ _ _ _ Hm demo_bob) as [-> ->].
  exists ev, w'. split; [reflexivity|exact Hm'].
Defined.

Lemma task_start_admits_witness :
  exists ev w', apply_task_start (start "bob" 9 "T2") "T2" demo = (Ok ("bob", ev), w').
Proof.
  apply (task_start_admits (start "bob" 9 "T2") "T2" (row_at demo "T2") ["T1"] ["T2"; "T3"] 2 demo demo_ledger demo_bounded).
  - apply row_at_found. vm_compute. reflexivity.
  - vm_compute. reflexivity.
  - vm_compute. reflexivity.
  - exact demo_bob.
  - vm_compute. reflexivity.
  - vm_compute. reflexivity.
Defined.

Lemma task_move_correct_witness :
  exists mv w', apply_task_move "alpha" "T3" "alice" (MoveTarget_Before "T2") 70 demo = (Ok mv, w')
    /\ member_queue (tasks (db w')) "alpha" (mv_assignee mv) ["T1"] ["T3"; "T2"].
Proof.
  pose proof (task_move_correct "alpha" "T3" "alice" (MoveTarget_Before "T2") 70 demo demo_ledger demo_bounded) as H.
  assert (Hs : succeeds (apply_task_move "alpha" "T3" "alice" (MoveTarget_Before "T2") 70 demo) = true)
    by (vm_compute; reflexivity).
  assert (Ht : tasks (db demo) !! ("alpha", "T3") = Some (row_at demo "T3"))
    by (apply row_at_found; vm_compute; reflexivity).
  assert (Hst : t_state (row_at demo "T3") = "assigned") by (vm_compute; reflexivity).
  assert (Has : t_assignee (row_at demo "T3") = "bob") by (vm_compute; reflexivity).
  destruct (apply_task_move "alpha" "T3" "alice" (MoveTarget_Before "T2") 70 demo) as [[mv|e|] w']; [|discriminate Hs..].
  destruct H as (r & qa & qw & qw' & Hr & (_ & Ha & _) & Hm & Hpl & _ & Hm' & _).
  assert (Hb : mv_assignee mv = "bob") by (by rewrite <- Ha, (lookup_same _ _ _ Hr Ht)).
  rewrite Hb in Hm, Hm'. rewrite (lookup_same _ _ _ Hr Ht), Hst in Hpl.
  destruct (member_queue_unique _ _ _ _ _ _ _ Hm demo_bob) as [-> ->].
  destruct Hpl as [[Hc _]|[_ Hpl]]; [discriminate Hc|]. vm_compute in Hpl. injection Hpl as <-.
  exists mv, w'. split; [reflexivity|]. rewrite Hb. exact Hm'.
Defined.

Lemma assign_new_task_witness :
  exists ev w', apply_task_assignment (assign "bob" 9 "T5") "T5" None demo
                = (Ok (mkTaskAssignmentApplied 4 None [ev]), w')
    /\ member_queue (tasks (db w')) "alpha" "bob" ["T1"] ["T2"; "T3"; "T5"].
Proof.
  destruct (assign_new_task (assign "bob" 9 "T5") "T5" 9 ["T1"] ["T2"; "T3"] demo demo_ledger demo_bounded
              eq_refl) as (ev & w' & Hrun & _ & Hm & _).
  - vm_compute. reflexivity.
  - exact demo_bob.
  - exists ev, w'. split; [exact Hrun|exact Hm].
Defined.

Lemma assign_closed_task_witness :
  exists ev w', apply_task_assignment (assign "carol" 9 "T1") "T1" None closed_demo
                = (Ok (mkTaskAssignmentApplied 2 None [ev]), w')
    /\ member_queue (tasks (db w')) "alpha" "carol" [] ["T4"; "T1"].
Proof.
  destruct (assign_closed_task (assign "carol" 9 "T1") "T1" 9 (row_at closed_demo "T1") [] ["T4"] closed_demo
              (inv_ledger _ closed_demo_inv) closed_demo_bounded eq_refl) as (ev & w' & Hrun & _ & Hm & _).
  - apply row_at_found. vm_compute. reflexivity.
  - vm_compute. reflexivity.
  - apply known_queue; [apply closed_demo_inv|vm_compute; reflexivity..].
  - exists ev, w'. split; [exact Hrun|exact Hm].
Defined.

Lemma reassign_open_task_witness :
  exists a w', apply_task_assignment (assign "carol" 9 "T2") "T2" (Some MoveTarget_Head) demo = (Ok a, w')
    /\ member_queue (tasks (db w')) "alpha" "carol" [] ["T2"; "T4"]
    /\ member_queue (tasks (db w')) "alpha" "bob" ["T1"] ["T3"].
Proof.
  assert (Ha : t_assignee (row_at demo "T2") = "bob") by (vm_compute; reflexivity).
  pose proof (reassign_open_task (assign "carol" 9 "T2") "T2" (Some MoveTarget_Head) (row_at demo "T2")
    ["T1"] ["T2"; "T3"] demo demo_ledger demo_bounded) as H.
  rewrite Ha in H. specialize (H ltac:(apply row_at_found; vm_compute; reflexivity)
    ltac:(vm_compute; discriminate) ltac:(discriminate) demo_bob).
  assert (Hs : succeeds (apply_task_assignment (assign "carol" 9 "T2") "T2" (Some MoveTarget_Head) demo) = true)
    by (vm_compute; reflexivity).
  destruct (apply_task_assignment (assign "carol" 9 "T2") "T2" (Some MoveTarget_Head) demo)
    as [[a|e|] w']; [|discriminate Hs..].
  destruct H as (qa & qw & qw' & ev & moved & n & Hm & Hpl & _ & Hm1 & Hm2 & _).
  destruct (member_queue_unique _ _ _ _ _ _ _ Hm demo_carol) as [-> ->].
  vm_compute in Hpl. injection Hpl as <-.
  exists a, w'. split; [reflexivity|]. split; [exact Hm1|exact Hm2].
Defined.

Lemma assign_same_member_witness :
  exists w', apply_task_assignment (assign "bob" 9 "T3") "T3" None demo
             = (Ok (mkTaskAssignmentApplied 3 None []), w')
    /\ member_queue (tasks (db w')) "alpha" "bob" ["T1"] ["T2"; "T3"].
Proof.
  destruct (assign_same_member (assign "bob" 9 "T3") "T3" None 9 (row_at demo "T3") demo demo_ledger demo_bounded
    eq_refl) as (w' & Hrun & _ & _ & _ & Hq).
  - apply row_at_found. vm_compute. reflexivity.
  - vm_compute. discriminate.
  - vm_compute. reflexivity.
  - assert (Hp : default 1 (t_position (row_at demo "T3")) = 3) by (vm_compute; reflexivity).
    rewrite Hp in Hrun. exists w'. split; [exact Hrun|]. apply Hq, demo_bob.
Defined.

Lemma task_close_by_counterparty_witness :
  exists ev w', apply_task_close (execute_upsert_message_fuel 1) (close "bob" "alice" 9 "T1") "T1"
                  TaskCloseOutcome_Completed (Some "done") demo
                = (Ok (Applied None (Some "bob") None None [ev]), w')
    /\ member_queue (tasks (db w')) "alpha" "bob" [] ["T2"; "T3"].
Proof.
  assert (Ha : t_assignee (row_at demo "T1") = "bob") by (vm_compute; reflexivity).
  assert (Hb : t_assigner (row_at demo "T1") = "alice") by (vm_compute; reflexivity).
  pose proof (task_close_by_counterparty (execute_upsert_message_fuel 1) (close "bob" "alice" 9 "T1") "T1"
    TaskCloseOutcome_Completed (Some "done") (row_at demo "T1") ["T1"] ["T2"; "T3"] demo
    demo_ledger demo_bounded ltac:(apply row_at_found; vm_compute; reflexivity)
    ltac:(vm_compute; discriminate)
    ltac:(left; split; [exact (eq_sym Ha)|exact (eq_sym Hb)])) as H.
  rewrite Ha in H. specialize (H demo_bob).
  assert (Hs : succeeds (apply_task_close (execute_upsert_message_fuel 1) (close "bob" "alice" 9 "T1") "T1"
    TaskCloseOutcome_Completed (Some "done") demo) = true) by (vm_compute; reflexivity).
  destruct (apply_task_close (execute_upsert_message_fuel 1) (close "bob" "alice" 9 "T1") "T1"
    TaskCloseOutcome_Completed (Some "done") demo) as [[res|e|] w']; [|discriminate Hs..].
  destruct H as (ev & r' & -> & _ & _ & _ & _ & Hm & _).
  exists ev, w'. split; [reflexivity|exact Hm].
Defined.

Lemma third_party_close_refused_witness :
  exists error ev w', apply_task_close (execute_upsert_message_fuel 1) (close "carol" "alice" 9 "T1") "T1"
                        TaskCloseOutcome_Completed (Some "done") demo
                      = (Ok (RejectedReportDelivered error ev), w')
    /\ tasks (db w') = tasks (db demo).
Proof.
  assert (Ha : t_assignee (row_at demo "T1") = "bob") by (vm_compute; reflexivity).
  assert (Hb : t_assigner (row_at demo "T1") = "alice") by (vm_compute; reflexivity).
  destruct (third_party_close_refused (execute_upsert_message_fuel 1) (close "carol" "alice" 9 "T1") "T1"
    TaskCloseOutcome_Completed (Some "done") (row_at demo "T1") demo demo_ledger demo_bounded)
    as (error & ev & w' & Hrun & _ & Ht & _).
  - apply row_at_found. vm_compute. reflexivity.
  - vm_compute. discriminate.
  - unfold counterparty. rewrite Ha, Hb. vm_compute. intros [[Hc _]|(_ & Hc & _)]; discriminate Hc.
  - eauto.
Defined.

Lemma close_is_idempotent_witness :
  exists o w', apply_task_close (execute_upsert_message_fuel 1) (close "alice" "bob" 9 "T1") "T1"
                 TaskCloseOutcome_Cancelled None closed_demo
               = (Ok (Applied (Some o) None None None []), w')
    /\ o = TaskCloseOutcome_Completed.
Proof.
  destruct (close_is_idempotent (execute_upsert_message_fuel 1) (close "alice" "bob" 9 "T1") "T1"
    TaskCloseOutcome_Cancelled None (row_at closed_demo "T1") closed_demo
    (inv_ledger _ closed_demo_inv) closed_demo_bounded) as (o & w' & Hrun & Ho & _).
  - apply row_at_found. vm_compute. reflexivity.
  - vm_compute. reflexivity.
  - exists o, w'. split; [exact Hrun|].
    assert (Hc : t_close_outcome (row_at closed_demo "T1") = Some "completed") by (vm_compute; reflexivity).
    rewrite Hc in Ho. destruct o; [reflexivity|discriminate Ho..].
Defined.
