(* ===== verification/WriterProps.v ===== *)
(** * What the writer lane promises

    Atomic operations, batches, the cron fence, acknowledgements and mail
    admission; each theorem is evaluated on the store of [Demo.v]. *)

From S2P Require Import Prelude ErrorCodes Types TaskState CronTypes Database TaskCodec TaskQueue QueueFacts.
From S2P Require Import LedgerInv EventLog MailStore MailSpec TaskOps Admission Writer WriterInv WriterSpec.
From S2P Require Import Demo.
From stdpp Require Import base gmap strings list numbers sorting pretty.
Local Open Scope Z_scope.
Local Open Scope string_scope.
Local Open Scope list_scope.

Section WriterProps.
Context {rt : Runtime} {rtok : RuntimeOk rt}.

(** C1: in every store the writer can produce from an empty one, by any batches,
    refused operations and failed commits included, every member's open tasks
    are numbered 1..n with the active ones first, the event log is numbered per
    task and readable, and the mail tables agree with each other; reading a
    queue returns it. *)
Theorem reachable_store_ok w :
  reachable w ->
  ledger_ok (tasks (db w)) /\ events_ok (task_events (db w)) /\ mail_ok (db w)
  /\ forall team agent, exists qa qw,
       member_queue (tasks (db w)) team agent qa qw
       /\ queue_order team agent w = (Ok (qa ++ qw), w).
Proof.
  intros Hw. destruct (reachable_inv w Hw) as [Hl He Hm]. split_and!; [done..|].
  intros team agent. pose proof Hl as (_ & _ & Hall). destruct (Hall team agent) as (qa & qw & Hq).
  exists qa, qw. split; [done|]. by apply queue_order_run, Hq.
Qed.

(** Every queued operation keeps the store's invariant when it succeeds and
    adds at most [weight op] tasks; none panics when the caller's reply builder
    does not. *)
Theorem execute_keeps_store op w :
  store_inv (db w) -> room (weight op) (db w) -> builder_total op ->
  match execute op w with
  | (Ok _, w') =>
    store_inv (db w') /\ (size (tasks (db w')) <= size (tasks (db w)) + weight op)%nat
  | (Err _, _) => True
  | (Panic, _) => False
  end.
Proof.
  intros Hi Hr Hb. pose proof (execute_good op w Hi Hr) as Hg.
  destruct (execute op w) as [[res|e|] w']; [exact Hg|done|by apply Hg].
Qed.

(** C3: an operation of the writer is atomic: it is always answered; on success
    its effect is exactly that of the operation; on refusal the database is
    what it was, plus at most one [Rejected] audit event of a task operation,
    which is the event reported to the caller; on a panic or a failed savepoint
    it is what it was.  An operation that succeeds under a working savepoint is
    answered with its result. *)
Theorem queued_write_atomic op w :
  store_inv (db w) -> room 0 (db w) ->
  exists reply w', process_queued_write op w = (Ok reply, w')
    /\ match reply with
       | Ok c =>
         match operation c with
         | Ok result => committed_events c = []
             /\ exists clock w1, execute op (mkWorld (db w) clock) = (Ok result, w1) /\ db w' = db w1
         | Err error => audited error (db w) (db w') (committed_events c)
         | Panic => False
         end
       | Err _ => db w' = db w
       | Panic => False
       end
    /\ forall result w1, execute op (tick w) = (Ok result, w1) ->
         control_fault (ticks w) = None -> control_fault (ticks w1) = None ->
         reply = Ok (mkCommitted (Ok result) []) /\ db w' = db w1.
Proof.
  intros Hi Hr. destruct (queued_write_run op w Hi Hr) as (reply & w' & Hrun & Hrep).
  exists reply, w'. split; [done|]. split.
  - destruct Hrep; simpl; try done. split; [done|]. by eexists _, _.
  - intros result w1 Hx Hf Hf1. unfold process_queued_write in Hrun. rewrite Hf, Hx in Hrun.
    simpl in Hrun. unfold commit_savepoint in Hrun. rewrite Hf1 in Hrun. by injection Hrun as <- <-.
Qed.

(** C2: a batch is answered operation by operation and has the effect of running
    its operations one after the other, each in its own savepoint: sharing one
    savepoint between admissions and replaying a failed group is invisible.
    The store's invariant holds afterwards. *)
Theorem batch_runs_in_sequence batch w :
  store_inv (db w) -> room (total_weight batch) (db w) ->
  exists replies w', process_batch None batch None w = (Ok replies, w')
    /\ length replies = length batch /\ sequential batch (db w) replies (db w')
    /\ store_inv (db w').
Proof.
  intros Hi Hr. destruct (process_batch_run None batch None w Hi Hr) as (rs & w' & Hrun & Hs).
  exists rs, w'. split; [done|]. split; [by eapply sequential_length|]. split; [done|].
  apply (process_batch_good _ _ _ _ _ _ Hi Hr Hrun).
Qed.

(** When the batch transaction cannot be opened or cannot be committed, the
    database is what it was before the batch and every caller is told about an
    error. *)
Theorem failed_commit_changes_nothing batch begin_error commit_error w :
  store_inv (db w) -> room (total_weight batch) (db w) ->
  is_Some begin_error \/ is_Some commit_error ->
  exists replies w', process_batch begin_error batch commit_error w = (Ok replies, w')
    /\ db w' = db w /\ length replies = length batch
    /\ Forall (fun reply => exists e, reply = Err e) replies.
Proof.
  intros Hi Hr Hf. destruct (process_batch_run begin_error batch commit_error w Hi Hr)
    as (rs & w' & Hrun & H).
  exists rs, w'. split; [done|]. destruct begin_error, commit_error; try done.
  by destruct Hf as [[? [=]]|[? [=]]].
Qed.

(** An operation issued under a cron permit whose schedule was removed,
    disabled or restarted is refused and leaves no trace, not even an audit
    event. *)
Theorem stale_permit_is_inert op w :
  stale (op_provenance op) (db w) ->
  exists reply w', process_queued_write op w = (Ok reply, w') /\ db w' = db w
    /\ exists e, reply = Ok (mkCommitted (Err e) []) \/ reply = Err e.
Proof.
  intros Hs. destruct (stale_execute op (tick w) Hs) as (e & Hx & He).
  unfold process_queued_write. destruct (control_fault (ticks w)) as [fault|].
  - eexists _, _. split; [done|]. split; [done|]. eexists. by right.
  - rewrite Hx. unfold append_rejected_task_event. rewrite He.
    eexists _, _. split; [done|]. split; [done|]. exists e. by left.
Qed.

(** C11: an acknowledged message stays acknowledged: after an acknowledgement
    has succeeded, and after any further batches of the writer lane, committed or
    failed, every acknowledgement of the same source message, whatever its reply
    and its permit, is refused and changes nothing, as long as those batches admit
    to its mailbox no message under the acknowledged message's key or id and no
    id drawn from then on is that id.  (The condition is needed: a repeated
    admission of the message itself makes it wait again, see
    [readmission_reopens_acknowledgement].) *)
Theorem acknowledge_at_most_once source builder p commit w w' :
  store_inv (db w) -> room 2 (db w) ->
  execute (Acknowledge source builder p) w = (Ok (Acknowledged commit), w') ->
  (forall n, (ticks w' <= n)%nat -> ulid_at n <> src_message_id source) ->
  forall w2 builder2 p2,
    rtc (lane_step (fun op => forall m, admitted_by op m -> spares source (msg_key (ack_source commit)) m)) w' w2 ->
    exists e, execute (Acknowledge source builder2 p2) w2 = (Err e, w2).
Proof.
  intros Hi Hr Hx Hfresh w2 builder2 p2 Hlater. simpl in Hx. unfold execute_acknowledgement_with_fence in Hx.
  apply run_bind_ok_inv in Hx as ([] & w1 & Hf & Hx).
  assert (w1 = w) as -> by (destruct (fence_cases p w) as [Hc|[e Hc]]; congruence).
  destruct (acknowledgement_settles source builder w _ w' Hi Hr Hx)
    as (Hset & Hok & commit' & key & r & [= <-] & Hk & Hrow & Hid). rewrite <- Hk in Hrow.
  apply (lane_preserves (quiet source (msg_key (ack_source commit)))) in Hlater;
    [|by intros op m Hop Hm; apply quiet_canonical, Hop|by eapply quiet_intro].
  destruct (settled_refuses source w2 (quiet_settled _ _ _ Hlater)) as [e He].
  simpl. unfold execute_acknowledgement_with_fence.
  destruct (fence_cases p2 w2) as [Hc|[e2 Hc]]; [|exists e2; by apply run_bind_err].
  exists e. run Hc. unfold execute_acknowledgement. by apply run_bind_err.
Qed.

(** Admitting a stored message again reports a duplicate, yet rewrites its read
    and acknowledgement state with what the repeated record carries: an
    acknowledged message waits for its acknowledgement again. *)
Theorem readmission_reopens_acknowledgement m at_ w result w' :
  is_Some (mail_messages (db w) !! msg_key m) ->
  env_pending_ack_at (msg_envelope m) = Some at_ -> env_acknowledged_at (msg_envelope m) = None ->
  execute (UpsertMessage m Origin_Local) w = (Ok result, w') ->
  (exists res, result = MessageUpserted res /\ up_inserted res = false)
  /\ mail_messages (db w') = mail_messages (db w)
  /\ exists s, mail_message_states (db w') !! msg_key m = Some s
       /\ s_pending_ack_at s = Some at_ /\ s_acknowledged_at s = None
       /\ s_read s = env_read (msg_envelope m).
Proof.
  intros Hm Hp Ha Hx. apply run_bind_ok_inv in Hx as (res & w1 & Hx & [= <- <-]).
  destruct (readmission_run (execute_upsert_message_fuel 1) m w Hm)
    as (o & w2 & Hrun & _ & _ & _ & Hmsg & _ & Hres).
  change (upsert_message_body (execute_upsert_message_fuel 1) m Origin_Local w = (Ok res, w1)) in Hx.
  rewrite Hx in Hrun. injection Hrun as <- <-. destruct (Hres res eq_refl) as (Hd & Hdup & _).
  split; [by exists res|]. split; [done|]. rewrite Hd. eexists. split; [apply lookup_insert_eq|].
  by simpl; rewrite Hp, Ha.
Qed.

(** Mail that arrives from a peer never changes the task ledger, its event
    log, the roster or the schedules, whatever task members it carries. *)
Theorem peer_mail_keeps_ledger record w :
  exists o w', execute_upsert_message record Origin_Peer w = (o, w')
    /\ o <> Panic /\ ledger_same (db w) (db w')
    /\ forall res, o = Ok res -> up_task_events res = [].
Proof.
  change (execute_upsert_message record Origin_Peer)
    with (upsert_message_body (execute_upsert_message_fuel 1) record Origin_Peer).
  unfold upsert_message_body. step.
  destruct (insert_message_canonical record w) as [oi w1] eqn:Hins.
  destruct (insert_message_canonical_frame _ _ _ _ Hins) as (Hnp & Hled & _).
  destruct oi as [b|e|]; [|eexists _, _; by split; [by apply run_bind_err|]|done].
  run Hins. destruct (existing_reads b record w1) as (oe & He & Hne).
  destruct oe as [ex|e|]; [|eexists _, _; by split; [by apply run_bind_err|]|done].
  eexists _, _. split; [run He; rewrite andb_false_r; reflexivity|].
  split_and!; [done..|]. by intros res [= <-].
Qed.

(** Admitting a message whose key is already stored never reaches the task
    ledger and never rewrites the stored message; at most its display state
    changes. *)
Theorem duplicate_admission_keeps_message record p w :
  is_Some (mail_messages (db w) !! msg_key record) ->
  exists o w', execute_upsert_message record p w = (o, w')
    /\ o <> Panic /\ ledger_same (db w) (db w')
    /\ mail_messages (db w') = mail_messages (db w)
    /\ search_documents (db w') = search_documents (db w)
    /\ forall res, o = Ok res -> up_inserted res = false /\ up_task_events res = [].
Proof.
  intros [row0 Hrow0]. change (execute_upsert_message record p)
    with (upsert_message_body (execute_upsert_message_fuel 1) record p).
  unfold upsert_message_body.
  destruct (fence_cases p w) as [Hf|[e Hf]]; [|eexists _, _; by split; [by apply run_bind_err|]].
  run Hf. destruct (insert_message_canonical record w) as [oi w1] eqn:Hins.
  pose proof (insert_message_canonical_run record w) as Hc. rewrite Hins in Hc.
  inversion Hc as [e n|class row Hv Hr|class Hv Hr Hnc]; subst; [| |congruence].
  { eexists _, _. by split; [by apply run_bind_err|]. }
  run Hins. destruct (existing_reads false record (mkWorld (state_rewritten record (now_at (ticks w)) (db w))
    (S (ticks w)))) as (oe & He & Hne).
  destruct oe as [ex|e|]; [|eexists _, _; by split; [by apply run_bind_err|]|done].
  eexists _, _. split; [run He; reflexivity|]. split_and!; try done. by intros res [= <-].
Qed.

(** An admission calls itself at most once, through the acknowledgement of a
    closed task's assignment message, so two levels of the model's recursion
    give the result of any greater depth. *)
Theorem admission_depth_is_two n record p w :
  execute_upsert_message_fuel (2 + n) record p w = execute_upsert_message record p w.
Proof. apply upsert_fuel_enough. Qed.

(** The canonical insert either refuses a record and changes nothing, or
    finds its key stored and only rewrites the display state, or stores the
    message with its display state and search document; the mail invariant is
    kept, in particular the uniqueness of message ids and of successors. *)
Theorem canonical_insert_cases record w :
  mail_ok (db w) ->
  match insert_message_canonical record w with
  | (Ok true, w') =>
    mail_messages (db w) !! msg_key record = None
    /\ (exists row, mail_messages (db w') = <[msg_key record := row]> (mail_messages (db w))
          /\ m_message_id row = env_message_id (msg_envelope record)
          /\ m_envelope_json row = storage_envelope_new (msg_envelope record))
    /\ is_Some (mail_message_states (db w') !! msg_key record)
    /\ is_Some (search_documents (db w') !! msg_key record)
    /\ ledger_same (db w) (db w') /\ mail_ok (db w')
  | (Ok false, w') =>
    is_Some (mail_messages (db w) !! msg_key record)
    /\ mail_messages (db w') = mail_messages (db w)
    /\ search_documents (db w') = search_documents (db w)
    /\ ledger_same (db w) (db w') /\ mail_ok (db w')
  | (Err _, w') => db w' = db w
  | (Panic, _) => False
  end.
Proof.
  intros Hok. destruct (insert_message_canonical record w) as [o w'] eqn:Hrun.
  destruct (insert_message_canonical_frame _ _ _ _ Hrun) as (_ & _ & Hok' & _). specialize (Hok' Hok).
  pose proof (insert_message_canonical_run record w) as Hc. rewrite Hrun in Hc.
  inversion Hc as [e n|class row Hv Hr|class Hv Hr Hnc]; subst; [done|by split_and!; [exists row|..]|].
  split_and!; try done.
  - by exists (message_row record class (now_at (ticks w))).
  - eexists. apply lookup_insert_eq.
  - eexists. apply lookup_insert_eq.
Qed.

(** A stored message reads back as it was sent, when its envelope follows
    the sender's rules: an acknowledgement is required exactly while one is
    pending on a message that is not itself one, the legacy completion member
    is unused, and no extra member reuses a field name. *)
Theorem stored_message_roundtrip record w w' :
  let e := msg_envelope record in
  env_requires_ack e = bool_decide (is_Some (env_pending_ack_at e))
                       && bool_decide (env_acknowledges_message_id e = None) ->
  env_task_complete e = None -> plain_extra (env_extra e) ->
  insert_message_canonical record w = (Ok true, w') ->
  load_existing_message record w' = (Ok record, w').
Proof.
  intros e Hack Hcomp Hplain Hins.
  pose proof (insert_message_canonical_run record w) as Hc. rewrite Hins in Hc.
  inversion Hc as [|class row Hv Hr|class Hv Hr Hnc]; subst. clear Hc Hins.
  set (row := message_row record class (now_at (ticks w))).
  set (w' := mkWorld _ _).
  assert (Hm : mail_messages (db w') !! msg_key record = Some row) by apply lookup_insert_eq.
  assert (Hs : mail_message_states (db w') !! msg_key record
    = Some (admitted_state record (now_at (ticks w)) (mail_message_states (db w) !! msg_key record)))
    by apply lookup_insert_eq.
  assert (Hd : decode_envelope (m_envelope_json row)
               = Some (envelope_from_raw (storage_envelope_new e) None None)).
  { unfold decode_envelope. by rewrite bool_decide_eq_true_2. }
  unfold load_existing_message. run run_get_db. rewrite Hm, Hs.
  erewrite run_bind by (by apply run_ok_or). cbv beta. rewrite Hd.
  erewrite run_bind by (by apply run_ok_or). cbv beta zeta. unfold mret, M_ret, st_ret. do 2 f_equal.
  destruct record as [team agent key env]. simpl in e. subst e. destruct env. simpl in *.
  unfold with_display_state, envelope_from_raw, storage_envelope_new. simpl.
  subst. by destruct env_task_op.
Qed.

(** Deleting a message always succeeds and removes exactly the rows of its
    key, from the messages, their display states and the search index; the task
    ledger is untouched. *)
Theorem delete_removes_message key w :
  exists w', execute (DeleteMessage key Origin_Local) w = (Ok MessageDeleted, w')
    /\ ledger_same (db w) (db w')
    /\ forall k,
         mail_messages (db w') !! k = (if decide (k.2 = key) then None else mail_messages (db w) !! k)
         /\ mail_message_states (db w') !! k
            = (if decide (k.2 = key) then None else mail_message_states (db w) !! k)
         /\ search_documents (db w') !! k
            = (if decide (k.2 = key) then None else search_documents (db w) !! k).
Proof.
  simpl. unfold execute_delete_message. do 7 step.
  eexists. split; [reflexivity|]. split; [done|]. intros k.
  assert (Hf : forall A (m : gmap MailKey A),
    filter (fun kr => kr.1.2 <> key) m !! k = if decide (k.2 = key) then None else m !! k).
  { intros A m. destruct (decide (k.2 = key)) as [He|He].
    - apply map_lookup_filter_None. right. intros x _ Hne. by apply Hne.
    - destruct (m !! k) as [x|] eqn:Hx; [by apply map_lookup_filter_Some|].
      apply map_lookup_filter_None. by left. }
  split_and!; apply Hf.
Qed.

(** Showing messages as read succeeds exactly when every listed message is
    present and not deleted; it then marks them all read, moves the watermark,
    and changes neither an acknowledgement, an expiry, a message nor the task
    ledger. *)
Theorem read_marks_messages mailbox keys seen w :
  match execute (ApplyReadDisplayState mailbox keys seen Origin_Local) w with
  | (Ok result, w') =>
    result = ReadDisplayStateApplied
    /\ (forall key, key ∈ keys -> live (db w) (mailbox_key mailbox key)
          /\ exists s, mail_message_states (db w') !! mailbox_key mailbox key = Some s /\ s_read s = true)
    /\ only_read (db w) (db w')
    /\ mail_seen_watermarks (db w') = match seen with
                                      | None => mail_seen_watermarks (db w)
                                      | Some t => <[(member_team mailbox, member_agent mailbox) := t]>
                                                    (mail_seen_watermarks (db w))
                                      end
  | (Err _, _) => exists key, key ∈ keys /\ ~ live (db w) (mailbox_key mailbox key)
  | (Panic, _) => False
  end.
Proof.
  simpl. unfold execute_read_display_state. do 2 step.
  set (w0 := mkWorld (db w) (S (ticks w))).
  destruct (mark_all_read_run mailbox (now_at (ticks w)) (next_reminder_due (now_at (ticks w))) keys w0)
    as [(w1 & Hrun & Ho & Hall)|(e & w1 & key & Hrun & Hin & Hl)].
  2:{ erewrite run_bind_err by exact Hrun. by exists key. }
  pose proof (mark_all_read_watermarks _ _ _ _ _ _ Hrun) as Hw. simpl in Hw.
  run Hrun. destruct seen as [t|].
  - erewrite run_bind; [|run run_get_db; reflexivity]. cbv beta. simpl. rewrite Hw. by split_and!.
  - erewrite run_bind by reflexivity. by split_and!.
Qed.
End WriterProps.

(** ** The theorems on the store of [Demo.v] *)

Lemma reachable_store_ok_witness :
  reachable closed_demo /\ ledger_ok (tasks (db closed_demo)) /\ mail_ok (db closed_demo).
Proof.
  split; [apply closed_demo_reachable|].
  destruct (reachable_store_ok closed_demo closed_demo_reachable) as (Hl & _ & Hm & _).
  split; [exact Hl|exact Hm].
Defined.

Lemma execute_keeps_store_witness :
  exists res w', execute (send (close "bob" "alice" 9 "T1")) demo = (Ok res, w') /\ store_inv (db w').
Proof.
  pose proof (execute_keeps_store (send (close "bob" "alice" 9 "T1")) demo demo_inv
    ltac:(apply demo_room; vm_compute; discriminate) I) as H.
  assert (Hs : succeeds (execute (send (close "bob" "alice" 9 "T1")) demo) = true) by (vm_compute; reflexivity).
  destruct (execute (send (close "bob" "alice" 9 "T1")) demo) as [[res|e|] w']; [|discriminate Hs..].
  exists res, w'. split; [reflexivity|apply H].
Defined.

(** A refused start is answered with its audit event. *)
Lemma queued_write_atomic_witness :
  exists reply w', process_queued_write (send (start "carol" 9 "T1")) demo = (Ok reply, w')
    /\ match reply with
       | Ok c => match operation c with
                 | Err error => audited error (db demo) (db w') (committed_events c)
                 | _ => True
                 end
       | _ => True
       end.
Proof.
  destruct (queued_write_atomic (send (start "carol" 9 "T1")) demo demo_inv
    ltac:(apply demo_room; vm_compute; discriminate)) as (reply & w' & Hrun & H & _).
  exists reply, w'. split; [exact Hrun|]. destruct reply as [c|e|]; [|exact I..].
  destruct (operation c); [exact I|exact H|exact I].
Defined.

Lemma batch_runs_in_sequence_witness :
  exists replies w', process_batch None demo_batch None demo = (Ok replies, w')
    /\ length replies = 4%nat /\ sequential demo_batch (db demo) replies (db w') /\ store_inv (db w').
Proof.
  apply (batch_runs_in_sequence demo_batch demo demo_inv).
  apply demo_room. vm_compute. discriminate.
Defined.

Lemma failed_commit_changes_nothing_witness :
  exists replies w', process_batch None demo_batch (Some (SqliteFailure SystemIoFailure)) demo = (Ok replies, w')
    /\ db w' = db demo /\ length replies = 4%nat.
Proof.
  destruct (failed_commit_changes_nothing demo_batch None (Some (SqliteFailure SystemIoFailure)) demo demo_inv
    ltac:(apply demo_room; vm_compute; discriminate) ltac:(right; eexists; reflexivity))
    as (replies & w' & Hrun & Hd & Hlen & _).
  exists replies, w'. split; [exact Hrun|]. split; [exact Hd|exact Hlen].
Defined.

(** Generation 2 of schedule 7 was replaced by generation 3. *)
Lemma stale_permit_is_inert_witness :
  exists reply w', process_queued_write (UpsertMessage (assign "bob" 9 "T9") (Origin_CronRun 7 2)) demo
               = (Ok reply, w') /\ db w' = db demo
    /\ exists e, reply = Ok (mkCommitted (Err e) []) \/ reply = Err e.
Proof.
  apply (stale_permit_is_inert (UpsertMessage (assign "bob" 9 "T9") (Origin_CronRun 7 2)) demo).
  apply (bool_decide_unpack _). vm_compute. exact I.
Defined.

(** In between, the lane moves [T3], marks the source as read and admits a task
    to [bob]. *)
Lemma acknowledge_at_most_once_witness :
  exists commit w' w2,
    execute (Acknowledge demo_source demo_reply Origin_Local) demo = (Ok (Acknowledged commit), w')
    /\ w2 = (process_batch None between_acks None w').2
    /\ exists e, execute (Acknowledge demo_source demo_reply Origin_Local) w2 = (Err e, w2).
Proof.
  assert (Hs : acked_key (execute (Acknowledge demo_source demo_reply Origin_Local) demo)
               = Some ("alpha", "bob", "atm:2")) by (vm_compute; reflexivity).
  destruct (execute (Acknowledge demo_source demo_reply Origin_Local) demo) as [[[| | | |commit|]|e|] w'] eqn:Hx;
    try discriminate Hs.
  exists commit, w', (process_batch None between_acks None w').2. split; [reflexivity|]. split; [reflexivity|].
  assert (Hk : msg_key (ack_source commit) = ("alpha", "bob", "atm:2")).
  { change (Some (msg_key (ack_source commit)) = Some ("alpha", "bob", "atm:2")) in Hs. congruence. }
  apply (acknowledge_at_most_once demo_source demo_reply Origin_Local commit demo w' demo_inv
    ltac:(apply demo_room; vm_compute; discriminate) Hx).
  - intros n _ He. pose proof (demo_ulid n) as Hn. rewrite He in Hn. by apply Hn.
  - apply rtc_once. exists None, between_acks, None. split; [|reflexivity]. rewrite Hk.
    apply Forall_cons_2; [intros m []|]. apply Forall_cons_2; [intros m []|].
    apply Forall_cons_2; [intros m -> _|apply Forall_nil_2].
    split; apply (bool_decide_unpack _); vm_compute; exact I.
Defined.

(** The assignment of [T2] is acknowledged, admitted again, and acknowledged again. *)
Lemma readmission_reopens_acknowledgement_witness :
  exists r2 w2, execute (UpsertMessage (assign "bob" 2 "T2") Origin_Local) acked_demo = (Ok r2, w2)
    /\ mail_messages (db w2) = mail_messages (db acked_demo)
    /\ succeeds (execute (Acknowledge demo_source demo_reply Origin_Local) w2) = true.
Proof.
  assert (Hs : match execute (UpsertMessage (assign "bob" 2 "T2") Origin_Local) acked_demo with
    | (Ok _, w2) => succeeds (execute (Acknowledge demo_source demo_reply Origin_Local) w2)
    | _ => false end = true) by (vm_compute; reflexivity).
  destruct (execute (UpsertMessage (assign "bob" 2 "T2") Origin_Local) acked_demo) as [[r2|e|] w2] eqn:Hx;
    [|discriminate Hs..].
  exists r2, w2. split; [reflexivity|]. split; [|exact Hs].
  refine (proj1 (proj2 (readmission_reopens_acknowledgement (assign "bob" 2 "T2") 60 acked_demo r2 w2 _ eq_refl eq_refl Hx))).
  apply (bool_decide_unpack _). vm_compute. exact I.
Defined.

Lemma peer_mail_keeps_ledger_witness :
  exists o w', execute_upsert_message (close "bob" "alice" 9 "T1") Origin_Peer demo = (o, w')
    /\ ledger_same (db demo) (db w').
Proof.
  destruct (peer_mail_keeps_ledger (close "bob" "alice" 9 "T1") demo) as (o & w' & Hrun & _ & Hl & _).
  exists o, w'. split; [exact Hrun|exact Hl].
Defined.

Lemma duplicate_admission_keeps_message_witness :
  exists o w', execute_upsert_message (assign "bob" 2 "T2") Origin_Local demo = (o, w')
    /\ ledger_same (db demo) (db w').
Proof.
  destruct (duplicate_admission_keeps_message (assign "bob" 2 "T2") Origin_Local demo)
    as (o & w' & Hrun & _ & Hl & _).
  - apply (bool_decide_eq_true_1 _). vm_compute. reflexivity.
  - exists o, w'. split; [exact Hrun|exact Hl].
Defined.

Lemma canonical_insert_cases_witness :
  exists w', insert_message_canonical (assign "bob" 40 "T2") demo = (Ok true, w') /\ mail_ok (db w').
Proof.
  pose proof (canonical_insert_cases (assign "bob" 40 "T2") demo (inv_mail _ demo_inv)) as H.
  assert (Hs : (insert_message_canonical (assign "bob" 40 "T2") demo).1 = Ok true) by (vm_compute; reflexivity).
  destruct (insert_message_canonical (assign "bob" 40 "T2") demo) as [[[]|e|] w']; [|discriminate Hs..].
  exists w'. split; [reflexivity|apply H].
Defined.

Lemma stored_message_roundtrip_witness :
  exists w', insert_message_canonical (assign "bob" 40 "T2") demo = (Ok true, w')
    /\ load_existing_message (assign "bob" 40 "T2") w' = (Ok (assign "bob" 40 "T2"), w').
Proof.
  assert (Hs : (insert_message_canonical (assign "bob" 40 "T2") demo).1 = Ok true) by (vm_compute; reflexivity).
  destruct (insert_message_canonical (assign "bob" 40 "T2") demo) as [[[]|e|] w'] eqn:Hrun; [|discriminate Hs..].
  exists w'. split; [reflexivity|].
  apply (stored_message_roundtrip (assign "bob" 40 "T2") demo w'); [reflexivity|reflexivity| |exact Hrun].
  constructor.
Defined.
