(* ===== verification/TaskStoreProps.v ===== *)
(** * What the task store promises

    Reminders, lists, escalation recipients, handoffs and the refusal run, each
    evaluated on the store of [Demo.v]. *)

From S2P Require Import Prelude ErrorCodes Types Address TaskState Database Transaction TaskCodec TaskQueue QueueFacts.
From S2P Require Import LedgerInv EventLog MailStore MailSpec TaskOps Admission Writer WriterInv WriterSpec.
From S2P Require Import TaskStore Demo.
From stdpp Require Import base gmap strings list numbers sorting pretty.
Local Open Scope Z_scope.
Local Open Scope string_scope.
Local Open Scope list_scope.

Section StoreProps.
Context {rt : Runtime} {rtok : RuntimeOk rt}.

(** Reminding the assignee of an open task adds one to its reminder count and
    logs one event that reads back; the ledger stays well formed and no queue
    changes.  The only failures are a count at the end of the [u32] range and a
    failed transaction, which change nothing. *)
Theorem record_reminder_correct member id at_ outcome r w :
  ledger_ok (tasks (db w)) -> queues_bounded (tasks (db w)) -> events_ok (task_events (db w)) ->
  tasks (db w) !! (member_team member, id) = Some r ->
  t_assignee r = member_agent member -> t_state r <> "complete" ->
  match record_reminder member id at_ outcome w with
  | (Ok rec, w') =>
    row_reminder_count (rem_row rec) = t_reminder_count r + 1
    /\ row_last_reminded_at (rem_row rec) = Some at_
    /\ row_view (member_team member, id) (reminded_row at_ r) (rem_row rec)
    /\ ledger_ok (tasks (db w')) /\ events_ok (task_events (db w'))
    /\ (forall team agent qa qw, member_queue (tasks (db w)) team agent qa qw ->
          member_queue (tasks (db w')) team agent qa qw)
    /\ appended (set_tasks (tasks (db w')) (db w)) (db w') [rem_event rec]
    /\ ev_event (rem_event rec) = TaskEventKind_Reminded
  | (Err _, w') =>
    db w' = db w /\ (t_reminder_count r = u32_max \/ exists n fault, control_fault n = Some fault)
  | (Panic, _) => False
  end.
Proof.
  intros Hl Hb He Hr Ha Hs. destruct (member_task_read member id r (tick w) Hl Hb Hr) as (row & Hload & Hv).
  unfold record_reminder.
  destruct (with_transaction_cases (record_reminder_in member id at_ outcome) w)
    as [(e & w' & -> & Hd & Hf)|Hc]; [by split; [|right]|].
  destruct (record_reminder_run member id at_ outcome r row (tick w) Hl Hb Hr Ha Hload)
    as [(Hlt & row' & Hrun & Hv' & Hcount & Hlast)|(Hmax & e & Hrun)]; rewrite Hrun in Hc; rewrite Hc;
    [|by split; [|left]].
  pose proof (proj1 (proj2 Hl) _ _ Hr) as [Hc1 Hc2].
  destruct (counted_ledger (tasks (db w)) _ r (reminded_row at_ r) Hl Hr) as [Hl' Hq];
    [by split_and!|simpl; lia|].
  assert (Hopen : is_open (row_state row) = true) by (by apply (view_open _ _ _ Hv)).
  pose proof (open_event_state _ Hopen) as Hst.
  pose proof (logged_appended (counter_draft member id at_ TaskEventKind_Reminded (row_state row)
    DAEMON_ACTOR_NAME None (Some outcome))
    (set_tasks (<[(member_team member, id) := reminded_row at_ r]> (tasks (db w))) (db w)) _ _ Hst Hst) as Happ.
  split_and!; try done. exact (proj2 Happ He).
Qed.

(** A well-formed log of a task is listed whole: one event per stored row,
    numbered 1, 2, 3, ... *)
Theorem task_events_listed team id w :
  events_ok (task_events (db w)) ->
  exists evs, list_task_events team id None w = (Ok evs, w)
    /\ ev_seq <$> evs = (fun n => Z.of_nat n + 1) <$> seq 0 (length evs)
    /\ length evs = length (task_seqs team id (task_events (db w))).
Proof.
  intros Hok. pose proof Hok as [Hs Hd].
  destruct (collect_Ok decode_event_row (filter (of_task team id) (task_events (db w)))) as (evs & Hc & Hf).
  { apply Forall_filter_of. exact Hd. }
  assert (Hseq : ev_seq <$> evs = task_seqs team id (task_events (db w))).
  { unfold task_seqs. clear Hc. induction Hf as [|e ev es evs He Hf IH]; [done|].
    rewrite !fmap_cons, IH. f_equal. by apply decode_event_seq. }
  assert (Hlen : length evs = length (task_seqs team id (task_events (db w)))).
  { by rewrite <- Hseq, length_fmap. }
  exists evs. split; [|split; [|done]].
  - unfold list_task_events, query. run run_get_db. rewrite select_all_events.
    rewrite merge_sort_events by (by apply events_sorted). by rewrite Hc.
  - rewrite Hseq, Hlen. apply Hs.
Qed.

(** C39: a reminder recorded for a task that was closed in the meantime is
    accepted, but the event it appends to the log says that the task is complete
    and has no close outcome, so it cannot be read back: from then on, in every
    state that batches of the writer lane and operations of the task store lead
    to, listing the events of the task, of all members or of the reminded one,
    fails. *)
Theorem reminder_of_closed_task_hides_log member id at_ outcome r w :
  ledger_ok (tasks (db w)) -> queues_bounded (tasks (db w)) ->
  tasks (db w) !! (member_team member, id) = Some r ->
  t_assignee r = member_agent member -> t_state r = "complete" -> t_reminder_count r < u32_max ->
  control_fault (ticks w) = None -> control_fault (S (ticks w)) = None ->
  exists rec ev w', record_reminder member id at_ outcome w = (Ok rec, w')
    /\ task_events (db w') = task_events (db w) ++ [ev]
    /\ e_event ev = "reminded" /\ e_to_state ev = Some "complete" /\ e_close_outcome ev = None
    /\ forall w2 assignee, rtc store_step w' w2 ->
         (assignee = None \/ assignee = Some (member_agent member)) ->
         exists e, list_task_events (member_team member) id assignee w2 = (Err e, w2).
Proof.
  intros Hl Hb Hr Ha Hs Hlt Hf Hf1.
  destruct (member_task_read member id r (tick w) Hl Hb Hr) as (row & Hload & Hv).
  destruct (record_reminder_run member id at_ outcome r row (tick w) Hl Hb Hr Ha Hload)
    as [(_ & row' & Hrun & _)|(Hmax & _)]; [|lia].
  assert (Hst : exists o, row_state row = TaskState_Complete o).
  { pose proof (view_state _ _ _ Hv) as Hvs. rewrite Hs in Hvs.
    destruct (row_state row) as [| |o]; [done..|by exists o]. }
  destruct Hst as [o Hst]. rewrite Hst in Hrun.
  set (draft := counter_draft _ _ _ _ _ _ _ _) in Hrun.
  set (n := next_seq draft (task_events (db w))).
  destruct (counter_event_closed member id at_ TaskEventKind_Reminded o DAEMON_ACTOR_NAME None
    (Some outcome) n) as [x Hbad].
  eexists _, (event_sql draft n), _. split; [exact (with_transaction_ok _ _ _ _ Hrun Hf Hf1)|].
  do 4 (split; [done|]). intros w2 assignee Hlater Hwho.
  apply (store_steps_log (task_events (db w) ++ [event_sql draft n])) in Hlater; [|by exists []; rewrite app_nil_r].
  refine (undecodable_event_hides_log (event_sql draft n) x assignee w2 _ Hbad Hwho).
  destruct Hlater as [tail ->]. set_solver.
Qed.

(** A reminder recorded for a member whose task was reassigned in the
    meantime leaves the task's counters alone, yet it is reported as recorded
    and logged under the former assignee. *)
Theorem reminder_of_reassigned_task member id at_ outcome r w :
  ledger_ok (tasks (db w)) -> queues_bounded (tasks (db w)) ->
  tasks (db w) !! (member_team member, id) = Some r -> t_assignee r <> member_agent member ->
  control_fault (ticks w) = None -> control_fault (S (ticks w)) = None ->
  exists rec w', record_reminder member id at_ outcome w = (Ok rec, w')
    /\ tasks (db w') = tasks (db w)
    /\ length (task_events (db w')) = S (length (task_events (db w)))
    /\ row_reminder_count (rem_row rec) = t_reminder_count r
    /\ ev_assignee (rem_event rec) = member_agent member.
Proof.
  intros Hl Hb Hr Ha Hf Hf1.
  destruct (member_task_read member id r (tick w) Hl Hb Hr) as (row & Hload & Hv).
  set (draft := counter_draft member id at_ TaskEventKind_Reminded (row_state row)
                  DAEMON_ACTOR_NAME None (Some outcome)).
  assert (Hload2 : load_task_row (member_team member) id (with_db (logged draft) (tick w))
                   = (Ok (Some row), with_db (logged draft) (tick w))).
  { rewrite (load_task_row_decoded _ _ r) in Hload |- *; [|done..].
    by destruct (decode_row (member_team member, id) r) as [row0|e|]; simplify_eq. }
  eexists _, _. split.
  { apply (with_transaction_ok _ w _ (with_db (logged draft) (tick w))); [|exact Hf|exact Hf1].
    unfold record_reminder_in.
    erewrite run_bind; [|exact Hload]. cbv beta. step.
    erewrite run_bind; [|by eapply update_counters_other]. cbv beta.
    erewrite run_bind; [|apply append_event_run]. cbv beta. fold draft.
    erewrite run_bind; [|exact Hload2]. cbv beta. erewrite run_bind by reflexivity. reflexivity. }
  split_and!; [done| | |done].
  - simpl. rewrite length_app. simpl. lia.
  - rewrite (load_task_row_decoded _ _ r (tick w) Hr) in Hload.
    destruct (decode_row (member_team member, id) r) as [row0|e|] eqn:Hd; simplify_eq.
    exact (proj1 (decode_row_counts _ _ _ Hd)).
Qed.

(** Listing a member's open tasks returns its queue: the active tasks first,
    then the waiting ones, at the positions 1..n, whatever their ages. *)
Theorem open_tasks_in_queue_order member qa qw w :
  ledger_ok (tasks (db w)) -> queues_bounded (tasks (db w)) ->
  member_queue (tasks (db w)) (member_team member) (member_agent member) qa qw ->
  exists rows, open_tasks member w = (Ok rows, w)
    /\ row_task_id <$> rows = qa ++ qw
    /\ Forall (fun row => row_team row = member_team member
                          /\ row_assignee row = member_agent member
                          /\ is_open (row_state row) = true) rows.
Proof.
  intros Hl Hb Hm. set (team := member_team member). set (agent := member_agent member).
  destruct (decode_rows_view (tasks (db w)) (open_rows team agent (tasks (db w)))) as (rows & Hd & Hf).
  { auto with atm. }
  { intros k r Hin. by apply elem_of_open_rows in Hin as [Hr _]. }
  assert (Hopen : Forall (fun kr => open_of team agent kr.1 kr.2) (open_rows team agent (tasks (db w)))).
  { apply Forall_forall. intros [k r] Hin. by apply elem_of_open_rows in Hin as [_ Ho]. }
  exists rows. split_and!.
  - unfold open_tasks, query. run run_get_db. unfold select_open_tasks_for_member.
    rewrite open_rows_by_age by apply Hl. fold team agent. by rewrite Hd.
  - rewrite <- (open_rows_ids _ _ _ _ (proj1 Hm)). fold team agent. clear Hd Hopen.
    induction Hf as [|kr row krs rows Hv _ IH]; [done|]. rewrite !fmap_cons. f_equal; [|done].
    by apply (view_task_id _ _ _ Hv).
  - clear Hd. revert Hopen. induction Hf as [|kr row krs rows Hv _ IH]; [constructor|].
    intros [(Ht & Ha & Ho) Hrest]%Forall_cons. constructor; [|auto].
    rewrite (view_team _ _ _ Hv), (view_assignee _ _ _ Hv). split_and!; [done..|].
    by apply (view_open _ _ _ Hv).
Qed.

(** Adding a recipient, by how it ends. *)
Lemma add_recipient_cases scope address at_ w :
  match add_escalation_recipient scope address at_ w with
  | (Ok added, w') =>
    is_Some (escalation_recipients (db w') !! (scope_key scope, agent_address_to_string address))
    /\ (added = false -> db w' = db w)
    /\ (added = true -> forall key, scope_count (db w') key
        = if decide (scope_key scope = key) then scope_count (db w) key + 1 else scope_count (db w) key)
    /\ (added = true -> scope_count (db w) (scope_key scope) < MAX_ESCALATION_RECIPIENTS)
  | (Err _, w') =>
    db w' = db w /\ (MAX_ESCALATION_RECIPIENTS <= scope_count (db w) (scope_key scope)
                     \/ exists n fault, control_fault n = Some fault)
  | (Panic, _) => False
  end.
Proof.
  unfold add_escalation_recipient.
  destruct (with_transaction_cases (add_recipient_in scope (agent_address_to_string address) at_) w)
    as [(e & w' & -> & Hd & Hf)|Hc]; [by split; [|right]|].
  revert Hc. unfold add_recipient_in at 1. run run_get_db.
  destruct (bool_decide (is_Some _)) eqn:Hin.
  { apply bool_decide_eq_true_1 in Hin. intros ->. by split_and!. }
  apply bool_decide_eq_false_1, eq_None_not_Some in Hin.
  destruct (bool_decide (MAX_ESCALATION_RECIPIENTS <= _)) eqn:Hfull.
  { apply bool_decide_eq_true_1 in Hfull. intros ->. split; [done|left]. exact Hfull. }
  apply bool_decide_eq_false_1 in Hfull. step.
  unfold mret, M_ret, st_ret. cbv beta iota. intros ->. simpl in Hin, Hfull. cbn [db tick].
  split_and!; [by eexists; apply lookup_insert_eq|done| |intros _; lia].
  intros _ key. by rewrite scope_count_insert by done.
Qed.

(** An escalation scope never holds more than eight recipients: adding to a
    scope within the limit keeps every scope within it, adding a recipient that
    is present changes nothing, and adding to a full scope is refused without
    effect, as is an addition whose transaction fails. *)
Theorem escalation_scope_bounded scope address at_ w :
  (forall key, scope_count (db w) key <= MAX_ESCALATION_RECIPIENTS) ->
  match add_escalation_recipient scope address at_ w with
  | (Ok added, w') =>
    (forall key, scope_count (db w') key <= MAX_ESCALATION_RECIPIENTS)
    /\ is_Some (escalation_recipients (db w') !! (scope_key scope, agent_address_to_string address))
    /\ (added = false -> db w' = db w)
    /\ (added = true -> scope_count (db w') (scope_key scope) = scope_count (db w) (scope_key scope) + 1)
  | (Err _, w') =>
    db w' = db w /\ (scope_count (db w) (scope_key scope) = MAX_ESCALATION_RECIPIENTS
                     \/ exists n fault, control_fault n = Some fault)
  | (Panic, _) => False
  end.
Proof.
  intros Hcap. pose proof (add_recipient_cases scope address at_ w) as H.
  destruct (add_escalation_recipient scope address at_ w) as [[added|e|] w']; [| |done].
  - destruct H as (Hin & Hf & Ht & Hlt). split_and!; [|done|done|].
    + intros key. destruct added; [|by rewrite (Hf eq_refl)]. rewrite (Ht eq_refl key).
      destruct (decide _) as [<-|]; [specialize (Hlt eq_refl); lia|done].
    + intros ->. by rewrite (Ht eq_refl), decide_True.
  - destruct H as [Hd [Hfull|Hfault]]; (split; [done|]); [left|by right].
    specialize (Hcap (scope_key scope)). lia.
Qed.

(** A recipient added to a team is among the recipients of its escalations,
    which are then those of the team alone; a team without recipients that can
    be read escalates to those of the daemon; and a removed recipient is no
    longer stored under its text. *)
Theorem added_recipient_is_effective team address at_ w :
  address_ok address ->
  match add_escalation_recipient (Scope_Team team) address at_ w with
  | (Ok _, w') =>
    (exists l, effective_escalation_recipients team w' = (Ok l, w') /\ address ∈ l
       /\ forall a, a ∈ l <-> stored_recipient (db w') (Scope_Team team) a)
    /\ (exists w'', remove_escalation_recipient (Scope_Team team) address w' = (Ok true, w'')
          /\ escalation_recipients (db w'') !! (scope_key (Scope_Team team), agent_address_to_string address) = None
          /\ ((forall a, ~ stored_recipient (db w'') (Scope_Team team) a) ->
              exists l, effective_escalation_recipients team w'' = (Ok l, w'')
                /\ forall a, a ∈ l <-> stored_recipient (db w'') Scope_Daemon a))
  | (Err _, w') => db w' = db w
  | (Panic, _) => False
  end.
Proof.
  intros Hok. pose proof (add_recipient_cases (Scope_Team team) address at_ w) as H.
  destruct (add_escalation_recipient (Scope_Team team) address at_ w) as [[added|e|] w']; [|by destruct H|done].
  destruct H as (Hin & _). split.
  - rewrite run_effective_recipients.
    assert (Hel : address ∈ recipients_of (db w') (Scope_Team team))
      by (by apply elem_of_recipients, stored_recipient_ok).
    rewrite bool_decide_eq_false_2 by (intros Hnil; rewrite Hnil in Hel; by apply not_elem_of_nil in Hel).
    eexists. split; [reflexivity|]. split; [done|]. intros a. apply elem_of_recipients.
  - unfold remove_escalation_recipient. cbv zeta. run run_get_db. step.
    eexists. split; [rewrite bool_decide_eq_true_2 by exact Hin; reflexivity|]. cbn [db tick].
    split; [apply lookup_delete_eq|]. intros Hnone. rewrite run_effective_recipients.
    rewrite bool_decide_eq_true_2; [eexists; split; [reflexivity|]; intros a; apply elem_of_recipients|].
    apply list_nil_elem. intros a Ha. by apply elem_of_recipients, Hnone in Ha.
Qed.

(** A prompt handoff is recorded once: the first record of a key is kept and
    every later one with the same key, unless its transaction fails, returns it;
    neither it nor a failed transaction changes anything. *)
Theorem prompt_handoff_recorded_once handoff w :
  match record_prompt_handoff handoff w with
  | (Ok write, w') =>
    exists stored, (write = Handoff_Inserted stored \/ (write = Handoff_Existing stored /\ db w' = db w))
      /\ same_handoff handoff stored /\ stored ∈ prompt_handoffs (db w')
      /\ forall again w2, same_handoff again handoff -> db w2 = db w' ->
           match record_prompt_handoff again w2 with
           | (Ok write2, w3) => write2 = Handoff_Existing stored /\ db w3 = db w2
           | (Err _, w3) => db w3 = db w2
           | (Panic, _) => False
           end
  | (Err _, w') => db w' = db w
  | (Panic, _) => False
  end.
Proof.
  unfold record_prompt_handoff at 1.
  destruct (with_transaction_cases (insert_or_load_handoff handoff) w)
    as [(e & w' & -> & Hd & _)|Hc]; [done|].
  assert (Hagain : forall stored d, head (filter (same_handoff handoff) (prompt_handoffs d)) = Some stored ->
    forall again w2, same_handoff again handoff -> db w2 = d ->
      match record_prompt_handoff again w2 with
      | (Ok write2, w3) => write2 = Handoff_Existing stored /\ db w3 = db w2
      | (Err _, w3) => db w3 = db w2
      | (Panic, _) => False
      end).
  { intros stored d Hh again w2 Hag <-. unfold record_prompt_handoff.
    destruct (with_transaction_cases (insert_or_load_handoff again) w2)
      as [(e & w' & -> & Hd & _)|Hc2]; [done|].
    revert Hc2. unfold insert_or_load_handoff at 1. run run_get_db. cbn [db tick].
    rewrite (filter_same_handoff again handoff) by done. rewrite Hh. by intros ->. }
  revert Hc. unfold insert_or_load_handoff at 1. run run_get_db. cbn [db tick].
  destruct (head (filter (same_handoff handoff) (prompt_handoffs (db w)))) as [stored|] eqn:Hh.
  - intros ->. destruct (head_filter_in _ _ _ Hh) as [Hs Hin]. exists stored.
    split; [by right|]. split; [exact Hs|]. split; [exact Hin|]. by apply Hagain.
  - erewrite run_bind by reflexivity. intros ->. exists handoff.
    split; [by left|]. split; [by split_and!|]. split; [apply elem_of_app; right; by left|].
    apply Hagain. simpl. rewrite filter_app. apply head_None in Hh. rewrite Hh. simpl app.
    by rewrite filter_cons_True by (by split_and!).
Qed.

(** The refusal run of a member counts the refused closes since its last
    assignment or other close, saturating at the [u32] range, and starts at the
    first of them. *)
Theorem refusal_run_is_trailing d team agent :
  exists l1 l2, closing_log d team agent = l1 ++ l2
    /\ Forall (fun e => e_event e = "refused") l2
    /\ (forall e, last l1 = Some e -> e_event e <> "refused")
    /\ trailing_refusal_run d team agent
       = mkRefusalRun (Z.min (Z.of_nat (length l2)) u32_max) (e_at <$> head l2).
Proof.
  destruct (take_while_split (fun e => String.eqb (e_event e) "refused")
              (reverse (closing_log d team agent))) as (rest & Hl & Hf & Hh).
  unfold trailing_refusal_run. set (tw := take_while _ _) in *.
  exists (reverse rest), (reverse tw). split_and!.
  - by rewrite <- reverse_app, <- Hl, reverse_involutive.
  - apply Forall_reverse. eapply Forall_impl; [exact Hf|]. intros e He. by apply String.eqb_eq.
  - intros e He. rewrite last_reverse in He. specialize (Hh e He). by apply String.eqb_neq.
  - cbv zeta. rewrite length_reverse. f_equal; [|by rewrite <- last_reverse, reverse_involutive].
    unfold u32_try_from. destruct (decide (Z.of_nat (length tw) <= u32_max)).
    + rewrite bool_decide_eq_true_2 by lia. simpl. lia.
    + rewrite bool_decide_eq_false_2 by lia. simpl. lia.
Qed.
End StoreProps.

(** ** The theorems on the stores of [Demo.v] *)

Lemma record_reminder_correct_witness :
  exists rec w', record_reminder bob "T2" 90 ReminderOutcome_Emitted demo = (Ok rec, w')
    /\ row_reminder_count (rem_row rec) = 1 /\ ledger_ok (tasks (db w')).
Proof.
  pose proof (record_reminder_correct bob "T2" 90 ReminderOutcome_Emitted (row_at demo "T2") demo demo_ledger
    demo_bounded (inv_events _ demo_inv) ltac:(apply row_at_found; vm_compute; reflexivity)
    ltac:(vm_compute; reflexivity) ltac:(vm_compute; discriminate)) as H.
  assert (Hs : succeeds (record_reminder bob "T2" 90 ReminderOutcome_Emitted demo) = true) by (vm_compute; reflexivity).
  assert (Hc : t_reminder_count (row_at demo "T2") = 0) by (vm_compute; reflexivity).
  destruct (record_reminder bob "T2" 90 ReminderOutcome_Emitted demo) as [[rec|e|] w']; [|discriminate Hs..].
  destruct H as (Hn & _ & _ & Hl & _). rewrite Hc in Hn.
  exists rec, w'. split; [reflexivity|]. split; [exact Hn|exact Hl].
Defined.

Lemma task_events_listed_witness :
  exists evs, list_task_events "alpha" "T1" None demo = (Ok evs, demo) /\ length evs = 2%nat.
Proof.
  destruct (task_events_listed "alpha" "T1" demo (inv_events _ demo_inv)) as (evs & Hrun & _ & Hlen).
  exists evs. split; [exact Hrun|].
  assert (Hn : length (task_seqs "alpha" "T1" (task_events (db demo))) = 2%nat) by (vm_compute; reflexivity).
  rewrite Hlen. exact Hn.
Defined.

(** [T1] was closed before the reminder of [bob] is recorded. *)
Lemma reminder_of_closed_task_hides_log_witness :
  exists rec ev w' w2, record_reminder bob "T1" 90 ReminderOutcome_Emitted closed_demo = (Ok rec, w')
    /\ e_close_outcome ev = None /\ task_events (db w') = task_events (db closed_demo) ++ [ev]
    /\ w2 = (reset_reminders bob "T1" 95 (process_batch None demo_batch None w').2).2
    /\ exists e, list_task_events "alpha" "T1" (Some "bob") w2 = (Err e, w2).
Proof.
  destruct (reminder_of_closed_task_hides_log bob "T1" 90 ReminderOutcome_Emitted (row_at closed_demo "T1") closed_demo
    (inv_ledger _ closed_demo_inv) closed_demo_bounded) as (rec & ev & w' & Hrun & Hlog & _ & _ & Hout & Hlater).
  - apply row_at_found. vm_compute. reflexivity.
  - vm_compute. reflexivity.
  - vm_compute. reflexivity.
  - vm_compute. reflexivity.
  - vm_compute. reflexivity.
  - vm_compute. reflexivity.
  - exists rec, ev, w', (reset_reminders bob "T1" 95 (process_batch None demo_batch None w').2).2.
    split; [exact Hrun|]. split; [exact Hout|]. split; [exact Hlog|]. split; [reflexivity|].
    apply Hlater; [|right; reflexivity].
    eapply rtc_l; [apply step_batch; exists None, demo_batch, None; split; [apply Forall_true; intros; exact I|reflexivity]|].
    apply rtc_once, step_reset.
Defined.

Lemma reminder_of_reassigned_task_witness :
  exists rec w', record_reminder bob "T4" 90 ReminderOutcome_Emitted demo = (Ok rec, w')
    /\ tasks (db w') = tasks (db demo).
Proof.
  destruct (reminder_of_reassigned_task bob "T4" 90 ReminderOutcome_Emitted (row_at demo "T4") demo demo_ledger
    demo_bounded) as (rec & w' & Hrun & Ht & _).
  - apply row_at_found. vm_compute. reflexivity.
  - vm_compute. discriminate.
  - vm_compute. reflexivity.
  - vm_compute. reflexivity.
  - exists rec, w'. split; [exact Hrun|exact Ht].
Defined.

Lemma open_tasks_in_queue_order_witness :
  exists rows, open_tasks bob demo = (Ok rows, demo) /\ row_task_id <$> rows = ["T1"; "T2"; "T3"].
Proof.
  destruct (open_tasks_in_queue_order bob ["T1"] ["T2"; "T3"] demo demo_ledger demo_bounded demo_bob)
    as (rows & Hrun & Hids & _).
  exists rows. split; [exact Hrun|exact Hids].
Defined.

Definition ops : AgentAddress := mkAgentAddress "ops" None (Some "alpha") None.

Lemma added_recipient_is_effective_witness :
  address_ok ops
  /\ match add_escalation_recipient (Scope_Team "alpha") ops 90 demo with
     | (Ok _, w') => exists l, effective_escalation_recipients "alpha" w' = (Ok l, w') /\ ops ∈ l
     | _ => False
     end.
Proof.
  assert (Hok : address_ok ops) by (by apply (address_parse_inv "ops@alpha")).
  split; [exact Hok|].
  pose proof (added_recipient_is_effective "alpha" ops 90 demo Hok) as H.
  assert (Hs : succeeds (add_escalation_recipient (Scope_Team "alpha") ops 90 demo) = true)
    by (vm_compute; reflexivity).
  destruct (add_escalation_recipient (Scope_Team "alpha") ops 90 demo) as [[added|e|] w']; [|discriminate Hs..].
  destruct H as [(l & Hl & Hin & _) _]. exists l. split; [exact Hl|exact Hin].
Defined.

Lemma escalation_scope_bounded_witness :
  scope_count (db demo) "daemon" = 0
  /\ match add_escalation_recipient Scope_Daemon ops 90 demo with
     | (Ok added, w') => added = true -> scope_count (db w') "daemon" = 1
     | _ => True
     end.
Proof.
  assert (Hz : forall key, scope_count (db demo) key = 0).
  { intros key. assert (He : escalation_recipients (db demo) = ∅) by (vm_compute; reflexivity).
    unfold scope_count. rewrite He. reflexivity. }
  split; [apply Hz|].
  pose proof (escalation_scope_bounded Scope_Daemon ops 90 demo
    ltac:(intros key; rewrite Hz; discriminate)) as H.
  destruct (add_escalation_recipient Scope_Daemon ops 90 demo) as [[added|e|] w']; [|exact I..].
  destruct H as (_ & _ & _ & Hone). intros Ht. specialize (Hone Ht). simpl in Hone. rewrite Hz in Hone. exact Hone.
Defined.
