(* ===== verification/CronDemo.v ===== *)
(** * A concrete cron history

    Readers and writers that invert each other, and a schedule that is started,
    fails, succeeds, is ended and started again. *)

From S2P Require Import Prelude ErrorCodes Types Address TaskState CronTypes Database Transaction.
From S2P Require Import CronStore CronTransition CronDelivery.
From S2P Require Import MailStore TaskOps Admission Writer WriterSpec Demo.
From stdpp Require Import base gmap strings list numbers sorting pretty countable.
From Stdlib Require Import Ascii.
Local Open Scope Z_scope.
Local Open Scope string_scope.
Local Open Scope list_scope.

(** A stored intent as nested pairs and sums. *)
Definition kind_text (k : CronFailureKind) : string := failure_kind_debug k.
Definition text_kind (s : string) : option CronFailureKind :=
  find (fun k => String.eqb (kind_text k) s)
    [FailureKind_Timeout; FailureKind_MalformedReply; FailureKind_RunnerExit; FailureKind_Refused;
     FailureKind_ActionFailed; FailureKind_StopCheckFailed].

Definition output_pair (o : CronModuleOutput) : bool * string :=
  match o with CronModuleOutput_Message b => (true, b) | CronModuleOutput_Error b => (false, b) end.
Definition pair_output (p : bool * string) : CronModuleOutput :=
  if p.1 then CronModuleOutput_Message p.2 else CronModuleOutput_Error p.2.

Definition event_sum (e : StoredEvent) : (string * option string * string) + string :=
  match e with
  | StoredEvent_Error k c d => inl (kind_text k, c, d)
  | StoredEvent_Stopped m => inr m
  end.
Definition sum_event (s : (string * option string * string) + string) : option StoredEvent :=
  match s with
  | inl (k, c, d) => k ← text_kind k; Some (StoredEvent_Error k c d)
  | inr m => Some (StoredEvent_Stopped m)
  end.

Abbreviation IntentText :=
  ((string * string * string * ((string * option string * string) + string))
   + (string * string * string * string * (bool * string)))%type (only parsing).

Definition intent_sum (i : StoredIntent) : IntentText :=
  match i with
  | StoredIntent_Lifecycle t r n e => inl (t, r, n, event_sum e)
  | StoredIntent_ModuleMail m t r n o => inr (m, t, r, n, output_pair o)
  end.
Definition sum_intent (s : IntentText) : option StoredIntent :=
  match s with
  | inl (t, r, n, e) => e ← sum_event e; Some (StoredIntent_Lifecycle t r n e)
  | inr (m, t, r, n, o) => Some (StoredIntent_ModuleMail m t r n (pair_output o))
  end.

Lemma sum_intent_sum i : sum_intent (intent_sum i) = Some i.
Proof. destruct i as [t r n [[] c d|m]|m t r n []]; reflexivity. Qed.

#[export] Instance demo_crt : CronRuntime :=
  {| stamp t := to_text t;
     timestamp_from_str s := from_text s;
     args_to_string args := to_text args;
     args_from_str s := from_text s;
     object_to_string _ := "{}";
     intent_to_string i := to_text (intent_sum i);
     intent_from_str s :=
       match from_text s with
       | inl e => inl e
       | inr t => match sum_intent t with Some i => inr i | None => inl "invalid intent" end
       end;
     ulid_from_str s := from_text s;
     sqlite_message _ := "constraint failed" |}.

#[export] Instance demo_crt_ok : CronRuntimeOk demo_rt demo_crt.
Proof.
  constructor; simpl.
  - intros t _. apply from_to_text.
  - intros args. apply from_to_text.
  - intros i. by rewrite from_to_text, sum_intent_sum.
  - intros id _. apply from_to_text.
  - intros n. pose proof (N.mod_lt (N.of_nat n) (2 ^ 128 - 1000)). lia.
Qed.
