(* ===== verification/PendingProps.v ===== *)
(** * Properties of the pending nudges

    Every statement that writes the table of message states, as one step each; the
    type of its nudge columns, which all of them keep; the claim of the oldest due
    message; and the lease a claim holds. *)

From S2P Require Import Prelude ErrorCodes Types Address TaskState CronTypes Database Transaction.
From S2P Require Import Threading Selection Roster MailStore CronStore MailboxReader Admission.
From S2P Require Import WriterInv PendingNudge Demo CronDemo.
From stdpp Require Import base gmap strings numbers sorting list.
From Stdlib Require Import Ascii.
Local Open Scope Z_scope.
Local Open Scope string_scope.
Local Open Scope list_scope.

(** ** Texts that are not blank *)

(** A character in none of the patterns is never stripped. *)
Lemma strip_pattern_keeps c p l r :
  strip_pattern p l = Some r -> c ∈ l -> Ascii.nat_of_ascii c ∉ p -> c ∈ r.
Proof.
  revert l. induction p as [|n p IH]; intros l; [by intros [= <-]|]. destruct l as [|d l]; [done|].
  cbn. destruct (Nat.eqb_spec n (Ascii.nat_of_ascii d)) as [->|]; [|done]. intros H Hc Hn.
  apply not_elem_of_cons in Hn as [Hd Hn]. apply elem_of_cons in Hc as [->|Hc]; [done|]. by eapply IH.
Qed.

Lemma strip_all_keeps c fuel ps l :
  c ∈ l -> Forall (fun p => Ascii.nat_of_ascii c ∉ p) ps -> c ∈ strip_all fuel ps l.
Proof.
  revert l. induction fuel as [|fuel IH]; intros l Hc Hps; [done|]. cbn.
  destruct (strip_one ps l) as [r|] eqn:E; [|done]. apply IH; [|done]. clear IH.
  induction Hps as [|p ps Hp _ IHp]; [done|]. cbn in E.
  destruct (strip_pattern p l) eqn:Ep; [|by apply IHp]. injection E as <-. by eapply strip_pattern_keeps.
Qed.

Lemma trim_keeps_a s : trim (String "a"%char s) <> "".
Proof.
  assert ("a"%char ∈ trim_end (trim_start (String.list_ascii_of_string (String "a"%char s)))) as H.
  { unfold trim_end. apply elem_of_reverse, strip_all_keeps.
    - apply elem_of_reverse. unfold trim_start. apply strip_all_keeps; [left|]. by apply (bool_decide_unpack _); vm_compute.
    - by apply (bool_decide_unpack _); vm_compute. }
  unfold trim. by destruct (trim_end _); [apply not_elem_of_nil in H|].
Qed.

(** ** Steps *)

(** The statements that write [mail_message_states]: those of the pending nudges,
    and those of the writer operations. *)
Inductive NudgeOp : Set :=
| Op_MarkPending (member : MemberKey) (msg : AtmMessageId) (at_ : IsoTimestamp)
| Op_Claim (member : MemberKey)
| Op_Requeue (member : MemberKey) (claim : NudgeClaim)
| Op_Release (member : MemberKey) (claim : NudgeClaim)
| Op_Rearm (member : MemberKey) (msg : AtmMessageId) (next_due : IsoTimestamp)
| Op_CompleteTerminal (member : MemberKey) (claim : NudgeClaim)
| Op_RestoreTerminal (member : MemberKey) (claim : NudgeClaim)
| Op_Upsert (k : MailKey) (read : bool)
    (pending acknowledged expires deleted : option IsoTimestamp) (updated : IsoTimestamp)
| Op_MarkRead (k : MailKey) (updated_at next_due : IsoTimestamp)
| Op_Delete (key : MessageKey) (provenance : MessageWriteOrigin).

Abbreviation States := (gmap MailKey MailStateRow).

(** The table after an [update_state]. *)
Definition updated (k : MailKey) (guard : MailStateRow -> bool) (f : MailStateRow -> MailStateRow)
    (t : States) : States :=
  match t !! k with
  | Some s => if guard s then <[k := f s]> t else t
  | None => t
  end.

Lemma run_update_state k guard f w :
  exists b d, update_state k guard f w = (Ok b, mkWorld d (ticks w))
              /\ mail_message_states d = updated k guard f (mail_message_states (db w)).
Proof.
  unfold update_state, updated. step. destruct (mail_message_states (db w) !! k) as [s|].
  - destruct (guard s); [by eexists true, _|exists false, (db w); by destruct w].
  - exists false, (db w). by destruct w.
Qed.

Section Props.
Context {rt : Runtime} {crt : CronRuntime} {crt_ok : CronRuntimeOk rt crt}.

Definition run_op (op : NudgeOp) : M (option NudgeClaim) :=
  match op with
  | Op_MarkPending member msg at_ => _ ← mark_pending member msg at_; mret None
  | Op_Claim member => claim_next_pending member
  | Op_Requeue member claim => _ ← requeue_pending member claim; mret None
  | Op_Release member claim => _ ← release_pending member claim; mret None
  | Op_Rearm member msg next_due => _ ← rearm_pending_after_handoff member msg next_due; mret None
  | Op_CompleteTerminal member claim =>
    _ ← complete_pending_before_terminal_handoff member claim; mret None
  | Op_RestoreTerminal member claim =>
    _ ← restore_pending_after_failed_terminal_handoff member claim; mret None
  | Op_Upsert k read pending acknowledged expires deleted updated =>
    _ ← upsert_message_state k read pending acknowledged expires deleted updated; mret None
  | Op_MarkRead k updated_at next_due => _ ← mark_message_read k updated_at next_due; mret None
  | Op_Delete key provenance => _ ← execute_delete_message key provenance; mret None
  end.

(** The time an operation takes from the clock. *)
Definition op_time (w : World) : IsoTimestamp := now_at (ticks w).

(** What an operation that commits does to the table. *)
Definition effect (at_ : IsoTimestamp) (op : NudgeOp) (d : Db) : States :=
  let t := mail_message_states d in
  match op with
  | Op_MarkPending member msg at_ =>
    updated (nudge_key member msg) (fun s => negb (s_read s) && bool_decide (s_deleted_at s = None))
      (set_marker (Some at_) 0 at_) t
  | Op_Claim member =>
    match oldest_claimable member at_ d with
    | Some (k, s) => <[k := set_marker (Some (next_reminder_due at_)) (s_nudge_attempts s) at_ s]> t
    | None => t
    end
  | Op_Requeue member claim =>
    updated (nudge_key member (claim_msg claim)) (claim_holds claim)
      (if Z.leb MAX_NUDGE_ATTEMPTS (claim_attempt claim + 1)
       then set_marker (Some (next_reminder_due at_)) 0 at_
       else set_marker (Some at_) (claim_attempt claim + 1) at_) t
  | Op_Release member claim =>
    updated (nudge_key member (claim_msg claim)) (claim_holds claim)
      (fun s => set_marker (Some at_) (s_nudge_attempts s) at_ s) t
  | Op_Rearm member msg next_due =>
    updated (nudge_key member msg) open_item
      (fun s => set_marker (Some next_due) (s_nudge_attempts s) at_ s) t
  | Op_CompleteTerminal member claim =>
    updated (nudge_key member (claim_msg claim)) (claim_holds claim)
      (fun s => set_marker None (s_nudge_attempts s) at_ s) t
  | Op_RestoreTerminal member claim =>
    updated (nudge_key member (claim_msg claim))
      (fun s => bool_decide (s_nudge_pending_at s = None)
                && Z.eqb (s_nudge_attempts s) (claim_attempt claim) && open_item s)
      (fun s => set_marker (Some at_) (s_nudge_attempts s) at_ s) t
  | Op_Upsert k read pending acknowledged expires deleted updated =>
    mail_message_states
      (db (upsert_message_state k read pending acknowledged expires deleted updated (mkWorld d 0)).2)
  | Op_MarkRead k updated_at next_due =>
    mail_message_states (db (mark_message_read k updated_at next_due (mkWorld d 0)).2)
  | Op_Delete key _ => filter (fun kr : MailKey * MailStateRow => kr.1.2 <> key) t
  end.

(** A transaction leaves the database as it was, or commits what its body did. *)
Lemma transaction_effect {A} (c : M A) w o w' :
  with_transaction c w = (o, w') ->
  db w' = db w \/ exists a w1, c (tick w) = (Ok a, w1) /\ o = Ok a /\ db w' = db w1.
Proof.
  intros E. destruct (with_transaction_cases c w) as [(e & w1 & E1 & Hd & _)|H].
  - rewrite E1 in E. injection E as <- <-. by left.
  - destruct (c (tick w)) as [[a|e|] w1]; rewrite H in E; injection E as <- <-; [right|by left..].
    by exists a, w1.
Qed.

Lemma update_transaction {A} k guard f (g : bool -> A) w o w' :
  with_transaction (b ← update_state k guard f; mret (g b)) w = (o, w') ->
  db w' = db w
  \/ mail_message_states (db w') = updated k guard f (mail_message_states (db w)).
Proof.
  intros [?|(a & w1 & H & _ & ->)]%transaction_effect; [by left|right].
  destruct (run_update_state k guard f (tick w)) as (b & d & Hb & Hd).
  rewrite (run_bind _ _ _ _ _ Hb) in H. by injection H as <- <-.
Qed.

Lemma update_transaction' k guard f w o w' :
  with_transaction (update_state k guard f) w = (o, w') ->
  db w' = db w
  \/ mail_message_states (db w') = updated k guard f (mail_message_states (db w)).
Proof.
  intros [?|(a & w1 & H & _ & ->)]%transaction_effect; [by left|right].
  destruct (run_update_state k guard f (tick w)) as (b & d & Hb & Hd). rewrite Hb in H.
  by injection H as <- <-.
Qed.

(** What follows a computation with its answer dropped. *)
Lemma then_none {A B} (c : M A) (b : B) w o w' :
  (_ ← c; mret b) w = (o, w') -> exists o', c w = (o', w').
Proof.
  unfold mbind, M_bind, st_mbind, st_bind. destruct (c w) as [[a|e|] w1]; intros [= <- <-]; eauto.
Qed.

Lemma claim_effect member w o w' :
  claim_next_pending member w = (o, w') ->
  db w' = db w \/ mail_message_states (db w') = effect (op_time w) (Op_Claim member) (db w).
Proof.
  unfold claim_next_pending, effect, op_time. step.
  intros [?|(a & w1 & H & _ & ->)]%transaction_effect; [by left|right]. revert H. step. cbn [db tick].
  destruct (oldest_claimable member (now_at (ticks w)) (db w)) as [[k s]|]; [|by intros [= _ <-]].
  step. destruct (u32_try_from _); [|done]. step.
  intros (key & w2 & Hk & H)%run_bind_ok_inv.
  destruct (message_key_new k.2); try done. injection Hk as _ <-.
  apply run_bind_ok_inv in H as (msg & w3 & Hm & H).
  destruct (as_atm_message_id key); try done. injection Hm as _ <-. by injection H as _ <-.
Qed.

Lemma now_then {A} (f : IsoTimestamp -> M A) w : (at_ ← now; f at_) w = f (op_time w) (tick w).
Proof. done. Qed.

Lemma delete_effect key provenance w o w' :
  execute_delete_message key provenance w = (o, w') ->
  db w' = db w
  \/ mail_message_states (db w')
     = filter (fun kr : MailKey * MailStateRow => kr.1.2 <> key) (mail_message_states (db w)).
Proof.
  unfold execute_delete_message. destruct (fence_cases provenance w) as [E|[e E]].
  - rewrite (run_bind _ _ _ _ _ E). intros [= <- <-]. by right.
  - rewrite (run_bind_err _ _ _ _ _ E). intros [= <- <-]. by left.
Qed.

(** One row changed in a transaction, at a time read before it. *)
Local Ltac timed_update :=
  rewrite now_then; let H := fresh in intros H;
  first [exact (update_transaction _ _ _ _ _ _ _ H) | exact (update_transaction' _ _ _ _ _ _ H)].

Lemma run_op_effect op w o w' :
  run_op op w = (o, w') ->
  db w' = db w \/ mail_message_states (db w') = effect (op_time w) op (db w).
Proof.
  destruct op; cbn [run_op effect]; try (intros [o' H]%then_none; revert H).
  - apply update_transaction'.
  - apply claim_effect.
  - unfold requeue_pending. timed_update.
  - unfold release_pending. timed_update.
  - unfold rearm_pending_after_handoff. timed_update.
  - unfold complete_pending_before_terminal_handoff. timed_update.
  - unfold restore_pending_after_failed_terminal_handoff. timed_update.
  - unfold upsert_message_state. step. intros [= _ <-]. by right.
  - intros H. right. replace w' with (mark_message_read k updated_at next_due w).2 by (by rewrite H).
    unfold mark_message_read, mbind, M_bind, st_mbind, st_bind, get_db. cbn [db].
    destruct (mail_message_states (db w) !! k) as [s|]; [|done]. by destruct (bool_decide _).
  - apply delete_effect.
Qed.

(** ** The type of the nudge columns *)

(** The attempts are below the limit, and a marker stands on a message of ATM. *)
Definition nudge_row_ok (k : MailKey) (s : MailStateRow) : Prop :=
  0 <= s_nudge_attempts s < MAX_NUDGE_ATTEMPTS
  /\ (is_Some (s_nudge_pending_at s) -> exists id, (id < 2 ^ 128)%N /\ k.2 = message_key_from id).

Definition nudge_ok (t : States) : Prop := map_Forall nudge_row_ok t.

(** Claims carry what a claim gave out, and messages have ULIDs. *)
Definition op_ok (op : NudgeOp) : Prop :=
  match op with
  | Op_MarkPending _ msg _ | Op_Rearm _ msg _ => (msg < 2 ^ 128)%N
  | Op_Requeue _ claim | Op_Release _ claim | Op_CompleteTerminal _ claim
  | Op_RestoreTerminal _ claim =>
    (claim_msg claim < 2 ^ 128)%N /\ 0 <= claim_attempt claim < MAX_NUDGE_ATTEMPTS
  | _ => True
  end.

Lemma updated_ok k guard f t :
  (forall s, t !! k = Some s -> guard s = true -> nudge_row_ok k s -> nudge_row_ok k (f s)) ->
  nudge_ok t -> nudge_ok (updated k guard f t).
Proof.
  intros Hf Ht. unfold updated. destruct (t !! k) as [s|] eqn:E; [|done]. destruct (guard s) eqn:Eg; [|done].
  apply map_Forall_insert_2; [|done]. apply Hf; [done..|]. by apply (Ht _ _ E).
Qed.

(** The row of a message of ATM with another marker. *)
Lemma marked_ok member msg marker attempts at_ s :
  (msg < 2 ^ 128)%N -> 0 <= attempts < MAX_NUDGE_ATTEMPTS ->
  nudge_row_ok (nudge_key member msg) (set_marker marker attempts at_ s).
Proof. intros Hm Ha. split; [done|]. intros _. by exists msg. Qed.

Lemma oldest_claimable_spec member at_ d k s :
  oldest_claimable member at_ d = Some (k, s) ->
  mail_message_states d !! k = Some s /\ claimable member at_ (k, s) = true
  /\ forall k' s', mail_message_states d !! k' = Some s' -> claimable member at_ (k', s') = true ->
       String.compare k.2 k'.2 <> Gt.
Proof.
  unfold oldest_claimable. intros H.
  assert ((k, s) ∈ List.filter (claimable member at_) (map_to_list (mail_message_states d))) as Hin.
  { rewrite <- elem_of_sort_by. apply head_Some_elem_of in H. exact H. }
  apply list_filter_elem in Hin as [Hin Hc]. apply elem_of_map_to_list in Hin. split; [done|].
  split; [done|]. intros k' s' Hk' Hc'.
  pose proof (cmp_ok_on (fun e : MailKey * MailStateRow => e.1.2) _ cmp_ok_string) as Hcmp.
  destruct (sort_by_head_le by_message_key (cmp_ok_total _ Hcmp) (cmp_le_trans _ Hcmp)
              (k, s) _ (k', s') H) as [E|E].
  - apply list_filter_elem. split; [by apply elem_of_map_to_list|done].
  - injection E as -> ->. change (k', s').1.2 with k'.2 in *.
    pose proof (cmp_anti _ cmp_ok_string k'.2 k'.2) as Ha. by destruct (String.compare k'.2 k'.2).
  - exact E.
Qed.

Lemma message_key_of_id id : message_key_new (message_key_from id) = Ok (message_key_from id).
Proof.
  unfold message_key_new, require_non_blank, message_key_from.
  pose proof (trim_keeps_a ("tm:" +:+ ulid_to_string id)) as H. revert H.
  change (String "a"%char ("tm:" +:+ ulid_to_string id)) with ("atm:" +:+ ulid_to_string id).
  by intros ->%String.eqb_neq.
Qed.

Lemma id_of_message_key id :
  (id < 2 ^ 128)%N -> as_atm_message_id (message_key_from id) = Ok id.
Proof.
  intros H. unfold as_atm_message_id, message_key_from.
  replace (String.prefix "atm:" ("atm:" +:+ ulid_to_string id)) with true by (by destruct (ulid_to_string id)).
  replace (String.substring 4 _ _) with (ulid_to_string id).
  { by rewrite ulid_parse. }
  set (u := ulid_to_string id). change (String.length ("atm:" +:+ u) - 4)%nat with (String.length u - 0)%nat.
  rewrite Nat.sub_0_r. symmetry. exact (substring_all u).
Qed.

Lemma effect_ok at_ op d :
  op_ok op -> nudge_ok (mail_message_states d) -> nudge_ok (effect at_ op d).
Proof.
  intros Hop Hd. destruct op; cbn [effect op_ok] in *.
  - apply updated_ok; [|done]. intros s _ _ _. by apply marked_ok.
  - destruct (oldest_claimable member at_ d) as [[k s]|] eqn:E; [|done].
    apply oldest_claimable_spec in E as (Hk & Hc & _). apply map_Forall_insert_2; [|done].
    destruct (Hd _ _ Hk) as [Ha Hm]. split; [done|]. intros _. apply Hm. unfold claimable in Hc.
    destruct k as [[team agent] key]. by destruct (s_nudge_pending_at s); [|rewrite andb_false_r in Hc].
  - apply updated_ok; [|done]. intros s _ _ _. destruct (Z.leb_spec MAX_NUDGE_ATTEMPTS (claim_attempt claim + 1));
      apply marked_ok; unfold MAX_NUDGE_ATTEMPTS in *; lia || by apply Hop.
  - apply updated_ok; [|done]. intros s _ _ Hs. apply marked_ok; [by apply Hop|apply Hs].
  - apply updated_ok; [|done]. intros s _ _ Hs. apply marked_ok; [done|apply Hs].
  - apply updated_ok; [|done]. intros s _ _ Hs. apply marked_ok; [by apply Hop|apply Hs].
  - apply updated_ok; [|done]. intros s _ _ Hs. apply marked_ok; [by apply Hop|apply Hs].
  - apply map_Forall_insert_2; [|done]. unfold nudge_row_ok. cbn.
    destruct (mail_message_states d !! k) as [s|] eqn:E; cbn; [|split; [done|by intros []]].
    destruct (Hd _ _ E) as [Ha Hm]. split; [done|]. destruct (read && _); [by intros []|done].
  - unfold mark_message_read, mbind, M_bind, st_mbind, st_bind, get_db. cbn [db].
    destruct (mail_message_states d !! k) as [s|] eqn:E; [|done].
    destruct (bool_decide _); [|done]. apply map_Forall_insert_2; [|done].
    destruct (Hd _ _ E) as [Ha Hm]. split; [done|]. cbn.
    destruct (bool_decide (is_Some (s_nudge_pending_at s))) eqn:Es; [|by intros []].
    intros _. apply Hm. by apply bool_decide_eq_true in Es.
  - intros k s [Hk _]%map_lookup_filter_Some. by apply (Hd k s).
Qed.

(** Operations one after another, whatever each of them answers. *)
Fixpoint run_ops (ops : list NudgeOp) (w : World) : World :=
  match ops with
  | [] => w
  | op :: ops => run_ops ops (run_op op w).2
  end.

Lemma run_op_cases op w :
  db (run_op op w).2 = db w
  \/ mail_message_states (db (run_op op w).2) = effect (op_time w) op (db w).
Proof. destruct (run_op op w) as [o w'] eqn:E. by apply (run_op_effect _ _ _ _ E). Qed.

Lemma run_op_ok op w :
  op_ok op -> nudge_ok (mail_message_states (db w)) ->
  nudge_ok (mail_message_states (db (run_op op w).2)).
Proof.
  intros Hop Hd. destruct (run_op_cases op w) as [-> | ->]; [done|]. by apply effect_ok.
Qed.

(** C20: Whatever statements run on the table of message states, in any order and with any
    failures, the attempts of a message stay between 0 and 4 and a marker stands on a message
    with an ATM id only. A marker therefore never becomes ineligible: an open message whose
    marker is due can always be claimed, however many deliveries of it have failed. *)
Theorem nudge_rows_typed ops w member key s due at_ :
  Forall op_ok ops -> nudge_ok (mail_message_states (db w)) ->
  nudge_ok (mail_message_states (db (run_ops ops w)))
  /\ (mail_message_states (db (run_ops ops w)) !! (member_team member, member_agent member, key) = Some s ->
      s_nudge_pending_at s = Some due -> due <= at_ -> open_item s = true ->
      claimable member at_ ((member_team member, member_agent member, key), s) = true).
Proof.
  intros Hops Hw.
  assert (nudge_ok (mail_message_states (db (run_ops ops w)))) as Hok.
  { revert w Hw. induction Hops as [|op ops Hop _ IH]; intros w Hw; [done|]. by apply IH, run_op_ok. }
  split; [done|]. intros Hk Hm Hdue Ho. destruct (Hok _ _ Hk) as [Ha _]. unfold claimable.
  by rewrite !String.eqb_refl, Hm, Ho, (proj2 (Z.leb_le _ _) Hdue), (proj2 (Z.ltb_lt _ _) (proj2 Ha)).
Qed.

(** ** Claims *)

(** The database begins and commits the transaction of an operation started now. *)
Definition calm (w : World) : Prop :=
  control_fault (S (ticks w)) = None /\ control_fault (S (S (ticks w))) = None.

(** A claim of a typed table without faults of the database. *)
Lemma run_claim member w :
  nudge_ok (mail_message_states (db w)) -> calm w ->
  match oldest_claimable member (op_time w) (db w) with
  | None => exists w', claim_next_pending member w = (Ok None, w') /\ db w' = db w
  | Some (k, s) =>
    exists msg w', claim_next_pending member w = (Ok (Some (mkNudgeClaim msg (s_nudge_attempts s))), w')
      /\ k = nudge_key member msg
      /\ db w' = set_mail_message_states
           (<[k := set_marker (Some (next_reminder_due (op_time w))) (s_nudge_attempts s) (op_time w) s]>
              (mail_message_states (db w))) (db w)
  end.
Proof.
  intros Hok [Hf Hf']. unfold claim_next_pending. rewrite now_then. change (db w) with (db (tick w)).
  destruct (oldest_claimable member (op_time w) (db (tick w))) as [[k s]|] eqn:E.
  - pose proof (oldest_claimable_spec _ _ _ _ _ E) as (Hk & Hc & _).
    destruct (Hok _ _ Hk) as [Ha Hm]. destruct k as [[team agent] key]. cbn in Hc.
    apply andb_true_iff in Hc as [Hc _]. apply andb_true_iff in Hc as [Hc _].
    apply andb_true_iff in Hc as [Hc Hp]. apply andb_true_iff in Hc as [->%String.eqb_eq ->%String.eqb_eq].
    destruct (s_nudge_pending_at s) as [due|] eqn:Es; [|done]. cbn in Hm.
    destruct Hm as (msg & Hid & ->); [done|].
    exists msg, (tick (mkWorld (set_mail_message_states
      (<[nudge_key member msg := set_marker (Some (next_reminder_due (op_time w))) (s_nudge_attempts s)
           (op_time w) s]> (mail_message_states (db w))) (db w)) (S (S (ticks w))))).
    split; [|done]. apply with_transaction_ok; [|done..]. step. cbn [db tick] in E |- *.
    rewrite E. step. unfold u32_try_from. rewrite bool_decide_true by (unfold MAX_NUDGE_ATTEMPTS, u32_max in *; lia).
    step. erewrite run_bind; [|apply run_lift, message_key_of_id].
    erewrite run_bind; [|by apply run_lift, id_of_message_key]. reflexivity.
  - exists (tick (tick (tick w))). split; [|done]. apply with_transaction_ok; [|done..].
    step. cbn [db tick] in E |- *. by rewrite E.
Qed.


(** ** Leases *)

(** An operation that does not bring the marker of this message before [due]. *)
Definition leaves_claim (k : MailKey) (due : IsoTimestamp) (op : NudgeOp) : Prop :=
  match op with
  | Op_MarkPending member msg at_ => nudge_key member msg = k -> due <= at_
  | Op_Requeue member claim | Op_Release member claim | Op_RestoreTerminal member claim =>
    nudge_key member (claim_msg claim) <> k
  | Op_Rearm member msg next_due => nudge_key member msg = k -> due <= next_due
  | Op_MarkRead k' _ next_due => k' = k -> due <= next_due
  | Op_Claim _ | Op_CompleteTerminal _ _ | Op_Upsert _ _ _ _ _ _ _ | Op_Delete _ _ => True
  end.

(** No marker of the message is due before [due]. *)
Definition leased (k : MailKey) (due : IsoTimestamp) (t : States) : Prop :=
  forall s marker, t !! k = Some s -> s_nudge_pending_at s = Some marker -> due <= marker.

Lemma leased_insert (k : MailKey) (due : IsoTimestamp) (k' : MailKey) (s : MailStateRow) (t : States) :
  leased k due t -> (k' = k -> forall marker, s_nudge_pending_at s = Some marker -> due <= marker) ->
  leased k due (<[k' := s]> t).
Proof.
  intros Ht Hs s' marker. rewrite lookup_insert_Some. intros [[-> <-]|[_ H]]; [by apply Hs|by apply Ht].
Qed.

Lemma leased_updated (k : MailKey) (due : IsoTimestamp) (k' : MailKey)
    (guard : MailStateRow -> bool) (f : MailStateRow -> MailStateRow) (t : States) :
  leased k due t ->
  (forall s, t !! k = Some s -> k' = k ->
     forall marker, s_nudge_pending_at (f s) = Some marker -> due <= marker) ->
  leased k due (updated k' guard f t).
Proof.
  intros Ht Hf. unfold updated. destruct (t !! k') as [s|] eqn:E; [|done]. destruct (guard s); [|done].
  apply leased_insert; [done|]. intros ->. by apply Hf.
Qed.

Lemma effect_leased k due at_ op d :
  leaves_claim k due op -> leased k due (mail_message_states d) -> leased k due (effect at_ op d).
Proof.
  intros Hop Hd. destruct op; cbn [effect leaves_claim] in *.
  - apply leased_updated; [done|]. intros s _ E marker [= <-]. by apply Hop.
  - destruct (oldest_claimable member at_ d) as [[k' s]|] eqn:E; [|done].
    apply oldest_claimable_spec in E as (Hk & Hc & _). apply leased_insert; [done|].
    intros -> marker [= <-]. unfold claimable in Hc. destruct k as [[team agent] key].
    destruct (s_nudge_pending_at s) as [m|] eqn:Em; [|by rewrite andb_false_r in Hc].
    specialize (Hd _ _ Hk Em). destruct (Z.leb_spec m at_); [|by rewrite andb_false_r in Hc].
    unfold next_reminder_due, TASK_REMINDER_INTERVAL_NS. lia.
  - by apply leased_updated.
  - by apply leased_updated.
  - apply leased_updated; [done|]. intros s _ E marker [= <-]. by apply Hop.
  - by apply leased_updated.
  - by apply leased_updated.
  - apply leased_insert; [done|]. intros -> marker. cbn.
    destruct (mail_message_states d !! k) as [s|] eqn:E; [|done]. cbn.
    destruct (read && _); [done|]. by apply Hd.
  - unfold mark_message_read, mbind, M_bind, st_mbind, st_bind, get_db. cbn [db].
    destruct (mail_message_states d !! k0) as [s|] eqn:E; [|done]. destruct (bool_decide _); [|done].
    apply leased_insert; [done|]. intros -> marker. cbn.
    destruct (_ && _); [|done]. intros [= <-]. by apply Hop.
  - intros s marker [Hk _]%map_lookup_filter_Some. by apply Hd.
Qed.

(** A claim that answers was begun and committed. *)
Lemma claim_calm member w answer w' : claim_next_pending member w = (Ok answer, w') -> calm w.
Proof.
  unfold claim_next_pending, calm. rewrite now_then. unfold with_transaction. cbn [ticks tick].
  destruct (control_fault (S (ticks w))); [done|]. intros H. split; [done|]. revert H.
  match goal with |- context [match ?body ?start with _ => _ end] =>
    assert (ticks (body start).2 = S (S (ticks w))) as Ht; [|destruct (body start) as [[a|e|] w1]]
  end; [|cbn in Ht; rewrite <- Ht; by destruct (control_fault (ticks w1))|done..].
  step. destruct (oldest_claimable _ _ _) as [[k s]|]; [|done]. step.
  destruct (u32_try_from _); [|done]. step. unfold mbind, M_bind, st_mbind, st_bind.
  unfold lift, st_lift. destruct (message_key_new k.2); try done. by destruct (as_atm_message_id a).
Qed.

(** C16: A claim is a lease of one minute. After a member claims a message, no claim of that
    member at a time before the minute is over gives the message out again, whatever
    happens in between to this and to other messages, claims that fail or repeat included,
    as long as the message itself is not put back (released, requeued, restored, or marked
    or rearmed with an earlier time). *)
Theorem claim_is_lease member claim w w1 ops claim' w3 :
  nudge_ok (mail_message_states (db w)) ->
  claim_next_pending member w = (Ok (Some claim), w1) ->
  let k := nudge_key member (claim_msg claim) in
  let due := now_at (ticks w) + 60000000000 in
  Forall op_ok ops -> Forall (leaves_claim k due) ops ->
  let w2 := run_ops ops w1 in
  now_at (ticks w2) < due -> claim_next_pending member w2 = (Ok (Some claim'), w3) ->
  claim_msg claim' <> claim_msg claim.
Proof.
  intros Hok Hc k due Hops Hl w2 Ht Hc' E.
  pose proof (run_op_ok (Op_Claim member) w I Hok) as Hok1. cbn [run_op] in Hok1. rewrite Hc in Hok1.
  assert (leased k due (mail_message_states (db w1))) as H1.
  { pose proof (run_claim member w Hok (claim_calm _ _ _ _ Hc)) as H.
    destruct (oldest_claimable _ _ _) as [[k' s]|].
    - destruct H as (msg & w' & H & -> & Hd). rewrite Hc in H. injection H as -> ->. rewrite Hd.
      intros s' marker. cbn. rewrite lookup_insert_eq. intros [= <-] [= <-]. done.
    - destruct H as (w' & H & _). by rewrite Hc in H. }
  assert (nudge_ok (mail_message_states (db w2)) /\ leased k due (mail_message_states (db w2)))
    as [Hok2 H2].
  { subst w2. clear Hc Ht Hc'. cbn in Hok1. revert w1 Hok1 H1.
    induction Hops as [|op ops Hop _ IH]; intros w1 Hok1 H1; [done|].
    apply Forall_cons in Hl as [Hl1 Hl]. apply (IH Hl); [by apply run_op_ok|].
    destruct (run_op_cases op w1) as [-> | ->]; [done|]. by apply effect_leased. }
  pose proof (run_claim member w2 Hok2 (claim_calm _ _ _ _ Hc')) as H.
  destruct (oldest_claimable _ _ _) as [[k' s]|] eqn:Eo.
  - destruct H as (msg & w' & H & -> & _). rewrite Hc' in H. injection H as -> _.
    apply oldest_claimable_spec in Eo as (Hk & Hcl & _). cbn in E. subst msg. cbn in Hcl.
    destruct (s_nudge_pending_at s) as [m|] eqn:Em; [|by rewrite !andb_false_r in Hcl].
    specialize (H2 _ _ Hk Em). destruct (Z.leb_spec m (op_time w2)); [unfold op_time in *; lia|].
    by rewrite !andb_false_r in Hcl.
  - destruct H as (w' & H & _). by rewrite Hc' in H.
Qed.
End Props.

(** ** A mailbox *)

(** [bob] has two unread messages, 8 and 9, both due since time 0; the text of 9 is the
    first. *)
Definition unread (marker : option IsoTimestamp) (attempts : Z) : MailStateRow :=
  mkMailStateRow false None None None None None marker attempts.
Definition bob_states : States :=
  {[ nudge_key bob 9 := unread (Some 0) 4; nudge_key bob 8 := unread (Some 0) 0 ]}.
Definition bob_world : World := mkWorld (set_mail_message_states bob_states (empty_db ∅ demo_cron)) 0.

Lemma bob_states_ok : nudge_ok bob_states.
Proof.
  unfold nudge_ok, bob_states. apply map_Forall_insert_2; [|apply map_Forall_singleton].
  - split; [done|]. intros _. by exists 9%N.
  - split; [done|]. intros _. by exists 8%N.
Qed.

(** Message 9 is requeued after its fifth attempt: deferred, with its attempts restored. *)
Definition bob_ops : list NudgeOp :=
  [Op_Claim bob; Op_Requeue bob (mkNudgeClaim 9 4); Op_Claim bob].

Lemma nudge_rows_typed_witness :
  nudge_ok (mail_message_states (db (run_ops bob_ops bob_world)))
  /\ mail_message_states (db (run_ops bob_ops bob_world)) !! nudge_key bob 9
     = Some (set_marker (Some 60000000003) 0 3 (unread None 0))
  /\ claimable bob 70000000000 (nudge_key bob 9, set_marker (Some 60000000003) 0 3 (unread None 0)) = true.
Proof.
  assert (Forall op_ok bob_ops) as Hops by (repeat (constructor; [done|]); constructor).
  assert (mail_message_states (db (run_ops bob_ops bob_world)) !! nudge_key bob 9
          = Some (set_marker (Some 60000000003) 0 3 (unread None 0))) as E by (vm_compute; reflexivity).
  destruct (nudge_rows_typed bob_ops bob_world bob (message_key_from 9)
              (set_marker (Some 60000000003) 0 3 (unread None 0)) 60000000003 70000000000
              Hops bob_states_ok) as [H1 H2].
  split; [exact H1|]. split; [exact E|]. apply H2; [exact E|reflexivity|lia|reflexivity].
Defined.

Lemma bob_claims :
  claim_next_pending bob bob_world
  = (Ok (Some (mkNudgeClaim 9 4)), (claim_next_pending bob bob_world).2).
Proof. vm_compute. reflexivity. Qed.


Lemma claim_is_lease_witness :
  exists claim' w3, claim_next_pending bob (run_ops [Op_Claim bob] bob_world) = (Ok (Some claim'), w3)
                    /\ claim_msg claim' <> 9%N.
Proof.
  exists (mkNudgeClaim 8 0), (claim_next_pending bob (run_ops [Op_Claim bob] bob_world)).2.
  assert (claim_next_pending bob (run_ops [] (claim_next_pending bob bob_world).2)
          = (Ok (Some (mkNudgeClaim 8 0)), (claim_next_pending bob (run_ops [Op_Claim bob] bob_world)).2))
    as E by (vm_compute; reflexivity).
  split; [exact E|].
  apply (claim_is_lease bob (mkNudgeClaim 9 4) bob_world _ [] (mkNudgeClaim 8 0) _ bob_states_ok
           bob_claims ltac:(constructor) ltac:(constructor) ltac:(vm_compute; reflexivity) E).
Defined.
