(* ===== verification/HerdrProps.v ===== *)
(** * Properties of the herdr pump

    The prompts of a tick, the round robin of the drain, the task pass over one
    member, and a reservation whose answer is lost. *)

From S2P Require Import Prelude ErrorCodes Types Address TaskState Database Transaction.
From S2P Require Import Threading Selection Roster RosterMirror MemberMutation NudgeTemplate.
From S2P Require Import MailStore TaskCodec TaskQueue CronStore MailboxReader Admission MailboxRuntime.
From S2P Require Import PendingNudge Dispatch HerdrPolicy HerdrWake TaskStore HerdrTasks HerdrSpec.
From S2P Require Import Demo MailboxDemo CronDemo PendingProps.
From stdpp Require Import base gmap strings list numbers sorting.
Local Open Scope Z_scope.
Local Open Scope string_scope.
Local Open Scope list_scope.

Section Props.
Context {rt : Runtime} {crt : CronRuntime} {lane : ReaderLane} {dr : DispatchRuntime}
  {ports : HerdrPorts} {mp : MailPort}.

(** ** One tick *)

Lemma hoare_tick before :
  hoare HERDR_MAX_PROMPTS_PER_TICK before (fun w => pw_accepted w = before) tick_once
    (counted HERDR_MAX_PROMPTS_PER_TICK 0 before).
Proof.
  assert (stable HERDR_MAX_PROMPTS_PER_TICK before (fun w => pw_accepted w = before)) as Hs.
  { split; [by intros w w' (-> & _)|]. intros w Hw. exists []. by rewrite Hw, app_nil_r. }
  unfold tick_once. eapply hoare_skip; [done|quiet|intros at_].
  apply hoare_bind with (R := counted HERDR_MAX_PROMPTS_PER_TICK 0 before).
  { intros w Hw. exists []. rewrite app_nil_r. by repeat split. }
  intros _. eapply hoare_skip; [auto with quiet|quiet|intros listed].
  destruct listed as [members|e|]; [|apply hoare_ret..].
  eapply hoare_skip; [auto with quiet|quiet|intros _]. cbv zeta.
  eapply hoare_skip; [auto with quiet|quiet|intros loaded].
  destruct loaded as [candidates|e|]; [|apply hoare_ret..].
  eapply hoare_skip; [auto with quiet|apply quiet_prune|intros _].
  eapply hoare_skip; [auto with quiet|apply quiet_list_eligible|intros [eligible task_candidates]].
  eapply hoare_skip; [auto with quiet|apply quiet_open_tasks|intros open].
  eapply hoare_bind; [apply hoare_drain_eligible|intros _]. unfold remind_open_tasks.
  eapply hoare_skip; [auto with quiet|quiet|intros now]. apply hoare_iter. intros c.
  apply hoare_process_task.
Qed.

(** C17: One tick of the pump has at most 16 prompts accepted, of pending messages and of task
    reminders together, whatever the emitters, the bridge, herdr and other tasks do; prompts
    accepted before stay recorded. A tick that ends has counted each of them. *)
Theorem prompts_per_tick_bounded (w : PumpWorld) :
  exists more,
    pw_accepted (tick_once w).2 = pw_accepted w ++ more
    /\ Z.of_nat (length more) <= 16
    /\ ((tick_once w).1 = Ok tt ->
        count (pw_stats (tick_once w).2) prompted = Z.of_nat (length more)).
Proof.
  pose proof (hoare_tick (pw_accepted w) w eq_refl) as H.
  destruct (tick_once w) as [[[]|e|] w']; cbn in *.
  - destruct H as (more & Hm & Hc & Hl). exists more. split_and!; [done|done|]. intros _.
    rewrite Hc. unfold prompted_of. lia.
  - destruct H as (more & Hm & Hl). by exists more.
  - destruct H as (more & Hm & Hl). by exists more.
Qed.

(** ** The round robin *)

(** The candidates from a position on, around the list. *)
Fixpoint around (eligible : list HerdrCandidate) (offset visited : nat) : list HerdrCandidate :=
  match visited with
  | O => []
  | S visited =>
    match eligible !! (offset mod length eligible)%nat with
    | Some m => m :: around eligible (S offset) visited
    | None => []
    end
  end.

Definition process_all (candidates : list HerdrCandidate) : Pump unit :=
  st_iter (fun m => _ ← process_candidate m; mret tt) candidates.

Lemma at_position (eligible : list HerdrCandidate) (offset : nat) :
  eligible <> [] -> exists m, eligible !! (offset mod length eligible)%nat = Some m.
Proof.
  intros H. apply lookup_lt_is_Some_2, Nat.mod_upper_bound. by destruct eligible.
Qed.

Lemma elem_of_around (eligible : list HerdrCandidate) (offset visited j : nat) m :
  eligible <> [] -> (j < visited)%nat -> eligible !! ((offset + j) mod length eligible)%nat = Some m ->
  m ∈ around eligible offset visited.
Proof.
  intros He. revert offset j. induction visited as [|visited IH]; intros offset j Hj Hm; [lia|].
  cbn [around]. destruct (at_position eligible offset He) as [m' E]. rewrite E.
  destruct j as [|j].
  - rewrite Nat.add_0_r, E in Hm. injection Hm as <-. left.
  - right. apply (IH (S offset) j); [lia|]. by replace (S offset + j)%nat with (offset + S j)%nat by lia.
Qed.

(** The loop processes the candidates in order, until it has seen them all or the
    prompts of the tick are used up. *)
Lemma drain_loop_runs eligible offset remaining visited w total w' :
  eligible <> [] -> drain_loop eligible offset remaining visited w = (Ok total, w') ->
  exists seen, total = (visited + seen)%nat /\ (seen <= remaining)%nat
    /\ process_all (around eligible offset seen) w = (Ok tt, w')
    /\ (seen = remaining \/ HERDR_MAX_PROMPTS_PER_TICK <= prompted_of w').
Proof.
  intros He. revert offset visited w. induction remaining as [|remaining IH]; intros offset visited w.
  { intros [= <- <-]. exists 0%nat. split_and!; [lia|done|done|by left]. }
  cbn [drain_loop]. unfold mbind, Pump_bind, st_mbind, st_bind, get_pump.
  destruct (Z.leb_spec HERDR_MAX_PROMPTS_PER_TICK (count (pw_stats w) prompted)).
  { intros [= <- <-]. exists 0%nat. split_and!; [lia|lia|done|by right]. }
  destruct (at_position eligible offset He) as [m E]. rewrite E.
  destruct (process_candidate m w) as [[handed|e|] w1] eqn:Ep; [|done..].
  intros (seen & -> & Hs & Hp & Hend)%IH. exists (S seen). split_and!; [lia|lia| |by destruct Hend; [left; lia|right]].
  cbn [around]. rewrite E. unfold process_all. cbn [st_iter].
  unfold mbind, st_mbind, st_bind, Pump_bind, st_mbind, st_bind. rewrite Ep. cbn. exact Hp.
Qed.

(** All prompts since [before] are counted. *)
Definition tracked (before : list BuiltInPostSendDispatch) (w : PumpWorld) : Prop :=
  exists more, pw_accepted w = before ++ more /\ Z.of_nat (length more) = prompted_of w.

(** Each candidate gets at most one prompt. *)
Lemma process_all_prompts before ms w w' :
  tracked before w -> process_all ms w = (Ok tt, w') -> tracked before w'
  /\ prompted_of w' <= prompted_of w + Z.of_nat (length ms).
Proof.
  revert w. induction ms as [|m ms IH]; intros w Ht.
  { intros [= <-]. split; [done|]. cbn. lia. }
  unfold process_all. cbn [st_iter]. unfold mbind, st_mbind, st_bind, Pump_bind, st_mbind, st_bind.
  destruct Ht as (more & Hm & Hl).
  pose proof (hoare_process_candidate (prompted_of w + 1) before m w) as H.
  destruct (process_candidate m w) as [[handed|e|] w1]; [|done..]. cbn. intros Hrest.
  destruct H as (more' & Hm' & Hl' & Hb').
  { split; [|lia]. exists more. split_and!; [done|lia|lia]. }
  destruct (IH w1) as [Ht' Hle]; [exists more'; split; [done|lia]|exact Hrest|]. split; [done|].
  cbn [length]. lia.
Qed.

Lemma length_around eligible offset visited :
  eligible <> [] -> length (around eligible offset visited) = visited.
Proof.
  intros He. revert offset. induction visited as [|visited IH]; intros offset; [done|]. cbn [around].
  destruct (at_position eligible offset He) as [m ->]. cbn. by rewrite IH.
Qed.

(** A drain at the start of a tick: around the list from the cursor, all of it or at
    least 16 candidates, and the cursor after the last one. *)
Lemma drain_runs eligible w w' :
  eligible <> [] -> prompted_of w = 0 -> drain_eligible eligible w = (Ok tt, w') ->
  exists seen w1,
    process_all (around eligible (pw_cursor w mod length eligible) seen) w = (Ok tt, w1)
    /\ w' = with_cursor ((pw_cursor w mod length eligible + seen) mod length eligible) w1
    /\ (seen = length eligible \/ 16 <= seen)%nat.
Proof.
  intros He H0. unfold drain_eligible. destruct eligible as [|m eligible]; [done|].
  set (all := m :: eligible) in *. unfold mbind, Pump_bind, st_mbind, st_bind, get_pump. cbv zeta.
  destruct (drain_loop _ _ _ _ w) as [[total|e|] w1] eqn:E; [|done..]. intros [= <-].
  apply drain_loop_runs in E as (seen & -> & Hs & Hp & Hend); [|done].
  exists seen, w1. split_and!; [done|done|].
  destruct Hend as [|Hend]; [by left|right]. apply (process_all_prompts (pw_accepted w)) in Hp as [_ Hp].
  - rewrite H0, length_around in Hp by done. unfold HERDR_MAX_PROMPTS_PER_TICK in Hend. lia.
  - exists []. by rewrite app_nil_r, H0.
Qed.

(** What the drains of successive ticks have in common. *)
Definition drains (eligible : list HerdrCandidate) (start finish : nat -> PumpWorld) (k : nat) : Prop :=
  forall i, (i < k)%nat ->
    prompted_of (start i) = 0 /\ drain_eligible eligible (start i) = (Ok tt, finish i)
    /\ pw_cursor (start (S i)) = pw_cursor (finish i).

(** The drain of tick [i] processes this candidate. *)
Definition reached (start finish : nat -> PumpWorld) (i : nat) (m : HerdrCandidate) : Prop :=
  exists ms w1, m ∈ ms /\ process_all ms (start i) = (Ok tt, w1)
    /\ finish i = with_cursor (pw_cursor (finish i)) w1.

Lemma mod_add_mod a b n : ((a mod n + b) mod n = (a + b) mod n)%nat.
Proof. destruct n; [done|]. by rewrite Nat.Div0.add_mod_idemp_l. Qed.

Lemma drains_cover eligible start finish k :
  eligible <> [] -> drains eligible start finish k ->
  exists total,
    (total >= length eligible \/ total >= 16 * k)%nat
    /\ (pw_cursor (start k) mod length eligible
        = (pw_cursor (start 0) + total) mod length eligible)%nat
    /\ forall j m, (j < total)%nat ->
         eligible !! ((pw_cursor (start 0) + j) mod length eligible)%nat = Some m ->
         exists i, (i < k)%nat /\ reached start finish i m.
Proof.
  intros He. induction k as [|k IH]; intros Hd.
  { exists 0%nat. split_and!; [lia|by rewrite Nat.add_0_r|lia]. }
  destruct IH as (total & Hn & Hc & Hcov); [intros i Hi; apply Hd; lia|].
  destruct (Hd k ltac:(lia)) as (H0 & Hrun & Hnext).
  destruct (drain_runs _ _ _ He H0 Hrun) as (seen & w1 & Hp & Hf & Hseen).
  exists (total + seen)%nat. split_and!.
  - lia.
  - rewrite Hnext, Hf. cbn [pw_cursor with_cursor]. rewrite Nat.Div0.mod_mod, Hc, mod_add_mod. f_equal. lia.
  - intros j m Hj Hm. destruct (Nat.lt_ge_cases j total) as [Hlt|Hge].
    { destruct (Hcov j m Hlt Hm) as (i & Hi & Hr). exists i. split; [lia|done]. }
    exists k. split; [lia|]. exists (around eligible (pw_cursor (start k) mod length eligible) seen), w1.
    split_and!; [|done|by rewrite Hf].
    apply (elem_of_around _ _ _ (j - total)); [done|lia|].
    rewrite Hc, mod_add_mod. by replace (pw_cursor (start 0) + total + (j - total))%nat
      with (pw_cursor (start 0) + j)%nat by lia.
Qed.

(** C21: Nobody starves. While the eligible members stay the same, the drains of successive
    ticks go around them from where the last one stopped, at least 16 members at a time:
    [k] drains reach every one of up to 16 [k] eligible members, in whatever way the
    attempts for the others end. *)
Theorem drains_reach_everyone eligible start finish k m :
  drains eligible start finish k -> (length eligible <= 16 * k)%nat -> m ∈ eligible ->
  exists i, (i < k)%nat /\ reached start finish i m.
Proof.
  intros Hd Hk Hm. assert (eligible <> []) as He by (by intros ->; apply not_elem_of_nil in Hm).
  destruct (drains_cover eligible start finish k He Hd) as (total & Hn & _ & Hcov).
  apply list_elem_of_lookup in Hm as [p Hp]. pose proof (lookup_lt_Some _ _ _ Hp) as Hlt.
  set (n := length eligible) in *. set (c := (pw_cursor (start 0) mod n)%nat).
  assert (c < n)%nat as Hc by (apply Nat.mod_upper_bound; lia).
  apply (Hcov (if decide (c <= p) then p - c else p + n - c)%nat m).
  - destruct (decide (c <= p)%nat); lia.
  - rewrite <- Hp. f_equal. rewrite <- mod_add_mod. fold c. destruct (decide (c <= p)%nat).
    + replace (c + (p - c))%nat with p by lia. by apply Nat.mod_small.
    + replace (c + (p + n - c))%nat with (p + 1 * n)%nat by lia.
      rewrite Nat.Div0.mod_add. by apply Nat.mod_small.
Qed.
End Props.

(** ** A reservation whose answer is lost *)

Section Lost.
Context {rt : Runtime} {crt : CronRuntime} {lane : ReaderLane} {dr : DispatchRuntime}
  {ports : HerdrPorts}.

(** The database of the pump. *)
Definition pump_db (w : PumpWorld) : Db := db (sh_world (pw_shared w)).

(** The message has no marker. *)
Definition unmarked (k : MailKey) (d : Db) : Prop :=
  exists s, mail_message_states d !! k = Some s /\ s_nudge_pending_at s = None.

Lemma claim_holds_marked claim s : s_nudge_pending_at s = None -> claim_holds claim s = false.
Proof. unfold claim_holds. by intros ->. Qed.

(** Releasing or requeueing a message without a marker does nothing. *)
Lemma release_unmarked (spend : bool) member claim w :
  unmarked (nudge_key member (claim_msg claim)) (db w) ->
  unmarked (nudge_key member (claim_msg claim))
    (db ((if spend then requeue_pending member claim else release_pending member claim) w).2).
Proof.
  intros (s & Hs & Hm).
  assert (forall (f : MailStateRow -> MailStateRow),
    updated (nudge_key member (claim_msg claim)) (claim_holds claim) f (mail_message_states (db w))
    = mail_message_states (db w)) as Hu.
  { intros f. unfold updated. by rewrite Hs, claim_holds_marked. }
  assert (forall {A} (c : M A), ((_ ← c; mret (@None NudgeClaim)) w).2 = (c w).2) as Hthen.
  { intros A c. unfold mbind, M_bind, st_mbind, st_bind. by destruct (c w) as [[]]. }
  exists s. split; [|done]. rewrite <- Hs. f_equal.
  pose proof (run_op_cases (if spend then Op_Requeue member claim else Op_Release member claim) w) as H.
  destruct spend; cbn [run_op effect] in H; rewrite Hthen, Hu in H; by destruct H as [-> | ->].
Qed.

(** A reservation that commits takes the marker away. *)
Lemma reserve_unmarks member claim w s :
  calm w -> mail_message_states (db w) !! nudge_key member (claim_msg claim) = Some s ->
  claim_holds claim s = true ->
  unmarked (nudge_key member (claim_msg claim))
    (db (reserve_queue_marker_for_terminal_handoff member claim w).2).
Proof.
  intros [Hf Hf'] Hs Hc. unfold reserve_queue_marker_for_terminal_handoff.
  set (d := set_mail_message_states (<[nudge_key member (claim_msg claim) :=
              set_marker None (s_nudge_attempts s) (op_time w) s]> (mail_message_states (db w))) (db w)).
  assert (complete_pending_before_terminal_handoff member claim w
          = (Ok true, mkWorld d (S (S (S (ticks w)))))) as E.
  { unfold complete_pending_before_terminal_handoff. rewrite now_then.
    apply (with_transaction_ok _ _ true (mkWorld d (S (S (ticks w))))); [|done..].
    unfold update_state. step. cbn [db tick]. by rewrite Hs, Hc. }
  rewrite (run_bind _ _ _ _ _ E). eexists. cbn. rewrite lookup_insert_eq. by split.
Qed.

(** A job on the store through the bridge, when nobody else writes. *)
Lemma bridge_unmarked {A} (c : M A) k w :
  (forall n d, others_commit n d = d) ->
  (forall w, unmarked k (db w) -> unmarked k (db (c w).2)) ->
  unmarked k (pump_db w) ->
  exists o w', bridge (on_store c) w = (Ok o, w') /\ same_prompts w w' /\ unmarked k (pump_db w').
Proof.
  intros Ho Hc Hw. pose proof (quiet_bridge (on_store c) w) as Hq. unfold bridge in *.
  assert (unmarked k (db (sh_world (catch_up (pw_shared w))))) as Hs by (cbn; by rewrite Ho).
  specialize (Hc _ Hs). unfold on_store in *.
  destruct (bridge_fate _); destruct (c _) as [o w1]; eexists _, _; by split_and!.
Qed.

Lemma release_runs g k w :
  (forall n d, others_commit n d = d) -> guard_armed g = true ->
  k = nudge_key (guard_member g) (claim_msg (guard_claim g)) -> unmarked k (pump_db w) ->
  exists w', release_without_input g w = (Ok (disarm g), w') /\ same_prompts w w'
             /\ unmarked k (pump_db w').
Proof.
  intros Ho Ha -> Hw. unfold release_without_input. rewrite Ha.
  assert (exists b w1, claim_release_action (guard_member g) w = (Ok b, w1) /\ same_prompts w w1
                       /\ unmarked (nudge_key (guard_member g) (claim_msg (guard_claim g))) (pump_db w1))
    as (b & w1 & E1 & S1 & H1).
  { pose proof (quiet_release_action (guard_member g) w) as Hq. unfold claim_release_action in *.
    unfold mbind, Pump_bind, st_mbind, st_bind, get_pump, modify in *.
    destruct (Z.leb _ _); by eexists _, _. }
  destruct (bridge_unmarked (if b then requeue_pending (guard_member g) (guard_claim g)
                             else release_pending (guard_member g) (guard_claim g)) _ w1 Ho
              (fun w => release_unmarked b _ _ w) H1) as (o & w2 & E2 & S2 & H2).
  exists w2. split_and!; [|by etrans|done]. unfold mbind, Pump_bind, st_mbind, st_bind.
  by rewrite E1, E2.
Qed.

(** C33: A terminal escalation can be lost. When the reservation of its handoff commits but the
    answer of the bridge comes too late, the pump takes the reservation for failed and does
    not prompt; the release of the claim then finds no marker to put back. The message
    is left without a marker, neither prompted nor pending, so that no later claim finds it. *)
Theorem lost_reservation_drops_message (member : MemberKey) (g : ReleaseGuard) (w : PumpWorld)
    (error : AtmError) (s : MailStateRow) :
  let k := nudge_key member (claim_msg (guard_claim g)) in
  guard_armed g = true -> guard_member g = member ->
  bridge_fate (ticks (sh_world (pw_shared w))) = Fate_Lost error ->
  (forall n d, others_commit n d = d) ->
  calm (sh_world (catch_up (pw_shared w))) ->
  mail_message_states (pump_db w) !! k = Some s -> claim_holds (guard_claim g) s = true ->
  exists w',
    reserve_terminal_handoff member g w = (Ok (false, disarm g), w')
    /\ pw_accepted w' = pw_accepted w /\ unmarked k (pump_db w')
    /\ forall other at_ s', mail_message_states (pump_db w') !! k = Some s' ->
         claimable other at_ (k, s') = false.
Proof.
  intros k Ha Hg Hfate Ho Hcalm Hs Hc. unfold reserve_terminal_handoff.
  set (w1 := with_shared (on_store (reserve_queue_marker_for_terminal_handoff member (guard_claim g))
                            (catch_up (pw_shared w))).2 w).
  assert (bridge (on_store (reserve_queue_marker_for_terminal_handoff member (guard_claim g))) w
          = (Ok (Err error), w1)) as E1 by (unfold bridge; by rewrite Hfate).
  assert (unmarked k (pump_db w1)) as H1.
  { pose proof (reserve_unmarks member (guard_claim g) (sh_world (catch_up (pw_shared w))) s Hcalm) as H.
    cbn [catch_up sh_world db] in H. rewrite Ho in H. specialize (H Hs Hc).
    unfold pump_db, w1, on_store. cbn [catch_up sh_world db]. rewrite Ho.
    by destruct (reserve_queue_marker_for_terminal_handoff _ _ _). }
  destruct (release_runs g k w1 Ho Ha ltac:(by rewrite Hg) H1) as (w2 & E2 & (S2 & _) & H2).
  eexists. split_and!.
  - unfold mbind, Pump_bind, st_mbind, st_bind. rewrite E1, E2. reflexivity.
  - cbn. rewrite S2. reflexivity.
  - exact H2.
  - intros other at_ s' Hs'. destruct H2 as (s2 & Hs2 & Hm). unfold pump_db in *. cbn in Hs'.
    rewrite Hs2 in Hs'. injection Hs' as <-. unfold claimable, k, nudge_key. rewrite Hm.
    by rewrite !andb_false_r.
Qed.
End Lost.

(** ** The task pass over one member *)

Section TaskPass.
Context {rt : Runtime} {crt : CronRuntime} {lane : ReaderLane} {dr : DispatchRuntime}
  {ports : HerdrPorts} {mp : MailPort}.

(** The member of the observation is to be reminded of [row]: it is idle and has no mail to
    read, the task was not started, was reminded of fewer than ten times and not reported, and
    the last reminder is a minute old. *)
Record remindable (open_mail : gset MemberKey) (now : IsoTimestamp) (candidate : MemberObservation)
    (row : TaskRow) : Prop := mkRemindable {
  remind_idle : mo_state candidate = State_Idle;
  remind_no_mail : mo_member candidate ∉ open_mail;
  remind_waiting : row_state row <> TaskState_Active;
  remind_count : row_reminder_count row < 10;
  remind_unreported : row_lead_notified_count row <= 0;
  remind_interval last : row_last_reminded_at row = Some last -> 60 * 1000000000 <= now - last
}.

Lemma reminder_due_iff row now :
  reminder_due row now = true
  <-> forall last, row_last_reminded_at row = Some last -> 60 * 1000000000 <= now - last.
Proof.
  unfold reminder_due. destruct (row_last_reminded_at row) as [last|]; [|by split].
  unfold TASK_REMINDER_INTERVAL_MS, elapsed_ms. rewrite Z.leb_le. split.
  - intros H ? [= <-]. Z.to_euclidean_division_equations. lia.
  - intros H. specialize (H last eq_refl). Z.to_euclidean_division_equations. lia.
Qed.

Lemma dispose_nudge_iff open_mail now candidate row new_episode refusals :
  dispose (bool_decide (mo_member candidate ∈ open_mail)) (mo_state candidate) (Some row) now
    (mo_state_changed_at candidate) new_episode refusals = Disposition_Nudge
  <-> remindable open_mail now candidate row /\ refusals < 3.
Proof.
  pose proof (reminder_due_iff row now) as Hdue. unfold dispose, escalation_due, TASK_STALLED_REMINDER_THRESHOLD,
    TASK_CONSECUTIVE_REFUSAL_THRESHOLD. split.
  - destruct (mo_state candidate) eqn:Hs; try by destruct new_episode.
    2:{ by destruct (_ && _). }
    case_bool_decide as Ha; [done|]. destruct (Z.leb_spec 3 refusals); [done|].
    destruct (Z.ltb_spec 0 (row_lead_notified_count row)); [by destruct (_ && _)|].
    destruct (Z.leb_spec 10 (row_reminder_count row)).
    { by destruct (_ && _). }
    rewrite andb_false_r. cbn [andb]. case_bool_decide as Hm; [done|].
    destruct (reminder_due row now); [|done]. intros _. split; [|lia]. split; try done. by apply Hdue.
  - intros [[Hs Hm Ha Hc Hl Hi] Hr]. rewrite Hs. rewrite bool_decide_false by done.
    destruct (Z.leb_spec 3 refusals); [lia|]. destruct (Z.leb_spec 10 (row_reminder_count row)); [lia|].
    rewrite andb_false_r. cbn [andb]. destruct (Z.ltb_spec 0 (row_lead_notified_count row)); [lia|].
    rewrite bool_decide_false by done. by rewrite (proj2 Hdue Hi).
Qed.

Lemma dispose_stalled state mail_pending head now since new_episode refusals :
  dispose mail_pending state head now since new_episode refusals = Disposition_EscalateStalled ->
  exists row, head = Some row /\ state = State_Idle /\ refusals < 3
    /\ row_state row = TaskState_Assigned /\ 10 <= row_reminder_count row
    /\ row_lead_notified_count row = 0.
Proof.
  unfold dispose. destruct state, head as [row|]; try done; try by destruct new_episode.
  all: try by destruct mail_pending. all: try by destruct (_ && _).
  case_bool_decide as Ha; [done|]. destruct (Z.leb_spec TASK_CONSECUTIVE_REFUSAL_THRESHOLD refusals); [done|].
  destruct (escalation_due row) eqn:He.
  - intros _. unfold escalation_due, TASK_STALLED_REMINDER_THRESHOLD, TASK_CONSECUTIVE_REFUSAL_THRESHOLD in *.
    apply andb_prop in He as [[H1 H2]%andb_prop H3]. apply bool_decide_eq_true in H1.
    apply Z.leb_le in H2. apply Z.eqb_eq in H3. by exists row.
  - by repeat match goal with |- context [if ?b then _ else _] => destruct b end.
Qed.
(** From [w1] the reminder of the head task goes out: there is room in the tick, the dispatch is
    built, the member is still seen idle, and its emitter accepts the prompt, at [w2]. *)
Record reminder_accepted (member : MemberKey) (row : TaskRow) (rest : list TaskRow)
    (w1 w2 : PumpWorld) (dispatch : BuiltInPostSendDispatch) : Prop := mkReminderAccepted {
  ra_room : prompted_of w1 < 16;
  ra_built : bridge (fun s =>
      (build_task_reminder_dispatch (db (sh_world s)) (sh_mirror s) (sh_overrides s)
         (ticks (sh_world s)) member row (row_task_id <$> row :: rest), s)) w1
    = (Ok (Ok (Some dispatch)), w2);
  ra_idle : still_idle member w2 = (Ok true, w2);
  ra_emitter : select_emitter dispatch = true;
  ra_taken : emit_received_message (ticks (sh_world (pw_shared w2))) dispatch = Ok tt
}.

(** What follows an accepted reminder: it is recorded, and so is its handoff. *)
Definition reminder_recorded (member : MemberKey) (row : TaskRow) (now : IsoTimestamp)
    (dispatch : BuiltInPostSendDispatch) (w2 : PumpWorld) : Outcome AtmError unit * PumpWorld :=
  (_ ← record_task_outcome member row now ReminderOutcome_Emitted;
   record_handoff dispatch PromptTrigger_TaskPass now)
    (with_accepted dispatch (with_shared (catch_up (pw_shared w2)) w2)).

Lemma accepted_snoc {A} (l : list A) x : l = l ++ [x] -> False.
Proof. intros H. apply (f_equal length) in H. rewrite length_app in H. cbn in H. lia. Qed.

Lemma reminder_recorded_accepted member row now dispatch w2 :
  pw_accepted (reminder_recorded member row now dispatch w2).2 = pw_accepted w2 ++ [dispatch].
Proof.
  unfold reminder_recorded. set (w3 := with_accepted _ _).
  assert (Hq : forall w, pw_accepted ((_ ← record_task_outcome member row now ReminderOutcome_Emitted;
    record_handoff dispatch PromptTrigger_TaskPass now) w).2 = pw_accepted w); [|by rewrite Hq].
  intros w. unfold record_task_outcome. pose proof (quiet_record_handoff dispatch PromptTrigger_TaskPass now) as Hh.
  set (job := on_store _). pose proof (quiet_bridge job w) as (Hb & _).
  unfold mbind, Pump_bind, st_mbind, st_bind. destruct (bridge job w) as [[o|e|] w1]; cbn in *; [|done..].
  by rewrite (proj1 (Hh _)).
Qed.

Lemma pump_run {A B} (c : Pump A) (f : A -> Pump B) w a w1 : c w = (Ok a, w1) -> (c ≫= f) w = f a w1.
Proof. intros H. unfold mbind, Pump_bind, st_mbind, st_bind. by rewrite H. Qed.

(** A job of the bridge always answers. *)
Lemma bridge_answers {A} (job : Shared -> Outcome AtmError A * Shared) w :
  exists o w1, bridge job w = (Ok o, w1) /\ pw_accepted w1 = pw_accepted w.
Proof.
  pose proof (quiet_bridge job w) as (Ha & _). unfold bridge in *.
  destruct (bridge_fate _); [destruct (job _)|..]; by eexists _, _.
Qed.

Lemma emit_reminder_cases member row rest now w1 :
  (exists dispatch w2, reminder_accepted member row rest w1 w2 dispatch
     /\ emit_task_reminder member (row :: rest) now w1 = reminder_recorded member row now dispatch w2
     /\ pw_accepted (reminder_recorded member row now dispatch w2).2 = pw_accepted w1 ++ [dispatch])
  \/ (pw_accepted (emit_task_reminder member (row :: rest) now w1).2 = pw_accepted w1
      /\ forall w2 dispatch, ~ reminder_accepted member row rest w1 w2 dispatch).
Proof.
  unfold emit_task_reminder. change HERDR_MAX_PROMPTS_PER_TICK with 16.
  rewrite (pump_run get_pump _ w1 w1 w1 eq_refl). cbv beta.
  destruct (Z.leb_spec 16 (count (pw_stats w1) prompted)) as [Hfull|Hroom].
  { right. split; [done|]. intros w2 d [Hr _ _ _ _]. unfold prompted_of in Hr. lia. }
  set (job := fun s : Shared => _). destruct (bridge_answers job w1) as (o & w2 & Hb & Hacc).
  rewrite (pump_run _ _ _ _ _ Hb). cbv beta.
  assert (Hno : (forall d, o <> Ok (Some d)) -> forall w2 d, ~ reminder_accepted member row rest w1 w2 d).
  { intros Hne w3 d [_ Hb' _ _ _]. unfold job in Hb. rewrite Hb in Hb'. injection Hb' as -> _. by apply (Hne d). }
  assert (Hun : pw_accepted (record_task_outcome member row now ReminderOutcome_Unrenderable w2).2 = pw_accepted w1).
  { rewrite <- Hacc. assert (Quiet (record_task_outcome member row now ReminderOutcome_Unrenderable)) as Hq
      by (unfold record_task_outcome; quiet). apply Hq. }
  destruct o as [[dispatch|]|error|]; [|right; split; [done|by apply Hno]..]. clear Hno Hun.
  assert (Hsame : forall w3 d, reminder_accepted member row rest w1 w3 d -> w3 = w2 /\ d = dispatch).
  { intros w3 d [_ Hb' _ _ _]. unfold job in Hb. rewrite Hb in Hb'. by injection Hb' as -> ->. }
  destruct (still_idle member w2) as [[idle|e|] w2'] eqn:Hidle; [|done..].
  assert (w2' = w2) as -> by (by injection Hidle).
  rewrite (pump_run _ _ _ _ _ Hidle). cbv beta. destruct idle; cbn [negb].
  2:{ right. split; [done|]. intros w3 d Hra. destruct (Hsame _ _ Hra) as [-> ->].
      pose proof (ra_idle _ _ _ _ _ _ Hra). congruence. }
  destruct (select_emitter dispatch) eqn:Hsel.
  2:{ right. split; [done|]. intros w3 d Hra. destruct (Hsame _ _ Hra) as [-> ->].
      pose proof (ra_emitter _ _ _ _ _ _ Hra). congruence. }
  rewrite (pump_run (port _) _ w2 _ _ eq_refl). cbv beta.
  destruct (emit_received_message (ticks (sh_world (pw_shared w2))) dispatch) as [[]|e|] eqn:Hemit.
  - left. exists dispatch, w2. split; [by split|]. split; [reflexivity|].
    by rewrite reminder_recorded_accepted, Hacc.
  - right. split; [by destruct (bool_decide _)|]. intros w3 d Hra. destruct (Hsame _ _ Hra) as [-> ->].
    pose proof (ra_taken _ _ _ _ _ _ Hra). congruence.
  - right. split; [done|]. intros w3 d Hra. destruct (Hsame _ _ Hra) as [-> ->].
    pose proof (ra_taken _ _ _ _ _ _ Hra). congruence.
Qed.
(** The pump once it has noted what the poll says of the member's episode. *)
Definition episode_noted (candidate : MemberObservation) (has_open_task : bool) (w : PumpWorld) : PumpWorld :=
  with_episodes (observe_escalation_episode_if_eligible (pw_episodes w) (mo_member candidate)
    (mo_state candidate) (mo_state_changed_at candidate) has_open_task).2 w.

(** What carrying out any other disposition leaves. *)
Lemma other_disposition open candidate now disposition w :
  disposition <> Disposition_Nudge ->
  pw_accepted (apply_task_disposition open candidate now disposition w).2 = pw_accepted w.
Proof.
  intros Hne. assert (Quiet (apply_task_disposition open candidate now disposition)) as Hq; [|apply Hq].
  unfold apply_task_disposition. destruct disposition, open as [|row open]; try done;
    quiet; auto using quiet_escalate_episode, quiet_escalate_stalled, quiet_reset_reminders.
Qed.

Lemma other_disposition_reports open candidate now disposition w :
  disposition <> Disposition_EscalateStalled ->
  reports_of (apply_task_disposition open candidate now disposition w).2 = reports_of w.
Proof.
  intros Hne. assert (Silent (apply_task_disposition open candidate now disposition)) as Hq; [|apply Hq].
  unfold apply_task_disposition. destruct disposition, open as [|row open]; try done; silent;
    auto using silent_escalate_episode, silent_emit_reminder, silent_reset_reminders.
Qed.

(** The pass over an idle member with open tasks. *)
Lemma pass_idle open open_mail now candidate row rest w :
  mo_state candidate = State_Idle -> open !! mo_member candidate = Some (row :: rest) ->
  exists new_episode,
    process_task_candidate open open_mail now candidate w
    = (refusals ← refusal_check (mo_member candidate) (Some row);
       match refusals with
       | None => mret tt
       | Some n =>
         apply_task_disposition (row :: rest) candidate now
           (dispose (bool_decide (mo_member candidate ∈ open_mail)) (mo_state candidate) (Some row) now
              (mo_state_changed_at candidate) new_episode n)
       end) (episode_noted candidate true w).
Proof.
  intros Hi Ho. unfold process_task_candidate. cbv zeta. rewrite Ho. cbn [default from_option head].
  rewrite (pump_run get_pump _ w w w eq_refl). cbv beta.
  rewrite (bool_decide_true (is_Some _)) by (by eexists). unfold episode_noted.
  destruct (observe_escalation_episode_if_eligible _ _ _ _ true) as [new_episode episodes].
  exists new_episode. rewrite (pump_run (modify (with_episodes episodes)) _ w tt _ eq_refl). cbv beta.
  rewrite (bool_decide_true (mo_state candidate = State_Idle)) by done.
  by rewrite bool_decide_false by done.
Qed.

(** The pass over any other member neither reminds nor reports a stalled task. *)
Lemma pass_other open open_mail now candidate w :
  mo_state candidate <> State_Idle \/ default [] (open !! mo_member candidate) = [] ->
  exists disposition w0, disposition <> Disposition_Nudge /\ disposition <> Disposition_EscalateStalled
    /\ pw_accepted w0 = pw_accepted w /\ reports_of w0 = reports_of w
    /\ process_task_candidate open open_mail now candidate w
       = apply_task_disposition (default [] (open !! mo_member candidate)) candidate now disposition w0.
Proof.
  intros Hother. unfold process_task_candidate. cbv zeta. set (rows := default [] (open !! mo_member candidate)) in *.
  rewrite (pump_run get_pump _ w w w eq_refl). cbv beta.
  destruct (observe_escalation_episode_if_eligible _ _ _ _ _) as [new_episode episodes].
  rewrite (pump_run (modify (with_episodes episodes)) _ w tt _ eq_refl). cbv beta.
  assert (negb (bool_decide (mo_state candidate = State_Idle)) || bool_decide (head rows = None) = true) as ->.
  { destruct Hother as [Hi|Hr]; [by rewrite bool_decide_false|rewrite Hr]. apply orb_true_r. }
  eexists _, (with_episodes episodes w). split; [|split; [|split_and!; reflexivity]].
  all: unfold dispose; destruct (mo_state candidate), (head rows) eqn:Hh; try done; try by destruct new_episode.
  all: try by destruct (_ && _). all: try by destruct (bool_decide _).
  all: by destruct Hother as [Hi|Hr]; [|rewrite Hr in Hh].
Qed.

(** The head task of the member is to be reminded of in the pass, and its reminder is accepted. *)
Definition pass_reminds (open : gmap MemberKey (list TaskRow)) (open_mail : gset MemberKey)
    (now : IsoTimestamp) (candidate : MemberObservation) (w : PumpWorld) (row : TaskRow)
    (dispatch : BuiltInPostSendDispatch) (w2 : PumpWorld) : Prop :=
  exists rest n w1, open !! mo_member candidate = Some (row :: rest)
    /\ remindable open_mail now candidate row
    /\ refusal_check (mo_member candidate) (Some row) (episode_noted candidate true w) = (Ok (Some n), w1)
    /\ n < 3 /\ reminder_accepted (mo_member candidate) row rest w1 w2 dispatch.

Lemma disposition_prompts open_mail now candidate row rest new_episode n w1 :
  let member := mo_member candidate in
  let step := apply_task_disposition (row :: rest) candidate now
    (dispose (bool_decide (member ∈ open_mail)) (mo_state candidate) (Some row) now
       (mo_state_changed_at candidate) new_episode n) w1 in
  (exists dispatch w2, remindable open_mail now candidate row /\ n < 3
     /\ reminder_accepted member row rest w1 w2 dispatch
     /\ step = reminder_recorded member row now dispatch w2
     /\ pw_accepted step.2 = pw_accepted w1 ++ [dispatch])
  \/ (pw_accepted step.2 = pw_accepted w1
      /\ forall w2 dispatch, remindable open_mail now candidate row -> n < 3 ->
           ~ reminder_accepted member row rest w1 w2 dispatch).
Proof.
  intros member step. unfold step. set (disposition := dispose _ _ _ _ _ _ _).
  pose proof (dispose_nudge_iff open_mail now candidate row new_episode n) as Hiff.
  change (dispose _ _ _ _ _ _ _) with disposition in Hiff.
  destruct (decide (disposition = Disposition_Nudge)) as [Hd|Hd].
  2:{ right. split; [by apply other_disposition|]. intros w2 d Hrem Hn. exfalso. by apply Hd, Hiff. }
  rewrite Hd. destruct (proj1 Hiff Hd) as [Hrem Hn]. cbn [apply_task_disposition].
  rewrite (pump_run get_pump _ w1 w1 w1 eq_refl). cbv beta. fold member.
  destruct (Z.ltb_spec (count (pw_stats w1) prompted) HERDR_MAX_PROMPTS_PER_TICK) as [Hroom|Hfull]; cbn [when].
  - destruct (emit_reminder_cases member row rest now w1) as [(dispatch & w2 & Hra & Hrun & Ha)|[Ha Hno]].
    + left. exists dispatch, w2. rewrite Hrun. by split_and!.
    + right. split; [done|]. by intros w2 d _ _.
  - right. split; [done|]. intros w2 d _ _ [Hroom _ _ _ _].
    unfold prompted_of, HERDR_MAX_PROMPTS_PER_TICK in *. lia.
Qed.

Lemma pass_prompts open open_mail now candidate w :
  let pass := process_task_candidate open open_mail now candidate w in
  (exists row dispatch w2, pass_reminds open open_mail now candidate w row dispatch w2
     /\ pass = reminder_recorded (mo_member candidate) row now dispatch w2
     /\ pw_accepted pass.2 = pw_accepted w ++ [dispatch])
  \/ (pw_accepted pass.2 = pw_accepted w
      /\ forall row dispatch w2, ~ pass_reminds open open_mail now candidate w row dispatch w2).
Proof.
  intros pass. unfold pass. destruct (default [] (open !! mo_member candidate)) as [|row rest] eqn:Hrows;
    [|destruct (decide (mo_state candidate = State_Idle)) as [Hi|Hi]].
  1,3: right; destruct (pass_other open open_mail now candidate w) as (d & w0 & Hn & _ & Ha & _ & ->);
    [by auto|split; [by rewrite other_disposition|]].
  - intros row d' w2 (rest & n & w1 & Ho & _). by rewrite Ho in Hrows.
  - intros row' d' w2 (rest' & n & w1 & _ & [Hi' _ _ _ _ _] & _). by apply Hi.
  - assert (Ho : open !! mo_member candidate = Some (row :: rest))
      by (destruct (open !! mo_member candidate); cbn in Hrows; congruence).
    destruct (pass_idle open open_mail now candidate row rest w Hi Ho) as [new_episode ->].
    destruct (refusal_check (mo_member candidate) (Some row) (episode_noted candidate true w)) as [o w1] eqn:Href.
    pose proof (quiet_refusal_check (mo_member candidate) (Some row) (episode_noted candidate true w)) as (Hacc & _).
    rewrite Href in Hacc. change (pw_accepted w1 = pw_accepted w) in Hacc.
    unfold mbind, Pump_bind, st_mbind, st_bind. rewrite Href.
    destruct o as [[n|]|e|].
    2-4: right; split; [done|]; intros row' d w2 (rest' & n & w1' & Ho' & _ & Href' & _); congruence.
    destruct (disposition_prompts open_mail now candidate row rest new_episode n w1)
      as [(d & w2 & Hrem & Hn & Hra & Hrun & Ha)|[Ha Hno]].
    + left. exists row, d, w2. split; [by exists rest, n, w1|]. split; [done|]. by rewrite Ha, Hacc.
    + right. split; [by rewrite Ha|]. intros row' d w2 (rest' & n' & w1' & Ho' & Hrem & Href' & Hn & Hra).
      rewrite Ho in Ho'. injection Ho' as <- <-. rewrite Href in Href'. injection Href' as <- <-.
      by apply (Hno w2 d).
Qed.

(** The reports of the pass over one member. *)
Lemma pass_reports open open_mail now candidate w :
  let pass := process_task_candidate open open_mail now candidate w in
  reports_of pass.2 = reports_of w
  \/ (reports_of pass.2 = reports_of w + 1 /\ mo_state candidate = State_Idle
      /\ exists row rest, open !! mo_member candidate = Some (row :: rest)
           /\ row_state row = TaskState_Assigned /\ 10 <= row_reminder_count row
           /\ row_lead_notified_count row = 0).
Proof.
  intros pass. unfold pass. destruct (default [] (open !! mo_member candidate)) as [|row rest] eqn:Hrows;
    [|destruct (decide (mo_state candidate = State_Idle)) as [Hi|Hi]].
  1,3: left; destruct (pass_other open open_mail now candidate w) as (d & w0 & _ & Hn & _ & Hr & ->);
    [by auto|by rewrite other_disposition_reports].
  assert (Ho : open !! mo_member candidate = Some (row :: rest))
    by (destruct (open !! mo_member candidate); cbn in Hrows; congruence).
  destruct (pass_idle open open_mail now candidate row rest w Hi Ho) as [new_episode ->].
  pose proof (silent_refusal_check (mo_member candidate) (Some row) (episode_noted candidate true w)) as Hs.
  change (reports_of (episode_noted candidate true w)) with (reports_of w) in Hs.
  unfold mbind, Pump_bind, st_mbind, st_bind.
  destruct (refusal_check (mo_member candidate) (Some row) (episode_noted candidate true w)) as [[[n|]|e|] w1];
    cbn in Hs; [|by left..].
  set (disposition := dispose _ _ _ _ _ _ _).
  destruct (decide (disposition = Disposition_EscalateStalled)) as [Hd|Hd].
  - destruct (dispose_stalled _ _ _ _ _ _ _ Hd) as (row' & [= <-] & _ & _ & Hst & Hc & Hl).
    rewrite Hd. destruct (escalate_stalled_counts row now w1) as [H|H]; [left|right].
    + by rewrite <- Hs.
    + rewrite <- Hs. split; [done|]. split; [done|]. by exists row, rest.
  - left. by rewrite other_disposition_reports.
Qed.

Lemma reminds_same_accepted open open_mail now candidate w row dispatch w2 :
  pass_reminds open open_mail now candidate w row dispatch w2 -> pw_accepted w2 = pw_accepted w.
Proof.
  intros (rest & n & w1 & _ & _ & Href & _ & [_ Hb _ _ _]).
  pose proof (quiet_refusal_check (mo_member candidate) (Some row) (episode_noted candidate true w)) as (H1 & _).
  rewrite Href in H1.
  match type of Hb with bridge ?job _ = _ => pose proof (quiet_bridge job w1) as (H2 & _) end.
  rewrite Hb in H2. cbn in H1, H2. by rewrite H2, H1.
Qed.

(** C25: The task pass of the pump over one member, whatever the emitters, the bridge, the
    reader lane and other tasks do. It has at most one prompt accepted, and has it accepted
    exactly when the member is seen idle and has no mail to read, its first open task was not
    started, has been reminded of fewer than ten times, not within the last minute, and not
    been reported, the member has not just refused three tasks, and the reminder can be built
    and is accepted within the 16 prompts of the tick; the pass then ends by recording the
    reminder and its handoff. It counts at most one report of a stalled task, and only for an
    idle member whose first task is assigned, was reminded of ten times or more and has not
    been reported. *)
Theorem task_pass_reminds_and_reports open open_mail now candidate w :
  let pass := process_task_candidate open open_mail now candidate w in
  (pw_accepted pass.2 = pw_accepted w \/ exists dispatch, pw_accepted pass.2 = pw_accepted w ++ [dispatch])
  /\ (forall dispatch, pw_accepted pass.2 = pw_accepted w ++ [dispatch]
       <-> exists row w2, pass_reminds open open_mail now candidate w row dispatch w2
             /\ pass = reminder_recorded (mo_member candidate) row now dispatch w2)
  /\ (reports_of pass.2 = reports_of w
      \/ (reports_of pass.2 = reports_of w + 1 /\ mo_state candidate = State_Idle
          /\ exists row rest, open !! mo_member candidate = Some (row :: rest)
               /\ row_state row = TaskState_Assigned /\ 10 <= row_reminder_count row
               /\ row_lead_notified_count row = 0)).
Proof.
  intros pass. split; [|split; [|apply pass_reports]].
  - destruct (pass_prompts open open_mail now candidate w) as [(row & d & w2 & _ & _ & H)|[H _]]; eauto.
  - intros dispatch. destruct (pass_prompts open open_mail now candidate w) as [(row & d & w2 & Hr & Hp & H)|[H Hno]].
    + split.
      * intros Ha. unfold pass in Ha. rewrite H in Ha. apply app_inj_2 in Ha as [_ [= <-]]; [|done]. by exists row, w2.
      * intros (row' & w2' & Hr' & Hp'). fold pass in Hp. unfold pass in Hp' |- *. rewrite Hp'.
        by rewrite reminder_recorded_accepted, (reminds_same_accepted _ _ _ _ _ _ _ _ Hr').
    + split; [|by intros (row & w2 & Hr & _); destruct (Hno row dispatch w2)].
      intros Ha. unfold pass in Ha. rewrite H in Ha. by apply accepted_snoc in Ha.
Qed.
End TaskPass.

(** ** A pump *)

(** Every job runs, nobody else acts, no agent is visible, and prompts are accepted. *)
Definition demo_dr : DispatchRuntime :=
  {| graft_receiver_lease _ _ _ := Ok false; mail_scan rows := rows; envelope_json_cause _ := "" |}.

Definition demo_ports : HerdrPorts :=
  {| bridge_fate _ := Fate_Runs; join_cause _ := ""; others_observe _ mirror := mirror;
     session_order sessions := sessions; herdr_list _ _ := inr [];
     select_emitter _ := true; emit_received_message _ _ := Ok tt |}.

Definition demo_pump : PumpWorld :=
  mkPumpWorld (mkShared bob_world ∅ ∅) 1 ∅ ∅ ∅ (stats_start 0) [].

Definition demo_candidates : list HerdrCandidate :=
  [mkHerdrCandidate bob true Candidate_RosterOnly;
   mkHerdrCandidate (mkMemberKey "alpha" "carol") true Candidate_RosterOnly].

Definition demo_drained : PumpWorld :=
  (drain_eligible (dr := demo_dr) (ports := demo_ports) demo_candidates demo_pump).2.

Lemma drains_reach_everyone_witness :
  exists i, (i < 1)%nat
    /\ reached (dr := demo_dr) (ports := demo_ports)
         (fun i => if Nat.eqb i 0 then demo_pump else demo_drained) (fun _ => demo_drained) i
         (mkHerdrCandidate bob true Candidate_RosterOnly).
Proof.
  apply (drains_reach_everyone demo_candidates); [|cbn; lia|left].
  intros i Hi. assert (i = 0%nat) as -> by lia. split_and!; [reflexivity| |reflexivity].
  unfold demo_drained. rewrite (surjective_pairing (drain_eligible _ _)) at 1. f_equal.
Defined.

(** [bob] is seen idle, in a tmux pane, and the daemon is asked to remind it of [T2]. *)
Definition idle_mirror : RosterRuntimeState :=
  {[ "alpha" := mkTeamRosterRecord
       [mkRosterMember "alpha" "bob" Permanent ClaudeCode AgentType_Worker "" (Some "%1")
          [("backendType", Value_String "tmux")]]
       {[ "bob" := mkEphemeralState
            (mkRosterRuntimeObservation 1 State_Idle (obs_availability observation_default) None None None None
               None None None None (Some 5) None None) false ]} ]}.

Definition idle_pump : PumpWorld :=
  mkPumpWorld (mkShared demo idle_mirror ∅) 0 ∅ ∅ ∅ (stats_start 0) [].

Definition idle_bob : MemberObservation := mkMemberObservation bob State_Idle (Some 5).

Definition open_t2 : gmap MemberKey (list TaskRow) :=
  match select_task_row (db demo) "alpha" "T2" with
  | Ok (Some row) => {[ bob := [row] ]}
  | _ => ∅
  end.

Definition demo_mail_port : MailPort := {| write_mail _ _ d := (Ok 1%N, d) |}.

Definition idle_pass : Outcome AtmError unit * PumpWorld :=
  process_task_candidate (dr := demo_dr) (ports := demo_ports) (mp := demo_mail_port) open_t2 ∅ 90 idle_bob
    idle_pump.

Lemma task_pass_reminds_and_reports_witness :
  exists dispatch row w2, pw_accepted idle_pass.2 = [dispatch]
    /\ pass_reminds (dr := demo_dr) (ports := demo_ports) (mp := demo_mail_port) open_t2 ∅ 90 idle_bob
         idle_pump row dispatch w2
    /\ pse_task_id (dispatch_event dispatch) = Some "T2"
    /\ t_reminder_count <$> tasks (pump_db idle_pass.2) !! ("alpha", "T2") = Some 1.
Proof.
  pose proof (task_pass_reminds_and_reports (dr := demo_dr) (ports := demo_ports) (mp := demo_mail_port)
    open_t2 ∅ 90 idle_bob idle_pump) as (_ & Hiff & _).
  change (process_task_candidate _ _ _ _ _) with idle_pass in Hiff.
  assert (Ht : (fun d => pse_task_id (dispatch_event d)) <$> pw_accepted idle_pass.2 = [Some "T2"])
    by (vm_compute; reflexivity).
  destruct (pw_accepted idle_pass.2) as [|dispatch [|d rest]] eqn:Ha; [discriminate Ht| |discriminate Ht].
  destruct (proj1 (Hiff dispatch) eq_refl) as (row & w2 & Hr & _).
  exists dispatch, row, w2. split; [reflexivity|]. split; [exact Hr|].
  split; [injection Ht as Ht; exact Ht|]. vm_compute. reflexivity.
Defined.

(** The first job of the bridge runs, but its answer comes too late. *)
Definition late_ports : HerdrPorts :=
  {| bridge_fate n := if Nat.eqb n 0 then Fate_Lost (validation "late") else Fate_Runs;
     join_cause _ := ""; others_observe _ mirror := mirror;
     session_order sessions := sessions; herdr_list _ _ := inr [];
     select_emitter _ := true; emit_received_message _ _ := Ok tt |}.

Definition bob_guard : ReleaseGuard := mkReleaseGuard bob (mkNudgeClaim 9 4) true.

Lemma lost_reservation_drops_message_witness :
  exists w', reserve_terminal_handoff (lane := demo_lane) (ports := late_ports) bob bob_guard demo_pump
             = (Ok (false, disarm bob_guard), w')
    /\ pw_accepted w' = [] /\ unmarked (nudge_key bob 9) (pump_db w').
Proof.
  destruct (lost_reservation_drops_message (lane := demo_lane) (ports := late_ports) bob bob_guard
              demo_pump (validation "late") (unread (Some 0) 4) eq_refl eq_refl eq_refl
              ltac:(reflexivity) ltac:(split; reflexivity) ltac:(vm_compute; reflexivity)
              ltac:(reflexivity)) as (w' & H & Ha & Hu & _).
  exists w'. split; [exact H|]. split; [exact Ha|exact Hu].
Defined.
