(* ===== verification/CronProps.v ===== *)
(** * What the cron stores promise

    The theorems on schedules, transitions and deliveries, evaluated on a small
    history of one schedule. *)

From S2P Require Import Prelude ErrorCodes Types Address TaskState CronTypes Database Transaction.
From S2P Require Import CronStore CronTransition CronDelivery.
From S2P Require Import MailStore TaskOps Admission Writer WriterSpec Demo CronDemo.
From stdpp Require Import base gmap strings list numbers sorting pretty.
Local Open Scope Z_scope.
Local Open Scope string_scope.
Local Open Scope list_scope.

(** ** The operations as steps *)

Inductive CronOp : Set :=
| Cron_Start (s : NewCronSchedule)
| Cron_End (team : TeamName) (phase : PhaseId) (name : option string) (at_ : IsoTimestamp)
| Cron_RecordRun (id : CronScheduleId) (generation : CronGeneration) (at_ : IsoTimestamp) (out : string)
| Cron_RecordStop (id : CronScheduleId) (generation : CronGeneration) (at_ : IsoTimestamp) (reason : string)
| Cron_Commit (write : CronTransitionWrite)
| Cron_MarkDelivered (key : CronDeliveryKey) (receipt : DeliveryReceipt).

Section Props.
Context {rt : Runtime} {crt : CronRuntime}.
Implicit Types w : World.

(** The world an operation leaves, whatever it returns. *)
Definition cron_after (op : CronOp) w : World :=
  match op with
  | Cron_Start s => (cron_start s w).2
  | Cron_End team phase name at_ => (cron_end team phase name at_ w).2
  | Cron_RecordRun id generation at_ out => (record_run id generation at_ out w).2
  | Cron_RecordStop id generation at_ reason => (record_stop id generation at_ reason w).2
  | Cron_Commit write => (commit write w).2
  | Cron_MarkDelivered key receipt => (mark_delivered key receipt w).2
  end.

(** Requests of the types the store takes. *)
Definition cron_op_ok (op : CronOp) : Prop :=
  match op with
  | Cron_Start s => new_schedule_ok s
  | Cron_End _ _ _ at_ => rfc3339_range at_
  | Cron_Commit write => transition_ok (write_transition write)
  | Cron_MarkDelivered _ receipt => receipt_ok receipt
  | Cron_RecordRun _ _ _ _ | Cron_RecordStop _ _ _ _ => True
  end.

Inductive cron_reachable : World -> Prop :=
| cron_reachable_empty w : cron (db w) = empty_cron -> cron_reachable w
| cron_reachable_step w op : cron_reachable w -> cron_op_ok op -> cron_reachable (cron_after op w).

(** What holds of the tables in every reachable world. *)
Definition cron_good (c : CronTables) : Prop := cron_inv c /\ payloads_ok c.

(** How the tables grow: no schedule disappears or returns to an earlier
    generation, events stay as they are, and a delivery keeps its payload and,
    once it is not pending, its state. *)
Record tables_grow (c c' : CronTables) : Prop := mkTablesGrow {
  grow_schedules : forall id r, cron_schedule c !! id = Some r ->
    exists r', cron_schedule c' !! id = Some r' /\ c_generation r <= c_generation r';
  grow_events : cron_transition_event c ⊆ cron_transition_event c';
  grow_intents : forall k row, cron_delivery_intent c !! k = Some row ->
    exists row', cron_delivery_intent c' !! k = Some row' /\ ci_payload row' = ci_payload row
      /\ (ci_state row <> "pending" -> row' = row)
}.

Lemma tables_grow_refl c : tables_grow c c.
Proof.
  constructor; [|done|].
  - intros id r Hr. by exists r.
  - intros k row Hk. by exists row.
Qed.

Lemma tables_grow_trans c1 c2 c3 : tables_grow c1 c2 -> tables_grow c2 c3 -> tables_grow c1 c3.
Proof.
  intros [Hs1 He1 Hi1] [Hs2 He2 Hi2]. constructor; [|by etrans|].
  - intros id r Hr. destruct (Hs1 id r Hr) as (r1 & Hr1 & Hle1). destruct (Hs2 id r1 Hr1) as (r2 & Hr2 & Hle2).
    exists r2. split; [done|lia].
  - intros k row Hk. destruct (Hi1 k row Hk) as (row1 & Hk1 & Hp1 & Hst1).
    destruct (Hi2 k row1 Hk1) as (row2 & Hk2 & Hp2 & Hst2). exists row2. split_and!; [done|congruence|].
    intros Hst. pose proof (Hst1 Hst) as ->. by apply Hst2.
Qed.

(** What a step may change: the cron tables, which grow. *)
Definition cron_grows (d d' : Db) : Prop := d' = set_cron (cron d') d /\ tables_grow (cron d) (cron d').

Lemma set_cron_same d : d = set_cron (cron d) d.
Proof. by destruct d. Qed.

Lemma cron_grows_refl d : cron_grows d d.
Proof. split; [apply set_cron_same|apply tables_grow_refl]. Qed.

(** Only schedules change. *)
Lemma grow_rows c c' :
  (forall id r, cron_schedule c !! id = Some r ->
     exists r', cron_schedule c' !! id = Some r' /\ c_generation r <= c_generation r') ->
  cron_transition_event c' = cron_transition_event c -> cron_delivery_intent c' = cron_delivery_intent c ->
  tables_grow c c'.
Proof. intros Hs He Hi. constructor; [done|by rewrite He|]. rewrite Hi. intros k row Hk. by exists row. Qed.

(** A transaction either leaves the database alone or ends with its body's. *)
Lemma transaction_db {A} (c : M A) w :
  db (with_transaction c w).2 = db w
  \/ exists a w1, c (tick w) = (Ok a, w1) /\ with_transaction c w = (Ok a, tick w1).
Proof.
  destruct (with_transaction_cases c w) as [(e & w' & -> & Hd & _)|Hc]; [by left|].
  destruct (c (tick w)) as [[a|e|] w1]; rewrite Hc; [right; eauto|by left..].
Qed.

Context {crtok : CronRuntimeOk rt crt}.

Lemma cron_good_schedule c c' :
  cron_good c -> schedules_ok c' ->
  cron_transition_event c' = cron_transition_event c -> cron_delivery_intent c' = cron_delivery_intent c ->
  (forall id r, cron_schedule c !! id = Some r ->
     exists r', cron_schedule c' !! id = Some r' /\ c_generation r <= c_generation r') ->
  cron_good c'.
Proof.
  intros [Hi Hp] Ho He Hd Hr. split; [by eapply cron_inv_schedule|]. intros k row. rewrite Hd. apply Hp.
Qed.

(** One row changed without going back a generation. *)
Lemma rows_insert (t : gmap Z CronSqlRow) id r r' :
  t !! id = Some r \/ t !! id = None -> (t !! id = Some r -> c_generation r <= c_generation r') ->
  forall id' r0, t !! id' = Some r0 ->
    exists r1, <[id := r']> t !! id' = Some r1 /\ c_generation r0 <= c_generation r1.
Proof.
  intros Hid Hle id' r0 Hr0. destruct (decide (id' = id)) as [->|Hne].
  - exists r'. rewrite lookup_insert_eq. split; [done|]. destruct Hid as [Hid|Hid]; [|congruence].
    assert (r0 = r) as -> by congruence. by apply Hle.
  - exists r0. by rewrite lookup_insert_ne.
Qed.

Lemma start_step s w :
  cron_good (cron (db w)) -> new_schedule_ok s ->
  cron_good (cron (db (cron_after (Cron_Start s) w))) /\ cron_grows (db w) (db (cron_after (Cron_Start s) w)).
Proof.
  intros Hg Hs. unfold cron_after, cron_start.
  destruct (transaction_db (cron_start_in s) w) as [->|(a & w1 & Hc & ->)]; [by split; [|apply cron_grows_refl]|].
  destruct (cron_start_in_cases s (tick w) (inv_schedules _ (proj1 Hg)) Hs)
    as [(id & g & c' & Hrun & Hok & Hsch & Hev & Hin & Hcase)|(e & w' & Hrun & _)]; rewrite Hrun in Hc; [|done].
  injection Hc as <- <-. simpl in *.
  assert (Hrows : forall id' r0, cron_schedule (cron (db w)) !! id' = Some r0 ->
    exists r1, cron_schedule c' !! id' = Some r1 /\ c_generation r0 <= c_generation r1).
  { rewrite Hsch. destruct Hcase as [(-> & _ & Hnone)|(r & Hr & _ & _ & ->)].
    - apply (rows_insert _ _ (inserted_row s)); [by right|]. intros Hr. congruence.
    - apply (rows_insert _ _ r); [by left|]. intros _. simpl. lia. }
  split; [|split; [done|by apply grow_rows]]. by eapply cron_good_schedule.
Qed.

Lemma end_step team phase name at_ w :
  cron_good (cron (db w)) -> rfc3339_range at_ ->
  let w' := cron_after (Cron_End team phase name at_) w in
  cron_good (cron (db w')) /\ cron_grows (db w) (db w').
Proof.
  intros Hg Hat w'. unfold w', cron_after, cron_end.
  destruct (transaction_db (cron_end_in team phase name at_) w) as [->|(a & w1 & Hc & ->)];
    [by split; [|apply cron_grows_refl]|].
  destruct (cron_end_in_cases team phase name at_ (tick w) (inv_schedules _ (proj1 Hg)) Hat)
    as [(e & Hrun & _)|(l & t & Hrun & Hok & Hl & _)]; rewrite Hrun in Hc; [done|].
  injection Hc as <- <-. simpl in *.
  assert (Hrows : forall id' r0, cron_schedule (cron (db w)) !! id' = Some r0 ->
    exists r1, t !! id' = Some r1 /\ c_generation r0 <= c_generation r1).
  { intros id' r0 Hr0. rewrite Hl, Hr0. eexists. split; [done|]. by destruct (decide _). }
  split; [|split; [done|by apply grow_rows]]. by eapply cron_good_schedule.
Qed.

Lemma live_step id generation f w :
  cron_good (cron (db w)) ->
  (forall r, cron_schedule (cron (db w)) !! id = Some r -> c_active r = 1 ->
     keeps_row f r /\ c_generation (f r) = c_generation r) ->
  let w' := (with_transaction (changed ← update_cron (live_row id generation) f; mret (bool_decide (changed = 1))) w).2 in
  cron_good (cron (db w')) /\ cron_grows (db w) (db w').
Proof.
  intros Hg Hk w'. pose proof (inv_schedules _ (proj1 Hg)) as Ho.
  pose proof (live_transaction id generation f w Ho ltac:(intros r Hr Ha; by apply Hk)) as H.
  unfold w'. destruct (with_transaction _ w) as [[b|e|] w1]; simpl; [|by destruct H as [-> _]; split; [|apply cron_grows_refl]|done].
  destruct b; [|by destruct H as [_ ->]; split; [|apply cron_grows_refl]].
  destruct H as (r & Hr & Hgen & Ha & ->). destruct (Hk r Hr Ha) as [[Hc Huk] Hfg].
  assert (Hrows := rows_insert (cron_schedule (cron (db w))) id r (f r) ltac:(by left) ltac:(intros; lia)).
  split; [|split; [done|by apply grow_rows]]. apply (cron_good_schedule (cron (db w))); [done| |done|done|done].
  apply (schedules_ok_update _ id r); [done..| |done]. rewrite Hfg. by eapply so_generation.
Qed.

Lemma committed_intent write r names w i :
  i ∈ commit_intents write names w ->
  cron_delivery_intent (committed_tables write r names w) !! intent_row_key i = Some (fresh_row i).
Proof.
  intros Hin. simpl. rewrite add_intents_lookup by apply pairs_NoDup, commit_pairs.
  destruct (list_find _ _) as [[n j]|] eqn:Hf.
  - apply list_find_Some in Hf as (Hj & Hk & _).
    pose proof (pairs_NoDup _ (commit_pairs write names w)) as Hnd.
    apply list_elem_of_lookup in Hin as [m Hm].
    assert (n = m) as ->; [|congruence]. eapply NoDup_lookup; [exact Hnd| |].
    + rewrite list_lookup_fmap, Hj. reflexivity.
    + rewrite list_lookup_fmap, Hm. simpl. by rewrite Hk.
  - exfalso. apply list_find_None in Hf. rewrite Forall_forall in Hf. by eapply Hf.
Qed.

Lemma committed_intent_old write r names w k row :
  cron_inv (cron (db w)) -> cron_delivery_intent (cron (db w)) !! k = Some row ->
  cron_delivery_intent (committed_tables write r names w) !! k = Some row.
Proof.
  intros Hi Hl. simpl. rewrite add_intents_lookup by apply pairs_NoDup, commit_pairs.
  destruct (list_find _ _) as [[n j]|] eqn:Hf; [exfalso|done].
  apply list_find_Some in Hf as (Hj & Hk & _). apply list_elem_of_lookup_2 in Hj.
  pose proof (new_event_no_clash write names w j Hi Hj k row Hl) as Hno. apply Hno. rewrite Hk.
  destruct k as [[[[??]?]?]?]. simpl. split_and!; [done..|by right].
Qed.

Lemma committed_grows write r names w :
  cron_inv (cron (db w)) -> commit_ready write r names w ->
  tables_grow (cron (db w)) (committed_tables write r names w).
Proof.
  intros Hi Hr. constructor.
  - apply (rows_insert _ _ r); [left; apply (ready_row _ _ _ _ Hr)|].
    intros _. unfold committed_row. destruct (outcome _); [by rewrite transition_generation|done].
  - simpl. apply insert_subseteq. destruct (cron_transition_event _ !! _) as [ev|] eqn:He; [|done].
    pose proof (last_seq_ub (db w) (write_id write) (write_generation write) _ (mk_is_Some _ _ He)). lia.
  - intros k row Hk. exists row. split; [|done]. by apply committed_intent_old.
Qed.

Lemma commit_step write w :
  cron_good (cron (db w)) -> transition_ok (write_transition write) ->
  let w' := cron_after (Cron_Commit write) w in
  cron_good (cron (db w')) /\ cron_grows (db w) (db w').
Proof.
  intros [Hi Hp] Ht w'. unfold w', cron_after, commit.
  destruct (decide (write_transition write = Transition_SkippedInFlight)) as [->|Hk].
  { by split; [|apply cron_grows_refl]. }
  replace (match write_transition write with Transition_SkippedInFlight => _ | _ => _ end)
    with (with_transaction (commit_in write)) by (by destruct (write_transition write)).
  destruct (transaction_db (commit_in write) w) as [->|(a & w1 & Hc & ->)]; [by split; [|apply cron_grows_refl]|].
  destruct (commit_in_cases write (tick w) Hi Hk) as [[_ Hrun]|[(r & names & Hr)|[(e & w2 & Hrun) _]]].
  - rewrite Hrun in Hc. injection Hc as <- <-. by split; [|apply cron_grows_refl].
  - rewrite (commit_in_run write r names) in Hc by done. injection Hc as <- <-. simpl.
    split; [split; [exact (cron_inv_committed write r names (tick w) Hi Hr)
                   |exact (payloads_committed write r names (tick w) Hr Ht Hp)]|].
    split; [done|]. exact (committed_grows write r names (tick w) Hi Hr).
  - rewrite Hrun in Hc. done.
Qed.

Lemma mark_step key receipt w :
  cron_good (cron (db w)) -> receipt_ok receipt ->
  let w' := cron_after (Cron_MarkDelivered key receipt) w in
  cron_good (cron (db w')) /\ cron_grows (db w) (db w').
Proof.
  intros [Hi Hp] Hr w'. unfold w', cron_after, mark_delivered.
  destruct (transaction_db (mark_delivered_in key receipt) w) as [->|(a & w1 & Hc & Hrun)];
    [by split; [|apply cron_grows_refl]|].
  assert (Hst : key_storable key).
  { unfold mark_delivered_in in Hc. unfold key_storable. destruct (key_columns key) as [[[id g] s] o].
    apply run_bind_ok_inv in Hc as (id' & w2 & Hid & Hc). apply run_bind_ok_inv in Hc as (s' & w3 & Hs & _).
    unfold stored_id, stored_seq, i64_try_from, lift, st_lift in Hid, Hs.
    do 2 case_bool_decide; try done. }
  pose proof (mark_delivered_cases key receipt w Hi Hst) as Hcases. unfold mark_delivered in Hcases.
  rewrite Hrun in Hcases |- *. destruct a.
  - destruct Hcases as (row & Hrow & Hpend & Hd). cbn [snd]. rewrite Hd. split; [split|split; [done|]].
    + by apply cron_inv_settled.
    + by apply payloads_settled.
    + constructor; [intros id r Hid; by exists r|done|]. intros k row' Hk. simpl.
      destruct (decide (k = key_row key)) as [->|Hne]; [|exists row'; by rewrite lookup_insert_ne].
      assert (row' = row) as -> by congruence. rewrite lookup_insert_eq. eexists. split; [done|]. split; [|done].
      unfold settled_row. by destruct (receipt_columns receipt) as [[??]?].
  - destruct Hcases as [Hd _]. cbn [snd]. rewrite Hd. by split; [|apply cron_grows_refl].
Qed.

(** Each operation, with well-typed arguments, keeps the tables well formed. *)
Lemma cron_step op w :
  cron_good (cron (db w)) -> cron_op_ok op ->
  cron_good (cron (db (cron_after op w))) /\ cron_grows (db w) (db (cron_after op w)).
Proof.
  intros Hg Hop. pose proof (fun id r => so_check _ (inv_schedules _ (proj1 Hg)) id r) as Hchk.
  destruct op as [s|team phase name at_|id g at_ out|id g at_ reason|write|key receipt].
  - by apply start_step.
  - by apply end_step.
  - unfold cron_after, record_run. destruct (schedule_stored_id id) as [id'|]; [|by split; [|apply cron_grows_refl]].
    apply live_step; [done|]. intros r Hr Ha. split; [|done]. apply run_keeps; eauto.
  - unfold cron_after, record_stop. destruct (schedule_stored_id id) as [id'|]; [|by split; [|apply cron_grows_refl]].
    apply live_step; [done|]. intros r Hr Ha. split; [|done]. apply stopped_keeps; eauto.
  - by apply commit_step.
  - by apply mark_step.
Qed.

Lemma empty_cron_good : cron_good empty_cron.
Proof.
  split; [constructor; [constructor|..]|]; simpl.
  all: try (intros *; rewrite !lookup_empty; by intros [=]).
  - done.
  - intros ???? H. by rewrite lookup_empty in H.
  - intros ???? [? H]. by rewrite lookup_empty in H.
  - intros k row H. simpl in H. by rewrite lookup_empty in H.
Qed.

Lemma cron_reachable_good w : cron_reachable w -> cron_good (cron (db w)).
Proof.
  induction 1 as [w He|w op _ IH Hop]; [rewrite He; apply empty_cron_good|by apply cron_step].
Qed.

(** C37: in every state the cron stores reach, schedules satisfy the constraints of
    their table with one row per team, phase and name, the events of a
    generation are numbered from 1 without gaps and never at the same time,
    every delivery belongs to an event and its payload reads back; and every
    operation changes the cron tables only, removes no schedule and takes none
    back to an earlier generation, keeps every event, and every delivery with
    its payload and its receipt. *)
Theorem cron_store_invariant w :
  cron_reachable w ->
  cron_inv (cron (db w)) /\ payloads_ok (cron (db w))
  /\ forall op, cron_op_ok op -> cron_grows (db w) (db (cron_after op w)).
Proof.
  intros Hg%cron_reachable_good. split_and!; [apply Hg..|]. intros op Hop. by apply cron_step.
Qed.

(** Starting a schedule inserts it at generation 1, or restarts the ended row
    of that name with its id, the next generation and every field new; the
    schedule is returned as it reads.  It is refused, with no effect, exactly
    when a schedule of that name is active, its generations or the ids are used
    up, the timeout is zero, or its transaction fails. *)
Theorem cron_start_correct s w :
  schedules_ok (cron (db w)) -> new_schedule_ok s ->
  match cron_start s w with
  | (Ok sched, w') =>
    exists id g, sched = started_schedule id g s
      /\ cron_schedule (cron (db w')) = <[id := with_generation g (inserted_row s)]> (cron_schedule (cron (db w)))
      /\ cron_live (cron (db w')) id g /\ schedules_ok (cron (db w'))
      /\ (cron_schedule (cron (db w)) !! id = None /\ g = cron_generation_first
          \/ exists r, cron_schedule (cron (db w)) !! id = Some r /\ c_active r = 0
             /\ cron_unique_key r = (new_team s, new_phase s, new_name s)
             /\ cron_generation_next (c_generation r) = Some g)
  | (Err e, w') =>
    db w' = db w /\ (start_refusal s (cron (db w)) e \/ exists n fault, control_fault n = Some fault)
  | (Panic, _) => False
  end.
Proof.
  intros Ho Hs. unfold cron_start.
  destruct (with_transaction_cases (cron_start_in s) w) as [(e & w' & -> & Hd & Hf)|Hc]; [by split; [|right]|].
  destruct (cron_start_in_cases s (tick w) Ho Hs)
    as [(id & g & c' & Hrun & Hok & Hsch & Hev & Hin & Hcase)|(e & w' & Hrun & Hwhy)]; rewrite Hrun in Hc; rewrite Hc.
  2:{ split; [done|left; exact Hwhy]. }
  exists id, g. simpl. split_and!; [done|exact Hsch| |exact Hok|].
  - exists (with_generation g (inserted_row s)). rewrite Hsch, lookup_insert_eq. done.
  - destruct Hcase as [(-> & _ & Hnone)|(r & Hr & Ha & Hk & ->)]; [by left|right]. exists r. split_and!; [done..|].
    pose proof (so_generation _ Hok id (with_generation (c_generation r + 1) (inserted_row s))) as Hgen.
    rewrite Hsch, lookup_insert_eq in Hgen. specialize (Hgen eq_refl). simpl in Hgen.
    pose proof (so_check _ Ho id r Hr) as Hchk. apply cron_row_checked in Hchk as (Hg1 & _).
    unfold cron_generation_next, u32_try_from. by rewrite bool_decide_eq_true_2 by lia.
Qed.

(** Ending the schedules of a phase, or the one named, deactivates every
    active schedule it names and no other row, and returns each as it now
    reads; it fails without effect when such a row cannot be read or the
    transaction fails. *)
Theorem cron_end_correct team phase name at_ w :
  schedules_ok (cron (db w)) -> rfc3339_range at_ ->
  match cron_end team phase name at_ w with
  | (Ok l, w') =>
    (forall id, cron_schedule (cron (db w')) !! id
       = (fun r => if decide (ends team phase name id r) then ended_row at_ r else r)
         <$> cron_schedule (cron (db w)) !! id)
    /\ (forall id r, cron_schedule (cron (db w')) !! id = Some r -> ~ ends team phase name id r)
    /\ (forall s, s ∈ l <-> exists id r, cron_schedule (cron (db w)) !! id = Some r
          /\ ends team phase name id r /\ decode_cron id (ended_row at_ r) = Ok s)
    /\ schedules_ok (cron (db w'))
  | (Err _, w') =>
    db w' = db w
    /\ ((exists id r, cron_schedule (cron (db w)) !! id = Some r /\ ends team phase name id r
           /\ forall s, decode_cron id r <> Ok s)
        \/ exists n fault, control_fault n = Some fault)
  | (Panic, _) => False
  end.
Proof.
  intros Ho Hat. unfold cron_end.
  destruct (with_transaction_cases (cron_end_in team phase name at_) w) as [(e & w' & -> & Hd & Hf)|Hc]; [by split; [|right]|].
  destruct (cron_end_in_cases team phase name at_ (tick w) Ho Hat)
    as [(e & Hrun & Hbad)|(l & t & Hrun & Hok & Hl & Hlist)]; rewrite Hrun in Hc; rewrite Hc; simpl.
  - split; [done|left; exact Hbad].
  - split_and!; [exact Hl| |exact Hlist|exact Hok]. intros id r. rewrite Hl.
    intros (r0 & Hr0 & ->)%fmap_Some. destruct (decide (ends team phase name id r0)) as [He|He]; [|done].
    intros (_ & _ & Ha & _). done.
Qed.

(** *** The generation fence *)

(** The records of a run, and the operations of the writer lane under its
    permit, all look for the same live row. *)
Lemma stale_records id generation at_ out reason w :
  schedules_ok (cron (db w)) -> ~ cron_live (cron (db w)) id generation ->
  (match record_run id generation at_ out w with
   | (Ok written, w') => written = false /\ db w' = db w
   | (Err _, w') => db w' = db w
   | (Panic, _) => False
   end)
  /\ (match record_stop id generation at_ reason w with
   | (Ok written, w') => written = false /\ db w' = db w
   | (Err _, w') => db w' = db w
   | (Panic, _) => False
   end).
Proof.
  intros Ho Hstale. unfold record_run, record_stop, schedule_stored_id, i64_try_from.
  destruct (bool_decide (id <= i64_max)); [|done]. pose proof (fun r => so_check _ Ho id r) as Hchk. split.
  - pose proof (live_transaction id generation (run_row at_ out) w Ho) as H.
    destruct (with_transaction _ w) as [[b|e|] w']; [destruct b| |]; simpl in *.
    + destruct H as (r & Hr & Hg & Ha & _); [intros; by apply run_keeps; eauto|]. exfalso. apply Hstale. by exists r.
    + split; [done|]. apply H. intros; by apply run_keeps; eauto.
    + apply H. intros; by apply run_keeps; eauto.
    + apply H. intros; by apply run_keeps; eauto.
  - pose proof (live_transaction id generation (stopped_row at_ (stopped_outcome reason)) w Ho) as H.
    destruct (with_transaction _ w) as [[b|e|] w']; [destruct b| |]; simpl in *.
    + destruct H as (r & Hr & Hg & Ha & _); [intros; by apply stopped_keeps; eauto|]. exfalso. apply Hstale. by exists r.
    + split; [done|]. apply H. intros; by apply stopped_keeps; eauto.
    + apply H. intros; by apply stopped_keeps; eauto.
    + apply H. intros; by apply stopped_keeps; eauto.
Qed.

Lemma stale_commit write w :
  write_id write <= i64_max -> write_transition write <> Transition_SkippedInFlight ->
  ~ cron_live (cron (db w)) (write_id write) (write_generation write) ->
  match commit write w with
  | (Ok result, w') => result = Commit_StaleGeneration /\ db w' = db w
  | (Err _, w') => db w' = db w
  | (Panic, _) => False
  end.
Proof.
  intros Hid Hk Hstale. replace (commit write) with (with_transaction (commit_in write))
    by (unfold commit; by destruct (write_transition write)).
  destruct (with_transaction_cases (commit_in write) w) as [(e & w' & -> & Hd & _)|Hc]; [done|].
  rewrite commit_in_stale in Hc by done. by rewrite Hc.
Qed.

(** Starting under the name of an ended row restarts that row. *)
Lemma restarted s id r w sched w' :
  schedules_ok (cron (db w)) -> new_schedule_ok s ->
  cron_schedule (cron (db w)) !! id = Some r -> c_active r = 0 ->
  cron_unique_key r = (new_team s, new_phase s, new_name s) ->
  cron_start s w = (Ok sched, w') ->
  sched = started_schedule id (c_generation r + 1) s /\ schedules_ok (cron (db w'))
  /\ cron_schedule (cron (db w')) !! id = Some (with_generation (c_generation r + 1) (inserted_row s)).
Proof.
  intros Ho Hs Hr Ha Hk Hrun. unfold cron_start in Hrun.
  destruct (with_transaction_cases (cron_start_in s) w) as [(e & w1 & Hrun' & _)|Hc]; [congruence|].
  destruct (cron_start_in_cases s (tick w) Ho Hs)
    as [(id' & g & c' & Hb & Hok & Hsch & _ & _ & Hcase)|(e & w1 & Hb & _)]; rewrite Hb in Hc; [|congruence].
  rewrite Hc in Hrun. injection Hrun as <- <-. simpl in *.
  destruct Hcase as [(-> & -> & Hnone)|(r' & Hr' & _ & Hk' & ->)].
  - exfalso. assert (id = cron_sequence (cron (db w)) + 1) as ->; [|congruence].
    pose proof (so_unique _ Hok) as Hu. rewrite Hsch in Hu.
    apply (Hu _ _ r (with_generation 1 (inserted_row s))); [|apply lookup_insert_eq|by rewrite Hk].
    rewrite lookup_insert_ne; [exact Hr|]. intros <-. congruence.
  - assert (id' = id) as -> by (eapply (so_unique _ Ho); [exact Hr'|exact Hr|congruence]).
    assert (r' = r) as -> by congruence. split_and!; [done..|]. by rewrite Hsch, lookup_insert_eq.
Qed.

(** A run that outlives its generation never writes: once its schedule was
    ended and started again, the records and transitions of the old generation
    return false or stale and change nothing, and every message or task
    operation under its permit is refused with nothing written. *)
Theorem restart_fences_old_runs s id r w sched w' :
  schedules_ok (cron (db w)) -> new_schedule_ok s ->
  cron_schedule (cron (db w)) !! id = Some r -> c_active r = 0 ->
  cron_unique_key r = (new_team s, new_phase s, new_name s) ->
  cron_start s w = (Ok sched, w') ->
  sched_id sched = id /\ sched_generation sched = c_generation r + 1
  /\ (forall at_ out reason,
        match record_run id (c_generation r) at_ out w' with
        | (Ok written, w2) => written = false /\ db w2 = db w' | (Err _, w2) => db w2 = db w' | (Panic, _) => False
        end
        /\ match record_stop id (c_generation r) at_ reason w' with
           | (Ok written, w2) => written = false /\ db w2 = db w' | (Err _, w2) => db w2 = db w' | (Panic, _) => False
           end)
  /\ (forall write, write_id write = id -> write_generation write = c_generation r ->
        write_transition write <> Transition_SkippedInFlight ->
        match commit write w' with
        | (Ok result, w2) => result = Commit_StaleGeneration /\ db w2 = db w'
        | (Err _, w2) => db w2 = db w' | (Panic, _) => False
        end)
  /\ (forall op, op_provenance op = Origin_CronRun id (c_generation r) ->
        exists e, execute op w' = (Err e, w')).
Proof.
  intros Ho Hs Hr Ha Hk Hrun.
  destruct (restarted s id r w sched w' Ho Hs Hr Ha Hk Hrun) as (-> & Hok & Hrow).
  pose proof (so_check _ Ho id r Hr) as Hchk. pose proof (so_id _ Ho id r Hr) as Hid. pose proof (so_sequence _ Ho) as Hseq.
  assert (Hstale : ~ cron_live (cron (db w')) id (c_generation r)).
  { intros (r' & Hr' & Hg & _). rewrite Hrow in Hr'. injection Hr' as <-. simpl in Hg. lia. }
  split_and!; [done..| | |].
  - intros at_ out reason. by apply stale_records.
  - intros write <- Hg Hkind. apply stale_commit; [lia|done|by rewrite Hg].
  - intros op Hop. destruct (stale_execute op w') as (e & He & _); [|eauto]. by rewrite Hop.
Qed.

(** *** Commits *)

Definition is_lifecycle (i : CronDeliveryIntent) : Prop :=
  match i with DeliveryIntent_Lifecycle _ => True | DeliveryIntent_ModuleMail _ => False end.

#[export] Instance is_lifecycle_dec i : Decision (is_lifecycle i).
Proof. unfold is_lifecycle. destruct i; apply _. Defined.

Lemma commit_unfold write :
  write_transition write <> Transition_SkippedInFlight -> commit write = with_transaction (commit_in write).
Proof. intros Hk. unfold commit. by destruct (write_transition write). Qed.

(** A commit that was applied, as its transaction ran it. *)
Lemma commit_applied_inv write intents w w' :
  cron_inv (cron (db w)) -> write_transition write <> Transition_SkippedInFlight ->
  commit write w = (Ok (Commit_Applied intents), w') ->
  exists r names, commit_ready write r names (tick w) /\ intents = commit_intents write names (tick w)
    /\ db w' = set_cron (committed_tables write r names (tick w)) (db w).
Proof.
  intros Hi Hk. rewrite commit_unfold by done. intros Hrun.
  destruct (with_transaction_cases (commit_in write) w) as [(e & w1 & Hrun' & _)|Hc]; [congruence|].
  destruct (commit_in_cases write (tick w) Hi Hk) as [[_ Hb]|[(r & names & Hr)|[(e & w2 & Hb) _]]].
  - rewrite Hb in Hc. congruence.
  - rewrite (commit_in_run write r names) in Hc by done. exists r, names. rewrite Hc in Hrun.
    injection Hrun as <- <-. done.
  - rewrite Hb in Hc. congruence.
Qed.

(** Committing a transition of the live generation writes its event under the
    next number, the run's state into its schedule (ending it when stopped) and
    one pending row for every delivery it returns: at most one lifecycle notice
    first, then one mail per output in order; nothing else changes.  A
    transition of another generation is stale and has no effect; any other
    refusal has none either and one of the listed causes. *)
Theorem cron_commit_correct write w :
  cron_inv (cron (db w)) -> write_transition write <> Transition_SkippedInFlight ->
  let id := write_id write in let g := write_generation write in
  match commit write w with
  | (Ok (Commit_Applied intents), w') =>
    exists r names, cron_schedule (cron (db w)) !! id = Some r /\ c_generation r = g /\ c_active r = 1
      /\ intents = notice_of (commit_key write w) names (commit_event write w)
                   ++ mails_of (commit_key write w) names (S (ticks w)) 0 (write_outputs write)
      /\ cron_transition_event (cron (db w'))
         = <[(id, g, last_seq (db w) id g + 1) := event_row write]> (cron_transition_event (cron (db w)))
      /\ cron_schedule (cron (db w')) = <[id := committed_row write r]> (cron_schedule (cron (db w)))
      /\ (forall i, i ∈ intents -> cron_delivery_intent (cron (db w')) !! intent_row_key i = Some (fresh_row i))
      /\ (forall k row, cron_delivery_intent (cron (db w)) !! k = Some row ->
            cron_delivery_intent (cron (db w')) !! k = Some row)
      /\ cron_inv (cron (db w'))
  | (Ok Commit_StaleGeneration, w') => ~ cron_live (cron (db w)) id g /\ db w' = db w
  | (Err _, w') => db w' = db w /\ (commit_refusal write w \/ exists n fault, control_fault n = Some fault)
  | (Panic, _) => False
  end.
Proof.
  intros Hi Hk id g. rewrite commit_unfold by done.
  destruct (with_transaction_cases (commit_in write) w) as [(e & w' & -> & Hd & Hf)|Hc]; [by split; [|right]|].
  destruct (commit_in_cases write (tick w) Hi Hk) as [[Hst Hb]|[(r & names & Hr)|[(e & w2 & Hb) Hwhy]]].
  - rewrite Hb in Hc. by rewrite Hc.
  - rewrite (commit_in_run write r names) in Hc by done. rewrite Hc. exists r, names.
    pose proof (cron_inv_committed write r names (tick w) Hi Hr) as Hinv.
    pose proof (fun i => committed_intent write r names (tick w) i) as Hnew.
    pose proof (fun k row => committed_intent_old write r names (tick w) k row Hi) as Hold.
    destruct Hr as [Hrow Hg Ha _ _ _ _ _ _].
    split_and!; [exact Hrow|exact Hg|exact Ha|reflexivity|reflexivity|reflexivity|exact Hnew|exact Hold|exact Hinv].
  - rewrite Hb in Hc. rewrite Hc. split; [done|left]. destruct Hwhy.
    + by apply refuse_id.
    + by eapply refuse_prior.
    + by apply refuse_room.
    + by eapply refuse_stamp.
    + by eapply refuse_names.
    + by apply refuse_outputs.
Qed.

(** The latest event after a commit is its own. *)
Lemma latest_committed write r names w d' :
  cron_inv (cron (db w)) -> commit_ready write r names w ->
  cron d' = committed_tables write r names w ->
  latest d' (write_id write) (write_generation write) = Some (event_row write).
Proof.
  intros Hi Hr Hd'. pose proof (cron_inv_committed write r names w Hi Hr) as Hi'.
  assert (Hlast : last_seq d' (write_id write) (write_generation write)
    = last_seq (db w) (write_id write) (write_generation write) + 1).
  { assert (Hex : forall s, is_Some (cron_transition_event (cron d') !! (write_id write, write_generation write, s))
      <-> s = last_seq (db w) (write_id write) (write_generation write) + 1
          \/ 1 <= s <= last_seq (db w) (write_id write) (write_generation write)).
    { intros s. rewrite Hd'. simpl. rewrite lookup_insert_is_Some', (event_iff (db w)) by done. naive_solver. }
    pose proof (last_seq_nonneg (db w) (write_id write) (write_generation write) Hi) as Hnn.
    pose proof (last_seq_ub d' _ _ _ (proj2 (Hex _) (or_introl eq_refl))) as Hub.
    pose proof (last_seq_found d' (write_id write) (write_generation write) ltac:(lia)) as Hf.
    apply Hex in Hf. lia. }
  unfold latest. rewrite Hlast, Hd'. simpl. apply lookup_insert_eq.
Qed.

(** A failure is lost when the latest event of its generation is not one. *)
Lemma failure_commit_lost write f ev w :
  cron_inv (cron (db w)) -> write_transition write = Transition_Failure f ->
  cron_live (cron (db w)) (write_id write) (write_generation write) ->
  latest (db w) (write_id write) (write_generation write) = Some ev -> ce_transition_kind ev <> "failure" ->
  exists e w2, commit write w = (Err e, w2) /\ db w2 = db w.
Proof.
  intros Hi Hf (r & Hr & Hg & Ha) Hl Hk. rewrite commit_unfold by (by rewrite Hf).
  destruct (with_transaction_cases (commit_in write) w) as [(e & w2 & Hc & Hd2 & _)|Hc]; [by eauto|].
  pose proof (so_id _ (inv_schedules _ Hi) _ _ Hr) as Hid. pose proof (so_sequence _ (inv_schedules _ Hi)) as Hseq.
  assert (Hfails : fails (commit_in write) (tick w)).
  { unfold fails. rewrite (commit_in_live write r) by (done || lia). rewrite Hf. simpl.
    eexists _, _. apply run_bind_err. by eapply prior_failure_err. }
  destruct Hfails as (e & w2 & He). rewrite He in Hc. rewrite Hc. eauto.
Qed.

(** After a run that succeeded (or whose stop check let it continue), a failed
    run of the same generation is never recorded: its commit always fails and
    writes no event, no run state and no notice, because the query for the
    prior failure reads the latest event of any kind. *)
Theorem failure_after_success_lost ok_write fail_write f intents w w' :
  cron_inv (cron (db w)) ->
  (exists o, write_transition ok_write = Transition_Success o)
    \/ write_transition ok_write = Transition_StopCheckContinues ->
  write_transition fail_write = Transition_Failure f ->
  write_id fail_write = write_id ok_write -> write_generation fail_write = write_generation ok_write ->
  commit ok_write w = (Ok (Commit_Applied intents), w') ->
  exists e w2, commit fail_write w' = (Err e, w2) /\ db w2 = db w'.
Proof.
  intros Hi Hok Hf Hid Hg Hrun.
  assert (Hk : write_transition ok_write <> Transition_SkippedInFlight) by (by destruct Hok as [[o ->]| ->]).
  destruct (commit_applied_inv ok_write intents w w' Hi Hk Hrun) as (r & names & Hr & _ & Hd).
  pose proof (cron_inv_committed ok_write r names (tick w) Hi Hr) as Hi'.
  pose proof (latest_committed ok_write r names (tick w) (db w') Hi Hr ltac:(by rewrite Hd)) as Hlatest.
  eapply failure_commit_lost; [by rewrite Hd|exact Hf| |rewrite Hid, Hg; exact Hlatest|].
  - exists (committed_row ok_write r). rewrite Hid, Hg, Hd. simpl. rewrite lookup_insert_eq. split; [done|].
    rewrite <- (ready_generation _ _ _ _ Hr). pose proof (ready_active _ _ _ _ Hr) as Ha. unfold committed_row.
    destruct Hok as [[[] ->]| ->]; done.
  - unfold event_row. by destruct Hok as [[o ->]| ->].
Qed.

Lemma failure_kind_debug_inj a b : failure_kind_debug a = failure_kind_debug b -> a = b.
Proof. by destruct a, b. Qed.

Lemma code_display_inj a b : code_display a = code_display b -> a = b.
Proof. intros H. apply (inj as_str). by rewrite !as_str_display, H. Qed.

(** A failure repeats another exactly when their fingerprints agree. *)
Lemma repeated_fingerprint f1 f2 :
  repeated_failure (Some f2)
    (Some (failure_kind_debug (failure_kind f1), code_display <$> failure_code f1, failure_detail f1)) = true
  <-> fingerprint f1 = fingerprint f2.
Proof.
  unfold repeated_failure, fingerprint. rewrite !andb_true_iff, !String.eqb_eq, bool_decide_eq_true. split.
  - intros [[Hk%failure_kind_debug_inj Hc] Hd]. f_equal; [done| |done].
    destruct (failure_code f1) as [a|], (failure_code f2) as [b|]; simpl in Hc; try done.
    injection Hc as Hc. f_equal. by apply code_display_inj.
  - intros [= -> -> ->]. done.
Qed.

Lemma lifecycle_intents key names e clock index outputs :
  filter is_lifecycle (notice_of key names e ++ mails_of key names clock index outputs) = notice_of key names e.
Proof.
  assert (Hm : filter is_lifecycle (mails_of key names clock index outputs) = []).
  { revert clock index. induction outputs as [|o outputs IH]; intros clock index; [done|].
    simpl mails_of. rewrite filter_cons_False by (simpl; tauto). apply IH. }
  rewrite filter_app, Hm, app_nil_r. by destruct e.
Qed.

(** Of two failures of a generation committed one after the other, the second
    is announced exactly when its fingerprint differs from the first: a repeat
    gives no lifecycle notice, anything else one, to the schedule's creator,
    carrying the new failure. *)
Theorem failure_notified_once write1 write2 f1 f2 i1 i2 w w' w'' :
  cron_inv (cron (db w)) ->
  write_transition write1 = Transition_Failure f1 -> write_transition write2 = Transition_Failure f2 ->
  write_id write2 = write_id write1 -> write_generation write2 = write_generation write1 ->
  commit write1 w = (Ok (Commit_Applied i1), w') -> commit write2 w' = (Ok (Commit_Applied i2), w'') ->
  if decide (fingerprint f1 = fingerprint f2)
  then filter is_lifecycle i2 = []
  else exists notice r, filter is_lifecycle i2 = [DeliveryIntent_Lifecycle notice]
       /\ intent_event notice = LifecycleEvent_Error f2
       /\ cron_schedule (cron (db w)) !! write_id write1 = Some r
       /\ agent_name_from_str (c_created_by r) = Ok (intent_recipient notice).
Proof.
  intros Hi Hf1 Hf2 Hid Hg Hrun1 Hrun2.
  destruct (commit_applied_inv write1 i1 w w' Hi ltac:(by rewrite Hf1) Hrun1) as (r1 & names1 & Hr1 & _ & Hd1).
  pose proof (cron_inv_committed write1 r1 names1 (tick w) Hi Hr1) as Hi1.
  pose proof (latest_committed write1 r1 names1 (tick w) (db w') Hi Hr1 ltac:(by rewrite Hd1)) as Hlatest.
  destruct (commit_applied_inv write2 i2 w' w'' ltac:(by rewrite Hd1) ltac:(by rewrite Hf2) Hrun2)
    as (r2 & names2 & Hr2 & -> & _).
  assert (Hprior : latest (db w') (write_id write2) (write_generation write2) ≫= prior_columns
    = Some (failure_kind_debug (failure_kind f1), code_display <$> failure_code f1, failure_detail f1)).
  { rewrite Hid, Hg, Hlatest. unfold event_row. by rewrite Hf1. }
  assert (Hev : commit_event write2 (tick w')
    = if decide (fingerprint f1 = fingerprint f2) then None else Some (LifecycleEvent_Error f2)).
  { unfold commit_event. rewrite Hf2. cbn [db tick]. rewrite Hprior. simpl failure_columns. cbn [snd].
    destruct (decide (fingerprint f1 = fingerprint f2)) as [He|He].
    - by rewrite (proj2 (repeated_fingerprint f1 f2) He).
    - destruct (repeated_failure _ _) eqn:Hrep; [|done]. by apply repeated_fingerprint in Hrep. }
  unfold commit_intents. rewrite lifecycle_intents, Hev.
  destruct (decide (fingerprint f1 = fingerprint f2)) as [He|He]; [done|].
  pose proof (ready_row _ _ _ _ Hr2) as Hrow2. cbn [db tick] in Hrow2. rewrite Hd1, Hid in Hrow2. simpl in Hrow2.
  rewrite lookup_insert_eq in Hrow2. injection Hrow2 as <-.
  assert (Hn : delivery_names (committed_row write1 r1) = Ok names2).
  { apply (ready_names _ _ _ _ Hr2). left. by rewrite Hev. }
  eexists _, r1. split_and!; [reflexivity|done|exact (ready_row _ _ _ _ Hr1)|]. simpl.
  assert (Hc : c_created_by (committed_row write1 r1) = c_created_by r1)
    by (unfold committed_row; rewrite Hf1; done).
  revert Hn. unfold delivery_names, map_message. rewrite Hc.
  destruct (team_name_from_str _); [|done..]. simpl. destruct (agent_name_from_str _); [|done..]. simpl.
  destruct (cron_name_parse _); [|done..]. by intros [= <-].
Qed.

(** *** Deliveries *)

(** A delivery is settled at most once: the first receipt for a pending
    delivery is stored with its text or retry cause and nothing else changes;
    any later receipt for the same key, also after an unknown hand-off, returns
    false and changes nothing. *)
Theorem delivery_settled_once key receipt w :
  cron_inv (cron (db w)) -> key_storable key ->
  match mark_delivered key receipt w with
  | (Ok true, w') =>
    (exists row, cron_delivery_intent (cron (db w)) !! key_row key = Some row /\ ci_state row = "pending"
       /\ cron_delivery_intent (cron (db w'))
          = <[key_row key := settled_row receipt row]> (cron_delivery_intent (cron (db w)))
       /\ cron_schedule (cron (db w')) = cron_schedule (cron (db w))
       /\ cron_transition_event (cron (db w')) = cron_transition_event (cron (db w)))
    /\ forall receipt' w2, db w2 = db w' ->
         match mark_delivered key receipt' w2 with
         | (Ok settled, w3) => settled = false /\ db w3 = db w2
         | (Err _, w3) => db w3 = db w2
         | (Panic, _) => False
         end
  | (Ok false, w') => db w' = db w /\ forall row,
      cron_delivery_intent (cron (db w)) !! key_row key = Some row -> ci_state row <> "pending"
  | (Err _, w') => db w' = db w
  | (Panic, _) => False
  end.
Proof.
  intros Hi Hst. pose proof (mark_delivered_cases key receipt w Hi Hst) as H.
  destruct (mark_delivered key receipt w) as [[b|e|] w']; [destruct b| |]; [|done|by destruct H|done].
  destruct H as (row & Hl & Hp & Hd). split.
  { exists row. rewrite Hd. done. }
  intros receipt' w2 Hw2. pose proof (cron_inv_settled key receipt row w Hi Hl) as Hi'.
  assert (Hcron : cron (db w2) = put_intents (<[key_row key := settled_row receipt row]>
    (cron_delivery_intent (cron (db w)))) (cron (db w))) by (by rewrite Hw2, Hd).
  pose proof (mark_delivered_cases key receipt' w2 ltac:(by rewrite Hcron) Hst) as H.
  destruct (mark_delivered key receipt' w2) as [[b|e|] w3]; [destruct b| |]; [|by destruct H as [-> _]|by destruct H|done].
  destruct H as (row2 & Hl2 & Hp2 & _). rewrite Hcron in Hl2. simpl in Hl2. rewrite lookup_insert_eq in Hl2.
  injection Hl2 as <-. by destruct receipt.
Qed.

(** Deliveries survive the database: whatever a commit returns is listed by the
    pending query as ready to send, equal to what was committed, and after an
    accepted receipt is listed no more; neither query fails. *)
Theorem committed_deliveries_listed write intents limit w w' :
  cron_inv (cron (db w)) -> payloads_ok (cron (db w)) ->
  transition_ok (write_transition write) -> write_transition write <> Transition_SkippedInFlight ->
  commit write w = (Ok (Commit_Applied intents), w') ->
  Z.of_nat (size (cron_delivery_intent (cron (db w')))) <= limit <= i64_max ->
  exists l, pending limit w' = (Ok l, w')
    /\ (forall i, i ∈ intents -> Pending_ReadyToSend i ∈ l)
    /\ forall i receipt_id w2, i ∈ intents ->
         mark_delivered (delivery_key i) (Receipt_Accepted receipt_id) w' = (Ok true, w2) ->
         exists l2, pending limit w2 = (Ok l2, w2) /\ forall p, p ∈ l2 -> pending_intent p <> i.
Proof.
  intros Hi Hp Ht Hk Hrun Hlim.
  destruct (commit_applied_inv write intents w w' Hi Hk Hrun) as (r & names & Hr & -> & Hd).
  pose proof (cron_inv_committed write r names (tick w) Hi Hr) as Hi1.
  pose proof (payloads_committed write r names (tick w) Hr Ht Hp) as Hp1.
  pose proof (fun i => commit_intents_ok write r names (tick w) i Hr Ht) as Hok.
  assert (Hc : cron (db w') = committed_tables write r names (tick w)) by (by rewrite Hd).
  destruct (pending_run limit w') as (l & Hl & Hf); [by rewrite Hc..|]. exists l. split; [done|]. split.
  - intros i Hin. assert (Hrow : (intent_row_key i, fresh_row i) ∈ pending_rows (db w') limit).
    { apply pending_rows_all; [done| |by left]. rewrite Hc. by apply committed_intent. }
    apply list_elem_of_lookup in Hrow as [n Hn].
    destruct (Forall2_lookup_l _ _ _ _ _ Hf Hn) as (p & Hpn & Hpok & Hpk & Hpay & Hst). simpl in *.
    apply list_elem_of_lookup_2 in Hpn. destruct Hst as [[_ Hpe]|[[=] _]].
    rewrite (encode_intent_inj i (pending_intent p)) by auto. by rewrite <- Hpe.
  - intros i rid w2 Hin Hmark.
    assert (Hkey : intent_row_key i = key_row (delivery_key i)) by (by apply intent_row_key_key, Hok).
    assert (Hi2 : cron_inv (cron (db w2)) /\ payloads_ok (cron (db w2))).
    { pose proof (mark_step (delivery_key i) (Receipt_Accepted rid) w') as Hstep. simpl in Hstep.
      rewrite Hmark in Hstep. apply Hstep; [|done]. split; by rewrite Hc. }
    destruct (pending_run limit w2) as (l2 & Hl2 & Hf2); [apply Hi2..|]. exists l2. split; [done|].
    intros p Hp2 Heq. apply list_elem_of_lookup in Hp2 as [n Hn].
    destruct (Forall2_lookup_r _ _ _ _ _ Hf2 Hn) as ([k row] & Hkr & _ & Hpk & _). simpl in Hpk.
    apply list_elem_of_lookup_2, elem_of_pending_rows in Hkr as [Hkr Hu]. rewrite Heq, Hkey in Hpk.
    assert (Hst : key_storable (delivery_key i)).
    { pose proof (commit_storable write names (tick w) Hi) as Hstor.
      pose proof (so_id _ (inv_schedules _ Hi) _ _ (ready_row _ _ _ _ Hr)).
      pose proof (so_sequence _ (inv_schedules _ Hi)). rewrite Forall_forall in Hstor.
      specialize (Hstor ltac:(lia) (ready_room _ _ _ _ Hr) i Hin). unfold key_storable, delivery_key.
      destruct i as [i|i]; simpl in Hstor |- *; [lia|]. destruct (mail_key i); simpl in *; [done|lia]. }
    pose proof (mark_delivered_cases (delivery_key i) (Receipt_Accepted rid) w' ltac:(by rewrite Hc) Hst) as Hm.
    rewrite Hmark in Hm. destruct Hm as (row0 & Hl0 & _ & Hd2). rewrite Hd2 in Hkr. simpl in Hkr.
    rewrite <- Hpk, lookup_insert_eq in Hkr. injection Hkr as <-. by destruct Hu.
Qed.
End Props.

(** ** The theorems on a concrete history *)

Definition nightly : NewCronSchedule :=
  {| new_team := "alpha"; new_phase := "bk"; new_name := "nightly"; new_cron_expr := "0 0 3 * * *";
     new_module_path := "/hooks/nightly.py"; new_cwd := "/work"; new_args := ["--all"];
     new_timeout_ms := 30000; new_jitter_s := 5; new_custom := []; new_stop := StopCondition_Hook;
     new_created_by := "alice"; new_created_at := 10 |}.

Definition timeout_failure : CronFailure := mkCronFailure FailureKind_Timeout None "timed out".
Definition refused_failure : CronFailure := mkCronFailure FailureKind_Refused None "refused".

Definition run_of (at_ : IsoTimestamp) (t : CronRunTransition) (outputs : list CronModuleOutput) : CronTransitionWrite :=
  mkCronTransitionWrite 1 1 at_ t outputs.

Definition cron_world0 : World := mkWorld (empty_db ∅ empty_cron) 0.
Definition started : World := cron_after (Cron_Start nightly) cron_world0.
Definition failed_run : CronTransitionWrite := run_of 20 (Transition_Failure timeout_failure) [CronModuleOutput_Message "log"].
Definition ok_run : CronTransitionWrite := run_of 20 (Transition_Success CronSuccess_Ok) [].
Definition failed : World := cron_after (Cron_Commit failed_run) started.
Definition succeeded : World := cron_after (Cron_Commit ok_run) started.
Definition ended : World := cron_after (Cron_End "alpha" "bk" None 40) failed.

Lemma nightly_ok : new_schedule_ok nightly.
Proof. by constructor. Qed.

Lemma started_reachable : cron_reachable started.
Proof. apply cron_reachable_step; [by constructor|exact nightly_ok]. Qed.

Lemma failed_reachable : cron_reachable failed.
Proof. apply cron_reachable_step; [exact started_reachable|reflexivity]. Qed.

Lemma ended_reachable : cron_reachable ended.
Proof. apply cron_reachable_step; [exact failed_reachable|by vm_compute]. Qed.

Lemma cron_store_invariant_witness :
  cron_inv (cron (db ended)) /\ last_seq (db ended) 1 1 = 1 /\ size (cron_delivery_intent (cron (db ended))) = 2%nat.
Proof.
  split; [exact (proj1 (cron_store_invariant ended ended_reachable))|]. split; vm_compute; reflexivity.
Defined.

Lemma cron_start_correct_witness :
  exists w', cron_start nightly ended = (Ok (started_schedule 1 2 nightly), w') /\ cron_live (cron (db w')) 1 2.
Proof.
  pose proof (cron_start_correct nightly ended (inv_schedules _ (proj1 (cron_reachable_good ended ended_reachable))) nightly_ok) as H.
  assert (Hs : fst (cron_start nightly ended) = Ok (started_schedule 1 2 nightly)) by (vm_compute; reflexivity).
  destruct (cron_start nightly ended) as [o w']. cbn [fst] in Hs. subst o.
  destruct H as (id & g & Heq & _ & Hlive & _). injection Heq as <- <-. exists w'. split; [reflexivity|exact Hlive].
Defined.

Lemma cron_end_correct_witness :
  exists l w', cron_end "alpha" "bk" None 40 failed = (Ok l, w') /\ length l = 1%nat
    /\ forall id r, cron_schedule (cron (db w')) !! id = Some r -> ~ ends "alpha" "bk" None id r.
Proof.
  pose proof (cron_end_correct "alpha" "bk" None 40 failed
    (inv_schedules _ (proj1 (cron_reachable_good failed failed_reachable))) ltac:(by vm_compute)) as H.
  assert (Hs : match fst (cron_end "alpha" "bk" None 40 failed) with Ok l => length l | _ => O end = 1%nat)
    by (vm_compute; reflexivity).
  destruct (cron_end "alpha" "bk" None 40 failed) as [[l|e|] w']; cbn [fst] in Hs; [|discriminate Hs..].
  exists l, w'. split; [reflexivity|]. split; [exact Hs|]. apply H.
Defined.

Definition ended_nightly : CronSqlRow := default (inserted_row nightly) (cron_schedule (cron (db ended)) !! 1).

Lemma restart_fences_old_runs_witness :
  exists sched w', cron_start nightly ended = (Ok sched, w') /\ sched_generation sched = 2
    /\ exists e, execute (UpsertMessage (assign "bob" 9 "T9") (Origin_CronRun 1 1)) w' = (Err e, w').
Proof.
  assert (Hs : succeeds (cron_start nightly ended) = true) by (vm_compute; reflexivity).
  destruct (cron_start nightly ended) as [[sched|e|] w'] eqn:Hrun; [|discriminate Hs..].
  destruct (restart_fences_old_runs nightly 1 ended_nightly ended sched w'
    (inv_schedules _ (proj1 (cron_reachable_good ended ended_reachable))) nightly_ok
    ltac:(vm_compute; reflexivity) ltac:(vm_compute; reflexivity) ltac:(vm_compute; reflexivity) Hrun)
    as (_ & Hg & _ & _ & Hop).
  assert (Hgen : c_generation ended_nightly = 1) by (vm_compute; reflexivity). rewrite Hgen in Hg, Hop.
  exists sched, w'. split; [reflexivity|]. split; [exact Hg|].
  apply (Hop (UpsertMessage (assign "bob" 9 "T9") (Origin_CronRun 1 1))). reflexivity.
Defined.

Lemma cron_commit_correct_witness :
  exists intents w', commit failed_run started = (Ok (Commit_Applied intents), w') /\ length intents = 2%nat
    /\ cron_inv (cron (db w')).
Proof.
  pose proof (cron_commit_correct failed_run started (proj1 (cron_reachable_good started started_reachable))
    ltac:(discriminate)) as H.
  assert (Hs : match fst (commit failed_run started) with Ok (Commit_Applied l) => length l | _ => O end = 2%nat)
    by (vm_compute; reflexivity).
  destruct (commit failed_run started) as [[[intents|]|e|] w']; cbn [fst] in Hs; [|discriminate Hs..].
  exists intents, w'. split; [reflexivity|]. split; [exact Hs|]. destruct H as (r & names & _ & _ & _ & _ & _ & _ & _ & _ & Hi).
  exact Hi.
Defined.

Lemma failure_after_success_lost_witness :
  exists e w2, commit (run_of 30 (Transition_Failure timeout_failure) []) succeeded = (Err e, w2) /\ db w2 = db succeeded.
Proof.
  assert (Hs : match fst (commit ok_run started) with Ok (Commit_Applied l) => length l | _ => 1%nat end = 0%nat)
    by (vm_compute; reflexivity).
  unfold succeeded, cron_after.
  destruct (commit ok_run started) as [[[intents|]|e|] w'] eqn:Hrun; cbn [fst] in Hs; [|discriminate Hs..].
  apply (failure_after_success_lost ok_run (run_of 30 (Transition_Failure timeout_failure) []) timeout_failure intents
    started w' (proj1 (cron_reachable_good started started_reachable))); [left; eexists; reflexivity|reflexivity..|exact Hrun].
Defined.

Lemma failure_notified_once_witness :
  exists i2 w2, commit (run_of 30 (Transition_Failure refused_failure) []) failed = (Ok (Commit_Applied i2), w2)
    /\ exists notice, filter is_lifecycle i2 = [DeliveryIntent_Lifecycle notice]
         /\ intent_event notice = LifecycleEvent_Error refused_failure.
Proof.
  assert (Hs : match fst (commit failed_run started) with Ok (Commit_Applied l) => length l | _ => O end = 2%nat)
    by (vm_compute; reflexivity).
  assert (Hs2 : match fst (commit (run_of 30 (Transition_Failure refused_failure) []) failed)
                with Ok (Commit_Applied l) => length l | _ => O end = 1%nat) by (vm_compute; reflexivity).
  unfold failed, cron_after in *.
  destruct (commit failed_run started) as [[[i1|]|e|] w'] eqn:Hrun; cbn [fst snd] in Hs, Hs2 |- *; [|discriminate Hs..].
  destruct (commit (run_of 30 (Transition_Failure refused_failure) []) w') as [[[i2|]|e|] w2] eqn:Hrun2;
    cbn [fst] in Hs2; [|discriminate Hs2..].
  exists i2, w2. split; [reflexivity|].
  pose proof (failure_notified_once failed_run (run_of 30 (Transition_Failure refused_failure) []) timeout_failure
    refused_failure i1 i2 started w' w2 (proj1 (cron_reachable_good started started_reachable))
    eq_refl eq_refl eq_refl eq_refl Hrun Hrun2) as H.
  rewrite decide_False in H by discriminate. destruct H as (notice & r & Hf & He & _). exists notice. by split.
Defined.

Definition first_notice : CronDeliveryKey := DeliveryKey_Lifecycle (mkCronNoticeKey 1 1 1).

Lemma delivery_settled_once_witness :
  exists w', mark_delivered first_notice (Receipt_Accepted "r1") failed = (Ok true, w')
    /\ match mark_delivered first_notice Receipt_Suppressed w' with
       | (Ok settled, w3) => settled = false /\ db w3 = db w'
       | (Err _, w3) => db w3 = db w'
       | (Panic, _) => False
       end.
Proof.
  pose proof (delivery_settled_once first_notice (Receipt_Accepted "r1") failed
    (proj1 (cron_reachable_good failed failed_reachable)) ltac:(split; vm_compute; discriminate)) as H.
  assert (Hs : match fst (mark_delivered first_notice (Receipt_Accepted "r1") failed) with Ok b => b | _ => false end = true)
    by (vm_compute; reflexivity).
  destruct (mark_delivered first_notice (Receipt_Accepted "r1") failed) as [[b|e|] w']; cbn [fst] in Hs; [|discriminate Hs..].
  subst b. destruct H as [_ Hagain]. exists w'. split; [reflexivity|]. exact (Hagain Receipt_Suppressed w' eq_refl).
Defined.

Lemma committed_deliveries_listed_witness :
  exists intents w' l, commit failed_run started = (Ok (Commit_Applied intents), w') /\ length intents = 2%nat
    /\ pending 10 w' = (Ok l, w') /\ forall i, i ∈ intents -> Pending_ReadyToSend i ∈ l.
Proof.
  assert (Hs : match fst (commit failed_run started) with Ok (Commit_Applied l) => length l | _ => O end = 2%nat)
    by (vm_compute; reflexivity).
  assert (Hn : size (cron_delivery_intent (cron (db (snd (commit failed_run started))))) = 2%nat) by (vm_compute; reflexivity).
  destruct (commit failed_run started) as [[[intents|]|e|] w'] eqn:Hrun; cbn [fst snd] in Hs, Hn; [|discriminate Hs..].
  destruct (committed_deliveries_listed failed_run intents 10 started w'
    (proj1 (cron_reachable_good started started_reachable)) (proj2 (cron_reachable_good started started_reachable))
    ltac:(reflexivity) ltac:(discriminate) Hrun ltac:(rewrite Hn; vm_compute; split; discriminate)) as (l & Hl & Hin & _).
  exists intents, w', l. split; [reflexivity|]. split; [exact Hs|]. split; [exact Hl|exact Hin].
Defined.
