(* ===== verification/CronRunDemo.v ===== *)
(** * Concrete ports for the cron runtime

    A clock that moves on with every reading for a while, modules with a fixed answer, and
    deliveries that are accepted; other tasks do nothing. *)

From S2P Require Import Prelude ErrorCodes Types Address TaskState CronTypes Database Transaction.
From S2P Require Import CronStore CronTransition CronTiming CronTimingProps CronEngine CronWorker CronWorkerSpec.
From S2P Require Import Demo CronDemo.
From stdpp Require Import base gmap strings numbers list.
Local Open Scope Z_scope.
Local Open Scope string_scope.
Local Open Scope list_scope.

(** The answer of a module; the world is left alone. *)
Definition answers {A} (o : Outcome AtmError A) : M A := fun w => (o, tick w).

Definition demo_ports (tick_reply : Outcome AtmError CronTickReply) (stop_reply : Outcome AtmError CronStopReply)
    : CronPorts :=
  {| clock_at n := Z.min (Z.of_nat n) 1000000 * second;
     monotonic_at n := Z.of_nat n * second;
     cron_host := None;
     typed_execution := true;
     join_error _ := "task panicked";
     others s := s;
     run_cron _ _ _ := answers tick_reply;
     stop_cron _ _ _ := answers stop_reply;
     lifecycle_deliver _ := answers (Ok (Receipt_Accepted "nudge"));
     module_mail_deliver _ _ := answers (Ok (Receipt_Accepted "mail"));
     dispatch_cron_actions _ _ _ := answers (Ok tt);
     hook_run _ _ _ := answers (Ok HookReply_PassThrough);
     hook_stop _ _ _ := answers (Ok (mkStopReply false None)) |}.

#[export] Instance demo_ports_return tick_reply stop_reply : PortsReturn (demo_ports tick_reply stop_reply).
Proof. by constructor. Qed.

(** The schedule of the demonstration history, as it reads after its start. *)
Definition nightly_schedule (stop : StopCondition) : CronSchedule :=
  {| sched_id := 1; sched_generation := 1; sched_team := "alpha"; sched_phase := "bk"; sched_name := "nightly";
     sched_cron_expr := "0 0 3 * * *"; sched_module_path := "/hooks/nightly.py"; sched_cwd := "/work";
     sched_args := ["--all"]; sched_timeout_ms := 30000; sched_jitter_s := 5; sched_custom := [];
     sched_stop := stop; sched_active := true; sched_created_by := "alice"; sched_created_at := 10;
     sched_last_run_at := None; sched_last_outcome := None; sched_ended_at := None |}.

Definition cron_state (w : World) : CronState := mkCronState w [] false 0.
