(* ===== verification/CronWorkerProps.v ===== *)
(** * What the cron worker promises

    At most one run per schedule, no occurrence slept over, nothing due left
    behind, and a reload that keeps what has not changed; evaluated on a worker
    with one schedule. *)

From S2P Require Import Prelude ErrorCodes Types Address TaskState CronTypes Database Transaction.
From S2P Require Import CronStore CronTransition CronTiming CronTimingProps CronEngine CronWorker CronPlanSpec.
From S2P Require Import CronWorkerSpec CronApplySpec Demo CronDemo CronProps CronRunDemo.
From stdpp Require Import base gmap strings numbers list sorting.
Local Open Scope Z_scope.
Local Open Scope string_scope.
Local Open Scope list_scope.

Section Props.
Context {rt : Runtime} {crt : CronRuntime} {ports : CronPorts} {ce : CronExpr}.

(** Rows that a query of the store returned. *)
Definition stored_rows (rows : list CronSchedule) : Prop := exists w w', active_all w = (Ok rows, w').

(** A finished run belongs to a slot that holds one. *)
Definition event_enabled (k : Worker) (event : WorkerEvent) : Prop :=
  match event with
  | Event_Finished index _ => exists slot, worker_slots k !! index = Some slot /\ is_Some (slot_in_flight slot)
  | _ => True
  end.

(** The states of the loop, with anything other tasks do to the scheduler and the
    database between rounds. *)
Inductive worker_reachable : Worker -> Prop :=
| reachable_start rows s k :
    stored_rows rows -> worker_start rows s = (Ok tt, k) -> worker_reachable k
| reachable_others k s : worker_reachable k -> worker_reachable (set_cron_state s k)
| reachable_round k event go k' :
    worker_reachable k -> event_enabled k event -> worker_round event k = (Ok go, k') -> worker_reachable k'.

Context {ceok : CronExprOk ce} {pok : PortsReturn ports}.

Lemma worker_start_ok rows s k : stored_rows rows -> worker_start rows s = (Ok tt, k) -> worker_ok k.
Proof.
  intros (w & w' & Ha) Hrun. destruct (active_all_rows w rows w' Ha) as (Hnd & Hj & _).
  set (k0 := mkWorker [] no_retry [] 0 s) in *. assert (Hk0 : worker_ok k0) by (constructor; simpl; by constructor).
  destruct (merge_run rows k0 Hj) as (slots & gone & s' & Hm & Hmerged).
  unfold worker_start in Hrun. fold k0 in Hrun. rewrite Hm in Hrun. injection Hrun as <-.
  by eapply merged_worker_ok.
Qed.

Lemma set_retry_ok retry k : worker_ok k -> worker_ok (set_retry retry k).
Proof. intros [????]. by constructor. Qed.

Lemma reload_ok k : worker_ok k ->
  match reload_slots k with
  | (Ok _, k') => worker_ok k'
  | (Err _, _) => False
  | (Panic, _) => exists now, retry_failed (worker_retry k) now = Panic
  end.
Proof.
  intros Hok. destruct (reload_cases k Hok) as [(rows & slots & gone & s & -> & _ & _ & H)|[(retry & now & s & -> & _)|(now & k' & -> & Hp)]];
    [done| |by exists now]. by apply set_retry_ok, worker_ok_cron.
Qed.

(** A round of the loop keeps the worker well formed. *)
Lemma round_ok k event : worker_ok k -> event_enabled k event ->
  match worker_round event k with
  | (Ok _, k') => worker_ok k'
  | (Err _, _) => False
  | (Panic, _) => exists now, retry_failed (worker_retry k) now = Panic
  end.
Proof.
  intros Hok Hen. destruct event as [| | |index result|]; [|done| | |done].
  - unfold worker_round, mbind, W_bind, st_mbind, st_bind. pose proof (reload_ok k Hok) as H.
    by destruct (reload_slots k) as [[[]|e|] k'].
  - unfold worker_round, worker_now, on_cron. erewrite w_run_bind by reflexivity. cbn beta.
    set (k1 := set_cron_state _ k). assert (Hok1 : worker_ok k1) by (by apply worker_ok_cron).
    erewrite w_run_bind by reflexivity. cbn beta.
    match goal with |- context [retry_is_due _ ?now] => set (due := retry_is_due (worker_retry k1) now) end.
    assert (H : match (if due then reload_slots else mret tt) k1 with
                | (Ok _, k') => worker_ok k' | (Err _, _) => False
                | (Panic, _) => exists now, retry_failed (worker_retry k) now = Panic end).
    { destruct due; [exact (reload_ok k1 Hok1)|exact Hok1]. }
    unfold mbind, W_bind, st_mbind, st_bind.
    destruct ((if due then reload_slots else mret tt) k1) as [[[]|e|] k2]; [|done|done].
    destruct (apply_step_ok k2 H) as (k3 & -> & Hok3 & _). exact Hok3.
  - destruct Hen as (slot & Hl & _). destruct (finish_run_ok index slot result k Hok Hl) as (k' & Hrun & Hok' & _).
    unfold worker_round. erewrite w_run_bind by exact Hrun. exact Hok'.
Qed.

Lemma worker_reachable_ok k : worker_reachable k -> worker_ok k.
Proof.
  induction 1 as [rows s k Hrows Hrun|k s _ IH|k event go k' _ IH Hen Hrun].
  - by eapply worker_start_ok.
  - by apply worker_ok_cron.
  - pose proof (round_ok k event IH Hen) as H. by rewrite Hrun in H.
Qed.

(** C23: in every state of the worker loop, whatever other tasks do to the store, each
    schedule has at most one slot and one run: the running tasks are exactly the
    runs of the slots, and a slot without a run has a next occurrence; every
    round returns, except a reload whose backoff panics. *)
Theorem worker_one_run_per_schedule k :
  worker_reachable k ->
  NoDup (slot_id <$> worker_slots k)
  /\ NoDup (worker_running k) /\ worker_running k ≡ₚ omap slot_in_flight (worker_slots k)
  /\ (forall slot, slot ∈ worker_slots k -> slot_in_flight slot = None -> is_Some (slot_next slot))
  /\ forall event, event_enabled k event ->
       match worker_round event k with
       | (Ok _, k') => worker_reachable k'
       | (Err _, _) => False
       | (Panic, _) => exists now, retry_failed (worker_retry k) now = Panic
       end.
Proof.
  intros Hr. pose proof (worker_reachable_ok k Hr) as Hok.
  split_and!; [apply Hok|apply Hok|apply Hok| |].
  - intros slot Hin. pose proof (ok_slots _ Hok) as Hs. rewrite Forall_forall in Hs. by apply Hs.
  - intros event Hen. pose proof (round_ok k event Hok Hen) as H.
    destruct (worker_round event k) as [[go|e|] k'] eqn:Hrun; [|done|done]. by eapply reachable_round.
Qed.

(** The worker sleeps exactly as long as there is nothing to do: when a plan finds
    no slot to stop, run or skip, then at every time before its wake time there
    is none either, and at the wake time there is. *)
Theorem plan_wakes_exactly slots now step :
  Forall (fun slot => jitter_ok (slot_schedule slot)) slots ->
  step_for slots now = Ok step -> has_work step = false ->
  (forall t, before t (step_wake step) -> exists step', step_for slots t = Ok step' /\ has_work step' = false)
  /\ (forall t, step_wake step = Some t -> exists step', step_for slots t = Ok step' /\ has_work step' = true).
Proof.
  intros Hj. rewrite step_for_run by done. intros [= <-] Hidle%no_work. rewrite Forall_forall in Hidle.
  assert (Hw : forall t, before t (step_wake (planned_step now slots)) <-> Forall (slot_idle t) slots).
  { intros t. unfold planned_step. cbn [step_wake]. rewrite before_all, Forall_fmap, !Forall_forall.
    split; intros H slot Hin; specialize (H slot Hin).
    - apply idle_iff_before. rewrite <- (idle_attention now) by (by apply Hidle). exact H.
    - unfold compose. rewrite (idle_attention now) by (by apply Hidle). by apply idle_iff_before. }
  split; intros t Ht; (eexists; split; [by apply step_for_run|]).
  - by apply no_work, Hw.
  - destruct (has_work (planned_step t slots)) eqn:Hh; [reflexivity|]. apply no_work, Hw in Hh. rewrite Ht in Hh. simpl in Hh. lia.
Qed.

(** C24: a wake-up settles everything that is due at its time: schedules past their stop
    time leave, a due idle schedule is started once under a new run, a due busy
    one is skipped to its next occurrence, one without a next occurrence leaves,
    the others stay as they are; nothing that is left is due. *)
Theorem wake_settles_due_work k :
  worker_reachable k ->
  let now := clock_at (ticks (world (worker_cron k))) in
  exists k' step, apply_step k = (Ok tt, k')
    /\ step_for (worker_slots k') now = Ok step /\ has_work step = false
    /\ Forall (step_result now (worker_spawned k) (worker_slots k')) (worker_slots k)
    /\ worker_running k' ≡ₚ omap slot_in_flight (worker_slots k').
Proof.
  intros Hr now. pose proof (worker_reachable_ok k Hr) as Hok.
  destruct (apply_step_ok k Hok) as (k' & Hrun & Hok' & _ & Hidle & Hres).
  exists k', (planned_step now (worker_slots k')). split_and!; [done| |by apply no_work|done|apply Hok'].
  apply step_for_run, jitter_slots, Hok'.
Qed.

(** A reload that reads its rows keeps every slot whose schedule has not changed,
    with its next occurrence and its run; every slot stands for a stored active
    row, each new one waits for a future occurrence; the runs of all other
    schedules are aborted, and the backoff is cleared.  Otherwise it changes no
    slot. *)
Theorem reload_keeps_unchanged_slots k :
  worker_reachable k ->
  match reload_slots k with
  | (Ok _, k') =>
    (exists rows, stored_rows rows /\ worker_retry k' = no_retry
       /\ (forall slot row, slot ∈ worker_slots k -> row ∈ rows -> unchanged (slot_schedule slot) row -> slot ∈ worker_slots k')
       /\ (forall slot, slot ∈ worker_slots k' -> exists row, row ∈ rows /\ sched_active row = true
             /\ unchanged (slot_schedule slot) row
             /\ (slot ∈ worker_slots k \/ slot_schedule slot = row /\ slot_in_flight slot = None /\ is_Some (slot_next slot)))
       /\ worker_running k' ≡ₚ omap slot_in_flight (worker_slots k'))
    \/ worker_slots k' = worker_slots k /\ worker_running k' = worker_running k
  | (Err _, _) => False
  | (Panic, _) => exists now, retry_failed (worker_retry k) now = Panic
  end.
Proof.
  intros Hr. pose proof (worker_reachable_ok k Hr) as Hok.
  destruct (reload_cases k Hok) as [(rows & slots & gone & s & -> & Hrows & Hm & Hok')|[(retry & now & s & -> & _)|(now & k' & -> & Hp)]];
    [left|by right|by exists now].
  destruct Hrows as (w & w' & Ha). destruct (active_all_rows w rows w' Ha) as (Hnd & _ & Hact). rewrite Forall_forall in Hact.
  exists rows. split_and!; [by exists w, w'|done| | |apply Hok'].
  - intros slot row Hin Hrow Hu. by eapply merged_kept; [exact Hm|exact Hnd|apply Hok|..].
  - intros slot Hin. destruct (merged_in _ _ _ _ _ Hm Hin) as (row & Hrow & Hu & Hc). exists row.
    split_and!; [done|by apply Hact|done|]. destruct Hc as [Hc|[-> Hn]]; [by left|right]. done.
Qed.
End Props.

(** ** On a concrete worker *)

Definition quiet_reply : Outcome AtmError CronTickReply := Ok (TickReply_PassThrough []).
Definition go_on : Outcome AtmError CronStopReply := Ok (mkCronStopReply false None []).

#[local] Instance worker_ports : CronPorts := demo_ports quiet_reply go_on.

Definition demo_rows : list CronSchedule :=
  match (active_all started).1 with Ok rows => rows | _ => [] end.

Definition worker0 : Worker := (worker_start demo_rows (cron_state started)).2.

(** Two minutes later, its first occurrence is due. *)
Definition worker_later : Worker := set_cron_state (cron_state (mkWorld (db started) 120)) worker0.

Lemma demo_rows_stored : stored_rows demo_rows.
Proof.
  exists started, started. assert (H : match active_all started with (Ok l, _) => length l | _ => O end = 1%nat) by (vm_compute; reflexivity).
  unfold demo_rows. destruct (active_all started) as [[l|e|] w] eqn:Ha; [|discriminate H..].
  unfold active_all in Ha. rewrite (run_bind _ _ _ _ _ (run_get_db started)) in Ha.
  unfold lift, st_lift in Ha. by injection Ha as <- <-.
Qed.

Lemma worker_later_reachable : worker_reachable worker_later.
Proof.
  apply reachable_others, (reachable_start demo_rows (cron_state started)); [exact demo_rows_stored|]. unfold worker0.
  assert (H : (worker_start demo_rows (cron_state started)).1 = Ok tt) by (vm_compute; reflexivity).
  destruct (worker_start demo_rows (cron_state started)) as [o k]. cbn [fst snd] in *. by subst o.
Qed.

Lemma worker_one_run_per_schedule_witness :
  NoDup (worker_running worker_later)
  /\ match worker_round Event_Wake worker_later with
     | (Ok _, k') => worker_reachable k'
     | (Err _, _) => False
     | (Panic, _) => exists now, retry_failed (worker_retry worker_later) now = Panic
     end.
Proof.
  destruct (worker_one_run_per_schedule worker_later worker_later_reachable) as (_ & Hnd & _ & _ & Hround).
  split; [exact Hnd|]. exact (Hround Event_Wake I).
Defined.

Definition nightly_slot : Slot := mkSlot (nightly_schedule StopCondition_Hook) (Some (65 * second)) None.

Lemma plan_wakes_exactly_witness :
  exists step', step_for [nightly_slot] (65 * second) = Ok step' /\ has_work step' = true.
Proof.
  assert (Hs : step_for [nightly_slot] 0 = Ok (mkStep [] [] [] [] (Some (65 * second)))) by (vm_compute; reflexivity).
  apply (plan_wakes_exactly [nightly_slot] 0 (mkStep [] [] [] [] (Some (65 * second)))); [|exact Hs|reflexivity|reflexivity].
  apply Forall_cons_2; [split; vm_compute; discriminate|apply Forall_nil_2].
Defined.

Lemma wake_settles_due_work_witness :
  exists k' step, apply_step worker_later = (Ok tt, k')
    /\ step_for (worker_slots k') (clock_at (ticks (world (worker_cron worker_later)))) = Ok step
    /\ has_work step = false /\ worker_running (apply_step worker_later).2 = [0%nat].
Proof.
  destruct (wake_settles_due_work worker_later worker_later_reachable) as (k' & step & Hrun & Hstep & Hw & _).
  exists k', step. split; [exact Hrun|]. split; [exact Hstep|]. split; [exact Hw|]. vm_compute. reflexivity.
Defined.

Lemma reload_keeps_unchanged_slots_witness :
  worker_slots (reload_slots worker_later).2 = worker_slots worker_later
  /\ match reload_slots worker_later with (Err _, _) => False | _ => True end.
Proof.
  pose proof (reload_keeps_unchanged_slots worker_later worker_later_reachable) as H.
  split; [vm_compute; reflexivity|].
  destruct (reload_slots worker_later) as [[u|e|] k']; [exact I|exact H|exact I].
Defined.
