(* ===== verification/CronEngineSpec.v ===== *)
(** * What a cron run does to the store

    [keeps R c Q]: the computation [c] of the scheduler takes well-formed cron
    tables to well-formed tables related by [R], never panics, and its result
    satisfies [Q].  The ports and the other tasks are given the same contract
    ([PortsKeep R]); under it, so is a run. *)

From S2P Require Import Prelude ErrorCodes Types Address TaskState CronTypes Database Transaction.
From S2P Require Import CronStore CronTransition CronDelivery CronTiming CronEngine CronProps.
From stdpp Require Import base gmap strings numbers list sorting.
Local Open Scope Z_scope.
Local Open Scope string_scope.
Local Open Scope list_scope.

Definition tables (s : CronState) : CronTables := cron (db (world s)).

(** The outcome of a computation, with no panic. *)
Definition result_ok {A} (Q : A -> Prop) (o : Outcome AtmError A) : Prop :=
  match o with Ok a => Q a | Err _ => True | Panic => False end.

(** Replies of the types the ports return. *)
Definition diagnostic_ok (d : CronDiagnosticDetail) : Prop := cron_diagnostic_parse d = Ok d.

Definition tick_reply_ok (reply : CronTickReply) : Prop :=
  match reply with TickReply_Refused m => diagnostic_ok m | _ => True end.

Definition stop_reply_ok (reply : CronStopReply) : Prop :=
  cron_stop_reply_new (stop_stop reply) (stop_reason reply) (stop_output reply) = Ok reply
  /\ forall reason, stop_reason reply = Some reason -> diagnostic_ok reason.

Section Keeps.
Context {rt : Runtime} {crt : CronRuntime}.

Definition m_keeps {A} (R : relation CronTables) (c : M A) (Q : A -> Prop) : Prop :=
  forall w, cron_good (cron (db w)) ->
    cron_good (cron (db (c w).2)) /\ R (cron (db w)) (cron (db (c w).2)) /\ result_ok Q (c w).1.

Definition keeps {A} (R : relation CronTables) (c : C A) (Q : A -> Prop) : Prop :=
  forall s, cron_good (tables s) ->
    cron_good (tables (c s).2) /\ R (tables s) (tables (c s).2) /\ result_ok Q (c s).1.

(** The same, for a computation that always has a result. *)
Definition keeps_all {A} (R : relation CronTables) (c : C A) (Q : A -> Prop) : Prop :=
  forall s, cron_good (tables s) ->
    cron_good (tables (c s).2) /\ R (tables s) (tables (c s).2) /\ exists a, (c s).1 = Ok a /\ Q a.

(** What the ports and the other tasks may do to the cron tables. *)
Class PortsKeep (R : relation CronTables) (ports : CronPorts) : Prop := {
  keep_pre :: PreOrder R;
  keep_others : forall s, cron_good (tables s) -> cron_good (tables (others s)) /\ R (tables s) (tables (others s));
  keep_run : forall t r d, m_keeps R (run_cron t r d) tick_reply_ok;
  keep_stop : forall t r d, m_keeps R (stop_cron t r d) stop_reply_ok;
  keep_lifecycle : forall i, m_keeps R (lifecycle_deliver i) receipt_ok;
  keep_mail : forall i p, m_keeps R (module_mail_deliver i p) receipt_ok;
  keep_dispatch : forall spec p actions, m_keeps R (dispatch_cron_actions spec p actions) (fun _ => True)
}.

Context {ports : CronPorts} {R : relation CronTables} {pk : PortsKeep R ports}.

Lemma keeps_mono {A} (c : C A) (Q Q' : A -> Prop) : keeps R c Q -> (forall a, Q a -> Q' a) -> keeps R c Q'.
Proof.
  intros Hc HQ s Hs. destruct (Hc s Hs) as (Hg & HR & Ho). split_and!; [done..|].
  destruct (c s).1; [by apply HQ|done|done].
Qed.

Lemma keeps_ret {A} (a : A) (Q : A -> Prop) : Q a -> keeps R (mret a : C A) Q.
Proof. intros Ha s Hs. by split_and!. Qed.

Lemma keeps_lift {A} (o : Outcome AtmError A) (Q : A -> Prop) : result_ok Q o -> keeps R (c_lift o) Q.
Proof. intros Ho s Hs. by split_and!. Qed.

Lemma keeps_bind {A B} (c : C A) (f : A -> C B) (P : A -> Prop) (Q : B -> Prop) :
  keeps R c P -> (forall a, P a -> keeps R (f a) Q) -> keeps R (c ≫= f) Q.
Proof.
  intros Hc Hf s Hs. destruct (Hc s Hs) as (Hg & HR & Ho). unfold mbind, C_bind, st_mbind, st_bind.
  destruct (c s) as [[a|e|] s1]; simpl in *; [|done|done].
  destruct (Hf a Ho s1 Hg) as (Hg' & HR' & Ho'). split_and!; [done|by etrans|done].
Qed.

Lemma all_keeps {A} (c : C A) (Q : A -> Prop) : keeps_all R c Q -> keeps R c Q.
Proof.
  intros Hc s Hs. destruct (Hc s Hs) as (Hg & HR & a & Ho & Ha). split_and!; [done..|]. by rewrite Ho.
Qed.

Lemma all_ret {A} (a : A) (Q : A -> Prop) : Q a -> keeps_all R (mret a : C A) Q.
Proof. intros Ha s Hs. split_and!; [done..|]. by exists a. Qed.

Lemma all_lift {A} (o : Outcome AtmError A) a (Q : A -> Prop) : o = Ok a -> Q a -> keeps_all R (c_lift o) Q.
Proof. intros -> Ha s Hs. split_and!; [done..|]. by exists a. Qed.

Lemma all_bind {A B} (c : C A) (f : A -> C B) (P : A -> Prop) (Q : B -> Prop) :
  keeps_all R c P -> (forall a, P a -> keeps_all R (f a) Q) -> keeps_all R (c ≫= f) Q.
Proof.
  intros Hc Hf s Hs. destruct (Hc s Hs) as (Hg & HR & a & Ho & Ha). unfold mbind, C_bind, st_mbind, st_bind.
  destruct (c s) as [o s1]; simpl in *. subst o.
  destruct (Hf a Ha s1 Hg) as (Hg' & HR' & Ho'). split_and!; [done|by etrans|done].
Qed.

Lemma all_attempt {A} (c : C A) (Q : A -> Prop) : keeps R c Q -> keeps_all R (attempt c) (result_ok Q).
Proof.
  intros Hc s Hs. destruct (Hc s Hs) as (Hg & HR & Ho). unfold attempt.
  destruct (c s) as [[a|e|] s1]; [split_and!; [done..|]; by eexists|split_and!; [done..|]; by eexists|done].
Qed.

Lemma keeps_attempt {A} (c : C A) (Q : A -> Prop) : keeps R c Q -> keeps R (attempt c) (result_ok Q).
Proof. intros Hc. by apply all_keeps, all_attempt. Qed.

Lemma keeps_iter {A} (f : A -> C unit) l : (forall a, keeps R (f a) (fun _ => True)) -> keeps R (st_iter f l) (fun _ => True).
Proof.
  intros Hf. induction l as [|a l IH]; [by apply keeps_ret|].
  cbn [st_iter]. eapply (keeps_bind (f a) (fun _ => st_iter f l)); [apply Hf|done].
Qed.

Lemma all_clock : keeps_all R clock_now (fun _ => True).
Proof. intros s Hs. split_and!; [done..|]. by eexists. Qed.

Lemma all_deadline schedule : keeps_all R (cron_deadline schedule) (fun _ => True).
Proof. intros s Hs. split_and!; [done..|]. by eexists. Qed.

Lemma keeps_store {A} context (c : M A) (Q : A -> Prop) : m_keeps R c Q -> keeps R (store_task context c) Q.
Proof.
  intros Hc s Hs. destruct (keep_others s Hs) as [Hg HR]. unfold store_task.
  destruct (Hc (world (others s)) Hg) as (Hg' & HR' & Ho).
  destruct (c (world (others s))) as [[a|e|] w]; simpl in *; (split_and!; [done|by etrans|done]).
Qed.

Lemma keeps_port {A} effect (c : M A) (Q : A -> Prop) : m_keeps R c Q -> keeps R (port_call effect c) Q.
Proof.
  intros Hc s Hs. destruct (keep_others s Hs) as [Hg HR]. unfold port_call.
  destruct (Hc (world (others s)) Hg) as (Hg' & HR' & Ho).
  destruct (c (world (others s))) as [o w]; simpl in *. split_and!; [done|by etrans|done].
Qed.
End Keeps.

(** ** A run *)

Section Run.
Context {rt : Runtime} {crt : CronRuntime} {crtok : CronRuntimeOk rt crt} {ports : CronPorts}.
Context {R : relation CronTables} {pk : PortsKeep R ports}.

(** The store operations of the engine respect [R]. *)
Context (Rgrow : forall t, transition_ok t -> forall id g at_ outputs,
  m_keeps R (commit (mkCronTransitionWrite id g at_ t outputs)) (fun _ => True)).
Context (Rmark : forall key receipt, receipt_ok receipt -> m_keeps R (mark_delivered key receipt) (fun _ => True)).

Lemma keeps_pending limit : m_keeps R (pending limit) (fun _ => True).
Proof.
  intros w [Hi Hp]. destruct (pending_run limit w Hi Hp) as (l & -> & _). by split_and!.
Qed.

Lemma keeps_deliver schedule i : keeps R (deliver_and_mark schedule i) (fun _ => True).
Proof.
  unfold deliver_and_mark.
  eapply (keeps_bind _ _ (fun d => forall key receipt, d = Some (key, receipt) -> receipt_ok receipt)).
  - assert (H : forall (key : CronDeliveryKey) (o : Outcome AtmError DeliveryReceipt), result_ok receipt_ok o ->
      forall k r, (fun r => (key, r)) <$> receipt_of o = Some (k, r) -> receipt_ok r).
    { intros key [r|e|] Ho k r'; simpl; [|done|done]. by intros [= _ <-]. }
    unfold deliver_intent. destruct i as [i|i].
    + eapply keeps_bind; [apply keeps_attempt, keeps_port, keep_lifecycle|].
      intros o Ho. apply keeps_ret. exact (H _ o Ho).
    + destruct (mail_key i) as [|id g sq o]; [by apply keeps_ret|]. destruct (bool_decide _); [by apply keeps_ret|].
      eapply keeps_bind; [apply keeps_attempt, keeps_port, keep_mail|].
      intros o' Ho. apply keeps_ret. exact (H _ o' Ho).
  - intros [[key receipt]|] Hd; [|by apply keeps_ret]. unfold mark_intent_delivered.
    eapply keeps_bind; [apply keeps_attempt, keeps_store, Rmark; by eapply Hd|]. intros _ _. by apply keeps_ret.
Qed.

Lemma keeps_engine_commit schedule t outputs :
  transition_ok t -> keeps R (engine_commit schedule t outputs) (fun _ => True).
Proof.
  intros Ht. unfold engine_commit, pending_intents.
  eapply keeps_bind.
  { eapply keeps_bind; [apply keeps_store, keeps_pending|]. intros l _. by apply (keeps_ret _ (fun _ => True)). }
  intros intents _. eapply keeps_bind; [apply all_keeps, all_clock|]. intros at_ _.
  eapply keeps_bind; [by apply keeps_store, Rgrow|]. intros [committed|] _; [|by apply keeps_ret].
  eapply keeps_bind; [apply keeps_iter, keeps_deliver|]. intros _ _. by apply keeps_ret.
Qed.

(** The fixed texts of the engine are diagnostics. *)
Lemma failure_ok kind c text :
  (exists d, diagnostic text = Ok d) -> exists t, failure_transition kind c text = Ok t /\ transition_ok t.
Proof.
  intros [d Hd]. unfold failure_transition. rewrite Hd. eexists. split; [done|]. unfold diagnostic in Hd. simpl.
  destruct (cron_diagnostic_parse text) as [d'|e|] eqn:Hp; [|done..]. injection Hd as ->. by apply diagnostic_reparse in Hp.
Qed.

Lemma all_failure {B} kind c text (f : CronRunTransition -> C B) (Q : B -> Prop) :
  (exists d, diagnostic text = Ok d) -> (forall t, transition_ok t -> keeps_all R (f t) Q) ->
  keeps_all R (c_lift (failure_transition kind c text) ≫= f) Q.
Proof.
  intros (t & Ht & Hok)%(failure_ok kind c) Hf. eapply all_bind; [by eapply (all_lift _ t transition_ok)|done].
Qed.

Definition execution_ok (e : CronRunTransition * list CronModuleOutput) : Prop := transition_ok e.1.

Lemma all_finish schedule e : execution_ok e -> keeps_all R (finish_execution schedule e) (fun _ => True).
Proof.
  intros He. unfold finish_execution. eapply all_bind; [by apply all_attempt, keeps_engine_commit|].
  intros _ _. by apply all_ret.
Qed.

Lemma all_tick schedule target : keeps_all R (engine_tick schedule target) execution_ok.
Proof.
  unfold engine_tick. eapply all_bind; [apply all_deadline|]. intros deadline _.
  eapply all_bind; [apply all_attempt, keeps_port, keep_run|]. intros [reply|e|] Hreply; [| |done].
  - destruct reply as [output|actions output| |m]; [by apply all_ret| |by apply all_ret|].
    + simpl. unfold dispatch_handled_actions. destruct actions as [|a actions]; [by apply all_ret|].
      eapply all_bind; [apply all_attempt, keeps_port, keep_dispatch|]. intros [u|e|] Ho; [| |done].
      * eapply (all_bind _ _ transition_ok); [by eapply all_lift|]. intros t Ht. by apply all_ret.
      * apply all_failure; [by eexists|]. intros t Ht. by apply all_ret.
    + apply all_ret. exact Hreply.
  - simpl. unfold runner_failure. apply all_failure; [by eexists|]. intros t Ht. by apply all_ret.
Qed.

Lemma all_run_one schedule : keeps_all R (engine_run_one schedule) (fun _ => True).
Proof.
  assert (Htick : keeps_all R (engine_tick schedule (hook_target schedule) ≫= finish_execution schedule) (fun _ => True)).
  { eapply all_bind; [apply all_tick|]. apply all_finish. }
  unfold engine_run_one. eapply all_bind; [apply all_clock|]. intros started _. cbv zeta.
  destruct (stop_due _ _).
  { eapply (all_bind _ _ diagnostic_ok); [by eapply (all_lift _ "until reached")|]. intros reason Hr. by apply all_finish. }
  destruct (sched_stop schedule); [exact Htick|].
  eapply all_bind.
  { apply all_attempt. unfold engine_stop. eapply keeps_bind; [apply all_keeps, all_deadline|]. intros d _.
    apply keeps_port, keep_stop. }
  intros [stop|e|] Hstop; [| |done].
  - destruct (stop_stop stop) eqn:Hs.
    + destruct Hstop as [Hnew Hreason]. rewrite Hs in Hnew. unfold cron_stop_reply_new in Hnew.
      destruct (stop_reason stop) as [reason|]; [|done].
      eapply (all_bind _ _ diagnostic_ok); [eapply all_lift; [done|by apply Hreason]|].
      intros r Hr. by apply all_finish.
    + eapply all_bind; [by apply all_attempt, keeps_engine_commit|]. intros applied _.
      destruct applied as [[]| |]; [exact Htick|by apply all_ret..].
  - apply all_failure; [by eexists|]. intros t Ht. by apply all_finish.
Qed.
End Run.
