(* ===== verification/HookReplyProps.v ===== *)
(** * What the readers of module replies accept

    The strict reader is the ordinary one on the texts with no repeated member;
    cron replies round trip, and only replies that the engine can use are read;
    a start request is accepted exactly within its limits. *)

From S2P Require Import Prelude ErrorCodes Types Address TaskState CronTypes Database CronStore.
From S2P Require Import CronTransition CronDelivery CronTiming CronEngine CronScheduler HookReply.
From S2P Require Import Demo CronDemo CronProps CronEngineSpec.
From stdpp Require Import base gmap strings numbers list sorting.
Local Open Scope Z_scope.
Local Open Scope string_scope.
Local Open Scope list_scope.

(** ** Objects *)

Lemma object_get_insert key value members key' :
  object_get key' (object_insert key value members) = if decide (key' = key) then Some value else object_get key' members.
Proof.
  assert (Heqb : forall a b : string, String.eqb a b = bool_decide (a = b)).
  { intros a b. destruct (String.eqb_spec a b); by case_bool_decide. }
  induction members as [|[k v] members IH]; simpl; [by rewrite Heqb; case_bool_decide; case_decide|].
  assert (Hne : String.compare key k <> Eq -> key <> k) by (intros Hc ->; apply Hc; pose proof (String.compare_antisym k k) as Ha; by destruct (String.compare k k)).
  destruct (String.compare key k) eqn:Hc; simpl; rewrite ?IH, ?Heqb.
  - apply String.compare_eq_iff in Hc as ->. repeat case_bool_decide; repeat case_decide; congruence.
  - repeat case_bool_decide; repeat case_decide; congruence.
  - assert (key <> k) by (by apply Hne). repeat case_bool_decide; repeat case_decide; congruence.
Qed.

Lemma contains_insert key value members key' :
  contains_key key' (object_insert key value members) = bool_decide (key' = key) || contains_key key' members.
Proof.
  unfold contains_key. rewrite object_get_insert. destruct (decide (key' = key)) as [->|Hne].
  - rewrite (bool_decide_eq_true_2 (key = key)) by done. by apply bool_decide_eq_true_2.
  - by rewrite (bool_decide_eq_false_2 (key' = key)) by done.
Qed.

(** ** The strict reader *)

(** Induction over the tree of a text. *)
Lemma Raw_tree_ind (P : Raw -> Prop) :
  P Raw_Null -> (forall b, P (Raw_Bool b)) -> (forall n, P (Raw_Number n)) -> (forall s, P (Raw_String s)) ->
  (forall items rest, Forall P items -> P (Raw_Array items rest)) ->
  (forall members rest, Forall (fun member => P member.2) members -> P (Raw_Object members rest)) ->
  (forall e, P (Raw_Error e)) -> forall raw, P raw.
Proof.
  intros H1 H2 H3 H4 Harr Hobj Herr. fix go 1. intros [|b|n|s|items rest|members rest|e];
    [done|apply H2|apply H3|apply H4| | |apply Herr].
  - apply Harr. induction items as [|r items IH]; constructor; [apply go|exact IH].
  - apply Hobj. induction members as [|[k r] members IH]; constructor; [apply go|exact IH].
Qed.

(** No member is repeated anywhere, and the text is read to its end. *)
Inductive raw_unique : Raw -> Prop :=
| unique_null : raw_unique Raw_Null
| unique_bool b : raw_unique (Raw_Bool b)
| unique_number n : raw_unique (Raw_Number n)
| unique_string s : raw_unique (Raw_String s)
| unique_array items : Forall raw_unique items -> raw_unique (Raw_Array items None)
| unique_object members :
    NoDup members.*1 -> Forall (fun member => raw_unique member.2) members -> raw_unique (Raw_Object members None).

#[local] Hint Constructors raw_unique : atm.

Lemma unique_array_inv items rest : raw_unique (Raw_Array items rest) <-> rest = None /\ Forall raw_unique items.
Proof. split; [by inversion 1|]. intros [-> H]. by constructor. Qed.

Lemma unique_object_inv members rest :
  raw_unique (Raw_Object members rest) <->
  rest = None /\ NoDup members.*1 /\ Forall (fun member => raw_unique member.2) members.
Proof. split; [by inversion 1|]. intros (-> & H1 & H2). by constructor. Qed.

Section Strict.
Context (custom : string -> string).

Definition strict_members (rest : option string) :=
  fix visit_map (members : list (string * Raw)) (values : list (string * Value)) : Outcome string Value :=
    match members with
    | [] => raw_end rest (Value_Object values)
    | (key, value) :: members' =>
      if contains_key key values then Err (custom ("duplicate object key `" +:+ key +:+ "`"))
      else value ← strict_value custom value; visit_map members' (object_insert key value values)
    end.

Definition loose_members (rest : option string) :=
  fix visit_map (members : list (string * Raw)) (values : list (string * Value)) : Outcome string Value :=
    match members with
    | [] => raw_end rest (Value_Object values)
    | (key, value) :: members' =>
      value ← loose_value value; visit_map members' (object_insert key value values)
    end.

(** The two readers agree on a member whose value they agree on. *)
Lemma members_exact rest members values v :
  Forall (fun member => forall v, strict_value custom member.2 = Ok v <-> raw_unique member.2 /\ loose_value member.2 = Ok v) members ->
  strict_members rest members values = Ok v <->
    (rest = None /\ NoDup members.*1 /\ Forall (fun member => raw_unique member.2) members
     /\ (forall key, key ∈ members.*1 -> contains_key key values = false))
    /\ loose_members rest members values = Ok v.
Proof.
  intros Hall. revert values. induction Hall as [|[key raw] members Hraw _ IH]; intros values; cbn [strict_members loose_members].
  { destruct rest; simpl; [naive_solver|]. split; [|naive_solver]. intros H. split_and!; [done|constructor|constructor| |done].
    intros k []%elem_of_nil. }
  cbn [snd] in Hraw. rewrite fmap_cons, NoDup_cons. cbn [fst]. setoid_rewrite elem_of_cons.
  destruct (contains_key key values) eqn:Hk.
  { split; [done|]. intros [(_ & _ & _ & Hno) _]. specialize (Hno key (or_introl eq_refl)). congruence. }
  assert (Hins : forall (value : Value),
    (forall k, k ∈ members.*1 -> contains_key k (object_insert key value values) = false) <->
    (key ∉ members.*1) /\ (forall k, k = key \/ k ∈ members.*1 -> contains_key k values = false)).
  { intros value. split.
    - intros H. split.
      + intros Hin. specialize (H key Hin). by rewrite contains_insert, (bool_decide_eq_true_2 (key = key)) in H.
      + intros k [->|Hin]; [done|]. specialize (H k Hin). rewrite contains_insert in H. by apply orb_false_iff in H as [_ H].
    - intros [Hn H] k Hin. rewrite contains_insert, (bool_decide_eq_false_2 (k = key)) by (by intros ->). exact (H k (or_intror Hin)). }
  split.
  - destruct (strict_value custom raw) as [value|e|] eqn:Hs; [|done..]. intros Hrun.
    destruct (proj1 (Hraw value) eq_refl) as [Hu Hl]. rewrite Hl. apply IH in Hrun as ((Hr & Hnd & Hf & Hno) & Hrun).
    apply Hins in Hno as [Hni Hno]. split; [|exact Hrun]. split_and!; [done|done|done|by constructor|done].
  - intros ((Hr & [Hni Hnd] & Hf & Hno) & Hrun). apply Forall_cons_1 in Hf as [Hu Hf].
    cbn [snd] in Hu. destruct (loose_value raw) as [value|e|]; [|done..].
    rewrite (proj2 (Hraw value) (conj Hu eq_refl)). apply IH. split; [|exact Hrun].
    split_and!; [done..|]. by apply Hins.
Qed.

(** The strict reader accepts exactly the texts in which no object, at any
    depth, repeats a member, and reads them as [serde_json] does. *)
Theorem strict_reader_exact raw v :
  strict_value custom raw = Ok v <-> raw_unique raw /\ loose_value raw = Ok v.
Proof.
  revert v. induction raw as [|b|n|s|items rest Hi|members rest Hm|e] using Raw_tree_ind; intros v;
    [cbn; naive_solver auto with atm..| | |].
  - rewrite unique_array_inv. cbn [strict_value loose_value]. split.
    + destruct (collect (map (strict_value custom) items)) as [vs|e|] eqn:Hc; [|done..]. intros Hend.
      apply collect_iff in Hc. assert (Hl : Forall raw_unique items /\ collect (map loose_value items) = Ok vs).
      { clear Hend. rewrite (collect_iff loose_value items vs : collect (map loose_value items) = Ok vs <-> _).
        induction Hc as [|r x items vs Hr Hc IH]; [by split; constructor|]. apply Forall_cons_1 in Hi as [Hi1 Hi].
        apply Hi1 in Hr as [Hu Hl]. destruct (IH Hi) as [Hus Hls]. by split; constructor. }
      destruct Hl as [Hu Hl]. rewrite Hl. destruct rest; [done|]. by split.
    + intros [[-> Hu] Hl]. destruct (collect (map loose_value items)) as [vs|e|] eqn:Hc; [|done..].
      assert (Hs : collect (map (strict_value custom) items) = Ok vs); [|by rewrite Hs].
      apply collect_iff in Hc. apply (collect_iff (strict_value custom) items vs). clear Hl.
      induction Hc as [|r x items vs Hr Hc IH]; [by constructor|].
      apply Forall_cons_1 in Hi as [Hi1 Hi]. apply Forall_cons_1 in Hu as [Hu1 Hu]. constructor; [by apply Hi1|by apply IH].
  - pose proof (members_exact rest members [] v Hm) as H. rewrite unique_object_inv. cbn [strict_value loose_value].
    change (strict_members rest members [] = Ok v <-> (rest = None /\ NoDup members.*1
      /\ Forall (fun member => raw_unique member.2) members) /\ loose_members rest members [] = Ok v).
    rewrite H. naive_solver.
  - split; [done|]. intros [Hu _]. inversion Hu.
Qed.
End Strict.

(** ** Outputs and actions *)

(** An output says something and has at most 64 KiB. *)
Definition output_valid (o : CronModuleOutput) : Prop :=
  match o with
  | CronModuleOutput_Message b | CronModuleOutput_Error b => 1 <= str_len b <= 65536
  end.

Definition outputs_valid (l : list CronModuleOutput) : Prop :=
  (length l <= 32)%nat /\ Forall output_valid l.

(** A diagnostic is one line of at most 4 KiB that is not blank. *)
Definition line_break (c : Ascii.ascii) : bool :=
  Nat.eqb (Ascii.nat_of_ascii c) 13 || Nat.eqb (Ascii.nat_of_ascii c) 10.

Definition diagnostic_text (m : string) : Prop :=
  trim m <> "" /\ str_len m <= 4096 /\ all_chars (fun c => negb (line_break c)) m = true.

(** The checks of the code are these bounds. *)
Lemma output_body_iff b : cron_output_body_parse b = Ok b <-> 1 <= str_len b <= 65536.
Proof.
  unfold cron_output_body_parse, CRON_OUTPUT_BODY_MAX_BYTES, str_len.
  destruct b as [|c b]; [split; [done|simpl; lia]|]. cbn [String.eqb orb].
  destruct (Z.ltb_spec 65536 (Z.of_nat (String.length (String c b)))); (split; [|cbn in *]); (done || (cbn in *; lia)).
Qed.

Lemma no_line_breaks m : replace_line_breaks m = m <-> all_chars (fun c => negb (line_break c)) m = true.
Proof.
  induction m as [|c m IH]; [done|]. cbn [replace_line_breaks all_chars]. fold (line_break c).
  rewrite andb_true_iff, <- IH. destruct (line_break c) eqn:Hc; cbn; split.
  - intros [= E _]. rewrite <- E in Hc. discriminate Hc.
  - by intros [? _].
  - intros [= E]. by rewrite E.
  - by intros [_ ->].
Qed.

Lemma diagnostic_iff m : diagnostic_ok m <-> diagnostic_text m.
Proof.
  unfold diagnostic_ok, diagnostic_text, cron_diagnostic_parse, CRON_DIAGNOSTIC_MAX_BYTES.
  rewrite <- no_line_breaks. split.
  - destruct (_ || _) eqn:Hb; [done|]. intros [= E]. rewrite E in Hb. apply orb_false_iff in Hb as [H1 H2].
    apply String.eqb_neq in H1. apply Z.ltb_ge in H2. done.
  - intros (H1 & H2 & ->). apply String.eqb_neq in H1. apply Z.ltb_ge in H2. by rewrite H1, H2.
Qed.

Definition output_json (o : CronModuleOutput) : Value :=
  match o with
  | CronModuleOutput_Message b => Value_Object [("body", Value_String b); ("kind", Value_String "message")]
  | CronModuleOutput_Error b => Value_Object [("body", Value_String b); ("kind", Value_String "error")]
  end.

Definition outputs_json (l : list CronModuleOutput) : Value := Value_Array (output_json <$> l).

Lemma body_inv b b' : cron_output_body_parse b = Ok b' -> b' = b /\ cron_output_body_parse b' = Ok b'.
Proof.
  intros H. assert (b' = b) as ->; [|done]. unfold cron_output_body_parse in H.
  by destruct (_ || _); [discriminate H|injection H].
Qed.

Lemma output_item_inv v o : parse_output_item v = Ok o -> output_valid o.
Proof.
  destruct v as [| | | | |item]; try done. unfold parse_output_item. destruct (_ || _); [done|].
  destruct (object_get "body" item ≫= value_as_str) as [b|]; [|done].
  destruct (cron_output_body_parse b) as [b'|e|] eqn:Hb; [|done..]. cbn. apply body_inv in Hb as [_ Hb%output_body_iff].
  destruct (String.eqb _ "message"); [by intros [= <-]|]. destruct (String.eqb _ "error"); [by intros [= <-]|done].
Qed.

Lemma output_item_no_panic v : parse_output_item v <> Panic.
Proof.
  destruct v as [| | | | |item]; try done. unfold parse_output_item. destruct (_ || _); [done|].
  destruct (object_get "body" item ≫= value_as_str) as [b|]; [|done]. unfold cron_output_body_parse.
  destruct (_ || _); [done|]. cbn. destruct (String.eqb _ "message"); [done|]. by destruct (String.eqb _ "error").
Qed.

Lemma output_item_json o : output_valid o -> parse_output_item (output_json o) = Ok o.
Proof.
  destruct o as [b|b]; cbn [output_valid]; intros Hb%output_body_iff; unfold parse_output_item;
    cbn -[cron_output_body_parse]; by rewrite Hb.
Qed.

Lemma cron_output_inv v l : parse_cron_output v = Ok l -> outputs_valid l.
Proof.
  unfold parse_cron_output, outputs_valid. destruct v as [[]|]; try done;
    [|intros [= <-]; split; [simpl; lia|constructor]].
  destruct (_ <? _)%Z eqn:Hlen; [done|]. intros Hc%collect_iff. apply Z.ltb_ge in Hlen.
  split; [rewrite <- (Forall2_length _ _ _ Hc); unfold CRON_OUTPUT_MAX_ITEMS in Hlen; lia|].
  clear Hlen. induction Hc; constructor; [by eapply output_item_inv|done].
Qed.

Lemma cron_output_no_panic v : parse_cron_output v <> Panic.
Proof.
  unfold parse_cron_output. destruct v as [[]|]; try done. destruct (_ <? _)%Z; [done|].
  apply collect_no_panic, Forall_true, output_item_no_panic.
Qed.

Lemma cron_output_json l : outputs_valid l -> parse_cron_output (Some (outputs_json l)) = Ok l.
Proof.
  intros [Hlen Hall]. unfold parse_cron_output, outputs_json. rewrite length_fmap.
  rewrite (proj2 (Z.ltb_ge _ _)) by (unfold CRON_OUTPUT_MAX_ITEMS; lia). apply collect_iff. clear Hlen.
  induction Hall; constructor; [by apply output_item_json|done].
Qed.

Definition action_valid (a : HookAction) : Prop :=
  match action_run_as a with Some name => segment_ok name | None => True end.

Definition action_json (a : HookAction) : Value :=
  Value_Object [("as", from_option Value_String Value_Null (action_run_as a));
                ("command", Value_String (HookActionCommand_as_str (action_command a)));
                ("request", action_request a)].

Definition actions_json (l : list HookAction) : Value := Value_Array (action_json <$> l).

Lemma command_json c : read_command (Value_String (HookActionCommand_as_str c)) = Some c.
Proof. by destruct c. Qed.

Lemma run_as_inv v r : read_run_as v = Some r -> match r with Some name => segment_ok name | None => True end.
Proof.
  destruct v; simpl; try done; [by intros [= <-]|]. destruct (agent_name_from_str s) as [a|e|] eqn:Ha; [|done..].
  intros [= <-]. by apply parse_segment_inv in Ha.
Qed.

Lemma read_action_inv v a : read_action v = Some a -> action_valid a.
Proof.
  unfold read_action, action_valid. destruct v as [| | | |[|c [|r [|q []]]]|members]; try done.
  - destruct (read_command c) as [c'|]; [|done]. simpl. destruct (read_run_as r) as [r'|] eqn:Hr; [|done]. simpl.
    intros [= <-]. by apply run_as_inv in Hr.
  - destruct (forallb _ _); [|done]. destruct (object_get "command" members ≫= read_command) as [c|]; [|done]. simpl.
    destruct (match object_get "as" members with Some v => read_run_as v | None => Some None end) as [r|] eqn:Hr; [|done]. simpl.
    destruct (object_get "request" members) as [q|]; [|done]. simpl. intros [= <-]. simpl.
    destruct (object_get "as" members) as [v|]; [by apply run_as_inv in Hr|by injection Hr as <-].
Qed.

Lemma read_action_json a : action_valid a -> read_action (action_json a) = Some a.
Proof.
  destruct a as [c r q]. unfold action_valid, read_action, action_json. cbn [action_run_as action_command action_request].
  intros Hr. cbn -[read_command HookActionCommand_as_str]. rewrite command_json. simpl.
  destruct r as [name|]; [|done]. cbn [from_option read_run_as]. by rewrite (parse_segment_ok "agent" name Hr : agent_name_from_str name = _).
Qed.

Lemma read_actions_inv v l : read_actions v = Some l -> Forall action_valid l.
Proof.
  destruct v; try done. simpl. intros Hm. apply mapM_Some in Hm.
  induction Hm; constructor; [by eapply read_action_inv|done].
Qed.

Lemma read_actions_json l : Forall action_valid l -> read_actions (actions_json l) = Some l.
Proof.
  intros H. simpl. apply mapM_Some. induction H; constructor; [by apply read_action_json|done].
Qed.

(** ** Cron replies *)

Section Replies.
Context {hj : HookJson}.

(** The text reads as one value, with nothing after it. *)
Definition reads_as (stdout : string) (v : Value) : Prop :=
  strict_value (custom_text stdout) (read_json stdout) = Ok v /\ end_error stdout = None.

Lemma strict_value_no_panic custom raw : strict_value custom raw <> Panic.
Proof.
  induction raw as [| | | |items rest Hi|members rest Hm|] using Raw_tree_ind; try done; cbn [strict_value].
  - pose proof (collect_no_panic (strict_value custom) items Hi : collect (map _ items) <> Panic) as Hc.
    destruct (collect (map _ items)); cbn; [by destruct rest|done|done].
  - generalize (@nil (string * Value)). induction Hm as [|[key raw] members Hr _ IH]; intros values; [by destruct rest|].
    destruct (contains_key key values); [done|]. cbn [snd] in Hr. destruct (strict_value custom raw); cbn; [apply IH|done|done].
Qed.

Lemma strict_object_no_panic stdout context : strict_object stdout context <> Panic.
Proof.
  unfold strict_object. pose proof (strict_value_no_panic (custom_text stdout) (read_json stdout)).
  repeat (case_match; try done).
Qed.

Lemma strict_object_reads stdout context members :
  reads_as stdout (Value_Object members) -> strict_object stdout context = Ok members.
Proof. intros [Hv He]. unfold strict_object. by rewrite Hv, He. Qed.

Definition tick_reply_valid (reply : CronTickReply) : Prop :=
  match reply with
  | TickReply_PassThrough output => outputs_valid output
  | TickReply_Handled actions output =>
    (1 <= length actions <= 32)%nat /\ Forall action_valid actions /\ outputs_valid output
  | TickReply_NotApplicable => True
  | TickReply_Refused m => diagnostic_text m
  end.

Definition tick_json (reply : CronTickReply) : Value :=
  Value_Object
    match reply with
    | TickReply_PassThrough output => [("cron-output", outputs_json output); ("result", Value_String "pass-through")]
    | TickReply_Handled actions output =>
      [("atm-action", actions_json actions); ("cron-output", outputs_json output); ("result", Value_String "handled")]
    | TickReply_NotApplicable => [("result", Value_String "not-applicable")]
    | TickReply_Refused m => [("message", Value_String m); ("result", Value_String "refused")]
    end.

Lemma required_inv object key s : required_string object key = Ok s -> object_get key object = Some (Value_String s) /\ s <> "".
Proof.
  unfold required_string. destruct (object_get key object) as [[]|]; simpl; try done.
  destruct (String.eqb_spec s0 ""); [done|]. by intros [= <-].
Qed.

Lemma required_no_panic object key : required_string object key <> Panic.
Proof. unfold required_string. destruct (_ ≫= _) as [s|]; [by destruct (String.eqb s "")|done]. Qed.

Lemma handled_inv object output reply :
  parse_handled object output = Ok reply -> outputs_valid output -> tick_reply_valid reply.
Proof.
  unfold parse_handled. destruct (object_get "atm-action" object) as [v|]; [|done].
  destruct (read_actions v) as [l|] eqn:Hl; [|done]. destruct (actions_in_range l) eqn:Hr; [|done].
  intros [= <-] Ho. apply bool_decide_eq_true in Hr. unfold HOOK_ACTIONS_MAX in Hr. split; [lia|]. split; [by apply read_actions_inv in Hl|exact Ho].
Qed.

(** Step over the result of one reader. *)
Tactic Notation "obind" constr(o) "as" ident(x) "eqn" ident(H) :=
  destruct o as [x|?|] eqn:H; [|done..]; cbn [mbind outcome_mbind outcome_bind].

Lemma tick_reply_inv stdout reply : parse_cron_tick_reply stdout = Ok reply -> tick_reply_valid reply.
Proof.
  unfold parse_cron_tick_reply. obind (strict_object stdout "cron tick reply") as object eqn Hobject.
  obind (required_string object "result") as result eqn Hresult. obind (parse_cron_output (object_get "cron-output" object)) as output eqn Houtput.
  apply cron_output_inv in Houtput. destruct (_ && _); [by intros [= <-]|]. destruct (_ && _); [intros H; by eapply handled_inv|].
  destruct (_ && _); [by intros [= <-]|]. destruct (_ && _); [|done].
  obind (required_string object "message") as m eqn Hm. obind (cron_diagnostic_parse m) as d eqn Hd. intros [= <-].
  apply diagnostic_reparse in Hd. by apply diagnostic_iff.
Qed.

Lemma tick_reply_no_panic stdout : parse_cron_tick_reply stdout <> Panic.
Proof.
  unfold parse_cron_tick_reply. pose proof (strict_object_no_panic stdout "cron tick reply").
  obind (strict_object stdout "cron tick reply") as object eqn Hobject. pose proof (required_no_panic object "result").
  obind (required_string object "result") as result eqn Hresult. pose proof (cron_output_no_panic (object_get "cron-output" object)).
  obind (parse_cron_output (object_get "cron-output" object)) as output eqn Houtput.
  destruct (_ && _); [done|]. destruct (_ && _); [unfold parse_handled; repeat (case_match; try done)|].
  destruct (_ && _); [done|]. destruct (_ && _); [|done]. pose proof (required_no_panic object "message").
  obind (required_string object "message") as m eqn Hm. unfold cron_diagnostic_parse. by destruct (_ || _).
Qed.

Lemma tick_reply_json stdout reply :
  tick_reply_valid reply -> reads_as stdout (tick_json reply) -> parse_cron_tick_reply stdout = Ok reply.
Proof.
  intros Hvalid Hreads. unfold parse_cron_tick_reply.
  destruct reply as [output|actions output| |m]; unfold tick_json in Hreads;
    rewrite (strict_object_reads _ _ _ Hreads); cbn [mbind outcome_mbind outcome_bind].
  - change (object_get "cron-output" _) with (Some (outputs_json output)). by rewrite cron_output_json.
  - destruct Hvalid as (Hlen & Ha & Ho). change (object_get "cron-output" _) with (Some (outputs_json output)).
    rewrite cron_output_json by done. cbn -[actions_json outputs_json read_actions]. rewrite read_actions_json by done.
    unfold actions_in_range, HOOK_ACTIONS_MAX. by rewrite (bool_decide_eq_true_2 (1 <= Z.of_nat (length actions) <= 32)) by lia.
  - done.
  - apply diagnostic_iff in Hvalid. unfold diagnostic_ok in Hvalid. cbn -[cron_diagnostic_parse required_string].
    assert (Hm : required_string [("message", Value_String m); ("result", Value_String "refused")] "message" = Ok m).
    { unfold required_string. cbn. destruct (String.eqb_spec m ""); [by subst|done]. }
    rewrite Hm. cbn -[cron_diagnostic_parse]. by rewrite Hvalid.
Qed.

(** C35: the replies of a cron module round trip with their JSON form: a text that reads
    as the JSON object of a usable reply is parsed as that reply, and whatever text is read,
    the reply is usable: at most 32 outputs of 1 to 65536 bytes, 1 to 32 actions whose
    senders are names, and a refusal that is one line of 1 to 4096 bytes and not blank, as
    the contract of the engine's port says.  Reading never panics. *)
Theorem cron_tick_reply_roundtrip stdout :
  (forall reply, tick_reply_valid reply -> reads_as stdout (tick_json reply) ->
     parse_cron_tick_reply stdout = Ok reply)
  /\ (forall reply, parse_cron_tick_reply stdout = Ok reply -> tick_reply_valid reply)
  /\ result_ok tick_reply_ok (parse_cron_tick_reply stdout).
Proof.
  pose proof (tick_reply_inv stdout) as Hinv. pose proof (tick_reply_no_panic stdout).
  split_and!; [intros reply; apply tick_reply_json|exact Hinv|].
  destruct (parse_cron_tick_reply stdout) as [reply|e|]; [|done..]. specialize (Hinv reply eq_refl).
  destruct reply; try done. by apply diagnostic_iff.
Qed.

(** ** Stop replies *)

Definition stop_reply_valid (reply : CronStopReply) : Prop := stop_reply_ok reply /\ outputs_valid (stop_output reply).

Definition stop_json (reply : CronStopReply) : Value :=
  Value_Object
    (("cron-output", outputs_json (stop_output reply))
     :: (match stop_reason reply with Some r => [("reason", Value_String r)] | None => [] end)
     ++ [("stop", Value_Bool (stop_stop reply))]).

Lemma stop_new_inv stop reason output reply :
  cron_stop_reply_new stop reason output = Ok reply -> reply = mkCronStopReply stop reason output.
Proof. unfold cron_stop_reply_new. repeat (case_match; try done). by intros [= <-]. Qed.

Lemma stop_reason_inv object reason : parse_stop_reason object = Ok reason -> forall r, reason = Some r -> diagnostic_ok r.
Proof.
  unfold parse_stop_reason. destruct (object_get "reason" object) as [v|]; [|by intros [= <-]].
  destruct (value_as_str v) as [t|]; [|done]. obind (cron_diagnostic_parse t) as d eqn Hd. intros [= <-] r [= <-].
  by apply diagnostic_reparse in Hd.
Qed.

Lemma stop_parts_no_panic object stop reason output :
  parse_stop_reason object <> Panic /\ cron_stop_reply_new stop reason output <> Panic.
Proof.
  unfold parse_stop_reason, cron_stop_reply_new, cron_diagnostic_parse. split; [|by repeat (case_match; try done)].
  destruct (object_get "reason" object) as [v|]; [|done]. destruct (value_as_str v) as [t|]; [|done]. by destruct (_ || _).
Qed.

(** The stop replies of a cron module round trip in the same way: a reply is
    read with a reason exactly when it stops, the reason is a diagnostic, and it
    has at most 32 outputs; every such reply has a text; reading never panics. *)
Theorem cron_stop_reply_roundtrip stdout :
  (forall reply, stop_reply_valid reply -> reads_as stdout (stop_json reply) ->
     parse_cron_stop_reply stdout = Ok reply)
  /\ (forall reply, parse_cron_stop_reply stdout = Ok reply -> stop_reply_valid reply)
  /\ result_ok stop_reply_ok (parse_cron_stop_reply stdout).
Proof.
  assert (Hinv : forall reply, parse_cron_stop_reply stdout = Ok reply -> stop_reply_valid reply).
  { intros reply. unfold parse_cron_stop_reply. obind (strict_object stdout "cron stop reply") as object eqn Hobject.
    destruct (object_get "stop" object ≫= value_as_bool) as [stop|]; [|done]. obind (parse_stop_reason object) as reason eqn Hreason.
    destruct (negb _); [done|]. obind (parse_cron_output (object_get "cron-output" object)) as output eqn Houtput. intros Hnew.
    pose proof (stop_new_inv _ _ _ _ Hnew) as ->. apply cron_output_inv in Houtput. split; [|done]. split; [done|].
    intros r Hr. by eapply stop_reason_inv. }
  assert (Hnp : parse_cron_stop_reply stdout <> Panic).
  { unfold parse_cron_stop_reply. pose proof (strict_object_no_panic stdout "cron stop reply").
    obind (strict_object stdout "cron stop reply") as object eqn Hobject. destruct (object_get "stop" object ≫= value_as_bool) as [stop|]; [|done].
    destruct (stop_parts_no_panic object stop None []) as [Hr _]. obind (parse_stop_reason object) as reason eqn Hreason.
    destruct (negb _); [done|]. pose proof (cron_output_no_panic (object_get "cron-output" object)).
    obind (parse_cron_output (object_get "cron-output" object)) as output eqn Houtput. by apply stop_parts_no_panic. }
  split_and!; [|exact Hinv|].
  - intros [stop reason output] [[Hnew Hd] Ho] Hreads. unfold stop_json in Hreads. cbn [stop_stop stop_reason stop_output] in *.
    unfold parse_cron_stop_reply. rewrite (strict_object_reads _ _ _ Hreads). cbn [mbind outcome_mbind outcome_bind].
    destruct reason as [r|]; cbn -[outputs_json parse_cron_output cron_diagnostic_parse cron_stop_reply_new];
      [rewrite (Hd r eq_refl)|]; cbn -[outputs_json parse_cron_output cron_stop_reply_new]; by rewrite cron_output_json.
  - destruct (parse_cron_stop_reply stdout) as [reply|e|]; [|done..]. by apply Hinv.
Qed.
End Replies.

(** ** Stop replies of task hooks *)

Section StopReply.
Context {hj : HookJson}.

(** The values a stop reply is read from. *)
Inductive stop_value : Value -> StopReply -> Prop :=
| stop_by_object members r :
    keys_are members ["stop"; "reason"] = true -> object_get "stop" members = Some (Value_Bool true) ->
    object_get "reason" members = Some (Value_String r) -> r <> "" ->
    stop_value (Value_Object members) (mkStopReply true (Some r))
| go_on_by_object : stop_value (Value_Object [("stop", Value_Bool false)]) (mkStopReply false None)
| stop_by_array r : r <> "" -> stop_value (Value_Array [Value_Bool true; Value_String r]) (mkStopReply true (Some r)).

Lemma read_stop_object members reply :
  read_stop_reply (Value_Object members) = Some reply ->
  keys_are members ["stop"; "reason"] = true /\ object_get "stop" members = Some (Value_Bool (stop_reply_stop reply))
  /\ (forall r, stop_reply_reason reply = Some r -> object_get "reason" members = Some (Value_String r)).
Proof.
  unfold read_stop_reply. fold (keys_are members ["stop"; "reason"]). destruct (keys_are members _); [|done].
  destruct (object_get "stop" members) as [[]|]; try done. simpl.
  destruct (object_get "reason" members) as [[]|]; try done; simpl; intros [= <-]; simpl; split_and!; try done. by intros r [= <-].
Qed.

(** A task hook's stop reply is accepted exactly as an object with [stop] true
    and a reason that is not empty, as the object with [stop] false alone, or, though
    the error text says that the reply must be one of these objects, as the array
    of the two fields of a stop. *)
Theorem stop_reply_accepts stdout reply :
  stop_reply_parse stdout = Ok reply <-> exists v, from_slice stdout = Ok v /\ stop_value v reply.
Proof.
  unfold stop_reply_parse. split.
  - destruct (from_slice stdout) as [v|e|]; [|done..]. destruct (read_stop_reply v) as [p|] eqn:Hr; [|done].
    destruct (_ || _) eqn:Hb; [|done]. intros [= ->]. exists v. split; [done|]. destruct reply as [stop reason]. cbn in Hb.
    destruct v as [| | | |[|[] [|v' []]]|members]; try done.
    + cbn in Hr. injection Hr as <- <-. by destruct b.
    + cbn in Hr. destruct v'; try done; cbn in Hr; injection Hr as <- <-; cbn in Hb; [by destruct b|].
      destruct b; [|done]. constructor. intros ->. done.
    + apply read_stop_object in Hr as (Hk & Hs & Hreason). cbn in Hs, Hreason. destruct stop.
      * rewrite orb_false_r in Hb. destruct reason as [r|]; [|done]. constructor; [done..|by apply Hreason|]. by intros ->.
      * destruct members as [|[k v] []]; try done. cbn [object_get] in Hs. destruct (String.eqb_spec "stop" k) as [<-|]; [|done].
        injection Hs as ->. destruct reason as [r|]; [|constructor]. by specialize (Hreason r eq_refl).
  - intros (v & -> & Hv). destruct Hv as [members r Hk Hs Hr Hne| |r Hne].
    + unfold read_stop_reply. fold (keys_are members ["stop"; "reason"]). rewrite Hk, Hs, Hr. cbn.
      by destruct (String.eqb_spec r "").
    + done.
    + cbn. by destruct (String.eqb_spec r "").
Qed.
End StopReply.

(** ** Start requests *)

Section Start.
Context {rt : Runtime} {crt : CronRuntime}.

Record within_limits (r : CronStartRequest) (custom : list (string * Value)) : Prop := mkWithinLimits {
  limit_custom : custom_or_empty (start_custom r) = Value_Object custom;
  limit_custom_bytes : str_len (object_to_string custom) <= 65536;
  limit_module_path : str_len (start_module_path r) <= 4096;
  limit_cwd : str_len (start_cwd r) <= 4096;
  limit_name : 1 <= str_len (start_name r) <= 64;
  limit_args : (length (start_args r) <= 32)%nat;
  limit_args_bytes : args_bytes (start_args r) <= 4096
}.

(** The schedule a request asks for. *)
Definition requested_spec (r : CronStartRequest) (custom : list (string * Value)) : CronStartSpec :=
  mkCronStartSpec (start_caller_team r) (start_phase r) (start_name r) (start_cron_expr r) (start_module_path r)
    (start_cwd r) (start_args r) (start_timeout_ms r) custom (start_stop r) (start_caller_identity r).

Lemma cron_name_ok s : cron_name_parse s = Ok s <-> 1 <= str_len s <= 64.
Proof.
  unfold cron_name_parse, CRON_NAME_MAX_BYTES, str_len. destruct s as [|c s]; [split; [done|simpl; lia]|].
  destruct (_ || _) eqn:Hb.
  - apply orb_true_iff in Hb as [|Hb]; [done|]. apply Z.ltb_lt in Hb. split; [done|simpl in *; lia].
  - apply orb_false_iff in Hb as [_ Hb]. apply Z.ltb_ge in Hb. split; [simpl in *; lia|done].
Qed.

Lemma path_limit_ok path field : path_limit path field = Ok tt <-> str_len path <= 4096.
Proof.
  unfold path_limit, HOOK_PATH_MAX_BYTES. destruct (_ <? _)%Z eqn:Hb.
  - apply Z.ltb_lt in Hb. split; [done|lia].
  - by apply Z.ltb_ge in Hb.
Qed.

Lemma custom_object_ok v custom :
  custom_object v = Ok custom <-> v = Value_Object custom /\ str_len (object_to_string custom) <= 65536.
Proof.
  unfold custom_object, HOOK_CUSTOM_MAX_BYTES. destruct v as [| | | | |object]; try naive_solver.
  destruct (_ <? _)%Z eqn:Hb; [apply Z.ltb_lt in Hb|apply Z.ltb_ge in Hb].
  - split; [done|]. intros [[= ->] Hle]. lia.
  - split; [by intros [= ->]|]. by intros [[= ->] _].
Qed.

(** A start request is turned into the schedule it asks for, unchanged, exactly
    when its custom object has at most 65536 bytes as text, its two paths at most
    4096 bytes, its name 1 to 64 bytes, and its arguments are at most 32 with at
    most 4096 bytes together; an absent custom object is the empty one. *)
Theorem start_request_limits r spec :
  into_spec r = Ok spec <-> exists custom, within_limits r custom /\ spec = requested_spec r custom.
Proof.
  unfold into_spec. split.
  - destruct (custom_object _) as [custom|e|] eqn:Hc; [|done..]. apply custom_object_ok in Hc as [Hc Hcb]. cbn [mbind outcome_mbind outcome_bind].
    destruct (path_limit (start_module_path r) _) as [[]|e|] eqn:Hm; [|done..]. apply path_limit_ok in Hm. cbn [mbind outcome_mbind outcome_bind].
    destruct (path_limit (start_cwd r) _) as [[]|e|] eqn:Hw; [|done..]. apply path_limit_ok in Hw. cbn [mbind outcome_mbind outcome_bind].
    destruct (cron_name_parse (start_name r)) as [name|e|] eqn:Hn; [|done..].
    assert (name = start_name r) as -> by (unfold cron_name_parse in Hn; by destruct (_ || _); [discriminate Hn|injection Hn]).
    apply cron_name_ok in Hn. cbn [mbind outcome_mbind outcome_bind]. unfold CRON_ARGS_MAX, CRON_ARGS_MAX_BYTES.
    destruct (_ <? _)%Z eqn:Ha; [done|]. destruct (_ <? args_bytes _)%Z eqn:Hb; [done|]. apply Z.ltb_ge in Ha, Hb.
    intros [= <-]. exists custom. split; [constructor; done || lia|done].
  - intros (custom & [Hc Hcb Hm Hw Hn Ha Hb] & ->). rewrite (proj2 (custom_object_ok _ custom) (conj Hc Hcb)).
    cbn [mbind outcome_mbind outcome_bind]. rewrite (proj2 (path_limit_ok _ _) Hm), (proj2 (path_limit_ok _ _) Hw).
    cbn [mbind outcome_mbind outcome_bind]. rewrite (proj2 (cron_name_ok _) Hn). cbn [mbind outcome_mbind outcome_bind].
    unfold CRON_ARGS_MAX, CRON_ARGS_MAX_BYTES.
    rewrite (proj2 (Z.ltb_ge 32 (Z.of_nat (length (start_args r)))) ltac:(lia)), (proj2 (Z.ltb_ge 4096 _) Hb). done.
Qed.
End Start.

(** ** Concrete replies *)

(** A reader that knows three texts. *)
#[local] Instance sample_json : HookJson :=
  {| read_json stdout :=
       if String.eqb stdout "handled" then
         Raw_Object [("result", Raw_String "handled");
                     ("atm-action", Raw_Array [Raw_Object [("command", Raw_String "send"); ("request", Raw_Object [] None);
                                                           ("as", Raw_String "bob")] None] None);
                     ("cron-output", Raw_Array [] None)] None
       else if String.eqb stdout "stop" then
         Raw_Object [("stop", Raw_Bool true); ("reason", Raw_String "done"); ("cron-output", Raw_Array [] None)] None
       else if String.eqb stdout "array" then Raw_Array [Raw_Bool true; Raw_String "done"] None
       else Raw_Error "expected value at line 1 column 1";
     end_error _ := None;
     custom_text _ m := m;
     actions_text _ := "invalid type";
     stop_text _ := "invalid type" |}.

Definition send_action : HookAction := mkHookAction HookAction_Send (Some "bob") (Value_Object []).

Lemma cron_tick_reply_roundtrip_witness :
  parse_cron_tick_reply "handled" = Ok (TickReply_Handled [send_action] [])
  /\ tick_reply_valid (TickReply_Handled [send_action] []).
Proof.
  assert (Hv : tick_reply_valid (TickReply_Handled [send_action] [])).
  { split; [simpl; lia|]. split; [|split; [simpl; lia|constructor]].
    constructor; [split; [discriminate|vm_compute; reflexivity]|constructor]. }
  split; [|exact Hv].
  apply (proj1 (cron_tick_reply_roundtrip "handled")); [exact Hv|]. split; vm_compute; reflexivity.
Defined.

Lemma cron_stop_reply_roundtrip_witness :
  parse_cron_stop_reply "stop" = Ok (mkCronStopReply true (Some "done") [])
  /\ parse_cron_stop_reply "array" <> Panic.
Proof.
  split.
  - apply (proj1 (cron_stop_reply_roundtrip "stop")); [|split; vm_compute; reflexivity].
    split; [|split; [simpl; lia|constructor]]. split; [vm_compute; reflexivity|].
    intros r [= <-]. vm_compute. reflexivity.
  - destruct (cron_stop_reply_roundtrip "array") as (_ & _ & H). intros Hp. by rewrite Hp in H.
Defined.

Lemma stop_reply_accepts_witness : stop_reply_parse "array" = Ok (mkStopReply true (Some "done")).
Proof.
  apply (proj2 (stop_reply_accepts "array" _)). eexists. split; [vm_compute; reflexivity|]. by constructor.
Defined.

Definition nightly_request : CronStartRequest :=
  mkCronStartRequest "alice" "alpha" "bk" "nightly" "0 0 3 * * *" "/hooks/nightly.py" "/work" ["--all"] 30000
    StopCondition_Hook Value_Null.

Lemma start_request_limits_witness : into_spec nightly_request = Ok (requested_spec nightly_request []).
Proof.
  apply (proj2 (start_request_limits nightly_request _)). exists []. split; [|reflexivity].
  constructor; vm_compute; repeat split; try discriminate; lia.
Defined.
