(* ===== verification/CronEngineProps.v ===== *)
(** * What a cron run promises

    A run keeps the cron tables well formed and its history, whatever its ports
    and other tasks do within the store's operations; each delivery is attempted
    once and its receipt is kept; and which failures are lost. *)

From S2P Require Import Prelude ErrorCodes Types Address TaskState CronTypes Database Transaction.
From S2P Require Import CronStore CronTransition CronDelivery CronTiming CronEngine.
From S2P Require Import Demo CronDemo CronProps CronRunDemo CronEngineSpec.
From stdpp Require Import base gmap strings numbers list sorting.
Local Open Scope Z_scope.
Local Open Scope string_scope.
Local Open Scope list_scope.

(** ** The store operations of a run *)

Section Ops.
Context {rt : Runtime} {crt : CronRuntime}.

Lemma commit_no_panic write w : cron_inv (cron (db w)) -> (commit write w).1 <> Panic.
Proof.
  intros Hi. destruct (decide (write_transition write = Transition_SkippedInFlight)) as [Hk|Hk].
  { unfold commit. by rewrite Hk. }
  rewrite commit_unfold by done.
  destruct (with_transaction_cases (commit_in write) w) as [(e & w' & -> & _)|Hc]; [done|].
  destruct (commit_in_cases write (tick w) Hi Hk) as [[_ Hb]|[(r & names & Hr)|[(e & w2 & Hb) _]]];
    [|rewrite (commit_in_run write r names) in Hc by done|]; rewrite ?Hb in Hc; by rewrite Hc.
Qed.

Lemma key_storable_dec key : key_storable key \/ forall receipt w, exists e, mark_delivered_in key receipt w = (Err e, w).
Proof.
  unfold key_storable, mark_delivered_in. destruct (key_columns key) as [[[id g] sq] o].
  destruct (decide (id <= i64_max)) as [Hid|Hid].
  - destruct (decide (sq <= i64_max)) as [Hsq|Hsq]; [by left|right]. intros receipt w.
    unfold stored_id, stored_seq, i64_try_from. rewrite (bool_decide_eq_true_2 (id <= i64_max)) by exact Hid.
    rewrite (bool_decide_eq_false_2 (sq <= i64_max)) by exact Hsq. eexists. reflexivity.
  - right. intros receipt w. unfold stored_id, i64_try_from. rewrite (bool_decide_eq_false_2 (id <= i64_max)) by exact Hid.
    eexists. reflexivity.
Qed.

Lemma mark_no_panic key receipt w : cron_inv (cron (db w)) -> (mark_delivered key receipt w).1 <> Panic.
Proof.
  intros Hi. destruct (key_storable_dec key) as [Hst|Hst].
  - pose proof (mark_delivered_cases key receipt w Hi Hst) as H. by destruct (mark_delivered key receipt w) as [[]].
  - unfold mark_delivered. destruct (with_transaction_cases (mark_delivered_in key receipt) w) as [(e & w' & -> & _)|Hc]; [done|].
    destruct (Hst receipt (tick w)) as [e He]. rewrite He in Hc. by rewrite Hc.
Qed.

Lemma result_no_panic {A} (o : Outcome AtmError A) : o <> Panic -> result_ok (fun _ => True) o.
Proof. by destruct o. Qed.

Context {crtok : CronRuntimeOk rt crt}.

Lemma commit_grows id g at_ t outputs :
  transition_ok t -> m_keeps tables_grow (commit (mkCronTransitionWrite id g at_ t outputs)) (fun _ => True).
Proof.
  intros Ht w Hg. destruct (commit_step (mkCronTransitionWrite id g at_ t outputs) w Hg Ht) as [Hg' [_ Hgrow]].
  split_and!; [done..|]. apply result_no_panic, commit_no_panic, Hg.
Qed.

Lemma mark_grows key receipt : receipt_ok receipt -> m_keeps tables_grow (mark_delivered key receipt) (fun _ => True).
Proof.
  intros Hr w Hg. destruct (mark_step key receipt w Hg Hr) as [Hg' [_ Hgrow]].
  split_and!; [done..|]. apply result_no_panic, mark_no_panic, Hg.
Qed.
End Ops.

(** ** Tables that keep their log *)

(** Receipts may be stored; schedules, events and the keys of deliveries stay. *)
Record same_log (c c' : CronTables) : Prop := mkSameLog {
  same_schedule : cron_schedule c' = cron_schedule c;
  same_events : cron_transition_event c' = cron_transition_event c;
  same_keys : forall k, is_Some (cron_delivery_intent c' !! k) <-> is_Some (cron_delivery_intent c !! k)
}.

#[export] Instance same_log_preorder : PreOrder same_log.
Proof.
  split; [done|]. intros c1 c2 c3 [Hs1 He1 Hk1] [Hs2 He2 Hk2]. constructor; [congruence..|].
  intros k. by rewrite Hk2.
Qed.

#[export] Instance tables_grow_preorder : PreOrder tables_grow.
Proof. split; [exact tables_grow_refl|exact tables_grow_trans]. Qed.

Lemma latest_same d d' id g :
  cron_transition_event (cron d') = cron_transition_event (cron d) -> latest d' id g = latest d id g.
Proof. intros He. unfold latest, last_seq, events_of. by rewrite He. Qed.

Lemma last_seq_same d d' id g :
  cron_transition_event (cron d') = cron_transition_event (cron d) -> last_seq d' id g = last_seq d id g.
Proof. intros He. unfold last_seq, events_of. by rewrite He. Qed.

Section Log.
Context {rt : Runtime} {crt : CronRuntime} {crtok : CronRuntimeOk rt crt}.

Lemma mark_same_log key receipt : receipt_ok receipt -> m_keeps same_log (mark_delivered key receipt) (fun _ => True).
Proof.
  intros Hr w Hg. destruct (mark_step key receipt w Hg Hr) as [Hg' _]. split; [exact Hg'|].
  split; [|apply result_no_panic, mark_no_panic, Hg]. destruct (key_storable_dec key) as [Hst|Hst].
  - pose proof (mark_delivered_cases key receipt w (proj1 Hg) Hst) as H.
    destruct (mark_delivered key receipt w) as [[[]|e|] w'] eqn:Hrun; simpl; [|by destruct H as [-> _]|by destruct H as [-> _]|done].
    destruct H as (row & Hrow & _ & ->). constructor; [done..|]. intros k. simpl. rewrite lookup_insert_is_Some'.
    split; [|by right]. intros [<-|Hk]; [by eexists|done].
  - unfold mark_delivered. destruct (with_transaction_cases (mark_delivered_in key receipt) w) as [(e & w' & -> & Hd & _)|Hc].
    + simpl. by rewrite Hd.
    + destruct (Hst receipt (tick w)) as [e He]. rewrite He in Hc. by rewrite Hc.
Qed.
End Log.

(** ** Running the engine *)

Lemma c_bind_ok_inv {A B} (c : C A) (f : A -> C B) s b s' :
  (c ≫= f) s = (Ok b, s') -> exists a s1, c s = (Ok a, s1) /\ f a s1 = (Ok b, s').
Proof.
  unfold mbind, C_bind, st_mbind, st_bind. destruct (c s) as [[a|e|] s1]; [|done..]. eauto.
Qed.

Lemma c_run_bind {A B} (c : C A) (f : A -> C B) s a s1 : c s = (Ok a, s1) -> (c ≫= f) s = f a s1.
Proof. intros H. unfold mbind, C_bind, st_mbind, st_bind. by rewrite H. Qed.

Lemma c_run_err {A B} (c : C A) (f : A -> C B) s e s1 : c s = (Err e, s1) -> (c ≫= f) s = (Err e, s1).
Proof. intros H. unfold mbind, C_bind, st_mbind, st_bind. by rewrite H. Qed.

Lemma attempt_inv {A} (c : C A) o s s' : attempt c s = (Ok o, s') -> c s = (o, s').
Proof. unfold attempt. by destruct (c s) as [[a|e|] s1]; intros [= <- <-]. Qed.

(** The failures of a tick. *)
Definition run_failed (o : CronRunOutcome) : Prop :=
  match o with
  | Run_Refused _ | Run_Exit _ | Run_Timeout | Run_Malformed | Run_ActionErr _ => True
  | _ => False
  end.

Section Quiet.
Context {rt : Runtime} {crt : CronRuntime} {crtok : CronRuntimeOk rt crt} {ports : CronPorts}.
Context {quiet : PortsKeep same_log ports}.

Lemma pending_intents_same schedule s :
  cron_good (tables s) ->
  exists l s1, pending_intents schedule s = (Ok l, s1) /\ cron_good (tables s1) /\ same_log (tables s) (tables s1).
Proof.
  intros Hg. destruct (keep_others s Hg) as [Hg' HR]. unfold pending_intents.
  destruct (pending_run PENDING_LIMIT (world (others s)) (proj1 Hg') (proj2 Hg')) as (l & Hl & _).
  eexists _, _. split; [|by split]. erewrite c_run_bind; [reflexivity|]. unfold store_task. rewrite Hl.
  f_equal. by destruct (others s).
Qed.

(** The steps of a commit up to the store's answer. *)
Lemma engine_commit_steps schedule t outputs s :
  cron_good (tables s) ->
  exists intents at_ s2, cron_good (tables s2) /\ same_log (tables s) (tables s2)
    /\ engine_commit schedule t outputs s
       = (result ← store_task "cron transition task failed"
            (commit (mkCronTransitionWrite (sched_id schedule) (sched_generation schedule) at_ t outputs));
          match result with
          | Commit_StaleGeneration => mret false
          | Commit_Applied committed =>
            _ ← st_iter (deliver_and_mark schedule) (intents ++ committed); mret true
          end) s2.
Proof.
  intros Hg. destruct (pending_intents_same schedule s Hg) as (l & s1 & Hl & Hg1 & HR1).
  unfold engine_commit. erewrite c_run_bind by exact Hl. erewrite c_run_bind by reflexivity. cbv zeta.
  by eexists l, _, (set_world (tick (world s1)) s1).
Qed.

(** A commit that was applied. *)
Lemma engine_commit_applied schedule t outputs s s' :
  cron_good (tables s) -> transition_ok t -> engine_commit schedule t outputs s = (Ok true, s') ->
  exists at_ w0 intents w1, cron_good (cron (db w0)) /\ same_log (tables s) (cron (db w0))
    /\ commit (mkCronTransitionWrite (sched_id schedule) (sched_generation schedule) at_ t outputs) w0
       = (Ok (Commit_Applied intents), w1)
    /\ cron_good (tables s') /\ same_log (cron (db w1)) (tables s').
Proof.
  intros Hg Ht Hrun. destruct (engine_commit_steps schedule t outputs s Hg) as (intents & at_ & s2 & Hg2 & HR2 & Heq).
  rewrite Heq in Hrun. apply c_bind_ok_inv in Hrun as (result & s3 & Hstore & Hrun).
  destruct (keep_others s2 Hg2) as [Hg3 HR3]. unfold store_task in Hstore.
  set (write := mkCronTransitionWrite (sched_id schedule) (sched_generation schedule) at_ t outputs) in *.
  destruct (commit_step write (world (others s2)) Hg3 Ht) as [Hg4 _]. unfold cron_after in Hg4.
  destruct (commit write (world (others s2))) as [[r|e|] w1] eqn:Hc; [|done..]. injection Hstore as <- <-.
  destruct r as [committed|]; [|done]. cbn [snd] in Hg4.
  apply c_bind_ok_inv in Hrun as (u & s4 & Hiter & Hret). injection Hret as <-.
  destruct (keeps_iter (deliver_and_mark schedule) (intents ++ committed)
    (fun i => keeps_deliver mark_same_log schedule i) (set_world w1 (others s2)) Hg4) as (Hg5 & HR5 & _).
  rewrite Hiter in Hg5, HR5. exists at_, (world (others s2)), committed, w1.
  split_and!; [done|by etrans|done|done|done].
Qed.

(** A commit that the store refuses. *)
Lemma engine_commit_refused schedule t outputs s :
  cron_good (tables s) ->
  (forall at_ w0, cron_good (cron (db w0)) -> same_log (tables s) (cron (db w0)) ->
     exists e w1, commit (mkCronTransitionWrite (sched_id schedule) (sched_generation schedule) at_ t outputs) w0
       = (Err e, w1) /\ db w1 = db w0) ->
  exists e s', engine_commit schedule t outputs s = (Err e, s') /\ same_log (tables s) (tables s').
Proof.
  intros Hg Hfail. destruct (engine_commit_steps schedule t outputs s Hg) as (intents & at_ & s2 & Hg2 & HR2 & ->).
  destruct (keep_others s2 Hg2) as [Hg3 HR3].
  destruct (Hfail at_ (world (others s2)) Hg3 ltac:(by etrans)) as (e & w1 & Hc & Hd).
  exists e, (set_world w1 (others s2)). split; [|unfold tables at 2; simpl; rewrite Hd; by etrans].
  apply c_run_err. unfold store_task. by rewrite Hc.
Qed.

(** What the stop check's own transition writes: an event, nothing in the row. *)
Lemma continue_committed write intents w w1 :
  cron_good (cron (db w)) -> write_transition write = Transition_StopCheckContinues ->
  commit write w = (Ok (Commit_Applied intents), w1) ->
  cron_schedule (cron (db w1)) = cron_schedule (cron (db w))
  /\ cron_live (cron (db w1)) (write_id write) (write_generation write)
  /\ latest (db w1) (write_id write) (write_generation write) = Some (event_row write)
  /\ cron_transition_event (cron (db w1))
     = <[(write_id write, write_generation write, last_seq (db w) (write_id write) (write_generation write) + 1) := event_row write]>
         (cron_transition_event (cron (db w)))
  /\ forall k, is_Some (cron_delivery_intent (cron (db w1)) !! k) -> k.2 = "lifecycle" ->
       is_Some (cron_delivery_intent (cron (db w)) !! k).
Proof.
  intros [Hi _] Hk Hrun.
  destruct (commit_applied_inv write intents w w1 Hi ltac:(by rewrite Hk) Hrun) as (r & names & Hr & -> & Hd).
  pose proof (latest_committed write r names (tick w) (db w1) Hi Hr ltac:(by rewrite Hd)) as Hl.
  assert (Hrow : committed_row write r = r) by (unfold committed_row; by rewrite Hk).
  assert (Hsch : cron_schedule (cron (db w1)) = cron_schedule (cron (db w))).
  { rewrite Hd. simpl. rewrite Hrow. apply insert_id, (ready_row _ _ _ _ Hr). }
  split_and!; [done| |done|by rewrite Hd|].
  - exists r. rewrite Hsch. destruct Hr. done.
  - intros k Hsome Hlife. rewrite Hd in Hsome. cbn [set_cron cron committed_tables cron_delivery_intent] in Hsome.
    rewrite add_intents_lookup in Hsome by apply pairs_NoDup, commit_pairs.
    destruct (list_find _ _) as [[n i]|] eqn:Hf; [exfalso|done].
    apply list_find_Some in Hf as (Hin & Hkey & _). apply list_elem_of_lookup_2 in Hin.
    unfold commit_intents, commit_event in Hin. rewrite Hk in Hin. simpl in Hin.
    apply mails_keys in Hin as (o & _ & Hkey'). rewrite Hkey in Hkey'. subst k. done.
Qed.

Lemma tick_outcome_failure t : run_failed (outcome_for t) -> exists f, t = Transition_Failure f.
Proof. destruct t as [[]| | | |]; simpl; by eauto. Qed.

Lemma failure_transition_inv kind c text t :
  failure_transition kind c text = Ok t -> exists d, t = Transition_Failure (mkCronFailure kind c d).
Proof.
  unfold failure_transition. generalize (diagnostic text). intros [d|e|]; [|done..]. intros [= <-]. by exists d.
Qed.

Lemma engine_stop_keeps schedule target : keeps same_log (engine_stop schedule target) stop_reply_ok.
Proof.
  unfold engine_stop. eapply keeps_bind; [apply all_keeps, all_deadline|]. intros d _.
  apply keeps_port, keep_stop.
Qed.

(** The failure of a tick after a stop check that let it go on. *)
Lemma tick_failure_lost schedule write target s o s' :
  cron_good (tables s) -> write_id write = sched_id schedule -> write_generation write = sched_generation schedule ->
  write_transition write = Transition_StopCheckContinues ->
  cron_live (tables s) (sched_id schedule) (sched_generation schedule) ->
  latest (db (world s)) (sched_id schedule) (sched_generation schedule) = Some (event_row write) ->
  (engine_tick schedule target ≫= finish_execution schedule) s = (Ok o, s') -> run_failed o ->
  same_log (tables s) (tables s').
Proof.
  intros Hg Hid Hgen Hk Hlive Hlatest Hrun Hfail. apply c_bind_ok_inv in Hrun as (e & s1 & Htick & Hfin).
  destruct (all_tick (R := same_log) schedule target s Hg) as (Hg1 & HR1 & e' & He & Hok). rewrite Htick in *.
  cbn [fst snd] in *. injection He as <-. unfold finish_execution in Hfin.
  apply c_bind_ok_inv in Hfin as (r & s2 & Hcommit & Hret). injection Hret as <- <-.
  destruct (tick_outcome_failure _ Hfail) as [f Hf]. rewrite Hf in Hcommit.
  destruct (engine_commit_refused schedule (Transition_Failure f) e.2 s1 Hg1) as (err & s3 & Herr & HR3).
  - intros at_ w0 Hg0 HR0. assert (HR : same_log (tables s) (cron (db w0))) by (by etrans). destruct HR as [Hs He _].
    eapply (failure_commit_lost _ f (event_row write)); [apply Hg0|done| | |].
    + unfold cron_live. rewrite Hs. exact Hlive.
    + rewrite (latest_same (db (world s)) (db w0)) by exact He. exact Hlatest.
    + unfold event_row. rewrite Hk. done.
  - apply attempt_inv in Hcommit. rewrite Herr in Hcommit. injection Hcommit as _ <-. by etrans.
Qed.

(** C28: a schedule that stops by its own hook never records a failed run.  When a
    run reports that its module refused, exited, timed out, answered nonsense or
    had an action refused, the schedule's row (its last run and last outcome) is
    what it was, the run has added one "continue" event and nothing else to the
    log, and no lifecycle notice was queued for anyone. *)
Theorem hook_failures_never_recorded schedule s o s' :
  cron_good (tables s) -> sched_stop schedule = StopCondition_Hook ->
  engine_run_one schedule s = (Ok o, s') -> run_failed o ->
  cron_schedule (tables s') = cron_schedule (tables s)
  /\ (exists seq ev, ce_transition_kind ev = "continue"
        /\ cron_transition_event (tables s')
           = <[(sched_id schedule, sched_generation schedule, seq) := ev]> (cron_transition_event (tables s)))
  /\ forall k, is_Some (cron_delivery_intent (tables s') !! k) -> k.2 = "lifecycle" ->
       is_Some (cron_delivery_intent (tables s) !! k).
Proof.
  intros Hg Hhook Hrun Hfail. unfold engine_run_one in Hrun. apply c_bind_ok_inv in Hrun as (at0 & s0 & Hnow & Hrun).
  injection Hnow as _ <-. rewrite Hhook in Hrun. cbn [stop_due] in Hrun.
  apply c_bind_ok_inv in Hrun as (stop & s1 & Hstop & Hrun). apply attempt_inv in Hstop.
  destruct (engine_stop_keeps schedule (hook_target schedule) (set_world (tick (world s)) s) Hg) as (Hg1 & HR1 & _).
  rewrite Hstop in Hg1, HR1. cbn [snd] in Hg1, HR1. destruct stop as [stop|e|]; [| |done].
  2: { apply c_bind_ok_inv in Hrun as (t & s2 & Ht & Hrun). apply (f_equal fst), failure_transition_inv in Ht as [d ->].
       apply c_bind_ok_inv in Hrun as (r & s3 & _ & Hret). by injection Hret as <- _. }
  destruct (stop_stop stop).
  { apply c_bind_ok_inv in Hrun as (reason & s2 & _ & Hrun).
    apply c_bind_ok_inv in Hrun as (r & s3 & _ & Hret). by injection Hret as <- _. }
  apply c_bind_ok_inv in Hrun as (applied & s2 & Hcommit & Hrun). apply attempt_inv in Hcommit.
  destruct applied as [[]|e|]; [|by injection Hrun as <- _..].
  destruct (engine_commit_applied _ Transition_StopCheckContinues _ s1 s2 Hg1 I Hcommit)
    as (at_ & w0 & intents & w1 & Hg0 & HR0 & Hc & Hg2 & HR2).
  destruct (fun Hk => continue_committed _ intents w0 w1 Hg0 Hk Hc) as (Hsch & Hlive & Hlatest & Hev & Hlife); [reflexivity|].
  simpl in Hlive, Hlatest, Hev. destruct HR2 as [Hs2 He2 Hk2].
  assert (HR3 : same_log (tables s2) (tables s')).
  { eapply (tick_failure_lost schedule (mkCronTransitionWrite _ _ at_ Transition_StopCheckContinues (stop_output stop)) _ s2 o s' Hg2); [reflexivity|reflexivity|reflexivity| | |exact Hrun|exact Hfail].
    - unfold cron_live. rewrite Hs2. exact Hlive.
    - rewrite (latest_same (db w1) (db (world s2))) by exact He2. exact Hlatest. }
  destruct HR0 as [Hs0 He0 Hk0]. destruct HR1 as [Hs1 He1 Hk1]. destruct HR3 as [Hs3 He3 Hk3].
  change (tables (set_world (tick (world s)) s)) with (tables s) in *. split_and!.
  - congruence.
  - eexists _, _. split; [|rewrite He3, He2, Hev, He0, He1; reflexivity]. reflexivity.
  - intros k Hin Hl. apply Hk1, Hk0, Hlife; [|done]. by apply Hk2, Hk3.
Qed.
End Quiet.

(** ** A run keeps the store *)

(** C27: whatever its ports and the other tasks do within the operations of the cron
    store, a run always ends with an outcome (an error of the store, of a port or
    of a delivery is logged, never raised), the cron tables are well formed
    afterwards, and their history is kept: no schedule is lost or goes back to an
    earlier generation, no event is changed, no delivery loses its payload or its
    settled receipt. *)
Theorem cron_run_keeps_store {rt : Runtime} {crt : CronRuntime} {crtok : CronRuntimeOk rt crt} {ports : CronPorts}
    (keep : PortsKeep tables_grow ports) schedule s :
  cron_good (tables s) ->
  exists o s', engine_run_one schedule s = (Ok o, s') /\ cron_good (tables s') /\ tables_grow (tables s) (tables s').
Proof.
  intros Hg. destruct (all_run_one (fun t Ht id g at_ outputs => commit_grows id g at_ t outputs Ht) mark_grows schedule s Hg)
    as (Hg' & HR & o & Ho & _).
  destruct (engine_run_one schedule s) as [o' s']. cbn [fst snd] in *. subst o'. by exists o, s'.
Qed.

(** ** Concrete runs *)

Lemma demo_ports_keep R tick_reply stop_reply :
  PreOrder R -> result_ok tick_reply_ok tick_reply -> result_ok stop_reply_ok stop_reply ->
  PortsKeep R (demo_ports tick_reply stop_reply).
Proof.
  intros HR Ht Hs. constructor; [exact HR|by split|..]; intros; intros w Hw; by split_and!.
Qed.

Definition go_on_reply : CronStopReply := mkCronStopReply false None [CronModuleOutput_Message "checked"].
Definition timed_out : Outcome AtmError CronTickReply := Err (atm_error_new HookTimeout "hook timed out").

#[local] Instance timeout_ports : CronPorts := demo_ports timed_out (Ok go_on_reply).
#[local] Instance timeout_ports_keep R (pre : PreOrder R) : PortsKeep R timeout_ports.
Proof. apply demo_ports_keep; [done|done|by split]. Qed.

Definition run_state : CronState := cron_state started.

Lemma run_state_good : cron_good (tables run_state).
Proof. exact (cron_reachable_good started started_reachable). Qed.

Lemma hook_failures_never_recorded_witness :
  exists s', engine_run_one (nightly_schedule StopCondition_Hook) run_state = (Ok Run_Timeout, s')
    /\ cron_schedule (tables s') = cron_schedule (tables run_state)
    /\ size (cron_transition_event (tables s')) = 1%nat /\ size (cron_delivery_intent (tables s')) = 1%nat.
Proof.
  assert (Hs : (engine_run_one (nightly_schedule StopCondition_Hook) run_state).1 = Ok Run_Timeout) by (vm_compute; reflexivity).
  assert (Hn : let s' := (engine_run_one (nightly_schedule StopCondition_Hook) run_state).2 in
    (size (cron_transition_event (tables s')), size (cron_delivery_intent (tables s'))) = (1%nat, 1%nat)) by (vm_compute; reflexivity).
  pose proof (fun o s' => hook_failures_never_recorded (nightly_schedule StopCondition_Hook) run_state o s' run_state_good eq_refl) as H.
  destruct (engine_run_one (nightly_schedule StopCondition_Hook) run_state) as [o s']. cbn [fst snd] in Hs, Hn. subst o.
  destruct (H Run_Timeout s' eq_refl I) as [Hsch _]. exists s'. injection Hn as Hn1 Hn2. by split_and!.
Defined.

Lemma cron_run_keeps_store_witness :
  exists o s', engine_run_one (nightly_schedule (StopCondition_Until 1000000000)) run_state = (Ok o, s')
    /\ cron_good (tables s') /\ tables_grow (tables run_state) (tables s').
Proof. exact (cron_run_keeps_store _ (nightly_schedule (StopCondition_Until 1000000000)) run_state run_state_good). Defined.
