(* ===== verification/CronSchedulerProps.v ===== *)
(** * What starting a schedule promises

    The start lock keeps other starts out, so the offsets held when the active
    schedules are listed are still the only ones when the new row is written:
    two schedules with one expression share an offset only when every offset is
    taken. *)

From S2P Require Import Prelude ErrorCodes Types Address TaskState CronTypes Database Transaction.
From S2P Require Import CronStore CronTransition CronDelivery CronTiming CronTimingProps.
From S2P Require Import CronEngine CronScheduler Demo CronDemo CronProps CronRunDemo CronEngineSpec CronEngineProps.
From stdpp Require Import base gmap strings numbers list sorting.
Local Open Scope Z_scope.
Local Open Scope string_scope.
Local Open Scope list_scope.

(** ** What may happen while the start lock is held *)

Definition same_slot (r r' : CronSqlRow) : Prop :=
  c_active r = 1 /\ cron_unique_key r' = cron_unique_key r /\ c_cron_expr r' = c_cron_expr r
  /\ c_jitter_s r' = c_jitter_s r.

(** Schedules may run, stop or be ended; none is started. *)
Definition no_start (c c' : CronTables) : Prop :=
  forall id r', cron_schedule c' !! id = Some r' -> c_active r' = 1 ->
    exists r, cron_schedule c !! id = Some r /\ same_slot r r'.

#[export] Instance no_start_preorder : PreOrder no_start.
Proof.
  split; [intros c id r Hr Ha; by exists r|]. intros c1 c2 c3 H1 H2 id r3 Hr3 Ha3.
  destruct (H2 id r3 Hr3 Ha3) as (r2 & Hr2 & Ha2 & Hk2 & He2 & Hj2).
  destruct (H1 id r2 Hr2 Ha2) as (r1 & Hr1 & Ha1 & Hk1 & He1 & Hj1).
  exists r1. split; [done|]. split_and!; [done|congruence..].
Qed.

(** Requests that a [CronStartSpec] can hold. *)
Record start_spec_ok {rt : Runtime} {crt : CronRuntime} (spec : CronStartSpec) : Prop := mkStartSpecOk {
  ss_phase : is_phase_id (spec_phase spec) = true;
  ss_timeout : 0 <= spec_timeout_ms spec <= u32_max;
  ss_stop : match spec_stop spec with StopCondition_Until at_ => rfc3339_range at_ | _ => True end;
  ss_custom : json_from_str (object_to_string (spec_custom spec)) = Some (Value_Object (spec_custom spec))
}.

Lemma decode_cron_columns {rt : Runtime} {crt : CronRuntime} id r s :
  decode_cron id r = Ok s ->
  sched_cron_expr s = c_cron_expr r /\ sched_jitter_s s = c_jitter_s r
  /\ (sched_team s, sched_phase s, sched_name s) = cron_unique_key r.
Proof.
  unfold decode_cron, mbind, outcome_mbind. cbv zeta. intros H.
  repeat match type of H with
  | outcome_bind _ ?o = Ok _ =>
    let E := fresh "E" in destruct o eqn:E; [cbn [outcome_bind] in H|discriminate H..]
  end.
  injection H as <-. unfold cron_unique_key. simpl. split_and!; [done| |].
  - unfold u32_try_from in E5. by destruct (bool_decide (0 <= c_jitter_s r <= u32_max)); [injection E5|discriminate E5].
  - unfold phase_id_parse in E3. by destruct (is_phase_id (c_phase r)); [injection E3 as <-|discriminate E3].
Qed.

Section Start.
Context {rt : Runtime} {crt : CronRuntime} {crtok : CronRuntimeOk rt crt}.

(** The offsets [held_jitters] collects. *)
Lemma elem_of_held w rows spec j :
  list_query None None true (db w) = Ok rows ->
  j ∈ held_jitters spec rows <->
    exists id r, cron_schedule (cron (db w)) !! id = Some r /\ c_active r = 1 /\ c_cron_expr r = spec_cron_expr spec
      /\ cron_unique_key r <> (spec_team spec, spec_phase spec, spec_name spec) /\ c_jitter_s r = j.
Proof.
  intros Hl. unfold list_query in Hl. apply read_rows_ok in Hl.
  assert (Hin : forall id r, (id, r) ∈ merge_sort cron_list_le (select_cron (cron_listed None None true) (cron_schedule (cron (db w))))
    <-> cron_schedule (cron (db w)) !! id = Some r /\ c_active r = 1).
  { intros id r. rewrite merge_sort_Permutation, elem_of_select. unfold cron_listed. naive_solver. }
  unfold held_jitters. rewrite list_elem_of_fmap. setoid_rewrite list_elem_of_filter. split.
  - intros (s & -> & (He & Hk) & [n Hs]%list_elem_of_lookup).
    destruct (Forall2_lookup_r _ _ _ _ _ Hl Hs) as ([id r] & Hkr & Hd%decode_cron_columns).
    apply list_elem_of_lookup_2, Hin in Hkr as [Hr Ha]. destruct Hd as (He' & Hj & Hkey). cbn [snd] in *. exists id, r.
    split_and!; [done|done|congruence| |done]. rewrite <- Hkey. intros [= H1 H2 H3]. naive_solver.
  - intros (id & r & Hr & Ha & He & Hk & <-). pose proof (proj2 (Hin id r) (conj Hr Ha)) as Hmem.
    apply list_elem_of_lookup in Hmem as [n Hn].
    destruct (Forall2_lookup_l _ _ _ _ _ Hl Hn) as (s & Hs & Hd%decode_cron_columns).
    destruct Hd as (He' & Hj & Hkey). cbn [snd] in *. apply list_elem_of_lookup_2 in Hs. exists s. split_and!; [done|congruence| |done].
    intros (H1 & H2 & H3). apply Hk. rewrite <- Hkey. by f_equal; [f_equal|].
Qed.

(** What a start that succeeds writes, and a start that fails leaves. *)
Lemma cron_start_result s w :
  cron_good (cron (db w)) -> new_schedule_ok s ->
  match cron_start s w with
  | (Ok sched, w') =>
    exists id g, sched = started_schedule id g s /\ cron_good (cron (db w'))
      /\ cron_schedule (cron (db w')) = <[id := with_generation g (inserted_row s)]> (cron_schedule (cron (db w)))
  | (Err e, w') => db w' = db w
  | (Panic, _) => False
  end.
Proof.
  intros Hg Hs. destruct (cron_step (Cron_Start s) w Hg Hs) as [Hg' _]. unfold cron_after in Hg'. revert Hg'. unfold cron_start.
  destruct (with_transaction_cases (cron_start_in s) w) as [(e & w' & -> & Hd & Hf)|Hc]; [done|].
  destruct (cron_start_in_cases s (tick w) (inv_schedules _ (proj1 Hg)) Hs)
    as [(id & g & c' & Hrun & Hok & Hsch & _)|(e & w' & Hrun & _)]; rewrite Hrun in Hc; rewrite Hc; [|done].
  intros Hg'. by exists id, g.
Qed.

Context {ports : CronPorts} {ce : CronExpr} {js : JitterSource} {jsok : JitterSourceOk js}.

(** A start that was accepted, as of the reading [now] of the clock. *)
Definition start_accepted (spec : CronStartSpec) (s s' : CronState) (sched : CronSchedule) : Prop :=
  exists now parsed j id g,
    expr_parse (spec_cron_expr spec) now = Ok parsed /\ stop_due (spec_stop spec) now = false
    /\ sched = started_schedule id g (new_schedule spec j now)
    /\ cron_live (tables s') id g
    /\ 0 <= j < jitter_upper parsed now /\ j < 1800
    /\ (forall first next, occurrence parsed now 0 = Some first -> occurrence parsed now 1 = Some next ->
          first < next -> j * 2 * second <= next - first)
    /\ (forall id' r', cron_schedule (tables s') !! id' = Some r' -> c_active r' = 1 -> id' <> id ->
          c_cron_expr r' = spec_cron_expr spec -> c_jitter_s r' = j ->
          forall o, 0 <= o < jitter_upper parsed now ->
            exists id0 r0, cron_schedule (tables s) !! id0 = Some r0 /\ c_active r0 = 1
              /\ c_cron_expr r0 = spec_cron_expr spec /\ c_jitter_s r0 = o).

Lemma store_call_run {A} (c : M A) s o w :
  c (world (others s)) = (o, w) -> o <> Panic -> store_call c s = (o, set_world w (others s)).
Proof. intros Hc Ho. unfold store_call, store_task. rewrite Hc. by destruct o. Qed.

(** From the listing of the active schedules on. *)
Lemma start_tail (keep : PortsKeep no_start ports) spec parsed now s :
  cron_good (tables s) -> start_spec_ok spec -> rfc3339_range now ->
  expr_parse (spec_cron_expr spec) now = Ok parsed -> stop_due (spec_stop spec) now = false ->
  match (rows ← store_call active_all;
         jitter_s ← draw_jitter parsed now (held_jitters spec rows);
         row ← store_call (cron_start (new_schedule spec jitter_s now));
         _ ← bump;
         mret row) s with
  | (Ok sched, s') => cron_good (tables s') /\ start_accepted spec s s' sched
  | (Err e, s') => cron_good (tables s') /\ no_start (tables s) (tables s')
  | (Panic, _) => False
  end.
Proof.
  intros Hg Hspec Hnow Hparse Hstop. destruct (keep_others s Hg) as [Hg1 HR1].
  set (w1 := world (others s)) in *.
  assert (Hall : active_all w1 = (list_query None None true (db w1), w1)) by reflexivity.
  destruct (list_query None None true (db w1)) as [rows|e|] eqn:Hl; [| |by apply read_rows_no_panic in Hl].
  2: { erewrite c_run_err by (by apply store_call_run). by split. }
  erewrite c_run_bind by (by apply store_call_run).
  set (s1 := set_world w1 (others s)).
  destruct (jitter_assign_range parsed now (held_jitters spec rows) (ticks w1) jsok) as (j & Hj & Hjr & Hheld).
  erewrite c_run_bind; [|unfold draw_jitter; cbn [s1 set_world world]; rewrite Hj; reflexivity].
  set (s2 := set_world (tick (world s1)) s1).
  destruct (keep_others s2 Hg1) as [Hg2 HR2]. set (w2 := world (others s2)) in *.
  pose proof (jitter_upper_range parsed now) as Hu.
  assert (Hok : new_schedule_ok (new_schedule spec j now))
    by (destruct Hspec; constructor; [done|done|simpl; unfold u32_max; lia|done..]).
  pose proof (cron_start_result (new_schedule spec j now) w2 Hg2 Hok) as Hstart.
  destruct (cron_start (new_schedule spec j now) w2) as [[sched|e|] w3] eqn:Hrun; [| |done].
  2: { erewrite c_run_err by (by apply store_call_run). split; unfold tables; simpl; rewrite Hstart; [done|].
       etrans; [exact HR1|exact HR2]. }
  erewrite c_run_bind by (by apply store_call_run). destruct Hstart as (id & g & -> & Hg3 & Hsch).
  split; [exact Hg3|]. exists now, parsed, j, id, g. split_and!; [done|done|done| |lia..| |].
  - exists (with_generation g (inserted_row (new_schedule spec j now))). unfold tables. simpl. rewrite Hsch, lookup_insert_eq.
    done.
  - intros first next. by apply jitter_half_gap.
  - intros id' r' Hr' Ha' Hne He' Hj' o Ho. unfold tables in Hr'. simpl in Hr'.
    pose proof (so_unique _ (inv_schedules _ (proj1 Hg3))) as Huniq.
    pose proof Hr' as Hrow. rewrite Hsch, lookup_insert_ne in Hr' by done.
    destruct (HR2 id' r' Hr' Ha') as (r1 & Hr1 & Ha1 & Hk1 & He1 & Hj1).
    assert (Hin : j ∈ held_jitters spec rows).
    { apply (elem_of_held w1 rows spec j Hl). exists id', r1. split_and!; [exact Hr1|done|congruence| |congruence].
      intros Hk. apply Hne. eapply Huniq; [exact Hrow|rewrite Hsch; apply lookup_insert_eq|]. by rewrite Hk1, Hk. }
    apply (elem_of_held w1 rows spec o Hl) in Hheld as (id0 & r0 & Hr0 & Ha0 & He0 & _ & Hj0); [|done|done].
    destruct (HR1 id0 r0 Hr0 Ha0) as (r & Hr & Ha & _ & He & Hj''). exists id0, r. split_and!; [done|done|congruence..].
Qed.

Lemma start_accepted_earlier spec s0 s s' sched :
  no_start (tables s0) (tables s) -> start_accepted spec s s' sched -> start_accepted spec s0 s' sched.
Proof.
  intros HR (now & parsed & j & id & g & Hp & Hst & Hsched & Hlive & Hj & Hj2 & Hgap & Hsp). exists now, parsed, j, id, g.
  split_and!; [done..|lia|lia|done|done|]. intros id' r' Hr' Ha' Hne He' Hj' o Ho.
  destruct (Hsp id' r' Hr' Ha' Hne He' Hj' o Ho) as (id0 & r0 & Hr0 & Ha0 & He0 & Hj0).
  destruct (HR id0 r0 Hr0 Ha0) as (r & Hr & Ha & _ & He & Hjr). exists id0, r. split_and!; [done|done|congruence..].
Qed.

(** Starting a schedule, while the start lock keeps other starts out and other
    tasks may run, stop or end schedules: an accepted schedule has an expression
    with an occurrence to come and a stop time to come, is live in the store as
    returned, and gets an offset of at most half the gap between its next two
    occurrences and below half an hour, one that no other active schedule with the
    same expression has unless all the offsets it could get were taken.  A refused
    start, and a start on a stopped scheduler, activates nothing. *)
Theorem scheduler_start_spreads (keep : PortsKeep no_start ports) spec s :
  cron_good (tables s) -> start_spec_ok spec -> (forall n, rfc3339_range (clock_at n)) ->
  match scheduler_start spec s with
  | (Ok sched, s') => cron_stopped s = false /\ cron_good (tables s') /\ start_accepted spec s s' sched
  | (Err e, s') => cron_good (tables s') /\ no_start (tables s) (tables s')
  | (Panic, _) => False
  end.
Proof.
  intros Hg Hspec Hclock. destruct (keep_others s Hg) as [Hg1 HR1]. unfold scheduler_start.
  destruct (cron_stopped s) eqn:Hs0.
  { erewrite c_run_err by (unfold check_running; by rewrite Hs0). by split. }
  erewrite c_run_bind by (unfold check_running; rewrite Hs0; reflexivity). erewrite c_run_bind by reflexivity.
  destruct (cron_stopped (others s)) eqn:Hs1.
  { erewrite c_run_err by (unfold check_running; by rewrite Hs1). by split. }
  erewrite c_run_bind by (unfold check_running; rewrite Hs1; reflexivity). erewrite c_run_bind by reflexivity.
  set (now := clock_at _). set (s2 := set_world _ _).
  destruct (expr_parse (spec_cron_expr spec) now) as [parsed|e|] eqn:Hp; [|by erewrite c_run_err by reflexivity|].
  2: { exfalso. revert Hp. unfold expr_parse, parse_syntax. repeat (case_match; simpl; try done). }
  erewrite c_run_bind by reflexivity. destruct (stop_due (spec_stop spec) now) eqn:Hst; [by split|].
  pose proof (start_tail keep spec parsed now s2 Hg1 Hspec (Hclock _) Hp Hst) as Ht.
  destruct ((store_call active_all ≫= _) s2) as [[sched|e|] s']; [| |exact Ht].
  - destruct Ht as [Hg' Ha]. split_and!; [done|done|]. by apply (start_accepted_earlier spec s s2).
  - destruct Ht as [Hg' HR]. split; [done|]. etrans; [exact HR1|exact HR].
Qed.
End Start.

(** ** A concrete start *)

Definition hourly_spec : CronStartSpec :=
  {| spec_team := "alpha"; spec_phase := "bk"; spec_name := "hourly"; spec_cron_expr := "0 0 3 * * *";
     spec_module_path := "/hooks/hourly.py"; spec_cwd := "/work"; spec_args := []; spec_timeout_ms := 1000;
     spec_custom := []; spec_stop := StopCondition_Hook; spec_created_by := "bob" |}.

(** A source that draws the sixth offset, which an active schedule holds. *)
#[local] Instance sixth_offset : JitterSource := fun _ upper => Z.min 5 (upper - 1).
#[local] Instance sixth_offset_ok : JitterSourceOk sixth_offset.
Proof. intros n upper Hu. unfold below, sixth_offset. lia. Qed.

#[local] Instance start_ports : CronPorts := demo_ports (Ok (TickReply_PassThrough [])) (Ok (mkCronStopReply false None [])).
#[local] Instance start_ports_keep : PortsKeep no_start start_ports.
Proof. apply demo_ports_keep; [apply _|done|by split]. Qed.

Lemma scheduler_start_spreads_witness :
  exists sched s', scheduler_start (ce := minutely) hourly_spec run_state = (Ok sched, s')
    /\ sched_jitter_s sched = 6 /\ cron_good (tables s') /\ start_accepted (ce := minutely) hourly_spec run_state s' sched.
Proof.
  assert (Hj : match (scheduler_start (ce := minutely) hourly_spec run_state).1 with Ok sched => sched_jitter_s sched | _ => 0 end = 6)
    by (vm_compute; reflexivity).
  assert (Hspec : start_spec_ok hourly_spec) by (constructor; [reflexivity|unfold u32_max; simpl; lia|exact I|reflexivity]).
  pose proof (scheduler_start_spreads (ce := minutely) start_ports_keep hourly_spec run_state run_state_good Hspec) as H.
  specialize (H ltac:(intros n; unfold rfc3339_range, clock_at; simpl; unfold second; lia)).
  destruct (scheduler_start (ce := minutely) hourly_spec run_state) as [[sched|e|] s']; [|discriminate Hj..].
  destruct H as (_ & Hg & Ha). by exists sched, s'.
Defined.
